(* ===== verification/_CoqProject ===== *)
-Q . S2P
Prelude.v
Paging.v
StateError.v
Calendar.v
Jcs.v
JsonText.v
JsNumber.v
Tcpa.v
Partition.v
Rbac.v
Sessions.v
Auth.v
AuthSystem.v
AuthTheorems.v
Coaching.v
CoachingScores.v
CoachingTheorems.v
CoachingRuns.v
CoachingReports.v
Zod.v
CampaignSchema.v
Campaigns.v
CampaignColumns.v
CampaignRuns.v
CampaignTheorems.v
CampaignShortfalls.v
AdminUsers.v
AdminUserTheorems.v
StatusCache.v
Statuses.v
StatusTheorems.v
StatusShortfalls.v
Leads.v
LeadsTheorems.v
LeadPatches.v
Lists.v
ListBatches.v
ListTheorems.v
ListRuns.v
Dnc.v
DncSync.v
DncTheorems.v
ImportMapping.v
ImportPipeline.v
ImportTheorems.v
ImportApi.v
ImportApiTheorems.v
Ivr.v
IvrXml.v
IvrDialplan.v
IvrStore.v
IvrAdmin.v
IvrTheorems.v
IvrShortfalls.v
Merkle.v
AuditCanonical.v
AuditChain.v
CallbackDb.v
Callbacks.v
CallbackWorker.v
CallbackSystem.v
CallbackTheorems.v
