(* ===== verification/Prelude.v ===== *)
(** * Verification of vici2's TypeScript core

    vici2 is a contact-centre system: an API and background workers in TypeScript
    ([src/api], [src/workers], with [src/shared] between them), a dialer in Go and a
    web client.  This development models parts of the TypeScript program and proves
    what makes them correct.  A definition has the name of the function it
    translates; where a handler is split, the parts are named after what they do.

    ** Parts, and where they come from

    - [Calendar]: JavaScript dates.  A [Date] is its number of milliseconds; the
      proleptic Gregorian calendar is proved inverse to day numbers, and the printed
      forms ([toISOString] and the shorter ones) injective.
    - [Paging]: sorted rows, filters and limits, the condition of a keyset cursor, and
      numbered pages.
    - [Jcs]: [shared/lib/jcs.ts], canonical JSON.  [JsonText]: [JSON.stringify] and
      [JSON.parse] as functions on texts.
    - [Tcpa]: [api/src/compliance/tcpa], the calling-window gate with its state rules
      and holiday calendar.
    - [Partition]: [api/src/services/partition], the monthly rotation of partitioned
      tables, with the server's tables as its state.
    - [Rbac]: [shared/types/src/rbac.ts] and [shared/auth/rbac]: roles, verbs, the
      permission matrix, [Can], the audited decision and the WebSocket map.
    - [Sessions]: refresh tokens and failed-login counters in Redis
      ([api/src/auth/refresh.ts] with its script, [api/src/auth/lockout.ts]).
    - [Auth]: access tokens, the guards of routes and the login, refresh, logout,
      password and WebSocket-token routes ([api/src/auth], [api/src/routes/auth]).
    - [AuthSystem], [AuthTheorems]: these requests as transitions of one system, its
      invariant, and what holds of every run.
    - [Leads], [LeadsTheorems], [LeadPatches]: leads ([api/src/leads]): cursors, lists,
      export, creation, patches with their optimistic lock, deletion; what holds of every
      run of these requests; what a patch does and where the routes fall short.
    - [Lists], [ListBatches], [ListTheorems], [ListRuns]: lists of leads ([api/src/lists],
      [api/src/workers/list-ops.ts]): lists and their campaigns, reset, purge and clone in
      batches, statistics, jobs; the loops against doing the work at once; every run of the
      requests on lists and on leads.
    - [JsNumber]: JavaScript numbers, as integers in texts and as IEEE 754 doubles (the
      specification floats of the Standard Library).
    - [Coaching], [CoachingScores], [CoachingTheorems], [CoachingRuns], [CoachingReports]:
      coaching ([api/src/services/coaching] and its routes): templates of scorecards and
      their versions, scores, scorecards, annotations and feedback; what criteria and scores
      mean; every request as one of thirteen changes; every run of the requests; the
      reports.
    - [StateError]: operations over a state that may throw, and what they leave.
      [Zod]: bodies and queries of requests as the schema library reads them.
    - [CampaignSchema], [Campaigns], [CampaignColumns], [CampaignRuns], [CampaignTheorems],
      [CampaignShortfalls]: campaigns ([api/src/routes/campaigns]): the schemas and the
      filter of leads; the columns of the table, the service and its routes; that what a
      schema lets through its column takes; every run of the requests; what a patch and a
      filter do; where they fall short.
    - [AdminUsers], [AdminUserTheorems]: the administration of users
      ([api/src/routes/admin/users]) and what holds of every run of its requests.
    - [StatusCache], [Statuses], [StatusTheorems], [StatusShortfalls]: statuses of calls
      ([api/src/statuses], [api/src/routes/admin/statuses]): the cache of a process; the three
      layers of a status, both routes and the processes; every run of them, what the merge
      and a patch show; where they fall short.
    - [Dnc], [DncSync], [DncTheorems]: the do-not-call registry ([api/src/dnc],
      [api/src/routes/dnc]): the check and its Bloom filters, the routes and the bulk
      import, bypass tokens; the federal delta sync; what holds of them.
    - [ImportMapping], [ImportPipeline], [ImportTheorems]: the lead import.  The first
      is encoding, delimiter and the mapping of columns ([api/src/import/mapping] and
      [workers/src/jobs/lead-import/mapping.ts]); the second the stages of
      [workers/src/jobs/lead-import/pipeline] as steps of a stream.
    - [ImportApi], [ImportApiTheorems]: the import routes ([api/src/import]) and the job
      that an upload queues.
    - [Ivr]: [api/src/services/ivr/IvrValidator.ts], validation of IVR graphs.
    - [IvrXml], [IvrStore], [IvrAdmin]: the dialplan of an IVR ([XmlBuilder.ts]) as
      extensions and their text; tables, files and the renderer ([IvrRenderer.ts]); the
      administration ([api/src/routes/admin/ivr.ts]) with the upload of prompts
      ([PromptUploader.ts]) and the log of calls ([api/src/routes/internal/ivr-hooks.ts]).
      [IvrDialplan], [IvrTheorems], [IvrShortfalls]: the dialplan against the graph; every
      run of the requests; where they fall short.
    - [Merkle]: [shared/lib/merkle.ts], Merkle roots and inclusion proofs.
    - [AuditCanonical]: [api/src/services/audit/canonicalize.ts], the canonical text
      of the rows of five audit tables.
    - [AuditChain]: the verifier ([api/src/services/audit/verifier.ts]), the daily
      attestation worker ([workers/src/jobs/audit-attest]) and the triggers that chain
      rows when they are inserted, with the text that their SQL builds; tables keep
      microseconds, the driver's dates milliseconds.
    - [CallbackDb], [Callbacks], [CallbackWorker]: callbacks.  The first is the shared
      state (a record of tables, with the audit log, events and notices written) and
      the database calls, in a state and error monad; the second the state machine,
      authorisation and operations of [api/src/callbacks]; the third the workers
      ([workers/src/jobs/callback-fire]) and inbound callbacks
      ([api/src/inbound-callbacks/service.ts]).
    - [CallbackSystem], [CallbackTheorems]: the requests as transitions of the shared
      state, the invariant, and what holds of every run.

    [AuditChain] uses [AuditCanonical], [Merkle] and [Jcs]: an audit row is hashed over
    its canonical text and the previous row's hash, a day's row hashes form a Merkle
    tree, and the attestation signs the root in canonical JSON.  [Callbacks] uses the
    roles of [Rbac].  The import scrubs its rows against the registry of [Dnc], and its
    routes have the guards of [Auth].

    ** What is proved

    - Audit.  The canonical text determines the row, if its texts hold no separator and
      none is the mark of a null ([canonical_text_binding], [null_collides]); a root
      determines its leaves ([merkle_root_binding]), proofs verify and are sound
      ([inclusion_proofs_verify], [inclusion_sound]); an accepted day of such rows cannot
      have been altered under the same root ([tamper_evident]); a day written through the
      triggers is accepted when the trigger's text of each row is the verifier's
      ([triggered_day_verifies_iff]), which it is not for a row with microseconds
      ([micros_mismatch]); when the day a worker attested is accepted
      ([attested_day_accepted_iff]).
    - Callbacks.  Over all runs each request moves a callback by at most one legal
      transition of its own ([callback_lifecycle]); the separation of tenants and what an
      agent may change ([tenant_isolation], [agent_authority]); what claiming, cancelling, firing, the no-answer hook and the
      bulk operations do ([claim_outcome], [cancel_outcome], [tick_fires_due],
      [no_answer_outcome], [bulk_cancel_outcome]).
    - Access control.  [Can] implements the policy read off the matrix
      ([Can_implements_policy]), promotion keeps access, decisions are audited.
    - Calling windows.  For the zones and windows it knows the gate allows exactly the
      instants that an independent reading of the windows, their days of the week and the
      holidays of the code's table calls lawful ([check_decision]); where the next opening is ([next_day_open]); the holiday
      calendar against its rules ([holiday_calendar]).
    - Partitions.  What a rotation leaves of a table ([rotation_layout]), what a drop
      needs ([drop_requires_gates]), and that a run each month keeps the table ahead of
      its data ([monthly_rotations]), over the months of 1970 to 2099.
    - Do-not-call.  The check decides what the registry lists while the filters cover
      the table ([dnc_check_decides]), which they do but for state lists in every run where
      no statement and no Valkey command fails ([registry_covered],
      [state_list_one_tenant], [post_without_valkey]); what a delta file does to each
      number ([federal_sync_outcome]); a bypass token is good once ([bypass_once]).
    - Authentication.  Over all runs a refresh token is accepted at most once
      ([refresh_single_use]); what a spent token misses while a refresh is in
      flight ([spent_in_flight]), what a logout everywhere does and misses
      ([logout_all_outcome]), and what escapes a revocation whose commands are interleaved
      with a refresh ([revoked_between]); how failed logins lock a
      name ([lockout_ladder]); what a signed token authenticates as
      ([signed_tokens_unscoped]).
    - Leads.  Over all runs tenants stay apart ([lead_tenant_isolation]) and of the patches
      of one version at most one takes effect ([patch_version_lock]); what a patch does
      ([patch_outcome]); following cursors shows each lead once ([lead_pages_exact]); the
      export can be read back ([export_reads_back]).  JSON texts are read as the values
      printed ([parse_stringify]).
    - Lists.  A purge in batches is a purge at once ([purge_complete]), as is a reset where
      its cursor is sound ([reset_complete]), and a clone copies each lead once
      ([clone_copies]); what an attempt leaves any of whose steps may fail
      ([purge_attempt]); over all runs with
      the requests on leads the tables stay consistent and tenants apart ([list_runs]).
    - Coaching.  Which criteria a template may have ([criteria_accepted]); over all runs the tables stay consistent and a
      finalized scorecard stays as it is until it is unlocked ([coaching_runs]); a trend
      counts every evaluation once ([trend_accounts]).
    - Campaigns.  Over all runs the tables stay consistent and each setting is one its schema
      lets through ([campaign_runs]); what a patch does ([patch_campaign_outcome]); which
      filters of leads are accepted ([lead_filter_accepted]), and that this is less than
      the plan asks ([filters_pass]).
    - Users.  Over all runs nobody gets a role above that of the one who gives it
      ([roles_given]) and names stay unique, tenants apart and changes audited
      ([user_runs]); the pages of a list show every user once ([user_pages_exact]).
    - Statuses.  Over all runs and in all processes tables and caches stay sound and tenants
      apart ([status_runs]); the merge of the layers names a column that no migration adds
      and so never runs ([merge_never_runs]); which changes of status are allowed
      ([transition_allowed]).
    - Lead import.  What the mapping reads and that the preview agrees with it
      ([mapping_reads_columns], [preview_agrees]); what a normalised lead is
      ([normalized_row_ok]); duplicates ([dedup_outcome]); that the scrub lets no listed
      number through ([scrub_blocks_listed]) while the filters cover the table and no number has more rows
      than are read, and that errors are counted up to their cap ([errors_collected]); the life of an import ([import_lifecycle]) and the pages of
      the imports ([import_pages_end]).
    - IVR graphs.  Acceptance means well-formed and acyclic ([validate_sound]), and
      shallow well-formed graphs are accepted ([validate_complete]).
    - IVR dialplans.  Transfers go along the edges of the validated graph and nowhere
      else ([dialplan_moves], [dialplan_closed]), what is pressed decides as the edges say
      within a branch ([branch_decides]), and values are escaped ([values_escaped]); over
      all runs tables and files stay sound ([ivr_runs]) and other tenants' IVRs, nodes and
      numbers as they are ([other_tenants_keep]); what rendering and deleting do
      ([render_writes], [deleted_is_gone]); analytics ([analytics_counts]).
    - Canonical JSON does not depend on key order ([canonicalize_key_order]).
    - Where the code falls short of its own intent, a theorem says how:
      [null_collides], [dnc_sync_log_unverifiable], [merkle_root_duplicate_last],
      [inclusion_index_unbound], [ws_agent_ops_refused], [depth_cap_missed],
      [evening_skip_in_past], [campaign_days_ignored], [snooze_revives_terminal],
      [bulk_reassign_unchecked], [listMine_cursor_skips], [rotation_stuck],
      [lockout_per_spelling], [superadmin_cannot_login], [sync_never_reports],
      [removed_number_stays_callable], [insert_never_runs], [litigators_imported],
      [alt_phone_is_main], [preview_swallows], [errors_overwrite_source],
      [preview_reads_any_path], [pages_skip_ties], [queue_down_orphans], [bulk_never_inserts],
      [patches_overlap], [patch_owner_fails], [leads_refuse_agents], [lead_pages_skip],
      [reset_stops_early], [clone_leaves_list], [clone_copies_twice], [none_callable],
      [purged_list_stays], [auto_fail_unflagged], [score_above_maximum], [shared_identifier],
      [annotation_crosses_tenants], [coaching_refuses_agents], [long_user_agent_unaudited],
      [trend_names_day_before], [no_campaign_created], [drop_target_unpatchable],
      [drop_target_unread], [patch_breaks_relations], [multiplier_rounded], [links_misled],
      [override_body_wins], [supervisors_cannot_start], [admin_unseats_superadmin],
      [integrators_uncreatable], [audit_actions_misnamed], [foreign_group],
      [last_admin_leaves], [merge_never_runs], [patch_writes_and_throws], [null_shows_system],
      [calls_dropped], [description_resets_delay], [unknown_code_written],
      [hotkey_taken_twice], [system_row_patched], [shadow_not_deleted], [cache_not_told],
      [micros_mismatch], [revoked_between], [spent_in_flight], [filters_pass],
      [names_not_cut], [post_without_valkey], [later_nodes_unreached], [pressed_key_loops],
      [terminators_end_the_value], [names_end_the_comment], [star_is_no_literal],
      [goodbye_is_an_extension], [other_keys_are_spanish], [foreign_edge],
      [foreign_prompt], [prompts_unplayed], [deleted_comes_back], [routes_left],
      [edges_unanswered], [members_unwritten], [any_target], [visits_logged_as_keys].

    ** Parameters and hypotheses

    SHA-256, the Ed25519 signature, base64 and the object store are parameters; a
    theorem that needs SHA-256 to be collision free asks it only of the inputs that are
    hashed ([collision_free] of a list), and a witness satisfies it with a concrete
    function.  The time zone database is a parameter of the gate, Redis's answers (the
    lock, the de-duplication keys, an agent's status) are parameters of the workers.
    The clock is an argument; a request runs at one instant.  What the MySQL server
    refuses, attests and reports of its disk are parameters of the rotation.  Password
    hashing, the list of leaked passwords, the JWT library and the collation of the
    users table are parameters of the authentication routes; fresh tokens and
    identifiers are arguments, and a run takes only fresh ones.  What the filter module
    promises is the class [BloomFilter] with its laws, no false negatives; the phone
    number library, the choice of rows under a [LIMIT] and the FTC's service are
    parameters of the registry.  The phone library, base64url and the
    collation are the [Host] and [Library] of the leads; what MySQL counts as affected by an update, the
    words it reserves, the order of texts and the groups of a query are the [Server] of the
    lists, whose campaigns are named in the spelling of their table.  The texts a column
    accepts, the collation, an equivalence, and [Number] of texts that are no integers are
    the [CoachServer] of coaching, and the library of dates, which counts forward, the
    [Dates] of its reports.  The texts a column of a campaign accepts, the collation, the
    order of rows, whether a patch of nothing touches the time stamp, what is a URL and
    [Number] of other texts are the [CampaignServer]; identifiers are given in the spelling of
    their tables.  The collation, an equivalence, the order of a column, what contains a text,
    e-mail addresses, the password hash and [Number] are the [UserServer].  What the collation
    compares, the texts a column takes, their order, the spelling that [DISTINCT] keeps, the
    row that [findFirst] finds, what contains a text and [Number] are the [StatusServer].
    The collation, the order in which rows are found, paths and dates of an IVR are the
    [IvrServer]; which files can be written, the clock and Redis the [IvrEnv] of a request;
    what FreeSWITCH's regular expressions match is the class [Matcher], with laws for the
    expressions that the builder writes; ffmpeg, ffprobe and the stores of prompts are
    [PromptTools].  The JSON text of a column and the identifier of a row before it is
    inserted are the class [MySql] of the audit triggers.  The CSV parser, the character set detector, the phone
    and the date library, the rounding and printing of numbers beyond 2^53 and the
    schemas of request bodies are parameters of the import.

    ** Concurrency

    A database transaction is one step.  [handle] serves a request alone; the reads a
    handler makes before its transaction are definitions of their own where another
    request between them and the transaction matters ([snooze_check] and
    [snooze_commit]).  The transaction of a lead's patch is [patch_begin], its read, and
    [patch_commit], its write.  An attempt at a list job is one step, between attempts
    other requests run.  A refresh is two steps, [refresh_begin] up to the answer of the script
    and [refresh_finish] after it, between which other requests run.  Revoking tokens is one
    step of a run, though the code awaits each of its commands: [revoked_between] shows the
    token that a refresh between them keeps alive.  A request on statuses
    runs in one of several processes, each with its cache; messages between them are
    delivered at any time after they are published.

    ** Fuel

    The depth-first search of [Ivr] cuts every branch at depth 4, so that its fuel of 5
    is enough ([validate_has_fuel]); [next_day] of [Tcpa] has the fourteen rounds of
    its loop as its fuel.  [reduce] of [Merkle] has the number of
    nodes, which is proved enough.  The buckets of a trend have one round more than the periods of
    22 hours that fit, which is proved enough.  [JSON_parse] has twice the length of the text and two,
    from which on more fuel reads the same ([json_fuel_enough]); the loop of the lead
    export and those of the lists' batches have a round more than there are leads, which is
    proved enough.  Every other recursion is structural.

    ** Not modelled

    HTTP parsing and replies, metrics and log lines; the tables' columns no modelled
    operation uses; [createStubLead] and the in-group queue listing of inbound
    callbacks; code points above the basic plane and non-integer numbers in [Jcs]; the
    Go dialer, the web client and the clients of external services.  TOTP enrolment, SIP
    credentials, the key set and envelope encryption.  Rows of other tables that go with a
    campaign or a user are not in the state.  The disposition service, which has no caller, and
    the bulk reset of statuses, whose statements the database refuses.  The lead import's stages are run
    one after the other on whole lists, as Node's streams do but for back-pressure; its
    processor, which would connect them, is a stub in the source, and they are not put
    together here.  The [callback_accept] hook of IVRs.  The
    permission cache ([shared/auth/rbac/cache.ts]) has no caller, and the plugin that resolves
    time zones ([api/src/tz]) is registered nowhere.

    This file holds what the others share: results, decimal text, strings, splitting
    and joining. *)

From Stdlib Require Export Ascii ZArith Lia ZifyNat Sorted.
From stdpp Require Export strings gmap list.
From Stdlib Require Import DecimalString DecimalZ.

(** [lia] treats division and remainder by constants as well. *)
Ltac Zify.zify_post_hook ::= Z.div_mod_to_equations.

(** ** Results of fallible code

    A [throw] of the source is the [Err] of a [result]; its argument is the
    error value the source throws. *)

Inductive result (E A : Type) :=
  | Ok (a : A)
  | Err (e : E).
Arguments Ok {E A} _.
Arguments Err {E A} _.

#[export] Instance result_ret {E} : MRet (result E) := λ A a, Ok a.
#[export] Instance result_bind {E} : MBind (result E) := λ A B f r,
  match r with Ok a => f a | Err e => Err e end.
#[export] Instance result_fmap {E} : FMap (result E) := λ A B f r,
  match r with Ok a => Ok (f a) | Err e => Err e end.

(** [guard_or b e] throws [e] unless [b]. *)
Definition guard_or {E} (b : bool) (e : E) : result E unit :=
  if b then Ok () else Err e.

Definition of_option {E A} (e : E) (o : option A) : result E A :=
  match o with Some a => Ok a | None => Err e end.

Definition is_ok {E A} (r : result E A) : bool :=
  match r with Ok _ => true | Err _ => false end.

#[export] Instance Ok_inj {E A} : Inj (=) (=) (@Ok E A).
Proof. congruence. Qed.

Lemma bind_ok {E A B} (f : A → result E B) r b :
  (r ≫= f) = Ok b ↔ ∃ a, r = Ok a ∧ f a = Ok b.
Proof. destruct r; cbn; split; [eauto|intros (?&[= ->]&?); done|done|intros (?&?&?); done]. Qed.

Lemma guard_or_ok {E} b (e : E) u : guard_or b e = Ok u ↔ b = true.
Proof. destruct b; destruct u; cbn; split; congruence. Qed.

Lemma of_option_ok {E A} (e : E) (o : option A) a :
  of_option e o = Ok a ↔ o = Some a.
Proof. destruct o; cbn; naive_solver. Qed.

(** ** Numbers as text

    [zs n] is JavaScript's [String(n)] for an integer (a [bigint], or a
    [number] below 2^53); [bigint_of s] is [BigInt(s)] on decimal digits with an
    optional sign and on the empty string, [None] standing for the
    [SyntaxError]. *)

Definition zs (n : Z) : string := NilZero.string_of_int (Z.to_int n).

Definition bigint_of (s : string) : option Z :=
  match s with
  | EmptyString => Some 0%Z
  | _ => Z.of_int <$> NilZero.int_of_string s
  end.

(** Characters of a string satisfying a boolean test. *)
Fixpoint string_forallb (p : ascii → bool) (s : string) : bool :=
  match s with
  | EmptyString => true
  | String c s' => p c && string_forallb p s'
  end.

Definition lacks (c : ascii) : string → bool :=
  string_forallb (λ d, negb (Ascii.eqb c d)).

Create Rewrite HintDb strs.

Lemma string_app_cons c s t : String c s +:+ t = String c (s +:+ t).
Proof. done. Qed.

Lemma string_app_nil_l s : EmptyString +:+ s = s.
Proof. done. Qed.

Lemma string_app_nil_r s : s +:+ EmptyString = s.
Proof. induction s as [|c s IH]; [done|]. by rewrite string_app_cons, IH. Qed.

Lemma string_app_assoc s t u : (s +:+ t) +:+ u = s +:+ (t +:+ u).
Proof. induction s as [|c s IH]; [done|]. by rewrite !string_app_cons, IH. Qed.

Lemma length_string_app s t : String.length (s +:+ t) = (String.length s + String.length t)%nat.
Proof. induction s as [|c s IH]; [done|]. rewrite string_app_cons. cbn. by rewrite IH. Qed.

#[export] Hint Rewrite string_app_cons string_app_nil_l string_app_nil_r string_app_assoc : strs.

Lemma app_suffix_inj s1 t1 s2 t2 :
  String.length t1 = String.length t2 → s1 +:+ t1 = s2 +:+ t2 → s1 = s2 ∧ t1 = t2.
Proof.
  intros Hl. revert s2. induction s1 as [|a s1 IH]; intros [|b s2]; autorewrite with strs.
  - done.
  - intros H. apply (f_equal String.length) in H. cbn in H. rewrite length_string_app in H. lia.
  - intros H. apply (f_equal String.length) in H. cbn in H. rewrite length_string_app in H. lia.
  - intros [= -> H]. by destruct (IH s2 H) as [-> ->].
Qed.

Lemma string_forallb_app p s t :
  string_forallb p (s +:+ t) = string_forallb p s && string_forallb p t.
Proof.
  induction s as [|c s IH]; [done|].
  rewrite string_app_cons. cbn. by rewrite IH, andb_assoc.
Qed.

Lemma lacks_app c s t : lacks c (s +:+ t) = lacks c s && lacks c t.
Proof. apply string_forallb_app. Qed.

Lemma lacks_cons c d s : lacks c (String d s) = negb (Ascii.eqb c d) && lacks c s.
Proof. done. Qed.

Lemma string_forallb_impl (p q : ascii → bool) s :
  (∀ c, p c = true → q c = true) →
  string_forallb p s = true → string_forallb q s = true.
Proof.
  intros Hpq. induction s as [|c s IH]; cbn; [done|].
  rewrite !andb_true_iff. intros [Hc Hs]. auto.
Qed.

Definition decimal_char (c : ascii) : bool :=
  let n := N_of_ascii c in
  ((48 <=? n) && (n <=? 57) || (n =? 45))%N.

Lemma uint_chars d : string_forallb decimal_char (NilEmpty.string_of_uint d) = true.
Proof. induction d as [|d IH|d IH|d IH|d IH|d IH|d IH|d IH|d IH|d IH|d IH]; [done|..]; exact IH. Qed.

Lemma zs_chars n : string_forallb decimal_char (zs n) = true.
Proof.
  unfold zs, NilZero.string_of_int.
  destruct (Z.to_int n) as [d|d]; destruct d; try done;
    exact (uint_chars _).
Qed.

Lemma zs_lacks c n : decimal_char c = false → lacks c (zs n) = true.
Proof.
  intros Hc. eapply string_forallb_impl, zs_chars. intros d Hd; cbn.
  destruct (Ascii.eqb_spec c d) as [->|]; [congruence|done].
Qed.

Lemma to_int_nonnil n : Z.to_int n ≠ Decimal.Pos Decimal.Nil ∧ Z.to_int n ≠ Decimal.Neg Decimal.Nil.
Proof.
  split; intros H; pose proof (of_to n) as Hn; rewrite H in Hn; cbn in Hn;
    subst n; discriminate H.
Qed.

Lemma zs_int n : NilZero.int_of_string (zs n) = Some (Z.to_int n).
Proof. apply NilZero.isi; apply to_int_nonnil. Qed.

Lemma zs_nonempty n : zs n ≠ EmptyString.
Proof. intros H. pose proof (zs_int n) as Hi. by rewrite H in Hi. Qed.

(** [BigInt(String(n)) === n]. *)
Lemma bigint_of_zs n : bigint_of (zs n) = Some n.
Proof.
  pose proof (zs_nonempty n) as Hne. unfold bigint_of.
  destruct (zs n) as [|c s] eqn:Hs; [done|].
  rewrite <- Hs, zs_int. cbn. by rewrite of_to.
Qed.

Lemma app_sep_inj c s1 t1 s2 t2 :
  lacks c s1 = true → lacks c s2 = true →
  s1 +:+ String c t1 = s2 +:+ String c t2 → s1 = s2 ∧ t1 = t2.
Proof.
  unfold lacks. revert s2. induction s1 as [|a s1 IH]; intros [|b s2]; autorewrite with strs; cbn.
  - by intros _ _ [= ->].
  - intros _ H2 [= <- _]. by rewrite Ascii.eqb_refl in H2.
  - intros H1 _ [= -> _]. by rewrite Ascii.eqb_refl in H1.
  - rewrite !andb_true_iff. intros [_ H1] [_ H2] [= -> H]. by destruct (IH s2 H1 H2 H) as [-> ->].
Qed.

#[export] Instance zs_inj : Inj (=) (=) zs.
Proof. intros a b H. pose proof (bigint_of_zs a). rewrite H, bigint_of_zs in *. congruence. Qed.

(** ** Joining and splitting

    [join sep l] is [l.join(sep)], [split_on c s] is [s.split(c)] for a
    one-character separator: it always returns at least one part. *)

Abbreviation join := String.concat.

Fixpoint split_on (c : ascii) (s : string) : list string :=
  match s with
  | EmptyString => [EmptyString]
  | String d s' =>
      if Ascii.eqb c d then EmptyString :: split_on c s'
      else match split_on c s' with
           | [] => [String d EmptyString]
           | w :: ws => String d w :: ws
           end
  end.

Definition char (c : ascii) : string := String c EmptyString.

(** The rest of a text after its first character, when that is [c]. *)
Definition eat (c : ascii) (s : string) : option string :=
  match s with String d s' => if Ascii.eqb c d then Some s' else None | EmptyString => None end.

Lemma eat_eq c s : eat c (String c s) = Some s.
Proof. cbn. by rewrite Ascii.eqb_refl. Qed.

Lemma eat_ne c d s : Ascii.eqb c d = false → eat c (String d s) = None.
Proof. cbn. by intros ->. Qed.

Lemma split_on_lacks c s : lacks c s = true → split_on c s = [s].
Proof.
  unfold lacks. induction s as [|d s IH]; cbn; [done|].
  destruct (Ascii.eqb c d); cbn; [done|]. intros H. by rewrite IH.
Qed.

Lemma split_on_app c s t :
  lacks c s = true → split_on c (s +:+ String c t) = s :: split_on c t.
Proof.
  unfold lacks. induction s as [|d s IH]; autorewrite with strs; cbn.
  - by rewrite Ascii.eqb_refl.
  - destruct (Ascii.eqb c d); cbn; [done|]. intros H. by rewrite IH.
Qed.

Lemma split_on_join c l :
  l ≠ [] → Forall (λ s, lacks c s = true) l → split_on c (join (char c) l) = l.
Proof.
  induction l as [|s [|t l] IH]; intros Hne HF; [done| |].
  - apply split_on_lacks. by inversion HF.
  - inversion HF; subst. cbn [String.concat]. unfold char at 1.
    autorewrite with strs. rewrite split_on_app by done. f_equal. by apply IH.
Qed.

(** A separator none of the parts contains makes [join] injective. *)
Lemma join_inj c l1 l2 :
  l1 ≠ [] → l2 ≠ [] →
  Forall (λ s, lacks c s = true) l1 → Forall (λ s, lacks c s = true) l2 →
  join (char c) l1 = join (char c) l2 → l1 = l2.
Proof.
  intros H1 H2 HF1 HF2 H.
  by rewrite <- (split_on_join c l1), <- (split_on_join c l2), H.
Qed.

(** ** White space *)

Definition is_space (c : ascii) : bool :=
  let n := nat_of_ascii c in (n =? 32)%nat || ((9 <=? n)%nat && (n <=? 13)%nat).

Fixpoint trim_left (l : list ascii) : list ascii :=
  match l with c :: l' => if is_space c then trim_left l' else l | [] => [] end.

Definition trim_list (l : list ascii) : list ascii := rev (trim_left (rev (trim_left l))).

Definition trim (s : string) : string :=
  String.string_of_list_ascii (trim_list (String.list_ascii_of_string s)).

(** ** Case

    [toLowerCase] and [toUpperCase] of an ASCII string. *)
Definition lower (c : ascii) : ascii :=
  let n := nat_of_ascii c in if (65 <=? n)%nat && (n <=? 90)%nat then ascii_of_nat (n + 32) else c.

Definition upper (c : ascii) : ascii :=
  let n := nat_of_ascii c in if (97 <=? n)%nat && (n <=? 122)%nat then ascii_of_nat (n - 32) else c.

Definition string_map (f : ascii → ascii) (s : string) : string :=
  String.string_of_list_ascii (map f (String.list_ascii_of_string s)).

Definition toLowerCase : string → string := string_map lower.
Definition toUpperCase : string → string := string_map upper.

(** ** Sorting *)

(** A stable sort. *)
Fixpoint insert_by {A} (le : A → A → bool) (x : A) (l : list A) : list A :=
  match l with
  | [] => [x]
  | y :: l' => if le x y then x :: l else y :: insert_by le x l'
  end.

Definition sort_by {A} (le : A → A → bool) (l : list A) : list A := foldr (insert_by le) [] l.

Lemma insert_by_perm {A} (le : A → A → bool) x l : insert_by le x l ≡ₚ x :: l.
Proof.
  induction l as [|y l IH]; cbn; [done|]. destruct (le x y); [done|]. rewrite IH. apply Permutation_swap.
Qed.

Lemma sort_by_perm {A} (le : A → A → bool) l : sort_by le l ≡ₚ l.
Proof. induction l as [|x l IH]; [done|]. cbn. by rewrite insert_by_perm, IH. Qed.

Lemma insert_by_sorted {A} (le : A → A → bool) x l :
  (∀ a b, le a b = true ∨ le b a = true) → (∀ a b c, le a b = true → le b c = true → le a c = true) →
  StronglySorted (λ a b, le a b = true) l → StronglySorted (λ a b, le a b = true) (insert_by le x l).
Proof.
  intros Htot Htr. induction 1 as [|y l Hl IH Hy]; cbn; [by repeat constructor|].
  destruct (le x y) eqn:E.
  - constructor; [by constructor|]. constructor; [done|]. eapply Forall_impl; [exact Hy|]. intros z. by apply Htr.
  - constructor; [exact IH|]. destruct (Htot x y) as [|Hyx]; [congruence|].
    rewrite Forall_forall in Hy |- *. intros z Hz. rewrite insert_by_perm, elem_of_cons in Hz. destruct Hz as [->|Hz]; auto.
Qed.

Lemma sort_by_sorted {A} (le : A → A → bool) l :
  (∀ a b, le a b = true ∨ le b a = true) → (∀ a b c, le a b = true → le b c = true → le a c = true) →
  StronglySorted (λ a b, le a b = true) (sort_by le l).
Proof. intros Htot Htr. induction l as [|x l IH]; [constructor|]. by apply insert_by_sorted. Qed.

Lemma StronglySorted_mono {A} (P Q : A → A → Prop) l :
  (∀ a b, P a b → Q a b) → StronglySorted P l → StronglySorted Q l.
Proof. intros HPQ. induction 1; constructor; [done|]. eapply Forall_impl; [done|]. auto. Qed.
