(* ===== verification/Paging.v ===== *)
(** Sorted rows and keyset pages: what a [WHERE], an [ORDER BY] and a [LIMIT] leave of a
    table, and that the rows after a row of the sorted list are those the condition of a
    cursor selects.  The routes that list imports and leads, and the export, use them. *)

From stdpp Require Import sorting.
From S2P Require Import Prelude.

(** ** Filtering *)

Lemma elem_of_filter_list {A} (p : A → bool) l x : x ∈ List.filter p l ↔ x ∈ l ∧ p x = true.
Proof. by rewrite !list_elem_of_In, filter_In. Qed.

Lemma sorted_filter {A} (R : A → A → Prop) (p : A → bool) l : StronglySorted R l → StronglySorted R (List.filter p l).
Proof.
  induction 1 as [|x l Hl IH Hx]; cbn; [constructor|]. destruct (p x); [|done]. constructor; [done|].
  rewrite Forall_forall in Hx |- *. intros y [Hy _]%elem_of_filter_list. by apply Hx.
Qed.

Lemma filter_perm {A} (p : A → bool) l l' : l ≡ₚ l' → List.filter p l ≡ₚ List.filter p l'.
Proof.
  induction 1; cbn; repeat match goal with |- context [if p ?x then _ else _] => destruct (p x) end;
    eauto using Permutation.
Qed.

Lemma filter_filter_and {A} (p q : A → bool) l : List.filter p (List.filter q l) = List.filter (λ x, p x && q x) l.
Proof.
  induction l as [|x l IH]; cbn; [done|]. destruct (q x); cbn; rewrite ?andb_true_r, ?andb_false_r; destruct (p x); by rewrite ?IH.
Qed.

Lemma filter_all {A} (p : A → bool) l : (∀ x, x ∈ l → p x = true) → List.filter p l = l.
Proof.
  induction l as [|x l IH]; intros H; cbn; [done|]. rewrite H by apply list_elem_of_here.
  f_equal. apply IH. intros y Hy. apply H. by apply list_elem_of_further.
Qed.

Lemma filter_false {A} (p : A → bool) l : (∀ x, x ∈ l → p x = false) → List.filter p l = [].
Proof.
  induction l as [|x l IH]; intros H; cbn; [done|]. rewrite H by apply list_elem_of_here.
  apply IH. intros y Hy. apply H. by apply list_elem_of_further.
Qed.

Lemma NoDup_filter_list {A} (p : A → bool) l : NoDup l → NoDup (List.filter p l).
Proof.
  induction 1 as [|x l Hx Hl IH]; cbn; [constructor|]. destruct (p x); [|done]. constructor; [|done].
  intros [Hin _]%elem_of_filter_list. done.
Qed.

(** ** Sorted rows *)

Section order.
Context {A : Type} (le : A → A → bool).
Context (le_total : ∀ a b, le a b = true ∨ le b a = true).
Context (le_trans : ∀ a b c, le a b = true → le b c = true → le a c = true).

(** The order tells the rows apart. *)
Definition separates (l : list A) : Prop := ∀ a b, a ∈ l → b ∈ l → le a b = true → le b a = true → a = b.

Lemma separates_filter p l : separates l → separates (List.filter p l).
Proof. intros H a b [Ha _]%elem_of_filter_list [Hb _]%elem_of_filter_list. by apply H. Qed.

Lemma elem_of_sort_by l x : x ∈ sort_by le l ↔ x ∈ l.
Proof. by rewrite sort_by_perm. Qed.

(** Keeping some rows of a sorted list is sorting the rows kept. *)
Lemma sort_by_filter p l : separates l → sort_by le (List.filter p l) = List.filter p (sort_by le l).
Proof.
  intros Hd. apply (StronglySorted_unique_strong (λ a b, le a b = true)).
  - intros a b Ha Hb H1 H2. rewrite elem_of_sort_by, elem_of_filter_list in Ha.
    rewrite elem_of_filter_list, elem_of_sort_by in Hb. apply Hd; naive_solver.
  - by apply sort_by_sorted.
  - by apply sorted_filter, sort_by_sorted.
  - rewrite sort_by_perm. apply filter_perm. by rewrite sort_by_perm.
Qed.

(** What does not come before a row of a sorted list, nor is it, is what comes after it. *)
Lemma after_suffix l l1 r l2 (after : A → bool) :
  NoDup l → separates l → sort_by le l = l1 ++ r :: l2 →
  (∀ x, x ∈ l → after x = negb (le x r)) →
  List.filter after (sort_by le l) = l2.
Proof.
  intros Hn Hd He Ha. pose proof (sort_by_sorted le l le_total le_trans) as Hs.
  assert (NoDup (sort_by le l)) as Hnd by (by rewrite sort_by_perm).
  assert (∀ x, x ∈ l1 ++ r :: l2 → x ∈ l) as Hin by (intros x; rewrite <- He; apply elem_of_sort_by).
  rewrite He in Hs, Hnd |- *. rewrite List.filter_app, (filter_false after l1).
  2:{ intros x Hx. rewrite Ha by (apply Hin, elem_of_app; by left).
      eapply StronglySorted_app_1_elem_of in Hs; [|exact Hx|apply list_elem_of_here]. cbn in Hs. by rewrite Hs. }
  cbn [List.filter app]. rewrite (Ha r) by (apply Hin, elem_of_app; right; apply list_elem_of_here).
  assert (le r r = true) as -> by (destruct (le_total r r); done). cbn [negb].
  apply filter_all. intros x Hx. rewrite Ha by (apply Hin, elem_of_app; right; by apply list_elem_of_further).
  apply StronglySorted_app in Hs as (_ & _ & [Hr _]%StronglySorted_cons). rewrite Forall_forall in Hr.
  destruct (le x r) eqn:E; [|done]. exfalso.
  assert (x = r) as ->.
  { apply Hd; [apply Hin, elem_of_app; right; by apply list_elem_of_further
              |apply Hin, elem_of_app; right; apply list_elem_of_here|done|by apply Hr]. }
  apply NoDup_app in Hnd as (_ & _ & Hnd). by apply NoDup_cons in Hnd as [? _].
Qed.
End order.

(** ** Numbered pages *)

(** [skip: (page - 1) * pageSize, take: pageSize] *)
Definition offset_page {A} (size page : Z) (rows : list A) : list A :=
  take (Z.to_nat size) (drop (Z.to_nat ((page - 1) * size)%Z) rows).

(** [Math.ceil(totalCount / pageSize)] *)
Definition total_pages (count size : Z) : Z := ((count + size - 1) / size)%Z.

Lemma fmap_mjoin {A B} (f : A → B) (ls : list (list A)) : f <$> mjoin ls = mjoin (fmap f <$> ls).
Proof. induction ls as [|l ls IH]; [done|]. change (mjoin (l :: ls)) with (l ++ mjoin ls). by rewrite fmap_app, IH. Qed.

Lemma slices_all {A} (n : nat) (l : list A) (k : nat) :
  (0 < n)%nat → (length l ≤ k * n)%nat → mjoin ((λ i, take n (drop (i * n) l)) <$> seq 0 k) = l.
Proof.
  intros Hn. revert l. induction k as [|k IH]; intros l Hl; cbn [seq fmap list_fmap mjoin list_join].
  - destruct l; [done|cbn in Hl; lia].
  - etransitivity; [|apply (take_drop n l)]. f_equal. rewrite <- fmap_S_seq, <- list_fmap_compose.
    rewrite <- (IH (drop n l)) by (rewrite length_drop; lia). f_equal. apply list_fmap_ext. intros i j _. cbn. by rewrite drop_drop.
Qed.

Lemma offset_page_nat {A} (size : Z) (i : nat) (rows : list A) :
  (0 < size)%Z → offset_page size (Z.of_nat i + 1) rows = take (Z.to_nat size) (drop (i * Z.to_nat size) rows).
Proof. intros Hs. unfold offset_page. by rewrite Z.add_simpl_r, Z2Nat.inj_mul, Nat2Z.id by lia. Qed.

Lemma total_pages_enough (count size : Z) :
  (0 < size)%Z → (0 <= count)%Z → (0 <= total_pages count size)%Z ∧ (count <= total_pages count size * size)%Z.
Proof.
  intros Hs Hc. unfold total_pages. split; [apply Z.div_pos; lia|].
  pose proof (Z.div_mod (count + size - 1) size) as Hd. pose proof (Z.mod_pos_bound (count + size - 1) size) as Hb. nia.
Qed.

(** The pages up to the last are, put together, all rows, and those after it are empty. *)
Lemma offset_pages {A B} (f : A → B) (size : Z) (rows : list A) :
  (0 < size)%Z →
  let total := total_pages (Z.of_nat (length rows)) size in
  let page i := f <$> offset_page size (Z.of_nat i + 1) rows in
  mjoin (page <$> seq 0 (Z.to_nat total)) = f <$> rows ∧ ∀ i, (total <= Z.of_nat i)%Z → page i = [].
Proof.
  intros Hs. cbn zeta. destruct (total_pages_enough (Z.of_nat (length rows)) size Hs (Nat2Z.is_nonneg _)) as [H0 Hall].
  split.
  - transitivity (mjoin (fmap f <$> ((λ i, take (Z.to_nat size) (drop (i * Z.to_nat size) rows)) <$>
                     seq 0 (Z.to_nat (total_pages (Z.of_nat (length rows)) size))))).
    + f_equal. rewrite <- list_fmap_compose. apply list_fmap_ext. intros i j _. cbn. by rewrite offset_page_nat.
    + rewrite <- fmap_mjoin. f_equal. apply slices_all; nia.
  - intros i Hi. rewrite offset_page_nat by done. rewrite drop_ge by nia. by rewrite take_nil.
Qed.
