(* ===== verification/StateError.v ===== *)
(** Operations on a state that may throw: what an exception leaves of the state is part of
    the result.  A database transaction gives the state back when it throws.  [post] is
    the weakest precondition of an operation. *)

From S2P Require Import Prelude.

Definition SE (S E A : Type) : Type := S → result E A * S.

#[export] Instance SE_ret {S E} : MRet (SE S E) := λ A a s, (Ok a, s).
#[export] Instance SE_bind {S E} : MBind (SE S E) := λ A B f m s,
  match m s with (Ok a, s') => f a s' | (Err e, s') => (Err e, s') end.
#[export] Instance SE_fmap {S E} : FMap (SE S E) := λ A B f m s,
  match m s with (Ok a, s') => (Ok (f a), s') | (Err e, s') => (Err e, s') end.

Section operations.
Context {S E : Type}.

Definition raise {A} (e : E) : SE S E A := λ s, (Err e, s).
Definition asks {A} (f : S → A) : SE S E A := λ s, (Ok (f s), s).
Definition update (f : S → S) : SE S E unit := λ s, (Ok (), f s).
Definition check (b : bool) (e : E) : SE S E unit := if b then mret () else raise e.
Definition require {A} (o : option A) (e : E) : SE S E A := match o with Some a => mret a | None => raise e end.

Definition transaction {A} (m : SE S E A) : SE S E A := λ s,
  match m s with (Ok a, s') => (Ok a, s') | (Err e, _) => (Err e, s) end.

(** ** What an operation does *)

Definition post {A} (m : SE S E A) (Q : result E A → S → Prop) (s : S) : Prop := Q (m s).1 (m s).2.

Lemma post_bind {A B} (m : SE S E A) (f : A → SE S E B) Q s :
  post m (λ r s', match r with Ok a => post (f a) Q s' | Err e => Q (Err e) s' end) s → post (m ≫= f) Q s.
Proof. unfold post, mbind, SE_bind. destruct (m s) as [[a|e] s']; done. Qed.

Lemma post_fmap {A B} (m : SE S E A) (f : A → B) Q s :
  post m (λ r s', match r with Ok a => Q (Ok (f a)) s' | Err e => Q (Err e) s' end) s → post (f <$> m) Q s.
Proof. unfold post, fmap, SE_fmap. destruct (m s) as [[a|e] s']; done. Qed.

Lemma post_mono {A} (m : SE S E A) (Q Q' : result E A → S → Prop) s :
  post m Q s → (∀ r s', Q r s' → Q' r s') → post m Q' s.
Proof. unfold post. auto. Qed.

Lemma post_ret {A} (a : A) Q s : Q (Ok a) s → post (mret a) Q s.
Proof. done. Qed.

Lemma post_raise {A} e (Q : result E A → S → Prop) s : Q (Err e) s → post (raise e) Q s.
Proof. done. Qed.

Lemma post_asks {A} (f : S → A) Q s : Q (Ok (f s)) s → post (asks f) Q s.
Proof. done. Qed.

Lemma post_update f Q s : Q (Ok ()) (f s) → post (update f) Q s.
Proof. done. Qed.

Lemma post_check b e Q s : (b = true → Q (Ok ()) s) → (b = false → Q (Err e) s) → post (check b e) Q s.
Proof. destruct b; [intros H _|intros _ H]; by apply H. Qed.

Lemma post_require {A} (o : option A) e Q s :
  (∀ a, o = Some a → Q (Ok a) s) → (o = None → Q (Err e) s) → post (require o e) Q s.
Proof. destruct o as [a|]; intros H1 H2; [by apply H1|by apply H2]. Qed.

Lemma post_elim {A} (m : SE S E A) Q s r s' : post m Q s → m s = (r, s') → Q r s'.
Proof. unfold post. by intros H Hm; rewrite Hm in H. Qed.

(** What an operation is known to give. *)
Lemma post_known {A} (m : SE S E A) Q s r s' : m s = (r, s') → Q r s' → post m Q s.
Proof. unfold post. by intros ->. Qed.

Lemma post_given {A} (P : Prop) (m : SE S E A) Q s : (P → post m Q s) → post m (λ r s', P → Q r s') s.
Proof. done. Qed.

Lemma post_transaction {A} (m : SE S E A) Q s :
  post m (λ r s', match r with Ok a => Q (Ok a) s' | Err e => Q (Err e) s end) s → post (transaction m) Q s.
Proof. unfold post, transaction. destruct (m s) as [[a|e] s']; done. Qed.

End operations.

Section changes.
Context {S E : Type}.

(** ** Operations that make a change or none

    [makes P m s]: from [s] the operation leaves the state as it is or one of [P], and as it
    is when it throws. *)

Definition makes {A} (P : S → Prop) (m : SE S E A) (s : S) : Prop :=
  post m (λ r s', (s' = s ∨ P s') ∧ ∀ e, r = Err e → s' = s) s.

End changes.

#[global] Opaque post.

(** One step of an operation. *)
Ltac post_step :=
  first
    [ apply post_bind | apply post_fmap | apply post_ret | apply post_raise | apply post_asks | apply post_update
    | apply post_transaction
    | (apply post_check; [intros ?|intros ?])
    | (apply post_require; [intros ? ?|intros ?]) ].

Section makes.
Context {S E : Type} (P : S → Prop).

Lemma makes_nothing {A} (m : SE S E A) s : post m (λ _ s', s' = s) s → makes P m s.
Proof. intros H. eapply post_mono; [exact H|]. intros r s' ->. split; [by left|done]. Qed.

Lemma makes_ret {A} (a : A) s : makes P (mret a : SE S E A) s.
Proof. by apply makes_nothing, post_ret. Qed.

Lemma makes_raise {A} e s : makes P (raise e : SE S E A) s.
Proof. by apply makes_nothing, post_raise. Qed.

Lemma makes_reads {A} (f : S → A) s : makes P (asks f : SE S E A) s.
Proof. by apply makes_nothing, post_asks. Qed.

Lemma makes_asks {A B} (f : S → A) (k : A → SE S E B) s : makes P (k (f s)) s → makes P (a ← asks f; k a) s.
Proof. intros Hk. by apply post_bind, post_asks. Qed.

Lemma makes_check {B} b e (k : unit → SE S E B) s : (b = true → makes P (k ()) s) → makes P (u ← check b e; k u) s.
Proof. intros Hk. apply post_bind, post_check; [done|]. intros _. split; [by left|done]. Qed.

Lemma makes_fmap {A B} (f : A → B) (m : SE S E A) s : makes P m s → makes P (f <$> m) s.
Proof.
  unfold makes. intros Hm. apply post_fmap. eapply post_mono; [exact Hm|]. intros [a|e] s' [Hc He]; (split; [done|]); [done|].
  intros ? _. by apply (He e).
Qed.

Lemma makes_bind_ret {A B} (m : SE S E A) (b : B) s : makes P m s → makes P (_ ← m; mret b) s.
Proof.
  unfold makes. intros Hm. apply post_bind. eapply post_mono; [exact Hm|]. intros [a|e] s' [Hc He].
  - by apply post_ret.
  - split; [done|]. intros ? _. by apply (He e).
Qed.

Lemma makes_transaction {A} (m : SE S E A) s :
  post m (λ r s', match r with Ok _ => P s' | Err _ => True end) s → makes P (transaction m) s.
Proof.
  intros Hm. apply post_transaction. eapply post_mono; [exact Hm|]. intros [x|e] s' H; (split; [|done]); [by right|by left].
Qed.

End makes.

(** ** Operations that go from state to state *)

Section moves.
Context {S E : Type} (R : S → S → Prop) `{!PreOrder R}.

Definition moves {A} (m : SE S E A) (s : S) : Prop := post m (λ _ s', R s s') s.

Lemma moves_stays {A} (m : SE S E A) s : post m (λ _ s', s' = s) s → moves m s.
Proof. intros H. eapply post_mono; [exact H|]. by intros r s' ->. Qed.

Lemma moves_ret {A} (a : A) s : moves (mret a : SE S E A) s.
Proof. by apply moves_stays, post_ret. Qed.

Lemma moves_raise {A} e s : moves (raise e : SE S E A) s.
Proof. by apply moves_stays, post_raise. Qed.

Lemma moves_bind {A B} (m : SE S E A) (k : A → SE S E B) s :
  moves m s → (∀ a s', R s s' → moves (k a) s') → moves (m ≫= k) s.
Proof.
  unfold moves. intros Hm Hk. apply post_bind. eapply post_mono; [exact Hm|]. intros [a|e] s' Hs; [|done].
  eapply post_mono; [by apply (Hk a s')|]. intros r s'' Hs'. by trans s'.
Qed.

Lemma moves_fmap {A B} (f : A → B) (m : SE S E A) s : moves m s → moves (f <$> m) s.
Proof. unfold moves. intros Hm. apply post_fmap. eapply post_mono; [exact Hm|]. by intros [a|e] s'. Qed.

Lemma moves_asks {A B} (f : S → A) (k : A → SE S E B) s : moves (k (f s)) s → moves (a ← asks f; k a) s.
Proof. intros Hk. by apply post_bind, post_asks. Qed.

Lemma moves_check {B} b e (k : unit → SE S E B) s : (b = true → moves (k ()) s) → moves (u ← check b e; k u) s.
Proof. intros Hk. by apply post_bind, post_check. Qed.

Lemma moves_require {A B} (o : option A) e (k : A → SE S E B) s :
  (∀ a, o = Some a → moves (k a) s) → moves (a ← require o e; k a) s.
Proof. intros Hk. by apply post_bind, post_require. Qed.

Lemma moves_elim {A} (m : SE S E A) s r s' : moves m s → m s = (r, s') → R s s'.
Proof. unfold moves. intros Hm He. exact (post_elim _ _ _ _ _ Hm He). Qed.

Lemma moves_ret_then {A B} (a : A) (k : A → SE S E B) s : moves (k a) s → moves (b ← mret a; k b) s.
Proof. intros Hk. by apply post_bind, post_ret. Qed.

Lemma moves_raise_then {A B} e (k : A → SE S E B) s : moves (b ← raise e; k b) s.
Proof. by apply post_bind, post_raise. Qed.

(** An operation that gives the state that another one gives. *)
Lemma moves_as {A B} (m : SE S E A) (m' : SE S E B) s : (m' s).2 = (m s).2 → moves m s → moves m' s.
Proof.
  intros He Hm. destruct (m s) as [r s'] eqn:E1, (m' s) as [r' s''] eqn:E2. cbn in He. subst s''.
  eapply post_known; [exact E2|]. exact (moves_elim _ _ _ _ Hm E1).
Qed.

Lemma moves_assoc {A B C} (m : SE S E A) (k : A → SE S E B) (f : B → SE S E C) s :
  moves (a ← m; b ← k a; f b) s → moves (b ← (a ← m; k a); f b) s.
Proof.
  apply moves_as. unfold mbind, SE_bind. destruct (m s) as [[a|e] s']; [|done]. by destruct (k a s') as [[b|e] s''].
Qed.

Lemma moves_guard b e s : moves (check b e : SE S E unit) s.
Proof. destruct b; [apply moves_ret|apply moves_raise]. Qed.

Lemma moves_update (f : S → S) s : R s (f s) → moves (update f : SE S E unit) s.
Proof. intros Hf. by apply post_update. Qed.

(** An update, then the rest from what it gives. *)
Lemma moves_then {B} (f : S → S) (k : unit → SE S E B) s : R s (f s) → moves (k ()) (f s) → moves (u ← update f; k u) s.
Proof.
  unfold moves. intros Hf Hk. apply post_bind, post_update. eapply post_mono; [exact Hk|]. intros r s' Hs. by trans (f s).
Qed.

Lemma moves_transaction {A} (m : SE S E A) s : moves m s → moves (transaction m) s.
Proof. unfold moves. intros Hm. apply post_transaction. eapply post_mono; [exact Hm|]. by intros [a|e] s'. Qed.

End moves.

(** One step of an operation that moves: [moves_bind] leaves the first part, then the rest. *)
Ltac moves_step :=
  lazymatch goal with
  | |- moves _ (mret _) _ => apply moves_ret; apply _
  | |- moves _ (raise _) _ => apply moves_raise; apply _
  | |- moves _ (check _ _) _ => apply moves_guard; apply _
  | |- moves _ (require ?o _) _ => unfold require; destruct o
  | |- moves _ (asks _ ≫= _) _ => apply moves_asks
  | |- moves _ (check _ _ ≫= _) _ => apply moves_check; [apply _|intros ?]
  | |- moves _ (require _ _ ≫= _) _ => apply moves_require; [apply _|intros ? ?]
  | |- moves _ (transaction _) _ => apply moves_transaction; [apply _|]
  | |- moves _ (_ ≫= _) _ => apply moves_bind; [apply _|..]
  | |- moves _ (_ <$> _) _ => apply moves_fmap
  end.
