(* ===== verification/Calendar.v ===== *)
(** Time as the sources use it: a JavaScript [Date] is a number of milliseconds
    since the epoch ([Z] here), read and written through its UTC fields.

    The proleptic Gregorian calendar is computed on eras of 400 years (146,097
    days), so that the conversions between a day number and a year, month and
    day are proved inverse by evaluating one era. *)

From Stdlib Require Import DecimalString DecimalZ.
From S2P Require Import Prelude.

#[local] Open Scope Z_scope.

Definition MS_PER_DAY : Z := 86400000.
Definition DAYS_PER_ERA : Z := 146097.

(** ** Days and dates

    Years start in March inside an era, so that the leap day is the last of its
    year. *)

Definition year_start (yoe : Z) : Z := 365 * yoe + yoe / 4 - yoe / 100.

(** Year of the era and day of that year. *)
Definition era_split (doe : Z) : Z * Z :=
  let c := Z.min 3 (doe / 36524) in
  let r := doe - 36524 * c in
  let q := r / 1461 in
  let a := Z.min 3 ((r - 1461 * q) / 365) in
  (100 * c + 4 * q + a, r - 1461 * q - 365 * a).

Definition month_day (doy : Z) : Z * Z :=
  let mp := (5 * doy + 2) / 153 in
  (if mp <? 10 then mp + 3 else mp - 9, doy - (153 * mp + 2) / 5 + 1).

Definition day_of_year (m d : Z) : Z :=
  (153 * (if m <=? 2 then m + 9 else m - 3) + 2) / 5 + (d - 1).

Definition era_civil (doe : Z) : Z * Z * Z :=
  let '(yoe, doy) := era_split doe in
  let '(m, d) := month_day doy in
  (if m <=? 2 then yoe + 1 else yoe, m, d).

(** [m] is 1 to 12, [y] the year counted from the era's first March. *)
Definition era_days (y m d : Z) : Z :=
  year_start (if m <=? 2 then y - 1 else y) + day_of_year m d.

(** Year, month (1 to 12) and day of a day number; day 0 is 1970-01-01. *)
Definition civil (days : Z) : Z * Z * Z :=
  let z := days + 719468 in
  let '(y, m, d) := era_civil (z mod DAYS_PER_ERA) in
  (y + 400 * (z / DAYS_PER_ERA), m, d).

(** [Date.UTC(y, m - 1, d)] in days: a month outside 1 to 12 carries into the
    year and a day outside the month into the month. *)
Definition day_number (y m d : Z) : Z :=
  let y := y + (m - 1) / 12 in
  let m := (m - 1) mod 12 + 1 in
  let era := (if m <=? 2 then y - 1 else y) / 400 in
  era_days (y - 400 * era) m d + DAYS_PER_ERA * era - 719468.

Definition leap (y : Z) : bool :=
  (y mod 4 =? 0) && (negb (y mod 100 =? 0) || (y mod 400 =? 0)).

Definition days_in_month (y m : Z) : Z :=
  if m =? 2 then (if leap y then 29 else 28)
  else if (m =? 4) || (m =? 6) || (m =? 9) || (m =? 11) then 30 else 31.

Definition valid_date (y m d : Z) : Prop :=
  1 <= m <= 12 ∧ 1 <= d <= days_in_month y m.

(** ** One era *)

Fixpoint all_from (n : nat) (z : Z) (p : Z → bool) : bool :=
  match n with O => true | S n' => p z && all_from n' (z + 1) p end.

Lemma all_from_spec n z0 p :
  all_from n z0 p = true → ∀ z, z0 <= z < z0 + Z.of_nat n → p z = true.
Proof.
  revert z0. induction n as [|n IH]; intros z0; [lia|].
  cbn [all_from]. rewrite andb_true_iff. intros [Hn H] z Hz.
  destruct (decide (z = z0)) as [->|]; [done|]. apply (IH (z0 + 1)); [done|lia].
Qed.

Lemma leap_iff y : leap y = true ↔ y mod 4 = 0 ∧ (y mod 100 ≠ 0 ∨ y mod 400 = 0).
Proof. unfold leap. rewrite andb_true_iff, orb_true_iff, negb_true_iff, !Z.eqb_eq, Z.eqb_neq. done. Qed.

Lemma era_split_spec doe :
  0 <= doe < DAYS_PER_ERA →
  let '(yoe, doy) := era_split doe in
  0 <= yoe < 400 ∧ 0 <= doy <= 365 ∧ (doy = 365 → leap (yoe + 1) = true) ∧
  year_start yoe + doy = doe.
Proof.
  unfold DAYS_PER_ERA, era_split, year_start. intros H.
  set (c := Z.min 3 (doe / 36524)). set (r := doe - 36524 * c).
  assert (Hc : 0 <= c <= 3 ∧ 0 <= r <= 36524 ∧ (r = 36524 → c = 3)) by (unfold c, r; lia).
  set (q := r / 1461). set (s := r - 1461 * q).
  assert (Hq : 0 <= q <= 24 ∧ 0 <= s <= 1460 ∧ (q = 24 → s = 1460 → c = 3)) by (unfold q, s; lia).
  set (a := Z.min 3 (s / 365)).
  assert (Ha : 0 <= a <= 3 ∧ 0 <= s - 365 * a <= 365 ∧ (s - 365 * a = 365 → a = 3)) by (unfold a; lia).
  rewrite leap_iff.
  assert ((100 * c + 4 * q + a) / 4 = 25 * c + q) by lia.
  assert ((100 * c + 4 * q + a) / 100 = c) by lia.
  split_and!; unfold s, r in *; lia.
Qed.

Lemma year_start_lt y y' :
  0 <= y → y < y' → y' < 400 → year_start y + 365 <= year_start y'.
Proof. unfold year_start. lia. Qed.

Lemma year_start_leap y y' :
  0 <= y → y < y' → y' < 400 → leap (y + 1) = true → year_start y + 366 <= year_start y'.
Proof. rewrite leap_iff. unfold year_start. lia. Qed.

Lemma era_split_start yoe doy :
  0 <= yoe < 400 → 0 <= doy <= 365 → (doy = 365 → leap (yoe + 1) = true) →
  0 <= year_start yoe + doy < DAYS_PER_ERA ∧ era_split (year_start yoe + doy) = (yoe, doy).
Proof.
  intros Hy Hd Hl.
  assert (Hr : 0 <= year_start yoe + doy < DAYS_PER_ERA) by (unfold year_start, DAYS_PER_ERA; lia).
  split; [done|]. pose proof (era_split_spec _ Hr) as Hs.
  destruct (era_split _) as [yoe' doy']. destruct Hs as (Hy' & Hd' & Hl' & He).
  assert (yoe' = yoe) as ->; [|f_equal; lia].
  destruct (Z.lt_trichotomy yoe' yoe) as [Hlt|[?|Hlt]]; [exfalso|done|exfalso].
  - pose proof (year_start_lt yoe' yoe ltac:(lia) Hlt ltac:(lia)).
    assert (doy' = 365) by lia.
    pose proof (year_start_leap yoe' yoe ltac:(lia) Hlt ltac:(lia) ltac:(auto)). lia.
  - pose proof (year_start_lt yoe yoe' ltac:(lia) Hlt ltac:(lia)).
    assert (doy = 365) by lia.
    pose proof (year_start_leap yoe yoe' ltac:(lia) Hlt ltac:(lia) ltac:(auto)). lia.
Qed.

(** The days of a year, by evaluation: 29 February is day 365, the last. *)
Definition month_length (m : Z) : Z := if m =? 2 then 29 else days_in_month 1 m.

Definition month_day_ok (doy : Z) : bool :=
  let '(m, d) := month_day doy in
  (1 <=? m) && (m <=? 12) && (1 <=? d) && (d <=? month_length m) && (day_of_year m d =? doy) &&
  implb ((m =? 2) && (d =? 29)) (doy =? 365).

Definition day_of_year_ok (i : Z) : bool :=
  let m := i / 31 + 1 in
  let d := i mod 31 + 1 in
  (month_length m <? d) ||
  ((0 <=? day_of_year m d) && (day_of_year m d <=? 365) &&
   bool_decide (month_day (day_of_year m d) = (m, d)) &&
   implb (day_of_year m d =? 365) ((m =? 2) && (d =? 29))).

Lemma month_day_spec doy :
  0 <= doy <= 365 →
  let '(m, d) := month_day doy in
  1 <= m <= 12 ∧ 1 <= d <= month_length m ∧ day_of_year m d = doy ∧ (m = 2 → d = 29 → doy = 365).
Proof.
  intros H. pose proof (all_from_spec 366 0 month_day_ok eq_refl doy ltac:(lia)) as Hok.
  unfold month_day_ok in Hok. destruct (month_day doy) as [m d].
  rewrite !andb_true_iff, implb_true_iff, andb_true_iff, !Z.leb_le, !Z.eqb_eq in Hok.
  intuition lia.
Qed.

Lemma day_of_year_spec m d :
  1 <= m <= 12 → 1 <= d <= month_length m →
  0 <= day_of_year m d <= 365 ∧ month_day (day_of_year m d) = (m, d) ∧
  (day_of_year m d = 365 → m = 2 ∧ d = 29).
Proof.
  intros Hm Hd.
  assert (d <= 31) by (revert Hd; unfold month_length, days_in_month; repeat case_match; lia).
  pose proof (all_from_spec 372 0 day_of_year_ok eq_refl (31 * (m - 1) + (d - 1)) ltac:(lia)) as Hok.
  unfold day_of_year_ok in Hok.
  replace ((31 * (m - 1) + (d - 1)) / 31 + 1) with m in Hok by lia.
  replace ((31 * (m - 1) + (d - 1)) mod 31 + 1) with d in Hok by lia.
  rewrite orb_true_iff, !andb_true_iff, implb_true_iff, andb_true_iff, Z.ltb_lt, !Z.leb_le,
    !Z.eqb_eq, bool_decide_eq_true in Hok.
  intuition lia.
Qed.

Lemma days_in_month_length y m d :
  d <= days_in_month y m ↔ d <= month_length m ∧ (m = 2 → d = 29 → leap y = true).
Proof.
  unfold month_length, days_in_month. destruct (Z.eqb_spec m 2) as [->|]; [|by intuition lia].
  destruct (leap y); intuition (lia || congruence).
Qed.

Lemma leap_era y k : leap (y + 400 * k) = leap y.
Proof.
  unfold leap. replace ((y + 400 * k) mod 4) with (y mod 4) by lia.
  replace ((y + 400 * k) mod 100) with (y mod 100) by lia.
  by replace ((y + 400 * k) mod 400) with (y mod 400) by lia.
Qed.

Lemma days_in_month_era y m k : days_in_month (y + 400 * k) m = days_in_month y m.
Proof. unfold days_in_month. by rewrite leap_era. Qed.

Lemma civil_era doe era :
  0 <= doe < DAYS_PER_ERA →
  civil (doe + DAYS_PER_ERA * era - 719468) =
    let '(y, m, d) := era_civil doe in (y + 400 * era, m, d).
Proof.
  intros H. unfold civil, DAYS_PER_ERA in *.
  replace ((doe + 146097 * era - 719468 + 719468) mod 146097) with doe by lia.
  by replace ((doe + 146097 * era - 719468 + 719468) / 146097) with era by lia.
Qed.

Lemma day_number_era y m d :
  1 <= m <= 12 →
  let era := (if m <=? 2 then y - 1 else y) / 400 in
  day_number y m d = era_days (y - 400 * era) m d + DAYS_PER_ERA * era - 719468.
Proof.
  intros Hm. unfold day_number. replace ((m - 1) / 12) with 0 by lia.
  replace ((m - 1) mod 12 + 1) with m by lia. by rewrite Z.add_0_r.
Qed.

(** The fields of a day number are a date, and give the day number back. *)
Lemma civil_valid n : let '(y, m, d) := civil n in valid_date y m d ∧ day_number y m d = n.
Proof.
  set (doe := (n + 719468) mod DAYS_PER_ERA). set (era := (n + 719468) / DAYS_PER_ERA).
  assert (Hdoe : 0 <= doe < DAYS_PER_ERA) by (unfold doe, DAYS_PER_ERA; lia).
  replace n with (doe + DAYS_PER_ERA * era - 719468)
    by (unfold doe, era, DAYS_PER_ERA; lia).
  rewrite civil_era by done. unfold era_civil. pose proof (era_split_spec doe Hdoe) as Hs.
  destruct (era_split doe) as [yoe doy]. destruct Hs as (Hy & Hdoy & Hl & He).
  pose proof (month_day_spec doy Hdoy) as Hmd. destruct (month_day doy) as [m d].
  destruct Hmd as (Hm & Hd & Hdy & Hf). split.
  - split; [done|]. rewrite days_in_month_era, days_in_month_length. split; [lia|].
    split; [lia|]. intros -> ->. auto.
  - rewrite day_number_era by done.
    replace ((if m <=? 2 then _ - 1 else _) / 400) with era by (destruct (m <=? 2); lia).
    unfold era_days. rewrite Hdy.
    replace (if m <=? 2 then _ - 1 else _) with yoe by (destruct (m <=? 2); lia). lia.
Qed.

(** A date is the fields of its day number. *)
Lemma civil_day_number y m d : valid_date y m d → civil (day_number y m d) = (y, m, d).
Proof.
  intros (Hm & Hd1 & Hd). rewrite day_number_era by done.
  set (era := (if m <=? 2 then y - 1 else y) / 400).
  set (yoe := (if m <=? 2 then y - 1 else y) - 400 * era).
  assert (Hy : 0 <= yoe < 400) by (unfold yoe, era; lia).
  apply days_in_month_length in Hd as [Hd Hf].
  destruct (day_of_year_spec m d Hm ltac:(lia)) as (Hdoy & Hmd & H365).
  assert (Hyear : (if m <=? 2 then y - 400 * era - 1 else y - 400 * era) = yoe)
    by (unfold yoe; destruct (m <=? 2); lia).
  unfold era_days. rewrite Hyear.
  destruct (era_split_start yoe (day_of_year m d) Hy Hdoy) as [Hr Hs].
  { intros (-> & ->)%H365. cbn in Hyear. rewrite <- (leap_era _ era).
    replace (yoe + 1 + 400 * era) with y by lia. auto. }
  rewrite civil_era by done. unfold era_civil. rewrite Hs, Hmd.
  f_equal; f_equal. unfold yoe. destruct (m <=? 2); lia.
Qed.

(** ** Instants *)

(** The calendar day and the millisecond of the day of an instant. *)
Definition day_of (t : Z) : Z := t / MS_PER_DAY.
Definition time_of (t : Z) : Z := t mod MS_PER_DAY.

(** [new Date(Date.UTC(y, m - 1, d, h, mi, s, ms))]. *)
Definition date_utc (y m d h mi s ms : Z) : Z :=
  day_number y m d * MS_PER_DAY + ((h * 60 + mi) * 60 + s) * 1000 + ms.

Definition getUTCFullYear (t : Z) : Z := (civil (day_of t)).1.1.
Definition getUTCMonth (t : Z) : Z := (civil (day_of t)).1.2 - 1.
Definition getUTCDate (t : Z) : Z := (civil (day_of t)).2.
Definition getUTCDay (t : Z) : Z := (day_of t + 4) mod 7.
Definition getUTCHours (t : Z) : Z := time_of t / 3600000.
Definition getUTCMinutes (t : Z) : Z := time_of t / 60000 mod 60.
Definition getUTCSeconds (t : Z) : Z := time_of t / 1000 mod 60.
Definition getUTCMilliseconds (t : Z) : Z := time_of t mod 1000.

(** The fields of an instant give it back. *)
Lemma date_utc_fields t :
  date_utc (getUTCFullYear t) (getUTCMonth t + 1) (getUTCDate t) (getUTCHours t)
    (getUTCMinutes t) (getUTCSeconds t) (getUTCMilliseconds t) = t.
Proof.
  unfold date_utc, getUTCFullYear, getUTCMonth, getUTCDate, getUTCHours, getUTCMinutes,
    getUTCSeconds, getUTCMilliseconds.
  pose proof (civil_valid (day_of t)) as Hc. destruct (civil (day_of t)) as [[y m] d].
  destruct Hc as [_ Hn]. cbn [fst snd]. replace (m - 1 + 1) with m by lia. rewrite Hn.
  unfold day_of, time_of, MS_PER_DAY. lia.
Qed.

(** [String(n).padStart(w, '0')] *)
Fixpoint zeros (n : nat) : string :=
  match n with O => EmptyString | S n' => String "0" (zeros n') end.

Definition pad_start (w : nat) (s : string) : string := zeros (w - String.length s) +:+ s.

Definition padn (w : nat) (n : Z) : string := pad_start w (zs n).

(** [d.toISOString()]; years outside 0 to 9999 have a sign and six digits. *)
Definition iso_year (y : Z) : string :=
  if (0 <=? y) && (y <=? 9999) then padn 4 y
  else (if y <? 0 then "-" else "+") +:+ padn 6 (Z.abs y).

Definition iso_date (y m d : Z) : string :=
  iso_year y +:+ "-" +:+ padn 2 m +:+ "-" +:+ padn 2 d.

Definition iso_seconds (t : Z) : string :=
  iso_date (getUTCFullYear t) (getUTCMonth t + 1) (getUTCDate t) +:+ "T" +:+
  padn 2 (getUTCHours t) +:+ ":" +:+ padn 2 (getUTCMinutes t) +:+ ":" +:+
  padn 2 (getUTCSeconds t).

Definition toISOString (t : Z) : string :=
  iso_seconds t +:+ "." +:+ padn 3 (getUTCMilliseconds t) +:+ "Z".

Example epoch_iso : toISOString 1746100799007 = "2025-05-01T11:59:59.007Z"%string.
Proof. reflexivity. Qed.

(** ** The text of an instant determines it *)

Lemma zs_uint n :
  0 <= n → ∃ d, NilEmpty.uint_of_string (zs n) = Some d ∧ Z.of_uint d = n.
Proof.
  intros Hn. pose proof (zs_int n) as Hi. pose proof (of_to n) as Hz.
  unfold Z.to_int in Hi, Hz. destruct n as [|n|n]; [exists (Decimal.D0 Decimal.Nil); done| |done].
  exists (Pos.to_uint n). split; [|exact Hz].
  destruct (zs (Z.pos n)) as [|a s]; [done|]. unfold NilZero.int_of_string in Hi.
  destruct (Ascii.eqb a "-"); [by destruct (NilZero.uint_of_string s)|].
  unfold NilZero.uint_of_string in Hi.
  destruct (NilEmpty.uint_of_string (String a s)) as [u|]; [|done]. by injection Hi as ->.
Qed.

Lemma padn_uint w n :
  0 <= n → ∃ d, NilEmpty.uint_of_string (padn w n) = Some d ∧ Z.of_uint d = n.
Proof.
  intros Hn. unfold padn, pad_start. generalize (w - String.length (zs n))%nat as k.
  induction k as [|k (d & Hd & <-)]; [by apply zs_uint|]. exists (Decimal.D0 d).
  cbn [zeros]. autorewrite with strs. cbn [NilEmpty.uint_of_string]. by rewrite Hd.
Qed.

Lemma padn_inj w n m : 0 <= n → 0 <= m → padn w n = padn w m → n = m.
Proof.
  intros Hn Hm H. destruct (padn_uint w n Hn) as (d & Hd & <-), (padn_uint w m Hm) as (e & He & <-).
  rewrite H in Hd. congruence.
Qed.

Lemma zeros_chars p k : p "0"%char = true → string_forallb p (zeros k) = true.
Proof. intros Hp. induction k as [|k IH]; [done|]. cbn. by rewrite Hp. Qed.

Lemma padn_lacks c w n : decimal_char c = false → lacks c (padn w n) = true.
Proof.
  intros Hc. unfold padn, pad_start, lacks. rewrite string_forallb_app, zeros_chars.
  - by apply zs_lacks.
  - by destruct c as [[] [] [] [] [] [] [] []].
Qed.

Lemma length_zeros k : String.length (zeros k) = k.
Proof. induction k; cbn; congruence. Qed.

(** A number of at most [w] digits is padded to exactly [w]. *)
Lemma length_padn w n :
  (String.length (zs n) <= w)%nat → String.length (padn w n) = w.
Proof. intros H. unfold padn, pad_start. rewrite length_string_app, length_zeros. lia. Qed.

Lemma length_padn_2 n : 0 <= n < 100 → String.length (padn 2 n) = 2%nat.
Proof.
  intros Hn. assert (Hall : all_from 100 0 (λ n, Nat.eqb (String.length (padn 2 n)) 2) = true) by reflexivity.
  apply Nat.eqb_eq. apply (all_from_spec _ _ _ Hall). lia.
Qed.

Lemma civil_fields t :
  valid_date (getUTCFullYear t) (getUTCMonth t + 1) (getUTCDate t).
Proof.
  unfold getUTCFullYear, getUTCMonth, getUTCDate. pose proof (civil_valid (day_of t)) as H.
  destruct (civil (day_of t)) as [[y m] d]. cbn [fst snd]. replace (m - 1 + 1) with m by lia. apply H.
Qed.

Lemma valid_date_small y m d : valid_date y m d → 0 <= m < 100 ∧ 0 <= d < 100.
Proof.
  intros (Hm & Hd1 & Hd). split; [lia|]. apply days_in_month_length in Hd as [Hd _].
  revert Hd. unfold month_length, days_in_month. repeat case_match; lia.
Qed.

Lemma iso_year_inj y y' : iso_year y = iso_year y' → y = y'.
Proof.
  assert (Hs : ∀ w n c s, 0 <= n → padn w n ≠ String c s ∨ decimal_char c = true ∧ c ≠ "-"%char).
  { intros w n c s Hn. destruct (decide (padn w n = String c s)) as [Hp|]; [right|by left].
    destruct (padn_uint w n Hn) as (d & Hd & _). rewrite Hp in Hd. cbn in Hd.
    revert Hd. destruct c as [[] [] [] [] [] [] [] []]; cbn; by destruct (NilEmpty.uint_of_string s). }
  assert (Hsign : ∀ n c m, 0 <= n → c = "-"%char ∨ c = "+"%char → padn 4 n ≠ char c +:+ padn 6 m).
  { intros n c m Hn Hc H. unfold char in H. autorewrite with strs in H.
    destruct (Hs 4%nat n c (padn 6 m) Hn) as [?|[Hd Hc']]; [done|]. by destruct Hc; subst. }
  unfold iso_year.
  destruct (Z.leb_spec 0 y), (Z.leb_spec y 9999), (Z.leb_spec 0 y'), (Z.leb_spec y' 9999);
    cbn [andb]; destruct (Z.ltb_spec y 0), (Z.ltb_spec y' 0); try lia; intros Heq;
    try (apply padn_inj in Heq; lia);
    try (by apply (Hsign y "-"%char) in Heq; auto); try (by apply (Hsign y "+"%char) in Heq; auto);
    try (by symmetry in Heq; apply (Hsign y' "-"%char) in Heq; auto);
    try (by symmetry in Heq; apply (Hsign y' "+"%char) in Heq; auto);
    autorewrite with strs in Heq; injection Heq as Heq; try apply padn_inj in Heq; lia || done.
Qed.

Lemma iso_date_inj y m d y' m' d' :
  valid_date y m d → valid_date y' m' d' → iso_date y m d = iso_date y' m' d' →
  y = y' ∧ m = m' ∧ d = d'.
Proof.
  intros H%valid_date_small H'%valid_date_small Heq. unfold iso_date in Heq.
  apply app_suffix_inj in Heq as [Hy Heq];
    [|autorewrite with strs; cbn [String.length]; rewrite !length_string_app; cbn [String.length];
      by rewrite !length_padn_2 by lia].
  autorewrite with strs in Heq. injection Heq as Heq.
  apply app_suffix_inj in Heq as [Hm Heq];
    [|autorewrite with strs; cbn [String.length]; by rewrite !length_padn_2 by lia].
  autorewrite with strs in Heq. injection Heq as Hd.
  apply iso_year_inj in Hy. apply padn_inj in Hm; [|lia..]. apply padn_inj in Hd; [|lia..]. done.
Qed.

Lemma time_fields t :
  0 <= getUTCHours t < 24 ∧ 0 <= getUTCMinutes t < 60 ∧ 0 <= getUTCSeconds t < 60 ∧
  0 <= getUTCMilliseconds t < 1000.
Proof.
  unfold getUTCHours, getUTCMinutes, getUTCSeconds, getUTCMilliseconds, time_of, MS_PER_DAY. lia.
Qed.

Lemma iso_seconds_inj t t' : iso_seconds t = iso_seconds t' → t / 1000 = t' / 1000.
Proof.
  intros Heq. unfold iso_seconds in Heq.
  pose proof (time_fields t). pose proof (time_fields t').
  assert (Hlen : ∀ t, String.length ("T" +:+ padn 2 (getUTCHours t) +:+ ":" +:+
    padn 2 (getUTCMinutes t) +:+ ":" +:+ padn 2 (getUTCSeconds t)) = 9%nat).
  { intros u. pose proof (time_fields u). rewrite !length_string_app. rewrite !length_padn_2 by lia. done. }
  apply app_suffix_inj in Heq as [Hdate Heq]; [|by rewrite !Hlen].
  assert (Hl : ∀ n, lacks ":" (padn 2 n) = true) by (intros; by apply padn_lacks).
  autorewrite with strs in Heq. injection Heq as Heq.
  apply app_sep_inj in Heq as [Hh Heq]; [|done..].
  apply app_sep_inj in Heq as [Hm Hs]; [|done..].
  apply padn_inj in Hh, Hm, Hs; [|lia..].
  apply iso_date_inj in Hdate as (Hy & Hmo & Hd); [|apply civil_fields..].
  rewrite <- (date_utc_fields t), <- (date_utc_fields t'). unfold date_utc.
  rewrite Hy, Hmo, Hd, Hh, Hm, Hs. unfold MS_PER_DAY. lia.
Qed.

Lemma iso_seconds_lacks c t :
  decimal_char c = false → c ≠ "+"%char → c ≠ "T"%char → c ≠ ":"%char → lacks c (iso_seconds t) = true.
Proof.
  intros Hc Hp HT Hcol. assert (Hm : c ≠ "-"%char) by (by intros ->).
  assert (Hch : ∀ d, c ≠ d → ∀ s, lacks c (String d s) = lacks c s).
  { intros d Hd s. unfold lacks. cbn. by destruct (Ascii.eqb_spec c d). }
  assert (Hy : ∀ y, lacks c (iso_year y) = true).
  { intros y. unfold iso_year. repeat case_match; [by apply padn_lacks|..];
      autorewrite with strs; rewrite Hch by done; by apply padn_lacks. }
  unfold iso_seconds, iso_date, lacks. rewrite !string_forallb_app. fold (lacks c).
  rewrite Hy, !padn_lacks by done. unfold lacks. cbn.
  by destruct (Ascii.eqb_spec c "-"), (Ascii.eqb_spec c "T"), (Ascii.eqb_spec c ":").
Qed.

Lemma toISOString_inj t t' : toISOString t = toISOString t' → t = t'.
Proof.
  unfold toISOString. intros Heq. autorewrite with strs in Heq.
  apply app_sep_inj in Heq as [Hs Heq]; [|by apply iso_seconds_lacks..].
  apply app_suffix_inj in Heq as [Hms _]; [|done].
  pose proof (time_fields t). pose proof (time_fields t').
  apply iso_seconds_inj in Hs. apply padn_inj in Hms; [|lia..].
  revert Hms. unfold getUTCMilliseconds, time_of, MS_PER_DAY. lia.
Qed.

(** The text up to the second depends on the second only. *)
Lemma iso_seconds_second t : iso_seconds (1000 * (t / 1000)) = iso_seconds t.
Proof.
  assert (Hd : day_of (1000 * (t / 1000)) = day_of t) by (unfold day_of, MS_PER_DAY; lia).
  unfold iso_seconds, getUTCFullYear, getUTCMonth, getUTCDate. rewrite Hd.
  assert (getUTCHours (1000 * (t / 1000)) = getUTCHours t) as ->
    by (unfold getUTCHours, time_of, MS_PER_DAY; lia).
  assert (getUTCMinutes (1000 * (t / 1000)) = getUTCMinutes t) as ->
    by (unfold getUTCMinutes, time_of, MS_PER_DAY; lia).
  by assert (getUTCSeconds (1000 * (t / 1000)) = getUTCSeconds t) as ->
    by (unfold getUTCSeconds, time_of, MS_PER_DAY; lia).
Qed.

Lemma padn_chars (p : ascii → bool) w n :
  (∀ c, decimal_char c = true → p c = true) → string_forallb p (padn w n) = true.
Proof.
  intros Hp. unfold padn, pad_start. rewrite string_forallb_app, zeros_chars by (by apply Hp).
  eapply string_forallb_impl; [exact Hp|apply zs_chars].
Qed.

Lemma iso_seconds_chars (p : ascii → bool) t :
  (∀ c, decimal_char c = true → p c = true) → p "+"%char = true → p "T"%char = true →
  p ":"%char = true → string_forallb p (iso_seconds t) = true.
Proof.
  intros Hp Hplus HT Hcol. assert (Hm : p "-"%char = true) by (by apply Hp).
  assert (Hy : ∀ y, string_forallb p (iso_year y) = true).
  { intros y. unfold iso_year. repeat case_match; rewrite ?string_forallb_app, padn_chars by done;
      cbn; by rewrite ?Hm, ?Hplus. }
  unfold iso_seconds, iso_date. rewrite !string_forallb_app, Hy, !padn_chars by done.
  cbn. by rewrite Hm, HT, Hcol.
Qed.

(** ** Reading a printed date

    [Date.parse] of the formats the code prints: the date, and the date with the time to
    the millisecond in UTC. *)

Fixpoint read_digits (w : nat) (acc : Z) (s : string) : option (Z * string) :=
  match w with
  | O => Some (acc, s)
  | S w' =>
      match s with
      | String c s' =>
          let n := Z.of_N (N_of_ascii c) - 48 in
          if (0 <=? n) && (n <=? 9) then read_digits w' (10 * acc + n) s' else None
      | EmptyString => None
      end
  end.

Definition read_iso_date (s : string) : option (Z * Z * Z * string) :=
  '(y, s) ← read_digits 4 0 s; s ← eat "-" s;
  '(m, s) ← read_digits 2 0 s; s ← eat "-" s;
  '(d, s) ← read_digits 2 0 s;
  if (1 <=? m) && (m <=? 12) && (1 <=? d) && (d <=? days_in_month y m) then Some (y, m, d, s) else None.

Definition read_iso_time (s : string) : option (Z * Z * Z * Z * string) :=
  s ← eat "T" s; '(h, s) ← read_digits 2 0 s; s ← eat ":" s;
  '(mi, s) ← read_digits 2 0 s; s ← eat ":" s;
  '(sec, s) ← read_digits 2 0 s; s ← eat "." s;
  '(ms, s) ← read_digits 3 0 s; s ← eat "Z" s;
  if (h <? 24) && (mi <? 60) && (sec <? 60) then Some (h, mi, sec, ms, s) else None.

Definition iso_read (s : string) : option Z :=
  '(y, m, d, s) ← read_iso_date s;
  if String.eqb s EmptyString then Some (date_utc y m d 0 0 0 0)
  else
    '(h, mi, sec, ms, s) ← read_iso_time s;
    if String.eqb s EmptyString then Some (date_utc y m d h mi sec ms) else None.

Lemma read_digits_app w acc s n r :
  read_digits w acc s = Some (n, EmptyString) → read_digits w acc (s +:+ r) = Some (n, r).
Proof.
  revert acc s. induction w as [|w IH]; intros acc s; cbn [read_digits]; [by intros [= -> ->]|].
  destruct s as [|c s]; [done|]. rewrite string_app_cons. case_match; [apply IH|done].
Qed.

Definition reads_padded (w : nat) (n : Z) : bool :=
  bool_decide (read_digits w 0 (padn w n) = Some (n, EmptyString)).

Lemma read_padn w n r :
  all_from (Z.to_nat (10 ^ Z.of_nat w)) 0 (reads_padded w) = true → 0 <= n < 10 ^ Z.of_nat w →
  read_digits w 0 (padn w n +:+ r) = Some (n, r).
Proof.
  intros Hall Hn. apply read_digits_app. eapply bool_decide_eq_true, (all_from_spec _ _ _ Hall). lia.
Qed.

Lemma padded_2 : all_from (Z.to_nat (10 ^ Z.of_nat 2)) 0 (reads_padded 2) = true.
Proof. vm_compute. reflexivity. Qed.

Lemma padded_3 : all_from (Z.to_nat (10 ^ Z.of_nat 3)) 0 (reads_padded 3) = true.
Proof. vm_compute. reflexivity. Qed.

Lemma padded_4 : all_from (Z.to_nat (10 ^ Z.of_nat 4)) 0 (reads_padded 4) = true.
Proof. vm_compute. reflexivity. Qed.

Lemma read_iso_date_app y m d r :
  0 <= y <= 9999 → valid_date y m d → read_iso_date (iso_date y m d +:+ r) = Some (y, m, d, r).
Proof.
  intros Hy Hv. pose proof (valid_date_small y m d Hv) as [Hm Hd]. destruct Hv as (Hm' & Hd').
  unfold read_iso_date, iso_date, iso_year. rewrite (proj2 (Z.leb_le 0 y)), (proj2 (Z.leb_le y 9999)) by lia.
  cbn [andb]. rewrite !string_app_assoc, (read_padn 4) by (apply padded_4 || lia). cbn [mbind option_bind].
  rewrite string_app_cons, eat_eq. cbn [mbind option_bind]. rewrite string_app_nil_l.
  rewrite (read_padn 2) by (apply padded_2 || lia). cbn [mbind option_bind].
  rewrite string_app_cons, eat_eq. cbn [mbind option_bind]. rewrite string_app_nil_l.
  rewrite (read_padn 2) by (apply padded_2 || lia). cbn [mbind option_bind].
  by rewrite !(proj2 (Z.leb_le _ _)) by lia.
Qed.

(** Reading undoes printing, in the years 0 to 9999. *)
Lemma iso_read_toISOString t : 0 <= getUTCFullYear t <= 9999 → iso_read (toISOString t) = Some t.
Proof.
  intros Hy. pose proof (civil_fields t) as Hv. pose proof (time_fields t) as (Hh & Hmi & Hs & Hms).
  unfold iso_read, toISOString, iso_seconds. rewrite !string_app_assoc, read_iso_date_app by done.
  cbn [mbind option_bind]. rewrite string_app_cons, string_app_nil_l.
  match goal with |- context [String.eqb (String ?c ?s) EmptyString] => change (String.eqb (String c s) EmptyString) with false end.
  unfold read_iso_time. rewrite eat_eq. cbn [mbind option_bind].
  rewrite (read_padn 2) by (apply padded_2 || lia). cbn [mbind option_bind].
  rewrite string_app_cons, eat_eq, string_app_nil_l. cbn [mbind option_bind].
  rewrite (read_padn 2) by (apply padded_2 || lia). cbn [mbind option_bind].
  rewrite string_app_cons, eat_eq, string_app_nil_l. cbn [mbind option_bind].
  rewrite (read_padn 2) by (apply padded_2 || lia). cbn [mbind option_bind].
  rewrite string_app_cons, eat_eq, string_app_nil_l. cbn [mbind option_bind].
  rewrite (read_padn 3) by (apply padded_3 || lia). cbn [mbind option_bind].
  rewrite eat_eq. cbn [mbind option_bind].
  rewrite !(proj2 (Z.ltb_lt _ _)) by lia. cbn [andb mbind option_bind].
  change (String.eqb EmptyString EmptyString) with true. cbn iota. by rewrite date_utc_fields.
Qed.
