(* ===== verification/Jcs.v ===== *)
(** Canonical JSON, [shared/lib/jcs.ts].

    JavaScript values are the type [Json].  Strings are their UTF-8 encoding; the
    order of [Object.keys(obj).sort()], which compares UTF-16 code units, is the
    order of the encodings for strings without surrogate pairs, and those are the
    strings modelled.  A [number] is an integer or one of the non-finite values
    ([JNonFinite]); [JOther t] is a value whose [typeof] is [t] and which JSON
    does not have ([undefined], a [bigint], a function). *)

From stdpp Require Import sorting.
From S2P Require Import Prelude.

Inductive Json : Type :=
  | JNull
  | JBool (b : bool)
  | JNum (n : Z)
  | JNonFinite
  | JStr (s : string)
  | JArr (l : list Json)
  | JObj (l : list (string * Json))
  | JOther (typeof : string).

Fixpoint Json_nested_ind (P : Json → Prop) (HNull : P JNull) (HBool : ∀ b, P (JBool b))
    (HNum : ∀ n, P (JNum n)) (HNonFinite : P JNonFinite) (HStr : ∀ s, P (JStr s))
    (HArr : ∀ l, Forall P l → P (JArr l))
    (HObj : ∀ l, Forall (λ p, P p.2) l → P (JObj l))
    (HOther : ∀ t, P (JOther t)) (v : Json) : P v :=
  let rec := Json_nested_ind P HNull HBool HNum HNonFinite HStr HArr HObj HOther in
  match v with
  | JNull => HNull
  | JBool b => HBool b
  | JNum n => HNum n
  | JNonFinite => HNonFinite
  | JStr s => HStr s
  | JArr l => HArr l
      ((fix go l : Forall P l :=
          match l with [] => Forall_nil_2 _ | x :: l => Forall_cons_2 _ _ _ (rec x) (go l) end) l)
  | JObj l => HObj l
      ((fix go l : Forall (λ p, P p.2) l :=
          match l with [] => Forall_nil_2 _ | p :: l => Forall_cons_2 (λ p, P p.2) _ _ (rec p.2) (go l) end) l)
  | JOther t => HOther t
  end.

Inductive JcsError : Set :=
  | TypeError (typeof : string)
  | RangeError.

(** ** Strings *)

Definition hex_digit_of (n : N) : ascii := ascii_of_N (if (n <? 10)%N then 48 + n else 87 + n)%N.

(** One character of [JSON.stringify(s)]. *)
Definition json_escape (c : ascii) : string :=
  let n := N_of_ascii c in
  (if n =? 34 then String "\" (String c EmptyString)
   else if n =? 92 then String "\" (String c EmptyString)
   else if n =? 8 then "\b"
   else if n =? 9 then "\t"
   else if n =? 10 then "\n"
   else if n =? 12 then "\f"
   else if n =? 13 then "\r"
   else if n <? 32 then "\u00" +:+ String (hex_digit_of (n / 16)) (String (hex_digit_of (n mod 16)) EmptyString)
   else char c)%N.

Fixpoint json_escapes (s : string) : string :=
  match s with
  | EmptyString => EmptyString
  | String c s' => json_escape c +:+ json_escapes s'
  end.

Definition quote : ascii := "034".

(** [JSON.stringify(s)] for a string. *)
Definition json_stringify (s : string) : string :=
  String quote (json_escapes s +:+ char quote).

(** [s.replace(/abc/g, by)] for a pattern of three bytes. *)
Fixpoint replace3 (a b c : ascii) (by_ : string) (s : string) : string :=
  match s with
  | String x s' =>
      match s' with
      | String y (String z s'') =>
          if Ascii.eqb x a && Ascii.eqb y b && Ascii.eqb z c
          then by_ +:+ replace3 a b c by_ s''
          else String x (replace3 a b c by_ s')
      | _ => String x (replace3 a b c by_ s')
      end
  | EmptyString => EmptyString
  end.

(** U+2028 and U+2029 are the bytes E2 80 A8 and E2 80 A9. *)
Definition serializeString (s : string) : string :=
  replace3 "226" "128" "169" "\u2029" (replace3 "226" "128" "168" "\u2028" (json_stringify s)).

(** ** Values *)

Definition serializeNumber (v : Json) : result JcsError string :=
  match v with
  | JNum n => Ok (zs n)
  | _ => Err RangeError
  end.

Fixpoint collect {E A} (l : list (result E A)) : result E (list A) :=
  match l with
  | [] => Ok []
  | r :: l' => a ← r; as_ ← collect l'; Ok (a :: as_)
  end.

Definition key_le {A} (p q : string * A) : Prop := String.le p.1 q.1.

#[export] Instance key_le_dec {A} : RelDecision (@key_le A).
Proof. intros p q. unfold key_le. apply _. Defined.

Definition pair_text (p : string * result JcsError string) : result JcsError string :=
  text ← p.2; Ok (serializeString p.1 +:+ ":" +:+ text).

Fixpoint serializeValue (v : Json) : result JcsError string :=
  match v with
  | JNull => Ok "null"
  | JBool b => Ok (if b then "true" else "false")
  | JNum _ | JNonFinite => serializeNumber v
  | JStr s => Ok (serializeString s)
  | JArr l =>
      parts ← collect (serializeValue <$> l);
      Ok ("[" +:+ join "," parts +:+ "]")
  | JObj l =>
      let sorted := merge_sort key_le ((λ p, (p.1, serializeValue p.2)) <$> l) in
      pairs ← collect (pair_text <$> sorted);
      Ok ("{" +:+ join "," pairs +:+ "}")
  | JOther t => Err (TypeError t)
  end%string.

Definition canonicalize : Json → result JcsError string := serializeValue.

Example jcs_example :
  canonicalize (JObj [("b", JArr [JNum 1; JNull]); ("a", JStr "x/y")])%string =
    Ok (String.concat (char quote)
          ["{"; "a"; ":"; "x/y"; ","; "b"; ":[1,null]}"])%string.
Proof. reflexivity. Qed.

(** ** Key order *)

(** Two values that differ in the order of the properties of their objects. *)
Inductive same_json : Json → Json → Prop :=
  | same_refl v : same_json v v
  | same_arr l l' : Forall2 same_json l l' → same_json (JArr l) (JArr l')
  | same_obj l l' :
      Forall2 (λ p q, p.1 = q.1 ∧ same_json p.2 q.2) l l' → same_json (JObj l) (JObj l')
  | same_perm l l' : l ≡ₚ l' → NoDup l.*1 → same_json (JObj l) (JObj l')
  | same_trans u v w : same_json u v → same_json v w → same_json u w.

#[export] Instance key_le_trans {A} : Transitive (@key_le A).
Proof. intros p q r. unfold key_le. apply (transitivity (R := String.le)). Qed.

#[export] Instance key_le_total {A} : Total (@key_le A).
Proof. intros p q. unfold key_le. apply (total String.le). Qed.

(** Entries with distinct keys have one sorted order. *)
Lemma merge_sort_perm {A} (l l' : list (string * A)) :
  l ≡ₚ l' → NoDup l.*1 → merge_sort key_le l = merge_sort key_le l'.
Proof.
  intros Hp Hd. apply (Sorted_unique_strong key_le).
  - intros p q Hp1 Hq1 H1 H2. rewrite merge_sort_Permutation in Hp1, Hq1. rewrite <- Hp in Hq1.
    assert (Hk : p.1 = q.1) by (by apply (anti_symm String.le)).
    apply list_elem_of_lookup in Hp1 as [i Hi], Hq1 as [j Hj].
    assert (i = j) as ->; [|congruence].
    eapply (NoDup_lookup l.*1 i j p.1 Hd); rewrite list_lookup_fmap; rewrite ?Hi, ?Hj; cbn; congruence.
  - apply (Sorted_merge_sort key_le).
  - apply (Sorted_merge_sort key_le).
  - by rewrite !merge_sort_Permutation.
Qed.

Fixpoint same_json_canonical_rec v w (H : same_json v w) {struct H} : canonicalize v = canonicalize w.
Proof.
  destruct H as [v|l l' Hl|l l' Hl|l l' Hp Hd|u v w H1 H2].
  - done.
  - unfold canonicalize. cbn [serializeValue].
    assert (serializeValue <$> l = serializeValue <$> l') as ->; [|done].
    induction Hl as [|v w l l' Hvw Hl IH]; [done|]. cbn. f_equal; [|exact IH].
    exact (same_json_canonical_rec _ _ Hvw).
  - unfold canonicalize. cbn [serializeValue].
    assert ((λ p, (p.1, serializeValue p.2)) <$> l = (λ p, (p.1, serializeValue p.2)) <$> l') as ->; [|done].
    induction Hl as [|p q l l' [Hk Hvw] Hl IH]; [done|]. cbn. f_equal; [|exact IH].
    f_equal; [exact Hk|exact (same_json_canonical_rec _ _ Hvw)].
  - unfold canonicalize. cbn [serializeValue].
    erewrite (merge_sort_perm _ _ (fmap_Permutation (λ p, (p.1, serializeValue p.2)) _ _ Hp)); [done|].
    rewrite <- list_fmap_compose. exact Hd.
  - transitivity (canonicalize v).
    + exact (same_json_canonical_rec _ _ H1).
    + exact (same_json_canonical_rec _ _ H2).
Qed.

(** The canonical text of a value does not depend on the order in which the
    properties of its objects were written, at any depth: values that differ only
    in that order (objects have each key once) have the same text, or fail with the
    same error. *)
Theorem canonicalize_key_order v w : same_json v w → canonicalize v = canonicalize w.
Proof. apply same_json_canonical_rec. Qed.

(** ** No control characters *)

Definition printable : string → bool := string_forallb (λ c, (32 <=? N_of_ascii c)%N).

Lemma printable_app s t : printable (s +:+ t) = printable s && printable t.
Proof. apply string_forallb_app. Qed.

Lemma printable_json_escape c : printable (json_escape c) = true.
Proof. destruct c as [[] [] [] [] [] [] [] []]; reflexivity. Qed.

Lemma printable_stringify s : printable (json_stringify s) = true.
Proof.
  assert (He : printable (json_escapes s) = true).
  { induction s as [|c s IH]; [done|]. cbn [json_escapes]. by rewrite printable_app, printable_json_escape, IH. }
  change (printable (json_escapes s +:+ char quote) = true). by rewrite printable_app, He.
Qed.

Lemma printable_replace3 a b c by_ s :
  printable by_ = true → printable s = true → printable (replace3 a b c by_ s) = true.
Proof.
  intros Hb. remember (String.length s) as n eqn:Hn. revert s Hn.
  induction n as [n IH] using lt_wf_ind; intros s -> Hs.
  destruct s as [|x s]; [done|]. cbn in Hs. apply andb_true_iff in Hs as [Hx Hs].
  assert (Hrec : printable (String x (replace3 a b c by_ s)) = true).
  { cbn. apply andb_true_iff. split; [done|]. eapply IH; [|done..]. cbn. lia. }
  destruct s as [|y [|z s]]; [exact Hrec..|]. cbn [replace3].
  destruct (_ && _); [|exact Hrec]. rewrite printable_app, Hb. cbn.
  cbn in Hs. apply andb_true_iff in Hs as [_ Hs]. apply andb_true_iff in Hs as [_ Hs].
  eapply IH; [|done..]. cbn. lia.
Qed.

Lemma printable_serializeString s : printable (serializeString s) = true.
Proof. apply printable_replace3; [done|]. apply printable_replace3; [done|]. apply printable_stringify. Qed.

Lemma printable_zs n : printable (zs n) = true.
Proof.
  eapply string_forallb_impl, zs_chars. intros c.
  destruct c as [[] [] [] [] [] [] [] []]; cbn; done.
Qed.

Lemma printable_join sep l :
  printable sep = true → Forall (λ s, printable s = true) l → printable (join sep l) = true.
Proof.
  intros Hs. induction 1 as [|s l Hsl HF IH]; [done|]. destruct l as [|t l]; [done|].
  cbn [String.concat] in *. by rewrite !printable_app, Hsl, Hs.
Qed.

Lemma collect_ok {E A} (l : list (result E A)) as_ :
  collect l = Ok as_ ↔ l = Ok <$> as_.
Proof.
  revert as_. induction l as [|r l IH]; intros as_; cbn.
  - destruct as_; cbn; split; congruence.
  - destruct r as [a|e]; cbn; [|destruct as_; split; done].
    destruct (collect l) as [bs|e] eqn:E2; cbn.
    + rewrite (proj1 (IH bs) eq_refl). destruct as_ as [|b as_]; cbn; split; try done.
      * by intros [= -> ->].
      * intros [= -> H]. by apply list_fmap_eq_inj in H as ->; [|apply _].
    + split; [done|]. destruct as_ as [|b as_]; [done|]. intros [= _ H].
      by apply (IH as_) in H.
Qed.

(** Control characters are escaped in the canonical text, so it contains none; in
    particular the separator of the audit canonical form. *)
Lemma printable_canonicalize v s : canonicalize v = Ok s → printable s = true.
Proof.
  revert s. induction v as [|b|n| |t|l IH|l IH|t] using Json_nested_ind; intros s Hs;
    unfold canonicalize in *; cbn [serializeValue serializeNumber] in Hs; try done.
  - by injection Hs as <-.
  - injection Hs as <-. by destruct b.
  - injection Hs as <-. apply printable_zs.
  - injection Hs as <-. apply printable_serializeString.
  - apply bind_ok in Hs as (parts & Hp & [= <-]). apply collect_ok in Hp.
    rewrite !printable_app, printable_join; [done..|].
    apply Forall_forall. intros part Hin. rewrite Forall_forall in IH.
    assert (Hin' : Ok part ∈ serializeValue <$> l) by (rewrite Hp; by apply list_elem_of_fmap_2).
    apply list_elem_of_fmap in Hin' as (v & Hv & Hvl). by eapply IH.
  - apply bind_ok in Hs as (pairs & Hp & [= <-]). apply collect_ok in Hp.
    rewrite !printable_app, printable_join; [done..|].
    apply Forall_forall. intros part Hin. rewrite Forall_forall in IH.
    assert (Hin' : Ok part ∈ pair_text <$> merge_sort key_le ((λ p, (p.1, serializeValue p.2)) <$> l))
      by (rewrite Hp; by apply list_elem_of_fmap_2).
    apply list_elem_of_fmap in Hin' as ([k r] & Hv & Hkr). symmetry in Hv.
    rewrite merge_sort_Permutation in Hkr. apply list_elem_of_fmap in Hkr as ([k' v] & [= -> ->] & Hvl).
    unfold pair_text in Hv. apply bind_ok in Hv as (text & Ht & [= <-]).
    rewrite !printable_app, printable_serializeString. by rewrite (IH _ Hvl _ Ht).
Qed.

(** ** Plain text is only quoted *)

Definition plain_char (c : ascii) : bool :=
  let n := N_of_ascii c in ((32 <=? n) && (n <? 128) && negb (n =? 34) && negb (n =? 92))%N.

Lemma replace3_lacks a b c by_ s : lacks a s = true → replace3 a b c by_ s = s.
Proof.
  induction s as [|x s IH]; [done|]. rewrite lacks_cons, andb_true_iff. intros [Hx Hs].
  specialize (IH Hs). destruct s as [|y [|z s]]; cbn [replace3] in *; [done|done|].
  assert (Ascii.eqb x a = false) as ->; [|by cbn [andb]; rewrite IH].
  apply Ascii.eqb_neq. intros ->. by rewrite Ascii.eqb_refl in Hx.
Qed.

Lemma serializeString_plain s :
  string_forallb plain_char s = true → serializeString s = String quote (s +:+ char quote).
Proof.
  intros Hs. assert (He : json_escapes s = s).
  { induction s as [|c s IH]; [done|]. cbn in Hs. apply andb_true_iff in Hs as [Hc Hs].
    cbn [json_escapes]. rewrite (IH Hs). clear - Hc.
    assert (json_escape c = char c) as ->; [|done].
    by destruct c as [[] [] [] [] [] [] [] []]; vm_compute in Hc |- *. }
  assert (Hl : lacks "226" (json_stringify s) = true).
  { unfold json_stringify. rewrite He, lacks_cons, lacks_app. apply andb_true_iff. split; [done|].
    apply andb_true_iff. split; [|done]. eapply string_forallb_impl; [|exact Hs].
    intros c. by destruct c as [[] [] [] [] [] [] [] []]. }
  unfold serializeString. rewrite (replace3_lacks _ _ _ _ _ Hl), (replace3_lacks _ _ _ _ _ Hl).
  unfold json_stringify. by rewrite He.
Qed.

Lemma canonicalize_key_order_witness :
  same_json (JObj [("b", JNum 1); ("a", JObj [("d", JNull); ("c", JBool true)])])%string
            (JObj [("a", JObj [("c", JBool true); ("d", JNull)]); ("b", JNum 1)])%string ∧
  canonicalize (JObj [("b", JNum 1); ("a", JObj [("d", JNull); ("c", JBool true)])])%string =
  canonicalize (JObj [("a", JObj [("c", JBool true); ("d", JNull)]); ("b", JNum 1)])%string.
Proof.
  assert (H : same_json (JObj [("b", JNum 1); ("a", JObj [("d", JNull); ("c", JBool true)])])%string
            (JObj [("a", JObj [("c", JBool true); ("d", JNull)]); ("b", JNum 1)])%string).
  { eapply same_trans.
    - apply same_perm; [apply Permutation_swap|]. cbn.
      apply (bool_decide_unpack _). vm_compute. exact I.
    - apply same_obj. constructor; [|constructor; [|constructor]]; cbn; (split; [done|]); [|apply same_refl].
      apply same_perm; [apply Permutation_swap|]. apply (bool_decide_unpack _). vm_compute. exact I. }
  split; [exact H|]. exact (canonicalize_key_order _ _ H).
Defined.
