(* ===== verification/JsonText.v ===== *)
(** JSON as text: [JSON.stringify] and [JSON.parse] of the language, which cursors and
    stored documents go through, and that the second undoes the first.

    [JSON.stringify] gives [None] for [undefined], omits such members of an object, prints
    a number that is not finite as [null] and throws on a [bigint].  An object keeps the
    order of its members (keys that are array indices, which JavaScript moves to the
    front, do not occur).  Strings are UTF-8; an escape [\u] stands for the encoding of
    its code unit.  A number whose text is not an integer of at most 2^53 - 1 is read
    by a parameter, [read_double]. *)

From Stdlib Require Import DecimalString DecimalZ DecimalFacts.
From S2P Require Import Prelude Jcs.

(** ** Writing *)

Definition MAX_SAFE_INTEGER : Z := 9007199254740991.

(** What [JSON.stringify(v)] makes of a value that is no JSON value. *)
Definition stringify_other (t : string) : result JcsError (option string) :=
  if String.eqb t "bigint" then Err (TypeError t) else Ok None.

Definition member_text (key : string) (text : option string) : option string :=
  (λ t, json_stringify key +:+ ":" +:+ t) <$> text.

Fixpoint JSON_stringify (v : Json) : result JcsError (option string) :=
  match v with
  | JNull | JNonFinite => Ok (Some "null")
  | JBool b => Ok (Some (if b then "true" else "false"))
  | JNum n => Ok (Some (zs n))
  | JStr s => Ok (Some (json_stringify s))
  | JArr l =>
      texts ← collect (JSON_stringify <$> l);
      Ok (Some ("[" +:+ join "," (default "null" <$> texts) +:+ "]"))
  | JObj l =>
      texts ← collect ((λ p, member_text p.1 <$> JSON_stringify p.2) <$> l);
      Ok (Some ("{" +:+ join "," (omap id texts) +:+ "}"))
  | JOther t => stringify_other t
  end%string.

(** ** Reading *)

Definition json_space (c : ascii) : bool :=
  let n := N_of_ascii c in (n =? 32)%N || (n =? 9)%N || (n =? 10)%N || (n =? 13)%N.

Fixpoint skip_ws (s : string) : string :=
  match s with
  | String c s' => if json_space c then skip_ws s' else s
  | EmptyString => EmptyString
  end.

(** The longest prefix of digits, and the rest. *)
Definition is_dec (c : ascii) : bool := let n := N_of_ascii c in (48 <=? n)%N && (n <=? 57)%N.

Fixpoint span_digits (s : string) : string * string :=
  match s with
  | String c s' =>
      if is_dec c then let '(ds, r) := span_digits s' in (String c ds, r) else (EmptyString, s)
  | EmptyString => (EmptyString, EmptyString)
  end.

Definition hex_value (c : ascii) : option N :=
  let n := N_of_ascii c in
  (if (48 <=? n) && (n <=? 57) then Some (n - 48)
   else if (97 <=? n) && (n <=? 102) then Some (n - 87)
   else if (65 <=? n) && (n <=? 70) then Some (n - 55)
   else None)%N.

Definition hex4 (a b c d : ascii) : option N :=
  va ← hex_value a; vb ← hex_value b; vc ← hex_value c; vd ← hex_value d;
  Some (va * 4096 + vb * 256 + vc * 16 + vd)%N.

(** The encoding of a code unit. *)
Definition utf8_unit (n : N) : string :=
  (if n <? 128 then char (ascii_of_N n)
   else if n <? 2048 then
     String (ascii_of_N (192 + n / 64)) (char (ascii_of_N (128 + n mod 64)))
   else
     String (ascii_of_N (224 + n / 4096))
       (String (ascii_of_N (128 + n / 64 mod 64)) (char (ascii_of_N (128 + n mod 64)))))%N.

Definition unescape (c : ascii) : option ascii :=
  let n := N_of_ascii c in
  (if n =? 34 then Some "034" else if n =? 92 then Some "092" else if n =? 47 then Some "/"
   else if n =? 98 then Some "008" else if n =? 102 then Some "012" else if n =? 110 then Some "010"
   else if n =? 114 then Some "013" else if n =? 116 then Some "009" else None)%N%char.

Definition prepend (s : string) (o : option (string * string)) : option (string * string) :=
  (λ p, (s +:+ p.1, p.2)) <$> o.

(** A string after its opening quote, and what follows its closing one. *)
Fixpoint read_string (s : string) : option (string * string) :=
  match s with
  | EmptyString => None
  | String c s1 =>
      if Ascii.eqb c quote then Some (EmptyString, s1)
      else if Ascii.eqb c "\" then
        match s1 with
        | EmptyString => None
        | String e s2 =>
            match unescape e with
            | Some u => prepend (char u) (read_string s2)
            | None =>
                if Ascii.eqb e "u" then
                  match s2 with
                  | String a (String b (String c' (String d s3))) =>
                      match hex4 a b c' d with
                      | Some n => prepend (utf8_unit n) (read_string s3)
                      | None => None
                      end
                  | _ => None
                  end
                else None
            end
        end
      else if (N_of_ascii c <? 32)%N then None
      else prepend (char c) (read_string s1)
  end.

(** Putting a member into an object: the last of equal keys counts, where the first is. *)
Fixpoint put_member {A} (k : string) (v : A) (l : list (string * A)) : list (string * A) :=
  match l with
  | [] => [(k, v)]
  | (k', v') :: l' => if String.eqb k k' then (k, v) :: l' else (k', v') :: put_member k v l'
  end.

Definition object_of {A} (l : list (string * A)) : list (string * A) :=
  foldl (λ o p, put_member p.1 p.2 o) [] l.

(** The rest after a word. *)
Fixpoint eat_word (w s : string) : option string :=
  match w with EmptyString => Some s | String c w' => s' ← eat c s; eat_word w' s' end.

Definition read_minus (s : string) : string * string :=
  match s with String "-" s' => ("-"%string, s') | _ => (EmptyString, s) end.

Definition bad_leading_zero (digits : string) : bool :=
  match digits with String "0" (String _ _) => true | _ => false end.

(** A fraction: a point and at least one digit; [None] when the point has none. *)
Definition read_fraction (s : string) : option (string * string) :=
  match s with
  | String "." s' =>
      match span_digits s' with (EmptyString, _) => None | (ds, r) => Some ("." +:+ ds, r) end
  | _ => Some (EmptyString, s)
  end.

Definition read_exponent (s : string) : option (string * string) :=
  let go (e s' : string) :=
    match span_digits s' with (EmptyString, _) => None | (ds, r) => Some (e +:+ ds, r) end in
  match s with
  | String "e" s' | String "E" s' =>
      match s' with
      | String "+" s'' => go "e+"%string s''
      | String "-" s'' => go "e-"%string s''
      | _ => go "e"%string s'
      end
  | _ => Some (EmptyString, s)
  end.

Section read.
Variable read_double : string → Json.

Definition number_of (sign digits rest : string) : Json :=
  match rest, bigint_of (sign +:+ digits) with
  | EmptyString, Some n => if bool_decide (Z.abs n ≤ MAX_SAFE_INTEGER)%Z then JNum n else read_double (sign +:+ digits)
  | _, _ => read_double (sign +:+ digits +:+ rest)
  end.

Definition read_number (s : string) : option (Json * string) :=
  let '(sign, s1) := read_minus s in
  let '(digits, s2) := span_digits s1 in
  if String.eqb digits EmptyString || bad_leading_zero digits then None
  else
    '(fraction, s3) ← read_fraction s2;
    '(exponent, s4) ← read_exponent s3;
    Some (number_of sign digits (fraction +:+ exponent), s4).

(** A value, given how to read the elements of an array after its bracket and the members
    of an object after its brace. *)
Definition read_value_with (elements : string → option (list Json * string))
    (members : string → option (list (string * Json) * string)) (s : string) : option (Json * string) :=
  match skip_ws s with
  | EmptyString => None
  | String c r =>
      if Ascii.eqb c quote then (λ p, (JStr p.1, p.2)) <$> read_string r
      else if Ascii.eqb c "[" then
        match eat "]" (skip_ws r) with
        | Some r' => Some (JArr [], r')
        | None => (λ p, (JArr p.1, p.2)) <$> elements r
        end
      else if Ascii.eqb c "{" then
        match eat "}" (skip_ws r) with
        | Some r' => Some (JObj [], r')
        | None => (λ p, (JObj (object_of p.1), p.2)) <$> members r
        end
      else if Ascii.eqb c "t" then (λ r', (JBool true, r')) <$> eat_word "rue" r
      else if Ascii.eqb c "f" then (λ r', (JBool false, r')) <$> eat_word "alse" r
      else if Ascii.eqb c "n" then (λ r', (JNull, r')) <$> eat_word "ull" r
      else read_number (String c r)
  end.

Definition read_elements_with (value : string → option (Json * string))
    (elements : string → option (list Json * string)) (s : string) : option (list Json * string) :=
  '(v, r) ← value s;
  match eat "," (skip_ws r) with
  | Some r' => (λ p, (v :: p.1, p.2)) <$> elements r'
  | None => (λ r', ([v], r')) <$> eat "]" (skip_ws r)
  end.

Definition read_members_with (value : string → option (Json * string))
    (members : string → option (list (string * Json) * string)) (s : string)
    : option (list (string * Json) * string) :=
  r ← eat quote (skip_ws s);
  '(k, r1) ← read_string r;
  r2 ← eat ":" (skip_ws r1);
  '(v, r3) ← value r2;
  match eat "," (skip_ws r3) with
  | Some r' => (λ p, ((k, v) :: p.1, p.2)) <$> members r'
  | None => (λ r', ([(k, v)], r')) <$> eat "}" (skip_ws r3)
  end.

Fixpoint read_value (fuel : nat) (s : string) {struct fuel} : option (Json * string) :=
  match fuel with O => None | S n => read_value_with (read_elements n) (read_members n) s end
with read_elements (fuel : nat) (s : string) {struct fuel} : option (list Json * string) :=
  match fuel with O => None | S n => read_elements_with (read_value n) (read_elements n) s end
with read_members (fuel : nat) (s : string) {struct fuel} : option (list (string * Json) * string) :=
  match fuel with O => None | S n => read_members_with (read_value n) (read_members n) s end.

Lemma value_step n s : read_value (S n) s = read_value_with (read_elements n) (read_members n) s.
Proof. done. Qed.

Lemma elements_step n s : read_elements (S n) s = read_elements_with (read_value n) (read_elements n) s.
Proof. done. Qed.

Lemma members_step n s : read_members (S n) s = read_members_with (read_value n) (read_members n) s.
Proof. done. Qed.

(** [JSON.parse(s)], [None] for a [SyntaxError]. *)
Definition json_fuel (s : string) : nat := S (S (2 * String.length s)).

Definition JSON_parse (s : string) : option Json :=
  '(v, r) ← read_value (json_fuel s) s;
  match skip_ws r with EmptyString => Some v | _ => None end.
End read.

(** ** Reading undoes writing *)

Lemma prepend_some s t r : prepend s (Some (t, r)) = Some (s +:+ t, r).
Proof. done. Qed.

Lemma read_escaped c s :
  read_string (json_escape c +:+ s) = prepend (char c) (read_string s).
Proof.
  destruct c as [[] [] [] [] [] [] [] []];
    match goal with |- read_string (?e +:+ _) = _ => let e' := eval vm_compute in e in change e with e' end;
    reflexivity.
Qed.

Lemma read_escapes s r : read_string (json_escapes s +:+ String quote r) = Some (s, r).
Proof.
  induction s as [|c s IH]; [done|]. cbn [json_escapes]. rewrite string_app_assoc, read_escaped, IH.
  apply prepend_some.
Qed.

Lemma json_stringify_app s r :
  json_stringify s +:+ r = String quote (json_escapes s +:+ String quote r).
Proof. unfold json_stringify. by autorewrite with strs. Qed.

(** What may follow a number. *)
Definition ends_number (r : string) : bool :=
  match r with
  | EmptyString => true
  | String c _ => negb (is_dec c || Ascii.eqb c "." || Ascii.eqb c "e" || Ascii.eqb c "E")
  end.

Lemma span_digits_app s r :
  string_forallb is_dec s = true → ends_number r = true → span_digits (s +:+ r) = (s, r).
Proof.
  intros Hs Hr. induction s as [|c s IH].
  - destruct r as [|c r]; [done|]. cbn [ends_number] in Hr. rewrite string_app_nil_l. cbn [span_digits].
    by destruct (is_dec c).
  - cbn [string_forallb] in Hs. apply andb_prop in Hs as [Hc Hs].
    rewrite string_app_cons. cbn [span_digits]. by rewrite Hc, IH.
Qed.

Lemma uint_dec d : string_forallb is_dec (NilEmpty.string_of_uint d) = true.
Proof. induction d; cbn; done. Qed.

Lemma zs_uint_text n :
  ∃ sign d, zs n = sign +:+ NilEmpty.string_of_uint d ∧ d ≠ Decimal.Nil ∧ Decimal.unorm d = d ∧
    (sign = EmptyString ∧ n = Z.of_uint d ∨ sign = "-"%string ∧ n = (- Z.of_uint d)%Z).
Proof.
  unfold zs. pose proof (to_int_nonnil n) as [Hp Hn].
  assert (Hnorm : Decimal.norm (Z.to_int n) = Z.to_int n).
  { by rewrite <- (DecimalZ.to_of (Z.to_int n)), DecimalZ.of_to. }
  pose proof (DecimalZ.of_to n) as Hv.
  destruct (Z.to_int n) as [d|d] eqn:E; cbn in Hnorm, Hv |- *.
  - exists EmptyString, d. injection Hnorm as Hd. assert (d ≠ Decimal.Nil) by congruence.
    repeat split; [|done|done|by left]. by destruct d.
  - exists "-"%string, d. assert (d ≠ Decimal.Nil) by congruence.
    assert (Decimal.unorm d = d) by (unfold Decimal.unorm; destruct (Decimal.nzhead d); congruence).
    repeat split; [by destruct d|done|done|by right].
Qed.

Lemma unorm_leading_zero d : Decimal.unorm d = d → bad_leading_zero (NilEmpty.string_of_uint d) = false.
Proof.
  intros Hd. destruct d as [|d| | | | | | | | |]; try done. assert (d = Decimal.Nil ∨ d ≠ Decimal.Nil) as [->|Hne] by (destruct d; naive_solver); [done|].
  exfalso. unfold Decimal.unorm in Hd. cbn [Decimal.nzhead] in Hd.
  pose proof (DecimalFacts.nb_digits_nzhead d) as Hl.
  destruct (Decimal.nzhead d) eqn:E; try discriminate Hd; [congruence|].
  injection Hd as ->. cbn in Hl. lia.
Qed.

Section roundtrip.
Variable read_double : string → Json.

Lemma read_number_zs n r :
  (Z.abs n ≤ MAX_SAFE_INTEGER)%Z → ends_number r = true →
  read_number read_double (zs n +:+ r) = Some (JNum n, r).
Proof.
  intros Hn Hr. destruct (zs_uint_text n) as (sign & d & Hz & Hd & Hnorm & Hsign).
  assert (Hm : read_minus (zs n +:+ r) = (sign, NilEmpty.string_of_uint d +:+ r)).
  { rewrite Hz. destruct Hsign as [[-> _]|[-> _]]; [|by destruct d]. by destruct d. }
  unfold read_number. rewrite Hm, span_digits_app by (done || apply uint_dec).
  assert (String.eqb (NilEmpty.string_of_uint d) EmptyString = false) as -> by (by destruct d).
  rewrite unorm_leading_zero by done. cbn [orb].
  assert (read_fraction r = Some (EmptyString, r)) as ->.
  { destruct r as [|[[] [] [] [] [] [] [] []] r]; try done. }
  cbn [mbind option_bind].
  assert (read_exponent r = Some (EmptyString, r)) as ->.
  { destruct r as [|[[] [] [] [] [] [] [] []] r]; try done. }
  cbn [mbind option_bind]. change (EmptyString +:+ EmptyString) with EmptyString. unfold number_of.
  rewrite <- Hz, bigint_of_zs. by rewrite bool_decide_true.
Qed.

(** What [JSON.stringify] prints losslessly: no value JSON lacks, no number beyond the
    safe integers, no key twice. *)
Fixpoint plain_json (v : Json) : bool :=
  match v with
  | JNull | JBool _ | JStr _ => true
  | JNum n => bool_decide (Z.abs n ≤ MAX_SAFE_INTEGER)%Z
  | JArr l => forallb plain_json l
  | JObj l => bool_decide (NoDup l.*1) && forallb (λ p, plain_json p.2) l
  | JNonFinite | JOther _ => false
  end.

Lemma put_member_fresh {A} k (v : A) l : k ∉ l.*1 → put_member k v l = l ++ [(k, v)].
Proof.
  induction l as [|[k' v'] l IH]; intros Hk; [done|]. cbn in Hk |- *. apply not_elem_of_cons in Hk as [Hne Hk].
  destruct (String.eqb_spec k k'); [done|]. by rewrite IH.
Qed.

Lemma object_of_nodup {A} (l : list (string * A)) : NoDup l.*1 → object_of l = l.
Proof.
  unfold object_of. change l with ([] ++ l) at 1 3. generalize (@nil (string * A)) as acc.
  induction l as [|[k v] l IH]; intros acc Hn; cbn; [by rewrite app_nil_r|].
  rewrite put_member_fresh.
  - rewrite IH, <- (assoc_L (++)); [done|]. by rewrite <- (assoc_L (++)).
  - rewrite fmap_app in Hn. apply NoDup_app in Hn as (_ & Hd & _). intros Hin. by apply (Hd k Hin), elem_of_cons; left.
Qed.

(** A text that starts a value, and is read at any fuel of its length at least. *)
Definition starts_value (t : string) : bool :=
  match t with String c _ => negb (json_space c) && negb (Ascii.eqb c "]") | EmptyString => false end.

Definition reads (t : string) (v : Json) : Prop :=
  starts_value t = true ∧
  ∀ n r, (String.length t ≤ n)%nat → ends_number r = true → read_value read_double n (t +:+ r) = Some (v, r).

Lemma skip_ws_start t r : starts_value t = true → skip_ws (t +:+ r) = t +:+ r.
Proof.
  destruct t as [|c t]; [done|]. cbn [starts_value]. intros H%andb_prop. rewrite string_app_cons. cbn [skip_ws].
  destruct (json_space c); naive_solver.
Qed.

Lemma reads_length t v : reads t v → (0 < String.length t)%nat.
Proof. intros [H _]. destruct t; [done|cbn; lia]. Qed.

Lemma skip_ws_cons c s : json_space c = false → skip_ws (String c s) = String c s.
Proof. cbn [skip_ws]. by intros ->. Qed.

(** One token after another. *)
Ltac eat_token := rewrite skip_ws_cons by done; first [rewrite eat_eq | rewrite eat_ne by done]; cbn [mbind option_bind].

Lemma reads_elements ts vs n r :
  Forall2 reads ts vs → vs ≠ [] → (String.length (join "," ts) + 1 ≤ n)%nat →
  read_elements read_double n (join "," ts +:+ String "]" r) = Some (vs, r).
Proof.
  intros H. revert n r. induction H as [|t v ts vs Ht H IH]; intros n r Hne Hl; [done|].
  destruct n as [|n]; [lia|]. rewrite elements_step. unfold read_elements_with. destruct H as [|t' v' ts vs Ht' H].
  - cbn [String.concat] in Hl |- *. rewrite (proj2 Ht) by (done || lia). done.
  - change (join "," (t :: t' :: ts)) with (t +:+ "," +:+ join "," (t' :: ts)) in Hl |- *.
    rewrite !length_string_app in Hl. cbn [String.length] in Hl. autorewrite with strs.
    rewrite (proj2 Ht) by (done || lia). cbn [mbind option_bind].
    eat_token. by rewrite IH by (done || lia).
Qed.

Definition member_of (kt : string * string) : string := json_stringify kt.1 +:+ ":" +:+ kt.2.

Lemma member_of_app kt r :
  member_of kt +:+ r = String quote (json_escapes kt.1 +:+ String quote (String ":" (kt.2 +:+ r))).
Proof. unfold member_of. autorewrite with strs. rewrite json_stringify_app. by autorewrite with strs. Qed.

Lemma reads_members (kts : list (string * string)) (kvs : list (string * Json)) n r :
  Forall2 (λ kt kv, kt.1 = kv.1 ∧ reads kt.2 kv.2) kts kvs → kvs ≠ [] →
  (String.length (join "," (member_of <$> kts)) + 1 ≤ n)%nat →
  read_members read_double n (join "," (member_of <$> kts) +:+ String "}" r) = Some (kvs, r).
Proof.
  intros H. revert n r. induction H as [|[k t] [k' v] kts kvs [Hk Ht] H IH]; intros n r Hne Hl; [done|].
  cbn in Hk. subst k'. cbn [snd] in Ht. destruct n as [|n]; [lia|]. rewrite members_step. unfold read_members_with.
  assert (String.length (member_of (k, t)) = S (S (String.length (json_escapes k) + S (String.length t))))%nat as Hlen.
  { unfold member_of, json_stringify. cbn [fst snd]. rewrite !length_string_app. cbn [String.length].
    rewrite length_string_app. cbn. lia. }
  destruct H as [|[k1 t1] [k1' v1] kts kvs Ht1 H].
  - cbn [fmap list_fmap String.concat] in Hl |- *. rewrite member_of_app. cbn [fst snd]. eat_token.
    rewrite read_escapes. cbn [mbind option_bind]. eat_token. rewrite (proj2 Ht) by (done || lia). done.
  - change (join "," (member_of <$> (k, t) :: (k1, t1) :: kts))
      with (member_of (k, t) +:+ "," +:+ join "," (member_of <$> (k1, t1) :: kts)) in Hl |- *.
    rewrite !length_string_app in Hl. cbn [String.length] in Hl. rewrite string_app_assoc, member_of_app.
    cbn [fst snd]. eat_token. rewrite read_escapes. cbn [mbind option_bind]. eat_token.
    autorewrite with strs. rewrite (proj2 Ht) by (done || lia). cbn [mbind option_bind]. eat_token.
    by rewrite IH by (done || lia).
Qed.

(** A bracket is followed by the first element, no space and no other bracket. *)
Lemma eat_other c d s : Ascii.eqb c d = false → json_space d = false → eat c (skip_ws (String d s)) = None.
Proof. intros. rewrite skip_ws_cons by done. by apply eat_ne. Qed.

Lemma starts_not_close ts t s : starts_value t = true → eat "]" (skip_ws (join "," (t :: ts) +:+ s)) = None.
Proof.
  destruct t as [|c t]; [done|]. cbn [starts_value]. intros [Hs Hb]%andb_prop.
  assert (∃ s', join "," (String c t :: ts) +:+ s = String c s') as [s' ->]
    by (destruct ts; eexists; cbn [String.concat]; rewrite ?string_app_cons; reflexivity).
  apply eat_other; [|by destruct (json_space c)]. destruct (Ascii.eqb_spec "]" c); [by subst|done].
Qed.

Lemma reads_array ts vs : Forall2 reads ts vs → reads ("[" +:+ join "," ts +:+ "]") (JArr vs).
Proof.
  intros H. split; [done|]. intros n r Hl Hr. rewrite !length_string_app in Hl. cbn [String.length] in Hl.
  destruct n as [|n]; [lia|]. autorewrite with strs. rewrite value_step. unfold read_value_with. rewrite skip_ws_cons by done. cbn iota beta.
  destruct H as [|t v ts vs Ht H]; [done|].
  change (Ascii.eqb "[" quote) with false. change (Ascii.eqb "[" "[") with true. cbn iota.
  rewrite starts_not_close by apply Ht.
  by rewrite (reads_elements _ (v :: vs)) by (done || lia || by constructor).
Qed.

Lemma reads_object (kts : list (string * string)) (kvs : list (string * Json)) :
  Forall2 (λ kt kv, kt.1 = kv.1 ∧ reads kt.2 kv.2) kts kvs → NoDup kvs.*1 →
  reads ("{" +:+ join "," (member_of <$> kts) +:+ "}") (JObj kvs).
Proof.
  intros H Hn. split; [done|]. intros n r Hl Hr. rewrite !length_string_app in Hl. cbn [String.length] in Hl.
  destruct n as [|n]; [lia|]. autorewrite with strs. rewrite value_step. unfold read_value_with. rewrite skip_ws_cons by done. cbn iota beta.
  change (Ascii.eqb "{" quote) with false. change (Ascii.eqb "{" "[") with false.
  change (Ascii.eqb "{" "{") with true. cbn iota.
  destruct H as [|[k t] [k' v] kts kvs Ht H]; [done|].
  assert (Forall2 (λ kt kv, kt.1 = kv.1 ∧ reads kt.2 kv.2) ((k, t) :: kts) ((k', v) :: kvs)) as Hall by (by constructor).
  pose proof (reads_members _ _ n r Hall) as Hm.
  assert (∃ s, join "," (member_of <$> ((k, t) :: kts)) +:+ String "}" r = String quote s) as [s E].
  { destruct kts; cbn [fmap list_fmap String.concat]; rewrite ?string_app_assoc, member_of_app; eauto. }
  assert (eat "}" (skip_ws (join "," (member_of <$> ((k, t) :: kts)) +:+ String "}" r)) = None) as ->
    by (rewrite E; by apply eat_other).
  rewrite Hm by (done || lia).
  transitivity (Some (JObj (object_of ((k', v) :: kvs)), r)); [done|]. by rewrite object_of_nodup.
Qed.

Lemma omap_some {A B} (f : A → B) (l : list A) : omap id ((λ x, Some (f x)) <$> l) = f <$> l.
Proof. induction l as [|x l IH]; [done|]. cbn. by rewrite <- IH. Qed.

Lemma default_some {A} (a : A) (l : list A) : default a <$> (Some <$> l) = l.
Proof. induction l as [|x l IH]; [done|]. cbn. by f_equal. Qed.

Lemma stringify_reads v : plain_json v = true → ∃ t, JSON_stringify v = Ok (Some t) ∧ reads t v.
Proof.
  induction v as [|b|n| |s|l IH|l IH|t] using Json_nested_ind; cbn [plain_json]; intros Hv; try done.
  - exists "null"%string. split; [done|]. split; [done|]. intros [|n] r Hl _; [cbn in Hl; lia|done].
  - exists (if b then "true" else "false")%string. split; [done|]. split; [by destruct b|].
    intros [|n] r Hl _; [destruct b; cbn in Hl; lia|by destruct b].
  - apply bool_decide_eq_true in Hv. exists (zs n). split; [done|].
    assert (∃ c s, zs n = String c s ∧ (decimal_char c = true)) as (c & s & E & Hc).
    { pose proof (zs_chars n) as H. destruct (zs n) as [|c s] eqn:E; [by apply zs_nonempty in E|].
      cbn [string_forallb] in H. apply andb_prop in H as [H _]. eauto. }
    split; [rewrite E; by destruct c as [[] [] [] [] [] [] [] []]|].
    intros [|m] r Hl Hr; [rewrite E in Hl; cbn in Hl; lia|].
    pose proof (read_number_zs n r Hv Hr) as Hread. rewrite E, string_app_cons in Hread |- *.
    rewrite value_step. unfold read_value_with. rewrite skip_ws_cons by (by destruct c as [[] [] [] [] [] [] [] []]).
    rewrite Hread. by destruct c as [[] [] [] [] [] [] [] []].
  - exists (json_stringify s). split; [done|]. split; [done|].
    intros [|n] r Hl _; [unfold json_stringify in Hl; cbn in Hl; lia|].
    rewrite json_stringify_app. rewrite value_step. unfold read_value_with. rewrite skip_ws_cons by done.
    change (Ascii.eqb quote quote) with true. cbn iota. by rewrite read_escapes.
  - assert (∃ ts, collect (JSON_stringify <$> l) = Ok (Some <$> ts) ∧ Forall2 reads ts l) as (ts & Hc & Hr).
    { induction IH as [|v l Hp IH IHl]; [by exists []|]. cbn [forallb] in Hv. apply andb_prop in Hv as [Hv Hl].
      destruct (Hp Hv) as (t & Ht & Hr), (IHl Hl) as (ts & Hts & Hrs). exists (t :: ts).
      split; [|by constructor]. rewrite fmap_cons. cbn [collect]. rewrite Ht. cbn [mbind result_bind]. by rewrite Hts. }
    eexists. split; [|by apply (reads_array ts)]. cbn [JSON_stringify]. rewrite Hc. cbn [mbind result_bind].
    by rewrite default_some.
  - apply andb_prop in Hv as [Hn Hv]. apply bool_decide_eq_true in Hn.
    assert (∃ kts : list (string * string),
      collect ((λ p, member_text p.1 <$> JSON_stringify p.2) <$> l)
      = Ok ((λ kt, Some (member_of kt)) <$> kts) ∧
      Forall2 (λ kt kv, kt.1 = kv.1 ∧ reads kt.2 kv.2) kts l) as (kts & Hc & Hr).
    { clear Hn. induction IH as [|[k v] l Hp IH IHl]; [by exists []|]. cbn [forallb snd] in Hv.
      apply andb_prop in Hv as [Hv Hl]. destruct (Hp Hv) as (t & Ht & Hr), (IHl Hl) as (kts & Hts & Hrs).
      exists ((k, t) :: kts). split; [|by constructor].
      rewrite fmap_cons. cbn [collect snd]. cbn [snd] in Ht. rewrite Ht. cbn [mbind result_bind fmap result_fmap].
      by rewrite Hts. }
    eexists. split; [|by apply (reads_object kts)]. cbn [JSON_stringify]. rewrite Hc. cbn [mbind result_bind].
    by rewrite omap_some.
Qed.

(** A value JSON can print is what its text parses to. *)
Lemma parse_stringify v :
  plain_json v = true → ∃ t, JSON_stringify v = Ok (Some t) ∧ JSON_parse read_double t = Some v.
Proof.
  intros Hv. destruct (stringify_reads v Hv) as (t & Ht & _ & Hr). exists t. split; [done|].
  unfold JSON_parse. rewrite <- (string_app_nil_r t), Hr; [done| |done].
  rewrite string_app_nil_r. unfold json_fuel. lia.
Qed.
End roundtrip.

(** ** The fuel is enough *)

Lemma skip_ws_length s : (String.length (skip_ws s) ≤ String.length s)%nat.
Proof. induction s as [|c s IH]; cbn [skip_ws]; [done|]. destruct (json_space c); cbn; lia. Qed.

Lemma read_string_length s t r : read_string s = Some (t, r) → (String.length r < String.length s)%nat.
Proof.
  revert t r. induction s as [s IH] using (induction_ltof1 _ String.length). unfold ltof in IH.
  assert (∀ u s' t r, (String.length s' < String.length s)%nat → prepend u (read_string s') = Some (t, r) →
    (String.length r < String.length s)%nat) as Hp.
  { intros u s' t r Hl H. unfold prepend in H. destruct (read_string s') as [[t' r']|] eqn:E; [|done].
    injection H as <- <-. cbn. specialize (IH _ Hl _ _ E). lia. }
  intros t r H. destruct s as [|c s1]; [done|]. cbn [read_string] in H.
  destruct (Ascii.eqb c quote); [injection H as <- <-; cbn; lia|].
  destruct (Ascii.eqb c "\").
  - destruct s1 as [|e s2]; [done|]. destruct (unescape e).
    + eapply Hp; [|exact H]. cbn. lia.
    + destruct (Ascii.eqb e "u"); [|done]. destruct s2 as [|a [|b [|c' [|d s3]]]]; try done.
      destruct (hex4 a b c' d); [|done]. eapply Hp; [|exact H]. cbn. lia.
  - destruct (N_of_ascii c <? 32)%N; [done|]. eapply Hp; [|exact H]. cbn. lia.
Qed.

Lemma span_digits_length s d r :
  span_digits s = (d, r) → (String.length d + String.length r = String.length s)%nat.
Proof.
  revert d r. induction s as [|c s IH]; intros d r H; cbn [span_digits] in H; [by injection H as <- <-|].
  destruct (is_dec c); [|by injection H as <- <-]. destruct (span_digits s) as [d' r'] eqn:E.
  injection H as <- <-. cbn. specialize (IH _ _ eq_refl). lia.
Qed.

Ltac span_lengths :=
  repeat case_match; simplify_eq;
  repeat match goal with E : span_digits _ = _ |- _ => apply span_digits_length in E end;
  cbn [String.length] in *; lia.

Lemma read_fraction_length s f r : read_fraction s = Some (f, r) → (String.length r ≤ String.length s)%nat.
Proof. unfold read_fraction. intros H. span_lengths. Qed.

Lemma read_exponent_length s e r : read_exponent s = Some (e, r) → (String.length r ≤ String.length s)%nat.
Proof. unfold read_exponent. intros H. span_lengths. Qed.

Lemma read_minus_length s : (String.length (read_minus s).2 ≤ String.length s)%nat.
Proof. unfold read_minus. repeat case_match; simplify_eq; cbn; lia. Qed.

Lemma eat_length c s r : eat c s = Some r → String.length s = S (String.length r).
Proof. destruct s as [|d s]; cbn; [done|]. destruct (Ascii.eqb c d); [by intros [= ->]|done]. Qed.

Lemma eat_ws_length c s r : eat c (skip_ws s) = Some r → (String.length r < String.length s)%nat.
Proof. intros H%eat_length. pose proof (skip_ws_length s). lia. Qed.

Lemma eat_word_length w s r : eat_word w s = Some r → (String.length r ≤ String.length s)%nat.
Proof.
  revert s. induction w as [|c w IH]; intros s; cbn [eat_word]; [by intros [= ->]|].
  intros (s' & H%eat_length & Hw%IH)%bind_Some. lia.
Qed.


Section fuel.
Variable read_double : string → Json.
#[local] Abbreviation read_value := (read_value read_double).
#[local] Abbreviation read_elements := (read_elements read_double).
#[local] Abbreviation read_members := (read_members read_double).
#[local] Abbreviation len := String.length.

Lemma read_number_length s v r : read_number read_double s = Some (v, r) → (len r < len s)%nat.
Proof.
  unfold read_number. pose proof (read_minus_length s). destruct (read_minus s) as [sign s1]. cbn [snd] in H.
  destruct (span_digits s1) as [ds s2] eqn:E2. apply span_digits_length in E2.
  destruct ds as [|d ds]; [done|]. cbn [String.length] in E2.
  destruct (_ || _); [done|]. intros ([f s3] & H3 & ([e s4] & H4 & Hs)%bind_Some)%bind_Some. simplify_eq.
  apply read_fraction_length in H3. apply read_exponent_length in H4. lia.
Qed.

Definition consumes {A} (f : string → option (A * string)) : Prop :=
  ∀ s v r, f s = Some (v, r) → (len r < len s)%nat.

Lemma consumes_value n : consumes (read_elements n) → consumes (read_members n) → consumes (read_value (S n)).
Proof.
  intros He Hm s v r. pose proof (skip_ws_length s) as Hs.
  rewrite value_step. unfold read_value_with. destruct (skip_ws s) as [|c s']; [done|]. cbn [String.length] in Hs.
  destruct (Ascii.eqb c quote); [intros ([t r'] & H%read_string_length & [= -> ->])%fmap_Some; cbn in *; lia|].
  destruct (Ascii.eqb c "[").
  { destruct (eat "]" (skip_ws s')) eqn:E; [apply eat_ws_length in E; intros [= <- <-]; lia|].
    intros ([t r'] & H%He & [= -> ->])%fmap_Some. cbn in *. lia. }
  destruct (Ascii.eqb c "{").
  { destruct (eat "}" (skip_ws s')) eqn:E; [apply eat_ws_length in E; intros [= <- <-]; lia|].
    intros ([t r'] & H%Hm & [= -> ->])%fmap_Some. cbn in *. lia. }
  destruct (Ascii.eqb c "t"); [intros (r' & H%eat_word_length & [= -> ->])%fmap_Some; lia|].
  destruct (Ascii.eqb c "f"); [intros (r' & H%eat_word_length & [= -> ->])%fmap_Some; lia|].
  destruct (Ascii.eqb c "n"); [intros (r' & H%eat_word_length & [= -> ->])%fmap_Some; lia|].
  intros H%read_number_length. cbn [String.length] in H. lia.
Qed.

Lemma read_lengths n : consumes (read_value n) ∧ consumes (read_elements n) ∧ consumes (read_members n).
Proof.
  induction n as [|n (IHv & IHe & IHm)]; [done|]. split_and!; [by apply consumes_value| |]; intros s v r.
  - rewrite elements_step. unfold read_elements_with. intros ([v' r'] & Hv%IHv & H)%bind_Some.
    destruct (eat "," (skip_ws r')) eqn:E; [apply eat_ws_length in E|].
    + apply fmap_Some in H as ([p r''] & Hp%IHe & [= -> ->]). cbn in *. lia.
    + apply fmap_Some in H as (r'' & Hp%eat_ws_length & [= -> ->]). lia.
  - rewrite members_step. unfold read_members_with.
    intros (s1 & H1%eat_ws_length & ([k r1] & H2%read_string_length & (r2 & H3%eat_ws_length &
      ([v' r3] & H4%IHv & H)%bind_Some)%bind_Some)%bind_Some)%bind_Some.
    destruct (eat "," (skip_ws r3)) eqn:E; [apply eat_ws_length in E|].
    + apply fmap_Some in H as ([p r''] & Hp%IHm & [= -> ->]). cbn in *. lia.
    + apply fmap_Some in H as (r'' & Hp%eat_ws_length & [= -> ->]). lia.
Qed.

Lemma value_step_ext e e' m m' s :
  (∀ r, (len r < len s)%nat → e r = e' r) → (∀ r, (len r < len s)%nat → m r = m' r) →
  read_value_with read_double e m s = read_value_with read_double e' m' s.
Proof.
  intros He Hm. unfold read_value_with. pose proof (skip_ws_length s) as Hw. destruct (skip_ws s) as [|c r]; [done|].
  cbn [String.length] in Hw. by rewrite He, Hm by lia.
Qed.

(** From [json_fuel] on, more fuel reads the same. *)
Lemma read_stable n :
  (∀ s, (2 * len s + 1 ≤ n)%nat → read_value (S n) s = read_value n s) ∧
  (∀ s, (2 * len s + 2 ≤ n)%nat → read_elements (S n) s = read_elements n s) ∧
  (∀ s, (2 * len s + 1 ≤ n)%nat → read_members (S n) s = read_members n s).
Proof.
  induction n as [|n (IHv & IHe & IHm)]; [split_and!; intros; lia|].
  destruct (read_lengths n) as (Lv & _ & _).
  split_and!; intros s Hs.
  - rewrite (value_step _ (S n)), (value_step _ n). apply value_step_ext; intros r Hr; [apply IHe|apply IHm]; lia.
  - rewrite (elements_step _ (S n)), (elements_step _ n). unfold read_elements_with.
    rewrite IHv by lia. destruct (read_value n s) as [[v r]|] eqn:E; [|done].
    cbn [mbind option_bind]. apply Lv in E. destruct (eat "," (skip_ws r)) eqn:E'; [|done].
    apply eat_ws_length in E'. by rewrite IHe by lia.
  - rewrite (members_step _ (S n)), (members_step _ n). unfold read_members_with.
    destruct (eat quote (skip_ws s)) as [r|] eqn:E1; [|done]. apply eat_ws_length in E1. cbn [mbind option_bind].
    destruct (read_string r) as [[k r1]|] eqn:E2; [|done]. apply read_string_length in E2. cbn [mbind option_bind].
    destruct (eat ":" (skip_ws r1)) as [r2|] eqn:E3; [|done]. apply eat_ws_length in E3. cbn [mbind option_bind].
    rewrite IHv by lia. destruct (read_value n r2) as [[v r3]|] eqn:E4; [|done]. apply Lv in E4. cbn [mbind option_bind].
    destruct (eat "," (skip_ws r3)) eqn:E5; [|done]. apply eat_ws_length in E5. by rewrite IHm by lia.
Qed.

Lemma json_fuel_enough n s : (json_fuel s ≤ n)%nat → read_value n s = read_value (json_fuel s) s.
Proof.
  intros Hn. induction Hn as [|n Hn IH]; [done|]. rewrite (proj1 (read_stable n)); [done|].
  unfold json_fuel in Hn. lia.
Qed.
End fuel.
