(* ===== verification/JsNumber.v ===== *)
(** JavaScript numbers: the integers that [BigInt] and [parseInt] read in texts, and IEEE
    754 doubles, as the specification floats of the Standard Library, with the operations
    the coaching services use.  A number that a database column of type [DECIMAL(5,2)]
    stores is kept as its hundredths. *)

From Stdlib Require Import SpecFloat.
From S2P Require Import Prelude JsonText.

#[local] Open Scope Z_scope.

(** ** Numbers in texts *)

Fixpoint digits_in (base : Z) (value : ascii → option N) (acc : Z) (s : string) : option Z :=
  match s with
  | EmptyString => Some acc
  | String c s' => d ← value c; if Z.of_N d <? base then digits_in base value (base * acc + Z.of_N d) s' else None
  end.

Definition number_in (base : Z) (s : string) : option Z :=
  match s with EmptyString => None | _ => digits_in base hex_value 0 s end.

(** [BigInt(s)], [None] for a [SyntaxError]. *)
Definition BigInt (s : string) : option Z :=
  match trim s with
  | EmptyString => Some 0
  | String "0" (String "x" d) | String "0" (String "X" d) => number_in 16 d
  | String "0" (String "o" d) | String "0" (String "O" d) => number_in 8 d
  | String "0" (String "b" d) | String "0" (String "B" d) => number_in 2 d
  | String "-" d => Z.opp <$> number_in 10 d
  | String "+" d => number_in 10 d
  | d => number_in 10 d
  end.

(** [parseInt(s, 10)], [None] for [NaN]. *)
Definition parseInt10 (s : string) : option Z :=
  let '(sign, d) := match String.string_of_list_ascii (trim_left (String.list_ascii_of_string s)) with
                    | String "-" d => (-1, d)
                    | String "+" d => (1, d)
                    | d => (1, d)
                    end in
  Z.mul sign <$> number_in 10 (span_digits d).1.

(** ** Doubles *)

Definition Num : Set := spec_float.

#[export] Instance Num_eq_dec : EqDecision Num.
Proof. intros [s|s| |s m e] [s'|s'| |s' m' e']; unfold Decision; repeat decide equality. Defined.

(** The double nearest to an integer. *)
Definition num (z : Z) : Num := binary_normalize 53 1024 z 0 false.

Definition NaN : Num := S754_nan.
Definition Infinity : Num := S754_infinity false.

Definition nadd : Num → Num → Num := SFadd 53 1024.
Definition nsub : Num → Num → Num := SFsub 53 1024.
Definition nmul : Num → Num → Num := SFmul 53 1024.
Definition ndiv : Num → Num → Num := SFdiv 53 1024.
Definition Math_abs : Num → Num := SFabs.

(** [===], [<] and [<=] *)
Definition neqb : Num → Num → bool := SFeqb.
Definition nltb : Num → Num → bool := SFltb.
Definition nleb : Num → Num → bool := SFleb.

Definition is_finite (x : Num) : bool :=
  match x with S754_zero _ | S754_finite _ _ _ => true | S754_infinity _ | S754_nan => false end.

(** A number as a condition. *)
Definition truthy (x : Num) : bool := match x with S754_zero _ | S754_nan => false | _ => true end.

(** The integer nearest to [(m * k) * 2 ^ e]; halves go up. *)
Definition nearest (m e : Z) : Z :=
  if 0 <=? e then m * 2 ^ e else (2 * m + 2 ^ (- e)) / 2 ^ (1 - e).

(** [Math.round]: the integer below [x + 1/2], a zero with the sign of [x]. *)
Definition Math_round (x : Num) : Num :=
  match x with
  | S754_finite s m e =>
      if 0 <=? e then x
      else let n := nearest (cond_Zopp s (Zpos m)) e in if n =? 0 then S754_zero s else num n
  | _ => x
  end.

(** [BigInt(x)] throws unless [x] is an integer. *)
Definition BigInt_num (x : Num) : option Z :=
  match x with
  | S754_zero _ => Some 0
  | S754_finite s m e =>
      if 0 <=? e then Some (cond_Zopp s (Zpos m) * 2 ^ e)
      else if Zpos m mod 2 ^ (- e) =? 0 then Some (cond_Zopp s (Zpos m / 2 ^ (- e))) else None
  | _ => None
  end.

(** [JSON.stringify] writes [null] for a number that is not finite. *)
Definition json_number (x : Num) : option Num := if is_finite x then Some x else None.

(** [Number(s)]; of texts that are no integers below 2^53 it is a parameter. *)
Definition Number_of (other : string → Num) (s : string) : Num :=
  match BigInt s with
  | Some n => if Z.abs n <=? 9007199254740991 then num n else other s
  | None => other s
  end.

(** ** [DECIMAL(5,2)] *)

(** The hundredths a number is stored as; beyond five digits the write fails. *)
Definition decimal_5_2 (x : Num) : option Z :=
  match x with
  | S754_zero _ => Some 0
  | S754_finite s m e =>
      let n := nearest (100 * Zpos m) e in if n <=? 99999 then Some (cond_Zopp s n) else None
  | _ => None
  end.

(** [Number(d)] of a stored decimal. *)
Definition num_of_decimal (hundredths : Z) : Num := ndiv (num hundredths) (num 100).

(** [Math.round(x * 100) / 100] *)
Definition round_2dp (x : Num) : Num := ndiv (Math_round (nmul x (num 100))) (num 100).

(** ** Sums *)

(** [l.reduce((a, b) => a + b, 0)] *)
Definition nsum (l : list Num) : Num := fold_left nadd l (num 0).

(** [Math.round((sum / length) * 100) / 100] of a list that is not empty *)
Definition average_2dp (l : list Num) : Num := round_2dp (ndiv (nsum l) (num (Z.of_nat (length l)))).
