(* ===== verification/Tcpa.v ===== *)
(** The TCPA calling-window gate, [api/src/compliance/tcpa]: whether a number may be
    called now, and if not, when it may next be.

    Instants are milliseconds since the epoch.  The time zone database is a
    parameter: [zone tz] is the offset of zone [tz] at each instant, in milliseconds
    and positive east of Greenwich, or [None] for a name [Intl.DateTimeFormat]
    refuses with a [RangeError].  What the source reads through
    [Intl.DateTimeFormat] is the field of the instant shifted by that offset. *)

From S2P Require Import Prelude Calendar.

#[local] Open Scope Z_scope.

(** ** Types *)

Inductive Outcome : Set := ALLOW | SKIP_UNTIL | BLOCK_INVALID.
Inductive EnforcementPoint : Set := hopper_filler | originate_path | pacing | manual_dial.
Inductive UnknownTzPolicy : Set := deny | warn_pass.
Inductive Confidence : Set := KNOWN | ZIP | NXX | NPA | STATE_DEFAULT | CAMPAIGN_DEFAULT | NONE.

#[export] Instance Outcome_eq_dec : EqDecision Outcome.
Proof. solve_decision. Defined.
#[export] Instance UnknownTzPolicy_eq_dec : EqDecision UnknownTzPolicy.
Proof. solve_decision. Defined.
#[export] Instance EnforcementPoint_eq_dec : EqDecision EnforcementPoint.
Proof. solve_decision. Defined.

(** Seconds since local midnight; [dowMask] is a bit per day, Sunday first. *)
Record Window := mkWindow { openLocal : Z; closeLocal : Z; dowMask : option Z }.

Record CheckRequest := mkRequest {
  knownTimezone : option string;
  state : option string;
  campaignWindow : option Window;
  unknownTzPolicy : option UnknownTzPolicy;
  enforcementPoint : EnforcementPoint;
  isAutoDialer : bool;
}.

Record CheckResult := mkResult {
  outcome : Outcome;
  tzIana : option string;
  confidence : Confidence;
  nextOpen : option Z;
  reason : string;
  ruleApplied : string;
  effective : option Window;
}.

(** ** Rules *)

Definition hours (open close : Z) : Window := mkWindow (open * 3600) (close * 3600) None.
Definition BLACKOUT : Window := hours 25 0.

(** [holidayBlackout] pairs a kind with its value; the [comment] is left out. *)
Record StateRule := mkRule {
  code : string;
  perDow : list (option Window);
  holidayBlackout : list (string * string);
  autoDialerOnly : option Window;
  autoDialerBlackoutDows : option Z;
}.

Definition FED_FLOOR : Window := hours 8 21.

Definition rule_AL : StateRule :=
  mkRule "AL"
    [Some BLACKOUT; Some (hours 8 20); Some (hours 8 20);
     Some (hours 8 20); Some (hours 8 20);
     Some (hours 8 20); Some (hours 8 20)]
    [("fixed", "2026-01-01"); ("fixed", "2026-12-25")]%string None None.

Definition rule_CT : StateRule :=
  mkRule "CT" (repeat (Some (hours 9 20)) 7) [] None None.

Definition rule_FL : StateRule :=
  mkRule "FL" (repeat (Some (hours 8 20)) 7) [] None None.

Definition rule_KY : StateRule :=
  mkRule "KY" (repeat (Some (hours 10 21)) 7) [] None None.

Definition rule_LA : StateRule :=
  mkRule "LA"
    [Some BLACKOUT; Some (hours 8 20); Some (hours 8 20);
     Some (hours 8 20); Some (hours 8 20);
     Some (hours 8 20); Some (hours 8 20)]
    [("named", "MARDI_GRAS"); ("easter_offset", "-2")]%string None None.

Definition rule_MD : StateRule :=
  mkRule "MD" (repeat (Some (hours 8 20)) 7) [] None None.

Definition rule_MA : StateRule :=
  mkRule "MA" (repeat (Some (hours 8 20)) 7) [] None None.

Definition rule_ME : StateRule :=
  mkRule "ME" (repeat (Some (hours 8 21)) 7) [] (Some (hours 9 17)) (Some 65).

Definition rule_MI : StateRule :=
  mkRule "MI" (repeat (Some (hours 9 21)) 7) [] None None.

Definition rule_MN : StateRule :=
  mkRule "MN" (repeat (Some (hours 9 21)) 7) [] None None.

Definition rule_MS : StateRule :=
  mkRule "MS"
    [Some BLACKOUT; Some (hours 8 20); Some (hours 8 20);
     Some (hours 8 20); Some (hours 8 20);
     Some (hours 8 20); Some (hours 8 20)]
    [] None None.

Definition rule_OK : StateRule :=
  mkRule "OK" (repeat (Some (hours 8 20)) 7) [] None None.

Definition rule_PA : StateRule :=
  mkRule "PA"
    [Some (hours 12 21); Some (hours 8 21); Some (hours 8 21); Some (hours 8 21);
     Some (hours 8 21); Some (hours 8 21); Some (hours 8 21)]
    [] None None.

Definition rule_RI : StateRule :=
  mkRule "RI"
    [Some BLACKOUT; Some (hours 9 18); Some (hours 9 18); Some (hours 9 18);
     Some (hours 9 18); Some (hours 9 18); Some (hours 10 17)]
    [("fixed", "2026-12-25")]%string None None.

Definition rule_TX : StateRule :=
  mkRule "TX"
    [Some (hours 12 21); Some (hours 9 21); Some (hours 9 21); Some (hours 9 21);
     Some (hours 9 21); Some (hours 9 21); Some (hours 9 21)]
    [] None None.

Definition rule_UT : StateRule :=
  mkRule "UT"
    [Some BLACKOUT; Some (hours 8 21); Some (hours 8 21); Some (hours 8 21);
     Some (hours 8 21); Some (hours 8 21); Some (hours 8 21)]
    [("fixed", "2026-12-25")]%string None None.

Definition rule_WA : StateRule :=
  mkRule "WA" (repeat (Some (hours 8 20)) 7) [] None None.

Definition rule_WY : StateRule :=
  mkRule "WY" (repeat (Some (hours 8 20)) 7) [] None None.

Definition STATE_RULES : list (string * StateRule) :=
  [("AL", rule_AL); ("CT", rule_CT); ("FL", rule_FL); ("KY", rule_KY); ("LA", rule_LA);
   ("MD", rule_MD); ("MA", rule_MA); ("ME", rule_ME); ("MI", rule_MI);
   ("MN", rule_MN); ("MS", rule_MS); ("OK", rule_OK); ("PA", rule_PA); ("RI", rule_RI);
   ("TX", rule_TX); ("UT", rule_UT); ("WA", rule_WA); ("WY", rule_WY)]%string.

Definition STATE_HOLIDAYS : list (string * list string) :=
  [("AL", ["2026-01-01"; "2027-01-01"; "2028-01-01"; "2029-01-01"; "2030-01-01";
          "2026-12-25"; "2027-12-25"; "2028-12-25"; "2029-12-25"; "2030-12-25"]);
   ("LA", ["2026-02-17"; "2027-03-09"; "2028-02-29"; "2029-02-13"; "2030-03-05";
          "2026-04-03"; "2027-03-26"; "2028-04-14"; "2029-03-30"; "2030-04-19"]);
   ("RI", ["2026-12-25"; "2027-12-25"; "2028-12-25"; "2029-12-25"; "2030-12-25"]);
   ("UT", ["2026-12-25"; "2027-12-25"; "2028-12-25"; "2029-12-25"; "2030-12-25"])]%string.


Definition rule_of (st : option string) : option StateRule :=
  st ≫= λ s, (list_to_map STATE_RULES : gmap string StateRule) !! s.

Definition holidays_of (st : option string) : option (list string) :=
  st ≫= λ s, (list_to_map STATE_HOLIDAYS : gmap string (list string)) !! s.

(** ** Windows *)

Definition unset (w : Window) : bool := (openLocal w =? 0) && (closeLocal w =? 0).

Definition intersect (a b : Window) : Window :=
  if unset a then b
  else if unset b then a
  else mkWindow (Z.max (openLocal a) (openLocal b)) (Z.min (closeLocal a) (closeLocal b)) None.

Definition isBlackout (w : Window) : bool := (closeLocal w <=? openLocal w) && negb (unset w).

(** ** Local time *)

Section gate.
Variable zone : string → option (Z → Z).

(** The instant whose UTC fields are the local fields of [d] in [tz]. *)
Definition localTime (off : Z → Z) (d : Z) : Z := d + off d.

Definition secondsSinceMidnight (off : Z → Z) (d : Z) : Z :=
  let l := localTime off d in
  getUTCHours l mod 24 * 3600 + getUTCMinutes l * 60 + getUTCSeconds l.

Definition localDow (off : Z → Z) (d : Z) : Z := getUTCDay (localTime off d).

Definition localDateISO (off : Z → Z) (d : Z) : string :=
  let l := localTime off d in iso_date (getUTCFullYear l) (getUTCMonth l + 1) (getUTCDate l).

(** The difference of the times of day, in minutes. *)
Definition getZoneOffsetMs (off : Z → Z) (d : Z) : Z :=
  let utcH := getUTCHours d in
  let utcM := getUTCMinutes d in
  let localH := getUTCHours (localTime off d) mod 24 in
  let localM := getUTCMinutes (localTime off d) in
  let diffMin := (localH * 60 + localM) - (utcH * 60 + utcM) in
  diffMin * 60 * 1000.

(** [new Date(dateISO + 'T00:00:00Z')] is the midnight of the date printed. *)
Definition localMidnightUtcMs (off : Z → Z) (d : Z) : Z :=
  let midnightUTC := day_of (localTime off d) * MS_PER_DAY in
  midnightUTC - getZoneOffsetMs off d.

Definition dow_window (rule : option StateRule) (dow : Z) : option Window :=
  rule ≫= λ r, mjoin (perDow r !! Z.to_nat dow).

Definition is_holiday (hols : option (list string)) (dateISO : string) : bool :=
  match hols with Some l => bool_decide (dateISO ∈ l) | None => false end.

Definition skipped_day (off : Z → Z) (st : option string) (hols : option (list string)) (candidate : Z) : bool :=
  is_holiday hols (localDateISO off candidate) ||
  match rule_of st with
  | Some _ => isBlackout (default (mkWindow 0 0 None) (dow_window (rule_of st) (localDow off candidate)))
  | None => false
  end.

(** The loop over candidate days, [i] of them left. *)
Fixpoint next_day (off : Z → Z) (d openSec : Z) (st : option string) (hols : option (list string))
    (i : nat) (candidate : Z) : Z :=
  match i with
  | O => d + 7 * 86400000 + openLocal FED_FLOOR * 1000
  | S i' =>
      if skipped_day off st hols candidate then next_day off d openSec st hols i' (candidate + 86400000)
      else localMidnightUtcMs off candidate + openSec * 1000
  end.

Definition nextDayOpenMs (off : Z → Z) (d openSec : Z) (st : option string) (hols : option (list string)) : Z :=
  next_day off d openSec st hols 14 (d + 86400000).

(** ** Time zone of a request *)

Definition stateTz : list (string * string) :=
  [("HI", "Pacific/Honolulu"); ("AK", "America/Anchorage"); ("AZ", "America/Phoenix"); ("AS", "Pacific/Pago_Pago");
   ("GU", "Pacific/Guam"); ("MP", "Pacific/Guam"); ("PR", "America/Puerto_Rico"); ("VI", "America/Puerto_Rico")]%string.

Definition truthy (o : option string) : option string :=
  match o with Some EmptyString => None | _ => o end.

Definition resolveTimezone (req : CheckRequest) : option (string * Confidence) :=
  match truthy (knownTimezone req) with
  | Some tz => Some (tz, KNOWN)
  | None =>
      match truthy (state req) ≫= λ s, (list_to_map stateTz : gmap string string) !! s with
      | Some tz => Some (tz, STATE_DEFAULT)
      | None => None
      end
  end.

Definition dow_name (dow : Z) : string :=
  nth (Z.to_nat dow) ["Sun"; "Mon"; "Tue"; "Wed"; "Thu"; "Fri"; "Sat"]%string "?"%string.

Definition ruleNameOf (st : option string) (dow : Z) (eff : Window) : string :=
  default "FED"%string st +:+ "_" +:+ dow_name dow +:+ "_" +:+ zs (openLocal eff / 3600) +:+ "_" +:+
  zs (closeLocal eff / 3600).

(** ** The gate *)

Definition effective_dow (rule : option StateRule) (dow : Z) (eff : Window) : Window :=
  match dow_window rule dow with
  | Some w => if negb (isBlackout w) && negb (unset w) then intersect eff w else eff
  | None => eff
  end.

Definition autodialer_barred (req : CheckRequest) (rule : option StateRule) (dow : Z) : bool :=
  match rule with
  | Some r => isAutoDialer req && negb (Z.land (Z.shiftr (default 0 (autoDialerBlackoutDows r)) dow) 1 =? 0)
  | None => false
  end.

Definition effective_autodialer (req : CheckRequest) (rule : option StateRule) (eff : Window) : Window :=
  match rule with
  | Some r => if isAutoDialer req then match autoDialerOnly r with Some w => intersect eff w | None => eff end else eff
  | None => eff
  end.

Definition effective_campaign (req : CheckRequest) (eff : Window) : Window :=
  match campaignWindow req with
  | Some w => if negb (unset w) then intersect eff w else eff
  | None => eff
  end.

Definition check_in (req : CheckRequest) (now : Z) (tz : string) (conf : Confidence) (off : Z → Z) : CheckResult :=
  let partyElapsed := secondsSinceMidnight off now in
  let partyMins := partyElapsed / 60 * 60 in
  let dow := localDow off now in
  let dateISO := localDateISO off now in
  let st := state req in
  let stn := default EmptyString st in
  let rule := rule_of st in
  let hols := holidays_of st in
  let skip openSec why name eff :=
    mkResult SKIP_UNTIL (Some tz) conf (Some (nextDayOpenMs off now openSec st hols)) why name eff in
  if bool_decide (is_Some rule) && is_holiday hols dateISO
  then skip (openLocal FED_FLOOR) "state_holiday_blackout"%string (stn +:+ "_holiday") None
  else if match dow_window rule dow with Some w => isBlackout w | None => false end
  then skip (openLocal FED_FLOOR) (if dow =? 0 then "state_sunday_blackout"%string else "state_dow_blackout"%string)
         (stn +:+ "_" +:+ dow_name dow +:+ "_blackout") None
  else
    let eff := effective_dow rule dow FED_FLOOR in
    if autodialer_barred req rule dow
    then skip (openLocal (default FED_FLOOR (rule ≫= autoDialerOnly))) "state_autodialer_window"%string
           (stn +:+ "_" +:+ dow_name dow +:+ "_autodialer_blackout") None
    else
      let eff := effective_campaign req (effective_autodialer req rule eff) in
      let name := ruleNameOf st dow eff in
      if isBlackout eff
      then skip (openLocal FED_FLOOR) (if isAutoDialer req then "state_autodialer_window" else "after_window")%string
             name (Some eff)
      else if partyMins <? openLocal eff
      then mkResult SKIP_UNTIL (Some tz) conf (Some (localMidnightUtcMs off now + openLocal eff * 1000))
             "before_window" name (Some eff)
      else if closeLocal eff <=? partyMins
      then skip (openLocal eff) "after_window"%string name (Some eff)
      else if bool_decide (enforcementPoint req = originate_path) && (closeLocal eff - partyElapsed <? 30)
      then skip (openLocal eff) "boundary_30s_to_close"%string name (Some eff)
      else mkResult ALLOW (Some tz) conf None "ok" name (Some eff).

(** [Err] is the [RangeError] of an unknown zone. *)
Definition check (req : CheckRequest) (now : Z) : result string CheckResult :=
  match resolveTimezone req with
  | None =>
      match default deny (unknownTzPolicy req) with
      | warn_pass => Ok (mkResult ALLOW None NONE None "unknown_tz_warn_pass" "campaign_warn_pass" None)
      | deny => Ok (mkResult BLOCK_INVALID None NONE None "no_timezone" "policy_deny" None)
      end
  | Some (tz, conf) =>
      match zone tz with
      | None => Err "RangeError"%string
      | Some off => Ok (check_in req now tz conf off)
      end
  end.

(** The error of [assertCallWindowOrThrow] carries the result. *)
Definition assertCallWindowOrThrow (req : CheckRequest) (now : Z) : result (string + CheckResult) unit :=
  match check req now with
  | Err e => Err (inl e)
  | Ok res => if bool_decide (outcome res = ALLOW) then Ok () else Err (inr res)
  end.
End gate.

(** ** Decisions

    When the law and the campaign allow a call, from local time alone. *)

(** The windows in force on a day: the federal floor, and those of the state, of
    its autodialer rule and of the campaign that are set. *)
Definition windows_in_force (req : CheckRequest) (dow : Z) : list Window :=
  FED_FLOOR :: filter (λ w, unset w = false)
    (option_list (dow_window (rule_of (state req)) dow) ++
     (if isAutoDialer req then option_list (rule_of (state req) ≫= autoDialerOnly) else []) ++
     option_list (campaignWindow req)).

Definition within (w : Window) (s : Z) : Prop := openLocal w <= s < closeLocal w.

(** Easter Sunday of a Gregorian year, as a day number. *)
Definition easter (y : Z) : Z :=
  let a := y mod 19 in
  let b := y / 100 in
  let c := y mod 100 in
  let h := (19 * a + b - b / 4 - (b - (b + 8) / 25 + 1) / 3 + 15) mod 30 in
  let l := (32 + 2 * (b mod 4) + 2 * (c / 4) - h - c mod 4) mod 7 in
  let m := (a + 11 * h + 22 * l) / 451 in
  let n := h + l - 7 * m + 114 in
  day_number y (n / 31) (n mod 31 + 1).

Definition date_of_day (n : Z) : string := let '(y, m, d) := civil n in iso_date y m d.

(** The dates a holiday rule names in a year: a fixed date, a number of days from
    Easter, or Mardi Gras. *)
Definition expand_holiday (y : Z) (h : string * string) : option string :=
  if bool_decide (h.1 = "fixed"%string) then Some (zs y +:+ String.substring 4 6 h.2)
  else if bool_decide (h.1 = "easter_offset"%string) then
    (λ n, date_of_day (easter y + n)) <$> bigint_of h.2
  else if bool_decide (h = ("named", "MARDI_GRAS")%string) then Some (date_of_day (easter y - 47))
  else None.

Definition expand_holidays (r : StateRule) : list string :=
  y ← [2026; 2027; 2028; 2029; 2030]; omap (expand_holiday y) (holidayBlackout r).

(** The days a window is for; without a mask, or with the mask 0, all. *)
Definition day_in (w : Window) (dow : Z) : Prop :=
  match dowMask w with None | Some 0 => True | Some m => Z.testbit m dow = true end.

(** The call is lawful at an instant of local time: not on a holiday that the state's
    rule names, the date of Easter being computed; not on a day barred to autodialers;
    in every window in force, on one of its days and to the minute; and on the
    originate path 30 seconds or more before the first closes. *)
Definition lawful (off : Z → Z) (req : CheckRequest) (now : Z) : Prop :=
  let dow := localDow off now in
  let elapsed := secondsSinceMidnight off now in
  (∀ r, rule_of (state req) = Some r →
     localDateISO off now ∉ omap (expand_holiday (getUTCFullYear (localTime off now))) (holidayBlackout r)) ∧
  autodialer_barred req (rule_of (state req)) dow = false ∧
  Forall (λ w, day_in w dow ∧ within w (elapsed / 60 * 60)) (windows_in_force req dow) ∧
  (enforcementPoint req = originate_path → Forall (λ w, elapsed + 30 <= closeLocal w) (windows_in_force req dow)).

(** Where the gate knows the calendar: in the years of its table, but for Louisiana's
    Mardi Gras of 2027, which the table has on another day ([holiday_calendar]), and on
    the days of the campaign's window, whose mask it does not read
    ([campaign_days_ignored]). *)
Definition known_day (off : Z → Z) (req : CheckRequest) (now : Z) : Prop :=
  (2026 <= getUTCFullYear (localTime off now) <= 2030) ∧
  ¬ (state req = Some "LA" ∧ localDateISO off now ∈ ["2027-02-09"; "2027-03-09"])%string ∧
  match campaignWindow req with Some w => day_in w (localDow off now) | None => True end.

(** The gate's own criterion, on its holiday calendar. *)
Definition gate_lawful (off : Z → Z) (req : CheckRequest) (now : Z) : Prop :=
  let dow := localDow off now in
  let elapsed := secondsSinceMidnight off now in
  (is_Some (rule_of (state req)) → is_holiday (holidays_of (state req)) (localDateISO off now) = false) ∧
  autodialer_barred req (rule_of (state req)) dow = false ∧
  Forall (λ w, within w (elapsed / 60 * 60)) (windows_in_force req dow) ∧
  (enforcementPoint req = originate_path → Forall (λ w, elapsed + 30 <= closeLocal w) (windows_in_force req dow)).

(** Two windows and their intersection. *)
Lemma within_intersect a b s :
  unset a = false → unset b = false → within (intersect a b) s ↔ within a s ∧ within b s.
Proof. unfold intersect, within. intros -> ->. cbn. lia. Qed.

Lemma close_intersect a b s :
  unset a = false → unset b = false →
  s <= closeLocal (intersect a b) ↔ s <= closeLocal a ∧ s <= closeLocal b.
Proof. unfold intersect. intros -> ->. cbn. lia. Qed.

Lemma unset_late w : 28800 <= openLocal w → unset w = false.
Proof. unfold unset. intros H. destruct (openLocal w =? 0) eqn:E; [lia|done]. Qed.

(** A window that starts from [eff], narrowed by the windows [l]. *)
Record narrows (eff : Window) (l : list Window) (eff' : Window) : Prop := {
  na_open : 28800 <= openLocal eff';
  na_within s : within eff' s ↔ within eff s ∧ Forall (λ w, within w s) l;
  na_close s : s <= closeLocal eff' ↔ s <= closeLocal eff ∧ Forall (λ w, s <= closeLocal w) l;
}.

Lemma narrows_nil eff : 28800 <= openLocal eff → narrows eff [] eff.
Proof. intros H. split; [done| |]; intros s; rewrite Forall_nil; tauto. Qed.

Lemma narrows_one eff w :
  28800 <= openLocal eff → unset w = false → narrows eff [w] (intersect eff w).
Proof.
  intros H Hw. pose proof (unset_late eff H) as He. split.
  - unfold intersect. rewrite He, Hw. cbn. lia.
  - intros s. rewrite within_intersect by done. rewrite Forall_singleton. tauto.
  - intros s. rewrite close_intersect by done. rewrite Forall_singleton. tauto.
Qed.

Lemma narrows_app e1 l1 e2 l2 e3 : narrows e1 l1 e2 → narrows e2 l2 e3 → narrows e1 (l1 ++ l2) e3.
Proof.
  intros [O1 W1 C1] [O2 W2 C2]. split; [done| |]; intros s; rewrite Forall_app.
  - rewrite W2, W1. tauto.
  - rewrite C2, C1. tauto.
Qed.

Definition set_windows (o : option Window) : list Window := filter (λ w, unset w = false) (option_list o).

Lemma narrows_option eff o :
  28800 <= openLocal eff →
  narrows eff (set_windows o) (match o with Some w => intersect eff w | None => eff end).
Proof.
  intros H. unfold set_windows. destruct o as [w|]; [|by apply narrows_nil].
  change (option_list (Some w)) with [w].
  rewrite filter_cons, filter_nil. destruct (decide (unset w = false)) as [Hw|Hw]; [by apply narrows_one|].
  apply not_false_is_true in Hw. unfold intersect. rewrite (unset_late eff H), Hw. by apply narrows_nil.
Qed.

Lemma effective_dow_narrows rule dow eff :
  28800 <= openLocal eff → match dow_window rule dow with Some w => isBlackout w | None => false end = false →
  narrows eff (set_windows (dow_window rule dow)) (effective_dow rule dow eff).
Proof.
  intros H Hb. unfold effective_dow. pose proof (narrows_option eff (dow_window rule dow) H) as Hn.
  destruct (dow_window rule dow) as [w|]; [|done]. rewrite Hb. cbn [negb andb].
  destruct (unset w) eqn:Hw; [|done]. cbn [negb]. unfold intersect in Hn. by rewrite (unset_late eff H), Hw in Hn.
Qed.

Lemma effective_campaign_narrows req eff :
  28800 <= openLocal eff → narrows eff (set_windows (campaignWindow req)) (effective_campaign req eff).
Proof.
  intros H. unfold effective_campaign. pose proof (narrows_option eff (campaignWindow req) H) as Hn.
  destruct (campaignWindow req) as [w|]; [|done].
  destruct (unset w) eqn:Hw; [|done]. cbn [negb]. unfold intersect in Hn. by rewrite (unset_late eff H), Hw in Hn.
Qed.

Lemma effective_autodialer_narrows req rule eff :
  28800 <= openLocal eff →
  narrows eff (if isAutoDialer req then set_windows (rule ≫= autoDialerOnly) else []) (effective_autodialer req rule eff).
Proof.
  intros H. unfold effective_autodialer. destruct rule as [r|], (isAutoDialer req);
    try (by apply narrows_nil). by apply (narrows_option eff (autoDialerOnly r)).
Qed.

(** The effective window the gate reaches is the meet of the windows in force. *)
Lemma effective_meets req dow :
  match dow_window (rule_of (state req)) dow with Some w => isBlackout w | None => false end = false →
  let eff := effective_campaign req (effective_autodialer req (rule_of (state req))
               (effective_dow (rule_of (state req)) dow FED_FLOOR)) in
  28800 <= openLocal eff ∧
  (∀ s, within eff s ↔ Forall (λ w, within w s) (windows_in_force req dow)) ∧
  (∀ s, s <= closeLocal eff ↔ Forall (λ w, s <= closeLocal w) (windows_in_force req dow)).
Proof.
  intros Hb eff. assert (H0 : 28800 <= openLocal FED_FLOOR) by (cbn; lia).
  pose proof (effective_dow_narrows (rule_of (state req)) dow FED_FLOOR H0 Hb) as H1.
  pose proof (effective_autodialer_narrows req (rule_of (state req)) _ (na_open _ _ _ H1)) as H2.
  pose proof (effective_campaign_narrows req _ (na_open _ _ _ (narrows_app _ _ _ _ _ H1 H2))) as H3.
  pose proof (narrows_app _ _ _ _ _ (narrows_app _ _ _ _ _ H1 H2) H3) as [O W C]. fold eff in O, W, C.
  assert (E : windows_in_force req dow = FED_FLOOR ::
    (set_windows (dow_window (rule_of (state req)) dow) ++
     (if isAutoDialer req then set_windows (rule_of (state req) ≫= autoDialerOnly) else [])) ++
    set_windows (campaignWindow req)).
  { unfold windows_in_force, set_windows. rewrite !filter_app, <- (assoc_L (++)). by destruct (isAutoDialer req). }
  rewrite E. setoid_rewrite Forall_cons. split_and!; [done|exact W|exact C].
Qed.

(** No time of day is within a blackout. *)
Lemma blackout_excludes w s : isBlackout w = true → ¬ within w s.
Proof. unfold isBlackout, within. intros [H _]%andb_true_iff. lia. Qed.

Lemma dow_window_in_force req dow w :
  dow_window (rule_of (state req)) dow = Some w → unset w = false → w ∈ windows_in_force req dow.
Proof.
  intros Hw Hu. unfold windows_in_force. right. apply list_elem_of_filter. split; [done|].
  rewrite Hw. by left.
Qed.

Lemma check_in_allows req now tz conf off :
  outcome (check_in req now tz conf off) = ALLOW ↔ gate_lawful off req now.
Proof.
  unfold check_in, gate_lawful. set (dow := localDow off now). set (el := secondsSinceMidnight off now).
  set (rule := rule_of (state req)).
  pose proof (effective_meets req dow) as Hmeets. fold rule in Hmeets.
  destruct (bool_decide (is_Some rule) && is_holiday _ _) eqn:Ehol.
  { split; [done|]. intros (Hh & _). apply andb_true_iff in Ehol as [Hr%bool_decide_eq_true Hd].
    rewrite Hh in Hd by done. done. }
  assert (Hh : is_Some rule → is_holiday (holidays_of (state req)) (localDateISO off now) = false).
  { intros Hr. by rewrite bool_decide_true in Ehol by done. }
  destruct (match dow_window rule dow with Some w => isBlackout w | None => false end) eqn:Eblk.
  { split; [done|]. intros (_ & _ & Hw & _). exfalso. destruct (dow_window rule dow) as [w|] eqn:E; [|done].
    rewrite Forall_forall in Hw. eapply (blackout_excludes w); [done|]. apply Hw.
    eapply dow_window_in_force; [done|]. unfold isBlackout in Eblk.
    apply andb_true_iff in Eblk as [_ Hu]. by apply negb_true_iff in Hu. }
  destruct (Hmeets eq_refl) as (Ho & Hin & Hcl). clear Hmeets.
  set (eff := effective_campaign req _) in *. clearbody eff.
  destruct (autodialer_barred req rule dow) eqn:Ebar.
  { split; [done|]. by intros (_ & ? & _). }
  rewrite <- Hin. setoid_rewrite <- Hcl.
  destruct (isBlackout eff) eqn:Eb.
  { split; [done|]. intros (_ & _ & Hw & _). by apply (blackout_excludes eff) in Hw. }
  unfold within. destruct (_ <? openLocal eff) eqn:E1; [split; [done|]; lia|].
  destruct (closeLocal eff <=? _) eqn:E2; [split; [done|]; lia|].
  destruct (bool_decide (enforcementPoint req = originate_path)) eqn:E3; cbn [andb].
  - apply bool_decide_eq_true in E3. destruct (_ <? 30) eqn:E4.
    + split; [done|]. intros (_ & _ & _ & Hb). specialize (Hb E3). lia.
    + split; [|done]. intros _. split_and!; try done; lia.
  - apply bool_decide_eq_false in E3. split; [|done]. intros _. split_and!; try done; lia.
Qed.

(** What the calendar lists: those dates, but for Mardi Gras of 2027, which it puts four
    weeks late. *)
Definition listed_holidays (st : string) (r : StateRule) : list string :=
  (λ d, if bool_decide (st = "LA" ∧ d = "2027-02-09")%string then "2027-03-09"%string else d) <$> expand_holidays r.

Definition calendar_matches (st : string) (r : StateRule) : bool :=
  let l := default [] (holidays_of (Some st)) in
  bool_decide (l ⊆ listed_holidays st r) && bool_decide (listed_holidays st r ⊆ l).

Lemma calendars_match : forallb (λ p, calendar_matches p.1 p.2) STATE_RULES = true.
Proof. vm_compute. reflexivity. Qed.

Lemma holiday_listed st r date :
  rule_of (Some st) = Some r →
  is_holiday (holidays_of (Some st)) date = true ↔ date ∈ listed_holidays st r.
Proof.
  intros Hr. change ((list_to_map STATE_RULES : gmap string StateRule) !! st = Some r) in Hr.
  apply elem_of_list_to_map_2 in Hr.
  pose proof calendars_match as Hm. rewrite forallb_forall in Hm.
  specialize (Hm (st, r) ltac:(by apply list_elem_of_In)). cbn [fst snd] in Hm. unfold calendar_matches in Hm.
  apply andb_true_iff in Hm as [H1%bool_decide_eq_true H2%bool_decide_eq_true].
  unfold is_holiday. destruct (holidays_of (Some st)) as [l|]; cbn [default] in H1, H2.
  - rewrite bool_decide_eq_true. split; [apply H1|apply H2].
  - split; [done|]. intros Hd. by apply H2, elem_of_nil in Hd.
Qed.

(** The dates of a year start with it. *)
Lemma expanded_year r st y d :
  rule_of (Some st) = Some r → y ∈ [2026; 2027; 2028; 2029; 2030] →
  d ∈ omap (expand_holiday y) (holidayBlackout r) → String.substring 0 4 d = zs y.
Proof.
  intros Hr Hy Hd. change ((list_to_map STATE_RULES : gmap string StateRule) !! st = Some r) in Hr.
  apply elem_of_list_to_map_2 in Hr.
  assert (Hall : forallb (λ p, forallb (λ y, forallb (λ d, bool_decide (String.substring 0 4 d = zs y))
    (omap (expand_holiday y) (holidayBlackout p.2))) [2026; 2027; 2028; 2029; 2030]) STATE_RULES = true)
    by (vm_compute; reflexivity).
  rewrite forallb_forall in Hall. specialize (Hall (st, r) ltac:(by apply list_elem_of_In)). cbn [snd] in Hall.
  rewrite forallb_forall in Hall. specialize (Hall y ltac:(by apply list_elem_of_In)).
  rewrite forallb_forall in Hall. specialize (Hall d ltac:(by apply list_elem_of_In)).
  by apply bool_decide_eq_true in Hall.
Qed.

Lemma iso_date_year y m d : 2026 <= y <= 2030 → String.substring 0 4 (iso_date y m d) = zs y.
Proof.
  intros Hy. unfold iso_date.
  assert (y = 2026 ∨ y = 2027 ∨ y = 2028 ∨ y = 2029 ∨ y = 2030) as [->|[->|[->|[->| ->]]]] by lia; reflexivity.
Qed.

(** On the days it knows, the gate's calendar is the rule's. *)
Lemma known_holiday off req now r :
  known_day off req now → rule_of (state req) = Some r →
  is_holiday (holidays_of (state req)) (localDateISO off now) = true ↔
  localDateISO off now ∈ omap (expand_holiday (getUTCFullYear (localTime off now))) (holidayBlackout r).
Proof.
  intros (Hy & Hla & _) Hr. destruct (state req) as [st|] eqn:Est; [|done].
  rewrite (holiday_listed st r _ Hr). unfold listed_holidays, expand_holidays. rewrite list_elem_of_fmap.
  pose proof (iso_date_year _ (getUTCMonth (localTime off now) + 1) (getUTCDate (localTime off now)) Hy) as Hd.
  change (iso_date _ _ _) with (localDateISO off now) in Hd.
  set (date := localDateISO off now) in *. set (y := getUTCFullYear (localTime off now)) in *.
  assert (Hyin : y ∈ [2026; 2027; 2028; 2029; 2030]).
  { clearbody y. assert (y = 2026 ∨ y = 2027 ∨ y = 2028 ∨ y = 2029 ∨ y = 2030) as Hor by lia.
    rewrite !elem_of_cons, elem_of_nil. tauto. }
  clearbody date y. split.
  - intros (d & Heq & (y' & Hd' & Hy')%list_elem_of_bind). destruct (bool_decide _) eqn:E.
    + apply bool_decide_eq_true in E as [-> ->]. exfalso. apply Hla. subst. split; [done|]. by right; left.
    + subst d. rewrite (expanded_year r st y' date Hr Hy' Hd') in Hd. by apply (inj zs) in Hd as ->.
  - intros Hin. exists date. split.
    + rewrite bool_decide_false; [done|]. intros [-> ->]. apply Hla. split; [done|]. by left.
    + apply list_elem_of_bind. by exists y.
Qed.

Lemma option_list_elem {A} (a : A) o : a ∈ option_list o → o = Some a.
Proof. destruct o as [b|]; cbn; [by intros ->%list_elem_of_singleton|by intros ?%elem_of_nil]. Qed.

Lemma windows_days req dow :
  match campaignWindow req with Some w => day_in w dow | None => True end →
  Forall (λ w, day_in w dow) (windows_in_force req dow).
Proof.
  intros Hc.
  assert (Hrules : forallb (λ p, forallb (λ o, match o with
    | Some w => bool_decide (dowMask w = None) | None => true end) (autoDialerOnly p.2 :: perDow p.2))
    STATE_RULES = true) by (vm_compute; reflexivity).
  rewrite forallb_forall in Hrules.
  assert (Hst : ∀ r o w, rule_of (state req) = Some r → o ∈ autoDialerOnly r :: perDow r → o = Some w →
    day_in w dow).
  { intros r o w Hr Ho ->. destruct (state req) as [st|]; [|done].
    change ((list_to_map STATE_RULES : gmap string StateRule) !! st = Some r) in Hr.
    apply elem_of_list_to_map_2 in Hr. specialize (Hrules (st, r) ltac:(by apply list_elem_of_In)).
    rewrite forallb_forall in Hrules. specialize (Hrules _ ltac:(by apply list_elem_of_In, Ho)).
    apply bool_decide_eq_true in Hrules. unfold day_in. by rewrite Hrules. }
  unfold windows_in_force. apply Forall_cons. split; [exact I|]. apply Forall_forall.
  intros w (_ & Hw)%list_elem_of_filter. rewrite !elem_of_app in Hw. destruct Hw as [Hw|[Hw|Hw]].
  - apply option_list_elem in Hw. unfold dow_window in Hw.
    destruct (rule_of (state req)) as [r|] eqn:Er; [|done]. cbn in Hw.
    destruct (perDow r !! Z.to_nat dow) as [o|] eqn:El; [|done]. cbn in Hw.
    eapply (Hst r); [done|right; by eapply list_elem_of_lookup_2|exact Hw].
  - destruct (isAutoDialer req); [|by apply elem_of_nil in Hw]. apply option_list_elem in Hw.
    destruct (rule_of (state req)) as [r|] eqn:Er; [|done].
    eapply (Hst r); [done|by left|exact Hw].
  - apply option_list_elem in Hw. by rewrite Hw in Hc.
Qed.

Lemma known_lawful off req now :
  known_day off req now → gate_lawful off req now ↔ lawful off req now.
Proof.
  intros Hk. pose proof (known_holiday off req now) as Hh. destruct Hk as (Hy & Hla & Hm).
  pose proof (windows_days req (localDow off now) Hm) as Hd.
  unfold gate_lawful, lawful. cbv zeta. rewrite Forall_and.
  assert (Hhol : (is_Some (rule_of (state req)) →
      is_holiday (holidays_of (state req)) (localDateISO off now) = false) ↔
    (∀ r, rule_of (state req) = Some r →
      localDateISO off now ∉ omap (expand_holiday (getUTCFullYear (localTime off now))) (holidayBlackout r))).
  { split.
    - intros Hn r Hr Hin%(Hh r (conj Hy (conj Hla Hm)) Hr). rewrite Hn in Hin by eauto. done.
    - intros Hn [r Hr]. apply not_true_is_false. intros Hin%(Hh r (conj Hy (conj Hla Hm)) Hr). by apply (Hn r). }
  rewrite Hhol. tauto.
Qed.

(** C11: The gate's decision.  A request whose time zone is known is allowed exactly
    when the call is lawful at the local instant, and skipped (SKIP_UNTIL) exactly when
    it is not; it is never answered BLOCK_INVALID.  Lawful means: the federal floor, the
    state's rules, its holidays (Easter computed), the autodialer's and the campaign's
    windows on their days, and the 30 seconds before closing on the originate path.
    This holds on the days the gate knows: in 2026 to 2030, not on Louisiana's two
    dates of Mardi Gras in 2027 ([holiday_calendar]), and on the days of the campaign
    window's mask ([campaign_days_ignored]).  A zone the platform does not know is a
    RangeError; without a zone the campaign's policy decides.  The instant given with a
    skip is not part of this ([next_day_open], [evening_skip_in_past]). *)
Theorem check_decision zone req now :
  match resolveTimezone req with
  | None =>
      ∃ r, check zone req now = Ok r ∧
        outcome r = (if decide (unknownTzPolicy req = Some warn_pass) then ALLOW else BLOCK_INVALID)
  | Some (tz, _) =>
      match zone tz with
      | None => check zone req now = Err "RangeError"%string
      | Some off =>
          ∃ r, check zone req now = Ok r ∧ outcome r ≠ BLOCK_INVALID ∧
            (known_day off req now →
             (outcome r = ALLOW ↔ lawful off req now) ∧ (outcome r = SKIP_UNTIL ↔ ¬ lawful off req now))
      end
  end.
Proof.
  unfold check. destruct (resolveTimezone req) as [[tz conf]|].
  - destruct (zone tz) as [off|]; [|done]. eexists. split; [done|].
    pose proof (check_in_allows req now tz conf off) as Ha.
    assert (Hnb : outcome (check_in req now tz conf off) ≠ BLOCK_INVALID)
      by (unfold check_in; repeat case_match; done).
    split; [done|]. intros Hk. rewrite <- (known_lawful off req now Hk), <- Ha. split; [done|].
    destruct (outcome _); split; try done.
  - destruct (unknownTzPolicy req) as [[]|]; (eexists; split; [done|reflexivity]).
Qed.

(** ** The next opening *)

(** A zone at a constant offset of whole minutes. *)
Definition constant_zone (k : Z) : Z → Z := λ _, k * 60000.

(** How many days the local date is ahead of the UTC date. *)
Definition days_ahead (k d : Z) : Z := day_of (d + k * 60000) - day_of d.

Lemma getZoneOffsetMs_constant k d :
  getZoneOffsetMs (constant_zone k) d = k * 60000 - days_ahead k d * MS_PER_DAY.
Proof.
  unfold getZoneOffsetMs, days_ahead, localTime, constant_zone, getUTCHours, getUTCMinutes, time_of, day_of,
    MS_PER_DAY. lia.
Qed.

Lemma localMidnightUtcMs_constant k d :
  localMidnightUtcMs (constant_zone k) d =
    day_of (d + k * 60000) * MS_PER_DAY - k * 60000 + days_ahead k d * MS_PER_DAY.
Proof.
  unfold localMidnightUtcMs. rewrite getZoneOffsetMs_constant. unfold localTime, constant_zone. lia.
Qed.

Lemma day_of_later t j : day_of (t + j * MS_PER_DAY) = day_of t + j.
Proof. unfold day_of, MS_PER_DAY. lia. Qed.

Lemma days_ahead_later k d j : days_ahead k (d + j * MS_PER_DAY) = days_ahead k d.
Proof.
  unfold days_ahead. replace (d + j * MS_PER_DAY + k * 60000) with (d + k * 60000 + j * MS_PER_DAY) by lia.
  rewrite !day_of_later. lia.
Qed.

Lemma next_day_constant k d openSec st hols i j :
  next_day (constant_zone k) d openSec st hols i (d + j * MS_PER_DAY) =
    match list_find (λ m, skipped_day (constant_zone k) st hols (d + m * MS_PER_DAY) = false) (seqZ j (Z.of_nat i)) with
    | Some (_, m) =>
        (day_of (d + k * 60000) + m) * MS_PER_DAY - k * 60000 + days_ahead k d * MS_PER_DAY + openSec * 1000
    | None => d + 7 * MS_PER_DAY + 28800000
    end.
Proof.
  revert j. induction i as [|i IH]; intros j.
  - reflexivity.
  - rewrite seqZ_cons by lia. replace (Z.pred (Z.of_nat (S i))) with (Z.of_nat i) by lia.
    cbn [next_day list_find].
    destruct (decide (skipped_day (constant_zone k) st hols (d + j * MS_PER_DAY) = false)) as [E|E].
    + rewrite E. rewrite localMidnightUtcMs_constant, days_ahead_later.
      replace (d + j * MS_PER_DAY + k * 60000) with (d + k * 60000 + j * MS_PER_DAY) by lia.
      by rewrite day_of_later.
    + apply not_false_is_true in E. rewrite E.
      replace (d + j * MS_PER_DAY + 86400000) with (d + Z.succ j * MS_PER_DAY) by (unfold MS_PER_DAY; lia).
      rewrite IH. by destruct (list_find _ _) as [[]|].
Qed.

(** in a zone at a constant offset of whole minutes, the next opening is at the given
    second of the first of the next 14 days that is neither a holiday nor barred all
    day, counted from a midnight that is off by the days the local date is ahead of the
    UTC date; when all 14 are skipped it is a week and eight hours ahead. *)
Theorem next_day_open k now openSec st hols :
  nextDayOpenMs (constant_zone k) now openSec st hols =
    match list_find (λ m, skipped_day (constant_zone k) st hols (now + m * MS_PER_DAY) = false) (seqZ 1 14) with
    | Some (_, m) =>
        (day_of (now + k * 60000) + m) * MS_PER_DAY - k * 60000 + openSec * 1000 + days_ahead k now * MS_PER_DAY
    | None => now + 7 * MS_PER_DAY + 28800000
    end.
Proof.
  unfold nextDayOpenMs. replace (now + 86400000) with (now + 1 * MS_PER_DAY) by (unfold MS_PER_DAY; lia).
  rewrite next_day_constant. change (Z.of_nat 14) with 14.
  destruct (list_find _ _) as [[i m]|]; [|done]. lia.
Qed.

(** west of Greenwich in the evening, when the UTC date is already the next day, a call
    after closing is told to retry at an instant that has passed: the opening of the
    day that is ending, because the offset is taken from times of day alone. *)
Theorem evening_skip_in_past zone req tz k now :
  knownTimezone req = Some tz → tz ≠ EmptyString → zone tz = Some (constant_zone k) →
  state req = None → campaignWindow req = None →
  days_ahead k now = -1 → 75600 <= secondsSinceMidnight (constant_zone k) now →
  ∃ r n, check zone req now = Ok r ∧ outcome r = SKIP_UNTIL ∧ reason r = "after_window"%string ∧
    nextOpen r = Some n ∧ n < now ∧ n = day_of (now + k * 60000) * MS_PER_DAY - k * 60000 + 28800000.
Proof.
  intros Htz Hne Hz Hst Hcw Ha Hsec.
  assert (Hres : resolveTimezone req = Some (tz, KNOWN)).
  { unfold resolveTimezone, truthy. rewrite Htz. by destruct tz. }
  assert (Hn : nextDayOpenMs (constant_zone k) now 28800 None None =
    day_of (now + k * 60000) * MS_PER_DAY - k * 60000 + 28800000).
  { unfold nextDayOpenMs. cbn [next_day skipped_day is_holiday rule_of orb option_bind mbind].
    replace (now + 86400000) with (now + 1 * MS_PER_DAY) by (unfold MS_PER_DAY; lia).
    rewrite localMidnightUtcMs_constant, days_ahead_later, Ha.
    replace (now + 1 * MS_PER_DAY + k * 60000) with (now + k * 60000 + 1 * MS_PER_DAY) by lia.
    rewrite day_of_later. lia. }
  unfold check. rewrite Hres, Hz. unfold check_in, effective_campaign, effective_autodialer, effective_dow,
    autodialer_barred. rewrite Hst, Hcw. cbn [rule_of dow_window option_bind mbind is_holiday holidays_of].
  rewrite andb_false_r. cbn [openLocal closeLocal FED_FLOOR hours isBlackout].
  change (isBlackout FED_FLOOR) with false. cbv iota.
  destruct (_ <? 8 * 3600) eqn:E1; [lia|]. destruct (21 * 3600 <=? _) eqn:E2; [|lia].
  eexists _, _. split; [reflexivity|]. cbn [outcome reason nextOpen]. split; [done|]. split; [done|].
  split; [reflexivity|]. change (8 * 3600) with 28800. rewrite Hn. split; [|done].
  unfold secondsSinceMidnight, localTime, constant_zone, getUTCHours, getUTCMinutes, getUTCSeconds, time_of, day_of,
    MS_PER_DAY in *. lia.
Qed.

(** The request with another day mask on its campaign window. *)
Definition with_mask (m : option Z) (req : CheckRequest) : CheckRequest :=
  mkRequest (knownTimezone req) (state req)
    ((λ w, mkWindow (openLocal w) (closeLocal w) m) <$> campaignWindow req)
    (unknownTzPolicy req) (enforcementPoint req) (isAutoDialer req).

(** The day mask of a campaign window has no effect: the gate answers the same
    whatever days the window names. *)
Theorem campaign_days_ignored zone req now m : check zone (with_mask m req) now = check zone req now.
Proof.
  unfold check. change (resolveTimezone (with_mask m req)) with (resolveTimezone req).
  destruct (resolveTimezone req) as [[tz conf]|]; [|done]. destruct (zone tz) as [off|]; [|done].
  assert (E : ∀ eff, 28800 <= openLocal eff → effective_campaign (with_mask m req) eff = effective_campaign req eff).
  { intros eff He. unfold effective_campaign, with_mask. destruct req as [kt s [w|] up ep ad]; [|done]. cbn.
    unfold unset, intersect. cbn. by rewrite (unset_late eff He). }
  f_equal. unfold check_in. change (state (with_mask m req)) with (state req).
  change (isAutoDialer (with_mask m req)) with (isAutoDialer req).
  change (enforcementPoint (with_mask m req)) with (enforcementPoint req).
  change (autodialer_barred (with_mask m req)) with (autodialer_barred req).
  change (effective_autodialer (with_mask m req)) with (effective_autodialer req).
  destruct (bool_decide _ && _); [done|].
  destruct (match dow_window _ _ with Some w => isBlackout w | None => false end) eqn:Eb; [done|].
  destruct (autodialer_barred _ _ _); [done|]. rewrite E; [done|].
  pose proof (effective_dow_narrows _ _ FED_FLOOR ltac:(cbn; lia) Eb) as H1.
  apply (effective_autodialer_narrows req (rule_of (state req)) _ (na_open _ _ _ H1)).
Qed.

(** ** The holiday calendar *)

(** the holiday calendar of a state is the expansion of its holiday rules over the
    years 2026 to 2030, Easter being computed, with one exception: Louisiana's Mardi
    Gras of 2027, 9 February, is not a holiday to the gate, and 9 March is. *)
Theorem holiday_calendar st r date :
  rule_of (Some st) = Some r →
  (is_holiday (holidays_of (Some st)) date = true ↔
   (date ∈ expand_holidays r ∧ ¬ (st = "LA" ∧ date = "2027-02-09")%string) ∨
   (st = "LA" ∧ date = "2027-03-09")%string) ∧
  "2027-02-09"%string ∈ expand_holidays rule_LA.
Proof.
  intros Hr. split; [|by apply (bool_decide_unpack _); vm_compute].
  rewrite (holiday_listed st r date Hr). unfold listed_holidays. rewrite list_elem_of_fmap. split.
  - intros (d & -> & Hd). destruct (bool_decide _) eqn:E.
    + apply bool_decide_eq_true in E as [-> _]. by right.
    + apply bool_decide_eq_false in E. by left.
  - intros [[Hd Hn]|[-> ->]].
    + exists date. by rewrite bool_decide_false.
    + exists "2027-02-09"%string. split; [done|]. 
      assert (Hla : rule_of (Some "LA"%string) = Some rule_LA) by (vm_compute; reflexivity).
      assert (r = rule_LA) as -> by congruence.
      by apply (bool_decide_unpack _); vm_compute.
Qed.

Lemma holiday_calendar_witness :
  is_holiday (holidays_of (Some "LA"%string)) "2028-02-29" = true ∧ "2028-02-29"%string ∈ expand_holidays rule_LA.
Proof.
  assert (H : "2028-02-29"%string ∈ expand_holidays rule_LA).
  { apply (bool_decide_unpack _). vm_compute. exact I. }
  split; [|exact H]. apply (holiday_calendar "LA" rule_LA); [vm_compute; reflexivity|].
  left. split; [exact H|]. intros [_ E]. discriminate E.
Defined.

(** 9.30 pm in New York on 12 January 2026. *)
Definition late_call : CheckRequest := mkRequest (Some "America/New_York"%string) None None None originate_path false.
Definition new_york_winter : string → option (Z → Z) := λ _, Some (constant_zone (-300)).
Definition late_night : Z := date_utc 2026 1 13 2 30 0 0.

Lemma evening_skip_in_past_witness :
  ∃ r n, check new_york_winter late_call late_night = Ok r ∧ nextOpen r = Some n ∧ n < late_night ∧
    toISOString n = "2026-01-12T13:00:00.000Z"%string.
Proof.
  destruct (evening_skip_in_past new_york_winter late_call "America/New_York" (-300) late_night)
    as (r & n & H1 & _ & _ & H2 & H3 & H4); try reflexivity.
  - discriminate.
  - vm_compute. discriminate.
  - exists r, n. split; [exact H1|]. split; [exact H2|]. split; [exact H3|]. rewrite H4. vm_compute. reflexivity.
Defined.

(** Noon there. *)
Definition midday : Z := date_utc 2026 1 13 17 0 0 0.

Lemma check_decision_witness :
  ∃ r, check new_york_winter late_call midday = Ok r ∧ outcome r = ALLOW ∧
    lawful (constant_zone (-300)) late_call midday.
Proof.
  destruct (check_decision new_york_winter late_call midday) as (r & Hr & _ & Hd).
  exists r. split; [exact Hr|].
  assert (Ho : outcome r = ALLOW).
  { assert (Hc : check new_york_winter late_call midday = Ok (check_in late_call midday "America/New_York" KNOWN
      (constant_zone (-300)))) by reflexivity.
    rewrite Hc in Hr. injection Hr as <-. vm_compute. reflexivity. }
  split; [exact Ho|]. apply Hd; [|exact Ho].
  split; [vm_compute; split; discriminate|]. split; [intros [E _]; discriminate E|exact I].
Defined.

(** A Tuesday morning call in Louisiana is allowed, and on Mardi Gras it is not. *)
Example gate_examples :
  let req := mkRequest (Some "America/Chicago"%string) (Some "LA"%string) None None manual_dial false in
  (λ now, outcome <$> check (λ _, Some (constant_zone (-360))) req now) <$>
    [date_utc 2026 2 10 16 0 0 0; date_utc 2026 2 17 16 0 0 0] = [Ok ALLOW; Ok SKIP_UNTIL].
Proof. vm_compute. reflexivity. Qed.
