(* ===== verification/Partition.v ===== *)
(** The rotation of monthly partitions, [api/src/services/partition]: the next
    month's partition is added to each registered table, then the partitions past
    the retention period are dropped, behind an attestation gate and a disk check.

    The server's tables are a finite map to the rows INFORMATION_SCHEMA shows of
    their partitions.  Parameters: whether the server refuses a statement
    ([refused]), the count the gate's query returns ([attestations]), the disk check
    ([disk], for which [checkDiskFree] stands; its share of a size is floating-point
    arithmetic), whether INFORMATION_SCHEMA cannot be read ([unreadable]), and whether an
    audit row is lost ([audit_lost]; the writer swallows the error). *)

From Stdlib Require Import OrdersEx Sorted.
From S2P Require Import Prelude Calendar.

#[local] Open Scope Z_scope.

(** ** Registry *)

Record TableConfig := mkConfig {
  table : string;
  partitionColumn : string;
  retentionMonths : Z;
  requireAttestation : bool;
}.

Definition NINETY_DAYS_AS_MONTHS : Z := 3.

Definition TABLE_REGISTRY : list TableConfig :=
  [ mkConfig "call_log" "call_started" 48 false;
    mkConfig "recording_log" "start_time" 84 false;
    mkConfig "audit_log" "ts" 84 true;
    mkConfig "agent_log" "event_at" 13 false;
    mkConfig "drop_log" "dropped_at" 84 false;
    mkConfig "call_window_audit" "created_at" 48 true;
    mkConfig "dnc_sync_log" "started_at" 84 true;
    mkConfig "originate_audit" "originated_at" 84 true;
    mkConfig "drop_gate_transition_log" "created_at" 84 false;
    mkConfig "import_errors" "created_at" NINETY_DAYS_AS_MONTHS false;
    mkConfig "queue_calls" "enqueued_at" NINETY_DAYS_AS_MONTHS false;
    mkConfig "queue_log" "created_at" NINETY_DAYS_AS_MONTHS false;
    mkConfig "consent_log" "created_at" 84 true ].

(** ** Dates and names *)

(** Date.UTC and [setUTCMonth]: a month outside the year carries into the year. *)
Definition firstOfMonth (year month : Z) : Z := day_number year month 1 * MS_PER_DAY.

Definition addMonths (d months : Z) : Z :=
  day_number (getUTCFullYear d) (getUTCMonth d + 1 + months) (getUTCDate d) * MS_PER_DAY + time_of d.

Definition partitionNameFromBoundary (boundary : Z) : string :=
  "p_" +:+ zs (getUTCFullYear boundary) +:+ "_" +:+ padn 2 (getUTCMonth boundary + 1).

Definition toDateString (d : Z) : string := String.substring 0 10 (toISOString d).

Definition digit (c : ascii) : option Z :=
  let n := Z.of_nat (nat_of_ascii c) in if (48 <=? n) && (n <=? 57) then Some (n - 48) else None.

(** The number written by a list of digits. *)
Fixpoint digits (acc : Z) (l : list ascii) : option Z :=
  match l with
  | [] => Some acc
  | c :: l' => d ← digit c; digits (10 * acc + d) l'
  end.

(** [new Date(clean + 'T00:00:00Z')]: a date [YYYY-MM-DD]; after anything else a
    description holds (a count of days, a date with a time) the time makes the string
    unparseable. *)
Definition parse_date (s : string) : option Z :=
  match String.list_ascii_of_string s with
  | [y1; y2; y3; y4; s1; m1; m2; s2; d1; d2] =>
      if bool_decide (s1 = "-"%char ∧ s2 = "-"%char) then
        y ← digits 0 [y1; y2; y3; y4]; m ← digits 0 [m1; m2]; d ← digits 0 [d1; d2];
        if (1 <=? m) && (m <=? 12) && (1 <=? d) && (d <=? 31) then Some (day_number y m d * MS_PER_DAY) else None
      else None
  | _ => None
  end.

Definition quote : ascii := "'"%char.

(** Drops a leading quote. *)
Definition unquote (l : list ascii) : list ascii :=
  match l with c :: l' => if bool_decide (c = quote) then l' else l | [] => [] end.

Definition upper (c : ascii) : ascii :=
  let n := nat_of_ascii c in if (97 <=? n)%nat && (n <=? 122)%nat then ascii_of_nat (n - 32) else c.

Definition parsePartitionBoundary (desc : string) : option Z :=
  let clean := trim_list (rev (unquote (rev (unquote (String.list_ascii_of_string desc))))) in
  if bool_decide (map upper clean = String.list_ascii_of_string "MAXVALUE" ∨ clean = []) then None
  else parse_date (String.string_of_list_ascii clean).

(** ** Partitions *)

Record ISchemaPartition := mkPart { PARTITION_NAME : string; PARTITION_DESCRIPTION : string }.

#[export] Instance ISchemaPartition_eq_dec : EqDecision ISchemaPartition.
Proof. solve_decision. Defined.

(** [/^p_\d{4}_\d{2}$/] *)
Definition is_named (p : ISchemaPartition) : bool :=
  match String.list_ascii_of_string (PARTITION_NAME p) with
  | [a; b; y1; y2; y3; y4; c; m1; m2] =>
      bool_decide (a = "p"%char ∧ b = "_"%char ∧ c = "_"%char) &&
      bool_decide (Forall (λ x, is_Some (digit x)) [y1; y2; y3; y4; m1; m2])
  | _ => false
  end.

(** [localeCompare] of two such names is the order of their characters. *)
Definition name_le (p q : ISchemaPartition) : bool := String.leb (PARTITION_NAME p) (PARTITION_NAME q).

Record AuditRowInput := mkAuditRow {
  action : string;
  entityType : string;
  entityId : string;
  boundary : string;
  detail : option string; (* the reason or the error *)
  row_dryRun : bool;
}.

Record Server := mkServer {
  tables : gmap string (list ISchemaPartition);
  audit_rows : list AuditRowInput;
}.

Inductive Ddl : Set :=
  | Reorganize (t name bound : string)
  | DropPartition (t name : string).

Inductive PartitionAction : Set :=
  | add | add_skipped | add_error | drop | drop_skipped_attestation | drop_skipped_disk
  | drop_skipped_table_missing | drop_error.

#[export] Instance PartitionAction_eq_dec : EqDecision PartitionAction.
Proof. solve_decision. Defined.

Record PartitionResult := mkRes {
  res_table : string;
  res_partition : string;
  res_action : PartitionAction;
  res_dryRun : bool;
  res_boundaryDate : option string;
  res_reason : option string;
  res_error : option string;
}.

Inductive AttestationGateResult : Set :=
  | attestation_ok
  | attestation_absent (windowDate : string)
  | attestation_table_missing
  | attestation_db_error.

Definition attestation_reason (r : AttestationGateResult) : string :=
  match r with
  | attestation_ok => EmptyString
  | attestation_absent _ => "attestation_absent"
  | attestation_table_missing => "attestation_table_missing"
  | attestation_db_error => "db_error"
  end.

Inductive DiskCheckResult : Set := disk_ok | insufficient_disk | disk_db_error | stat_error.

Definition disk_reason (r : DiskCheckResult) : string :=
  match r with
  | disk_ok => EmptyString
  | insufficient_disk => "insufficient_disk"
  | disk_db_error => "db_error"
  | stat_error => "stat_error"
  end.

#[export] Instance AttestationGateResult_eq_dec : EqDecision AttestationGateResult.
Proof. solve_decision. Defined.
#[export] Instance DiskCheckResult_eq_dec : EqDecision DiskCheckResult.
Proof. solve_decision. Defined.

(** [s.includes(sub)] *)
Fixpoint includes (sub s : string) : bool :=
  String.prefix sub s || match s with String _ s' => includes sub s' | EmptyString => false end.

Definition lastDayOfWindow (partitionUpperBound : string) : option string :=
  (λ d, toDateString (d - MS_PER_DAY)) <$> parse_date partitionUpperBound.

Section disk_check.
Variable sizes : string → string → result string (option (Z * Z)).
Variable statfs : result string (Z * Z).
Variable share : Z → Z. (* ceil of a fifth, in floating-point numbers *)

(** The sizes of the partition's data and index, then the block size and the free blocks
    of the file system. *)
Definition checkDiskFree (tableName partitionName : string) : DiskCheckResult :=
  match sizes tableName partitionName with
  | Err _ => disk_db_error
  | Ok row =>
      let partitionBytes := match row with Some (data, index) => data + index | None => 0 end in
      match statfs with
      | Err _ => stat_error
      | Ok (bsize, bavail) => if share partitionBytes <=? bsize * bavail then disk_ok else insufficient_disk
      end
  end.
End disk_check.

Section rotation.
Variable refused : Ddl → option string.
Variable attestations : string → string → result string Z.
Variable disk : string → string → DiskCheckResult.
Variable unreadable : Server → string → bool.
Variable audit_lost : AuditRowInput → bool.

(** The gate counts attestations of a table and a day. *)
Definition checkAttestation (tableName windowDate : string) : AttestationGateResult :=
  match attestations tableName windowDate with
  | Ok count => if 0 <? count then attestation_ok else attestation_absent windowDate
  | Err msg =>
      if includes "doesn't exist" msg || includes "ER_NO_SUCH_TABLE" msg then attestation_table_missing
      else attestation_db_error
  end.

(** ** The server *)

(** [null] for a table the server does not show, or when the query fails. *)
Definition fetchPartitions (sv : Server) (tableName : string) : option (list ISchemaPartition) :=
  if unreadable sv tableName then None
  else match tables sv !! tableName with Some (p :: l) => Some (p :: l) | _ => None end.

Definition p_max : ISchemaPartition := mkPart "p_max" "MAXVALUE".

(** [REORGANIZE PARTITION p_max INTO (name, p_max)] splits the last partition in two;
    [DROP PARTITION] removes one. *)
Definition execute (sql : Ddl) (sv : Server) : result string Server :=
  match refused sql with
  | Some msg => Err msg
  | None =>
      match sql with
      | Reorganize t name bound =>
          match tables sv !! t with
          | Some ps =>
              if bool_decide (p_max ∈ ps)
              then Ok (mkServer (<[t := filter (λ p, p ≠ p_max) ps ++
                                  [mkPart name (String quote bound +:+ String quote EmptyString); p_max]]> (tables sv))
                         (audit_rows sv))
              else Err "Unknown partition 'p_max'"%string
          | None => Err "Table doesn't exist"%string
          end
      | DropPartition t name =>
          match tables sv !! t with
          | Some ps => Ok (mkServer (<[t := filter (λ p, PARTITION_NAME p ≠ name) ps]> (tables sv)) (audit_rows sv))
          | None => Err "Table doesn't exist"%string
          end
      end
  end.

Definition writeAuditRow (a : AuditRowInput) (sv : Server) : Server :=
  if audit_lost a then sv else mkServer (tables sv) (audit_rows sv ++ [a]).

(** ** Adding *)

Definition newest (partitions : list ISchemaPartition) : option ISchemaPartition :=
  head (sort_by (λ a b, name_le b a) (filter (λ p, is_named p = true) partitions)).

(** The name and the upper boundary of the partition to add; [today] is the clock. *)
Definition next_partition (today : Z) (partitions : list ISchemaPartition) : result string (string * Z) :=
  match newest partitions with
  | None =>
      let thisMonth := firstOfMonth (getUTCFullYear today) (getUTCMonth today + 1) in
      Ok (partitionNameFromBoundary thisMonth, addMonths thisMonth 1)
  | Some p =>
      match parsePartitionBoundary (PARTITION_DESCRIPTION p) with
      | None => Err ("Cannot parse PARTITION_DESCRIPTION: " +:+ PARTITION_DESCRIPTION p)%string
      | Some newestUpperBound => Ok (partitionNameFromBoundary newestUpperBound, addMonths newestUpperBound 1)
      end
  end.

Definition addNextPartition (today : Z) (config : TableConfig) (partitions : list ISchemaPartition)
    (dryRun : bool) (sv : Server) : PartitionResult * Server :=
  let res name act bound why err := mkRes (table config) name act dryRun bound why err in
  match next_partition today partitions with
  | Err msg => (res "(unknown)" add_error None None (Some msg), sv)%string
  | Ok (newPartitionName, nextBoundary) =>
      let nextBoundaryStr := toDateString nextBoundary in
      if bool_decide (newPartitionName ∈ PARTITION_NAME <$> partitions)
      then (res newPartitionName add_skipped (Some nextBoundaryStr) (Some "already_exists"%string) None, sv)
      else if dryRun then (res newPartitionName add (Some nextBoundaryStr) None None, sv)
      else
        match execute (Reorganize (table config) newPartitionName nextBoundaryStr) sv with
        | Ok sv1 =>
            (res newPartitionName add (Some nextBoundaryStr) None None,
             writeAuditRow (mkAuditRow "partition.add" (table config) newPartitionName nextBoundaryStr None dryRun) sv1)
        | Err msg =>
            (res newPartitionName add_error (Some nextBoundaryStr) None (Some msg),
             writeAuditRow (mkAuditRow "partition.add.error" (table config) newPartitionName nextBoundaryStr
                              (Some msg) dryRun) sv)
        end
  end.

(** ** Dropping *)

Definition cutoff_of (now : Z) (config : TableConfig) : Z :=
  addMonths (firstOfMonth (getUTCFullYear now) (getUTCMonth now + 1)) (- retentionMonths config).

Definition gate (config : TableConfig) (boundaryDate : string) : AttestationGateResult :=
  if requireAttestation config
  then checkAttestation (table config) (default EmptyString (lastDayOfWindow boundaryDate))
  else attestation_ok.

(** One partition of the loop; [None] when it is kept without a word. *)
Definition drop_one (config : TableConfig) (now : Z) (dryRun : bool) (p : ISchemaPartition) (sv : Server)
    : option PartitionResult * Server :=
  match parsePartitionBoundary (PARTITION_DESCRIPTION p) with
  | None => (None, sv)
  | Some upperBound =>
      if cutoff_of now config <? upperBound then (None, sv)
      else
        let name := PARTITION_NAME p in
        let boundaryDate := toDateString upperBound in
        let res act why err := Some (mkRes (table config) name act dryRun (Some boundaryDate) why err) in
        let row act why := mkAuditRow act (table config) name boundaryDate why dryRun in
        let g := gate config boundaryDate in
        if bool_decide (g ≠ attestation_ok)
        then (res drop_skipped_attestation (Some (attestation_reason g)) None,
              writeAuditRow (row "partition.drop.skipped"%string (Some (attestation_reason g))) sv)
        else
          let dk := disk (table config) name in
          if bool_decide (dk ≠ disk_ok)
          then (res drop_skipped_disk (Some (disk_reason dk)) None,
                writeAuditRow (row "partition.drop.skipped"%string (Some (disk_reason dk))) sv)
          else if dryRun then (res drop None None, sv)
          else
            let sv1 := writeAuditRow (row "partition.drop"%string None) sv in
            match execute (DropPartition (table config) name) sv1 with
            | Ok sv2 => (res drop None None, sv2)
            | Err msg => (res drop_error None (Some msg), writeAuditRow (row "partition.drop.error"%string (Some msg)) sv1)
            end
  end.

Fixpoint drop_loop (config : TableConfig) (now : Z) (dryRun : bool) (named : list ISchemaPartition) (sv : Server)
    : list PartitionResult * Server :=
  match named with
  | [] => ([], sv)
  | p :: named' =>
      let '(r, sv1) := drop_one config now dryRun p sv in
      let '(rs, sv2) := drop_loop config now dryRun named' sv1 in
      (option_list r ++ rs, sv2)
  end.

Definition dropExpiredPartitions (config : TableConfig) (partitions : list ISchemaPartition) (now : Z)
    (dryRun : bool) (sv : Server) : list PartitionResult * Server :=
  drop_loop config now dryRun (sort_by name_le (filter (λ p, is_named p = true) partitions)) sv.

(** ** Rotating *)

(** Nothing the body calls throws, so its [catch] is never reached. *)
Definition rotateTable (config : TableConfig) (today now : Z) (dryRun : bool) (sv : Server)
    : list PartitionResult * Server :=
  match fetchPartitions sv (table config) with
  | None =>
      ([mkRes (table config) "(none)" drop_skipped_table_missing dryRun None
          (Some "table_not_in_information_schema"%string) None], sv)
  | Some partitions =>
      let '(addResult, sv1) := addNextPartition today config partitions dryRun sv in
      let currentPartitions :=
        if bool_decide (res_action addResult = add) then default partitions (fetchPartitions sv1 (table config))
        else partitions in
      let '(dropResults, sv2) := dropExpiredPartitions config currentPartitions now dryRun sv1 in
      (addResult :: dropResults, sv2)
  end.

Definition is_error (r : PartitionResult) : bool :=
  bool_decide (res_action r = add_error ∨ res_action r = drop_error).

Record RotationSummary := mkSummary { results : list PartitionResult; errors : nat; sum_dryRun : bool }.

Fixpoint rotate_all (configs : list TableConfig) (today now : Z) (dryRun : bool) (sv : Server)
    : list PartitionResult * Server :=
  match configs with
  | [] => ([], sv)
  | c :: configs' =>
      let '(rs, sv1) := rotateTable c today now dryRun sv in
      let '(rs', sv2) := rotate_all configs' today now dryRun sv1 in
      (rs ++ rs', sv2)
  end.

Definition runPartitionRotation (today : Z) (nowOverride : option Z) (only : option (list string)) (dryRun : bool)
    (sv : Server) : RotationSummary * Server :=
  let now := default today nowOverride in
  let configs := match only with
                 | Some l => filter (λ c, table c ∈ l) TABLE_REGISTRY
                 | None => TABLE_REGISTRY
                 end in
  let '(rs, sv') := rotate_all configs today now dryRun sv in
  (mkSummary rs (length (filter (λ r, is_error r = true) rs)) dryRun, sv').
End rotation.

(** ** Months

    Month [k] is [k mod 12] (0 for January) of year [k / 12]. *)

Definition month_start (k : Z) : Z := day_number (k / 12) (k mod 12 + 1) 1 * MS_PER_DAY.

Definition month_of (t : Z) : Z := 12 * getUTCFullYear t + getUTCMonth t.

Definition month_name (k : Z) : string := partitionNameFromBoundary (month_start k).

(** The partition of month [k], up to the start of month [k + 1]. *)
Definition part (k : Z) : ISchemaPartition :=
  mkPart (month_name k) (String quote (toDateString (month_start (k + 1))) +:+ String quote EmptyString).

Lemma month_name_of k : partitionNameFromBoundary (month_start k) = month_name k.
Proof. reflexivity. Qed.

Lemma month_start_fields k :
  getUTCFullYear (month_start k) = k / 12 ∧ getUTCMonth (month_start k) = k mod 12 ∧
  getUTCDate (month_start k) = 1 ∧ time_of (month_start k) = 0.
Proof.
  assert (Hv : valid_date (k / 12) (k mod 12 + 1) 1).
  { unfold valid_date, days_in_month. repeat case_match; lia. }
  assert (Hd : day_of (month_start k) = day_number (k / 12) (k mod 12 + 1) 1).
  { unfold day_of, month_start, MS_PER_DAY. lia. }
  unfold getUTCFullYear, getUTCMonth, getUTCDate. rewrite Hd, (civil_day_number _ _ _ Hv). cbn [fst snd].
  split_and!; [done|lia|done|]. unfold time_of, month_start, MS_PER_DAY. lia.
Qed.

Lemma month_of_start k : month_of (month_start k) = k.
Proof. unfold month_of. destruct (month_start_fields k) as (-> & -> & _). lia. Qed.

(** A month outside the year carries into the year. *)
Lemma day_number_carry y m : day_number y m 1 * MS_PER_DAY = month_start (12 * y + (m - 1)).
Proof.
  unfold month_start. f_equal. unfold day_number.
  replace ((12 * y + (m - 1)) / 12 + ((12 * y + (m - 1)) mod 12 + 1 - 1) / 12) with (y + (m - 1) / 12) by lia.
  by replace (((12 * y + (m - 1)) mod 12 + 1 - 1) mod 12 + 1) with ((m - 1) mod 12 + 1) by lia.
Qed.

Lemma addMonths_start k n : addMonths (month_start k) n = month_start (k + n).
Proof.
  unfold addMonths. destruct (month_start_fields k) as (-> & -> & -> & ->).
  rewrite day_number_carry, Z.add_0_r. f_equal. lia.
Qed.

Lemma firstOfMonth_start t : firstOfMonth (getUTCFullYear t) (getUTCMonth t + 1) = month_start (month_of t).
Proof. unfold firstOfMonth. rewrite day_number_carry. f_equal. unfold month_of. lia. Qed.

(** The two ways the Standard Library compares strings. *)
Lemma compare_strings a b : String.compare a b = String_as_OT.compare a b.
Proof.
  revert b. induction a as [|x a IH]; intros [|y b]; [done..|]. cbn. rewrite IH.
  unfold Ascii.compare, Ascii_as_OT.compare. by destruct (N.compare _ _).
Qed.

(** The months of 1970 to 2099. *)
Definition FIRST_MONTH : Z := 23640.
Definition MONTHS : Z := 1560.

Definition in_calendar (k : Z) : Prop := FIRST_MONTH <= k < FIRST_MONTH + MONTHS.

#[export] Instance name_lt_dec a b : Decision (String_as_OT.lt a b).
Proof. unfold String_as_OT.lt. apply _. Defined.

(** A test that holds of every month of the calendar, by evaluation. *)
Lemma checked (p : Z → bool) :
  all_from (Z.to_nat MONTHS) FIRST_MONTH p = true → ∀ k, in_calendar k → p k = true.
Proof.
  intros Hall k Hk. apply (all_from_spec (Z.to_nat MONTHS) FIRST_MONTH); [exact Hall|].
  rewrite Z2Nat.id by done. exact Hk.
Qed.

Lemma month_named k : in_calendar k → is_named (part k) = true.
Proof. apply (checked (λ k, is_named (part k))). vm_cast_no_check (eq_refl true). Qed.

Lemma month_parsed k :
  in_calendar k → parsePartitionBoundary (PARTITION_DESCRIPTION (part k)) = Some (month_start (k + 1)).
Proof.
  intros Hk. eapply bool_decide_eq_true_1. revert k Hk.
  apply (checked (λ k, bool_decide (parsePartitionBoundary (PARTITION_DESCRIPTION (part k)) = Some (month_start (k + 1))))).
  vm_cast_no_check (eq_refl true).
Qed.

Lemma month_name_next k : in_calendar k → String_as_OT.lt (month_name k) (month_name (k + 1)).
Proof.
  intros Hk. eapply bool_decide_eq_true_1. revert k Hk.
  apply (checked (λ k, bool_decide (String_as_OT.lt (month_name k) (month_name (k + 1))))).
  vm_cast_no_check (eq_refl true).
Qed.

Lemma month_start_next k : in_calendar k → month_start k < month_start (k + 1).
Proof.
  intros Hk. apply Z.ltb_lt. revert k Hk. apply (checked (λ k, month_start k <? month_start (k + 1))).
  vm_cast_no_check (eq_refl true).
Qed.

(** A relation between successive months holds between any two. *)
Lemma months_increasing (R : Z → Z → Prop) j k :
  (∀ a b c, R a b → R b c → R a c) → (∀ i, in_calendar i → R i (i + 1)) → in_calendar j → j < k → k <= FIRST_MONTH + MONTHS → R j k.
Proof.
  intros Htrans Hs Hj Hlt Hk. replace k with (j + 1 + Z.of_nat (Z.to_nat (k - j - 1))) by lia.
  set (n := Z.to_nat (k - j - 1)). assert (Hn : j + Z.of_nat n < FIRST_MONTH + MONTHS) by lia. clearbody n.
  induction n as [|n IH]; [rewrite Z.add_0_r; by apply Hs|].
  apply (Htrans _ (j + 1 + Z.of_nat n)); [apply IH; lia|].
  replace (j + 1 + Z.of_nat (S n)) with (j + 1 + Z.of_nat n + 1) by lia. apply Hs.
  unfold in_calendar in *. lia.
Qed.

Lemma month_start_lt j k : in_calendar j → j < k → k <= FIRST_MONTH + MONTHS → month_start j < month_start k.
Proof.
  apply (months_increasing (λ j k, month_start j < month_start k)).
  - intros x y z. lia.
  - exact month_start_next.
Qed.

Lemma month_name_lt j k :
  in_calendar j → j < k → k <= FIRST_MONTH + MONTHS → String_as_OT.lt (month_name j) (month_name k).
Proof.
  apply (months_increasing (λ j k, String_as_OT.lt (month_name j) (month_name k))).
  - intros x y z. apply (StrictOrder_Transitive (R := String_as_OT.lt)).
  - exact month_name_next.
Qed.

Lemma month_name_inj j k : in_calendar j → in_calendar k → month_name j = month_name k → j = k.
Proof.
  intros Hj Hk E. assert (Hirr := StrictOrder_Irreflexive (R := String_as_OT.lt)).
  destruct (Z.lt_trichotomy j k) as [H|[H|H]]; [|done|]; exfalso.
  - eapply Hirr. pose proof (month_name_lt j k Hj H ltac:(unfold in_calendar in *; lia)) as Hl.
    rewrite E in Hl. exact Hl.
  - eapply Hirr. pose proof (month_name_lt k j Hk H ltac:(unfold in_calendar in *; lia)) as Hl.
    rewrite E in Hl. exact Hl.
Qed.

Lemma name_le_lt p q : String_as_OT.lt (PARTITION_NAME p) (PARTITION_NAME q) → name_le p q = true ∧ name_le q p = false.
Proof.
  unfold String_as_OT.lt, name_le, String.leb. rewrite <- compare_strings. intros H.
  by rewrite (String.compare_antisym (PARTITION_NAME q)), H.
Qed.

(** ** Sorting *)

Lemma insert_by_le {A} (le : A → A → bool) x l :
  (∀ y, head l = Some y → le x y = true) → insert_by le x l = x :: l.
Proof. destruct l as [|y l]; [done|]. intros H. cbn. by rewrite H. Qed.

Lemma sort_by_id {A} (le : A → A → bool) l : StronglySorted (λ x y, le x y = true) l → sort_by le l = l.
Proof.
  induction 1 as [|x l _ IH Hx]; [done|]. cbn. unfold sort_by in IH. rewrite IH.
  apply insert_by_le. intros y Hy. destruct l as [|z l]; [done|]. injection Hy as ->. by inversion Hx.
Qed.

Lemma sort_by_head {A} (le : A → A → bool) l m :
  (∀ x, x ∈ l → le x m = false) → head (sort_by le (l ++ [m])) = Some m.
Proof.
  induction l as [|x l IH]; [done|]. intros H. cbn. unfold sort_by in IH.
  specialize (IH (λ y Hy, H y (list_elem_of_further _ _ _ Hy))).
  destruct (foldr (insert_by le) [] (l ++ [m])) as [|y t]; [done|]. injection IH as ->.
  cbn. by rewrite (H x (list_elem_of_here _ _)).
Qed.

Lemma filter_keep {A} (P : A → Prop) `{∀ x, base.Decision (P x)} l : Forall P l → filter P l = l.
Proof. induction 1 as [|x l Hx _ IH]; [done|]. by rewrite filter_cons_True, IH. Qed.

Lemma filter_none {A} (P : A → Prop) `{∀ x, base.Decision (P x)} l : Forall (λ x, ¬ P x) l → filter P l = [].
Proof. induction 1 as [|x l Hx _ IH]; [done|]. by rewrite filter_cons_False, IH. Qed.

Lemma filter_fmap {A B} (f : A → B) (P : B → Prop) (Q : A → Prop)
    `{∀ x, base.Decision (P x), ∀ x, base.Decision (Q x)} (l : list A) :
  (∀ x, x ∈ l → P (f x) ↔ Q x) → filter P (f <$> l) = f <$> filter Q l.
Proof.
  induction l as [|x l IH]; [done|]. intros HPQ. cbn [fmap list_fmap]. rewrite !filter_cons.
  fold (fmap f l). rewrite IH by (intros; apply HPQ; by right).
  destruct (HPQ x (list_elem_of_here _ _)). by repeat case_decide; tauto || cbn.
Qed.

(** ** Layouts

    A rotated table has its older partitions, one partition for each of some months and
    [p_max]. *)

Definition layout (pre : list ISchemaPartition) (ks : list Z) : list ISchemaPartition :=
  pre ++ (part <$> ks) ++ [p_max].

(** The older partitions are not named after months, and none is [p_max]. *)
Definition older (pre : list ISchemaPartition) : Prop :=
  Forall (λ p, is_named p = false ∧ PARTITION_NAME p ≠ PARTITION_NAME p_max) pre.

(** Successive months of the calendar, in order. *)
Definition in_order (ks : list Z) : Prop := StronglySorted Z.lt ks ∧ Forall in_calendar ks.

Lemma is_named_name p q : PARTITION_NAME p = PARTITION_NAME q → is_named p = is_named q.
Proof. unfold is_named. by intros ->. Qed.

(** No partition outside the months bears a month's name. *)
Lemma unnamed_name p k : in_calendar k → is_named p = false → PARTITION_NAME p ≠ month_name k.
Proof. intros Hk Hp E. by rewrite (is_named_name p (part k) E), month_named in Hp. Qed.

Lemma in_order_cons k ks : in_order (k :: ks) ↔ in_calendar k ∧ Forall (Z.lt k) ks ∧ in_order ks.
Proof.
  unfold in_order. split.
  - intros [H1 H2]. apply StronglySorted_inv in H1 as [? ?]. by inversion H2.
  - intros (? & ? & ? & ?). split; by constructor.
Qed.

Lemma filter_named pre ks :
  older pre → in_order ks → filter (λ p, is_named p = true) (layout pre ks) = part <$> ks.
Proof.
  intros Hpre [_ Hks]. unfold layout. rewrite !filter_app, (filter_none _ pre), (filter_keep _ (part <$> ks)).
  - cbn. by rewrite app_nil_r.
  - apply Forall_fmap. eapply Forall_impl; [exact Hks|]. intros k Hk. by apply month_named.
  - eapply Forall_impl; [exact Hpre|]. cbn. intros p [-> _]. done.
Qed.

Lemma sorted_months ks : in_order ks → sort_by name_le (part <$> ks) = part <$> ks.
Proof.
  intros [Hs Hc]. apply sort_by_id. induction Hs as [|k ks _ IH Hk]; cbn; [constructor|].
  inversion_clear Hc as [|? ? Hk' Hc']. constructor; [by apply IH|]. apply Forall_fmap, Forall_forall.
  intros j Hj. rewrite Forall_forall in Hk, Hc'. specialize (Hk j Hj). specialize (Hc' j Hj).
  apply name_le_lt, month_name_lt; [done..|]. unfold in_calendar in *. lia.
Qed.

(** ** The months of a table after a rotation *)

#[local] Opaque month_name month_start.

Definition next_month (today : Z) (ks : list Z) : Z :=
  match last ks with Some k => k + 1 | None => month_of today end.

Lemma in_order_snoc ks k : in_order (ks ++ [k]) → in_calendar k ∧ Forall (λ j, j < k) ks.
Proof.
  induction ks as [|j ks IH]; cbn; intros H; apply in_order_cons in H as (Hj & Hlt & H).
  - split; [done|constructor].
  - destruct (IH H) as [Hk Hks]. split; [done|]. constructor; [|done].
    rewrite Forall_forall in Hlt. apply Hlt. set_solver.
Qed.

Lemma in_order_next ks k : in_order ks → in_calendar k → Forall (λ j, j < k) ks → in_order (ks ++ [k]).
Proof.
  induction ks as [|j ks IH]; cbn; intros H Hk Hks; apply in_order_cons.
  - split_and!; [done|constructor|exact H].
  - apply in_order_cons in H as (Hj & Hlt & H). inversion_clear Hks as [|? ? Hjk Hks'].
    split_and!; [done| |by apply IH]. apply Forall_app. split; [done|]. by constructor.
Qed.

Lemma next_month_later today ks : in_order ks → Forall (λ j, j < next_month today ks) ks.
Proof.
  unfold next_month. destruct ks as [|k l _] using rev_ind; [constructor|]. intros H. rewrite last_snoc.
  apply in_order_snoc in H as [_ H].
  apply Forall_app. split; [|constructor; [lia|constructor]]. eapply Forall_impl; [exact H|]. cbn. intros j ?. lia.
Qed.

Lemma newest_layout pre ks :
  older pre → in_order ks → newest (layout pre ks) = part <$> last ks.
Proof.
  intros Hpre Hks. unfold newest. rewrite (filter_named pre ks Hpre Hks).
  destruct ks as [|k l _] using rev_ind; [done|]. rewrite last_snoc, fmap_app. cbn. apply sort_by_head.
  intros p (j & -> & Hj)%list_elem_of_fmap. apply name_le_lt.
  destruct (in_order_snoc l k Hks) as [Hk Hlt]. destruct Hks as [_ Hc]. rewrite Forall_forall in Hlt, Hc.
  specialize (Hlt j Hj). specialize (Hc j ltac:(set_solver)). apply month_name_lt; [done..|].
  unfold in_calendar in *. lia.
Qed.

Lemma next_partition_layout today pre ks :
  older pre → in_order ks →
  next_partition today (layout pre ks) =
    Ok (month_name (next_month today ks), month_start (next_month today ks + 1)).
Proof.
  intros Hpre Hks. unfold next_partition. rewrite (newest_layout pre ks Hpre Hks). unfold next_month.
  destruct ks as [|k l _] using rev_ind.
  - cbn [last fmap option_fmap option_map]. by rewrite firstOfMonth_start, addMonths_start.
  - rewrite last_snoc. cbn [fmap option_fmap option_map]. rewrite month_parsed by (eapply in_order_snoc, Hks).
    by rewrite addMonths_start.
Qed.

Lemma month_name_fresh pre ks k :
  older pre → in_order (ks ++ [k]) → month_name k ∉ PARTITION_NAME <$> layout pre ks.
Proof.
  rewrite list_elem_of_fmap. intros Hpre Hks (p & E & Hp). destruct (in_order_snoc ks k Hks) as [Hk Hlt].
  unfold layout in Hp. rewrite !elem_of_app, list_elem_of_singleton in Hp. destruct Hp as [Hp|[Hp| ->]].
  - unfold older in Hpre. rewrite Forall_forall in Hpre. exact (unnamed_name p k Hk (proj1 (Hpre p Hp)) (eq_sym E)).
  - apply list_elem_of_fmap in Hp as (j & -> & Hj). destruct Hks as [_ Hc]. rewrite Forall_forall in Hlt, Hc.
    assert (Hcj : in_calendar j) by (apply Hc, elem_of_app; by left).
    pose proof (month_name_inj k j Hk Hcj E). specialize (Hlt j Hj). lia.
  - exact (unnamed_name p_max k Hk eq_refl (eq_sym E)).
Qed.

Lemma split_last pre ks :
  older pre → in_order ks → filter (λ p, p ≠ p_max) (layout pre ks) = pre ++ (part <$> ks).
Proof.
  intros Hpre [_ Hc]. unfold layout. rewrite app_assoc, filter_app, (filter_keep _ (pre ++ _)).
  - cbn. by rewrite app_nil_r.
  - apply Forall_app. split.
    + eapply Forall_impl; [exact Hpre|]. cbn. intros p [_ Hp] ->. done.
    + apply Forall_fmap. eapply Forall_impl; [exact Hc|]. intros k Hk. cbn. intros E.
      refine (unnamed_name p_max k Hk eq_refl _). by rewrite <- E.
Qed.

(** ** What a rotation does to the server *)

Section effects.
Variable refused : Ddl → option string.
Variable attestations : string → string → result string Z.
Variable disk : string → string → DiskCheckResult.
Variable unreadable : Server → string → bool.
Variable audit_lost : AuditRowInput → bool.

(** The partition's statement is issued, and the server accepts it. *)
Definition dropped (config : TableConfig) (now : Z) (p : ISchemaPartition) : bool :=
  match parsePartitionBoundary (PARTITION_DESCRIPTION p) with
  | Some upperBound =>
      (upperBound <=? cutoff_of now config) &&
      bool_decide (gate attestations config (toDateString upperBound) = attestation_ok) &&
      bool_decide (disk (table config) (PARTITION_NAME p) = disk_ok) &&
      bool_decide (refused (DropPartition (table config) (PARTITION_NAME p)) = None)
  | None => false
  end.

Definition drop_row (config : TableConfig) (p : ISchemaPartition) (upperBound : Z) : AuditRowInput :=
  mkAuditRow "partition.drop" (table config) (PARTITION_NAME p) (toDateString upperBound) None false.

(** No partition the loop drops bears the name of [q]. *)
Definition survives (config : TableConfig) (now : Z) (named : list ISchemaPartition) (q : ISchemaPartition) : Prop :=
  Forall (λ p, dropped config now p = true → PARTITION_NAME q ≠ PARTITION_NAME p) named.

#[export] Instance survives_dec config now named q : base.Decision (survives config now named q).
Proof. unfold survives. apply _. Defined.

Lemma writeAuditRow_tables a sv : tables (writeAuditRow audit_lost a sv) = tables sv.
Proof. unfold writeAuditRow. by destruct (audit_lost a). Qed.

Lemma writeAuditRow_rows a sv : audit_rows sv `prefix_of` audit_rows (writeAuditRow audit_lost a sv).
Proof. unfold writeAuditRow. destruct (audit_lost a); [done|]. by apply prefix_app_r. Qed.

Lemma writeAuditRow_kept a sv : audit_lost a = false → a ∈ audit_rows (writeAuditRow audit_lost a sv).
Proof. unfold writeAuditRow. intros ->. cbn. rewrite elem_of_app, list_elem_of_singleton. by right. Qed.

Lemma execute_rows sql sv sv' : execute refused sql sv = Ok sv' → audit_rows sv' = audit_rows sv.
Proof. unfold execute. intros H. repeat case_match; try discriminate; by injection H as <-. Qed.

Lemma drop_one_tables config now p ps sv :
  tables sv !! table config = Some ps →
  tables (drop_one refused attestations disk audit_lost config now false p sv).2 =
    if dropped config now p then <[table config := filter (λ q, PARTITION_NAME q ≠ PARTITION_NAME p) ps]> (tables sv)
    else tables sv.
Proof.
  intros Hps. unfold drop_one, dropped. destruct (parsePartitionBoundary _) as [u|]; [|done].
  rewrite Z.ltb_antisym. destruct (u <=? cutoff_of now config); [|done]. cbn [negb andb].
  unfold execute. cbn [tables]. rewrite writeAuditRow_tables, Hps.
  destruct (refused _) eqn:Er; repeat case_bool_decide; try done; cbn; by rewrite ?writeAuditRow_tables.
Qed.

(** The audit rows only grow. *)
Lemma drop_one_rows config now dryRun p sv :
  audit_rows sv `prefix_of` audit_rows (drop_one refused attestations disk audit_lost config now dryRun p sv).2.
Proof.
  unfold drop_one. destruct (parsePartitionBoundary _) as [u|]; [|done].
  repeat case_match; try done; cbn; try apply writeAuditRow_rows.
  - match goal with H : execute _ _ _ = Ok _ |- _ => rewrite (execute_rows _ _ _ H) end. apply writeAuditRow_rows.
  - etransitivity; apply writeAuditRow_rows.
Qed.

Lemma drop_one_logged config now p sv u :
  dropped config now p = true → parsePartitionBoundary (PARTITION_DESCRIPTION p) = Some u →
  audit_lost (drop_row config p u) = false →
  drop_row config p u ∈ audit_rows (drop_one refused attestations disk audit_lost config now false p sv).2.
Proof.
  unfold dropped, drop_one. intros Hd Hu Hl. rewrite Hu in *. rewrite !andb_true_iff, !bool_decide_eq_true in Hd.
  destruct Hd as [[[Hb ->] ->] _]. rewrite Z.ltb_antisym, Hb. cbn [negb].
  rewrite !bool_decide_eq_false_2 by (intros H; by apply H). pose proof (writeAuditRow_kept _ sv Hl) as Hrow. unfold drop_row in Hrow.
  destruct (execute _ _ _) eqn:E; cbn.
  - by rewrite (execute_rows _ _ _ E).
  - eapply elem_of_prefix; [exact Hrow|apply writeAuditRow_rows].
Qed.

Lemma drop_loop_tables config now named ps sv :
  tables sv !! table config = Some ps →
  tables (drop_loop refused attestations disk audit_lost config now false named sv).2 =
    <[table config := filter (survives config now named) ps]> (tables sv).
Proof.
  revert ps sv. induction named as [|p named IH]; intros ps sv Hps; cbn [drop_loop].
  { rewrite filter_keep; [by rewrite insert_id|]. apply Forall_true. intros q. constructor. }
  pose proof (drop_one_tables config now p ps sv Hps) as Hone.
  destruct (drop_one _ _ _ _ _ _ _ p sv) as [r sv1]. cbn [snd] in Hone.
  specialize (IH (if dropped config now p then filter (λ q, PARTITION_NAME q ≠ PARTITION_NAME p) ps else ps) sv1).
  destruct (drop_loop _ _ _ _ _ _ _ named sv1) as [rs sv2]. cbn [snd] in *. rewrite IH.
  - rewrite Hone. destruct (dropped config now p) eqn:E.
    + rewrite insert_insert_eq, list_filter_filter. f_equal. apply list_filter_iff. intros q.
      unfold survives. rewrite Forall_cons, E. naive_solver.
    + f_equal. apply list_filter_iff. intros q. unfold survives. rewrite Forall_cons, E. naive_solver.
  - rewrite Hone. destruct (dropped config now p); [by simplify_map_eq|done].
Qed.

(** ** The months a rotation leaves *)

Definition month_end (k : Z) : string := toDateString (month_start (k + 1)).

(** The month added, unless the server refuses. *)
Definition added (config : TableConfig) (today : Z) (ks : list Z) : list Z :=
  let n := next_month today ks in
  match refused (Reorganize (table config) (month_name n) (month_end n)) with Some _ => ks | None => ks ++ [n] end.

(** A month dropped: it ended before the retention period, it is attested, the disk has
    room, and the server does not refuse. *)
Definition expired (config : TableConfig) (now k : Z) : bool :=
  (k <? month_of now - retentionMonths config) &&
  bool_decide (gate attestations config (month_end k) = attestation_ok) &&
  bool_decide (disk (table config) (month_name k) = disk_ok) &&
  bool_decide (refused (DropPartition (table config) (month_name k)) = None).

Definition rotated (config : TableConfig) (today now : Z) (ks : list Z) : list Z :=
  filter (λ k, expired config now k = false) (added config today ks).

(** The table has a layout, and the months the rotation compares are in the calendar. *)
Record rotatable (config : TableConfig) (today now : Z) (pre : list ISchemaPartition) (ks : list Z) : Prop := {
  rot_older : older pre;
  rot_months : in_order (ks ++ [next_month today ks]);
  rot_cutoff : in_calendar (month_of now - retentionMonths config);
}.

Lemma month_start_le j k : in_calendar j → in_calendar k → (month_start (j + 1) <=? month_start k) = (j <? k).
Proof.
  intros Hj Hk. destruct (Z.ltb_spec j k) as [H|H].
  - apply Z.leb_le. destruct (decide (j + 1 = k)) as [->|]; [lia|].
    apply Z.lt_le_incl, month_start_lt; unfold in_calendar in *; lia.
  - apply Z.leb_gt, month_start_lt; unfold in_calendar in *; lia.
Qed.

Lemma cutoff_month now config : cutoff_of now config = month_start (month_of now - retentionMonths config).
Proof. unfold cutoff_of. by rewrite firstOfMonth_start, addMonths_start. Qed.

Lemma dropped_month config now k :
  in_calendar (month_of now - retentionMonths config) → in_calendar k →
  dropped config now (part k) = expired config now k.
Proof.
  intros Hc Hk. unfold dropped, expired. rewrite month_parsed, cutoff_month, month_start_le by done. done.
Qed.

Lemma in_order_init ks k : in_order (ks ++ [k]) → in_order ks.
Proof.
  induction ks as [|j ks IH]; cbn; intros H; [split; constructor|]. apply in_order_cons in H as (Hj & Hlt & H).
  apply in_order_cons. split_and!; [done| |by apply IH]. by apply Forall_app in Hlt as [? _].
Qed.

Lemma added_in_order config today ks : in_order (ks ++ [next_month today ks]) → in_order (added config today ks).
Proof. unfold added. intros H. case_match; [by eapply in_order_init|done]. Qed.

Lemma execute_reorganize config pre ks n sv :
  older pre → in_order ks → tables sv !! table config = Some (layout pre ks) →
  execute refused (Reorganize (table config) (month_name n) (month_end n)) sv =
    match refused (Reorganize (table config) (month_name n) (month_end n)) with
    | Some msg => Err msg
    | None => Ok (mkServer (<[table config := layout pre (ks ++ [n])]> (tables sv)) (audit_rows sv))
    end.
Proof.
  intros Hpre Hks Hps. unfold execute. case_match; [done|]. rewrite Hps.
  rewrite bool_decide_eq_true_2 by (unfold layout; set_solver). rewrite (split_last pre ks Hpre Hks).
  unfold layout. by rewrite fmap_app, <- !app_assoc.
Qed.

Lemma addNextPartition_layout config today pre ks sv :
  older pre → in_order (ks ++ [next_month today ks]) → tables sv !! table config = Some (layout pre ks) →
  let r := addNextPartition refused audit_lost today config (layout pre ks) false sv in
  tables r.2 = <[table config := layout pre (added config today ks)]> (tables sv) ∧
  (res_action r.1 ≠ add → added config today ks = ks).
Proof.
  intros Hpre Hks Hps. pose proof (in_order_init _ _ Hks) as Hin. unfold addNextPartition.
  rewrite (next_partition_layout today pre ks Hpre Hin), bool_decide_eq_false_2 by (by apply month_name_fresh).
  pose proof (execute_reorganize config pre ks (next_month today ks) sv Hpre Hin Hps) as E.
  unfold month_end in E. rewrite E. unfold added, month_end.
  destruct (refused _); cbn; rewrite writeAuditRow_tables; cbn; (split; [|first [done|by intros []]]); [by rewrite insert_id|done].
Qed.

Lemma layout_survivors config now pre ks :
  in_calendar (month_of now - retentionMonths config) → older pre → in_order ks →
  filter (survives config now (part <$> ks)) (layout pre ks) =
    layout pre (filter (λ k, expired config now k = false) ks).
Proof.
  intros Hc Hpre [Hs Hks]. assert (Hun : ∀ p, is_named p = false → survives config now (part <$> ks) p).
  { intros p Hp. apply Forall_fmap. eapply Forall_impl; [exact Hks|]. intros k Hk _. by apply unnamed_name. }
  unfold layout. rewrite !filter_app, (filter_keep _ pre), (filter_keep _ [p_max]).
  2: { constructor; [by apply Hun|constructor]. }
  2: { eapply Forall_impl; [exact Hpre|]. intros p [Hp _]. by apply Hun. }
  apply f_equal, (f_equal (.++ [p_max])), filter_fmap. intros k Hk. rewrite Forall_forall in Hks. unfold survives.
  rewrite Forall_fmap, Forall_forall. split.
  - intros Hsv. apply not_true_is_false. intros He. apply (Hsv k Hk); [|done]. cbn. by rewrite dropped_month by auto.
  - intros He j Hj Hd E. cbn in Hd, E. rewrite dropped_month in Hd by auto.
    apply month_name_inj in E; [|by auto..]. congruence.
Qed.

Lemma fetch_layout pre ks sv t :
  (∀ sv t, unreadable sv t = false) → tables sv !! t = Some (layout pre ks) →
  fetchPartitions unreadable sv t = Some (layout pre ks).
Proof. intros Hr Ht. unfold fetchPartitions. rewrite Hr, Ht. unfold layout. by destruct pre, ks. Qed.

Lemma rotateTable_layout config today now pre ks sv :
  (∀ sv t, unreadable sv t = false) → rotatable config today now pre ks →
  tables sv !! table config = Some (layout pre ks) →
  tables (rotateTable refused attestations disk unreadable audit_lost config today now false sv).2 =
    <[table config := layout pre (rotated config today now ks)]> (tables sv).
Proof.
  intros Hr [Hpre Hks Hc] Hps. unfold rotateTable. rewrite (fetch_layout pre ks sv _ Hr Hps).
  destruct (addNextPartition_layout config today pre ks sv Hpre Hks Hps) as [Ht Hact].
  destruct (addNextPartition _ _ _ _ _ _ sv) as [r sv1]. cbn [fst snd] in *.
  assert (Hps1 : tables sv1 !! table config = Some (layout pre (added config today ks))).
  { rewrite Ht. by simplify_map_eq. }
  set (cur := if bool_decide (res_action r = add) then _ else _).
  assert (Hcur : cur = layout pre (added config today ks)).
  { subst cur. case_bool_decide; [by rewrite (fetch_layout _ _ _ _ Hr Hps1)|by rewrite Hact]. }
  rewrite Hcur. pose proof (added_in_order config today ks Hks) as Hadd. unfold dropExpiredPartitions.
  rewrite (filter_named _ _ Hpre Hadd), (sorted_months _ Hadd).
  pose proof (drop_loop_tables config now (part <$> added config today ks) _ sv1 Hps1) as Hdrop.
  destruct (drop_loop _ _ _ _ _ _ _ _ sv1) as [rs sv2]. cbn [snd] in *. rewrite Hdrop, Ht, insert_insert_eq.
  unfold rotated. by rewrite layout_survivors.
Qed.

(** ** Nothing else changes *)

Lemma execute_others sql sv sv' t :
  execute refused sql sv = Ok sv' → t ≠ match sql with Reorganize t _ _ => t | DropPartition t _ => t end →
  tables sv' !! t = tables sv !! t.
Proof.
  unfold execute. intros H Ht. destruct sql; repeat case_match; try discriminate; injection H as <-; cbn;
    by apply lookup_insert_ne.
Qed.

Lemma addNextPartition_others config today ps dryRun sv t :
  t ≠ table config →
  tables (addNextPartition refused audit_lost today config ps dryRun sv).2 !! t = tables sv !! t.
Proof.
  intros Ht. unfold addNextPartition. destruct (next_partition _ _) as [[name b]|]; [|done].
  repeat case_match; try done; cbn; rewrite writeAuditRow_tables; [|done]. by eapply execute_others.
Qed.

Lemma drop_one_others config now dryRun p sv t :
  t ≠ table config →
  tables (drop_one refused attestations disk audit_lost config now dryRun p sv).2 !! t = tables sv !! t.
Proof.
  intros Ht. unfold drop_one. destruct (parsePartitionBoundary _) as [u|]; [|done].
  repeat case_match; try done; cbn; rewrite ?writeAuditRow_tables; try done.
  erewrite execute_others by done. by rewrite writeAuditRow_tables.
Qed.

Lemma drop_loop_others config now dryRun named sv t :
  t ≠ table config →
  tables (drop_loop refused attestations disk audit_lost config now dryRun named sv).2 !! t = tables sv !! t.
Proof.
  intros Ht. revert sv. induction named as [|p named IH]; intros sv; [done|]. cbn [drop_loop].
  pose proof (drop_one_others config now dryRun p sv t Ht) as Hone.
  destruct (drop_one _ _ _ _ _ _ _ p sv) as [r sv1]. specialize (IH sv1).
  destruct (drop_loop _ _ _ _ _ _ _ named sv1) as [rs sv2]. cbn [snd] in *. congruence.
Qed.

Lemma rotateTable_others config today now dryRun sv t :
  t ≠ table config →
  tables (rotateTable refused attestations disk unreadable audit_lost config today now dryRun sv).2 !! t = tables sv !! t.
Proof.
  intros Ht. unfold rotateTable. destruct (fetchPartitions _ _ _) as [ps|]; [|done].
  pose proof (addNextPartition_others config today ps dryRun sv t Ht) as Hadd.
  destruct (addNextPartition _ _ _ _ _ _ sv) as [r sv1]. unfold dropExpiredPartitions.
  match goal with |- context [drop_loop _ _ _ _ _ _ _ ?named sv1] =>
    pose proof (drop_loop_others config now dryRun named sv1 t Ht) as Hdrop;
    destruct (drop_loop _ _ _ _ _ _ _ named sv1) as [rs sv2]
  end. cbn [snd] in *. congruence.
Qed.

Lemma rotate_all_others configs today now dryRun sv t :
  t ∉ table <$> configs →
  tables (rotate_all refused attestations disk unreadable audit_lost configs today now dryRun sv).2 !! t = tables sv !! t.
Proof.
  revert sv. induction configs as [|c configs IH]; intros sv Ht; [done|]. cbn [rotate_all].
  cbn in Ht. rewrite not_elem_of_cons in Ht. destruct Ht as [Hc Ht].
  pose proof (rotateTable_others c today now dryRun sv t Hc) as Hone.
  destruct (rotateTable _ _ _ _ _ c _ _ _ sv) as [rs sv1]. specialize (IH sv1 Ht).
  destruct (rotate_all _ _ _ _ _ configs _ _ _ sv1) as [rs' sv2]. cbn [snd] in *. congruence.
Qed.

Lemma rotate_all_layout configs c today now pre ks sv :
  (∀ sv t, unreadable sv t = false) → NoDup (table <$> configs) → c ∈ configs →
  rotatable c today now pre ks → tables sv !! table c = Some (layout pre ks) →
  tables (rotate_all refused attestations disk unreadable audit_lost configs today now false sv).2 !! table c =
    Some (layout pre (rotated c today now ks)).
Proof.
  intros Hr Hnd Hc Hrot. revert sv. induction configs as [|c' configs IH]; intros sv Hps; [by apply not_elem_of_nil in Hc|].
  cbn in Hnd. apply NoDup_cons in Hnd as [Hc' Hnd]. cbn [rotate_all].
  destruct (rotateTable _ _ _ _ _ c' _ _ _ sv) as [rs sv1] eqn:E1.
  destruct (rotate_all _ _ _ _ _ configs _ _ _ sv1) as [rs' sv2] eqn:E2. cbn [snd].
  replace sv2 with (rotate_all refused attestations disk unreadable audit_lost configs today now false sv1).2 by (by rewrite E2).
  replace sv1 with (rotateTable refused attestations disk unreadable audit_lost c' today now false sv).2 by (by rewrite E1).
  apply elem_of_cons in Hc as [<-|Hc].
  - rewrite rotate_all_others by done. rewrite (rotateTable_layout c today now pre ks sv Hr Hrot Hps).
    apply lookup_insert_eq.
  - apply IH; [done..|]. rewrite rotateTable_others; [done|]. intros E. apply Hc'. rewrite <- E.
    by apply list_elem_of_fmap_2.
Qed.

(** ** What a drop needs *)

Lemma drop_loop_rows config now dryRun named sv :
  audit_rows sv `prefix_of` audit_rows (drop_loop refused attestations disk audit_lost config now dryRun named sv).2.
Proof.
  revert sv. induction named as [|p named IH]; intros sv; [done|]. cbn [drop_loop].
  pose proof (drop_one_rows config now dryRun p sv) as Hone.
  destruct (drop_one _ _ _ _ _ _ _ p sv) as [r sv1]. specialize (IH sv1).
  destruct (drop_loop _ _ _ _ _ _ _ named sv1) as [rs sv2]. cbn [snd] in *. by etransitivity.
Qed.

Lemma drop_loop_logged config now named sv p u :
  p ∈ named → dropped config now p = true → parsePartitionBoundary (PARTITION_DESCRIPTION p) = Some u →
  audit_lost (drop_row config p u) = false →
  drop_row config p u ∈ audit_rows (drop_loop refused attestations disk audit_lost config now false named sv).2.
Proof.
  intros Hp Hd Hu Hl. revert sv. induction named as [|p' named IH]; intros sv; [by apply not_elem_of_nil in Hp|].
  cbn [drop_loop]. pose proof (drop_one_logged config now p' sv u) as Hone.
  destruct (drop_one _ _ _ _ _ _ _ p' sv) as [r sv1]. pose proof (drop_loop_rows config now false named sv1) as Hrows.
  apply elem_of_cons in Hp as [<-|Hp].
  - destruct (drop_loop _ _ _ _ _ _ _ named sv1) as [rs sv2]. cbn [snd] in *.
    eapply elem_of_prefix; [by apply Hone|done].
  - specialize (IH Hp sv1). by destruct (drop_loop _ _ _ _ _ _ _ named sv1) as [rs sv2].
Qed.

Lemma sort_by_elem {A} (le : A → A → bool) l x : x ∈ sort_by le l → x ∈ l.
Proof.
  assert (Hins : ∀ y m, x ∈ insert_by le y m → x = y ∨ x ∈ m).
  { intros y m. induction m as [|z m IH]; cbn; [set_solver|]. destruct (le y z); set_solver. }
  induction l as [|y l IH]; [done|]. cbn. intros [->|H]%Hins; [by left|]. right. by apply IH.
Qed.

(** The partitions the drops work from: those of before, or these with the new one. *)
Lemma added_partitions config today ps dryRun sv :
  tables sv !! table config = Some ps →
  let r := addNextPartition refused audit_lost today config ps dryRun sv in
  (dryRun = true → tables r.2 = tables sv) ∧
  (tables r.2 = tables sv ∨
   (∃ new, (PARTITION_NAME new ∉ PARTITION_NAME <$> ps) ∧
      tables r.2 = <[table config := filter (λ p, p ≠ p_max) ps ++ [new; p_max]]> (tables sv))).
Proof.
  intros Hps. unfold addNextPartition. destruct (next_partition _ _) as [[name b]|]; [|by eauto].
  case_bool_decide as Hnew; [by eauto|]. destruct dryRun; [by eauto|]. split; [done|]. unfold execute.
  destruct (refused _); cbn; [left; apply writeAuditRow_tables|]. rewrite Hps.
  case_bool_decide; cbn; rewrite writeAuditRow_tables; [|by left]. right. by eexists (mkPart name _).
Qed.

Lemma drop_loop_dry config now named sv :
  tables (drop_loop refused attestations disk audit_lost config now true named sv).2 = tables sv.
Proof.
  revert sv. induction named as [|p named IH]; intros sv; [done|]. cbn [drop_loop].
  assert (Hone : tables (drop_one refused attestations disk audit_lost config now true p sv).2 = tables sv).
  { unfold drop_one. destruct (parsePartitionBoundary _) as [u|]; [|done].
    repeat case_match; try done; apply writeAuditRow_tables. }
  destruct (drop_one _ _ _ _ _ _ _ p sv) as [r sv1]. specialize (IH sv1).
  destruct (drop_loop _ _ _ _ _ _ _ named sv1) as [rs sv2]. cbn [snd] in *. congruence.
Qed.

Lemma not_survives config now named p :
  ¬ survives config now named p →
  ∃ q, q ∈ named ∧ dropped config now q = true ∧ PARTITION_NAME q = PARTITION_NAME p.
Proof.
  unfold survives. intros H%not_Forall_Exists; [|apply _]. apply Exists_exists in H as (q & Hq & H).
  cbn in H. exists q. destruct (dropped config now q), (decide (PARTITION_NAME p = PARTITION_NAME q)); naive_solver.
Qed.

Lemma kept_by_add (ps : list ISchemaPartition) new p :
  p ∈ ps → p ∈ filter (λ p, p ≠ p_max) ps ++ [new; p_max].
Proof.
  intros Hp. destruct (decide (p = p_max)) as [->|]; [set_solver|]. apply elem_of_app. left.
  by apply list_elem_of_filter.
Qed.

(** A named partition after the add that bears the name of an old one is an old one. *)
Lemma old_after_add ps new p q :
  p ∈ ps → PARTITION_NAME new ∉ (PARTITION_NAME <$> ps) → PARTITION_NAME q = PARTITION_NAME p →
  is_named q = true → q ∈ filter (λ p, p ≠ p_max) ps ++ [new; p_max] → q ∈ ps.
Proof.
  rewrite elem_of_app, list_elem_of_filter, !elem_of_cons. intros Hp Hnew E Hn [[_ Hq]|[->|[->|Hq]]];
    [done| |done|by apply not_elem_of_nil in Hq].
  exfalso. apply Hnew. rewrite E. by apply list_elem_of_fmap_2.
Qed.

Lemma lost_partition config today now dryRun sv ps p :
  tables sv !! table config = Some ps → p ∈ ps →
  let sv' := (rotateTable refused attestations disk unreadable audit_lost config today now dryRun sv).2 in
  (∀ ps', tables sv' !! table config = Some ps' → p ∉ ps') →
  dryRun = false ∧
  ∃ q, q ∈ ps ∧ PARTITION_NAME q = PARTITION_NAME p ∧ is_named q = true ∧ dropped config now q = true ∧
    ∀ u, parsePartitionBoundary (PARTITION_DESCRIPTION q) = Some u → audit_lost (drop_row config q u) = false →
      drop_row config q u ∈ audit_rows sv'.
Proof.
  intros Hps Hp. unfold rotateTable. destruct (fetchPartitions _ _ _) as [ps0|] eqn:Ef; cbn [snd].
  2: { intros H. by destruct (H ps Hps). }
  assert (ps0 = ps) as ->.
  { unfold fetchPartitions in Ef. rewrite Hps in Ef. repeat case_match; congruence. }
  destruct (added_partitions config today ps dryRun sv Hps) as [Hdry Hadd].
  destruct (addNextPartition _ _ _ _ _ _ sv) as [r sv1]. cbn [fst snd] in Hdry, Hadd.
  set (cur := if bool_decide _ then _ else _). unfold dropExpiredPartitions.
  set (named := sort_by _ _). destruct dryRun.
  { pose proof (drop_loop_dry config now named sv1) as Hl. destruct (drop_loop _ _ _ _ _ _ _ _ sv1) as [rs sv2].
    cbn [snd] in *. intros H. exfalso. apply (H ps); [|done]. by rewrite Hl, Hdry. }
  assert (∃ ps1, tables sv1 !! table config = Some ps1 ∧ p ∈ ps1 ∧
            ∀ q, q ∈ named → PARTITION_NAME q = PARTITION_NAME p → q ∈ ps) as (ps1 & Hps1 & Hp1 & Hin).
  { assert (Hcur : cur = ps ∨ tables sv1 !! table config = Some cur).
    { subst cur. case_bool_decide; [|by left]. unfold fetchPartitions. repeat case_match; cbn; auto. }
    destruct Hadd as [Ht|(new & Hnew & Ht)]; rewrite Ht in *.
    - exists ps. split_and!; [done..|]. intros q [_ Hq]%sort_by_elem%list_elem_of_filter _.
      destruct Hcur as [->|Hcur]; congruence.
    - rewrite lookup_insert_eq in *. eexists. split_and!; [done|by apply kept_by_add|].
      intros q [Hn Hq]%sort_by_elem%list_elem_of_filter E. destruct Hcur as [Hcur|Hcur]; [congruence|].
      apply (old_after_add ps new p); [done..|]. congruence. }
  pose proof (drop_loop_tables config now named ps1 sv1 Hps1) as Hl.
  pose proof (drop_loop_logged config now named sv1) as Hlog.
  destruct (drop_loop _ _ _ _ _ _ _ _ sv1) as [rs sv2]. cbn [snd] in *. intros H. split; [done|].
  specialize (H (filter (survives config now named) ps1)). rewrite Hl, lookup_insert_eq in H. specialize (H eq_refl).
  rewrite list_elem_of_filter in H. destruct (not_survives config now named p) as (q & Hq & Hd & E); [tauto|].
  exists q. split_and!; [by apply Hin|done| |done|].
  - by apply sort_by_elem, list_elem_of_filter in Hq as [? _].
  - intros u Hu Hlost. by apply Hlog.
Qed.

(** ** Tables no rotation changes *)

(** No named partition has a date for its upper boundary, and there is one, or no [p_max]. *)
Definition unusable (ps : list ISchemaPartition) : Prop :=
  Forall (λ p, is_named p = true → parsePartitionBoundary (PARTITION_DESCRIPTION p) = None) ps ∧
  (Exists (λ p, is_named p = true) ps ∨ p_max ∉ ps).

#[export] Instance unusable_dec ps : base.Decision (unusable ps).
Proof. unfold unusable. apply _. Defined.

Lemma newest_elem ps p : newest ps = Some p → p ∈ ps ∧ is_named p = true.
Proof.
  unfold newest. intros H. assert (Hp : p ∈ sort_by (λ a b, name_le b a) (filter (λ p, is_named p = true) ps)).
  { destruct (sort_by _ _); [done|]. injection H as ->. by left. }
  by apply sort_by_elem, list_elem_of_filter in Hp as [? ?].
Qed.

Lemma sort_by_nil {A} (le : A → A → bool) l : sort_by le l = [] → l = [].
Proof. destruct l as [|x l]; [done|]. cbn. destruct (foldr _ _ _); cbn; [done|]. by case_match. Qed.

Lemma newest_none ps : newest ps = None → Forall (λ p, is_named p = false) ps.
Proof.
  unfold newest. rewrite head_None. intros H%sort_by_nil. apply Forall_forall. intros p Hp.
  apply not_true_is_false. intros Hn. apply (not_elem_of_nil p). rewrite <- H. by apply list_elem_of_filter.
Qed.

Lemma add_unusable config today ps sv :
  unusable ps → in_calendar (month_of today) → tables sv !! table config = Some ps →
  let r := addNextPartition refused audit_lost today config ps false sv in
  res_action r.1 = add_error ∧ tables r.2 = tables sv.
Proof.
  intros [Hnone Hps'] Htoday Hps. unfold addNextPartition, next_partition.
  destruct (newest ps) as [p|] eqn:Hnew.
  { apply newest_elem in Hnew as [Hp Hn]. rewrite Forall_forall in Hnone. by rewrite (Hnone p Hp Hn). }
  apply newest_none in Hnew. destruct Hps' as [Hex|Hmax].
  { exfalso. apply Exists_exists in Hex as (p & Hp & Hn). rewrite Forall_forall in Hnew. by rewrite (Hnew p Hp) in Hn. }
  rewrite firstOfMonth_start. rewrite month_name_of, bool_decide_eq_false_2.
  - unfold execute. rewrite Hps, (bool_decide_eq_false_2 _ Hmax). destruct (refused _); cbn; by rewrite writeAuditRow_tables.
  - rewrite list_elem_of_fmap. intros (p & E & Hp). rewrite Forall_forall in Hnew.
    exact (unnamed_name p _ Htoday (Hnew p Hp) (eq_sym E)).
Qed.

Lemma drop_loop_undated config now dryRun named sv :
  Forall (λ p, parsePartitionBoundary (PARTITION_DESCRIPTION p) = None) named →
  drop_loop refused attestations disk audit_lost config now dryRun named sv = ([], sv).
Proof. induction 1 as [|p named Hp _ IH]; [done|]. cbn [drop_loop]. unfold drop_one. by rewrite Hp, IH. Qed.

Lemma rotateTable_unusable config today now ps sv :
  unusable ps → ps ≠ [] → unreadable sv (table config) = false → in_calendar (month_of today) →
  tables sv !! table config = Some ps →
  let r := rotateTable refused attestations disk unreadable audit_lost config today now false sv in
  res_action <$> r.1 = [add_error] ∧ tables r.2 = tables sv.
Proof.
  intros Hun Hne Hr Htoday Hps. unfold rotateTable, fetchPartitions. rewrite Hr, Hps. destruct ps as [|p0 ps0]; [done|].
  set (ps := p0 :: ps0) in *. destruct (add_unusable config today ps sv Hun Htoday Hps) as [Hact Ht].
  destruct (addNextPartition _ _ _ _ _ _ sv) as [r sv1]. cbn [fst snd] in *. rewrite bool_decide_eq_false_2 by congruence.
  unfold dropExpiredPartitions. rewrite drop_loop_undated.
  - cbn. by rewrite Hact.
  - apply Forall_forall. intros p [Hn Hp]%sort_by_elem%list_elem_of_filter. destruct Hun as [Hnone _].
    rewrite Forall_forall in Hnone. by apply Hnone.
Qed.

(** ** A rotation each month *)

Lemma registry_retention c : c ∈ TABLE_REGISTRY → 0 <= retentionMonths c.
Proof. revert c. apply Forall_forall, (bool_decide_unpack _). vm_compute. exact I. Qed.

Definition run (today : Z) (sv : Server) : Server :=
  (runPartitionRotation refused attestations disk unreadable audit_lost today None None false sv).2.

Lemma run_layout c today nowOverride only pre ks sv :
  c ∈ TABLE_REGISTRY → (∀ l, only = Some l → table c ∈ l) → (∀ sv t, unreadable sv t = false) →
  rotatable c today (default today nowOverride) pre ks → tables sv !! table c = Some (layout pre ks) →
  tables (runPartitionRotation refused attestations disk unreadable audit_lost today nowOverride only false sv).2
    !! table c = Some (layout pre (rotated c today (default today nowOverride) ks)).
Proof.
  intros Hc Honly Hr Hrot Hps. unfold runPartitionRotation.
  set (configs := match only with Some l => _ | None => _ end).
  assert (Hreg : NoDup (table <$> TABLE_REGISTRY)) by (apply (bool_decide_unpack _); vm_compute; exact I).
  assert (Hconf : c ∈ configs ∧ NoDup (table <$> configs)).
  { subst configs. destruct only as [l|]; [|done]. split; [apply list_elem_of_filter; auto|].
    eapply sublist_NoDup; [exact Hreg|]. apply fmap_sublist, sublist_filter. }
  destruct Hconf as [Hc' Hnd]. pose proof (rotate_all_layout configs c today _ pre ks sv Hr Hnd Hc' Hrot Hps) as H.
  by destruct (rotate_all _ _ _ _ _ _ _ _ _ _) as [rs sv'].
Qed.

Lemma seqZ_in_order lo n : FIRST_MONTH <= lo → lo + n <= FIRST_MONTH + MONTHS → in_order (seqZ lo n).
Proof.
  intros Hlo Hn. split.
  - clear. unfold seqZ. generalize (Z.to_nat n) as l. intros l. generalize 0%nat as a.
    induction l as [|l IH]; intros a; cbn; constructor; [apply IH|]. rewrite Forall_fmap. apply Forall_forall.
    intros j Hj%elem_of_seq. cbn. lia.
  - apply Forall_forall. intros k Hk%elem_of_seqZ. unfold in_calendar. lia.
Qed.

Lemma seqZ_snoc lo hi : lo <= hi → seqZ lo (hi - lo) ++ [hi] = seqZ lo (hi + 1 - lo).
Proof.
  intros H. replace (hi + 1 - lo) with ((hi - lo) + 1) by lia. rewrite seqZ_app by lia. apply f_equal.
  rewrite (seqZ_cons _ 1), seqZ_nil by done. f_equal. lia.
Qed.

Lemma last_seqZ lo hi : lo <= hi → last (seqZ lo (hi + 1 - lo)) = Some hi.
Proof. intros H. by rewrite <- seqZ_snoc, last_snoc. Qed.

Lemma filter_seqZ lo hi c : c <= hi → filter (λ k, (k <? c) = false) (seqZ lo (hi - lo)) = seqZ (Z.max lo c) (hi - Z.max lo c).
Proof.
  intros Hc. destruct (Z.le_gt_cases c lo) as [H|H].
  - rewrite Z.max_l by done. apply filter_keep, Forall_forall. intros k Hk%elem_of_seqZ. lia.
  - rewrite Z.max_r by lia. replace (hi - lo) with ((c - lo) + (hi - c)) by lia. rewrite seqZ_app by lia.
    rewrite filter_app, filter_none, filter_keep; [by replace (lo + (c - lo)) with c by lia|..];
      apply Forall_forall; intros k Hk%elem_of_seqZ; lia.
Qed.

(** Every statement is accepted, every day attested, and the disk has room. *)
Definition all_granted (config : TableConfig) : Prop :=
  (∀ sql, refused sql = None) ∧ (∀ d, gate attestations config d = attestation_ok) ∧
  (∀ name, disk (table config) name = disk_ok).

Lemma rotated_range config today lo hi :
  all_granted config → lo <= hi → month_of today <= hi → 0 <= retentionMonths config →
  rotated config today today (seqZ lo (hi + 1 - lo)) =
    seqZ (Z.max lo (month_of today - retentionMonths config))
      (hi + 2 - Z.max lo (month_of today - retentionMonths config)).
Proof.
  intros (Href & Hgate & Hdisk) Hlo Hm Hret. unfold rotated, added. rewrite Href. unfold next_month.
  rewrite (last_seqZ lo hi Hlo), seqZ_snoc by lia. replace (hi + 2) with (hi + 1 + 1) by lia.
  rewrite <- (filter_seqZ lo (hi + 1 + 1)) by lia. apply list_filter_iff. intros k. unfold expired.
  by rewrite Hgate, Hdisk, Href, !bool_decide_eq_true_2, !andb_true_r.
Qed.

(** The start of the range after runs in the months before [m']. *)
Lemma monthly_layout c pre ts m lo hi sv :
  c ∈ TABLE_REGISTRY → 0 <= retentionMonths c → (∀ sv t, unreadable sv t = false) → all_granted c → older pre →
  month_of <$> ts = seqZ m (Z.of_nat (length ts)) →
  FIRST_MONTH <= lo <= hi → m <= hi → FIRST_MONTH <= m - retentionMonths c →
  in_calendar (hi + Z.of_nat (length ts)) →
  tables sv !! table c = Some (layout pre (seqZ lo (hi + 1 - lo))) →
  let lo' := if bool_decide (ts = []) then lo else Z.max lo (m + Z.of_nat (length ts) - 1 - retentionMonths c) in
  tables (foldl (λ sv t, run t sv) sv ts) !! table c =
    Some (layout pre (seqZ lo' (hi + Z.of_nat (length ts) + 1 - lo'))).
Proof.
  intros Hc Hret Hr Hall Hpre. revert m lo hi sv. induction ts as [|t ts IH]; intros m lo hi sv Hts Hlo Hm Hcut Hcal Hps.
  { cbn. rewrite Hps. do 3 f_equal. lia. }
  cbn [length] in *. rewrite seqZ_cons in Hts by lia. injection Hts as Ht Hts.
  replace (Z.pred (Z.of_nat (S (length ts)))) with (Z.of_nat (length ts)) in Hts by lia.
  set (lo1 := Z.max lo (m - retentionMonths c)). cbn [foldl].
  assert (Hrun : tables (run t sv) !! table c = Some (layout pre (seqZ lo1 (hi + 1 + 1 - lo1)))).
  { unfold run. rewrite (run_layout c t None None pre (seqZ lo (hi + 1 - lo))); [|done..| |done].
    - cbn. rewrite rotated_range by (done || lia). subst lo1. rewrite Ht. do 3 f_equal. lia.
    - constructor; [done| |]; unfold in_calendar in *; cbn; [|lia].
      unfold next_month. rewrite last_seqZ, seqZ_snoc by lia. apply seqZ_in_order; lia. }
  cbv zeta. rewrite (IH (Z.succ m) lo1 (hi + 1) (run t sv) Hts); [|unfold in_calendar in *; lia..|exact Hrun].
  rewrite (bool_decide_eq_false_2 (t :: ts = [])) by done.
  do 2 f_equal. case_bool_decide as E; [rewrite E in *; cbn [length] in *|]; subst lo1; f_equal; lia.
Qed.
End effects.

(** ** Concrete servers *)

(** The table of the consent migration, of which no name has the form [p_YYYY_MM] and
    whose last partition is [pmax]. *)
Definition consent_log_partitions : list ISchemaPartition :=
  [ mkPart "p2026_05" "'2026-06-01'"; mkPart "p2026_06" "'2026-07-01'"; mkPart "p2026_07" "'2026-08-01'";
    mkPart "p2026_08" "'2026-09-01'"; mkPart "p2026_09" "'2026-10-01'"; mkPart "p2026_10" "'2026-11-01'";
    mkPart "p2026_11" "'2026-12-01'"; mkPart "p2026_12" "'2027-01-01'"; mkPart "p2027_01" "'2027-02-01'";
    mkPart "p2027_02" "'2027-03-01'"; mkPart "p2027_03" "'2027-04-01'"; mkPart "pmax" "MAXVALUE" ].

(** Of the queue migration: the boundaries are counts of days. *)
Definition queue_calls_partitions : list ISchemaPartition :=
  [ mkPart "p_2026_05" "740133"; mkPart "p_2026_06" "740163"; mkPart "p_2026_07" "740194"; p_max ].

Definition p_pre : ISchemaPartition := mkPart "p_pre" "'2026-05-01'".

(** May to August 2026. *)
Definition call_log_partitions : list ISchemaPartition := layout [p_pre] (seqZ 24316 4).

Definition demo_server : Server :=
  mkServer {[ "call_log" := call_log_partitions; "consent_log" := consent_log_partitions;
              "queue_calls" := queue_calls_partitions ]} [].

Definition call_log_config : TableConfig := mkConfig "call_log" "call_started" 48 false.
Definition consent_log_config : TableConfig := mkConfig "consent_log" "created_at" 84 true.

(** The 25th of July 2030, of June 2026 and of July 2026. *)
Definition july_2030 : Z := day_number 2030 7 25 * MS_PER_DAY.
Definition june_2026 : Z := day_number 2026 6 25 * MS_PER_DAY.
Definition july_2026 : Z := day_number 2026 7 25 * MS_PER_DAY.

Definition accepts (_ : Ddl) : option string := None.
Definition attested (_ _ : string) : result string Z := Ok 1.
Definition room : string → string → DiskCheckResult :=
  checkDiskFree (λ _ _, Ok (Some (1000000, 500000))) (Ok (4096, 1000)) (λ bytes, (bytes + 4) / 5).
Definition readable (_ : Server) (_ : string) : bool := false.
Definition kept (_ : AuditRowInput) : bool := false.

Lemma p_pre_older : older [p_pre].
Proof. constructor; [|constructor]. split; [reflexivity|discriminate]. Qed.

Lemma demo_rotatable : rotatable call_log_config july_2030 july_2030 [p_pre] (seqZ 24316 4).
Proof.
  constructor; [exact p_pre_older| |split; vm_compute; congruence].
  apply (seqZ_in_order 24316 5); vm_compute; congruence.
Qed.

Lemma demo_call_log : tables demo_server !! "call_log"%string = Some (layout [p_pre] (seqZ 24316 4)).
Proof. reflexivity. Qed.

Example queue_calls_unusable : unusable queue_calls_partitions.
Proof. apply (bool_decide_unpack _). vm_compute. exact I. Qed.

(** ** Properties *)

Section properties.
Variable refused : Ddl → option string.
Variable attestations : string → string → result string Z.
Variable disk : string → string → DiskCheckResult.
Variable unreadable : Server → string → bool.
Variable audit_lost : AuditRowInput → bool.

(** A rotation of the whole registry leaves each selected table that has a layout
    with exactly its old months and the one after the newest (the current one when it
    has none; none if the server refuses), less those that ended before the retention
    period, are attested where the table needs it, fit the disk and whose drop the server
    accepts; whatever state the other tables are in. *)
Theorem rotation_layout c today nowOverride only pre ks sv :
  c ∈ TABLE_REGISTRY → (∀ l, only = Some l → table c ∈ l) → (∀ sv t, unreadable sv t = false) →
  rotatable c today (default today nowOverride) pre ks → tables sv !! table c = Some (layout pre ks) →
  tables (runPartitionRotation refused attestations disk unreadable audit_lost today nowOverride only false sv).2
    !! table c = Some (layout pre (rotated refused attestations disk c today (default today nowOverride) ks)).
Proof. apply run_layout. Qed.

(** The rotation of a table never loses a partition unless it is a real run and a
    partition of that name had the form [p_YYYY_MM] and an upper boundary at or before
    the cutoff, its last day was attested if the table needs it, the disk check passed,
    and the drop was written to the audit log (unless the row was lost). *)
Theorem drop_requires_gates config today now dryRun sv ps p :
  tables sv !! table config = Some ps → p ∈ ps →
  let sv' := (rotateTable refused attestations disk unreadable audit_lost config today now dryRun sv).2 in
  (∀ ps', tables sv' !! table config = Some ps' → p ∉ ps') →
  dryRun = false ∧
  ∃ q u, q ∈ ps ∧ PARTITION_NAME q = PARTITION_NAME p ∧ is_named q = true ∧
    parsePartitionBoundary (PARTITION_DESCRIPTION q) = Some u ∧ u <= cutoff_of now config ∧
    (requireAttestation config = true →
       ∃ n, attestations (table config) (default EmptyString (lastDayOfWindow (toDateString u))) = Ok n ∧ 0 < n) ∧
    disk (table config) (PARTITION_NAME q) = disk_ok ∧
    (audit_lost (drop_row config q u) = false → drop_row config q u ∈ audit_rows sv').
Proof.
  intros Hps Hp sv' H. destruct (lost_partition refused attestations disk unreadable audit_lost config today now dryRun sv ps p Hps Hp H)
    as (Hdry & q & Hq & E & Hn & Hd & Hrow). split; [done|]. unfold dropped in Hd.
  destruct (parsePartitionBoundary (PARTITION_DESCRIPTION q)) as [u|] eqn:Hu; [|done].
  rewrite !andb_true_iff, !bool_decide_eq_true in Hd. destruct Hd as [[[Hcut Hgate] Hdisk] _].
  exists q, u. split_and!; [done..|lia| |done|by apply Hrow].
  intros Hreq. unfold gate, checkAttestation in Hgate. rewrite Hreq in Hgate.
  destruct (attestations _ _) as [n|]; [|by destruct (_ || _)]. exists n. split; [done|].
  destruct (Z.ltb_spec 0 n); [done|discriminate].
Qed.

(** A table none of whose named partitions has a date for its upper boundary, with a
    named partition or without one called [p_max], is stuck: each real run adds nothing,
    drops nothing and reports one error.  The migrations create such tables:
    [consent_log] names its partitions [p2026_05] and [pmax], [queue_calls] and
    [queue_log] divide on [TO_DAYS]. *)
Theorem rotation_stuck config today now ps sv :
  unusable ps → ps ≠ [] → unreadable sv (table config) = false → in_calendar (month_of today) →
  tables sv !! table config = Some ps →
  let r := rotateTable refused attestations disk unreadable audit_lost config today now false sv in
  res_action <$> r.1 = [add_error] ∧ tables r.2 = tables sv.
Proof. apply rotateTable_unusable. Qed.

(** C34: A run each month keeps a table ahead of its data.  Take a table of the registry
    whose partitions are the contiguous months [lo] to [hi], named p_YYYY_MM, with p_max
    last.  After runs in [n] successive months from [m], which is among them, with every
    statement accepted, every day attested, room on the disk and the schema readable, it
    has the months from the retention period's first (or [lo]) to [hi + n], hence one for
    the month after the last run.  A table laid out otherwise, such as [consent_log],
    [queue_calls] and [queue_log], is not divided at all ([rotation_stuck]). *)
Theorem monthly_rotations c pre ts m lo hi sv :
  c ∈ TABLE_REGISTRY → (∀ sv t, unreadable sv t = false) → all_granted refused attestations disk c → older pre →
  ts ≠ [] → month_of <$> ts = seqZ m (Z.of_nat (length ts)) →
  FIRST_MONTH <= lo <= m → m <= hi → FIRST_MONTH <= m - retentionMonths c →
  in_calendar (hi + Z.of_nat (length ts)) →
  tables sv !! table c = Some (layout pre (seqZ lo (hi + 1 - lo))) →
  let n := Z.of_nat (length ts) in
  let first := Z.max lo (m + n - 1 - retentionMonths c) in
  let sv' := foldl (λ sv t, run refused attestations disk unreadable audit_lost t sv) sv ts in
  tables sv' !! table c = Some (layout pre (seqZ first (hi + n + 1 - first))) ∧
  part (m + n) ∈ default [] (tables sv' !! table c).
Proof.
  intros Hc Hr Hall Hpre Hne Hts Hlo Hm Hcut Hcal Hps n first sv'.
  pose proof (monthly_layout refused attestations disk unreadable audit_lost c pre ts m lo hi sv Hc (registry_retention c Hc) Hr Hall Hpre Hts ltac:(lia) Hm Hcut Hcal Hps) as H. cbv zeta in H.
  rewrite (bool_decide_eq_false_2 _ Hne) in H. split; [exact H|]. subst sv'. rewrite H. cbn [from_option id].
  unfold layout. rewrite !elem_of_app. right. left. apply list_elem_of_fmap_2, elem_of_seqZ. subst first n.
  destruct ts; [done|]. cbn [length] in *. pose proof (registry_retention c Hc). lia.
Qed.
End properties.

Lemma rotation_layout_witness :
  tables (runPartitionRotation accepts attested room readable kept july_2030 None None false demo_server).2
    !! "call_log"%string = Some (layout [p_pre] (seqZ 24318 3)).
Proof.
  refine (eq_trans (rotation_layout accepts attested room readable kept call_log_config july_2030 None None [p_pre]
    (seqZ 24316 4) demo_server _ _ _ _ _) _).
  - by left.
  - discriminate.
  - reflexivity.
  - exact demo_rotatable.
  - exact demo_call_log.
  - vm_compute. reflexivity.
Defined.

Lemma drop_requires_gates_witness :
  let sv' := (rotateTable accepts attested room readable kept call_log_config july_2030 july_2030 false demo_server).2 in
  ∃ q u, PARTITION_NAME q = PARTITION_NAME (part 24316) ∧
    (kept (drop_row call_log_config q u) = false → drop_row call_log_config q u ∈ audit_rows sv').
Proof.
  destruct (drop_requires_gates accepts attested room readable kept call_log_config july_2030 july_2030 false
    demo_server call_log_partitions (part 24316)) as (_ & q & u & _ & E & _ & _ & _ & _ & _ & H).
  - reflexivity.
  - apply (bool_decide_unpack _). vm_compute. exact I.
  - intros ps' H. apply (f_equal (λ x, from_option (λ l, bool_decide (part 24316 ∈ l)) false x)) in H. cbn [from_option] in H.
    intros Hin. rewrite (bool_decide_eq_true_2 _ Hin) in H. revert H. clear Hin. vm_compute. discriminate.
  - exists q, u. exact (conj E H).
Defined.

Lemma rotation_stuck_witness :
  let r := rotateTable accepts attested room readable kept consent_log_config june_2026 june_2026 false demo_server in
  res_action <$> r.1 = [add_error] ∧ tables r.2 = tables demo_server.
Proof.
  apply (rotation_stuck accepts attested room readable kept consent_log_config june_2026 june_2026
    consent_log_partitions demo_server).
  - apply (bool_decide_unpack _). vm_compute. exact I.
  - discriminate.
  - reflexivity.
  - split; vm_compute; congruence.
  - reflexivity.
Defined.

Lemma monthly_rotations_witness :
  part 24319 ∈ default [] (tables (foldl (λ sv t, run accepts attested room readable kept t sv) demo_server
    [june_2026; july_2026]) !! "call_log"%string).
Proof.
  refine (proj2 (monthly_rotations accepts attested room readable kept call_log_config [p_pre] [june_2026; july_2026]
    24317 24316 24319 demo_server _ _ _ _ _ _ _ _ _ _ _)).
  - by left.
  - reflexivity.
  - split_and!; reflexivity.
  - exact p_pre_older.
  - discriminate.
  - vm_compute. reflexivity.
  - split; vm_compute; congruence.
  - vm_compute. congruence.
  - vm_compute. congruence.
  - split; vm_compute; congruence.
  - exact demo_call_log.
Defined.
