(* ===== verification/Rbac.v ===== *)
(** Role-based access control: the role/verb/grant matrix of
    [shared/types/src/rbac.ts], the scope predicates of
    [shared/auth/rbac/scope.ts], the decision function [Can] of
    [shared/auth/rbac/can.ts], the audit wrapper of [shared/auth/rbac/audit.ts]
    and the WebSocket map of [shared/auth/rbac/ws-op-map.ts].

    A verb is a constructor named after the source's string with [:] and [-]
    written [_]; [verb_name] gives the string back.  The matrix keeps the rows in
    the source's order, one list per role. *)

From S2P Require Import Prelude.

(** ** Roles *)

Inductive Role : Set := super_admin | admin | supervisor | agent | viewer | integrator.

#[export] Instance Role_eq_dec : EqDecision Role.
Proof. solve_decision. Defined.

Definition ROLES : list Role := [super_admin; admin; supervisor; agent; viewer; integrator].

Definition role_name (r : Role) : string :=
  match r with
  | super_admin => "super_admin" | admin => "admin" | supervisor => "supervisor"
  | agent => "agent" | viewer => "viewer" | integrator => "integrator"
  end.

Definition ROLE_HIERARCHY (r : Role) : Z :=
  match r with
  | super_admin => 100 | admin => 80 | supervisor => 60 | agent => 40
  | viewer => 0 | integrator => 0
  end.

Definition HIERARCHICAL_ROLES : list Role := [super_admin; admin; supervisor; agent].

(** ** Verbs *)

Inductive Verb : Set :=
  | auth_login
  | auth_logout
  | auth_me
  | auth_ws_token
  | call_dial
  | call_transfer
  | call_hangup
  | call_hold
  | call_listen
  | call_whisper
  | call_barge
  | lead_read
  | lead_edit
  | lead_create
  | lead_delete
  | lead_import
  | lead_export
  | lead_bulk_update
  | recording_list
  | recording_download
  | recording_delete
  | campaign_read
  | campaign_create
  | campaign_edit
  | campaign_delete
  | campaign_start
  | campaign_pause
  | carrier_read
  | carrier_edit
  | did_read
  | did_edit
  | ingroup_read
  | ingroup_edit
  | dnc_read
  | dnc_edit
  | dnc_bypass
  | audit_view
  | audit_export
  | user_read
  | user_create
  | user_edit
  | user_delete
  | user_role_change
  | user_rotate_sip
  | usergroup_read
  | usergroup_edit
  | status_read
  | status_edit
  | pause_code_read
  | pause_code_edit
  | script_read
  | script_edit
  | report_view
  | report_export
  | tenant_read
  | tenant_edit
  | sip_credentials_view
  | kek_rotate
  | wallboard_view
  | eavesdrop_any
  | callback_read
  | callback_edit
  | alert_read
  | alert_configure
  | list_read
  | list_write
  | list_delete
  | list_reset
  | list_purge
  | jobs_view
  | jobs_retry
  | jobs_drain
  | email_templates_read
  | email_templates_edit
  | voicemail_read
  | voicemail_manage
  | vmdrop_read
  | vmdrop_edit
  | callback_view_inbound_queue
  | scorecard_read
  | scorecard_create
  | scorecard_finalize
  | scorecard_template_edit
  | feedback_read
  | feedback_create
  | rnd_scrub
  | rnd_configure
  | rnd_override
  | number_pool_read
  | number_pool_edit
  | integration_sf_configure
  | integration_sf_click_to_dial
  | branded_calling_configure
  | branded_calling_register_did
  | integration_hs_configure
  | integration_hs_click_to_dial
  | infra_fs_node_read
  | infra_fs_node_edit.

(** The string the source uses for a verb. *)
Definition verb_name (v : Verb) : string :=
  match v with
  | auth_login => "auth:login"
  | auth_logout => "auth:logout"
  | auth_me => "auth:me"
  | auth_ws_token => "auth:ws-token"
  | call_dial => "call:dial"
  | call_transfer => "call:transfer"
  | call_hangup => "call:hangup"
  | call_hold => "call:hold"
  | call_listen => "call:listen"
  | call_whisper => "call:whisper"
  | call_barge => "call:barge"
  | lead_read => "lead:read"
  | lead_edit => "lead:edit"
  | lead_create => "lead:create"
  | lead_delete => "lead:delete"
  | lead_import => "lead:import"
  | lead_export => "lead:export"
  | lead_bulk_update => "lead:bulk_update"
  | recording_list => "recording:list"
  | recording_download => "recording:download"
  | recording_delete => "recording:delete"
  | campaign_read => "campaign:read"
  | campaign_create => "campaign:create"
  | campaign_edit => "campaign:edit"
  | campaign_delete => "campaign:delete"
  | campaign_start => "campaign:start"
  | campaign_pause => "campaign:pause"
  | carrier_read => "carrier:read"
  | carrier_edit => "carrier:edit"
  | did_read => "did:read"
  | did_edit => "did:edit"
  | ingroup_read => "ingroup:read"
  | ingroup_edit => "ingroup:edit"
  | dnc_read => "dnc:read"
  | dnc_edit => "dnc:edit"
  | dnc_bypass => "dnc:bypass"
  | audit_view => "audit:view"
  | audit_export => "audit:export"
  | user_read => "user:read"
  | user_create => "user:create"
  | user_edit => "user:edit"
  | user_delete => "user:delete"
  | user_role_change => "user:role-change"
  | user_rotate_sip => "user:rotate-sip"
  | usergroup_read => "usergroup:read"
  | usergroup_edit => "usergroup:edit"
  | status_read => "status:read"
  | status_edit => "status:edit"
  | pause_code_read => "pause-code:read"
  | pause_code_edit => "pause-code:edit"
  | script_read => "script:read"
  | script_edit => "script:edit"
  | report_view => "report:view"
  | report_export => "report:export"
  | tenant_read => "tenant:read"
  | tenant_edit => "tenant:edit"
  | sip_credentials_view => "sip:credentials:view"
  | kek_rotate => "kek:rotate"
  | wallboard_view => "wallboard:view"
  | eavesdrop_any => "eavesdrop:any"
  | callback_read => "callback:read"
  | callback_edit => "callback:edit"
  | alert_read => "alert:read"
  | alert_configure => "alert:configure"
  | list_read => "list:read"
  | list_write => "list:write"
  | list_delete => "list:delete"
  | list_reset => "list:reset"
  | list_purge => "list:purge"
  | jobs_view => "jobs:view"
  | jobs_retry => "jobs:retry"
  | jobs_drain => "jobs:drain"
  | email_templates_read => "email_templates:read"
  | email_templates_edit => "email_templates:edit"
  | voicemail_read => "voicemail:read"
  | voicemail_manage => "voicemail:manage"
  | vmdrop_read => "vmdrop:read"
  | vmdrop_edit => "vmdrop:edit"
  | callback_view_inbound_queue => "callback:view_inbound_queue"
  | scorecard_read => "scorecard:read"
  | scorecard_create => "scorecard:create"
  | scorecard_finalize => "scorecard:finalize"
  | scorecard_template_edit => "scorecard:template_edit"
  | feedback_read => "feedback:read"
  | feedback_create => "feedback:create"
  | rnd_scrub => "rnd:scrub"
  | rnd_configure => "rnd:configure"
  | rnd_override => "rnd:override"
  | number_pool_read => "number_pool:read"
  | number_pool_edit => "number_pool:edit"
  | integration_sf_configure => "integration:sf:configure"
  | integration_sf_click_to_dial => "integration:sf:click_to_dial"
  | branded_calling_configure => "branded_calling:configure"
  | branded_calling_register_did => "branded_calling:register_did"
  | integration_hs_configure => "integration:hs:configure"
  | integration_hs_click_to_dial => "integration:hs:click_to_dial"
  | infra_fs_node_read => "infra:fs_node:read"
  | infra_fs_node_edit => "infra:fs_node:edit"
  end.

Definition VERBS : list Verb :=
  [auth_login; auth_logout; auth_me; auth_ws_token; call_dial; call_transfer; call_hangup;
   call_hold; call_listen; call_whisper; call_barge; lead_read; lead_edit; lead_create;
   lead_delete; lead_import; lead_export; lead_bulk_update; recording_list;
   recording_download; recording_delete; campaign_read; campaign_create; campaign_edit;
   campaign_delete; campaign_start; campaign_pause; carrier_read; carrier_edit; did_read;
   did_edit; ingroup_read; ingroup_edit; dnc_read; dnc_edit; dnc_bypass; audit_view;
   audit_export; user_read; user_create; user_edit; user_delete; user_role_change;
   user_rotate_sip; usergroup_read; usergroup_edit; status_read; status_edit;
   pause_code_read; pause_code_edit; script_read; script_edit; report_view; report_export;
   tenant_read; tenant_edit; sip_credentials_view; kek_rotate; wallboard_view;
   eavesdrop_any; callback_read; callback_edit; alert_read; alert_configure; list_read;
   list_write; list_delete; list_reset; list_purge; jobs_view; jobs_retry; jobs_drain;
   email_templates_read; email_templates_edit; voicemail_read; voicemail_manage;
   vmdrop_read; vmdrop_edit; callback_view_inbound_queue; scorecard_read; scorecard_create;
   scorecard_finalize; scorecard_template_edit; feedback_read; feedback_create; rnd_scrub;
   rnd_configure; rnd_override; number_pool_read; number_pool_edit;
   integration_sf_configure; integration_sf_click_to_dial; branded_calling_configure;
   branded_calling_register_did; integration_hs_configure; integration_hs_click_to_dial;
   infra_fs_node_read; infra_fs_node_edit].

Definition verb_of_name (s : string) : option Verb :=
  List.find (λ v, String.eqb (verb_name v) s) VERBS.

Lemma verb_of_verb_name v : verb_of_name (verb_name v) = Some v.
Proof. destruct v; reflexivity. Qed.

#[export] Instance verb_name_inj : Inj (=) (=) verb_name.
Proof.
  intros v w H. pose proof (verb_of_verb_name v) as Hv.
  rewrite H, verb_of_verb_name in Hv. congruence.
Qed.

#[export] Instance Verb_eq_dec : EqDecision Verb.
Proof.
  refine (λ v w, cast_if (decide (verb_name v = verb_name w))); [by apply verb_name_inj|congruence].
Defined.

Lemma elem_of_VERBS v : In v VERBS.
Proof.
  pose proof (verb_of_verb_name v) as H. unfold verb_of_name in H.
  by apply List.find_some in H as [? _].
Qed.

(** ** Scopes, grants and the matrix *)

Inductive Scope : Set := tenant_scope | group_scope | own_scope | self_scope.

#[export] Instance Scope_eq_dec : EqDecision Scope.
Proof. solve_decision. Defined.

(** [sensitive?: true] of the source: an absent field is [false]. *)
Record Grant : Set := mkGrant { scope : Scope; sensitive : bool }.

#[export] Instance Grant_eq_dec : EqDecision Grant.
Proof. solve_decision. Defined.

Definition plain (s : Scope) : Grant := mkGrant s false.
Definition sens (s : Scope) : Grant := mkGrant s true.

Definition SENSITIVE_VERBS : list Verb :=
  [call_listen; call_whisper; call_barge; lead_import; lead_export; lead_bulk_update;
   recording_download; recording_delete; dnc_edit; dnc_bypass; audit_export; user_delete;
   user_role_change; user_rotate_sip; campaign_delete; report_export; tenant_edit;
   sip_credentials_view; kek_rotate; eavesdrop_any; list_reset; list_purge; list_delete;
   jobs_drain; scorecard_finalize; scorecard_template_edit; rnd_configure; rnd_override;
   branded_calling_configure; branded_calling_register_did].

Definition RAW_MATRIX_super_admin : list (Verb * Grant) :=
  [(auth_login, plain tenant_scope);
   (auth_logout, plain tenant_scope);
   (auth_me, plain tenant_scope);
   (auth_ws_token, plain tenant_scope);
   (call_dial, plain tenant_scope);
   (call_transfer, plain tenant_scope);
   (call_hangup, plain tenant_scope);
   (call_hold, plain tenant_scope);
   (call_listen, sens tenant_scope);
   (call_whisper, sens tenant_scope);
   (call_barge, sens tenant_scope);
   (lead_read, plain tenant_scope);
   (lead_edit, plain tenant_scope);
   (lead_create, plain tenant_scope);
   (lead_delete, plain tenant_scope);
   (lead_import, sens tenant_scope);
   (lead_export, sens tenant_scope);
   (lead_bulk_update, sens tenant_scope);
   (recording_list, plain tenant_scope);
   (recording_download, sens tenant_scope);
   (recording_delete, sens tenant_scope);
   (campaign_read, plain tenant_scope);
   (campaign_create, plain tenant_scope);
   (campaign_edit, plain tenant_scope);
   (campaign_delete, sens tenant_scope);
   (campaign_start, plain tenant_scope);
   (campaign_pause, plain tenant_scope);
   (carrier_read, plain tenant_scope);
   (carrier_edit, plain tenant_scope);
   (did_read, plain tenant_scope);
   (did_edit, plain tenant_scope);
   (ingroup_read, plain tenant_scope);
   (ingroup_edit, plain tenant_scope);
   (dnc_read, plain tenant_scope);
   (dnc_edit, sens tenant_scope);
   (dnc_bypass, sens tenant_scope);
   (audit_view, plain tenant_scope);
   (audit_export, sens tenant_scope);
   (user_read, plain tenant_scope);
   (user_create, plain tenant_scope);
   (user_edit, plain tenant_scope);
   (user_delete, sens tenant_scope);
   (user_role_change, sens tenant_scope);
   (user_rotate_sip, sens tenant_scope);
   (usergroup_read, plain tenant_scope);
   (usergroup_edit, plain tenant_scope);
   (status_read, plain tenant_scope);
   (status_edit, plain tenant_scope);
   (pause_code_read, plain tenant_scope);
   (pause_code_edit, plain tenant_scope);
   (script_read, plain tenant_scope);
   (script_edit, plain tenant_scope);
   (report_view, plain tenant_scope);
   (report_export, sens tenant_scope);
   (tenant_read, plain tenant_scope);
   (tenant_edit, sens tenant_scope);
   (sip_credentials_view, sens tenant_scope);
   (kek_rotate, sens tenant_scope);
   (wallboard_view, plain tenant_scope);
   (eavesdrop_any, sens tenant_scope);
   (callback_read, plain tenant_scope);
   (callback_edit, plain tenant_scope);
   (alert_read, plain tenant_scope);
   (alert_configure, plain tenant_scope);
   (list_read, plain tenant_scope);
   (list_write, plain tenant_scope);
   (list_delete, sens tenant_scope);
   (list_reset, sens tenant_scope);
   (list_purge, sens tenant_scope);
   (jobs_view, plain tenant_scope);
   (jobs_retry, plain tenant_scope);
   (jobs_drain, sens tenant_scope);
   (email_templates_read, plain tenant_scope);
   (email_templates_edit, plain tenant_scope);
   (voicemail_read, plain tenant_scope);
   (voicemail_manage, plain tenant_scope);
   (vmdrop_read, plain tenant_scope);
   (vmdrop_edit, plain tenant_scope);
   (callback_view_inbound_queue, plain tenant_scope);
   (scorecard_read, plain tenant_scope);
   (scorecard_create, plain tenant_scope);
   (scorecard_finalize, sens tenant_scope);
   (scorecard_template_edit, sens tenant_scope);
   (feedback_read, plain tenant_scope);
   (feedback_create, plain tenant_scope);
   (rnd_scrub, plain tenant_scope);
   (rnd_configure, sens tenant_scope);
   (rnd_override, sens tenant_scope);
   (number_pool_read, plain tenant_scope);
   (number_pool_edit, plain tenant_scope);
   (integration_sf_configure, plain tenant_scope);
   (integration_sf_click_to_dial, plain tenant_scope);
   (branded_calling_configure, sens tenant_scope);
   (branded_calling_register_did, sens tenant_scope);
   (integration_hs_configure, plain tenant_scope);
   (integration_hs_click_to_dial, plain tenant_scope);
   (infra_fs_node_read, plain tenant_scope);
   (infra_fs_node_edit, plain tenant_scope)].

Definition RAW_MATRIX_admin : list (Verb * Grant) :=
  [(auth_login, plain tenant_scope);
   (auth_logout, plain tenant_scope);
   (auth_me, plain tenant_scope);
   (auth_ws_token, plain tenant_scope);
   (call_dial, plain tenant_scope);
   (call_transfer, plain tenant_scope);
   (call_hangup, plain tenant_scope);
   (call_hold, plain tenant_scope);
   (call_listen, sens tenant_scope);
   (call_whisper, sens tenant_scope);
   (call_barge, sens tenant_scope);
   (lead_read, plain tenant_scope);
   (lead_edit, plain tenant_scope);
   (lead_create, plain tenant_scope);
   (lead_delete, plain tenant_scope);
   (lead_import, sens tenant_scope);
   (lead_export, sens tenant_scope);
   (lead_bulk_update, sens tenant_scope);
   (recording_list, plain tenant_scope);
   (recording_download, sens tenant_scope);
   (recording_delete, sens tenant_scope);
   (campaign_read, plain tenant_scope);
   (campaign_create, plain tenant_scope);
   (campaign_edit, plain tenant_scope);
   (campaign_delete, sens tenant_scope);
   (campaign_start, plain tenant_scope);
   (campaign_pause, plain tenant_scope);
   (carrier_read, plain tenant_scope);
   (carrier_edit, plain tenant_scope);
   (did_read, plain tenant_scope);
   (did_edit, plain tenant_scope);
   (ingroup_read, plain tenant_scope);
   (ingroup_edit, plain tenant_scope);
   (dnc_read, plain tenant_scope);
   (dnc_edit, sens tenant_scope);
   (audit_view, plain tenant_scope);
   (user_read, plain tenant_scope);
   (user_create, plain tenant_scope);
   (user_edit, plain tenant_scope);
   (user_delete, sens tenant_scope);
   (user_role_change, sens tenant_scope);
   (user_rotate_sip, sens tenant_scope);
   (usergroup_read, plain tenant_scope);
   (usergroup_edit, plain tenant_scope);
   (status_read, plain tenant_scope);
   (status_edit, plain tenant_scope);
   (pause_code_read, plain tenant_scope);
   (pause_code_edit, plain tenant_scope);
   (script_read, plain tenant_scope);
   (script_edit, plain tenant_scope);
   (report_view, plain tenant_scope);
   (report_export, sens tenant_scope);
   (tenant_read, plain tenant_scope);
   (wallboard_view, plain tenant_scope);
   (eavesdrop_any, sens tenant_scope);
   (callback_read, plain tenant_scope);
   (callback_edit, plain tenant_scope);
   (alert_read, plain tenant_scope);
   (alert_configure, plain tenant_scope);
   (list_read, plain tenant_scope);
   (list_write, plain tenant_scope);
   (list_delete, sens tenant_scope);
   (list_reset, sens tenant_scope);
   (list_purge, sens tenant_scope);
   (jobs_view, plain tenant_scope);
   (jobs_retry, plain tenant_scope);
   (email_templates_read, plain tenant_scope);
   (email_templates_edit, plain tenant_scope);
   (voicemail_read, plain tenant_scope);
   (voicemail_manage, plain tenant_scope);
   (vmdrop_read, plain tenant_scope);
   (vmdrop_edit, plain tenant_scope);
   (callback_view_inbound_queue, plain tenant_scope);
   (scorecard_read, plain tenant_scope);
   (scorecard_create, plain tenant_scope);
   (scorecard_finalize, sens tenant_scope);
   (scorecard_template_edit, sens tenant_scope);
   (feedback_read, plain tenant_scope);
   (feedback_create, plain tenant_scope);
   (rnd_scrub, plain tenant_scope);
   (rnd_configure, sens tenant_scope);
   (number_pool_read, plain tenant_scope);
   (number_pool_edit, plain tenant_scope);
   (integration_sf_configure, plain tenant_scope);
   (integration_sf_click_to_dial, plain tenant_scope);
   (branded_calling_configure, sens tenant_scope);
   (branded_calling_register_did, sens tenant_scope);
   (integration_hs_configure, plain tenant_scope);
   (integration_hs_click_to_dial, plain tenant_scope);
   (infra_fs_node_read, plain tenant_scope)].

Definition RAW_MATRIX_supervisor : list (Verb * Grant) :=
  [(auth_login, plain tenant_scope);
   (auth_logout, plain tenant_scope);
   (auth_me, plain tenant_scope);
   (auth_ws_token, plain tenant_scope);
   (call_dial, plain tenant_scope);
   (call_transfer, plain tenant_scope);
   (call_hangup, plain tenant_scope);
   (call_hold, plain tenant_scope);
   (call_listen, sens group_scope);
   (call_whisper, sens group_scope);
   (call_barge, sens group_scope);
   (lead_read, plain group_scope);
   (lead_edit, plain group_scope);
   (lead_export, sens group_scope);
   (recording_list, plain group_scope);
   (recording_download, sens group_scope);
   (campaign_read, plain group_scope);
   (campaign_start, plain group_scope);
   (campaign_pause, plain group_scope);
   (ingroup_read, plain group_scope);
   (dnc_read, plain tenant_scope);
   (user_read, plain group_scope);
   (user_edit, plain group_scope);
   (user_rotate_sip, sens self_scope);
   (usergroup_read, plain group_scope);
   (status_read, plain tenant_scope);
   (pause_code_read, plain tenant_scope);
   (script_read, plain tenant_scope);
   (report_view, plain group_scope);
   (report_export, sens group_scope);
   (wallboard_view, plain group_scope);
   (eavesdrop_any, sens group_scope);
   (callback_read, plain group_scope);
   (callback_edit, plain group_scope);
   (alert_read, plain group_scope);
   (list_read, plain group_scope);
   (jobs_view, plain tenant_scope);
   (email_templates_read, plain tenant_scope);
   (voicemail_read, plain group_scope);
   (vmdrop_read, plain tenant_scope);
   (callback_view_inbound_queue, plain group_scope);
   (scorecard_read, plain group_scope);
   (scorecard_create, plain group_scope);
   (scorecard_finalize, sens group_scope);
   (feedback_read, plain group_scope);
   (feedback_create, plain group_scope);
   (number_pool_read, plain tenant_scope);
   (integration_sf_click_to_dial, plain group_scope);
   (integration_hs_click_to_dial, plain tenant_scope)].

Definition RAW_MATRIX_agent : list (Verb * Grant) :=
  [(auth_login, plain tenant_scope);
   (auth_logout, plain tenant_scope);
   (auth_me, plain tenant_scope);
   (auth_ws_token, plain tenant_scope);
   (call_dial, plain own_scope);
   (call_transfer, plain own_scope);
   (call_hangup, plain own_scope);
   (call_hold, plain own_scope);
   (lead_read, plain own_scope);
   (lead_edit, plain own_scope);
   (recording_list, plain own_scope);
   (campaign_read, plain group_scope);
   (dnc_read, plain tenant_scope);
   (user_read, plain self_scope);
   (user_edit, plain self_scope);
   (user_rotate_sip, sens self_scope);
   (status_read, plain tenant_scope);
   (pause_code_read, plain tenant_scope);
   (script_read, plain group_scope);
   (callback_read, plain own_scope);
   (callback_edit, plain own_scope);
   (voicemail_read, plain own_scope);
   (scorecard_read, plain own_scope);
   (feedback_read, plain own_scope);
   (integration_sf_click_to_dial, plain own_scope);
   (integration_hs_click_to_dial, plain tenant_scope)].

Definition RAW_MATRIX_viewer : list (Verb * Grant) :=
  [(auth_login, plain tenant_scope);
   (auth_logout, plain tenant_scope);
   (auth_me, plain tenant_scope);
   (lead_read, plain tenant_scope);
   (lead_export, sens tenant_scope);
   (recording_list, plain tenant_scope);
   (recording_download, sens tenant_scope);
   (campaign_read, plain tenant_scope);
   (carrier_read, plain tenant_scope);
   (did_read, plain tenant_scope);
   (ingroup_read, plain tenant_scope);
   (dnc_read, plain tenant_scope);
   (audit_view, plain tenant_scope);
   (audit_export, sens tenant_scope);
   (user_read, plain tenant_scope);
   (usergroup_read, plain tenant_scope);
   (status_read, plain tenant_scope);
   (pause_code_read, plain tenant_scope);
   (script_read, plain tenant_scope);
   (report_view, plain tenant_scope);
   (report_export, sens tenant_scope);
   (tenant_read, plain self_scope);
   (wallboard_view, plain tenant_scope);
   (callback_read, plain tenant_scope);
   (alert_read, plain tenant_scope);
   (list_read, plain tenant_scope);
   (voicemail_read, plain tenant_scope);
   (scorecard_read, plain tenant_scope);
   (feedback_read, plain tenant_scope);
   (number_pool_read, plain tenant_scope)].

Definition RAW_MATRIX_integrator : list (Verb * Grant) :=
  [(auth_me, plain tenant_scope)].

Definition RAW_MATRIX (r : Role) : list (Verb * Grant) :=
  match r with
  | super_admin => RAW_MATRIX_super_admin
  | admin => RAW_MATRIX_admin
  | supervisor => RAW_MATRIX_supervisor
  | agent => RAW_MATRIX_agent
  | viewer => RAW_MATRIX_viewer
  | integrator => RAW_MATRIX_integrator
  end.

(** [ROLE_VERBS[role].get(verb)]: the [Map] built from the row's entries. *)
Definition ROLE_VERBS (r : Role) (v : Verb) : option Grant :=
  snd <$> List.find (λ e, bool_decide (e.1 = v)) (RAW_MATRIX r).

Definition ROLE_PERMISSIONS (r : Role) : list Verb := (RAW_MATRIX r).*1.

Definition roleAtLeast (have required : Role) : bool :=
  if negb (bool_decide (have ∈ HIERARCHICAL_ROLES)) || negb (bool_decide (required ∈ HIERARCHICAL_ROLES))
  then bool_decide (have = required)
  else (ROLE_HIERARCHY required <=? ROLE_HIERARCHY have)%Z.

Definition hasPermission (r : Role) (perm : Verb) : bool := bool_decide (is_Some (ROLE_VERBS r perm)).

Definition permissionsFor (r : Role) : list Verb := ROLE_PERMISSIONS r.

Definition isRole (s : string) : bool := existsb (String.eqb s) (role_name <$> ROLES).

(** ** Decisions: [can.ts] and [scope.ts] *)

(** [bigint[] | '*'] *)
Inductive Campaigns : Set := AllCampaigns | CampaignList (ids : list Z).

Record AuthContext : Set := mkAuth {
  uid : Z;
  auth_tenantId : Z;
  role : Role;
  userGroupId : option Z;
  allowedCampaigns : Campaigns;
  perms : option (list Verb);
  jti : string;
  totpVerified : option bool;
  active : option bool;
}.

Record ScopeContext : Set := mkScope {
  sc_tenantId : option Z;
  campaignId : option Z;
  ownerUserId : option Z;
  assignedTo : option (list Z);
  targetUserId : option Z;
  entityId : option Z;
}.

Inductive DenyReason : Set :=
  | no_grant | inactive_user | tenant_mismatch | scope_group | scope_own | scope_self
  | integrator_key_lacks_perm | totp_required_not_verified | cross_tenant_not_allowed
  | system_error.

Inductive Decision : Set :=
  | Allow (is_sensitive : bool)
  | Deny (reason : DenyReason).

Definition allowed (d : Decision) : bool := match d with Allow _ => true | Deny _ => false end.

Definition passGroupScope (auth : AuthContext) (sc : ScopeContext) : bool :=
  match campaignId sc with
  | None => false
  | Some c =>
      match allowedCampaigns auth with
      | AllCampaigns => true
      | CampaignList l => bool_decide (c ∈ l)
      end
  end.

Definition passOwnScope (auth : AuthContext) (sc : ScopeContext) : bool :=
  if bool_decide (ownerUserId sc = Some (uid auth)) then true
  else match assignedTo sc with
       | Some l => if bool_decide (uid auth ∈ l) then true else false
       | None => false
       end.

Definition passSelfScope (auth : AuthContext) (sc : ScopeContext) : bool :=
  bool_decide (targetUserId sc = Some (uid auth)).

(** Steps 5 to 7 of [Can]: the matrix lookup and the scope predicate. *)
Definition Can_matrix (auth : AuthContext) (verb : Verb) (sc : ScopeContext) : Decision :=
  match ROLE_VERBS (role auth) verb with
  | None => Deny no_grant
  | Some g =>
      match scope g with
      | tenant_scope => Allow (sensitive g)
      | group_scope => if passGroupScope auth sc then Allow (sensitive g) else Deny scope_group
      | own_scope => if passOwnScope auth sc then Allow (sensitive g) else Deny scope_own
      | self_scope => if passSelfScope auth sc then Allow (sensitive g) else Deny scope_self
      end
  end.

(** Nothing in the body throws on values of these types, so the source's
    [catch] (reason [system_error]) has no counterpart. *)
Definition Can (auth : AuthContext) (verb : Verb) (sc : ScopeContext) : Decision :=
  if match sc_tenantId sc with
     | Some t => negb (bool_decide (auth_tenantId auth = t))
     | None => false
     end
  then Deny tenant_mismatch
  else if bool_decide (active auth = Some false) then Deny inactive_user
  else if bool_decide (role auth = integrator) then
    if match perms auth with Some ps => bool_decide (verb ∈ ps) | None => false end
    then Allow (bool_decide (verb ∈ SENSITIVE_VERBS))
    else Deny integrator_key_lacks_perm
  else Can_matrix auth verb sc.

(** ** Audit rows: [audit.ts] *)

Record ScopeAudit : Set := mkScopeAudit {
  sa_tenantId : option string;
  sa_campaignId : option string;
  sa_ownerUserId : option string;
  sa_targetUserId : option string;
  sa_entityId : option string;
}.

Record ActorAudit : Set := mkActorAudit {
  aa_role : Role;
  aa_uid : string;
  aa_userGroupId : option string;
}.

Inductive AfterJson : Set :=
  | DeniedJson (verb : Verb) (scope : ScopeAudit) (reason : DenyReason) (actor : ActorAudit)
               (matrix_version : string)
  | SensitiveJson (verb : Verb) (scope : ScopeAudit) (actor : ActorAudit) (matrix_version : string)
  | SystemErrorJson (verb : Verb) (detail : string) (matrix_version : string).

Record AuditRow : Set := mkAuditRow {
  action : string;
  actorId : option Z;
  row_tenantId : option Z;
  afterJson : AfterJson;
}.

Definition scopeForAudit (sc : ScopeContext) : ScopeAudit :=
  mkScopeAudit (zs <$> sc_tenantId sc) (zs <$> campaignId sc) (zs <$> ownerUserId sc)
    (zs <$> targetUserId sc) (zs <$> entityId sc).

Definition actorForAudit (auth : AuthContext) : ActorAudit :=
  mkActorAudit (role auth) (zs (uid auth)) (zs <$> userGroupId auth).

(** The contract of the caller-supplied [AuditWriter]: [append] either throws or
    adds its row at the end of the log. *)
Class AuditWriter (W : Type) := {
  append : W → AuditRow → result string W;
  log_of : W → list AuditRow;
  append_log w row w' : append w row = Ok w' → log_of w' = log_of w ++ [row];
}.

Section audit.
Context {W : Type} `{AuditWriter W} (MATRIX_VERSION : string).

Definition auditDeny (writer : W) (auth : AuthContext) (verb : Verb) (sc : ScopeContext)
    (reason : DenyReason) : result string W :=
  append writer
    (mkAuditRow "rbac.denied" (Some (uid auth)) (Some (auth_tenantId auth))
       (DeniedJson verb (scopeForAudit sc) reason (actorForAudit auth) MATRIX_VERSION)).

Definition auditSensitiveAllow (writer : W) (auth : AuthContext) (verb : Verb)
    (sc : ScopeContext) : result string W :=
  append writer
    (mkAuditRow "rbac.allowed_sensitive" (Some (uid auth)) (Some (auth_tenantId auth))
       (SensitiveJson verb (scopeForAudit sc) (actorForAudit auth) MATRIX_VERSION)).

Definition auditSystemError (writer : W) (auth : AuthContext) (verb : Verb)
    (detail : string) : result string W :=
  append writer
    (mkAuditRow "rbac.system_error" (Some (uid auth)) (Some (auth_tenantId auth))
       (SystemErrorJson verb detail MATRIX_VERSION)).

Definition auditDecision (writer : W) (auth : AuthContext) (verb : Verb) (sc : ScopeContext)
    (decision : Decision) : result string (Decision * W) :=
  match decision with
  | Deny reason => w ← auditDeny writer auth verb sc reason; mret (decision, w)
  | Allow true => w ← auditSensitiveAllow writer auth verb sc; mret (decision, w)
  | Allow false => mret (decision, writer)
  end.
End audit.

(** A writer over an in-memory log that is up or down. *)
#[export] Instance list_writer : AuditWriter (bool * list AuditRow).
Proof.
  refine {| append (w : bool * list AuditRow) row :=
              if w.1 then Ok (w.1, w.2 ++ [row]) else Err "audit_down"%string;
            log_of := snd |}.
  intros [[] l] row w' Happ; cbn in Happ; [by injection Happ as <-|done].
Defined.

(** ** WebSocket operations: [ws-op-map.ts] *)

Definition WS_OP_TO_VERB : list (string * Verb) :=
  [("agent.pause", status_edit);
   ("agent.unpause", status_edit);
   ("agent.ready", status_edit);
   ("agent.not_ready", status_edit);
   ("call.dial", call_dial);
   ("call.transfer", call_transfer);
   ("call.hangup", call_hangup);
   ("call.hold", call_hold);
   ("call.unhold", call_hold);
   ("call.listen", call_listen);
   ("call.whisper", call_whisper);
   ("call.barge", call_barge);
   ("call.eavesdrop", eavesdrop_any);
   ("wallboard.subscribe", wallboard_view);
   ("callback.claim", callback_edit);
   ("callback.release", callback_edit)].

(** ** Facts about the matrix, by evaluation over every row *)

Lemma matrix_lookup r v g : In (v, g) (RAW_MATRIX r) ↔ ROLE_VERBS r v = Some g.
Proof.
  split.
  - assert (H : forallb (λ r, forallb (λ e, bool_decide (ROLE_VERBS r e.1 = Some e.2)) (RAW_MATRIX r))
                  ROLES = true) by (vm_compute; reflexivity).
    rewrite forallb_forall in H. specialize (H r ltac:(destruct r; cbn; tauto)).
    rewrite forallb_forall in H. intros Hin. apply H in Hin.
    by apply bool_decide_eq_true in Hin.
  - unfold ROLE_VERBS. intros Hf. destruct (List.find _ _) as [[w h]|] eqn:E; [|done].
    apply List.find_some in E as [Hin Hw]. cbn in *. apply bool_decide_eq_true in Hw.
    congruence.
Qed.

(** The [sensitive] flags of the matrix are exactly the catalog. *)
Lemma matrix_sensitive r v g :
  ROLE_VERBS r v = Some g → sensitive g = bool_decide (v ∈ SENSITIVE_VERBS).
Proof.
  assert (H : forallb (λ r, forallb (λ e, Bool.eqb (sensitive e.2) (bool_decide (e.1 ∈ SENSITIVE_VERBS)))
                              (RAW_MATRIX r)) ROLES = true) by (vm_compute; reflexivity).
  rewrite forallb_forall in H. specialize (H r ltac:(destruct r; cbn; tauto)).
  rewrite forallb_forall in H. rewrite <- matrix_lookup. intros Hin%H.
  by apply Bool.eqb_prop in Hin.
Qed.

Lemma hierarchy_permissions :
  forallb (λ have, forallb (λ required, implb (roleAtLeast have required)
    (forallb (λ v, implb (hasPermission required v) (hasPermission have v)) VERBS)) ROLES) ROLES = true.
Proof. vm_compute. reflexivity. Qed.

Lemma admin_tenant_scope r v g :
  r = admin ∨ r = super_admin → ROLE_VERBS r v = Some g → scope g = tenant_scope.
Proof.
  assert (H : forallb (λ e, bool_decide (scope e.2 = tenant_scope))
                (RAW_MATRIX admin ++ RAW_MATRIX super_admin) = true) by (vm_compute; reflexivity).
  rewrite forallb_forall in H. rewrite <- matrix_lookup. intros Hr Hin.
  refine (proj1 (bool_decide_eq_true _) (H (v, g) (proj2 (in_app_iff _ _ _) _))).
  destruct Hr as [->| ->]; auto.
Qed.

Lemma hasPermission_spec r v : hasPermission r v = true ↔ ∃ g, ROLE_VERBS r v = Some g.
Proof. apply bool_decide_eq_true. Qed.

(** ** The authorization policy, as a relation *)

Definition scope_holds (s : Scope) (auth : AuthContext) (sc : ScopeContext) : Prop :=
  match s with
  | tenant_scope => True
  | group_scope => ∃ c, campaignId sc = Some c ∧
      (allowedCampaigns auth = AllCampaigns ∨ ∃ l, allowedCampaigns auth = CampaignList l ∧ c ∈ l)
  | own_scope => ownerUserId sc = Some (uid auth) ∨ ∃ l, assignedTo sc = Some l ∧ uid auth ∈ l
  | self_scope => targetUserId sc = Some (uid auth)
  end.

Inductive Granted (auth : AuthContext) (v : Verb) (sc : ScopeContext) : Prop :=
  | Granted_by_key ps :
      role auth = integrator → perms auth = Some ps → v ∈ ps → Granted auth v sc
  | Granted_by_role g :
      role auth ≠ integrator → In (v, g) (RAW_MATRIX (role auth)) →
      scope_holds (scope g) auth sc → Granted auth v sc.

Definition same_tenant (auth : AuthContext) (sc : ScopeContext) : Prop :=
  ∀ t, sc_tenantId sc = Some t → t = auth_tenantId auth.

Lemma passGroupScope_spec auth sc :
  passGroupScope auth sc = true ↔ scope_holds group_scope auth sc.
Proof.
  unfold passGroupScope; cbn. destruct (campaignId sc) as [c|]; [|naive_solver].
  destruct (allowedCampaigns auth) as [|l]; [naive_solver|].
  rewrite bool_decide_eq_true. naive_solver.
Qed.

Lemma passOwnScope_spec auth sc :
  passOwnScope auth sc = true ↔ scope_holds own_scope auth sc.
Proof.
  unfold passOwnScope; cbn. case_bool_decide; [naive_solver|].
  destruct (assignedTo sc) as [l|]; [|naive_solver]. case_bool_decide; naive_solver.
Qed.

Lemma passSelfScope_spec auth sc :
  passSelfScope auth sc = true ↔ scope_holds self_scope auth sc.
Proof. apply bool_decide_eq_true. Qed.

Lemma Can_matrix_allow auth v sc b :
  Can_matrix auth v sc = Allow b ↔
  ∃ g, ROLE_VERBS (role auth) v = Some g ∧ scope_holds (scope g) auth sc ∧ sensitive g = b.
Proof.
  unfold Can_matrix. destruct (ROLE_VERBS (role auth) v) as [g|];
    [|by split; [|intros (?&?&?)]].
  assert (Hif : ∀ p r, (p = true ↔ scope_holds (scope g) auth sc) →
    (if p then Allow (sensitive g) else Deny r) = Allow b ↔
    ∃ g', Some g = Some g' ∧ scope_holds (scope g') auth sc ∧ sensitive g' = b).
  { intros p r Hp. split.
    - destruct p; [intros [= <-]; exists g; split_and!; [done|by apply Hp|done]|done].
    - intros (g' & [= <-] & Hs & <-). by rewrite (proj2 Hp Hs). }
  destruct (scope g).
  - by apply (Hif true no_grant).
  - apply Hif, passGroupScope_spec.
  - apply Hif, passOwnScope_spec.
  - apply Hif, passSelfScope_spec.
Qed.

Lemma Can_guards auth v sc b :
  Can auth v sc = Allow b →
  same_tenant auth sc ∧ active auth ≠ Some false.
Proof.
  unfold Can, same_tenant. destruct (sc_tenantId sc) as [t|]; cbn.
  - case_bool_decide; cbn; [|done]. case_bool_decide; [done|]. naive_solver.
  - case_bool_decide; naive_solver.
Qed.

Lemma Can_past_guards auth v sc :
  same_tenant auth sc → active auth ≠ Some false →
  Can auth v sc =
    if bool_decide (role auth = integrator) then
      if match perms auth with Some ps => bool_decide (v ∈ ps) | None => false end
      then Allow (bool_decide (v ∈ SENSITIVE_VERBS)) else Deny integrator_key_lacks_perm
    else Can_matrix auth v sc.
Proof.
  intros Ht Ha. unfold Can.
  rewrite (bool_decide_eq_false_2 (active auth = _)) by done.
  destruct (sc_tenantId sc) as [t|] eqn:E; [|done].
  by rewrite bool_decide_eq_true_2 by (symmetry; auto).
Qed.

(** C3: [Can] implements the policy: it allows a verb exactly when the scope is
    in the actor's tenant, the actor is active, and either the API key holds the
    verb or the role's matrix row grants it with its scope satisfied; and the
    [sensitive] flag it returns is membership in the catalog. *)
Theorem Can_implements_policy auth v sc b :
  Can auth v sc = Allow b ↔
  same_tenant auth sc ∧ active auth ≠ Some false ∧ Granted auth v sc ∧
  b = bool_decide (v ∈ SENSITIVE_VERBS).
Proof.
  split.
  - intros H. destruct (Can_guards _ _ _ _ H) as [Ht Ha].
    rewrite Can_past_guards in H by done. split_and!; try done.
    + case_bool_decide as Hr.
      * destruct (perms auth) as [ps|] eqn:Hp; [|done].
        case_bool_decide; [|done]. by eapply Granted_by_key.
      * apply Can_matrix_allow in H as (g & Hg & Hs & _).
        eapply Granted_by_role; [done|by apply matrix_lookup|done].
    + case_bool_decide.
      * destruct (match perms auth with Some _ => _ | None => _ end); naive_solver.
      * apply Can_matrix_allow in H as (g & Hg & _ & <-). by apply matrix_sensitive in Hg.
  - intros (Ht & Ha & Hg & ->). rewrite Can_past_guards by done.
    destruct Hg as [ps Hr Hp Hv|g Hr Hin Hs].
    + by rewrite bool_decide_eq_true_2, Hp, bool_decide_eq_true_2.
    + rewrite bool_decide_eq_false_2 by done. apply matrix_lookup in Hin as Hl.
      apply Can_matrix_allow. eauto using matrix_sensitive.
Qed.

Definition with_role (r : Role) (auth : AuthContext) : AuthContext :=
  mkAuth (uid auth) (auth_tenantId auth) r (userGroupId auth) (allowedCampaigns auth)
    (perms auth) (jti auth) (totpVerified auth) (active auth).

Lemma hierarchy_has r1 r2 v :
  roleAtLeast r1 r2 = true → hasPermission r2 v = true → hasPermission r1 v = true.
Proof.
  intros Hr Hv. pose proof hierarchy_permissions as H.
  rewrite forallb_forall in H. specialize (H r1 ltac:(destruct r1; cbn; tauto)).
  rewrite forallb_forall in H. specialize (H r2 ltac:(destruct r2; cbn; tauto)).
  rewrite Hr in H; cbn [implb] in H. rewrite forallb_forall in H.
  specialize (H v (elem_of_VERBS v)). by rewrite Hv in H.
Qed.

(** No loss of access by promotion to an administrator: whatever a user of a
    hierarchical role may do, the same user with a higher administrator role may
    do in the same scope, and [roleAtLeast] orders the permission sets. *)
Theorem promotion_keeps_access have auth v sc :
  (have = admin ∨ have = super_admin) → roleAtLeast have (role auth) = true →
  allowed (Can auth v sc) = true → allowed (Can (with_role have auth) v sc) = true.
Proof.
  intros Hh Hr Hc. destruct (Can auth v sc) as [b|] eqn:E; [clear Hc|done].
  apply Can_implements_policy in E as (Ht & Ha & Hg & _).
  destruct Hg as [ps Hi _ _|g _ Hin _]; [rewrite Hi in Hr; by destruct Hh as [->| ->]|].
  assert (hasPermission have v = true) as [h Hp]%hasPermission_spec.
  { apply (hierarchy_has _ (role auth)); [done|]. apply hasPermission_spec.
    exists g. by apply matrix_lookup. }
  assert (Can (with_role have auth) v sc = Allow (bool_decide (v ∈ SENSITIVE_VERBS))) as ->; [|done].
  apply Can_implements_policy. split_and!; [done..| |done].
  apply (Granted_by_role _ _ _ h); [cbn; by destruct Hh as [->| ->]|by apply matrix_lookup|].
  by rewrite (admin_tenant_scope _ _ _ Hh Hp).
Qed.

(** Witness data: an agent of tenant 1 editing a lead of theirs. *)
Definition agent7 : AuthContext :=
  mkAuth 7 1 agent None (CampaignList [3%Z]) None "jti" None None.
Definition own_lead : ScopeContext := mkScope (Some 1%Z) None (Some 7%Z) None None None.

Lemma promotion_keeps_access_witness :
  allowed (Can (with_role admin agent7) lead_edit own_lead) = true.
Proof.
  apply (promotion_keeps_access admin agent7 lead_edit own_lead); [by left|reflexivity|].
  vm_compute. reflexivity.
Defined.

(** The audit trail of access decisions is complete: when the audit wrapper
    returns, it returns the decision of [Can] unchanged and has appended exactly
    one row for a denial, one for an allowed verb of the sensitive catalog, and
    none otherwise; when a row is due and the writer throws, no decision is
    returned. *)
Theorem audited_decisions {W} `{AuditWriter W} mv (w : W) auth v sc :
  let due := match Can auth v sc with
             | Deny r => [mkAuditRow "rbac.denied" (Some (uid auth)) (Some (auth_tenantId auth))
                            (DeniedJson v (scopeForAudit sc) r (actorForAudit auth) mv)]
             | Allow _ => if bool_decide (v ∈ SENSITIVE_VERBS) then
                            [mkAuditRow "rbac.allowed_sensitive" (Some (uid auth)) (Some (auth_tenantId auth))
                               (SensitiveJson v (scopeForAudit sc) (actorForAudit auth) mv)]
                          else []
             end in
  match auditDecision mv w auth v sc (Can auth v sc) with
  | Ok (d, w') => d = Can auth v sc ∧ log_of w' = log_of w ++ due
  | Err e => ∃ row, due = [row] ∧ append w row = Err e
  end.
Proof.
  destruct (Can auth v sc) as [b|r] eqn:E; cbn.
  - apply Can_implements_policy in E as (_ & _ & _ & ->).
    case_bool_decide; cbn; [|by rewrite app_nil_r]. unfold auditSensitiveAllow.
    destruct (append w _) as [w'|e] eqn:Ha; cbn; [split; [done|by eapply append_log]|eauto].
  - unfold auditDeny.
    destruct (append w _) as [w'|e] eqn:Ha; cbn; [split; [done|by eapply append_log]|eauto].
Qed.

(** Every WebSocket operation on the agent's own availability is refused to
    the agent role, whatever the scope: the map sends the [agent.*] operations to
    [status:edit], which only the administrator rows grant. *)
Theorem ws_agent_ops_refused op v auth sc :
  In (op, v) WS_OP_TO_VERB → String.prefix "agent." op = true → role auth = agent ∨ role auth = supervisor →
  allowed (Can auth v sc) = false.
Proof.
  intros Hin Hp Hr. assert (v = status_edit) as ->.
  { cbn in Hin. repeat destruct Hin as [[= <- <-]|Hin]; done. }
  destruct (Can auth status_edit sc) as [b|] eqn:E; [|done].
  apply Can_implements_policy in E as (_ & _ & [ps Hi _ _|g _ Hg _] & _).
  - destruct Hr as [Hr|Hr]; rewrite Hr in Hi; discriminate.
  - apply matrix_lookup in Hg. destruct Hr as [Hr|Hr]; rewrite Hr in Hg; vm_compute in Hg; discriminate.
Qed.

Lemma ws_agent_ops_refused_witness : allowed (Can agent7 status_edit own_lead) = false.
Proof.
  apply (ws_agent_ops_refused "agent.ready"); [cbn; tauto|reflexivity|by left].
Defined.
