(* ===== verification/Sessions.v ===== *)
(** Refresh tokens, [api/src/auth/refresh.ts] and its Lua script, and the lockout after
    failed logins, [api/src/auth/lockout.ts], over the Valkey store they share.

    The store keeps the hashes of refresh tokens, the sets of tokens of a family and of
    families of a user, and the lockout hashes, each under the key the code builds and
    with its time to live; keys of different kinds have maps of their own.  The clock is
    in seconds.  SHA-256 is a parameter, random tokens and family identifiers are
    arguments. *)

From S2P Require Import Prelude.

#[local] Open Scope Z_scope.

(** ** The store *)

Record RefreshRecord := mkRefresh {
  user_id : Z;
  tenant_id : Z;
  family_id : string;
  parent_token_hash : string;
  rr_role : string;
  issued_at : Z;
  expires_at : Z;
  last_ip : string;
  last_ua : string;
}.

Record LockoutHash := mkLockout {
  fail_count : Z;
  last_fail_at : Z;
  locked_until : Z;
  level : Z;
}.

(** Each value with the instant it expires, if it does. *)
Record Store := mkStore {
  tokens : gmap string (RefreshRecord * Z);
  sets : gmap string (gset string * option Z);
  lockouts : gmap string (LockoutHash * Z);
}.

Definition empty_store : Store := mkStore ∅ ∅ ∅.

Definition unexpired (now : Z) (e : option Z) : bool :=
  match e with Some e => now <? e | None => true end.

(** HGETALL of a token's key, then of a lockout's. *)
Definition hgetall (now : Z) (k : string) (st : Store) : option RefreshRecord :=
  match tokens st !! k with Some (r, e) => if now <? e then Some r else None | None => None end.

Definition hgetall_lockout (now : Z) (k : string) (st : Store) : option LockoutHash :=
  match lockouts st !! k with Some (r, e) => if now <? e then Some r else None | None => None end.

Definition live_set (now : Z) (k : string) (st : Store) : option (gset string * option Z) :=
  match sets st !! k with Some (s, e) => if unexpired now e then Some (s, e) else None | None => None end.

Definition smembers (now : Z) (k : string) (st : Store) : gset string :=
  match live_set now k st with Some (s, _) => s | None => ∅ end.

(** HSET and EXPIRE of a token. *)
Definition hset_expire (now : Z) (k : string) (r : RefreshRecord) (ttl : Z) (st : Store) : Store :=
  mkStore (if 0 <? ttl then <[k := (r, now + ttl)]> (tokens st) else delete k (tokens st)) (sets st) (lockouts st).

(** SADD keeps the time to live of the set. *)
Definition sadd (now : Z) (k m : string) (st : Store) : Store :=
  let e := match live_set now k st with Some (_, e) => e | None => None end in
  mkStore (tokens st) (<[k := ({[m]} ∪ smembers now k st, e)]> (sets st)) (lockouts st).

Definition expire_set (now : Z) (k : string) (ttl : Z) (st : Store) : Store :=
  mkStore (tokens st)
    (match live_set now k st with
     | Some (s, _) => if 0 <? ttl then <[k := (s, Some (now + ttl))]> (sets st) else delete k (sets st)
     | None => sets st
     end) (lockouts st).

(** A set that loses its last member is deleted. *)
Definition srem (now : Z) (k m : string) (st : Store) : Store :=
  mkStore (tokens st)
    (match live_set now k st with
     | Some (s, e) => if decide (s ∖ {[m]} = ∅) then delete k (sets st) else <[k := (s ∖ {[m]}, e)]> (sets st)
     | None => sets st
     end) (lockouts st).

(** DEL returns the number of keys it removed. *)
Definition del_token (now : Z) (k : string) (st : Store) : Z * Store :=
  (match hgetall now k st with Some _ => 1 | None => 0 end,
   mkStore (delete k (tokens st)) (sets st) (lockouts st)).

Definition del_set (k : string) (st : Store) : Store :=
  mkStore (tokens st) (delete k (sets st)) (lockouts st).

Fixpoint del_tokens (now : Z) (ks : list string) (st : Store) : Z * Store :=
  match ks with
  | [] => (0, st)
  | k :: ks' =>
      let '(n, st1) := del_token now k st in
      let '(m, st2) := del_tokens now ks' st1 in
      (n + m, st2)
  end.

(** ** Keys *)

Definition familyKey (tenantId : Z) (familyId : string) : string :=
  "t:" +:+ zs tenantId +:+ ":auth:refresh:family:" +:+ familyId.

Definition tokenKey (tenantId : Z) (familyId tokenHash : string) : string :=
  "t:" +:+ zs tenantId +:+ ":auth:refresh:" +:+ familyId +:+ ":" +:+ tokenHash.

Definition userKey (tenantId userId : Z) : string :=
  "t:" +:+ zs tenantId +:+ ":auth:refresh:user:" +:+ zs userId.

(** ** Consuming *)

Inductive Reply :=
  | R_OK (r : RefreshRecord)
  | R_REUSE_DETECTED (familyId : string) (n : Z)
  | R_NOT_FOUND.

(** [refresh_consume.v1.lua], atomic. *)
Definition refresh_consume (now : Z) (key1 key2 key3 arg1 : string) (st : Store) : Reply * Store :=
  let len := String.length key1 in
  match hgetall now key1 st with
  | Some r =>
      let token_hash := String.substring (len - 64) 64 key1 in
      (R_OK r, srem now key2 token_hash (del_token now key1 st).2)
  | None =>
      let members := smembers now key2 st in
      if decide (members = ∅) then (R_NOT_FOUND, st)
      else
        let prefix := String.substring 0 (len - 64) key1 in
        let '(deleted, st1) := del_tokens now ((λ m, prefix +:+ m) <$> elements members) st in
        let st2 := del_set key2 st1 in
        let st3 := if bool_decide (key3 ≠ EmptyString) then srem now key3 arg1 st2 else st2 in
        (R_REUSE_DETECTED arg1 deleted, st3)
  end.

Inductive ConsumeResult :=
  | consumed_ok (userId tenantId : Z) (familyId role parentTokenHash : string) (expiresAt : Z)
  | consumed_reuse (familyId : string) (keysRevoked : Z)
  | consumed_not_found.

Record IssueRefreshParams := mkIssue {
  p_tenantId : Z;
  p_userId : Z;
  p_role : string;
  p_ttlSec : Z;
  p_familyId : option string;
  p_parentTokenHash : option string;
  p_ip : option string;
  p_ua : option string;
}.

Record IssuedRefresh := mkIssued { i_token : string; i_tokenHash : string; i_familyId : string; i_expiresAt : Z }.

Section refresh.
Variable sha256Hex : string → string.

(** [token] and [uuid] are random. *)
Definition issueRefreshToken (now : Z) (token uuid : string) (p : IssueRefreshParams) (st : Store)
    : IssuedRefresh * Store :=
  let tokenHash := sha256Hex token in
  let familyId := default uuid (p_familyId p) in
  let expiresAt := now + p_ttlSec p in
  let tKey := tokenKey (p_tenantId p) familyId tokenHash in
  let fKey := familyKey (p_tenantId p) familyId in
  let uKey := userKey (p_tenantId p) (p_userId p) in
  let r := mkRefresh (p_userId p) (p_tenantId p) familyId (default EmptyString (p_parentTokenHash p)) (p_role p)
             now expiresAt (default EmptyString (p_ip p)) (default EmptyString (p_ua p)) in
  let st1 := hset_expire now tKey r (p_ttlSec p) st in
  let st2 := expire_set now fKey (p_ttlSec p) (sadd now fKey tokenHash st1) in
  (mkIssued token tokenHash familyId expiresAt, sadd now uKey familyId st2).

Definition consumeRefreshToken (now tenantId : Z) (familyId token : string) (userIdHint : option Z) (st : Store)
    : ConsumeResult * Store :=
  let tokenHash := sha256Hex token in
  let key3 := match userIdHint with Some u => userKey tenantId u | None => EmptyString end in
  let '(raw, st') := refresh_consume now (tokenKey tenantId familyId tokenHash) (familyKey tenantId familyId) key3
                       familyId st in
  (match raw with
   | R_OK r => consumed_ok (user_id r) (tenant_id r) (family_id r) (rr_role r) (parent_token_hash r) (expires_at r)
   | R_REUSE_DETECTED f n => consumed_reuse f n
   | R_NOT_FOUND => consumed_not_found
   end, st').
End refresh.

(** ** Revoking *)

(** The commands after the members of a family are read, given the members. *)
Definition revoke_members (now tenantId : Z) (fid : string) (members : list string) (st : Store) : Z * Store :=
  let '(n, st1) := del_tokens now (tokenKey tenantId fid <$> members) st in
  (n, del_set (familyKey tenantId fid) st1).

(** The body of the loop over families; also the start of [revokeFamily].  Each command
    is awaited on its own in the code; here, and in the two functions below, no other
    request comes between them, see [revoked_between] of [AuthTheorems] for one that does. *)
Definition revoke_tokens (now tenantId : Z) (fid : string) (st : Store) : Z * Store :=
  revoke_members now tenantId fid (elements (smembers now (familyKey tenantId fid) st)) st.

Fixpoint revoke_families (now tenantId : Z) (families : list string) (st : Store) : Z * Store :=
  match families with
  | [] => (0, st)
  | fid :: families' =>
      let '(n, st1) := revoke_tokens now tenantId fid st in
      let '(m, st2) := revoke_families now tenantId families' st1 in
      (n + m, st2)
  end.

Definition revokeAllForUser (now tenantId userId : Z) (st : Store) : Z * Store :=
  let uKey := userKey tenantId userId in
  let '(revoked, st1) := revoke_families now tenantId (elements (smembers now uKey st)) st in
  (revoked, del_set uKey st1).

Definition revokeFamily (now tenantId : Z) (familyId : string) (userId : option Z) (st : Store) : Z * Store :=
  let '(revoked, st1) := revoke_tokens now tenantId familyId st in
  (revoked, match userId with Some u => srem now (userKey tenantId u) familyId st1 | None => st1 end).

(** ** Lockout *)

Definition LADDER_SEC : list Z := [15 * 60; 30 * 60; 60 * 60; 2 * 3600; 4 * 3600].
Definition WINDOW_SEC : Z := 15 * 60.
Definition FAIL_THRESHOLD : Z := 5.

Record LockoutState := mkLockoutState {
  ls_failCount : Z;
  ls_lockedUntil : Z;
  ls_level : Z;
  isLocked : bool;
}.

Definition lockout_key (tenantId : Z) (username : string) : string :=
  "t:" +:+ zs tenantId +:+ ":auth:lockout:" +:+ toLowerCase username.

Definition no_lockout : LockoutHash := mkLockout 0 0 0 0.

Definition getLockoutState (now tenantId : Z) (username : string) (st : Store) : LockoutState :=
  let h := default no_lockout (hgetall_lockout now (lockout_key tenantId username) st) in
  mkLockoutState (fail_count h) (locked_until h) (level h) (now <? locked_until h).

(** What [recordFailure] writes back for the hash it has read. *)
Definition next_lockout (now : Z) (cur : LockoutHash) : LockoutHash :=
  let failCount :=
    if negb (last_fail_at cur =? 0) && (WINDOW_SEC <? now - last_fail_at cur) then 1 else fail_count cur + 1 in
  if FAIL_THRESHOLD <=? failCount then
    let cooldown := nth (Z.to_nat (Z.min (level cur) (Z.of_nat (length LADDER_SEC) - 1))) LADDER_SEC (4 * 3600) in
    mkLockout 0 now (now + cooldown) (Z.min (level cur + 1) (Z.of_nat (length LADDER_SEC)))
  else mkLockout failCount now (locked_until cur) (level cur).

Definition read_lockout (now tenantId : Z) (username : string) (st : Store) : LockoutHash :=
  default no_lockout (hgetall_lockout now (lockout_key tenantId username) st).

Definition write_lockout (now tenantId : Z) (username : string) (h : LockoutHash) (st : Store) : Store :=
  mkStore (tokens st) (sets st) (<[lockout_key tenantId username := (h, now + 24 * 3600)]> (lockouts st)).

Definition recordFailure (now tenantId : Z) (username : string) (st : Store) : LockoutState * Store :=
  let h := next_lockout now (read_lockout now tenantId username st) in
  (mkLockoutState (fail_count h) (locked_until h) (level h) (now <? locked_until h),
   write_lockout now tenantId username h st).

Definition clearLockout (tenantId : Z) (username : string) (st : Store) : Store :=
  mkStore (tokens st) (sets st) (delete (lockout_key tenantId username) (lockouts st)).

(** ** Keys determine what they name *)

Lemma string_app_inj s t u : s +:+ t = s +:+ u → t = u.
Proof. induction s as [|c s IH]; autorewrite with strs; [done|]. intros [= H]. by apply IH. Qed.

Lemma lacks_split c s s' t t' :
  lacks c s = true → lacks c s' = true → s +:+ String c t = s' +:+ String c t' → s = s' ∧ t = t'.
Proof.
  revert s'. induction s as [|d s IH]; intros [|d' s'] Hs Hs'; autorewrite with strs.
  - by intros [= ->].
  - intros [= E _]. subst. by rewrite lacks_cons, Ascii.eqb_refl in Hs'.
  - intros [= E _]. subst. by rewrite lacks_cons, Ascii.eqb_refl in Hs.
  - rewrite lacks_cons in Hs, Hs'. apply andb_true_iff in Hs as [_ Hs], Hs' as [_ Hs']. intros [= -> H].
    by destruct (IH s' Hs Hs' H) as [-> ->].
Qed.

Lemma string_app_inj_2 s s' t t' :
  String.length t = String.length t' → s +:+ t = s' +:+ t' → s = s' ∧ t = t'.
Proof.
  assert (Hlen : ∀ s t, String.length (s +:+ t) = (String.length s + String.length t)%nat).
  { clear. intros s t. induction s; autorewrite with strs; cbn; [done|by f_equal]. }
  intros Ht. revert s'. induction s as [|c s IH]; intros [|c' s'] H; autorewrite with strs in H.
  - done.
  - apply (f_equal String.length) in H. cbn in H. rewrite Hlen in H. lia.
  - apply (f_equal String.length) in H. cbn in H. rewrite Hlen in H. lia.
  - injection H as -> H. by destruct (IH s' H) as [-> ->].
Qed.

Lemma keyed_inj t t' a a' :
  "t:" +:+ zs t +:+ ":auth:refresh:" +:+ a = "t:" +:+ zs t' +:+ ":auth:refresh:" +:+ a' → t = t' ∧ a = a'.
Proof.
  intros H%string_app_inj. change (":auth:refresh:" +:+ ?x)%string with (String ":" ("auth:refresh:" +:+ x)) in H.
  apply lacks_split in H as [H1%(inj zs) H2%string_app_inj]; [done|by apply zs_lacks..].
Qed.

Lemma familyKey_inj t f t' f' : familyKey t f = familyKey t' f' → t = t' ∧ f = f'.
Proof. unfold familyKey. intros H. apply (keyed_inj t t' ("family:" +:+ f) ("family:" +:+ f')) in H as [-> H%string_app_inj]. done. Qed.

Lemma userKey_inj t u t' u' : userKey t u = userKey t' u' → t = t' ∧ u = u'.
Proof.
  unfold userKey. intros H. apply (keyed_inj t t' ("user:" +:+ zs u) ("user:" +:+ zs u')) in H as [-> H%string_app_inj].
  by apply (inj zs) in H as ->.
Qed.

Lemma familyKey_userKey t f t' u : familyKey t f ≠ userKey t' u.
Proof.
  unfold familyKey, userKey. intros H.
  by apply (keyed_inj t t' ("family:" +:+ f) ("user:" +:+ zs u)) in H as [_ H].
Qed.

Lemma tokenKey_inj t f h t' f' h' :
  String.length h = 64%nat → String.length h' = 64%nat → tokenKey t f h = tokenKey t' f' h' →
  t = t' ∧ f = f' ∧ h = h'.
Proof.
  unfold tokenKey. intros Hh Hh' H. apply (keyed_inj t t' (f +:+ ":" +:+ h) (f' +:+ ":" +:+ h')) in H as [-> H].
  apply (string_app_inj_2 f f') in H as [-> H]; [by apply string_app_inj in H as ->|].
  autorewrite with strs. cbn. by rewrite Hh, Hh'.
Qed.

(** ** Sessions

    A refresh token is live until it expires or is deleted.  A family is in flight
    between the consumption of a token of it and the issue of the next one. *)

Definition live (now : Z) (st : Store) (k : string) (r : RefreshRecord) (e : Z) : Prop :=
  tokens st !! k = Some (r, e) ∧ now < e.

Definition user_set (st : Store) (t u : Z) : gset string :=
  match sets st !! userKey t u with Some (s, _) => s | None => ∅ end.

Record Flight := mkFlight { fl_tenant : Z; fl_user : Z; fl_family : string }.

Definition same_family (r : RefreshRecord) (t : Z) (f : string) : Prop := tenant_id r = t ∧ family_id r = f.

(** The token's hash is in the set of its family, which lasts as long, and its family in
    the set of its user. *)
Definition indexed (st : Store) (r : RefreshRecord) (h : string) (e : Z) : Prop :=
  (∃ s e', sets st !! familyKey (tenant_id r) (family_id r) = Some (s, Some e') ∧ h ∈ s ∧ e <= e') ∧
  family_id r ∈ user_set st (tenant_id r) (user_id r).

Record sessions_ok (now : Z) (F : list Flight) (st : Store) : Prop := {
  so_indexed k r e : live now st k r e →
    ∃ h, String.length h = 64%nat ∧ k = tokenKey (tenant_id r) (family_id r) h ∧ indexed st r h e;
  so_one k r e k' r' e' : live now st k r e → live now st k' r' e' →
    tenant_id r = tenant_id r' → family_id r = family_id r' → k = k';
  so_landed k r e fl : live now st k r e → fl ∈ F → ¬ same_family r (fl_tenant fl) (fl_family fl);
  so_flights : NoDup ((λ fl, (fl_tenant fl, fl_family fl)) <$> F);
  so_hashes t f s e h : sets st !! familyKey t f = Some (s, e) → h ∈ s → String.length h = 64%nat;
  so_members t f s e : sets st !! familyKey t f = Some (s, e) →
    ∃ e', e = Some e' ∧ ∀ h, h ∈ s → now < e' → ∃ r, live now st (tokenKey t f h) r e';
  so_user_sets t u s e : sets st !! userKey t u = Some (s, e) → e = None;
  so_owner t u u' f : f ∈ user_set st t u → f ∈ user_set st t u' → u = u';
  so_flight_owner fl u : fl ∈ F → fl_family fl ∈ user_set st (fl_tenant fl) u → u = fl_user fl;
}.

Lemma empty_sessions now : sessions_ok now [] empty_store.
Proof.
  assert (Hdead : ∀ k r e, ¬ live now empty_store k r e) by (intros k r e [H _]; done).
  assert (Hsets : ∀ t u f, f ∉ user_set empty_store t u) by (intros t u f; unfold user_set; cbn; set_solver).
  split; try done; try (intros; exfalso; naive_solver). constructor.
Qed.

(** No user gains a family. *)
Definition shrinks (st st' : Store) : Prop := ∀ t u, user_set st' t u ⊆ user_set st t u.

Lemma shrinks_same st st' : (∀ t u, sets st' !! userKey t u = sets st !! userKey t u) → shrinks st st'.
Proof. intros H t u. unfold user_set. by rewrite H. Qed.

Lemma shrinks_trans st1 st2 st3 : shrinks st1 st2 → shrinks st2 st3 → shrinks st1 st3.
Proof. intros H1 H2 t u. by transitivity (user_set st2 t u). Qed.

(** A flight ends. *)
Lemma sessions_land now F i fl st :
  sessions_ok now F st → F !! i = Some fl →
  sessions_ok now (delete i F) st ∧
  (∀ k r e, live now st k r e → ¬ same_family r (fl_tenant fl) (fl_family fl)) ∧
  (∀ fl', fl' ∈ delete i F → fl_tenant fl' = fl_tenant fl → fl_family fl' ≠ fl_family fl) ∧
  (∀ u, fl_family fl ∈ user_set st (fl_tenant fl) u → u = fl_user fl).
Proof.
  intros Hok Hi. pose proof (delete_Permutation F i fl Hi) as HP.
  assert (Hin : ∀ fl', fl' ∈ fl :: delete i F → fl' ∈ F) by (intros fl'; by rewrite <- HP).
  assert (Hnd : NoDup ((λ fl, (fl_tenant fl, fl_family fl)) <$> fl :: delete i F)).
  { rewrite <- HP. apply Hok. }
  cbn in Hnd. apply NoDup_cons in Hnd as [Hfl Hnd]. destruct Hok as [H1 H2 H3 H4 H5 HM H6 H7 H8]. split_and!.
  - split; [exact H1|exact H2|intros k r e fl' Hl Hfl'|exact Hnd|exact H5|exact HM|exact H6|exact H7|intros fl' u Hfl'].
    + apply (H3 k r e fl' Hl), Hin. by right.
    + apply H8, Hin. by right.
  - intros k r e Hl. apply (H3 k r e fl Hl), Hin. by left.
  - intros fl' Hfl' Et Ef. apply Hfl. apply list_elem_of_fmap. exists fl'. split; [by f_equal|done].
  - intros u. apply H8, Hin. by left.
Qed.

(** Live tokens are all that the passing of time changes. *)
Lemma sessions_later now now' F st : now <= now' → sessions_ok now F st → sessions_ok now' F st.
Proof.
  intros Hle [H1 H2 H3 H4 H5 HM H6 H7 H8].
  assert (Hl : ∀ k r e, live now' st k r e → live now st k r e) by (intros k r e [? ?]; split; [done|lia]).
  split; eauto. intros t f s e Hs. destruct (HM t f s e Hs) as (e' & -> & H). exists e'. split; [done|].
  intros h Hh He. destruct (H h Hh ltac:(lia)) as (r & Hk & _). by exists r.
Qed.

Lemma hgetall_live now k st r : hgetall now k st = Some r ↔ ∃ e, live now st k r e.
Proof.
  unfold hgetall, live. destruct (tokens st !! k) as [[r' e']|]; [|naive_solver].
  destruct (Z.ltb_spec now e'); split; [naive_solver|naive_solver|done|]. intros (e & [= -> ->] & ?). lia.
Qed.

Lemma del_tokens_spec now ks st :
  (del_tokens now ks st).2 = mkStore (filter (λ kv, kv.1 ∉ ks) (tokens st)) (sets st) (lockouts st).
Proof.
  revert st. induction ks as [|k ks IH]; intros st; cbn.
  { destruct st as [ts ss ls]. cbn. f_equal. symmetry. apply map_filter_id. intros. apply not_elem_of_nil. }
  specialize (IH (mkStore (delete k (tokens st)) (sets st) (lockouts st))).
  destruct (del_tokens _ ks _) as [m st2]. cbn [snd] in *. rewrite IH. cbn. f_equal.
  apply map_eq. intros k'. apply option_eq. intros v.
  rewrite !map_lookup_filter_Some, lookup_delete_Some, not_elem_of_cons. naive_solver.
Qed.

Lemma elem_of_smembers now k st m : m ∈ smembers now k st → ∃ s e, sets st !! k = Some (s, e) ∧ m ∈ s.
Proof.
  unfold smembers, live_set. destruct (sets st !! k) as [[s e]|]; [|set_solver].
  destruct (unexpired now e); [eauto|set_solver].
Qed.

(** A family's tokens, live or not, have the keys the code deletes. *)
Lemma revoke_tokens_live now F st t f k r e :
  sessions_ok now F st →
  live now (revoke_tokens now t f st).2 k r e ↔ live now st k r e ∧ ¬ same_family r t f.
Proof.
  intros Hok. unfold revoke_tokens, revoke_members.
  pose proof (del_tokens_spec now (tokenKey t f <$> elements (smembers now (familyKey t f) st)) st) as Hdel.
  destruct (del_tokens _ _ _) as [n st1]. cbn [snd] in *. subst st1. unfold live. cbn.
  rewrite map_lookup_filter_Some. cbn. rewrite list_elem_of_fmap. setoid_rewrite elem_of_elements. split.
  - intros [[Hk Hin] Hlt]. split; [done|]. intros [<- <-]. destruct (so_indexed _ _ _ Hok k r e) as (h & _ & -> & Hi & _); [done|].
    destruct Hi as (s & e' & Hs & Hh & He). apply Hin. exists h. split; [done|]. unfold smembers, live_set. rewrite Hs.
    cbn. by destruct (Z.ltb_spec now e'); [|lia].
  - intros [[Hk Hlt] Hne]. split_and!; [done| |done]. intros (h & -> & Hh).
    destruct (so_indexed _ _ _ Hok _ r e (conj Hk Hlt)) as (h' & Hh' & Heq & _). apply Hne.
    apply tokenKey_inj in Heq as (-> & -> & _); [done| |done]. apply elem_of_smembers in Hh as (s & e' & Hs & Hh).
    by eapply so_hashes.
Qed.

Lemma user_set_family st t f sets' :
  (∀ k, k ≠ familyKey t f → sets' !! k = sets st !! k) →
  ∀ ts ls t' u, user_set (mkStore ts sets' ls) t' u = user_set st t' u.
Proof. intros H ts ls t' u. unfold user_set. cbn. rewrite H; [done|]. intros E. by eapply familyKey_userKey. Qed.

(** Sessions stay well formed when the tokens of one family go, with its set. *)
Lemma sessions_without now F st st' t f :
  sessions_ok now F st →
  (∀ k r e, live now st' k r e ↔ live now st k r e ∧ ¬ same_family r t f) →
  (∀ k, k ≠ familyKey t f → sets st' !! k = sets st !! k) → sets st' !! familyKey t f = None →
  sessions_ok now F st'.
Proof.
  intros Hok Hlive Hsets Hgone.
  assert (Huser : ∀ t' u, user_set st' t' u = user_set st t' u).
  { intros t' u. unfold user_set. rewrite Hsets; [done|]. intros E. by eapply familyKey_userKey. }
  split.
  - intros k r e [Hl Hne]%Hlive. destruct (so_indexed _ _ _ Hok k r e Hl) as (h & Hh & Hk & Hi & Hu).
    exists h. split_and!; [done..|]. split; [|by rewrite Huser]. rewrite Hsets; [done|].
    intros [<- <-]%familyKey_inj. by apply Hne.
  - intros k r e k' r' e' [Hl _]%Hlive [Hl' _]%Hlive. eapply so_one; eauto.
  - intros k r e fl [Hl _]%Hlive. eapply so_landed; eauto.
  - eapply so_flights; eauto.
  - intros t' f' s e h. destruct (decide (familyKey t' f' = familyKey t f)) as [->|Hne]; [by rewrite Hgone|].
    rewrite Hsets by done. by eapply so_hashes.
  - intros t' f' s e. destruct (decide (familyKey t' f' = familyKey t f)) as [->|Hne]; [by rewrite Hgone|].
    rewrite Hsets by done. intros Hs. destruct (so_members _ _ _ Hok t' f' s e Hs) as (e' & -> & Hm). exists e'.
    split; [done|]. intros h Hh He. destruct (Hm h Hh He) as (r & Hl). exists r. apply Hlive. split; [done|]. intros [<- <-].
    apply Hne. f_equal; destruct (so_indexed _ _ _ Hok _ r e' Hl) as (h' & Hh' & E & _);
      apply tokenKey_inj in E as (? & ? & _); try done; by eapply so_hashes.
  - intros t' u s e. rewrite Hsets by (intros E; by eapply familyKey_userKey). by eapply so_user_sets.
  - intros t' u u' f'. rewrite !Huser. by eapply so_owner.
  - intros fl u. rewrite Huser. by eapply so_flight_owner.
Qed.

Lemma del_token_live now k st k' r e :
  live now (del_token now k st).2 k' r e ↔ live now st k' r e ∧ k' ≠ k.
Proof. unfold live, del_token. cbn. rewrite lookup_delete_Some. naive_solver. Qed.

Lemma srem_sets now k m st k' : k' ≠ k → sets (srem now k m st) !! k' = sets st !! k'.
Proof.
  intros Hne. unfold srem. cbn. repeat case_match; try done; [by apply lookup_delete_ne|by apply lookup_insert_ne].
Qed.

Lemma srem_lookup now k m st s e :
  sets (srem now k m st) !! k = Some (s, e) → ∃ s0, sets st !! k = Some (s0, e) ∧ s ⊆ s0.
Proof.
  unfold srem, live_set. cbn. destruct (sets st !! k) as [[s0 e0]|] eqn:E; [|by rewrite E].
  destruct (unexpired now e0); [|rewrite E; naive_solver].
  destruct (decide _); [by rewrite lookup_delete_eq|]. rewrite lookup_insert_eq. intros [= <- <-]. exists s0. set_solver.
Qed.

Lemma srem_lookup_kept now k m st s e x :
  sets st !! k = Some (s, e) → x ∈ s → x ≠ m →
  ∃ s', sets (srem now k m st) !! k = Some (s', e) ∧ x ∈ s'.
Proof.
  intros Hs Hx Hne. unfold srem, live_set. cbn. rewrite Hs. destruct (unexpired now e); [|eauto].
  destruct (decide _) as [E|_]; [set_solver|]. rewrite lookup_insert_eq. eexists. split; [done|]. set_solver.
Qed.

(** A user's set may lose the families without live tokens. *)
Lemma sessions_shrink now F st st' t u :
  sessions_ok now F st → tokens st' = tokens st →
  (∀ k, k ≠ userKey t u → sets st' !! k = sets st !! k) →
  (∀ s e, sets st' !! userKey t u = Some (s, e) → e = None) →
  user_set st' t u ⊆ user_set st t u →
  (∀ k r e, live now st k r e → tenant_id r = t → user_id r = u → family_id r ∈ user_set st' t u) →
  sessions_ok now F st'.
Proof.
  intros Hok Htok Hsets Hnone Hsub Hkeep.
  assert (Hlive : ∀ k r e, live now st' k r e ↔ live now st k r e) by (intros; unfold live; by rewrite Htok).
  assert (Hfam : ∀ t' f', sets st' !! familyKey t' f' = sets st !! familyKey t' f').
  { intros t' f'. apply Hsets, familyKey_userKey. }
  assert (Hother : ∀ t' u', userKey t' u' ≠ userKey t u → user_set st' t' u' = user_set st t' u').
  { intros t' u' Hne. unfold user_set. by rewrite Hsets. }
  assert (Huser : ∀ t' u' x, x ∈ user_set st' t' u' → x ∈ user_set st t' u').
  { intros t' u' x. destruct (decide (userKey t' u' = userKey t u)) as [[-> ->]%userKey_inj|Hne]; [set_solver|by rewrite Hother]. }
  split.
  - intros k r e Hl%Hlive. destruct (so_indexed _ _ _ Hok k r e Hl) as (h & Hh & Hk & Hi & Hu). exists h.
    split_and!; [done..|]. unfold indexed. rewrite Hfam. split; [done|].
    destruct (decide (userKey (tenant_id r) (user_id r) = userKey t u)) as [E|Hne]; [|by rewrite Hother].
    apply userKey_inj in E as [Et Eu]. rewrite Et, Eu. by apply (Hkeep k r e).
  - intros k r e k' r' e' Hl%Hlive Hl'%Hlive. by eapply so_one.
  - intros k r e fl Hl%Hlive. by eapply so_landed.
  - apply Hok.
  - intros t' f' s e h. rewrite Hfam. by apply (so_hashes _ _ _ Hok).
  - intros t' f' s e. rewrite Hfam. intros Hs. destruct (so_members _ _ _ Hok t' f' s e Hs) as (e' & -> & Hm).
    exists e'. split; [done|]. intros h Hh He. destruct (Hm h Hh He) as (r & Hl). exists r. by apply Hlive.
  - intros t' u' s e. destruct (decide (userKey t' u' = userKey t u)) as [->|Hne]; [apply Hnone|].
    rewrite Hsets by done. by apply (so_user_sets _ _ _ Hok).
  - intros t' u1 u2 f' H1%Huser H2%Huser. by eapply so_owner.
  - intros fl u' Hfl H1%Huser. by eapply so_flight_owner.
Qed.

Lemma srem_shrinks now t u f st : shrinks st (srem now (userKey t u) f st).
Proof.
  intros t' u'. unfold user_set. destruct (decide (userKey t' u' = userKey t u)) as [->|Hne]; [|by rewrite srem_sets].
  destruct (sets (srem _ _ _ _) !! _) as [[s e]|] eqn:E; [|set_solver]. by apply srem_lookup in E as (s0 & -> & Hsub).
Qed.

(** A family without live tokens may leave a user's set. *)
Lemma sessions_forget now F st t u f :
  sessions_ok now F st → (∀ k r e, live now st k r e → ¬ same_family r t f) →
  sessions_ok now F (srem now (userKey t u) f st).
Proof.
  intros Hok Hdead. apply (sessions_shrink now F st _ t u); [done|done| | | |].
  - intros k Hk. by apply srem_sets.
  - intros s e (s0 & Hs0 & _)%srem_lookup. by eapply so_user_sets.
  - apply srem_shrinks.
  - intros k r e Hl Et Eu. destruct (so_indexed _ _ _ Hok k r e Hl) as (h & _ & _ & _ & Hu). rewrite Et, Eu in Hu.
    unfold user_set in *. destruct (sets st !! userKey t u) as [[s e0]|] eqn:Es; [|set_solver].
    destruct (srem_lookup_kept now _ f st s e0 (family_id r) Es Hu) as (s' & E' & Hx); [|by rewrite E'].
    intros Ef. by apply (Hdead k r e).
Qed.

Lemma revoke_tokens_user_sets now t f st k : k ≠ familyKey t f → sets (revoke_tokens now t f st).2 !! k = sets st !! k.
Proof.
  intros Hk. unfold revoke_tokens, revoke_members.
  pose proof (del_tokens_spec now (tokenKey t f <$> elements (smembers now (familyKey t f) st)) st) as Hdel.
  destruct (del_tokens _ _ _) as [n st1]. cbn [snd] in *. subst st1. cbn. by apply lookup_delete_ne.
Qed.

Lemma revoke_tokens_ok now F st t f : sessions_ok now F st → sessions_ok now F (revoke_tokens now t f st).2.
Proof.
  intros Hok. apply (sessions_without now F st _ t f); [done|..].
  - intros k r e. by apply (revoke_tokens_live now F).
  - intros k Hk. by apply revoke_tokens_user_sets.
  - unfold revoke_tokens, revoke_members. destruct (del_tokens _ _ _) as [n st1]. cbn. by rewrite lookup_delete_eq.
Qed.

(** A family without live tokens has no members; one with a live token has no other. *)
Lemma dead_members now F st t f :
  sessions_ok now F st → (∀ k r e, live now st k r e → ¬ same_family r t f) → smembers now (familyKey t f) st = ∅.
Proof.
  intros Hok Hdead. apply elem_of_equiv_empty_L. intros h. unfold smembers, live_set.
  destruct (sets st !! familyKey t f) as [[s e]|] eqn:Es; [|set_solver].
  destruct (so_members _ _ _ Hok t f s e Es) as (e' & -> & Hm). cbn. destruct (Z.ltb_spec now e') as [He|]; [|set_solver].
  intros Hh. destruct (Hm h Hh He) as (r & Hl). apply (Hdead _ _ _ Hl).
  destruct (so_indexed _ _ _ Hok _ r e' Hl) as (h' & Hh' & E & _).
  apply tokenKey_inj in E as (-> & -> & _); [done| |done]. by eapply so_hashes.
Qed.

Lemma live_member now F st t f h r e :
  sessions_ok now F st → String.length h = 64%nat → live now st (tokenKey t f h) r e →
  ∃ e', live_set now (familyKey t f) st = Some ({[h]}, Some e').
Proof.
  intros Hok Hh Hl. destruct (so_indexed _ _ _ Hok _ r e Hl) as (h' & Hh' & E & (s & e' & Hs & Hin & He) & _).
  apply tokenKey_inj in E as (Et & Ef & <-); [|done|done]. rewrite <- Et, <- Ef in Hs. exists e'.
  assert (Hlt : now < e') by (destruct Hl; lia). unfold live_set. rewrite Hs. cbn.
  rewrite (proj2 (Z.ltb_lt now e') Hlt). do 2 f_equal.
  destruct (so_members _ _ _ Hok t f s _ Hs) as (e0 & [= <-] & Hm). apply set_eq. intros x. rewrite elem_of_singleton.
  split; [|by intros ->]. intros Hx. destruct (Hm x Hx Hlt) as (r' & Hl').
  pose proof (so_hashes _ _ _ Hok t f s _ x Hs Hx) as Hlen.
  destruct (so_indexed _ _ _ Hok _ r' e' Hl') as (h'' & Hh'' & E' & _).
  apply tokenKey_inj in E' as (Et' & Ef' & _); [|done|done].
  assert (E2 : tokenKey t f x = tokenKey t f h) by (eapply so_one; eauto; congruence).
  by apply tokenKey_inj in E2 as (_ & _ & ->).
Qed.

(** ** Consuming and issuing *)

Lemma substring_prefix s t : String.substring 0 (String.length s) (s +:+ t) = s.
Proof. induction s as [|c s IH]; autorewrite with strs; cbn; [by destruct t|by rewrite IH]. Qed.

Lemma substring_all s : String.substring 0 (String.length s) s = s.
Proof. rewrite <- (string_app_nil_r s) at 2. by rewrite substring_prefix. Qed.

Lemma substring_suffix s t : String.substring (String.length s) (String.length t) (s +:+ t) = t.
Proof. induction s as [|c s IH]; autorewrite with strs; cbn; [apply substring_all|done]. Qed.

(** The script cuts the hash off the key, and finds the prefix of the family's keys. *)
Lemma tokenKey_cut t f h m :
  String.length h = 64%nat →
  let key := tokenKey t f h in
  String.substring (String.length key - 64) 64 key = h ∧
  String.substring 0 (String.length key - 64) key +:+ m = tokenKey t f m.
Proof.
  intros Hh. set (p := "t:" +:+ zs t +:+ ":auth:refresh:" +:+ f +:+ ":").
  assert (Hkey : ∀ x, tokenKey t f x = p +:+ x).
  { intros x. unfold tokenKey, p. by autorewrite with strs. }
  cbv zeta. rewrite !Hkey, length_string_app, Hh, Nat.add_sub.
  rewrite <- Hh at 1. by rewrite substring_suffix, substring_prefix.
Qed.

Lemma sessions_take_off now F st t u f :
  sessions_ok now F st → (∀ k r e, live now st k r e → ¬ same_family r t f) →
  (∀ fl, fl ∈ F → fl_tenant fl = t → fl_family fl ≠ f) → (∀ u', f ∈ user_set st t u' → u' = u) →
  sessions_ok now (mkFlight t u f :: F) st.
Proof.
  intros Hok Hdead Hnew Hown. split.
  - apply Hok.
  - apply Hok.
  - intros k r e fl Hl [->|Hfl]%elem_of_cons; [by apply (Hdead k r e)|by apply (so_landed _ _ _ Hok k r e)].
  - cbn. apply NoDup_cons. split; [|apply Hok]. rewrite list_elem_of_fmap. intros (fl & [= -> ->] & Hfl).
    by apply (Hnew fl).
  - apply Hok.
  - apply Hok.
  - apply Hok.
  - apply Hok.
  - intros fl u' [->|Hfl]%elem_of_cons; [apply Hown|by apply (so_flight_owner _ _ _ Hok)].
Qed.

Section sessions.
Variable sha256Hex : string → string.
Hypothesis sha256Hex_length : ∀ s, String.length (sha256Hex s) = 64%nat.

(** What consuming a token does, on each branch. *)
Definition consume_spec (now t : Z) (f token : string) (F : list Flight) (st st' : Store) (c : ConsumeResult) : Prop :=
  match c with
  | consumed_ok u t' f' role parent exp =>
      t' = t ∧ f' = f ∧
      (∃ r e, live now st (tokenKey t f (sha256Hex token)) r e ∧ same_family r t f ∧ user_id r = u) ∧
      (∀ k r e, live now st' k r e ↔ live now st k r e ∧ ¬ same_family r t f) ∧
      sessions_ok now (mkFlight t u f :: F) st' ∧ shrinks st st'
  | consumed_reuse f' n =>
      f' = f ∧ (∀ r e, ¬ live now st (tokenKey t f (sha256Hex token)) r e) ∧
      (∃ k r e, live now st k r e ∧ same_family r t f) ∧
      (∀ k r e, live now st' k r e ↔ live now st k r e ∧ ¬ same_family r t f) ∧
      sessions_ok now F st' ∧ shrinks st st'
  | consumed_not_found =>
      st' = st ∧ ∀ k r e, live now st k r e → ¬ same_family r t f
  end.

Lemma consume_outcome now t f token F st :
  sessions_ok now F st →
  consume_spec now t f token F st (consumeRefreshToken sha256Hex now t f token None st).2
    (consumeRefreshToken sha256Hex now t f token None st).1.
Proof.
  intros Hok. unfold consumeRefreshToken, refresh_consume. set (h := sha256Hex token). set (key := tokenKey t f h).
  assert (Hcut : String.substring (String.length key - 64) 64 key = h).
  { apply (tokenKey_cut t f h EmptyString), sha256Hex_length. }
  assert (Hpre : ∀ m, String.substring 0 (String.length key - 64) key +:+ m = tokenKey t f m).
  { intros m. by apply tokenKey_cut, sha256Hex_length. }
  destruct (hgetall now key st) as [r|] eqn:Hget.
  - apply hgetall_live in Hget as [e Hl]. rewrite Hcut. cbn.
    destruct (so_indexed _ _ _ Hok _ _ _ Hl) as (h' & Hh' & Hk & _ & Hu).
    apply tokenKey_inj in Hk as (Ht & Hf & _); [|by apply sha256Hex_length|done].
    set (st' := srem _ _ _ _).
    assert (Hlive : ∀ k r' e', live now st' k r' e' ↔ live now st k r' e' ∧ ¬ same_family r' t f).
    { intros k r' e'. transitivity (live now (del_token now key st).2 k r' e'); [done|]. rewrite del_token_live.
      split; intros [Hl' Hne]; (split; [done|]); intros E; apply Hne.
      - destruct E. eapply so_one; eauto; congruence.
      - subst k. destruct Hl as [Hl _], Hl' as [Hl' _]. rewrite Hl in Hl'. by injection Hl' as <- _. }
    assert (Hok' : sessions_ok now F st').
    { apply (sessions_without now F st st' t f); [done|done| |].
      - intros k Hk. unfold st'. by rewrite srem_sets.
      - destruct (live_member now F st t f h r e Hok (sha256Hex_length token) Hl) as (e' & Hm).
        unfold st', srem. cbn. unfold live_set in *. cbn. rewrite Hm. destruct (decide _) as [_|Hne]; [|set_solver].
        apply lookup_delete_eq. }
    assert (Hsets : ∀ t' u, sets st' !! userKey t' u = sets st !! userKey t' u).
    { intros t' u. unfold st'. rewrite srem_sets; [done|]. intros E. by eapply familyKey_userKey. }
    split_and!; [done..|by exists r, e|done| |by apply shrinks_same]. rewrite <- Ht, <- Hf in Hu.
    assert (Huser : ∀ u, user_set st' t u = user_set st t u) by (intros u; unfold user_set; by rewrite Hsets).
    apply sessions_take_off; [done|by intros k r' e' [_ Hne]%Hlive| |].
    + intros fl Hfl E1 E2. apply (so_landed _ _ _ Hok _ _ _ _ Hl Hfl). by split; congruence.
    + intros u'. rewrite Huser. intros Hu'. exact (so_owner _ _ _ Hok _ _ _ _ Hu' Hu).
  - assert (Hdead : ∀ r e, ¬ live now st key r e).
    { intros r e Hl. apply eq_None_not_Some in Hget. apply Hget. exists r. apply hgetall_live. eauto. }
    destruct (decide _) as [Hempty|Hne]; cbn.
    { split; [done|]. intros k r e Hl [<- <-]. destruct (so_indexed _ _ _ Hok k r e Hl) as (h' & _ & _ & (s & e' & Hs & Hh & He) & _).
      destruct Hl as [_ Hl]. revert Hempty. unfold smembers, live_set. rewrite Hs. cbn.
      destruct (Z.ltb_spec now e'); [set_solver|lia]. }
    replace ((λ m, _) <$> elements (smembers now (familyKey t f) st))
      with (tokenKey t f <$> elements (smembers now (familyKey t f) st)) by (apply list_fmap_ext; intros; by rewrite Hpre).
    pose proof (revoke_tokens_live now F st t f) as Hl. pose proof (revoke_tokens_ok now F st t f Hok) as Hok'.
    pose proof (revoke_tokens_user_sets now t f st) as Hs.
    unfold revoke_tokens, revoke_members in Hl, Hok', Hs. destruct (del_tokens _ _ _) as [n st1]. cbn in *. split_and!; [done|done| | |done|].
    + apply set_choose_L in Hne as (x & Hx). revert Hx. unfold smembers, live_set.
      destruct (sets st !! familyKey t f) as [[s e]|] eqn:Es; [|set_solver].
      destruct (so_members _ _ _ Hok t f s e Es) as (e' & -> & Hm). cbn.
      destruct (Z.ltb_spec now e') as [He|]; [|set_solver]. intros Hx. destruct (Hm x Hx He) as (r & Hl').
      exists (tokenKey t f x), r, e'. split; [done|]. destruct (so_indexed _ _ _ Hok _ r e' Hl') as (h' & Hh' & E & _).
      apply tokenKey_inj in E as (-> & -> & _); [done|exact (so_hashes _ _ _ Hok _ _ _ _ _ Es Hx)|done].
    + intros k r e. by apply Hl.
    + apply shrinks_same. intros t' u. apply Hs. intros E. by eapply familyKey_userKey.
Qed.

Lemma smembers_user now F st t u : sessions_ok now F st → smembers now (userKey t u) st = user_set st t u.
Proof.
  intros Hok. unfold smembers, live_set, user_set. destruct (sets st !! userKey t u) as [[s e]|] eqn:E; [|done].
  by apply (so_user_sets _ _ _ Hok) in E as ->.
Qed.

Lemma live_set_unexpired now k st s e : live_set now k st = Some (s, e) → unexpired now e = true.
Proof. unfold live_set. intros H. repeat case_match; simplify_eq. done. Qed.

(** The set of a family after SADD and EXPIRE. *)
Lemma sadd_expire_sets now k m ttl st :
  0 < ttl →
  sets (expire_set now k ttl (sadd now k m st)) = <[k := ({[m]} ∪ smembers now k st, Some (now + ttl))]> (sets st).
Proof.
  intros Httl. unfold expire_set, sadd, live_set. cbn. rewrite lookup_insert_eq.
  assert (Hu : unexpired now (match live_set now k st with Some (_, e) => e | None => None end) = true).
  { destruct (live_set now k st) as [[s e]|] eqn:E; [by eapply live_set_unexpired|done]. }
  unfold live_set in Hu. rewrite Hu. by rewrite (proj2 (Z.ltb_lt 0 ttl) Httl), insert_insert_eq.
Qed.

Lemma issue_store now token uuid p F st :
  let t := p_tenantId p in
  let u := p_userId p in
  let f := default uuid (p_familyId p) in
  let h := sha256Hex token in
  sessions_ok now F st → 0 < p_ttlSec p →
  ∃ r, same_family r t f ∧ user_id r = u ∧
    (issueRefreshToken sha256Hex now token uuid p st).2 =
      mkStore (<[tokenKey t f h := (r, now + p_ttlSec p)]> (tokens st))
        (<[userKey t u := ({[f]} ∪ user_set st t u, None)]>
           (<[familyKey t f := ({[h]} ∪ smembers now (familyKey t f) st, Some (now + p_ttlSec p))]> (sets st)))
        (lockouts st).
Proof.
  intros t u f h Hok Httl. unfold issueRefreshToken. fold t u f h. set (r := mkRefresh _ _ _ _ _ _ _ _ _).
  exists r. split; [done|]. split; [done|]. cbn [snd]. unfold hset_expire. rewrite (proj2 (Z.ltb_lt 0 _) Httl).
  set (st1 := mkStore _ _ _). pose proof (sadd_expire_sets now (familyKey t f) h (p_ttlSec p) st1 Httl) as Hsets.
  set (st2 := expire_set _ _ _ _) in *. replace (tokens (sadd now (userKey t u) f st2)) with (tokens st1) by done.
  unfold sadd at 1. assert (Hu : sets st2 !! userKey t u = sets st !! userKey t u).
  { rewrite Hsets. apply lookup_insert_ne, familyKey_userKey. }
  assert (Hlive : live_set now (userKey t u) st2 = live_set now (userKey t u) st) by (unfold live_set; by rewrite Hu).
  unfold smembers at 1. rewrite Hlive, Hsets. fold (smembers now (userKey t u) st). rewrite (smembers_user now F) by done.
  replace (match live_set now (userKey t u) st with Some (_, e) => e | None => None end) with (@None Z); [done|].
  unfold live_set. destruct (sets st !! userKey t u) as [[s e]|] eqn:E; [|done].
  by apply (so_user_sets _ _ _ Hok) in E as ->.
Qed.
(** A new token of a family without live tokens. *)
Lemma sessions_issue now F st t u f h r ttl :
  sessions_ok now F st → String.length h = 64%nat → same_family r t f → user_id r = u →
  (∀ k r e, live now st k r e → ¬ same_family r t f) →
  (∀ fl, fl ∈ F → fl_tenant fl = t → fl_family fl ≠ f) →
  (∀ u', f ∈ user_set st t u' → u' = u) →
  let st' := mkStore (<[tokenKey t f h := (r, now + ttl)]> (tokens st))
               (<[userKey t u := ({[f]} ∪ user_set st t u, None)]>
                  (<[familyKey t f := ({[h]} ∪ smembers now (familyKey t f) st, Some (now + ttl))]> (sets st)))
               (lockouts st) in
  (∀ k r' e, live now st' k r' e ↔
     live now st k r' e ∨ (k = tokenKey t f h ∧ r' = r ∧ e = now + ttl)) →
  sessions_ok now F st'.
Proof.
  intros Hok Hh [<- <-] <- Hdead Hfl Hown st' Hlive. set (t := tenant_id r) in *. set (f := family_id r) in *.
  assert (Hfam : ∀ t' f', familyKey t' f' ≠ familyKey t f → sets st' !! familyKey t' f' = sets st !! familyKey t' f').
  { intros t' f' Hne. cbn. rewrite lookup_insert_ne by (intros E; by eapply familyKey_userKey). by apply lookup_insert_ne. }
  assert (Hfam' : sets st' !! familyKey t f = Some ({[h]} ∪ smembers now (familyKey t f) st, Some (now + ttl))).
  { cbn. rewrite lookup_insert_ne by (intros E; by eapply familyKey_userKey). apply lookup_insert_eq. }
  assert (Huser : ∀ t' u' x, x ∈ user_set st' t' u' ↔ x ∈ user_set st t' u' ∨ (t' = t ∧ u' = user_id r ∧ x = f)).
  { intros t' u' x. unfold user_set. cbn. destruct (decide (userKey t' u' = userKey t (user_id r))) as [E|Hne].
    - rewrite E, lookup_insert_eq. apply userKey_inj in E as [-> ->]. fold (user_set st t (user_id r)). set_solver.
    - rewrite lookup_insert_ne, lookup_insert_ne by (done || intros E; by eapply familyKey_userKey).
      split; [tauto|]. intros [?|(-> & -> & _)]; [done|by destruct Hne]. }
  split.
  - intros k r' e [Hl|(-> & -> & ->)]%Hlive.
    + destruct (so_indexed _ _ _ Hok k r' e Hl) as (h' & Hh' & Hk & Hi & Hu). exists h'. split_and!; [done..|].
      split; [|apply Huser; by left]. rewrite Hfam; [done|]. intros [Et Ef]%familyKey_inj. by apply (Hdead k r' e Hl).
    + exists h. split_and!; [done..|]. split; [|apply Huser; by right]. fold t f. rewrite Hfam'. eexists _, _.
      split_and!; [done|set_solver|lia].
  - intros k r1 e1 k' r2 e2 [H1|(-> & -> & ->)]%Hlive [H2|(-> & -> & ->)]%Hlive Et Ef; [by eapply so_one| | |done].
    + exfalso. by apply (Hdead k r1 e1).
    + exfalso. by apply (Hdead k' r2 e2).
  - intros k r' e fl [Hl|(-> & -> & ->)]%Hlive Hin [Et Ef]; [by eapply so_landed|]. by apply (Hfl fl Hin).
  - apply Hok.
  - intros t' f' s e x. destruct (decide (familyKey t' f' = familyKey t f)) as [[-> ->]%familyKey_inj|Hne].
    + rewrite Hfam'. intros [= <- <-] [->%elem_of_singleton|Hx]%elem_of_union; [done|].
      apply elem_of_smembers in Hx as (s & e' & Hs & Hx). by eapply so_hashes.
    + rewrite Hfam by done. by apply (so_hashes _ _ _ Hok).
  - intros t' f' s e. destruct (decide (familyKey t' f' = familyKey t f)) as [E|Hne].
    + rewrite E, Hfam', (dead_members now F st t f Hok Hdead). intros [= <- <-]. apply familyKey_inj in E as [-> ->].
      eexists. split; [done|]. intros x [->%elem_of_singleton|Hx]%elem_of_union _; [|set_solver].
      exists r. apply Hlive. by right.
    + rewrite Hfam by done. intros Hs. destruct (so_members _ _ _ Hok t' f' s e Hs) as (e' & -> & Hm). exists e'.
      split; [done|]. intros x Hx He. destruct (Hm x Hx He) as (r' & Hl). exists r'. apply Hlive. by left.
  - intros t' u' s e. cbn. destruct (decide (userKey t' u' = userKey t (user_id r))) as [->|Hne].
    + rewrite lookup_insert_eq. by intros [= _ <-].
    + rewrite lookup_insert_ne, lookup_insert_ne by (done || intros E; by eapply familyKey_userKey). by eapply so_user_sets.
  - intros t' u1 u2 x [H1|H1]%Huser [H2|H2]%Huser.
    + by eapply so_owner.
    + destruct H2 as (-> & -> & ->). by apply Hown.
    + destruct H1 as (-> & -> & ->). symmetry. by apply Hown.
    + by destruct H1 as (_ & -> & _), H2 as (_ & -> & _).
  - intros fl u' Hin [H1|(Et & -> & Ef)]%Huser; [by eapply so_flight_owner|]. exfalso. by apply (Hfl fl Hin).
Qed.

(** What issuing a token does. *)
Lemma issue_outcome now token uuid p F st :
  let t := p_tenantId p in
  let u := p_userId p in
  let f := default uuid (p_familyId p) in
  sessions_ok now F st → 0 < p_ttlSec p →
  (∀ k r e, live now st k r e → ¬ same_family r t f) →
  (∀ fl, fl ∈ F → fl_tenant fl = t → fl_family fl ≠ f) →
  (∀ u', f ∈ user_set st t u' → u' = u) →
  let '(i, st') := issueRefreshToken sha256Hex now token uuid p st in
  i_token i = token ∧ i_familyId i = f ∧ sessions_ok now F st' ∧
  (∀ t' u' x, x ∈ user_set st' t' u' → x ∈ user_set st t' u' ∨ x = f) ∧
  (∃ r, same_family r t f ∧ user_id r = u ∧
     ∀ k r' e, live now st' k r' e ↔
       live now st k r' e ∨ (k = tokenKey t f (sha256Hex token) ∧ r' = r ∧ e = now + p_ttlSec p)).
Proof.
  intros t u f Hok Httl Hdead Hfl Hown. destruct (issue_store now token uuid p F st Hok Httl) as (r & Hr & Hu & Hst).
  fold t u f in Hr, Hu, Hst. destruct (issueRefreshToken _ _ _ _ _ _) as [i st'] eqn:Ei. cbn [snd] in Hst.
  assert (Hlive : ∀ k r' e, live now st' k r' e ↔
       live now st k r' e ∨ (k = tokenKey t f (sha256Hex token) ∧ r' = r ∧ e = now + p_ttlSec p)).
  { intros k r' e. rewrite Hst. unfold live. cbn. rewrite lookup_insert_Some. split.
    - intros [[(<- & [= <- <-])|[_ Hk]] Hlt]; [by right|by left].
    - intros [[Hk Hlt]|(-> & -> & ->)]; [|split; [by left|lia]]. split; [|done].
      destruct (decide (tokenKey t f (sha256Hex token) = k)) as [<-|Hne]; [|by right]. exfalso.
      destruct (so_indexed _ _ _ Hok _ r' e (conj Hk Hlt)) as (h' & Hh' & E & _).
      apply tokenKey_inj in E as (Et & Ef & _); [|by apply sha256Hex_length|done]. by apply (Hdead _ r' e (conj Hk Hlt)). }
  unfold issueRefreshToken in Ei. injection Ei as <- _. split_and!; [done..| | |by exists r]; subst st'.
  2: { intros t' u' x. unfold user_set. cbn. destruct (decide (userKey t' u' = userKey t u)) as [E|Hne].
       - rewrite E, lookup_insert_eq. fold (user_set st t u). set_solver.
       - rewrite lookup_insert_ne, lookup_insert_ne by (done || intros E; by eapply familyKey_userKey). by left. }
  apply sessions_issue; [done|apply sha256Hex_length|done..].
Qed.
End sessions.

(** ** Revoking *)

Lemma revoke_families_outcome now F t fs st :
  sessions_ok now F st →
  let st' := (revoke_families now t fs st).2 in
  sessions_ok now F st' ∧ (∀ t' u, sets st' !! userKey t' u = sets st !! userKey t' u) ∧
  ∀ k r e, live now st' k r e ↔ live now st k r e ∧ ∀ f, f ∈ fs → ¬ same_family r t f.
Proof.
  revert st. induction fs as [|f fs IH]; intros st Hok; cbn.
  { split_and!; [done..|]. intros k r e. split; [|tauto]. intros Hl. split; [done|]. intros f Hf. by apply not_elem_of_nil in Hf. }
  pose proof (revoke_tokens_live now F st t f) as Hl1. pose proof (revoke_tokens_ok now F st t f Hok) as Hok1.
  pose proof (revoke_tokens_user_sets now t f st) as Hs1.
  destruct (revoke_tokens now t f st) as [n st1]. cbn [snd] in *. specialize (IH st1 Hok1).
  destruct (revoke_families now t fs st1) as [m st2]. cbn [snd] in *. destruct IH as (Hok2 & Hs2 & Hl2).
  split_and!; [done| |].
  - intros t' u. rewrite Hs2. apply Hs1. intros E. by eapply familyKey_userKey.
  - intros k r e. rewrite Hl2, (Hl1 k r e Hok). setoid_rewrite elem_of_cons. naive_solver.
Qed.

Lemma revokeAll_outcome now F t u st :
  sessions_ok now F st →
  let st' := (revokeAllForUser now t u st).2 in
  sessions_ok now F st' ∧ shrinks st st' ∧
  ∀ k r e, live now st' k r e ↔ live now st k r e ∧ ¬ (tenant_id r = t ∧ user_id r = u).
Proof.
  intros Hok. unfold revokeAllForUser. rewrite (smembers_user now F) by done.
  pose proof (revoke_families_outcome now F t (elements (user_set st t u)) st Hok) as (Hok1 & Hs1 & Hl1).
  destruct (revoke_families _ _ _ st) as [n st1]. cbn [snd] in *.
  assert (Hlive : ∀ k r e, live now st1 k r e ↔ live now st k r e ∧ ¬ (tenant_id r = t ∧ user_id r = u)).
  { intros k r e. rewrite Hl1. setoid_rewrite elem_of_elements. split; intros [Hl Hne]; (split; [done|]).
    - intros [Et Eu]. destruct (so_indexed _ _ _ Hok k r e Hl) as (h & _ & _ & _ & Hu). rewrite Et, Eu in Hu.
      by apply (Hne _ Hu).
    - intros f Hf [Et Ef]. apply Hne. split; [done|]. destruct (so_indexed _ _ _ Hok k r e Hl) as (h & _ & _ & _ & Hu).
      rewrite Et, Ef in Hu. exact (so_owner _ _ _ Hok _ _ _ _ Hu Hf). }
  assert (Hempty : user_set (del_set (userKey t u) st1) t u = ∅).
  { unfold user_set. cbn. by rewrite lookup_delete_eq. }
  split_and!; [|apply (shrinks_trans _ st1); [by apply shrinks_same|]|done].
  2: { intros t' u'. destruct (decide (userKey t' u' = userKey t u)) as [[-> ->]%userKey_inj|Hne]; [rewrite Hempty; set_solver|].
       unfold user_set. cbn. by rewrite lookup_delete_ne. }
  apply (sessions_shrink now F st1 _ t u); [done|done| | | |].
  - intros k Hk. cbn. by apply lookup_delete_ne.
  - intros s e. cbn. by rewrite lookup_delete_eq.
  - rewrite Hempty. set_solver.
  - intros k r e Hl Et Eu. apply Hlive in Hl as [_ Hne]. by destruct Hne.
Qed.

Lemma revokeFamily_outcome now F t f u st :
  sessions_ok now F st →
  let st' := (revokeFamily now t f u st).2 in
  sessions_ok now F st' ∧ shrinks st st' ∧ ∀ k r e, live now st' k r e ↔ live now st k r e ∧ ¬ same_family r t f.
Proof.
  intros Hok. unfold revokeFamily. pose proof (revoke_tokens_live now F st t f) as Hl.
  assert (Hs : shrinks st (revoke_tokens now t f st).2).
  { apply shrinks_same. intros t' u'. apply revoke_tokens_user_sets. intros E. by eapply familyKey_userKey. }
  pose proof (revoke_tokens_ok now F st t f Hok) as Hok1. destruct (revoke_tokens now t f st) as [n st1].
  cbn [snd] in *. assert (Hl1 : ∀ k r e, live now st1 k r e ↔ live now st k r e ∧ ¬ same_family r t f).
  { intros k r e. by apply Hl. }
  destruct u as [u|]; [|done]. split_and!; [|apply (shrinks_trans _ st1); [done|apply srem_shrinks]|done].
  apply sessions_forget; [done|]. intros k r e [_ Hne]%Hl1. done.
Qed.

(** ** Lockout hashes *)

Lemma read_written now now' t name h st :
  now' < now + 24 * 3600 → read_lockout now' t name (write_lockout now t name h st) = h.
Proof.
  intros H. unfold read_lockout, hgetall_lockout, write_lockout. cbn. rewrite lookup_insert_eq.
  by rewrite (proj2 (Z.ltb_lt now' _)) by lia.
Qed.

Lemma read_other now now' t name h st t' name' :
  lockout_key t name ≠ lockout_key t' name' →
  read_lockout now' t' name' (write_lockout now t name h st) = read_lockout now' t' name' st.
Proof. intros H. unfold read_lockout, hgetall_lockout, write_lockout. cbn. by rewrite lookup_insert_ne. Qed.

(** A failure within the window of the last, below the threshold, and at it. *)
Lemma next_lockout_count now h :
  now - last_fail_at h <= WINDOW_SEC ∨ fail_count h = 0 → fail_count h + 1 < FAIL_THRESHOLD →
  next_lockout now h = mkLockout (fail_count h + 1) now (locked_until h) (level h).
Proof.
  intros Hgap Hlt. unfold next_lockout.
  assert (E : (if negb (last_fail_at h =? 0) && (WINDOW_SEC <? now - last_fail_at h) then 1 else fail_count h + 1) =
              fail_count h + 1).
  { destruct (negb _); cbn [andb]; [|done]. destruct (Z.ltb_spec WINDOW_SEC (now - last_fail_at h)); [lia|done]. }
  rewrite E. by rewrite (proj2 (Z.leb_gt _ _) Hlt).
Qed.

Definition cooldown (level : Z) : Z :=
  nth (Z.to_nat (Z.min level (Z.of_nat (length LADDER_SEC) - 1))) LADDER_SEC (4 * 3600).

Lemma next_lockout_lock now h :
  now - last_fail_at h <= WINDOW_SEC → fail_count h + 1 = FAIL_THRESHOLD →
  next_lockout now h = mkLockout 0 now (now + cooldown (level h)) (Z.min (level h + 1) (Z.of_nat (length LADDER_SEC))).
Proof.
  intros Hgap He. unfold next_lockout.
  assert (E : (if negb (last_fail_at h =? 0) && (WINDOW_SEC <? now - last_fail_at h) then 1 else fail_count h + 1) =
              FAIL_THRESHOLD).
  { destruct (negb _); cbn [andb]; [|done]. destruct (Z.ltb_spec WINDOW_SEC (now - last_fail_at h)); [lia|done]. }
  by rewrite E.
Qed.

Lemma cooldown_bounds l : 15 * 60 <= cooldown l <= 4 * 3600.
Proof.
  unfold cooldown. set (i := Z.to_nat _). assert (Hi : (i < 5)%nat) by (unfold i; cbn; lia). clearbody i.
  do 5 (destruct i as [|i]; [cbn; lia|]). lia.
Qed.

(** Failures whose reads all come before their writes count as one: what is left is the
    last writer's increment of the hash they all read. *)
Lemma lockout_lost_updates t name cur ts now st :
  ts ≠ [] → now < List.last ts 0 + 24 * 3600 →
  read_lockout now t name
    (foldl (λ st' t', write_lockout t' t name (next_lockout t' cur) st') st ts) = next_lockout (List.last ts 0) cur.
Proof.
  destruct ts as [|x l _] using rev_ind; [done|]. intros _. rewrite List.last_last. intros Hlt.
  rewrite foldl_app. cbn [foldl]. by apply read_written.
Qed.
