(* ===== verification/Auth.v ===== *)
(** Authentication: access tokens ([api/src/auth/jwt.ts]), the middleware that turns a
    token into the context [Can] decides on ([api/src/auth/middleware.ts]), and the login,
    refresh, logout and password routes ([api/src/routes/auth]).

    Parameters: Argon2 ([verifyPassword], [hashPassword], [needsRehash]), the list of
    leaked passwords ([isPwned]), the collation of the users table ([same_username]), and the JWT library
    ([jwt_sign], [jwtVerify]).  Random
    tokens and identifiers are arguments of the handlers, which run at an instant given in
    seconds. *)

From S2P Require Import Prelude Rbac Sessions.

#[local] Open Scope Z_scope.

(** ** Configuration and users *)

Record Env := mkEnv {
  jwtIssuer : string;
  accessTokenTtlSec : Z;
  refreshTtlAgentSec : Z;
  refreshTtlAdminSec : Z;
  refreshTtlIntegratorSec : Z;
}.

Definition env_defaults : Env := mkEnv "vici2-api" 900 (30 * 24 * 3600) (7 * 24 * 3600) (60 * 60).

(** The roles of the users table, and the strings the client library gives them. *)
Inductive UserRole : Set := db_agent | db_supervisor | db_admin | db_superadmin | db_integrator | db_viewer.

Definition user_role_name (r : UserRole) : string :=
  match r with
  | db_agent => "agent"
  | db_supervisor => "supervisor"
  | db_admin => "admin"
  | db_superadmin => "superadmin"
  | db_integrator => "integrator"
  | db_viewer => "viewer"
  end.

Record User := mkUser {
  u_id : Z;
  u_tenantId : Z;
  username : string;
  passwordHash : string;
  u_role : UserRole;
  u_active : bool;
  totpRequired : bool;
  lastLoginAt : option Z;
}.

Definition with_password (h : string) (u : User) : User :=
  mkUser (u_id u) (u_tenantId u) (username u) h (u_role u) (u_active u) (totpRequired u) (lastLoginAt u).

Definition with_login (now : Z) (u : User) : User :=
  mkUser (u_id u) (u_tenantId u) (username u) (passwordHash u) (u_role u) (u_active u) (totpRequired u) (Some now).

(** A row of the audit log; its JSON as names and values. *)
Record Audit := mkAudit {
  ad_actorUserId : option Z;
  ad_actorKind : string;
  ad_action : string;
  ad_tenantId : Z;
  ad_entityType : string;
  ad_entityId : option string;
  ad_afterJson : list (string * string);
}.

Record World := mkWorld { store : Store; users : gmap Z User; audit_log : list Audit }.

Definition with_store (st : Store) (w : World) : World := mkWorld st (users w) (audit_log w).
Definition with_users (us : gmap Z User) (w : World) : World := mkWorld (store w) us (audit_log w).
Definition audit (a : Audit) (w : World) : World := mkWorld (store w) (users w) (audit_log w ++ [a]).

(** ** Access tokens *)

Inductive Audience : Set := api | ws.

#[export] Instance Audience_eq_dec : EqDecision Audience.
Proof. solve_decision. Defined.

Inductive CampaignsKind : Set := cmps_all | cmps_list | cmps_ref.

#[export] Instance CampaignsKind_eq_dec : EqDecision CampaignsKind.
Proof. solve_decision. Defined.

(** What a token holds; a claim of a token signed by another program may be missing or of
    another type, here [None]. *)
Record Payload := mkPayload {
  c_iss : string;
  c_aud : Audience;
  c_sub : string;
  c_uid : option Z;
  c_tenant_id : option Z;
  c_role : option string;
  c_perms : option (list Verb);
  c_ug : option Z;
  c_cmps_kind : option CampaignsKind;
  c_cmps : option (list Z);
  c_iat : Z;
  c_exp : Z;
  c_jti : string;
  c_totp_verified : option bool;
}.

(** The claims after the checks of [verifyAccessToken]. *)
Record AccessTokenClaims := mkClaims {
  cl_uid : Z;
  cl_tenant_id : Z;
  cl_role : string;
  cl_totp_verified : bool;
  cl_payload : Payload;
}.

Record SignAccessTokenInput := mkSign {
  s_uid : Z;
  s_tenantId : Z;
  s_role : string;
  s_perms : option (list Verb);
  s_totpVerified : bool;
  s_aud : Audience;
  s_ttlSec : Z;
}.

(** The context of a request. *)
Record ApiAuth := mkApiAuth {
  a_uid : Z;
  a_tenantId : Z;
  a_role : Role;
  a_perms : list Verb;
  a_jti : string;
  a_totpVerified : bool;
  a_userGroupId : option Z;
  a_allowedCampaigns : Campaigns;
}.

Definition toRbacAuth (auth : ApiAuth) : AuthContext :=
  mkAuth (a_uid auth) (a_tenantId auth) (a_role auth) (a_userGroupId auth) (a_allowedCampaigns auth)
    (Some (a_perms auth)) (a_jti auth) (Some (a_totpVerified auth)) (Some true).

Definition role_of_name (s : string) : option Role := List.find (λ r, String.eqb (role_name r) s) ROLES.

(** [permissionsFor] of a string cast to a role; [None] is [undefined]. *)
Definition permissions_of (role : string) : option (list Verb) := permissionsFor <$> role_of_name role.

Definition permsAsSet (r : Role) : list Verb := permissionsFor r.

(** Unrestricted is where the code starts. *)
Definition allowed_campaigns (role : Role) (p : Payload) : Campaigns :=
  match c_cmps_kind p, c_cmps p with
  | Some cmps_list, Some l => CampaignList l
  | kind, _ =>
      if bool_decide (kind = Some cmps_all ∨ role = super_admin ∨ role = admin) then AllCampaigns
      else if bool_decide (kind = Some cmps_ref) then AllCampaigns
      else AllCampaigns
  end.

Record AuthError := mkError { statusCode : Z; code : string }.

(** ["Bearer "], in any case, then the token without surrounding spaces. *)
Definition extractBearer (authorization : option string) : option string :=
  h ← authorization;
  if String.prefix "bearer " (toLowerCase h)
  then Some (trim (String.substring 7 (String.length h - 7) h))
  else None.

(** An active user whose role the permissions know. *)
Definition may_refresh (u : User) : bool :=
  u_active u && match permissions_of (user_role_name (u_role u)) with Some _ => true | None => false end.

Section auth.
Variable e : Env.
Variable jwt_sign : Payload → string.
(** The signature, the issuer, the audience and the expiry with a tolerance. *)
Variable jwtVerify : Z → string → Audience → Z → string → result string Payload.

Definition signAccessToken (now : Z) (jti : string) (input : SignAccessTokenInput) : string * Payload :=
  let claims := mkPayload (jwtIssuer e) (s_aud input) ("u_" +:+ zs (s_uid input)) (Some (s_uid input))
                  (Some (s_tenantId input)) (Some (s_role input)) (s_perms input) None None None
                  now (now + s_ttlSec input) jti (Some (s_totpVerified input)) in
  (jwt_sign claims, claims).

Definition verifyAccessToken (now : Z) (token : string) (expectedAud : Audience) : result string AccessTokenClaims :=
  payload ← jwtVerify now (jwtIssuer e) expectedAud 60 token;
  tenant_id ← of_option "tenant_id missing or not number"%string (c_tenant_id payload);
  uid ← of_option "uid missing or not number"%string (c_uid payload);
  role ← of_option "role missing"%string (c_role payload);
  totp ← of_option "totp_verified missing"%string (c_totp_verified payload);
  Ok (mkClaims uid tenant_id role totp payload).

Definition authenticate (now : Z) (authorization : option string) (aud : Audience) : result AuthError ApiAuth :=
  match extractBearer authorization with
  | None | Some EmptyString => Err (mkError 401 "missing_authorization")
  | Some token =>
      match verifyAccessToken now token aud with
      | Err msg => Err (mkError 401 ("invalid_token: " +:+ msg))
      | Ok claims =>
          match role_of_name (cl_role claims) with
          | None => Err (mkError 401 "invalid_role")
          | Some role =>
              let p := cl_payload claims in
              Ok (mkApiAuth (cl_uid claims) (cl_tenant_id claims) role (default (permsAsSet role) (c_perms p))
                    (c_jti p) (cl_totp_verified claims) (c_ug p) (allowed_campaigns role p))
          end
      end
  end.

Definition requireAuth (now : Z) (authorization : option string) : result AuthError ApiAuth :=
  authenticate now authorization api.

Definition requireWsToken (now : Z) (authorization : option string) : result AuthError ApiAuth :=
  authenticate now authorization ws.

(** The guards answer with an error, or let the request pass. *)
Definition requireRole (role : Role) (auth : option ApiAuth) : option AuthError :=
  match auth with
  | None => Some (mkError 401 "not_authenticated")
  | Some a => if roleAtLeast (a_role a) role then None else Some (mkError 403 "insufficient_role")
  end.

Definition default_scope (a : ApiAuth) : ScopeContext := mkScope (Some (a_tenantId a)) None None None None None.

(** Without a writer for audit rows, which a sensitive verb would use. *)
Definition requirePermission (verb : Verb) (extractScope : option ScopeContext) (auth : option ApiAuth)
    : option AuthError :=
  match auth with
  | None => Some (mkError 401 "not_authenticated")
  | Some a =>
      if allowed (Can (toRbacAuth a) verb (default (default_scope a) extractScope)) then None
      else Some (mkError 403 "forbidden")
  end.

Definition requireTotp (auth : option ApiAuth) : option AuthError :=
  match auth with
  | None => Some (mkError 401 "not_authenticated")
  | Some a => if a_totpVerified a then None else Some (mkError 403 "totp_not_verified")
  end.

(** ** Routes *)

Inductive Response :=
  | Fail (status : Z) (error : string) (locked_until : option Z)
  | LoggedIn (access refresh family : string) (access_exp refresh_exp : Z) (user : User)
  | Refreshed (access refresh family : string) (access_exp refresh_exp : Z)
  | WsToken (token : string) (expires_at : Z)
  | NoContent.

Variable verifyPassword : string → string → bool.
Variable hashPassword : string → string.
Variable needsRehash : string → bool.
Variable isPwned : string → bool.
Variable same_username : string → string → bool.
Variable sha256Hex : string → string.

Record LoginBody := mkLogin { b_tenant_id : option Z; b_username : string; b_password : string }.

Definition length_in (lo hi : nat) (s : string) : bool := (lo <=? String.length s)%nat && (String.length s <=? hi)%nat.

Definition valid_login (b : LoginBody) : bool :=
  match b_tenant_id b with Some t => 0 <? t | None => true end &&
  length_in 1 64 (b_username b) && length_in 1 256 (b_password b).

Definition refreshTtlForRole (role : string) : Z :=
  if String.eqb role "agent" then refreshTtlAgentSec e
  else if String.eqb role "integrator" then refreshTtlIntegratorSec e
  else refreshTtlAdminSec e.

(** [findUnique] by tenant and name, which the database compares by its collation. *)
Definition find_user (tenantId : Z) (name : string) (w : World) : option User :=
  List.find (λ u, (u_tenantId u =? tenantId) && same_username (username u) name) (map_to_list (users w)).*2.

Definition login_failure (tenantId : Z) (user : option User) (name : string) (after : list (string * string)) : Audit :=
  mkAudit (u_id <$> user) "user" "auth.login.failure" tenantId "user" (Some name) after.

(** The access and refresh tokens of a user who may have them. *)
Definition access_input (u : User) (perms : list Verb) : SignAccessTokenInput :=
  mkSign (u_id u) (u_tenantId u) (user_role_name (u_role u)) (Some perms) (negb (totpRequired u)) api
    (accessTokenTtlSec e).

Definition refresh_params (u : User) (family parent : option string) : IssueRefreshParams :=
  mkIssue (u_tenantId u) (u_id u) (user_role_name (u_role u)) (refreshTtlForRole (user_role_name (u_role u)))
    family parent None None.

(** Spreading [undefined] throws; the framework answers for the route. *)
Definition type_error : Response := Fail 500 "Internal Server Error" None.

(** The end of the route for a wrong name or password. *)
Definition login_rejected (now tenantId : Z) (user : option User) (name : string) (w : World) : Response * World :=
  let '(next, st) := recordFailure now tenantId name (store w) in
  let w1 := audit (login_failure tenantId user name
                     [("fail_count", zs (ls_failCount next)); ("locked_until", zs (ls_lockedUntil next))]%string)
              (with_store st w) in
  if isLocked next then
    (Fail 429 "locked" (Some (ls_lockedUntil next)),
     audit (mkAudit (u_id <$> user) "system" "auth.lockout.triggered" tenantId "user" (Some name)
              [("locked_until", zs (ls_lockedUntil next)); ("level", zs (ls_level next))]%string) w1)
  else (Fail 401 "invalid_credentials" None, w1).

(** The end of the route for an active user with the right password. *)
Definition login_accepted (now : Z) (token uuid jti : string) (tenantId : Z) (name password : string) (u : User)
    (w : World) : Response * World :=
  let w1 := with_store (clearLockout tenantId name (store w)) w in
  let w2 := if needsRehash (passwordHash u)
            then with_users (alter (with_password (hashPassword password)) (u_id u) (users w1)) w1 else w1 in
  match permissions_of (user_role_name (u_role u)) with
  | None => (type_error, w2)
  | Some perms =>
      let '(access, claims) := signAccessToken now jti (access_input u perms) in
      let '(refresh, st) := issueRefreshToken sha256Hex now token uuid (refresh_params u None None) (store w2) in
      let w3 := with_store st w2 in
      let w4 := with_users (alter (with_login now) (u_id u) (users w3)) w3 in
      (LoggedIn access (i_token refresh) (i_familyId refresh) (c_exp claims) (i_expiresAt refresh) u,
       audit (mkAudit (Some (u_id u)) "user" "auth.login.success" tenantId "user" (Some (zs (u_id u)))
                [("jti", jti); ("family_id", i_familyId refresh)]%string) w4)
  end.

Definition password_valid (password : string) (user : option User) : bool :=
  match user with Some u => u_active u && verifyPassword password (passwordHash u) | None => false end.

Definition login (now : Z) (token uuid jti : string) (b : LoginBody) (w : World) : Response * World :=
  if negb (valid_login b) then (Fail 400 "invalid_body" None, w)
  else
    let tenantId := default 1 (b_tenant_id b) in
    let name := b_username b in
    let lock := getLockoutState now tenantId name (store w) in
    if isLocked lock then
      (Fail 429 "locked" (Some (ls_lockedUntil lock)),
       audit (login_failure tenantId None name
                [("reason", "locked"); ("locked_until", zs (ls_lockedUntil lock))]%string) w)
    else
      let user := find_user tenantId name w in
      match user, password_valid (b_password b) user with
      | Some u, true => login_accepted now token uuid jti tenantId name (b_password b) u w
      | _, _ => login_rejected now tenantId user name w
      end.

Record RefreshBody := mkRefreshBody { b_refresh_token : string; b_family_id : string; br_tenant_id : option Z }.

Definition valid_refresh (b : RefreshBody) : bool :=
  (10 <=? String.length (b_refresh_token b))%nat && (1 <=? String.length (b_family_id b))%nat &&
  match br_tenant_id b with Some t => 0 <? t | None => true end.

(** A refresh whose token has been consumed and whose next token has not been issued. *)
Record Consumed := mkConsumed { cs_userId : Z; cs_tenantId : Z; cs_family : string; cs_token : string }.

(** The route up to the answer of the script. *)
Definition refresh_begin (now : Z) (b : RefreshBody) (w : World) : (Response + Consumed) * World :=
  if negb (valid_refresh b) then (inl (Fail 400 "invalid_body" None), w)
  else
    let tenantId := default 1 (br_tenant_id b) in
    let family_id := b_family_id b in
    let '(consumed, st) := consumeRefreshToken sha256Hex now tenantId family_id (b_refresh_token b) None (store w) in
    let w1 := with_store st w in
    match consumed with
    | consumed_not_found =>
        (inl (Fail 401 "refresh_not_found" None),
         audit (mkAudit None "user" "auth.refresh.expired" tenantId "session" (Some family_id) []) w1)
    | consumed_reuse _ keysRevoked =>
        (inl (Fail 401 "refresh_reuse_detected" None),
         audit (mkAudit None "system" "auth.refresh.reuse_detected" tenantId "session" (Some family_id)
                  [("keys_revoked", zs keysRevoked)]%string) w1)
    | consumed_ok userId _ _ role _ _ =>
        if (userId =? 0) || String.eqb role EmptyString then (inl (Fail 500 "refresh_record_corrupt" None), w1)
        else (inr (mkConsumed userId tenantId family_id (b_refresh_token b)), w1)
    end.

(** The rest of the route. *)
Definition refresh_finish (now : Z) (token jti : string) (c : Consumed) (w : World) : Response * World :=
  match users w !! cs_userId c with
  | Some u =>
      if u_active u then
        match permissions_of (user_role_name (u_role u)) with
        | None => (type_error, w)
        | Some perms =>
            let '(access, claims) := signAccessToken now jti (access_input u perms) in
            let '(refresh, st) :=
              issueRefreshToken sha256Hex now token EmptyString
                (refresh_params u (Some (cs_family c)) (Some (sha256Hex (cs_token c)))) (store w) in
            (Refreshed access (i_token refresh) (i_familyId refresh) (c_exp claims) (i_expiresAt refresh),
             audit (mkAudit (Some (u_id u)) "user" "auth.refresh.success" (cs_tenantId c) "session" (Some (cs_family c)) [])
               (with_store st w))
        end
      else (Fail 401 "user_inactive" None, w)
  | None => (Fail 401 "user_inactive" None, w)
  end.

Definition refresh (now : Z) (token jti : string) (b : RefreshBody) (w : World) : Response * World :=
  match refresh_begin now b w with
  | (inl r, w1) => (r, w1)
  | (inr c, w1) => refresh_finish now token jti c w1
  end.

Definition logout (now : Z) (auth : option ApiAuth) (family_id : option string) (w : World) : Response * World :=
  match auth with
  | None => (Fail 401 "not_authenticated" None, w)
  | Some a =>
      if bool_decide (family_id = Some EmptyString) then (Fail 400 "invalid_body" None, w)
      else
        let '(revoked, st) := match family_id with
                              | Some f => revokeFamily now (a_tenantId a) f (Some (a_uid a)) (store w)
                              | None => (0, store w)
                              end in
        (NoContent, audit (mkAudit (Some (a_uid a)) "user" "auth.logout" (a_tenantId a) "session" family_id
                             [("revoked", zs revoked)]%string) (with_store st w))
  end.

Definition logout_all (now : Z) (auth : option ApiAuth) (w : World) : Response * World :=
  match auth with
  | None => (Fail 401 "not_authenticated" None, w)
  | Some a =>
      let '(revoked, st) := revokeAllForUser now (a_tenantId a) (a_uid a) (store w) in
      (NoContent, audit (mkAudit (Some (a_uid a)) "user" "auth.logout.all" (a_tenantId a) "user" (Some (zs (a_uid a)))
                           [("revoked", zs revoked)]%string) (with_store st w))
  end.

Definition MIN_PASSWORD_LENGTH : nat := 12.
Definition MAX_PASSWORD_LENGTH : nat := 256.

Definition checkLength (password : string) : option string :=
  if (String.length password <? MIN_PASSWORD_LENGTH)%nat then Some "too_short"%string
  else if (MAX_PASSWORD_LENGTH <? String.length password)%nat then Some "too_long"%string
  else None.

(** The reason a password is refused. *)
Definition checkPassword (password : string) : option string :=
  match checkLength password with
  | Some reason => Some reason
  | None => if isPwned password then Some "pwned"%string else None
  end.

Definition password_change (now : Z) (auth : option ApiAuth) (current new : string) (w : World) : Response * World :=
  match auth with
  | None => (Fail 401 "not_authenticated" None, w)
  | Some a =>
      if negb ((1 <=? String.length current)%nat && length_in 12 256 new) then (Fail 400 "invalid_body" None, w)
      else
        match users w !! a_uid a with
        | None => (Fail 404 "user_not_found" None, w)
        | Some u =>
            if negb (verifyPassword current (passwordHash u)) then (Fail 401 "invalid_current_password" None, w)
            else
              match checkPassword new with
              | Some _ => (Fail 400 "password_policy" None, w)
              | None =>
                  let w1 := with_users (alter (with_password (hashPassword new)) (u_id u) (users w)) w in
                  let '(_, st) := revokeAllForUser now (u_tenantId u) (u_id u) (store w1) in
                  (NoContent, audit (mkAudit (Some (u_id u)) "user" "auth.password.changed" (u_tenantId u) "user"
                                       (Some (zs (u_id u))) []) (with_store st w1))
              end
        end
  end.

Definition ws_token (now : Z) (jti : string) (auth : option ApiAuth) : Response :=
  match auth with
  | None => Fail 401 "not_authenticated" None
  | Some a =>
      let '(tok, claims) :=
        signAccessToken now jti (mkSign (a_uid a) (a_tenantId a) (role_name (a_role a)) (Some (permissionsFor (a_role a)))
                                   (a_totpVerified a) ws (accessTokenTtlSec e)) in
      WsToken tok (c_exp claims)
  end.
End auth.
