(* ===== verification/AuthSystem.v ===== *)
(** Runs of the authentication requests, with the refreshes in flight between the
    consumption of a token and the issue of the next: the invariant of the sessions, and
    what holds of every run. *)

From S2P Require Import Prelude Rbac Sessions Auth.

#[local] Open Scope Z_scope.

(** ** Requests *)

Inductive Request :=
  | Login (token uuid jti : string) (b : LoginBody)
  | RefreshBegin (b : RefreshBody)
  | RefreshFinish (i : nat) (token jti : string)
  | Logout (auth : option ApiAuth) (family_id : option string)
  | LogoutAll (auth : option ApiAuth)
  | PasswordChange (auth : option ApiAuth) (current new : string).

(** The world, the refreshes in flight, and three histories: the keys of the tokens
    issued, of those accepted, and the families. *)
Record System := mkSystem {
  world : World;
  flights : list Consumed;
  issued : list string;
  accepted : list string;
  families : list string;
}.

Definition flight (c : Consumed) : Flight := mkFlight (cs_tenantId c) (cs_userId c) (cs_family c).

Section system.
Variable e : Env.
Variable jwt_sign : Payload → string.
Variable verifyPassword : string → string → bool.
Variable hashPassword : string → string.
Variable needsRehash : string → bool.
Variable isPwned : string → bool.
Variable same_username : string → string → bool.
Variable sha256Hex : string → string.

Definition key_of (c : Consumed) : string := tokenKey (cs_tenantId c) (cs_family c) (sha256Hex (cs_token c)).

Definition handle (now : Z) (r : Request) (S : System) : Response * System :=
  let w := world S in
  match r with
  | Login token uuid jti b =>
      let '(resp, w') := login e jwt_sign verifyPassword hashPassword needsRehash same_username sha256Hex now token uuid jti b w in
      (resp,
       match resp with
       | LoggedIn _ _ f _ _ u =>
           mkSystem w' (flights S) (tokenKey (u_tenantId u) f (sha256Hex token) :: issued S) (accepted S) (f :: families S)
       | _ => mkSystem w' (flights S) (issued S) (accepted S) (families S)
       end)
  | RefreshBegin b =>
      match refresh_begin sha256Hex now b w with
      | (inl resp, w') => (resp, mkSystem w' (flights S) (issued S) (accepted S) (families S))
      | (inr c, w') => (NoContent, mkSystem w' (c :: flights S) (issued S) (key_of c :: accepted S) (families S))
      end
  | RefreshFinish i token jti =>
      match flights S !! i with
      | None => (NoContent, S)
      | Some c =>
          let '(resp, w') := refresh_finish e jwt_sign sha256Hex now token jti c w in
          (resp,
           mkSystem w' (delete i (flights S))
             (match resp with
              | Refreshed _ _ f _ _ => tokenKey (cs_tenantId c) f (sha256Hex token) :: issued S
              | _ => issued S
              end) (accepted S) (families S))
      end
  | Logout auth f =>
      let '(resp, w') := logout now auth f w in (resp, mkSystem w' (flights S) (issued S) (accepted S) (families S))
  | LogoutAll auth =>
      let '(resp, w') := logout_all now auth w in (resp, mkSystem w' (flights S) (issued S) (accepted S) (families S))
  | PasswordChange auth current new =>
      let '(resp, w') := password_change verifyPassword hashPassword isPwned now auth current new w in
      (resp, mkSystem w' (flights S) (issued S) (accepted S) (families S))
  end.

(** New families and tokens are random: they have not been used. *)
Definition fresh (r : Request) (S : System) : Prop :=
  match r with
  | Login _ uuid _ _ => (uuid ∉ families S)
  | RefreshFinish _ token _ => ∀ t f, (tokenKey t f (sha256Hex token) ∉ issued S)
  | _ => True
  end.

(** Requests at instants that do not go back. *)
Inductive run : Z → System → Z → System → Prop :=
  | run_nil now S : run now S now S
  | run_cons now S now1 r now2 S2 :
      now <= now1 → fresh r S → run now1 (handle now1 r S).2 now2 S2 → run now S now2 S2.

(** ** The invariant *)

Definition known_user (S : System) (t u : Z) : Prop := ∃ row, users (world S) !! u = Some row ∧ u_tenantId row = t.

Record system_ok (now : Z) (S : System) : Prop := {
  sys_sessions : sessions_ok now (flight <$> flights S) (store (world S));
  sys_users i u : users (world S) !! i = Some u → u_id u = i;
  sys_live k r x : live now (store (world S)) k r x →
    k ∈ issued S ∧ (k ∉ accepted S) ∧ family_id r ∈ families S ∧ known_user S (tenant_id r) (user_id r);
  sys_flights c : c ∈ flights S →
    cs_family c ∈ families S ∧ known_user S (cs_tenantId c) (cs_userId c) ∧ key_of c ∈ accepted S;
  sys_user_sets t u f : f ∈ user_set (store (world S)) t u → f ∈ families S;
  sys_issued k : k ∈ issued S → ∃ t f h, k = tokenKey t f h ∧ String.length h = 64%nat ∧ f ∈ families S;
  sys_accepted : NoDup (accepted S);
  sys_accepted_issued k : k ∈ accepted S → k ∈ issued S;
}.

(** The same users, each in the same tenant. *)
Definition same_users (us us' : gmap Z User) : Prop :=
  (∀ i u, us' !! i = Some u → u_id u = i) ∧
  (∀ i u, us !! i = Some u → ∃ u', us' !! i = Some u' ∧ u_tenantId u' = u_tenantId u).

Lemma known_same S S' t u :
  same_users (users (world S)) (users (world S')) → known_user S t u → known_user S' t u.
Proof. intros [_ H] (row & Hrow & <-). destruct (H u row Hrow) as (row' & ? & ?). by exists row'. Qed.

Lemma same_users_refl S now : system_ok now S → same_users (users (world S)) (users (world S)).
Proof. intros Hok. split; [apply Hok|eauto]. Qed.

(** Requests that only end sessions. *)
Lemma system_less now S w' :
  system_ok now S → sessions_ok now (flight <$> flights S) (store w') →
  (∀ k r x, live now (store w') k r x → live now (store (world S)) k r x) →
  shrinks (store (world S)) (store w') → same_users (users (world S)) (users w') →
  system_ok now (mkSystem w' (flights S) (issued S) (accepted S) (families S)).
Proof.
  intros Hok Hs Hlive Hsub Hus. set (S' := mkSystem _ _ _ _ _).
  assert (Hk : ∀ t u, known_user S t u → known_user S' t u) by (intros t u; by apply known_same).
  split; cbn.
  - done.
  - apply Hus.
  - intros k r x Hl%Hlive. destruct (sys_live _ _ Hok k r x Hl) as (? & ? & ? & ?). auto.
  - intros c Hc. destruct (sys_flights _ _ Hok c Hc) as (? & ? & ?). auto.
  - intros t u f Hf%Hsub. by eapply sys_user_sets.
  - apply Hok.
  - apply Hok.
  - apply Hok.
Qed.

Lemma sessions_lockouts now F st st' :
  tokens st' = tokens st → sets st' = sets st → sessions_ok now F st → sessions_ok now F st'.
Proof. destruct st, st'. cbn. intros -> -> [? ? ? ? ? ? ? ? ?]. by split. Qed.

(** Requests that touch neither tokens nor sets. *)
Lemma system_idle now S w' :
  system_ok now S → tokens (store w') = tokens (store (world S)) → sets (store w') = sets (store (world S)) →
  users w' = users (world S) → system_ok now (mkSystem w' (flights S) (issued S) (accepted S) (families S)).
Proof.
  intros Hok Ht Hs Hu. apply system_less; [done| | | |].
  - by apply (sessions_lockouts now _ (store (world S))), Hok.
  - intros k r x. unfold live. by rewrite Ht.
  - apply shrinks_same. intros t u. by rewrite Hs.
  - rewrite Hu. by eapply same_users_refl.
Qed.

Lemma system_later now now' S : now <= now' → system_ok now S → system_ok now' S.
Proof.
  intros Hle [H1 H2 H3 H4 H5 H6 H7 H8]. split; [by eapply sessions_later|done| |done..].
  intros k r x [Hk Hx]. apply (H3 k r x). split; [done|lia].
Qed.

Hypothesis sha256Hex_length : ∀ s, String.length (sha256Hex s) = 64%nat.

Lemma logout_ok now auth f S :
  system_ok now S → system_ok now (handle now (Logout auth f) S).2.
Proof.
  intros Hok. cbn. unfold logout. pose proof (same_users_refl S now Hok) as Hus.
  destruct auth as [a|]; [|by apply system_idle].
  case_bool_decide; [by apply system_idle|]. destruct f as [f|].
  - pose proof (revokeFamily_outcome now _ (a_tenantId a) f (Some (a_uid a)) _ (sys_sessions _ _ Hok)) as (H1 & H2 & H3).
    destruct (revokeFamily _ _ _ _ _) as [n st']. cbn in *. apply system_less; [done..| |done|done].
    intros k r x Hl. by apply H3 in Hl as [? _].
  - by apply system_idle.
Qed.

Lemma logout_all_ok now auth S :
  system_ok now S → system_ok now (handle now (LogoutAll auth) S).2.
Proof.
  intros Hok. cbn. unfold logout_all. pose proof (same_users_refl S now Hok) as Hus.
  destruct auth as [a|]; [|by apply system_idle].
  pose proof (revokeAll_outcome now _ (a_tenantId a) (a_uid a) _ (sys_sessions _ _ Hok)) as (H1 & H2 & H3).
  destruct (revokeAllForUser _ _ _ _) as [n st']. cbn in *. apply system_less; [done..| |done|done].
  intros k r x Hl. by apply H3 in Hl as [? _].
Qed.

Lemma same_users_alter us i f :
  (∀ i u, us !! i = Some u → u_id u = i) → (∀ u, u_id (f u) = u_id u ∧ u_tenantId (f u) = u_tenantId u) →
  same_users us (alter f i us).
Proof.
  intros Hid Hf. split.
  - intros j u [(-> & u' & Hu & ->)|[_ Hu]]%lookup_alter_Some; [|by apply Hid]. rewrite (proj1 (Hf u')). by apply Hid.
  - intros j u Hu. destruct (decide (i = j)) as [<-|Hne].
    + rewrite lookup_alter_eq, Hu. eexists. split; [done|apply Hf].
    + rewrite lookup_alter_ne by done. eauto.
Qed.

Lemma password_ok now auth current new S :
  system_ok now S → system_ok now (handle now (PasswordChange auth current new) S).2.
Proof.
  intros Hok. cbn. unfold password_change. pose proof (same_users_refl S now Hok) as Hus.
  assert (Hsame : system_ok now (mkSystem (world S) (flights S) (issued S) (accepted S) (families S))).
  { by apply system_idle. }
  destruct auth as [a|]; [|done]. destruct (negb _); [done|].
  destruct (users (world S) !! a_uid a) as [u|] eqn:Hu; [|done]. destruct (negb _); [done|].
  destruct (checkPassword _ _); [done|].
  pose proof (revokeAll_outcome now _ (u_tenantId u) (u_id u) _ (sys_sessions _ _ Hok)) as (H1 & H2 & H3).
  cbn in *. destruct (revokeAllForUser _ _ _ _) as [n st']. cbn in *. apply system_less; [done..| |done|].
  - intros k r x Hl. by apply H3 in Hl as [? _].
  - apply same_users_alter; [apply Hok|done].
Qed.

(** A refresh up to the script's answer: it is refused, and at most ends the family, or
    it takes the live token of the family off. *)
Lemma refresh_begin_cases now b S :
  system_ok now S →
  let S' := (handle now (RefreshBegin b) S).2 in
  (∃ resp w', refresh_begin sha256Hex now b (world S) = (inl resp, w') ∧
     S' = mkSystem w' (flights S) (issued S) (accepted S) (families S) ∧ users w' = users (world S) ∧
     sessions_ok now (flight <$> flights S) (store w') ∧ shrinks (store (world S)) (store w') ∧
     ∀ k r x, live now (store w') k r x → live now (store (world S)) k r x) ∨
  (∃ c w' r x, refresh_begin sha256Hex now b (world S) = (inr c, w') ∧
     S' = mkSystem w' (c :: flights S) (issued S) (key_of c :: accepted S) (families S) ∧ users w' = users (world S) ∧
     sessions_ok now (flight <$> c :: flights S) (store w') ∧ shrinks (store (world S)) (store w') ∧
     live now (store (world S)) (key_of c) r x ∧ same_family r (cs_tenantId c) (cs_family c) ∧ user_id r = cs_userId c ∧
     ∀ k r' x', live now (store w') k r' x' ↔
       live now (store (world S)) k r' x' ∧ ¬ same_family r' (cs_tenantId c) (cs_family c)).
Proof.
  intros Hok S'. unfold S'. cbn [handle]. clear S'. unfold refresh_begin. destruct (negb (valid_refresh b)).
  { left. eexists _, _. split; [done|]. split_and!; [done|done|apply Hok|by apply shrinks_same|done]. }
  set (t := default 1 (br_tenant_id b)).
  pose proof (consume_outcome sha256Hex sha256Hex_length now t (b_family_id b) (b_refresh_token b) _ _
    (sys_sessions _ _ Hok)) as Hc.
  destruct (consumeRefreshToken _ _ _ _ _ _ _) as [[u t' f' role parent exp|f' n|] st']; cbn [fst snd consume_spec] in Hc.
  - destruct Hc as (-> & -> & (r & x & Hl & Hf & <-) & Hlive & Hs & Hsub). destruct (_ || _).
    + left. eexists _, _. split; [done|]. split_and!; [done|done| |done|].
      * by apply (sessions_land now (mkFlight t (user_id r) (b_family_id b) :: _) 0 (mkFlight t (user_id r) (b_family_id b))).
      * intros k r' x' Hl'. by apply Hlive in Hl' as [? _].
    + right. eexists _, _, r, x. split; [done|]. split_and!; done.
  - destruct Hc as (-> & _ & _ & Hlive & Hs & Hsub). left. eexists _, _. split; [done|]. split_and!; [done..|].
    intros k r' x' Hl'. by apply Hlive in Hl' as [? _].
  - destruct Hc as (-> & _). left. eexists _, _. split; [done|].
    split_and!; [done|done|apply Hok|by apply shrinks_same|done].
Qed.

Lemma refresh_begin_ok now b S : system_ok now S → system_ok now (handle now (RefreshBegin b) S).2.
Proof.
  intros Hok. pose proof (same_users_refl S now Hok) as Hus.
  destruct (refresh_begin_cases now b S Hok) as
    [(resp & w' & _ & -> & Hu & Hs & Hsub & Hlive)|(c & w' & r & x & _ & -> & Hu & Hs & Hsub & Hl & [Et Ef] & Eu & Hlive)].
  { apply system_less; [done..|by rewrite Hu]. }
  destruct (sys_live _ _ Hok _ _ _ Hl) as (Hi & Ha & Hfam & Hkn). set (S' := mkSystem _ _ _ _ _).
  assert (Hk : ∀ t u, known_user S t u → known_user S' t u) by (intros t u; unfold known_user; cbn; by rewrite Hu).
  split; cbn.
  - done.
  - rewrite Hu. apply Hok.
  - intros k r' x' [Hl' Hne]%Hlive. destruct (sys_live _ _ Hok k r' x' Hl') as (? & ? & ? & ?).
    split_and!; [done| |done|by apply Hk]. rewrite elem_of_cons. intros [->|?]; [|done]. apply Hne.
    destruct Hl as [Hl _], Hl' as [Hl' _]. rewrite Hl in Hl'. injection Hl' as <- _. done.
  - intros c' [->|Hc]%elem_of_cons.
    + rewrite <- Ef, <- Et, <- Eu. split_and!; [done|by apply Hk|by left].
    + destruct (sys_flights _ _ Hok c' Hc) as (? & ? & ?). split_and!; [done|by apply Hk|by right].
  - intros t u f Hf%Hsub. by eapply sys_user_sets.
  - apply Hok.
  - apply NoDup_cons. split; [done|apply Hok].
  - intros k [->|Hk']%elem_of_cons; [done|by apply (sys_accepted_issued _ _ Hok)].
Qed.

(** A new token for a user of its tenant, in a family without live tokens. *)
Lemma system_issue now S fl fams t u f token uuid p log us :
  system_ok now S → p_tenantId p = t → p_userId p = u → default uuid (p_familyId p) = f → 0 < p_ttlSec p →
  (∀ c, c ∈ fl → c ∈ flights S) →
  sessions_ok now (flight <$> fl) (store (world S)) →
  (∀ k r x, live now (store (world S)) k r x → ¬ same_family r t f) →
  (∀ c, c ∈ fl → cs_tenantId c = t → cs_family c ≠ f) →
  (∀ u', f ∈ user_set (store (world S)) t u' → u' = u) →
  same_users (users (world S)) us → known_user S t u →
  (tokenKey t f (sha256Hex token) ∉ issued S) → f ∈ fams → (∀ x, x ∈ families S → x ∈ fams) →
  let '(i, st) := issueRefreshToken sha256Hex now token uuid p (store (world S)) in
  i_familyId i = f ∧ i_token i = token ∧ (∃ r x, live now st (tokenKey t f (sha256Hex token)) r x ∧ user_id r = u) ∧
  system_ok now (mkSystem (mkWorld st us log) fl (tokenKey t f (sha256Hex token) :: issued S) (accepted S) fams).
Proof.
  intros Hok <- <- <- Httl Hin Hs Hdead Hfl Hown Hus Hkn Hnew Hf Hfams.
  pose proof (issue_outcome sha256Hex sha256Hex_length now token uuid p (flight <$> fl) (store (world S)) Hs Httl Hdead) as H.
  destruct (issueRefreshToken _ _ _ _ _ _) as [i st]. set (f := default uuid (p_familyId p)) in *.
  destruct H as (-> & -> & Hs' & Hsets & r & [Et Ef] & Eu & Hlive); [|done|].
  { intros fl' (c & -> & Hc)%list_elem_of_fmap. by apply Hfl. }
  split_and!; [done..| |].
  { exists r, (now + p_ttlSec p). split; [|done]. apply Hlive. by right. }
  set (S' := mkSystem _ _ _ _ _).
  assert (Hk : ∀ t u, known_user S t u → known_user S' t u) by (intros t u; by apply known_same).
  split; cbn.
  - done.
  - apply Hus.
  - intros k r' x [Hl|(-> & -> & ->)]%Hlive.
    + destruct (sys_live _ _ Hok k r' x Hl) as (? & ? & ? & ?). split_and!; [by right|done|auto|by apply Hk].
    + split_and!; [by left| |by rewrite Ef|rewrite Et, Eu; by apply Hk].
      intros Ha. by apply Hnew, (sys_accepted_issued _ _ Hok).
  - intros c Hc. destruct (sys_flights _ _ Hok c (Hin c Hc)) as (? & ? & ?). split_and!; [auto|by apply Hk|done].
  - intros t u x [Hx| ->]%Hsets; [|done]. apply Hfams. by eapply sys_user_sets.
  - intros k [->|Hk']%elem_of_cons.
    + eexists _, _, _. split_and!; [done|apply sha256Hex_length|done].
    + destruct (sys_issued _ _ Hok k Hk') as (t & f' & h & -> & ? & ?). exists t, f', h. auto.
  - apply Hok.
  - intros k Hk'. right. by apply (sys_accepted_issued _ _ Hok).
Qed.

Definition positive_ttls : Prop :=
  0 < refreshTtlAgentSec e ∧ 0 < refreshTtlAdminSec e ∧ 0 < refreshTtlIntegratorSec e.

Hypothesis env_ok : positive_ttls.

Lemma refreshTtl_positive role : 0 < refreshTtlForRole e role.
Proof. destruct env_ok as (? & ? & ?). unfold refreshTtlForRole. by repeat case_match. Qed.

(** Finishing: an inactive user's flight just ends, as does one whose role the permissions
    do not know; another user's gives a new token. *)
Lemma refresh_finish_cases now i c token jti S :
  system_ok now S → flights S !! i = Some c → (∀ t f, (tokenKey t f (sha256Hex token) ∉ issued S)) →
  let '(resp, w') := refresh_finish e jwt_sign sha256Hex now token jti c (world S) in
  (∃ u, users (world S) !! cs_userId c = Some u ∧
     if may_refresh u
     then (∃ access aexp rexp, resp = Refreshed access token (cs_family c) aexp rexp) ∧
       ∃ r x, live now (store w') (tokenKey (cs_tenantId c) (cs_family c) (sha256Hex token)) r x ∧ user_id r = cs_userId c
     else (resp = Fail 401 "user_inactive" None ∨ resp = type_error) ∧ w' = world S) ∧
  system_ok now (handle now (RefreshFinish i token jti) S).2.
Proof.
  intros Hok Hi Hnew. cbn [handle]. rewrite Hi.
  assert (Hc : c ∈ flights S) by (by eapply list_elem_of_lookup_2).
  destruct (sys_flights _ _ Hok c Hc) as (Hfam & Hkn & _).
  pose proof (sessions_land now (flight <$> flights S) i (flight c) _ (sys_sessions _ _ Hok)) as Hland.
  rewrite list_lookup_fmap, Hi in Hland. destruct (Hland eq_refl) as (Hs & Hdead & Hother & Hown). clear Hland.
  rewrite <- list_fmap_delete in Hs, Hother.
  assert (Hin : ∀ c', c' ∈ delete i (flights S) → c' ∈ flights S).
  { intros c' Hc'. eapply elem_of_submseteq; [exact Hc'|]. apply sublist_submseteq, sublist_delete. }
  assert (Hidle : system_ok now (mkSystem (world S) (delete i (flights S)) (issued S) (accepted S) (families S))).
  { split; try apply Hok; [done|]. intros c' Hc'. apply (sys_flights _ _ Hok), Hin, Hc'. }
  unfold refresh_finish. destruct Hkn as (u & Hu & Ht). rewrite Hu. destruct (u_active u) eqn:Hact; [|split; [exists u; unfold may_refresh; rewrite Hact; cbn; auto|exact Hidle]].
  destruct (permissions_of _) as [perms|] eqn:Hperms; cycle 1.
  { split; [exists u; unfold may_refresh; rewrite Hact, Hperms; cbn; auto|exact Hidle]. }
  destruct (signAccessToken _ _ _ _ _) as [access claims].
  pose proof (sys_users _ _ Hok _ _ Hu) as Huid.
  pose proof (system_issue now S (delete i (flights S)) (families S) (cs_tenantId c) (cs_userId c) (cs_family c)
    token EmptyString (refresh_params e u (Some (cs_family c)) (Some (sha256Hex (cs_token c))))) as Hissue.
  match goal with |- context [audit ?row _] => specialize (Hissue (audit_log (world S) ++ [row]) (users (world S))) end.
  destruct (issueRefreshToken _ _ _ _ _ _) as [iss st].
  destruct Hissue as (Hf & Htok & Hnewl & Hok');
    [exact Hok|exact Ht|exact Huid|done|apply refreshTtl_positive|exact Hin|exact Hs|exact Hdead| |exact Hown
    |by apply (same_users_refl S now)|by exists u|apply Hnew|exact Hfam|done|].
  { intros c' Hc' E1 E2. apply (Hother (flight c')); [by apply list_elem_of_fmap_2|done|done]. }
  cbn. rewrite Hf, Htok. split; [|done]. exists u. unfold may_refresh. rewrite Hact, Hperms. split; [done|]. split; [by eauto|exact Hnewl].
Qed.

Lemma find_user_row now S t name u :
  system_ok now S → find_user same_username t name (world S) = Some u → users (world S) !! u_id u = Some u ∧ u_tenantId u = t.
Proof.
  unfold find_user. intros Hok [Hin Ht]%find_some. apply andb_true_iff in Ht as [Ht%Z.eqb_eq _].
  apply list_elem_of_In, list_elem_of_fmap in Hin as ((i & u') & -> & Hin). apply elem_of_map_to_list in Hin. cbn in *.
  split; [|done]. by rewrite (sys_users _ _ Hok _ _ Hin).
Qed.

Lemma same_users_trans us1 us2 us3 : same_users us1 us2 → same_users us2 us3 → same_users us1 us3.
Proof.
  intros [_ H12] [Hid H23]. split; [done|]. intros i u Hu. destruct (H12 i u Hu) as (u2 & Hu2 & E2).
  destruct (H23 i u2 Hu2) as (u3 & Hu3 & E3). exists u3. split; [done|]. congruence.
Qed.

Lemma login_rejected_ok now t u name S :
  system_ok now S →
  let '(resp, w') := login_rejected now t u name (world S) in
  (∃ status error until, resp = Fail status error until) ∧
  system_ok now (mkSystem w' (flights S) (issued S) (accepted S) (families S)).
Proof.
  intros Hok. unfold login_rejected. destruct (recordFailure _ _ _ _) as [next st] eqn:Er.
  unfold recordFailure in Er. injection Er as <- <-. cbv zeta.
  destruct (isLocked _); (split; [by eauto|by apply system_idle]).
Qed.

Lemma login_accepted_ok now token uuid jti t name password u S :
  system_ok now S → users (world S) !! u_id u = Some u → u_tenantId u = t → (uuid ∉ families S) →
  let '(resp, w') := login_accepted e jwt_sign hashPassword needsRehash sha256Hex now token uuid jti t name password u (world S) in
  (resp = type_error ∧ permissions_of (user_role_name (u_role u)) = None ∧
     system_ok now (mkSystem w' (flights S) (issued S) (accepted S) (families S))) ∨
  ∃ access aexp rexp, resp = LoggedIn access token uuid aexp rexp u ∧
    system_ok now (mkSystem w' (flights S) (tokenKey t uuid (sha256Hex token) :: issued S) (accepted S)
                     (uuid :: families S)).
Proof.
  intros Hok Hu Ht Hnew. unfold login_accepted. set (w1 := with_store (clearLockout t name (store (world S))) (world S)).
  set (w2 := if needsRehash _ then _ else _).
  set (S2 := mkSystem w2 (flights S) (issued S) (accepted S) (families S)).
  assert (Hw2 : store w2 = store w1 ∧ same_users (users (world S)) (users w2)).
  { subst w2. destruct (needsRehash _); (split; [done|]); [|by apply (same_users_refl S now)].
    apply same_users_alter; [apply Hok|done]. }
  destruct Hw2 as [Hst2 Hus2].
  assert (Hok2 : system_ok now S2).
  { apply system_less; [done| | | |done]; rewrite Hst2.
    - by apply (sessions_lockouts now _ (store (world S))), Hok.
    - done.
    - by apply shrinks_same. }
  destruct (permissions_of _) as [perms|]; [|by left].
  destruct (signAccessToken _ _ _ _ _) as [access claims].
  pose proof (system_issue now S2 (flights S) (uuid :: families S) t (u_id u) uuid token uuid
    (refresh_params e u None None)) as Hissue.
  cbn [world store S2] in Hissue. destruct (issueRefreshToken _ _ _ _ _ _) as [iss st].
  specialize (Hissue (audit_log w2 ++ [mkAudit (Some (u_id u)) "user" "auth.login.success" t "user" (Some (zs (u_id u)))
    [("jti", jti); ("family_id", i_familyId iss)]%string]) (alter (with_login now) (u_id u) (users w2))).
  assert (Hfam : ∀ k r x, live now (store w2) k r x → ¬ same_family r t uuid).
  { intros k r x Hl [_ <-]. destruct (sys_live _ _ Hok2 k r x Hl) as (_ & _ & Hin & _). by apply Hnew. }
  destruct Hissue as (Hf & Htok & _ & Hok');
    [done|done|done|done|apply refreshTtl_positive|done|apply Hok2|exact Hfam| | | | | |by left|by right|].
  - intros c Hc _ E. destruct (sys_flights _ _ Hok c Hc) as (Hin & _). by rewrite E in Hin.
  - intros u' Hin. destruct Hnew. by eapply (sys_user_sets now S2).
  - apply same_users_alter; [apply Hus2|done].
  - apply (known_same S); [done|]. by exists u.
  - intros Hk. destruct (sys_issued _ _ Hok _ Hk) as (t' & f & h & E & Hh & Hin).
    apply tokenKey_inj in E as (_ & <- & _); [done|apply sha256Hex_length|done].
  - right. eexists _, _, _. rewrite Hf in *. rewrite Htok. split; [done|exact Hok'].
Qed.

(** A login that succeeds opens a family of its own; any other leaves the sessions. *)
Lemma login_ok now token uuid jti b S :
  system_ok now S → (uuid ∉ families S) → system_ok now (handle now (Login token uuid jti b) S).2.
Proof.
  intros Hok Hnew. cbn [handle]. unfold login. destruct (negb (valid_login b)); [by apply system_idle|].
  set (t := default 1 (b_tenant_id b)). destruct (isLocked _); [by apply system_idle|].
  destruct (find_user _ _ _ _) as [u|] eqn:Eu.
  - destruct (password_valid _ _ _).
    + destruct (find_user_row now S t (b_username b) u Hok Eu) as [Hu Ht].
      pose proof (login_accepted_ok now token uuid jti t (b_username b) (b_password b) u S Hok Hu Ht Hnew) as H.
      destruct (login_accepted _ _ _ _ _ _ _ _ _ _ _ _ _ _) as [resp w'].
      destruct H as [(-> & _ & Hok')|(access & aexp & rexp & -> & Hok')]; [done|by rewrite Ht].
    + pose proof (login_rejected_ok now t (Some u) (b_username b) S Hok) as H.
      destruct (login_rejected _ _ _ _ _) as [resp w']. by destruct H as [(status & error & until & ->) H].
  - pose proof (login_rejected_ok now t None (b_username b) S Hok) as H.
    destruct (login_rejected _ _ _ _ _) as [resp w']. by destruct H as [(status & error & until & ->) H].
Qed.

Lemma handle_ok now r S : system_ok now S → fresh r S → system_ok now (handle now r S).2.
Proof.
  intros Hok Hf. destruct r as [token uuid jti b|b|i token jti|auth f|auth|auth current new].
  - by apply login_ok.
  - by apply refresh_begin_ok.
  - destruct (flights S !! i) as [c|] eqn:Hi; [|by cbn; rewrite Hi].
    pose proof (refresh_finish_cases now i c token jti S Hok Hi Hf) as H.
    destruct (refresh_finish _ _ _ _ _ _ _ _) as [resp w']. apply H.
  - by apply logout_ok.
  - by apply logout_all_ok.
  - by apply password_ok.
Qed.

Lemma run_ok now S now' S' : run now S now' S' → system_ok now S → system_ok now' S'.
Proof.
  induction 1 as [|now S now1 r now2 S2 Hle Hf _ IH]; [done|]. intros Hok. apply IH, handle_ok; [|done].
  by apply (system_later now).
Qed.

Definition start (us : gmap Z User) : System := mkSystem (mkWorld empty_store us []) [] [] [] [].


Lemma start_ok now us : (∀ i u, us !! i = Some u → u_id u = i) → system_ok now (start us).
Proof.
  intros Hus. split; cbn.
  - apply empty_sessions.
  - done.
  - by intros k r x [? _].
  - intros c Hc. by apply not_elem_of_nil in Hc.
  - done.
  - intros k Hk. by apply not_elem_of_nil in Hk.
  - constructor.
  - intros k Hk. by apply not_elem_of_nil in Hk.
Qed.
End system.
