(* ===== verification/AuthTheorems.v ===== *)
(** What holds of the authentication requests: refresh tokens are used once, reuse and
    revocation end sessions, failed logins lock a name, and what the tokens allow. *)

From S2P Require Import Prelude Rbac Sessions Auth AuthSystem.

#[local] Open Scope Z_scope.

Section theorems.
Variable e : Env.
Variable jwt_sign : Payload → string.
Variable verifyPassword : string → string → bool.
Variable hashPassword : string → string.
Variable needsRehash : string → bool.
Variable isPwned : string → bool.
Variable same_username : string → string → bool.
Variable sha256Hex : string → string.

#[local] Abbreviation handle := (handle e jwt_sign verifyPassword hashPassword needsRehash isPwned same_username sha256Hex).
#[local] Abbreviation run := (run e jwt_sign verifyPassword hashPassword needsRehash isPwned same_username sha256Hex).
#[local] Abbreviation system_ok := (system_ok sha256Hex).
#[local] Abbreviation login := (login e jwt_sign verifyPassword hashPassword needsRehash same_username sha256Hex).

(** The key under which a refresh looks for its token. *)
Definition body_key (b : RefreshBody) : string :=
  tokenKey (default 1 (br_tenant_id b)) (b_family_id b) (sha256Hex (b_refresh_token b)).

(** A system reached from users without sessions. *)
Definition reachable (now : Z) (S : System) : Prop :=
  ∃ us now0, (∀ i u, us !! i = Some u → u_id u = i) ∧ run now0 (start us) now S.

Section reachable.
Hypothesis sha256Hex_length : ∀ s, String.length (sha256Hex s) = 64%nat.
Hypothesis env_ok : positive_ttls e.

Lemma reachable_ok now S : reachable now S → system_ok now S.
Proof.
  intros (us & now0 & Hus & Hrun). eapply run_ok; [done|done|exact Hrun|]. by apply start_ok.
Qed.

(** Consuming a token accepted before. *)
Lemma spent_consumed now b S :
  system_ok now S → body_key b ∈ accepted S → valid_refresh b = true →
  let t := default 1 (br_tenant_id b) in
  let f := b_family_id b in
  (∃ w', refresh_begin sha256Hex now b (world S) = (inl (Fail 401 "refresh_reuse_detected" None), w') ∧
     (∃ k r x, live now (store (world S)) k r x ∧ same_family r t f) ∧
     (∀ k r x, live now (store w') k r x ↔ live now (store (world S)) k r x ∧ ¬ same_family r t f)) ∨
  (∃ w', refresh_begin sha256Hex now b (world S) = (inl (Fail 401 "refresh_not_found" None), w') ∧
     users w' = users (world S) ∧ ∀ k r x, live now (store (world S)) k r x → ¬ same_family r t f).
Proof.
  intros Hok Hacc Hval t f. unfold refresh_begin. rewrite Hval. cbn [negb].
  pose proof (consume_outcome sha256Hex sha256Hex_length now t f (b_refresh_token b) _ _ (sys_sessions _ _ _ Hok)) as Hc.
  fold t f. destruct (consumeRefreshToken _ _ _ _ _ _ _) as [[u t' f' role parent exp|f' n|] st']; cbn [fst snd consume_spec] in Hc.
  - exfalso. destruct Hc as (_ & _ & (r & x & Hl & _) & _). by destruct (sys_live _ _ _ Hok _ _ _ Hl) as (_ & Hna & _).
  - left. destruct Hc as (-> & _ & Hex & Hlive & _). by eexists.
  - right. destruct Hc as (-> & Hlive). by eexists.
Qed.

(** Finishing a refresh of such a user issues a live token. *)
Lemma finish_live now i c token jti u S :
  system_ok now S → flights S !! i = Some c → users (world S) !! cs_userId c = Some u → may_refresh u = true →
  (∀ t f, (tokenKey t f (sha256Hex token) ∉ issued S)) →
  ∃ rec x, live now (store (world (handle now (RefreshFinish i token jti) S).2))
             (tokenKey (cs_tenantId c) (cs_family c) (sha256Hex token)) rec x ∧ user_id rec = cs_userId c.
Proof.
  intros Hok Hi Hu Hact Hnew.
  pose proof (refresh_finish_cases e jwt_sign verifyPassword hashPassword needsRehash isPwned same_username sha256Hex
    sha256Hex_length env_ok now i c token jti S Hok Hi Hnew) as H.
  unfold AuthSystem.handle. rewrite Hi. destruct (refresh_finish _ _ _ _ _ _ _ _) as [resp w'].
  destruct H as [(u' & Hu' & H) _]. rewrite Hu in Hu'. injection Hu' as <-. rewrite Hact in H. apply H.
Qed.

(** C30: In every run of the requests, whatever the interleaving of refreshes in flight, a
    refresh token is accepted at most once, only after it was issued, and never after it
    was accepted; no family has two live tokens, and none while a refresh of it is in
    flight. *)
Theorem refresh_single_use now S :
  reachable now S →
  NoDup (accepted S) ∧ (∀ k, k ∈ accepted S → k ∈ issued S) ∧
  (∀ b c w', body_key b ∈ accepted S → refresh_begin sha256Hex now b (world S) ≠ (inr c, w')) ∧
  (∀ k r x k' r' x', live now (store (world S)) k r x → live now (store (world S)) k' r' x' →
     tenant_id r = tenant_id r' → family_id r = family_id r' → k = k') ∧
  (∀ k r x c, live now (store (world S)) k r x → c ∈ flights S → ¬ same_family r (cs_tenantId c) (cs_family c)).
Proof.
  intros Hok%reachable_ok. split_and!; [apply Hok|by apply Hok| | |].
  - intros b c w' Hacc. destruct (valid_refresh b) eqn:Hval.
    + destruct (spent_consumed now b S Hok Hacc Hval) as [(w1 & -> & _)|(w1 & -> & _)]; discriminate.
    + unfold refresh_begin. rewrite Hval. discriminate.
  - by apply (so_one _ _ _ (sys_sessions _ _ _ Hok)).
  - intros k r x c Hl Hc. apply (so_landed _ _ _ (sys_sessions _ _ _ Hok) _ _ _ (flight c) Hl).
    by apply list_elem_of_fmap_2.
Qed.

(** A spent token presented again while a refresh of its family is in flight is answered
    [refresh_not_found], nothing is revoked, and the refresh then issues a live token to
    an active user. *)
Lemma spent_in_flight now b S i c token jti u :
  reachable now S → body_key b ∈ accepted S → valid_refresh b = true →
  flights S !! i = Some c → cs_tenantId c = default 1 (br_tenant_id b) → cs_family c = b_family_id b →
  (∀ t f, (tokenKey t f (sha256Hex token) ∉ issued S)) → users (world S) !! cs_userId c = Some u → may_refresh u = true →
  let r := handle now (RefreshBegin b) S in
  r.1 = Fail 401 "refresh_not_found" None ∧
  ∃ rec x, live now (store (world (handle now (RefreshFinish i token jti) r.2).2))
             (tokenKey (cs_tenantId c) (cs_family c) (sha256Hex token)) rec x.
Proof.
  intros Hre Hacc Hval Hi Et Ef Hnew Hu Hact r. pose proof (reachable_ok now S Hre) as Hok.
  assert (Hok' : system_ok now r.2) by (by apply handle_ok).
  assert (Hr : ∀ err w', refresh_begin sha256Hex now b (world S) = (inl (Fail 401 err None), w') →
    r = (Fail 401 err None, mkSystem w' (flights S) (issued S) (accepted S) (families S))).
  { intros err w' E. unfold r, AuthSystem.handle. by rewrite E. }
  destruct (spent_consumed now b S Hok Hacc Hval) as [(w' & E%Hr & Hex & _)|(w' & E%Hr & Hus & _)]; rewrite E in *.
  - exfalso. destruct Hex as (k & rec & x & Hl & Hf). rewrite <- Et, <- Ef in Hf. revert Hf.
    apply (so_landed _ _ _ (sys_sessions _ _ _ Hok) _ _ _ (flight c) Hl). apply list_elem_of_fmap_2.
    by eapply list_elem_of_lookup_2.
  - split; [done|].
    destruct (finish_live now i c token jti u _ Hok') as (rec & x & Hl & _); [done|cbn; by rewrite Hus|done|done|].
    by exists rec, x.
Qed.

(** Logging out everywhere leaves the user without a live refresh token and every
    other user's sessions as they were; but a refresh that was in flight then issues the
    user a live token. *)
Theorem logout_all_outcome now a S :
  reachable now S →
  let r := handle now (LogoutAll (Some a)) S in
  r.1 = NoContent ∧
  (∀ k rec x, live now (store (world r.2)) k rec x ↔
     live now (store (world S)) k rec x ∧ ¬ (tenant_id rec = a_tenantId a ∧ user_id rec = a_uid a)) ∧
  (∀ i c token jti u, flights S !! i = Some c → cs_userId c = a_uid a → users (world S) !! cs_userId c = Some u →
     may_refresh u = true → (∀ t f, (tokenKey t f (sha256Hex token) ∉ issued S)) →
     ∃ rec x, live now (store (world (handle now (RefreshFinish i token jti) r.2).2))
                (tokenKey (cs_tenantId c) (cs_family c) (sha256Hex token)) rec x ∧ user_id rec = a_uid a).
Proof.
  intros Hre r. pose proof (reachable_ok now S Hre) as Hok.
  assert (Hok' : system_ok now r.2) by (by apply handle_ok).
  pose proof (revokeAll_outcome now _ (a_tenantId a) (a_uid a) _ (sys_sessions _ _ _ Hok)) as (_ & _ & Hlive).
  unfold r, AuthSystem.handle, logout_all in *. destruct (revokeAllForUser _ _ _ _) as [n st].
  cbn [fst snd world store audit with_store flights] in *. split_and!; [done|exact Hlive|].
  intros i c token jti u Hi Eu Hu Hact Hnew.
  destruct (finish_live now i c token jti u _ Hok') as (rec & x & Hl & Hrec); [done..|].
  exists rec, x. split; [exact Hl|congruence].
Qed.
End reachable.

(** ** Lockout *)

#[local] Abbreviation find_user := (find_user same_username).
#[local] Abbreviation wrong b w :=
  (password_valid verifyPassword (b_password b) (find_user (default 1 (b_tenant_id b)) (b_username b) w) = false).

Definition body_hash (now : Z) (b : LoginBody) (w : World) : LockoutHash :=
  read_lockout now (default 1 (b_tenant_id b)) (b_username b) (store w).

Definition body_lockout_key (b : LoginBody) : string := lockout_key (default 1 (b_tenant_id b)) (b_username b).

(** A wrong password, when the name is not locked. *)
Lemma login_wrong now token uuid jti b w :
  valid_login b = true → wrong b w → locked_until (body_hash now b w) <= now →
  let h := next_lockout now (body_hash now b w) in
  ∃ w', login now token uuid jti b w =
    (if now <? locked_until h then Fail 429 "locked" (Some (locked_until h)) else Fail 401 "invalid_credentials" None, w') ∧
    users w' = users w ∧ store w' = write_lockout now (default 1 (b_tenant_id b)) (b_username b) h (store w).
Proof using e jwt_sign verifyPassword hashPassword needsRehash same_username sha256Hex.
  intros Hval Hw Hun h. unfold Auth.login. rewrite Hval. cbn [negb]. unfold getLockoutState.
  fold (read_lockout now (default 1 (b_tenant_id b)) (b_username b) (store w)). fold (body_hash now b w). cbn [isLocked].
  rewrite (proj2 (Z.ltb_ge _ _) Hun). clear Hun.
  assert (Hrej : ∀ u, ∃ w', login_rejected now (default 1 (b_tenant_id b)) u (b_username b) w =
    (if now <? locked_until h then Fail 429 "locked" (Some (locked_until h)) else Fail 401 "invalid_credentials" None, w') ∧
    users w' = users w ∧ store w' = write_lockout now (default 1 (b_tenant_id b)) (b_username b) h (store w)).
  { intros u. unfold login_rejected, recordFailure. fold (body_hash now b w). fold h. cbn [isLocked].
    destruct (now <? locked_until h); by eexists. }
  destruct (find_user _ _ _) as [u|]; [|apply Hrej]. rewrite Hw. apply Hrej.
Qed.



Lemma wrong_users b w w' : users w' = users w → wrong b w → wrong b w'.
Proof using verifyPassword same_username. unfold Auth.find_user. by intros ->. Qed.




(** Logins under one name after another, at one instant. *)
Fixpoint spray (now : Z) (bs : list LoginBody) (w : World) : list Response * World :=
  match bs with
  | [] => ([], w)
  | b :: bs' =>
      let '(r, w1) := login now EmptyString EmptyString EmptyString b w in
      let '(rs, w2) := spray now bs' w1 in
      (r :: rs, w2)
  end.

Lemma spray_unlocked now bs w :
  0 <= now → Forall (λ b, valid_login b = true ∧ wrong b w ∧ body_hash now b w = no_lockout) bs →
  NoDup (body_lockout_key <$> bs) →
  (spray now bs w).1 = replicate (length bs) (Fail 401 "invalid_credentials" None) ∧
  users (spray now bs w).2 = users w ∧
  (∀ b, (body_lockout_key b ∉ body_lockout_key <$> bs) → body_hash now b (spray now bs w).2 = body_hash now b w).
Proof using e jwt_sign verifyPassword hashPassword needsRehash same_username sha256Hex.
  clear isPwned. intros Hnow. revert w. induction bs as [|b bs IH]; intros w Hall Hnd; [done|].
  apply Forall_cons in Hall as [(Hval & Hw & Hh) Hall]. cbn in Hnd. apply NoDup_cons in Hnd as [Hk Hnd]. cbn [spray].
  destruct (login_wrong now EmptyString EmptyString EmptyString b w Hval Hw) as (w1 & -> & Hu & Hst); [by rewrite Hh|].
  rewrite Hh in *.
  assert (N : next_lockout now no_lockout = mkLockout 1 now 0 0) by (rewrite next_lockout_count; [done|by right|done]).
  rewrite N in *. cbn [locked_until]. rewrite (proj2 (Z.ltb_ge now 0)) by lia.
  assert (Hother : ∀ b', body_lockout_key b' ≠ body_lockout_key b → body_hash now b' w1 = body_hash now b' w).
  { intros b' Hne. unfold body_hash at 1. rewrite Hst. apply read_other. intros E. by apply Hne. }
  destruct (IH w1) as (Hr & Hu' & Hh'); [|done|].
  { rewrite Forall_forall in Hall |- *. intros b' Hb'. destruct (Hall b' Hb') as (? & ? & ?).
    split_and!; [done|by eapply wrong_users|]. rewrite Hother; [done|]. intros E. apply Hk. rewrite <- E.
    by apply list_elem_of_fmap_2. }
  destruct (spray now bs w1) as [rs w2]. cbn [fst snd length replicate] in *. split_and!; [by f_equal|congruence|].
  intros b' Hb'. cbn in Hb'. rewrite not_elem_of_cons in Hb'. destruct Hb' as [Hne Hb']. rewrite Hh' by done. by apply Hother.
Qed.

(** The lock counts each spelling of a name on its own, but the users table compares
    names by its collation.  Any number of wrong passwords for one user, under spellings
    that differ in lower case, are all answered [invalid_credentials], the user is never
    locked, and the right password then logs in. *)
Theorem lockout_per_spelling now bs b u token uuid jti w :
  0 <= now → may_refresh u = true → verifyPassword (b_password b) (passwordHash u) = true →
  Forall (λ b, valid_login b = true ∧ body_hash now b w = no_lockout ∧
               find_user (default 1 (b_tenant_id b)) (b_username b) w = Some u) (b :: bs) →
  Forall (λ b, verifyPassword (b_password b) (passwordHash u) = false) bs →
  NoDup (body_lockout_key <$> b :: bs) →
  (spray now bs w).1 = replicate (length bs) (Fail 401 "invalid_credentials" None) ∧
  ∃ access aexp rexp w', login now token uuid jti b (spray now bs w).2 = (LoggedIn access token uuid aexp rexp u, w').
Proof using e jwt_sign verifyPassword hashPassword needsRehash same_username sha256Hex.
  clear isPwned. intros Hnow [Hactive Hact]%andb_true_iff Hpw Hall Hwrong Hnd. cbn in Hnd. apply NoDup_cons in Hnd as [Hk Hnd].
  apply Forall_cons in Hall as [(Hval & Hh & Hfind) Hall].
  destruct (spray_unlocked now bs w Hnow) as (Hr & Hu & Hother); [|done|].
  { rewrite Forall_forall in Hall, Hwrong |- *. intros b' Hb'. destruct (Hall b' Hb') as (? & ? & Hf).
    split_and!; [done| |done]. unfold password_valid. rewrite Hf, Hactive. by apply Hwrong. }
  split; [done|]. specialize (Hother b Hk). rewrite Hh in Hother.
  assert (Hfind' : find_user (default 1 (b_tenant_id b)) (b_username b) (spray now bs w).2 = Some u).
  { unfold Auth.find_user. rewrite Hu. exact Hfind. }
  unfold Auth.login. rewrite Hval. cbn [negb]. unfold getLockoutState.
  fold (read_lockout now (default 1 (b_tenant_id b)) (b_username b) (store (spray now bs w).2)).
  fold (body_hash now b (spray now bs w).2). rewrite Hother. cbn [isLocked locked_until no_lockout].
  rewrite (proj2 (Z.ltb_ge now 0)) by lia. rewrite Hfind'. unfold password_valid. rewrite Hactive, Hpw. cbn [andb].
  unfold login_accepted. destruct (permissions_of _); [|done]. destruct (signAccessToken _ _ _ _ _). unfold issueRefreshToken. cbn. eauto.
Qed.

(** No super administrator can log in: the database calls the role [superadmin], the
    permissions [super_admin], so the route throws on the right password, and no token is
    issued. *)
Theorem superadmin_cannot_login now token uuid jti b u w :
  find_user (default 1 (b_tenant_id b)) (b_username b) w = Some u → u_role u = db_superadmin →
  let '(resp, w') := login now token uuid jti b w in
  (∃ status error until, resp = Fail status error until) ∧
  tokens (store w') = tokens (store w) ∧ sets (store w') = sets (store w) ∧
  (valid_login b = true → locked_until (body_hash now b w) <= now →
     password_valid verifyPassword (b_password b) (Some u) = true → resp = type_error).
Proof using e jwt_sign verifyPassword hashPassword needsRehash same_username sha256Hex.
  clear isPwned. intros Hfind Hrole. unfold Auth.login. destruct (valid_login b); cbn [negb]; [|by split_and!; [eexists _, _, _| | |]].
  unfold getLockoutState. fold (read_lockout now (default 1 (b_tenant_id b)) (b_username b) (store w)).
  fold (body_hash now b w). cbn [isLocked]. destruct (Z.ltb_spec now (locked_until (body_hash now b w))) as [Hl|Hl].
  { split_and!; [by eexists _, _, _|done|done|lia]. }
  rewrite Hfind. destruct (password_valid _ _ _).
  - unfold login_accepted. rewrite Hrole. change (permissions_of (user_role_name db_superadmin)) with (@None (list Verb)).
    destruct (needsRehash _); (split_and!; [by eexists _, _, _|done..]).
  - unfold login_rejected, recordFailure. cbv zeta. destruct (isLocked _); (split_and!; [by eexists _, _, _|done..]).
Qed.

(** A logout ends whatever family of the tenant its body names, the actor's or not. *)
Lemma logout_any_family now a f S :
  system_ok now S →
  ∀ k r x, live now (store (world (handle now (Logout (Some a) (Some f)) S).2)) k r x →
    f ≠ EmptyString → ¬ same_family r (a_tenantId a) f.
Proof.
  intros Hok k r x. unfold AuthSystem.handle, logout.
  pose proof (revokeFamily_outcome now _ (a_tenantId a) f (Some (a_uid a)) _ (sys_sessions _ _ _ Hok)) as (_ & _ & Hl).
  intros H Hf. revert H. rewrite bool_decide_eq_false_2 by congruence. destruct (revokeFamily _ _ _ _ _) as [n st].
  cbn. intros H. by apply Hl in H as [_ H].
Qed.

(** ** What the tokens allow *)

(** The context of a request with a token the API signed. *)
Definition signed_auth (input : SignAccessTokenInput) (r : Role) (jti : string) : ApiAuth :=
  mkApiAuth (s_uid input) (s_tenantId input) r (default (permsAsSet r) (s_perms input)) jti (s_totpVerified input) None AllCampaigns.

(** A token the API signs authenticates as the user, tenant, role and permissions it
    was signed for, when the library accepts it.  No claim restricts its campaigns, for
    any role: whatever a role is granted for its own campaigns, its requests may do in
    every campaign of the tenant. *)
Theorem signed_tokens_unscoped jwtVerify now now' jti input r header tok :
  role_of_name (s_role input) = Some r →
  (signAccessToken e jwt_sign now jti input).1 = tok → tok ≠ EmptyString → extractBearer header = Some tok →
  jwtVerify now' (jwtIssuer e) (s_aud input) 60 tok = Ok (signAccessToken e jwt_sign now jti input).2 →
  authenticate e jwtVerify now' header (s_aud input) = Ok (signed_auth input r jti) ∧
  ∀ verb g campaign, r ≠ integrator → ROLE_VERBS r verb = Some g → scope g = group_scope →
    requirePermission verb (Some (mkScope (Some (s_tenantId input)) (Some campaign) None None None None))
      (Some (signed_auth input r jti)) = None.
Proof.
  intros Hrole Htok Hne Hbearer Hverify. split.
  - unfold authenticate, verifyAccessToken. rewrite Hbearer. destruct tok as [|c tok]; [done|]. rewrite Hverify.
    cbn -[role_of_name allowed_campaigns]. rewrite Hrole. unfold allowed_campaigns. cbn [c_cmps_kind]. by repeat case_bool_decide.
  - intros verb g campaign Hint Hg Hs. unfold requirePermission, Can. cbn [default from_option id toRbacAuth sc_tenantId].
    cbn [auth_tenantId a_tenantId signed_auth active role a_role].
    rewrite !bool_decide_eq_true_2, (bool_decide_eq_false_2 _ Hint) by done. cbn [negb].
    rewrite bool_decide_eq_false_2 by done. unfold Can_matrix.
    change (role (toRbacAuth (signed_auth input r jti))) with r. by rewrite Hg, Hs.
Qed.
End theorems.

(** ** Concrete systems *)

(** A hash of 64 characters. *)
Definition toy_hash (s : string) : string :=
  String.substring 0 64 (s +:+ "0000000000000000000000000000000000000000000000000000000000000000").

Lemma substring_length n s : (n <= String.length s)%nat → String.length (String.substring 0 n s) = n.
Proof. revert s. induction n as [|n IH]; intros [|c s]; cbn; [done..|lia|]. intros H. by rewrite IH by lia. Qed.

Lemma toy_hash_length s : String.length (toy_hash s) = 64%nat.
Proof. unfold toy_hash. apply substring_length. rewrite length_string_app. cbn. lia. Qed.

Definition carol : User := mkUser 7 1 "carol" "secret" db_agent true false None.
Definition one_user : gmap Z User := {[ 7 := carol ]}.

(** The collation pads names with spaces. *)
Definition strip (s : string) : string :=
  String.string_of_list_ascii (rev (trim_left (rev (String.list_ascii_of_string s)))).
Definition padded (a b : string) : bool := String.eqb (strip a) (strip b).

Definition sign (_ : Payload) : string := "token"%string.
Definition never (_ : string) : bool := false.
Definition keep (s : string) : string := s.

#[local] Abbreviation demo_handle := (handle env_defaults sign String.eqb keep never never padded toy_hash).

Definition carol_login : Request := Login "refresh-token-a" "family-1" "jti" (mkLogin None "carol" "secret").
Definition refresh_with (token : string) : Request := RefreshBegin (mkRefreshBody token "family-1" None).

Definition logged_in : System := (demo_handle 100 carol_login (start one_user)).2.
Definition refreshing : System := (demo_handle 200 (refresh_with "refresh-token-a") logged_in).2.

Definition refreshed : System := (demo_handle 201 (RefreshFinish 0 "refresh-token-b" "jti-2") refreshing).2.

#[local] Abbreviation demo_reachable :=
  (reachable env_defaults sign String.eqb keep never never padded toy_hash).

Lemma one_user_keyed i u : one_user !! i = Some u → u_id u = i.
Proof. unfold one_user. by intros [<- <-]%lookup_singleton_Some. Qed.

Lemma refreshing_reachable : demo_reachable 200 refreshing.
Proof.
  exists one_user, 0. split; [exact one_user_keyed|].
  apply (run_cons _ _ _ _ _ _ _ _ 0 (start one_user) 100 carol_login 200 refreshing); [lia|apply not_elem_of_nil|].
  apply (run_cons _ _ _ _ _ _ _ _ 100 logged_in 200 (refresh_with "refresh-token-a") 200 refreshing); [lia|exact I|].
  apply run_nil.
Qed.

Lemma refreshing_issued : issued refreshing = [tokenKey 1 "family-1" (toy_hash "refresh-token-a")].
Proof. vm_compute. reflexivity. Qed.

Lemma fresh_token_b t f : tokenKey t f (toy_hash "refresh-token-b") ∉ issued refreshing.
Proof.
  rewrite refreshing_issued, list_elem_of_singleton. intros (_ & _ & H)%tokenKey_inj; [|apply toy_hash_length..].
  revert H. vm_compute. discriminate.
Qed.

Lemma demo_ttls : positive_ttls env_defaults.
Proof. split_and!; reflexivity. Qed.

Definition spent_body : RefreshBody := mkRefreshBody "refresh-token-a" "family-1" None.

Lemma refresh_single_use_witness :
  NoDup (accepted refreshing) ∧
  ∀ c w', refresh_begin toy_hash 200 spent_body (world refreshing) ≠ (inr c, w').
Proof.
  destruct (refresh_single_use env_defaults sign String.eqb keep never never padded toy_hash toy_hash_length demo_ttls
    200 refreshing refreshing_reachable) as (Hnd & _ & Hspent & _).
  split; [exact Hnd|]. intros c w'. apply Hspent. apply (bool_decide_unpack _). vm_compute. exact I.
Defined.

(** A refresh between reading the members of a family and deleting them keeps its token
    alive and in no set: the spent token is then answered [refresh_not_found], and the
    new one is accepted. *)
Lemma revoked_between :
  let members := elements (smembers 200 (familyKey 1 "family-1") (store (world logged_in))) in
  let st := (revoke_members 201 1 "family-1" members (store (world refreshed))).2 in
  smembers 201 (familyKey 1 "family-1") st = ∅ ∧
  (consumeRefreshToken toy_hash 202 1 "family-1" "refresh-token-a" None st).1 = consumed_not_found ∧
  ∃ role parent expiresAt, (consumeRefreshToken toy_hash 202 1 "family-1" "refresh-token-b" None st).1 =
    consumed_ok 7 1 "family-1" role parent expiresAt.
Proof. split_and!; [vm_compute; reflexivity..|]. do 3 eexists. vm_compute. reflexivity. Qed.

Lemma spent_in_flight_witness :
  (demo_handle 200 (RefreshBegin spent_body) refreshing).1 = Fail 401 "refresh_not_found" None.
Proof.
  refine (proj1 (spent_in_flight env_defaults sign String.eqb keep never never padded toy_hash toy_hash_length
    demo_ttls 200 spent_body refreshing 0%nat (mkConsumed 7 1 "family-1" "refresh-token-a")
    "refresh-token-b"%string "jti-2"%string (with_login 100 carol) refreshing_reachable _ _ _ _ _ fresh_token_b _ _)).
  - apply (bool_decide_unpack _). vm_compute. exact I.
  - reflexivity.
  - vm_compute. reflexivity.
  - reflexivity.
  - reflexivity.
  - vm_compute. reflexivity.
  - reflexivity.
Defined.

Definition carol_auth : ApiAuth := signed_auth (access_input env_defaults carol (permissionsFor agent)) agent "jti".

Lemma logout_all_outcome_witness :
  ∃ rec x, live 200
    (store (world (demo_handle 200 (RefreshFinish 0 "refresh-token-b" "jti-2")
                     (demo_handle 200 (LogoutAll (Some carol_auth)) refreshing).2).2))
    (tokenKey 1 "family-1" (toy_hash "refresh-token-b")) rec x ∧ user_id rec = 7.
Proof.
  refine (proj2 (proj2 (logout_all_outcome env_defaults sign String.eqb keep never never padded toy_hash toy_hash_length
    demo_ttls 200 carol_auth refreshing refreshing_reachable)) 0%nat (mkConsumed 7 1 "family-1" "refresh-token-a")
    "refresh-token-b"%string "jti-2"%string (with_login 100 carol) _ _ _ _ _).
  - vm_compute. reflexivity.
  - reflexivity.
  - vm_compute. reflexivity.
  - reflexivity.
  - exact fresh_token_b.
Defined.

Definition carol_world : World := mkWorld empty_store one_user [].
Definition wrong_password (name : string) : LoginBody := mkLogin None name "guess".


Lemma lockout_per_spelling_witness :
  (spray env_defaults sign String.eqb keep never padded toy_hash 1000
     [wrong_password "carol "; wrong_password "carol  "; wrong_password "carol   "; wrong_password "carol    ";
      wrong_password "carol     "; wrong_password "carol      "] carol_world).1 =
  replicate 6 (Fail 401 "invalid_credentials" None).
Proof.
  refine (proj1 (lockout_per_spelling env_defaults sign String.eqb keep never padded toy_hash 1000
    [wrong_password "carol "; wrong_password "carol  "; wrong_password "carol   "; wrong_password "carol    ";
      wrong_password "carol     "; wrong_password "carol      "] (mkLogin None "carol" "secret") carol
    EmptyString EmptyString EmptyString carol_world _ _ _ _ _ _)).
  - vm_compute. congruence.
  - reflexivity.
  - reflexivity.
  - repeat (apply Forall_cons; split; [split_and!; vm_compute; reflexivity|]). apply Forall_nil. exact I.
  - repeat (apply Forall_cons; split; [reflexivity|]). apply Forall_nil. exact I.
  - apply (bool_decide_unpack _). vm_compute. exact I.
Defined.

Definition root : User := mkUser 9 1 "root" "secret" db_superadmin true false None.
Definition root_world : World := mkWorld empty_store {[ 9 := root ]} [].

Lemma superadmin_cannot_login_witness :
  (login env_defaults sign String.eqb keep never padded toy_hash 1000 "token" "family" "jti" (mkLogin None "root" "secret")
     root_world).1 = type_error.
Proof.
  pose proof (superadmin_cannot_login env_defaults sign String.eqb keep never padded toy_hash 1000 "token"%string
    "family"%string "jti"%string (mkLogin None "root" "secret") root root_world) as H.
  destruct (login _ _ _ _ _ _ _ _ _ _ _ _ _) as [resp w'].
  apply H; [reflexivity|reflexivity|reflexivity|vm_compute; congruence|reflexivity].
Defined.

Definition supervisor_input : SignAccessTokenInput :=
  mkSign 8 1 "supervisor" (Some (permissionsFor supervisor)) true api 900.

Definition verify_signed (now : Z) (_ : string) (_ : Audience) (_ : Z) (token : string) : result string Payload :=
  if String.eqb token "token" then Ok (signAccessToken env_defaults sign 100 "jti" supervisor_input).2 else Err "bad"%string.

Lemma signed_tokens_unscoped_witness :
  requirePermission call_listen (Some (mkScope (Some 1) (Some 42) None None None None))
    (Some (signed_auth supervisor_input supervisor "jti")) = None.
Proof.
  refine (proj2 (signed_tokens_unscoped env_defaults sign verify_signed 100 200 "jti" supervisor_input
    supervisor (Some "Bearer token"%string) "token"%string _ _ _ _ _) call_listen (sens group_scope) 42 _ _ _).
  - reflexivity.
  - reflexivity.
  - discriminate.
  - vm_compute. reflexivity.
  - reflexivity.
  - discriminate.
  - reflexivity.
  - reflexivity.
Defined.
