(* ===== verification/Coaching.v ===== *)
(** Coaching of agents, [api/src/services/coaching] with its routes
    ([routes/admin/coaching], [routes/sup/coaching], [routes/agent/feedback]): templates of
    scorecards and their versions, the score of a call, scorecards from draft to finalized
    and back, annotations on calls, and feedback that an agent acknowledges.

    An operation is a function of the tables that gives its result and the tables it
    leaves, also when it throws: the routes do not run in transactions.  The error classes
    of the services carry the status of the answer; every other exception is [Thrown].  The
    server ([CoachServer]) is a parameter: the texts its columns accept, the collation that
    compares and orders texts, and [Number] of texts that are no integers.  Request bodies are those
    the schemas accept, with their defaults. *)

From S2P Require Import Prelude Calendar Jcs JsonText JsNumber Rbac Auth.

#[local] Open Scope Z_scope.

Record CoachServer := mkCoachServer {
  (** a text of at most so many characters *)
  varchar : Z → string → bool;
  (** a text of at most 65535 bytes *)
  text_fits : string → bool;
  same_text : string → string → bool;
  name_le : string → string → bool;
  number_text : string → Num;
}.

(** ** Criteria and scores, [types.ts] *)

Inductive CriterionType := numeric | binary | auto_fail_type | text_only | unknown_type (name : string).

#[export] Instance CriterionType_eq_dec : EqDecision CriterionType.
Proof. solve_decision. Defined.

(** A number is [None] when the column holds [null]: JSON has no infinities. *)
Record ScorecardCriterion := mkCriterion {
  c_id : string;
  c_label : string;
  c_type : CriterionType;
  c_weight : option Num;
  c_max_score : option Num;
  c_section : option string;
  c_auto_fail : option bool;
  c_na_eligible : option bool;
}.

Record ScoreEntry := mkScore {
  e_criterion_id : string;
  e_score : option Num;
  e_na : option bool;
  e_comment : option string;
}.

#[export] Instance ScorecardCriterion_eq_dec : EqDecision ScorecardCriterion.
Proof. solve_decision. Defined.
#[export] Instance ScoreEntry_eq_dec : EqDecision ScoreEntry.
Proof. solve_decision. Defined.

(** [null] in arithmetic. *)
Definition value (o : option Num) : Num := default (num 0) o.

Definition flag (o : option bool) : bool := default false o.

(** What a JSON column gives back. *)
Definition stored_criterion (c : ScorecardCriterion) : ScorecardCriterion :=
  mkCriterion (c_id c) (c_label c) (c_type c) (c_weight c ≫= json_number) (c_max_score c ≫= json_number)
    (c_section c) (c_auto_fail c) (c_na_eligible c).

Definition stored_score (e : ScoreEntry) : ScoreEntry :=
  mkScore (e_criterion_id e) (e_score e ≫= json_number) (e_na e) (e_comment e).

(** The last message prints the sum with two decimals. *)
Inductive Issue :=
  | issue (field message : string)
  | weights_issue (got : Num).

Definition criterion_field (which member : string) : string := "criteria[" +:+ which +:+ "]." +:+ member.

Definition issue_unless (ok : bool) (field message : string) : list Issue := if ok then [] else [issue field message].

Definition equals (o : option Num) (n : Z) : bool :=
  match o with Some x => neqb x (num n) | None => false end.

Definition is_scoring (t : CriterionType) : bool := match t with numeric | binary => true | _ => false end.

Definition text_set (s : string) : bool := negb (String.eqb s EmptyString).

Definition id_issues (c : ScorecardCriterion) : list Issue :=
  issue_unless (text_set (c_id c)) (criterion_field (c_label c) "id") "Criterion id must be a UUID string" ++
  issue_unless (text_set (c_label c)) (criterion_field (c_label c) "label") "Criterion label is required".

Definition type_issues (c : ScorecardCriterion) : list Issue :=
  match c_type c with
  | unknown_type name => [issue (criterion_field (c_id c) "type") ("Invalid type: " +:+ name)]
  | auto_fail_type =>
      issue_unless (equals (c_weight c) 0) (criterion_field (c_id c) "weight") "auto_fail criterion must have weight=0" ++
      issue_unless (equals (c_max_score c) 1) (criterion_field (c_id c) "max_score") "auto_fail criterion must have max_score=1"
  | text_only =>
      issue_unless (equals (c_weight c) 0) (criterion_field (c_id c) "weight") "text_only criterion must have weight=0" ++
      issue_unless (equals (c_max_score c) 0) (criterion_field (c_id c) "max_score") "text_only criterion must have max_score=0"
  | numeric =>
      issue_unless (negb (nltb (value (c_max_score c)) (num 1))) (criterion_field (c_id c) "max_score") "max_score must be ≥ 1"
  | binary =>
      issue_unless (negb (nltb (value (c_max_score c)) (num 1))) (criterion_field (c_id c) "max_score") "max_score must be ≥ 1" ++
      issue_unless (equals (c_max_score c) 1) (criterion_field (c_id c) "max_score") "binary criterion must have max_score=1"
  end.

(** The loop: the issues, the sum of the weights that count and whether there is one. *)
Definition criteria_step (acc : list Issue * Num * bool) (c : ScorecardCriterion) : list Issue * Num * bool :=
  let '(errors, sum, found) := acc in
  let errors := errors ++ id_issues c ++ type_issues c in
  if is_scoring (c_type c) then (errors, nadd sum (value (c_weight c)), true) else (errors, sum, found).

Definition MAX_CRITERIA : nat := 50.

Definition validateCriteria (criteria : list ScorecardCriterion) : list Issue :=
  match criteria with
  | [] => [issue "criteria" "At least one criterion is required"]
  | _ =>
      let many := issue_unless (length criteria <=? MAX_CRITERIA)%nat "criteria" "Maximum 50 criteria allowed" in
      let '(errors, sum, found) := fold_left criteria_step criteria (many, num 0, false) in
      errors ++
      if negb found then [issue "criteria" "At least one scoring criterion (numeric or binary) is required"]
      else if nltb (ndiv (num 1) (num 100)) (Math_abs (nsub sum (num 100))) then [weights_issue sum] else []
  end.

(** ** The score of a call, [scorecard-service.ts] *)

Definition entry_for (scores : list ScoreEntry) (c : ScorecardCriterion) : option ScoreEntry :=
  List.find (λ s, String.eqb (e_criterion_id s) (c_id c)) scores.

Definition fails_call (scores : list ScoreEntry) (c : ScorecardCriterion) : bool :=
  match entry_for scores c with
  | Some e => equals (e_score e) 0 && negb (flag (e_na e))
  | None => false
  end.

Definition in_na_ids (scores : list ScoreEntry) (c : ScorecardCriterion) : bool :=
  existsb (λ s, flag (e_na s) && String.eqb (e_criterion_id s) (c_id c)) scores.

Definition scoring_criteria (criteria : list ScorecardCriterion) : list ScorecardCriterion :=
  List.filter (λ c, negb (bool_decide (c_type c = text_only)) && negb (flag (c_auto_fail c))) criteria.

(** [(score / c.max_score) * normalizedWeight] *)
Definition term (activeWeight : Num) (scores : list ScoreEntry) (c : ScorecardCriterion) : Num :=
  let score := value (entry_for scores c ≫= e_score) in
  nmul (ndiv score (value (c_max_score c))) (nmul (ndiv (value (c_weight c)) activeWeight) (num 100)).

Definition computeTotal (criteria : list ScorecardCriterion) (scores : list ScoreEntry) : Num :=
  if existsb (fails_call scores) (List.filter (λ c, flag (c_auto_fail c)) criteria) then num 0
  else
    let scoring := scoring_criteria criteria in
    let activeWeight := nsum (map (λ c, value (c_weight c)) (List.filter (λ c, negb (in_na_ids scores c)) scoring)) in
    if neqb activeWeight (num 0) then num 0
    else round_2dp (fold_left (λ total c, if in_na_ids scores c then total else nadd total (term activeWeight scores c))
                      scoring (num 0)).

Definition missing_score (c : ScorecardCriterion) (scores : list ScoreEntry) : option string :=
  let named := "Criterion " +:+ String quote (c_label c +:+ String quote (" (" +:+ c_id c +:+ ")")) in
  match entry_for scores c with
  | None => Some (named +:+ " is missing a score")
  | Some e => if negb (flag (e_na e)) && bool_decide (e_score e = None)
              then Some (named +:+ " has no score and is not marked N/A") else None
  end.

Fixpoint first_missing (required : list ScorecardCriterion) (scores : list ScoreEntry) : option string :=
  match required with
  | [] => None
  | c :: rest => match missing_score c scores with Some m => Some m | None => first_missing rest scores end
  end.

Definition validateScoresComplete (criteria : list ScorecardCriterion) (scores : list ScoreEntry) : option string :=
  first_missing (List.filter (λ c, negb (bool_decide (c_type c = text_only))) criteria) scores.

(** ** The tables *)

Inductive ScorecardStatus : Set := draft | finalized.
Inductive AnnotationTag : Set := positive_tag | needs_improvement | training_opportunity | compliance_flag | praise.

#[export] Instance AnnotationTag_eq_dec : EqDecision AnnotationTag.
Proof. solve_decision. Defined.
#[export] Instance ScorecardStatus_eq_dec : EqDecision ScorecardStatus.
Proof. solve_decision. Defined.

Record ScorecardTemplate := mkTemplate {
  tp_id : Z;
  tp_tenantId : Z;
  tp_parentId : option Z;
  tp_version : Z;
  tp_name : string;
  tp_description : option string;
  tp_criteria : list ScorecardCriterion;
  tp_active : bool;
  tp_createdBy : option Z;
}.

Record CallScorecard := mkScorecard {
  sc_id : Z;
  sc_tenantId : Z;
  sc_callUuid : string;
  sc_templateId : Z;
  sc_supervisorId : option Z;
  sc_agentId : option Z;
  sc_campaignId : option string;
  sc_scores : list ScoreEntry;
  sc_totalScore : Z;
  sc_comments : option string;
  sc_status : ScorecardStatus;
  sc_isCalibration : bool;
  sc_finalizedAt : option Z;
  sc_createdAt : Z;
}.

Record CallAnnotation := mkAnnotation {
  an_id : Z;
  an_tenantId : Z;
  an_callUuid : string;
  an_scorecardId : option Z;
  an_supervisorId : option Z;
  an_timestampMs : Z;
  an_text : string;
  an_tag : AnnotationTag;
  an_createdAt : Z;
}.

Record AgentFeedback := mkFeedback {
  fb_id : Z;
  fb_tenantId : Z;
  fb_agentId : Z;
  fb_supervisorId : option Z;
  fb_relatedScorecardId : option Z;
  fb_relatedCallUuid : option string;
  fb_body : string;
  fb_acknowledgedAt : option Z;
  fb_createdAt : Z;
}.

Record CoachUser := mkCoachUser {
  cu_tenantId : Z;
  cu_fullName : option string;
  cu_username : string;
  cu_role : string;
  cu_userGroupId : option Z;
}.

Record RecordingLog := mkRecording {
  rl_id : Z;
  rl_uuid : string;
  rl_tenantId : Z;
  rl_userId : option Z;
}.

(** A value of [afterJson]. *)
Inductive AuditValue :=
  | AText (s : string)
  | ANumber (n : Z)
  | ABool (b : bool)
  | ADecimal (hundredths : Z)
  | ADate (t : Z)
  | ATag (t : AnnotationTag).

Record CoachAudit := mkCoachAudit {
  ca_action : string;
  ca_tenantId : Z;
  ca_actor : Z;
  ca_entityType : string;
  ca_entityId : string;
  ca_afterJson : list (string * AuditValue);
}.

Record Notification := mkNotification {
  nt_tenantId : Z;
  nt_userId : Z;
  nt_category : string;
  nt_subject : string;
  nt_body : string;
  nt_link : string;
}.

Record CoachDb := mkCoachDb {
  templates : gmap Z ScorecardTemplate;
  next_template : Z;
  scorecards : gmap Z CallScorecard;
  next_scorecard : Z;
  annotations : gmap Z CallAnnotation;
  next_annotation : Z;
  feedback : gmap Z AgentFeedback;
  next_feedback : Z;
  coach_users : gmap Z CoachUser;
  recordings : gmap Z RecordingLog;
  coach_audits : list CoachAudit;
  notifications : list Notification;
}.

Definition with_templates (m : gmap Z ScorecardTemplate) (next : Z) (db : CoachDb) : CoachDb :=
  mkCoachDb m next (scorecards db) (next_scorecard db) (annotations db) (next_annotation db) (feedback db)
    (next_feedback db) (coach_users db) (recordings db) (coach_audits db) (notifications db).
Definition with_scorecards (m : gmap Z CallScorecard) (next : Z) (db : CoachDb) : CoachDb :=
  mkCoachDb (templates db) (next_template db) m next (annotations db) (next_annotation db) (feedback db)
    (next_feedback db) (coach_users db) (recordings db) (coach_audits db) (notifications db).
Definition with_annotations (m : gmap Z CallAnnotation) (next : Z) (db : CoachDb) : CoachDb :=
  mkCoachDb (templates db) (next_template db) (scorecards db) (next_scorecard db) m next (feedback db)
    (next_feedback db) (coach_users db) (recordings db) (coach_audits db) (notifications db).
Definition with_feedback (m : gmap Z AgentFeedback) (next : Z) (db : CoachDb) : CoachDb :=
  mkCoachDb (templates db) (next_template db) (scorecards db) (next_scorecard db) (annotations db) (next_annotation db)
    m next (coach_users db) (recordings db) (coach_audits db) (notifications db).
Definition with_logs (a : list CoachAudit) (n : list Notification) (db : CoachDb) : CoachDb :=
  mkCoachDb (templates db) (next_template db) (scorecards db) (next_scorecard db) (annotations db) (next_annotation db)
    (feedback db) (next_feedback db) (coach_users db) (recordings db) (coach_audits db ++ a) (notifications db ++ n).

Definition rows {A} (m : gmap Z A) : list A := snd <$> map_to_list m.

Definition user_exists (id : Z) (db : CoachDb) : bool := bool_decide (is_Some (coach_users db !! id)).

(** ** Operations that may throw *)

Inductive CoachError :=
  | Refused (statusCode : Z) (message : string) (issues : list Issue)
  | Thrown.

Definition M (A : Type) : Type := CoachDb → result CoachError A * CoachDb.

#[export] Instance M_ret : MRet M := λ A a db, (Ok a, db).
#[export] Instance M_bind : MBind M := λ A B f m db,
  match m db with (Ok a, db') => f a db' | (Err e, db') => (Err e, db') end.

#[export] Instance M_fmap : FMap M := λ A B f m db,
  match m db with (Ok a, db') => (Ok (f a), db') | (Err e, db') => (Err e, db') end.

Definition throw {A} (e : CoachError) : M A := λ db, (Err e, db).
Definition refuse {A} (statusCode : Z) (message : string) : M A := throw (Refused statusCode message []).
Definition gets {A} (f : CoachDb → A) : M A := λ db, (Ok (f db), db).
Definition modify (f : CoachDb → CoachDb) : M unit := λ db, (Ok (), f db).
Definition ensure (b : bool) (e : CoachError) : M unit := if b then mret () else throw e.
Definition need {A} (o : option A) (statusCode : Z) (message : string) : M A :=
  match o with Some a => mret a | None => refuse statusCode message end.

Section services.
Variable server : CoachServer.

Definition opt_fits (o : option string) : bool := from_option (text_fits server) true o.
Definition opt_varchar (n : Z) (o : option string) : bool := from_option (varchar server n) true o.

(** ** Templates, [template-service.ts] *)

Definition find_template (id tenantId : Z) (db : CoachDb) : option ScorecardTemplate :=
  t ← templates db !! id; if tp_tenantId t =? tenantId then Some t else None.

(** What the columns and keys of the table accept: [name] has 128 characters at most, the
    version is a [SMALLINT UNSIGNED] and the creator a user. *)
Definition template_fits (t : ScorecardTemplate) (db : CoachDb) : bool :=
  varchar server 128 (tp_name t) && opt_fits (tp_description t) && (tp_version t <=? 65535) &&
  from_option (λ u, user_exists u db) true (tp_createdBy t).

Definition put_template (t : ScorecardTemplate) (next : Z) : M ScorecardTemplate :=
  _ ← modify (λ db, with_templates (<[ tp_id t := t ]> (templates db)) next db);
  mret t.

(** [scorecardTemplate.create] *)
Definition insert_template (row : Z → ScorecardTemplate) : M ScorecardTemplate :=
  id ← gets next_template;
  fits ← gets (template_fits (row id));
  _ ← ensure fits Thrown;
  put_template (row id) (id + 1).

(** [scorecardTemplate.update] of a row that exists *)
Definition save_template (t : ScorecardTemplate) : M ScorecardTemplate :=
  _ ← ensure (varchar server 128 (tp_name t) && opt_fits (tp_description t)) Thrown;
  next ← gets next_template;
  put_template t next.

Definition archive_template (t : ScorecardTemplate) : M ScorecardTemplate :=
  next ← gets next_template;
  put_template (mkTemplate (tp_id t) (tp_tenantId t) (tp_parentId t) (tp_version t) (tp_name t) (tp_description t)
                  (tp_criteria t) false (tp_createdBy t)) next.

(** [orderBy: [{ active: 'desc' }, { name: 'asc' }]] *)
Definition template_le (a b : ScorecardTemplate) : bool :=
  if Bool.eqb (tp_active a) (tp_active b) then name_le server (tp_name a) (tp_name b) else tp_active a.

Definition list_templates (tenantId : Z) (includeInactive : bool) (db : CoachDb) : list ScorecardTemplate :=
  sort_by template_le
    (List.filter (λ t, (tp_tenantId t =? tenantId) && (includeInactive || tp_active t)) (rows (templates db))).

(** A template with its parent and its children. *)
Definition template_detail (id tenantId : Z) (db : CoachDb)
    : option (ScorecardTemplate * option ScorecardTemplate * list ScorecardTemplate) :=
  t ← find_template id tenantId db;
  Some (t, tp_parentId t ≫= λ p, templates db !! p,
        List.filter (λ c, bool_decide (tp_parentId c = Some (tp_id t))) (rows (templates db))).

Definition criteria_checked (criteria : list ScorecardCriterion) : M unit :=
  match validateCriteria criteria with
  | [] => mret ()
  | errors => throw (Refused 422 "Invalid criteria" errors)
  end.

Definition create_template (tenantId : Z) (name : string) (description : option string)
    (criteria : list ScorecardCriterion) (createdBy : Z) : M ScorecardTemplate :=
  _ ← criteria_checked criteria;
  insert_template (λ id,
    mkTemplate id tenantId None 1 name description (stored_criterion <$> criteria) true (Some createdBy)).

Definition finalized_with (templateId : Z) (s : CallScorecard) : bool :=
  (sc_templateId s =? templateId) && bool_decide (sc_status s = finalized).

(** [callScorecard.count] *)
Definition finalizedCount (templateId : Z) (db : CoachDb) : nat :=
  length (List.filter (finalized_with templateId) (rows (scorecards db))).

(** [update]: a template with finalized scorecards gets a new version and is archived. *)
Definition update_template (id tenantId : Z) (name : option string) (description : option (option string))
    (criteria : option (list ScorecardCriterion)) (updatedBy : Z) : M (ScorecardTemplate * bool) :=
  found ← gets (find_template id tenantId);
  existing ← need found 404 "Template not found";
  _ ← ensure (tp_active existing) (Refused 409 "Template is archived" []);
  _ ← from_option criteria_checked (mret ()) criteria;
  let name := default (tp_name existing) name in
  let description := default (tp_description existing) description in
  let criteria := from_option (fmap stored_criterion) (tp_criteria existing) criteria in
  n ← gets (finalizedCount id);
  if (0 <? n)%nat then
    t ← insert_template (λ new, mkTemplate new tenantId (Some id) (tp_version existing + 1) name description criteria true
                                  (Some updatedBy));
    _ ← archive_template existing;
    mret (t, true)
  else
    t ← save_template (mkTemplate id (tp_tenantId existing) (tp_parentId existing) (tp_version existing) name description
                         criteria (tp_active existing) (tp_createdBy existing));
    mret (t, false).

Definition deactivate_template (id tenantId : Z) : M ScorecardTemplate :=
  found ← gets (find_template id tenantId);
  existing ← need found 404 "Template not found";
  archive_template existing.

(** ** Scorecards, [scorecard-service.ts] *)

Definition find_scorecard (id tenantId : Z) (db : CoachDb) : option CallScorecard :=
  s ← scorecards db !! id; if sc_tenantId s =? tenantId then Some s else None.

(** [getByCallUuid] without a supervisor, as the routes call it *)
Definition getByCallUuid (callUuid : string) (tenantId : Z) (db : CoachDb) : option CallScorecard :=
  List.find (λ s, same_text server callUuid (sc_callUuid s) && (sc_tenantId s =? tenantId)) (rows (scorecards db)).

(** [orderBy: { timestampMs: 'asc' }] *)
Definition by_timestamp (l : list CallAnnotation) : list CallAnnotation :=
  sort_by (λ a b, an_timestampMs a <=? an_timestampMs b) l.

(** [include: { template: true, annotations: ... }], through the foreign keys *)
Definition scorecard_detail (s : CallScorecard) (db : CoachDb)
    : CallScorecard * option ScorecardTemplate * list CallAnnotation :=
  (s, templates db !! sc_templateId s,
   by_timestamp (List.filter (λ a, bool_decide (an_scorecardId a = Some (sc_id s))) (rows (annotations db)))).

Definition scorecard_fits (s : CallScorecard) (db : CoachDb) : bool :=
  varchar server 40 (sc_callUuid s) && opt_varchar 32 (sc_campaignId s) && opt_fits (sc_comments s) &&
  bool_decide (is_Some (templates db !! sc_templateId s)) &&
  from_option (λ u, user_exists u db) true (sc_supervisorId s) && from_option (λ u, user_exists u db) true (sc_agentId s).

Definition put_scorecard (s : CallScorecard) (next : Z) : M CallScorecard :=
  _ ← modify (λ db, with_scorecards (<[ sc_id s := s ]> (scorecards db)) next db);
  mret s.

(** The total is a [DECIMAL(5,2)]. *)
Definition decimal (total : Num) : M Z :=
  match decimal_5_2 total with Some hundredths => mret hundredths | None => throw Thrown end.

(** [params.agentId ? BigInt(params.agentId) : null] *)
Definition agent_of (agentId : option Num) : M (option Z) :=
  match agentId with
  | Some x => if truthy x then match BigInt_num x with Some n => mret (Some n) | None => throw Thrown end else mret None
  | None => mret None
  end.

Definition create_scorecard (tenantId : Z) (callUuid : string) (templateId supervisorId : Z) (agentId : option Num)
    (campaignId : option string) (scores : list ScoreEntry) (comments : option string)
    (criteria : list ScorecardCriterion) (now : Z) : M CallScorecard :=
  let totalScore := computeTotal criteria scores in
  agent ← agent_of agentId;
  total ← decimal totalScore;
  id ← gets next_scorecard;
  let s := mkScorecard id tenantId callUuid templateId (Some supervisorId) agent campaignId (stored_score <$> scores) total
             comments draft false None now in
  fits ← gets (scorecard_fits s);
  _ ← ensure fits Thrown;
  put_scorecard s (id + 1).

Definition with_scores (scores : list ScoreEntry) (total : Z) (comments : option string) (status : ScorecardStatus)
    (finalizedAt : option Z) (s : CallScorecard) : CallScorecard :=
  mkScorecard (sc_id s) (sc_tenantId s) (sc_callUuid s) (sc_templateId s) (sc_supervisorId s) (sc_agentId s)
    (sc_campaignId s) scores total comments status (sc_isCalibration s) finalizedAt (sc_createdAt s).

Definition not_finalized (s : CallScorecard) : M unit :=
  ensure (negb (bool_decide (sc_status s = finalized))) (Refused 409 "Scorecard already finalized" []).

Definition update_scorecard (id tenantId : Z) (scores : option (list ScoreEntry)) (comments : option (option string))
    (criteria : list ScorecardCriterion) : M CallScorecard :=
  found ← gets (find_scorecard id tenantId);
  existing ← need found 404 "Scorecard not found";
  _ ← not_finalized existing;
  let totalScore := computeTotal criteria (default (sc_scores existing) scores) in
  let comments := default (sc_comments existing) comments in
  total ← decimal totalScore;
  _ ← ensure (opt_fits comments) Thrown;
  next ← gets next_scorecard;
  put_scorecard (with_scores (from_option (fmap stored_score) (sc_scores existing) scores) total comments
    (sc_status existing) (sc_finalizedAt existing) existing) next.

Definition finalize_scorecard (id tenantId : Z) (criteria : list ScorecardCriterion) (now : Z) : M CallScorecard :=
  found ← gets (find_scorecard id tenantId);
  existing ← need found 404 "Scorecard not found";
  _ ← not_finalized existing;
  let scores := sc_scores existing in
  _ ← match validateScoresComplete criteria scores with Some missing => refuse 422 missing | None => mret () end;
  total ← decimal (computeTotal criteria scores);
  next ← gets next_scorecard;
  put_scorecard (with_scores scores total (sc_comments existing) finalized (Some now) existing) next.

Definition unlock_scorecard (id tenantId : Z) : M CallScorecard :=
  found ← gets (find_scorecard id tenantId);
  existing ← need found 404 "Scorecard not found";
  next ← gets next_scorecard;
  put_scorecard (with_scores (sc_scores existing) (sc_totalScore existing) (sc_comments existing) draft None existing)
    next.

(** [take] and [skip] of a query; a negative [take] counts from the end. *)
Definition page {A} (take_ skip : Z) (l : list A) : list A :=
  if take_ <? 0 then rev (take (Z.to_nat (- take_)) (drop (Z.to_nat skip) (rev l)))
  else take (Z.to_nat take_) (drop (Z.to_nat skip) l).

Definition scorecards_of_agent (tenantId agentId : Z) (status : option ScorecardStatus) (limit offset : Z) (db : CoachDb)
    : list CallScorecard :=
  page limit offset (sort_by (λ a b, sc_createdAt b <=? sc_createdAt a)
    (List.filter (λ s, (sc_tenantId s =? tenantId) && bool_decide (sc_agentId s = Some agentId) &&
       negb (sc_isCalibration s) && from_option (λ st, bool_decide (sc_status s = st)) true status) (rows (scorecards db)))).

(** ** Annotations, [annotation-service.ts] *)

Definition MAX_ANNOTATIONS_PER_CALL : nat := 200.

Definition on_call (tenantId : Z) (callUuid : string) (a : CallAnnotation) : bool :=
  same_text server callUuid (an_callUuid a) && (an_tenantId a =? tenantId).

Definition annotations_on (tenantId : Z) (callUuid : string) (db : CoachDb) : list CallAnnotation :=
  List.filter (on_call tenantId callUuid) (rows (annotations db)).

Definition list_annotations (callUuid : string) (tenantId : Z) (db : CoachDb) : list CallAnnotation :=
  by_timestamp (annotations_on tenantId callUuid db).

Definition find_annotation (id tenantId : Z) (db : CoachDb) : option CallAnnotation :=
  a ← annotations db !! id; if an_tenantId a =? tenantId then Some a else None.

(** An identifier of a relation as a condition. *)
Definition given (o : option Z) : option Z := id ← o; if id =? 0 then None else Some id.

Definition exceeds (timestampMs callDurationMs : option Z) : bool :=
  match timestampMs, callDurationMs with Some t, Some d => d <? t | _, _ => false end.

Definition is_finalized (o : option CallScorecard) : bool :=
  match o with Some s => bool_decide (sc_status s = finalized) | None => false end.

(** Prisma's [Int] *)
Definition int_fits (n : Z) : bool := n <=? 2147483647.

Definition put_annotation (a : CallAnnotation) (next : Z) : M CallAnnotation :=
  _ ← modify (λ db, with_annotations (<[ an_id a := a ]> (annotations db)) next db);
  mret a.

Definition annotation_fits (a : CallAnnotation) (db : CoachDb) : bool :=
  varchar server 40 (an_callUuid a) && int_fits (an_timestampMs a) && text_fits server (an_text a) &&
  from_option (λ s, bool_decide (is_Some (scorecards db !! s))) true (an_scorecardId a) &&
  from_option (λ u, user_exists u db) true (an_supervisorId a).

Definition create_annotation (tenantId : Z) (callUuid : string) (scorecardId : option Z) (supervisorId timestampMs : Z)
    (text : string) (tag : AnnotationTag) (callDurationMs : option Z) (now : Z) : M CallAnnotation :=
  _ ← ensure (negb (exceeds (Some timestampMs) callDurationMs))
        (Refused 422 ("timestampMs (" +:+ zs timestampMs +:+ ") exceeds call duration (" +:+
                      from_option zs EmptyString callDurationMs +:+ ")") []);
  count ← gets (λ db, length (annotations_on tenantId callUuid db));
  _ ← ensure (count <? MAX_ANNOTATIONS_PER_CALL)%nat (Refused 429 "Maximum 200 annotations per call reached" []);
  scorecard ← gets (λ db, s ← given scorecardId; find_scorecard s tenantId db);
  _ ← ensure (negb (is_finalized scorecard)) (Refused 403 "Cannot add annotations to a finalized scorecard" []);
  id ← gets next_annotation;
  let a := mkAnnotation id tenantId callUuid scorecardId (Some supervisorId) timestampMs text tag now in
  fits ← gets (annotation_fits a);
  _ ← ensure fits Thrown;
  put_annotation a (id + 1).

(** The row of an annotation that a supervisor may change: its own, unless its scorecard is
    finalized. *)
Definition editable_annotation (verb : string) (id tenantId supervisorId : Z) : M CallAnnotation :=
  found ← gets (find_annotation id tenantId);
  existing ← need found 404 "Annotation not found";
  _ ← ensure (from_option (λ u, u =? supervisorId) true (given (an_supervisorId existing)))
        (Refused 403 ("Only the creating supervisor may " +:+ verb +:+ " this annotation") []);
  scorecard ← gets (λ db, s ← given (an_scorecardId existing); scorecards db !! s);
  _ ← ensure (negb (is_finalized scorecard)) (Refused 403 "Scorecard is finalized — annotations are locked" []);
  mret existing.

Definition update_annotation (id tenantId supervisorId : Z) (text : option string) (tag : option AnnotationTag)
    (timestampMs callDurationMs : option Z) : M CallAnnotation :=
  existing ← editable_annotation "edit" id tenantId supervisorId;
  _ ← ensure (negb (exceeds timestampMs callDurationMs)) (Refused 422 "timestampMs exceeds call duration" []);
  _ ← ensure (from_option (text_fits server) true text && from_option int_fits true timestampMs) Thrown;
  next ← gets next_annotation;
  put_annotation (mkAnnotation (an_id existing) (an_tenantId existing) (an_callUuid existing) (an_scorecardId existing)
    (an_supervisorId existing) (default (an_timestampMs existing) timestampMs) (default (an_text existing) text)
    (default (an_tag existing) tag) (an_createdAt existing)) next.

Definition delete_annotation (id tenantId supervisorId : Z) : M unit :=
  existing ← editable_annotation "delete" id tenantId supervisorId;
  modify (λ db, with_annotations (delete (an_id existing) (annotations db)) (next_annotation db) db).

(** ** Feedback, [feedback-service.ts] *)

Definition find_feedback (id tenantId : Z) (db : CoachDb) : option AgentFeedback :=
  f ← feedback db !! id; if fb_tenantId f =? tenantId then Some f else None.

Definition put_feedback (f : AgentFeedback) (next : Z) : M AgentFeedback :=
  _ ← modify (λ db, with_feedback (<[ fb_id f := f ]> (feedback db)) next db);
  mret f.

Definition feedback_fits (f : AgentFeedback) (db : CoachDb) : bool :=
  user_exists (fb_agentId f) db && from_option (λ u, user_exists u db) true (fb_supervisorId f) &&
  from_option (λ s, bool_decide (is_Some (scorecards db !! s))) true (fb_relatedScorecardId f) &&
  opt_varchar 40 (fb_relatedCallUuid f) && text_fits server (fb_body f).

Definition create_feedback (tenantId : Z) (agentId : Num) (supervisorId : Z) (body : string)
    (relatedScorecardId : option Z) (relatedCallUuid : option string) (now : Z) : M AgentFeedback :=
  agent ← match BigInt_num agentId with Some n => mret n | None => throw Thrown end;
  id ← gets next_feedback;
  let f := mkFeedback id tenantId agent (Some supervisorId) relatedScorecardId relatedCallUuid body None now in
  fits ← gets (feedback_fits f);
  _ ← ensure fits Thrown;
  put_feedback f (id + 1).

Definition acknowledge (id tenantId agentId now : Z) : M AgentFeedback :=
  found ← gets (find_feedback id tenantId);
  existing ← need found 404 "Feedback not found";
  _ ← ensure (fb_agentId existing =? agentId) (Refused 403 "You may only acknowledge your own feedback" []);
  _ ← ensure (bool_decide (fb_acknowledgedAt existing = None)) (Refused 409 "Feedback already acknowledged" []);
  next ← gets next_feedback;
  put_feedback (mkFeedback (fb_id existing) (fb_tenantId existing) (fb_agentId existing) (fb_supervisorId existing)
    (fb_relatedScorecardId existing) (fb_relatedCallUuid existing) (fb_body existing) (Some now) (fb_createdAt existing))
    next.

Definition newest_first (l : list AgentFeedback) : list AgentFeedback :=
  sort_by (λ a b, fb_createdAt b <=? fb_createdAt a) l.

Definition feedback_for_agent (tenantId agentId : Z) (unacknowledgedOnly : bool) (limit offset : Z) (db : CoachDb)
    : list AgentFeedback :=
  page limit offset (newest_first (List.filter (λ f, (fb_tenantId f =? tenantId) && (fb_agentId f =? agentId) &&
    (negb unacknowledgedOnly || bool_decide (fb_acknowledgedAt f = None))) (rows (feedback db)))).

Definition feedback_for_supervisor (tenantId supervisorId : Z) (agentId : option Z) (limit offset : Z) (db : CoachDb)
    : list AgentFeedback :=
  page limit offset (newest_first (List.filter (λ f, (fb_tenantId f =? tenantId) &&
    bool_decide (fb_supervisorId f = Some supervisorId) && from_option (λ a, fb_agentId f =? a) true agentId)
    (rows (feedback db)))).

(** ** Routes *)

Inductive CoachResponse :=
  | CFail (status : Z) (error : string) (issues : list Issue)
  | CThrown
  | CTemplates (templates : list ScorecardTemplate)
  | CTemplate (status : Z) (template : ScorecardTemplate) (versioned : option bool)
  | CTemplateDetail (template : ScorecardTemplate) (parent : option ScorecardTemplate) (children : list ScorecardTemplate)
  | CExists (scorecard_id : Z)
  | CScorecard (status : Z) (scorecard : CallScorecard)
  | CScorecardDetail (scorecard : CallScorecard) (template : option ScorecardTemplate) (annotations : list CallAnnotation)
  | CScorecards (scorecards : list CallScorecard)
  | CAnnotation (status : Z) (annotation : CallAnnotation)
  | CAnnotations (annotations : list CallAnnotation)
  | CNoContent
  | CFeedback (status : Z) (feedback : AgentFeedback)
  | CFeedbackList (feedback : list AgentFeedback) (unread_count : option Z)
  | CFeedbackDetail (feedback : AgentFeedback)
      (scorecard : option (CallScorecard * option ScorecardTemplate * list CallAnnotation))
  | CCall (recording : RecordingLog) (agent : option CoachUser).

Record CoachRequest := mkCoachRequest {
  rq_auth : option ApiAuth;
  rq_userAgent : option string;
  rq_now : Z;
}.

(** A route with its guard; what a handler does not catch is an internal error. *)
Definition route (verb : Verb) (rq : CoachRequest) (handler : ApiAuth → M CoachResponse) (db : CoachDb)
    : CoachResponse * CoachDb :=
  match requirePermission verb None (rq_auth rq), rq_auth rq with
  | Some e, _ => (CFail (statusCode e) (code e) [], db)
  | None, None => (CFail 401 "not_authenticated" [], db)
  | None, Some auth =>
      match handler auth db with
      | (Ok r, db') => (r, db')
      | (Err (Refused status message issues), db') => (CFail status message issues, db')
      | (Err Thrown, db') => (CThrown, db')
      end
  end.

(** A body the schema refuses is [None]. *)
Definition parsed {A} (body : option A) : M A := need body 400 "invalid_body".

(** [BigInt(s)] as an identifier, a 64-bit number for the database. *)
Definition id_of (raw : string) : M Z :=
  match BigInt raw with
  | Some n => if (-9223372036854775808 <=? n) && (n <=? 9223372036854775807) then mret n else throw Thrown
  | None => throw Thrown
  end.

(** [s ? BigInt(s) : null] *)
Definition optional_id (raw : option string) : M (option Z) :=
  match raw with
  | Some s => if text_set s then (n ← id_of s; mret (Some n)) else mret None
  | None => mret None
  end.

(** [audit], whose row holds 64 characters of the entity and 255 of the user agent. *)
Definition audit (rq : CoachRequest) (auth : ApiAuth) (action entityType entityId : string)
    (afterJson : list (string * AuditValue)) : M unit :=
  _ ← ensure (varchar server 64 entityId && opt_varchar 255 (rq_userAgent rq)) Thrown;
  modify (with_logs [mkCoachAudit action (a_tenantId auth) (a_uid auth) entityType entityId afterJson] []).

(** [supervisor?.fullName ?? supervisor?.username ?? 'Supervisor'] *)
Definition supervisorName (uid : Z) (db : CoachDb) : string :=
  match coach_users db !! uid with Some u => default (cu_username u) (cu_fullName u) | None => "Supervisor" end.

(** [notification.create], of a user who exists *)
Definition notify (n : Notification) : M unit :=
  known ← gets (user_exists (nt_userId n));
  _ ← ensure (known && varchar server 255 (nt_subject n)) Thrown;
  modify (with_logs [] [n]).

Definition Number (s : string) : Num := Number_of (number_text server) s.

(** [Math.min(Number(limit ?? 50), 100)] as a [take] *)
Definition limit_of (limit : option string) : M Z :=
  let x := from_option Number (num 50) limit in
  if nltb (num 100) x then mret 100
  else match BigInt_num x with
       | Some n => if -2147483648 <=? n then mret n else throw Thrown
       | None => throw Thrown
       end.

(** [Number(offset ?? 0)] as a [skip] *)
Definition offset_of (offset : option string) : M Z :=
  match BigInt_num (from_option Number (num 0) offset) with
  | Some n => if (0 <=? n) && int_fits n then mret n else throw Thrown
  | None => throw Thrown
  end.

(** ** Templates, [routes/admin/coaching/handlers/templates.ts] *)

Record TemplateBody := mkTemplateBody {
  tb_name : string;
  tb_description : option string;
  tb_criteria : list ScorecardCriterion;
}.

Record TemplatePatch := mkTemplatePatch {
  tq_name : option string;
  tq_description : option (option string);
  tq_criteria : option (list ScorecardCriterion);
}.

Definition handleAdminListTemplates (rq : CoachRequest) : CoachDb → CoachResponse * CoachDb :=
  route scorecard_template_edit rq (λ auth, CTemplates <$> gets (list_templates (a_tenantId auth) true)).

Definition handleAdminGetTemplate (rq : CoachRequest) (raw : string) : CoachDb → CoachResponse * CoachDb :=
  route scorecard_template_edit rq (λ auth,
    id ← id_of raw;
    found ← gets (template_detail id (a_tenantId auth));
    d ← need found 404 "template_not_found";
    mret (CTemplateDetail d.1.1 d.1.2 d.2)).

Definition handleAdminCreateTemplate (rq : CoachRequest) (body : option TemplateBody) : CoachDb → CoachResponse * CoachDb :=
  route scorecard_template_edit rq (λ auth,
    b ← parsed body;
    t ← create_template (a_tenantId auth) (tb_name b) (tb_description b) (tb_criteria b) (a_uid auth);
    _ ← audit rq auth "coaching.template.created" "scorecard_template" (zs (tp_id t)) [("name", AText (tp_name t))];
    mret (CTemplate 201 t None)).

Definition handleAdminUpdateTemplate (rq : CoachRequest) (raw : string) (body : option TemplatePatch)
    : CoachDb → CoachResponse * CoachDb :=
  route scorecard_template_edit rq (λ auth,
    b ← parsed body;
    id ← id_of raw;
    r ← update_template id (a_tenantId auth) (tq_name b) (tq_description b) (tq_criteria b) (a_uid auth);
    let '(t, versioned) := r in
    _ ← audit rq auth (if versioned then "coaching.template.versioned" else "coaching.template.updated")
          "scorecard_template" (zs (tp_id t)) [("name", AText (tp_name t)); ("versioned", ABool versioned)];
    mret (CTemplate 200 t (Some versioned))).

Definition handleAdminDeactivateTemplate (rq : CoachRequest) (raw : string) : CoachDb → CoachResponse * CoachDb :=
  route scorecard_template_edit rq (λ auth,
    id ← id_of raw;
    t ← deactivate_template id (a_tenantId auth);
    _ ← audit rq auth "coaching.template.deactivated" "scorecard_template" raw [("active", ABool false)];
    mret (CTemplate 200 t None)).

(** [routes/sup/coaching/handlers/templates.ts] *)
Definition handleListTemplates (rq : CoachRequest) : CoachDb → CoachResponse * CoachDb :=
  route scorecard_read rq (λ auth, CTemplates <$> gets (list_templates (a_tenantId auth) false)).

(** [handlers/unlock.ts] *)
Definition handleAdminUnlockScorecard (rq : CoachRequest) (raw : string) : CoachDb → CoachResponse * CoachDb :=
  route scorecard_template_edit rq (λ auth,
    id ← id_of raw;
    s ← unlock_scorecard id (a_tenantId auth);
    _ ← audit rq auth "coaching.scorecard.unlocked" "call_scorecard" raw
          [("status", AText "draft"); ("unlocked_by", ANumber (a_uid auth))];
    mret (CScorecard 200 s)).

(** [handlers/calibrations.ts], behind [requireAuth] alone *)
Definition handleCalibrationStub (rq : CoachRequest) (db : CoachDb) : CoachResponse * CoachDb :=
  match rq_auth rq with
  | None => (CFail 401 "not_authenticated" [], db)
  | Some _ => (CFail 501 "not_implemented" [], db)
  end.

(** ** Calls and scorecards, [routes/sup/coaching/handlers] *)

(** [calls.ts]; the agent is looked up by its identifier alone. *)
Definition handleGetCallForReview (rq : CoachRequest) (uuid : string) : CoachDb → CoachResponse * CoachDb :=
  route scorecard_read rq (λ auth,
    found ← gets (λ db, List.find (λ r, same_text server uuid (rl_uuid r) && (rl_tenantId r =? a_tenantId auth))
                          (rows (recordings db)));
    rec ← need found 404 "call_not_found";
    agent ← gets (λ db, u ← given (rl_userId rec); coach_users db !! u);
    mret (CCall rec agent)).

Record ScorecardBody := mkScorecardBody {
  sb_template_id : string;
  sb_agent_id : option string;
  sb_campaign_id : option string;
  sb_scores : list ScoreEntry;
  sb_comments : option string;
}.

Record ScorecardPatch := mkScorecardPatch {
  sq_scores : option (list ScoreEntry);
  sq_comments : option (option string);
}.

Definition handleGetScorecard (rq : CoachRequest) (uuid : string) : CoachDb → CoachResponse * CoachDb :=
  route scorecard_read rq (λ auth,
    found ← gets (getByCallUuid uuid (a_tenantId auth));
    s ← need found 404 "scorecard_not_found";
    d ← gets (scorecard_detail s);
    mret (CScorecardDetail d.1.1 d.1.2 d.2)).

Definition handleCreateScorecard (rq : CoachRequest) (uuid : string) (body : option ScorecardBody)
    : CoachDb → CoachResponse * CoachDb :=
  route scorecard_create rq (λ auth,
    b ← parsed body;
    templateId ← id_of (sb_template_id b);
    found ← gets (find_template templateId (a_tenantId auth));
    template ← need found 404 "template_not_found";
    existing ← gets (getByCallUuid uuid (a_tenantId auth));
    match existing with
    | Some s => mret (CExists (sc_id s))
    | None =>
        let agentId := s ← sb_agent_id b; if text_set s then Some (Number s) else None in
        s ← create_scorecard (a_tenantId auth) uuid templateId (a_uid auth) agentId (sb_campaign_id b) (sb_scores b)
              (sb_comments b) (tp_criteria template) (rq_now rq);
        _ ← audit rq auth "coaching.scorecard.draft_saved" "call_scorecard" (zs (sc_id s))
              [("call_uuid", AText uuid); ("template_id", AText (sb_template_id b))];
        mret (CScorecard 201 s)
    end).

(** The scorecard of a call with its template. *)
Definition scorecard_of_call (uuid : string) (tenantId : Z) : M (CallScorecard * ScorecardTemplate) :=
  found ← gets (getByCallUuid uuid tenantId);
  existing ← need found 404 "scorecard_not_found";
  found ← gets (find_template (sc_templateId existing) tenantId);
  template ← need found 404 "template_not_found";
  mret (existing, template).

Definition handleUpdateScorecard (rq : CoachRequest) (uuid : string) (body : option ScorecardPatch)
    : CoachDb → CoachResponse * CoachDb :=
  route scorecard_create rq (λ auth,
    b ← parsed body;
    et ← scorecard_of_call uuid (a_tenantId auth);
    s ← update_scorecard (sc_id et.1) (a_tenantId auth) (sq_scores b) (sq_comments b) (tp_criteria et.2);
    _ ← audit rq auth "coaching.scorecard.draft_saved" "call_scorecard" (zs (sc_id s)) [("call_uuid", AText uuid)];
    mret (CScorecard 200 s)).

Definition handleFinalizeScorecard (rq : CoachRequest) (uuid : string) : CoachDb → CoachResponse * CoachDb :=
  route scorecard_finalize rq (λ auth,
    et ← scorecard_of_call uuid (a_tenantId auth);
    s ← finalize_scorecard (sc_id et.1) (a_tenantId auth) (tp_criteria et.2) (rq_now rq);
    _ ← audit rq auth "coaching.scorecard.finalized" "call_scorecard" (zs (sc_id s))
          ([("call_uuid", AText uuid); ("total_score", ADecimal (sc_totalScore s))] ++
           from_option (λ a, [("agent_id"%string, AText (zs a))]) [] (sc_agentId et.1));
    match given (sc_agentId et.1) with
    | None => mret (CScorecard 200 s)
    | Some agentId =>
        name ← gets (supervisorName (a_uid auth));
        _ ← notify (mkNotification (a_tenantId auth) agentId "coaching.scorecard.new" ("New evaluation from " +:+ name)
                      "A call evaluation has been submitted for your review."
                      ("/feedback/scorecards/" +:+ zs (sc_id s)));
        mret (CScorecard 200 s)
    end).

(** [Number(req.params.agentId)]; zero and no number are refused. *)
Definition agent_param (raw : string) : M Z :=
  let x := Number raw in
  if truthy x then match BigInt_num x with Some n => mret n | None => throw Thrown end
  else refuse 400 "invalid_agent_id".

Definition handleGetAgentScorecards (rq : CoachRequest) (rawAgent : string) (status limit offset : option string)
    : CoachDb → CoachResponse * CoachDb :=
  route scorecard_read rq (λ auth,
    agentId ← agent_param rawAgent;
    take ← limit_of limit;
    skip ← offset_of offset;
    let status := s ← status; if String.eqb s "draft" then Some draft
                              else if String.eqb s "finalized" then Some finalized else None in
    CScorecards <$> gets (scorecards_of_agent (a_tenantId auth) agentId status take skip)).

(** ** Annotations, [handlers/annotations.ts] *)

Record AnnotationBody := mkAnnotationBody {
  ab_scorecard_id : option string;
  ab_timestamp_ms : Z;
  ab_text : string;
  ab_tag : AnnotationTag;
}.

Record AnnotationPatch := mkAnnotationPatch {
  aq_text : option string;
  aq_tag : option AnnotationTag;
  aq_timestamp_ms : option Z;
}.

Definition handleListAnnotations (rq : CoachRequest) (uuid : string) : CoachDb → CoachResponse * CoachDb :=
  route scorecard_read rq (λ auth, CAnnotations <$> gets (list_annotations uuid (a_tenantId auth))).

Definition handleCreateAnnotation (rq : CoachRequest) (uuid : string) (body : option AnnotationBody)
    : CoachDb → CoachResponse * CoachDb :=
  route scorecard_create rq (λ auth,
    b ← parsed body;
    scorecardId ← optional_id (ab_scorecard_id b);
    a ← create_annotation (a_tenantId auth) uuid scorecardId (a_uid auth) (ab_timestamp_ms b) (ab_text b) (ab_tag b) None (rq_now rq);
    _ ← audit rq auth "coaching.annotation.created" "call_annotation" (zs (an_id a))
          [("call_uuid", AText uuid); ("tag", ATag (ab_tag b))];
    mret (CAnnotation 201 a)).

Definition member {A B} (k : string) (f : A → B) (o : option A) : list (string * B) := from_option (λ a, [(k, f a)]) [] o.

Definition handleUpdateAnnotation (rq : CoachRequest) (raw : string) (body : option AnnotationPatch)
    : CoachDb → CoachResponse * CoachDb :=
  route scorecard_create rq (λ auth,
    b ← parsed body;
    id ← id_of raw;
    a ← update_annotation id (a_tenantId auth) (a_uid auth) (aq_text b) (aq_tag b) (aq_timestamp_ms b) None;
    _ ← audit rq auth "coaching.annotation.updated" "call_annotation" raw
          (member "text" AText (aq_text b) ++ member "tag" ATag (aq_tag b) ++
           member "timestamp_ms" ANumber (aq_timestamp_ms b));
    mret (CAnnotation 200 a)).

Definition handleDeleteAnnotation (rq : CoachRequest) (raw : string) : CoachDb → CoachResponse * CoachDb :=
  route scorecard_create rq (λ auth,
    id ← id_of raw;
    _ ← delete_annotation id (a_tenantId auth) (a_uid auth);
    _ ← audit rq auth "coaching.annotation.deleted" "call_annotation" raw [];
    mret CNoContent).

(** ** Feedback, [handlers/feedback.ts] *)

Record FeedbackBody := mkFeedbackBody {
  fq_agent_id : string;
  fq_body : string;
  fq_related_scorecard_id : option string;
}.

(** The agent of the body, or of the scorecard of the call. *)
Definition feedback_agent (agent_id uuid : string) (tenantId : Z) (db : CoachDb) : option Num :=
  let x := Number agent_id in
  if truthy x then Some x else s ← getByCallUuid uuid tenantId db; num <$> given (sc_agentId s).

Definition handleCreateFeedbackForCall (rq : CoachRequest) (uuid : string) (body : option FeedbackBody)
    : CoachDb → CoachResponse * CoachDb :=
  route feedback_create rq (λ auth,
    b ← parsed body;
    agent ← gets (feedback_agent (fq_agent_id b) uuid (a_tenantId auth));
    agentId ← need agent 422 "agent_id required";
    related ← optional_id (fq_related_scorecard_id b);
    f ← create_feedback (a_tenantId auth) agentId (a_uid auth) (fq_body b) related (Some uuid) (rq_now rq);
    _ ← audit rq auth "coaching.feedback.created" "agent_feedback" (zs (fb_id f))
          [("agent_id", ANumber (fb_agentId f)); ("call_uuid", AText uuid)];
    name ← gets (supervisorName (a_uid auth));
    _ ← notify (mkNotification (a_tenantId auth) (fb_agentId f) "coaching.feedback.new" ("Feedback from " +:+ name)
                  (String.substring 0 200 (fq_body b)) "/feedback");
    mret (CFeedback 201 f)).

Definition handleGetAgentFeedback (rq : CoachRequest) (rawAgent : string) (limit offset : option string)
    : CoachDb → CoachResponse * CoachDb :=
  route feedback_read rq (λ auth,
    agentId ← agent_param rawAgent;
    take ← limit_of limit;
    skip ← offset_of offset;
    (λ l, CFeedbackList l None) <$> gets (feedback_for_supervisor (a_tenantId auth) (a_uid auth) (Some agentId) take skip)).

(** ** The agent's inbox, [routes/agent/feedback/handlers] *)

Definition handleAgentListFeedback (rq : CoachRequest) (limit offset unacknowledged : option string)
    : CoachDb → CoachResponse * CoachDb :=
  route feedback_read rq (λ auth,
    take ← limit_of limit;
    skip ← offset_of offset;
    let only := bool_decide (unacknowledged = Some "true"%string) in
    l ← gets (feedback_for_agent (a_tenantId auth) (a_uid auth) only take skip);
    let unread := List.filter (λ f, bool_decide (fb_acknowledgedAt f = None)) l in
    mret (CFeedbackList l (Some (Z.of_nat (length unread))))).

Definition handleAgentGetFeedback (rq : CoachRequest) (raw : string) : CoachDb → CoachResponse * CoachDb :=
  route feedback_read rq (λ auth,
    id ← id_of raw;
    found ← gets (find_feedback id (a_tenantId auth));
    f ← need found 404 "feedback_not_found";
    _ ← ensure (fb_agentId f =? a_uid auth) (Refused 403 "forbidden" []);
    s ← gets (λ db, i ← fb_relatedScorecardId f; s ← scorecards db !! i; Some (scorecard_detail s db));
    mret (CFeedbackDetail f s)).

Definition handleAgentAcknowledgeFeedback (rq : CoachRequest) (raw : string) : CoachDb → CoachResponse * CoachDb :=
  route feedback_read rq (λ auth,
    id ← id_of raw;
    f ← acknowledge id (a_tenantId auth) (a_uid auth) (rq_now rq);
    _ ← audit rq auth "coaching.feedback.acknowledged" "agent_feedback" raw
          (member "acknowledged_at" ADate (fb_acknowledgedAt f));
    mret (CFeedback 200 f)).

Definition handleAgentListScorecards (rq : CoachRequest) (limit offset : option string) : CoachDb → CoachResponse * CoachDb :=
  route scorecard_read rq (λ auth,
    take ← limit_of limit;
    skip ← offset_of offset;
    CScorecards <$> gets (scorecards_of_agent (a_tenantId auth) (a_uid auth) (Some finalized) take skip)).

Definition handleAgentGetScorecard (rq : CoachRequest) (raw : string) : CoachDb → CoachResponse * CoachDb :=
  route scorecard_read rq (λ auth,
    id ← id_of raw;
    found ← gets (find_scorecard id (a_tenantId auth));
    s ← need found 404 "scorecard_not_found";
    _ ← ensure (from_option (λ u, u =? a_uid auth) true (given (sc_agentId s))) (Refused 403 "forbidden" []);
    _ ← ensure (bool_decide (sc_status s = finalized)) (Refused 404 "scorecard_not_found" []);
    d ← gets (scorecard_detail s);
    mret (CScorecardDetail d.1.1 d.1.2 d.2)).

End services.
