(* ===== verification/CoachingScores.v ===== *)
(** The criteria of a template and the score of a call: which criteria are accepted, the
    score against a weighted sum over the criteria that apply, and what it misses; with a
    sample of the coaching tables. *)

From S2P Require Import Prelude Paging Calendar Jcs JsonText JsNumber Rbac Auth Coaching.

#[local] Open Scope Z_scope.

(** ** The score *)

(** A criterion that counts: not a text, no auto-fail and not marked N/A. *)
Definition applicable (scores : list ScoreEntry) (c : ScorecardCriterion) : bool :=
  negb (bool_decide (c_type c = text_only)) && negb (flag (c_auto_fail c)) && negb (in_na_ids scores c).

Definition weighted_total (active : list ScorecardCriterion) (scores : list ScoreEntry) : Num :=
  let activeWeight := nsum (map (λ c, value (c_weight c)) active) in
  if neqb activeWeight (num 0) then num 0 else round_2dp (nsum (map (term activeWeight scores) active)).

Lemma fold_skip {A B} (f : B → A → B) (skip : A → bool) l b :
  fold_left (λ b a, if skip a then b else f b a) l b = fold_left f (List.filter (λ a, negb (skip a)) l) b.
Proof. revert b. induction l as [|a l IH]; intros b; cbn; [done|]. destruct (skip a); cbn; apply IH. Qed.

Lemma fold_map {A B C} (f : B → C → B) (g : A → C) l b :
  fold_left f (map g l) b = fold_left (λ b a, f b (g a)) l b.
Proof. revert b. induction l as [|a l IH]; intros b; cbn; [done|apply IH]. Qed.

Lemma applicable_filter criteria scores :
  List.filter (λ c, negb (in_na_ids scores c)) (scoring_criteria criteria) = List.filter (applicable scores) criteria.
Proof.
  unfold scoring_criteria. rewrite filter_filter_and. apply List.filter_ext. intros c. unfold applicable. apply andb_comm.
Qed.

(** The total by its filters: the flagged auto-fail criteria first, then the weighted sum
    over the criteria that apply. *)
Lemma computeTotal_eq criteria scores :
  computeTotal criteria scores =
    if existsb (fails_call scores) (List.filter (λ c, flag (c_auto_fail c)) criteria) then num 0
    else weighted_total (List.filter (applicable scores) criteria) scores.
Proof.
  unfold computeTotal, weighted_total. cbv zeta. destruct (existsb _ _); [done|].
  rewrite (fold_skip (λ total c, nadd total (term _ scores c))), applicable_filter. unfold nsum.
  by rewrite !fold_map.
Qed.

(** ** The criteria *)

Definition within_tolerance (sum : Num) : bool := negb (nltb (ndiv (num 1) (num 100)) (Math_abs (nsub sum (num 100)))).

Definition criterion_ok (c : ScorecardCriterion) : bool :=
  text_set (c_id c) && text_set (c_label c) &&
  match c_type c with
  | numeric => negb (nltb (value (c_max_score c)) (num 1))
  | binary => equals (c_max_score c) 1
  | auto_fail_type => equals (c_weight c) 0 && equals (c_max_score c) 1
  | text_only => equals (c_weight c) 0 && equals (c_max_score c) 0
  | unknown_type _ => false
  end.

Definition scoring_weight (criteria : list ScorecardCriterion) : Num :=
  nsum (map (λ c, value (c_weight c)) (List.filter (λ c, is_scoring (c_type c)) criteria)).

Definition criteria_ok (criteria : list ScorecardCriterion) : bool :=
  (0 <? length criteria)%nat && (length criteria <=? 50)%nat && forallb criterion_ok criteria &&
  existsb (λ c, is_scoring (c_type c)) criteria && within_tolerance (scoring_weight criteria).

Lemma criteria_fold criteria errors sum found :
  fold_left criteria_step criteria (errors, sum, found) =
  (errors ++ concat (map (λ c, id_issues c ++ type_issues c) criteria),
   fold_left nadd (map (λ c, value (c_weight c)) (List.filter (λ c, is_scoring (c_type c)) criteria)) sum,
   found || existsb (λ c, is_scoring (c_type c)) criteria).
Proof.
  revert errors sum found. induction criteria as [|c l IH]; intros errors sum found; cbn.
  - by rewrite app_nil_r, orb_false_r.
  - destruct (is_scoring (c_type c)); cbn; rewrite IH, !app_assoc; [by rewrite orb_true_r|done].
Qed.

Lemma issue_unless_nil ok f m : issue_unless ok f m = [] ↔ ok = true.
Proof. by destruct ok. Qed.

Lemma equals_not_less o n : equals o n = true → nltb (value o) (num n) = false.
Proof.
  unfold equals, neqb, nltb, value. destruct o as [x|]; [|done]. cbn [default from_option id].
  unfold SpecFloat.SFeqb, SpecFloat.SFltb. by destruct (SpecFloat.SFcompare _ _) as [[]|].
Qed.

Lemma criterion_issues c : id_issues c ++ type_issues c = [] ↔ criterion_ok c = true.
Proof.
  unfold id_issues, type_issues, criterion_ok. pose proof (equals_not_less (c_max_score c) 1) as Hlt.
  destruct (c_type c); rewrite ?app_nil, ?issue_unless_nil, ?andb_true_iff, ?negb_true_iff; try naive_solver.
Qed.

Lemma concat_nil {A B} (f : A → list B) (p : A → bool) l :
  (∀ x, f x = [] ↔ p x = true) → concat (map f l) = [] ↔ forallb p l = true.
Proof.
  intros H. induction l as [|x l IH]; cbn; [done|]. rewrite app_nil, andb_true_iff, H, IH. done.
Qed.

(** A template's criteria are accepted exactly when there are 1 to 50, each with an
    identifier and a label and the weight and maximum of its type, one of them scores, and
    the weights of those that score sum to 100 within 0.01. *)
Theorem criteria_accepted criteria : validateCriteria criteria = [] ↔ criteria_ok criteria = true.
Proof.
  unfold validateCriteria, criteria_ok. destruct criteria as [|c0 l0]; [done|]. set (l := c0 :: l0).
  rewrite criteria_fold. fold (nsum (map (λ c, value (c_weight c)) (List.filter (λ c, is_scoring (c_type c)) l))).
  fold (scoring_weight l). rewrite !app_nil, issue_unless_nil, (concat_nil _ _ _ criterion_issues), !andb_true_iff.
  unfold within_tolerance, MAX_CRITERIA. cbn [orb]. destruct (existsb _ l), (nltb _ _); cbn [negb]; subst l; cbn [length Nat.ltb Nat.leb]; naive_solver.
Qed.

(** ** A sample *)

Module CoachSample.

Definition server : CoachServer :=
  mkCoachServer (λ n s, Z.of_nat (String.length s) <=? n) (λ _, true) String.eqb String.leb (λ _, NaN).

Definition admin_of (tenant uid : Z) : ApiAuth := mkApiAuth uid tenant admin (permsAsSet admin) "j" true None AllCampaigns.

Definition req (tenant uid : Z) : CoachRequest := mkCoachRequest (Some (admin_of tenant uid)) (Some "cli"%string) 1746100800000.

Definition criterion (id : string) (ty : CriterionType) (weight max : Z) : ScorecardCriterion :=
  mkCriterion id id ty (Some (num weight)) (Some (num max)) None None None.

Definition criteria : list ScorecardCriterion :=
  [criterion "c1" numeric 60 10; criterion "c2" binary 40 1; criterion "c3" text_only 0 0].

Definition score (id : string) (n : Z) : ScoreEntry := mkScore id (Some (num n)) None None.

Definition user (tenant : Z) (name role : string) : CoachUser := mkCoachUser tenant None name role None.

Definition empty : CoachDb :=
  mkCoachDb ∅ 1 ∅ 1 ∅ 1 ∅ 1 (<[7 := user 1 "ann" "admin"]> (<[8 := user 2 "ben" "admin"]> {[9 := user 1 "cat" "agent"]})) ∅ [] [].

End CoachSample.

(** Eight of ten points at weight 60 and a yes at weight 40. *)
Example sample_total :
  decimal_5_2 (computeTotal CoachSample.criteria [CoachSample.score "c1" 8; CoachSample.score "c2" 1]) = Some 8800.
Proof. vm_compute. reflexivity. Qed.

(** ** What the score misses *)

(** The flag makes a criterion fail a call, and not its type: a template whose auto-fail
    criterion has the type alone is accepted, and a fail counts for nothing. *)
Theorem auto_fail_unflagged :
  let criteria := CoachSample.criterion "af" auto_fail_type 0 1 :: CoachSample.criteria in
  let scores := [CoachSample.score "af" 0; CoachSample.score "c1" 10; CoachSample.score "c2" 1] in
  validateCriteria criteria = [] ∧ validateScoresComplete criteria scores = None ∧
  decimal_5_2 (computeTotal criteria scores) = Some 10000.
Proof. split_and!; vm_compute; reflexivity. Qed.

(** Nothing bounds a score by the maximum of its criterion: fifteen of ten points are a total
    of 130, and a thousand of ten points one that the column cannot hold. *)
Theorem score_above_maximum :
  decimal_5_2 (computeTotal CoachSample.criteria [CoachSample.score "c1" 15; CoachSample.score "c2" 1]) = Some 13000 ∧
  decimal_5_2 (computeTotal CoachSample.criteria [CoachSample.score "c1" 1000; CoachSample.score "c2" 1]) = None.
Proof. split; vm_compute; reflexivity. Qed.

(** Criteria may share an identifier; the first entry then scores both. *)
Theorem shared_identifier :
  let criteria := [CoachSample.criterion "c" numeric 50 10; CoachSample.criterion "c" numeric 50 5] in
  validateCriteria criteria = [] ∧
  decimal_5_2 (computeTotal criteria [CoachSample.score "c" 5; CoachSample.score "c" 0]) = Some 7500.
Proof. split; vm_compute; reflexivity. Qed.
