(* ===== verification/CoachingTheorems.v ===== *)
(** What the coaching routes may change: every request is one of thirteen changes of the
    tables, whose preconditions are the checks of the services; the invariant of the tables
    and what stays fixed once a scorecard is finalized. *)

From S2P Require Import Prelude Paging Calendar Jcs JsonText JsNumber Rbac Auth Coaching.

#[local] Open Scope Z_scope.

(** ** Reasoning about operations that may throw *)

Definition wp {A} (m : M A) (Q : result CoachError A → CoachDb → Prop) (db : CoachDb) : Prop := Q (m db).1 (m db).2.

Lemma wp_bind {A B} (m : M A) (f : A → M B) Q db :
  wp m (λ r db', match r with Ok a => wp (f a) Q db' | Err e => Q (Err e) db' end) db → wp (m ≫= f) Q db.
Proof. unfold wp, mbind, M_bind. destruct (m db) as [[a|e] db']; done. Qed.

Lemma wp_fmap {A B} (m : M A) (f : A → B) Q db :
  wp m (λ r db', match r with Ok a => Q (Ok (f a)) db' | Err e => Q (Err e) db' end) db → wp (f <$> m) Q db.
Proof. unfold wp, fmap, M_fmap. destruct (m db) as [[a|e] db']; done. Qed.

Lemma wp_mono {A} (m : M A) (Q Q' : result CoachError A → CoachDb → Prop) db :
  wp m Q db → (∀ r db', Q r db' → Q' r db') → wp m Q' db.
Proof. unfold wp. auto. Qed.

Lemma wp_ret {A} (a : A) Q db : Q (Ok a) db → wp (mret a) Q db.
Proof. done. Qed.

Lemma wp_throw {A} e (Q : result CoachError A → CoachDb → Prop) db : Q (Err e) db → wp (throw e) Q db.
Proof. done. Qed.

Lemma wp_gets {A} (f : CoachDb → A) Q db : Q (Ok (f db)) db → wp (gets f) Q db.
Proof. done. Qed.

Lemma wp_modify f Q db : Q (Ok ()) (f db) → wp (modify f) Q db.
Proof. done. Qed.

Lemma wp_ensure b e Q db : (b = true → Q (Ok ()) db) → (b = false → Q (Err e) db) → wp (ensure b e) Q db.
Proof. destruct b; [intros H _|intros _ H]; by apply H. Qed.

Lemma wp_need {A} (o : option A) st msg Q db :
  (∀ a, o = Some a → Q (Ok a) db) → (o = None → Q (Err (Refused st msg [])) db) → wp (need o st msg) Q db.
Proof. destruct o as [a|]; intros H1 H2; [by apply H1|by apply H2]. Qed.

(** Operations that only read. *)
Definition reads {A} (m : M A) : Prop := ∀ db, (m db).2 = db.

Lemma wp_reads {A} (m : M A) Q db : reads m → (∀ r, (m db).1 = r → Q r db) → wp m Q db.
Proof. intros Hm HQ. unfold wp. rewrite Hm. by apply HQ. Qed.

Lemma reads_bind {A B} (m : M A) (f : A → M B) : reads m → (∀ a, reads (f a)) → reads (m ≫= f).
Proof.
  intros Hm Hf db. unfold mbind, M_bind. specialize (Hm db). destruct (m db) as [[a|e] db']; cbn in *; subst; [apply Hf|done].
Qed.

Lemma reads_ensure b e : reads (ensure b e).
Proof. by destruct b. Qed.
Lemma reads_need {A} (o : option A) st msg : reads (need o st msg).
Proof. by destruct o. Qed.
Lemma reads_gets {A} (f : CoachDb → A) : reads (gets f).
Proof. done. Qed.
Lemma reads_ret {A} (a : A) : reads (mret a).
Proof. done. Qed.
Lemma reads_throw {A} e : reads (@throw A e).
Proof. done. Qed.
Lemma reads_criteria l : reads (criteria_checked l).
Proof. intros db. unfold criteria_checked. by destruct (validateCriteria l). Qed.
Lemma reads_opt_criteria o : reads (from_option criteria_checked (mret ()) o).
Proof. destruct o as [l|]; [apply reads_criteria|done]. Qed.
Lemma reads_decimal x : reads (decimal x).
Proof. intros db. unfold decimal. by destruct (decimal_5_2 x). Qed.
Lemma reads_agent_of o : reads (agent_of o).
Proof. intros db. unfold agent_of. by repeat case_match. Qed.
Lemma reads_id_of s : reads (id_of s).
Proof. intros db. unfold id_of. by repeat case_match. Qed.
Lemma reads_optional_id o : reads (optional_id o).
Proof.
  unfold optional_id. destruct o as [s|]; [|done]. destruct (text_set s); [|done].
  apply reads_bind; [apply reads_id_of|done].
Qed.
Lemma reads_limit server l : reads (limit_of server l).
Proof. intros db. unfold limit_of. by repeat case_match. Qed.
Lemma reads_offset server l : reads (offset_of server l).
Proof. intros db. unfold offset_of. by repeat case_match. Qed.
Lemma reads_agent_param server s : reads (agent_param server s).
Proof. intros db. unfold agent_param. by repeat case_match. Qed.

Create HintDb reads.
#[export] Hint Resolve reads_ensure reads_need reads_gets reads_ret reads_throw reads_criteria reads_opt_criteria
  reads_decimal reads_agent_of
  reads_id_of reads_optional_id reads_limit reads_offset reads_agent_param : reads.

(** ** The changes *)

(** Only audit rows and notifications were written. *)
Definition same_tables (db db' : CoachDb) : Prop := ∃ a n, db' = with_logs a n db.

Definition set_template (t : ScorecardTemplate) (next : Z) (db : CoachDb) : CoachDb :=
  with_templates (<[ tp_id t := t ]> (templates db)) next db.
Definition set_scorecard (s : CallScorecard) (next : Z) (db : CoachDb) : CoachDb :=
  with_scorecards (<[ sc_id s := s ]> (scorecards db)) next db.
Definition set_annotation (a : CallAnnotation) (next : Z) (db : CoachDb) : CoachDb :=
  with_annotations (<[ an_id a := a ]> (annotations db)) next db.
Definition set_feedback (f : AgentFeedback) (next : Z) (db : CoachDb) : CoachDb :=
  with_feedback (<[ fb_id f := f ]> (feedback db)) next db.

(** The score of a scorecard is that of its answers under a template, and complete. *)
Definition settled (criteria : list ScorecardCriterion) (s : CallScorecard) : Prop :=
  validateScoresComplete criteria (sc_scores s) = None ∧
  decimal_5_2 (computeTotal criteria (sc_scores s)) = Some (sc_totalScore s) ∧ is_Some (sc_finalizedAt s).

Definition same_template (t t' : ScorecardTemplate) : Prop :=
  tp_id t' = tp_id t ∧ tp_tenantId t' = tp_tenantId t ∧ tp_parentId t' = tp_parentId t ∧ tp_version t' = tp_version t.

Definition same_scorecard (s s' : CallScorecard) : Prop :=
  sc_id s' = sc_id s ∧ sc_tenantId s' = sc_tenantId s ∧ sc_callUuid s' = sc_callUuid s ∧ sc_templateId s' = sc_templateId s.

Definition same_annotation (a a' : CallAnnotation) : Prop :=
  an_id a' = an_id a ∧ an_tenantId a' = an_tenantId a ∧ an_callUuid a' = an_callUuid a ∧
  an_scorecardId a' = an_scorecardId a ∧ an_supervisorId a' = an_supervisorId a.

(** The answers and the score change, of a scorecard that is not finalized. *)
Definition unlocked_by (db : CoachDb) (scorecard : option Z) : Prop :=
  ∀ i s, scorecard = Some i → i ≠ 0 → scorecards db !! i = Some s → sc_status s = draft.

Section changes.
Variable server : CoachServer.

(** [who]: the tenant and the user that act; [opened]: the scorecard that an unlock names. *)
Inductive change (tenant uid : Z) (opened : option Z) (db : CoachDb) : CoachDb → Prop :=
  | ch_none : change tenant uid opened db db
  | ch_template t :
      tp_id t = next_template db → tp_tenantId t = tenant → tp_parentId t = None →
      change tenant uid opened db (set_template t (next_template db + 1) db)
  | ch_version old t archived :
      templates db !! tp_id old = Some old → tp_tenantId old = tenant → tp_active old = true →
      (0 < finalizedCount (tp_id old) db)%nat →
      tp_id t = next_template db → tp_tenantId t = tenant → tp_parentId t = Some (tp_id old) →
      tp_version t = tp_version old + 1 →
      same_template old archived → tp_criteria archived = tp_criteria old → tp_active archived = false →
      change tenant uid opened db
        (set_template archived (next_template db + 1) (set_template t (next_template db + 1) db))
  | ch_edit old t :
      templates db !! tp_id old = Some old → tp_tenantId old = tenant → tp_active old = true →
      finalizedCount (tp_id old) db = 0%nat → same_template old t → tp_active t = true →
      change tenant uid opened db (set_template t (next_template db) db)
  | ch_archive old t :
      templates db !! tp_id old = Some old → tp_tenantId old = tenant → same_template old t →
      tp_criteria t = tp_criteria old → tp_active t = false →
      change tenant uid opened db (set_template t (next_template db) db)
  | ch_scorecard s t :
      sc_id s = next_scorecard db → sc_tenantId s = tenant → sc_status s = draft →
      getByCallUuid server (sc_callUuid s) tenant db = None →
      templates db !! sc_templateId s = Some t → tp_tenantId t = tenant →
      change tenant uid opened db (set_scorecard s (next_scorecard db + 1) db)
  | ch_draft old s :
      scorecards db !! sc_id old = Some old → sc_tenantId old = tenant → sc_status old = draft → sc_status s = draft →
      same_scorecard old s → change tenant uid opened db (set_scorecard s (next_scorecard db) db)
  | ch_finalize old s t :
      scorecards db !! sc_id old = Some old → sc_tenantId old = tenant → sc_status old = draft →
      sc_status s = finalized → same_scorecard old s →
      templates db !! sc_templateId s = Some t → tp_tenantId t = tenant → settled (tp_criteria t) s →
      change tenant uid opened db (set_scorecard s (next_scorecard db) db)
  | ch_unlock old s :
      opened = Some (sc_id old) → scorecards db !! sc_id old = Some old → sc_tenantId old = tenant →
      sc_status s = draft → same_scorecard old s →
      change tenant uid opened db (set_scorecard s (next_scorecard db) db)
  | ch_annotation a :
      an_id a = next_annotation db → an_tenantId a = tenant → an_supervisorId a = Some uid →
      (length (annotations_on server tenant (an_callUuid a) db) < MAX_ANNOTATIONS_PER_CALL)%nat →
      (∀ i s, an_scorecardId a = Some i → i ≠ 0 → scorecards db !! i = Some s → sc_tenantId s = tenant → sc_status s = draft) →
      change tenant uid opened db (set_annotation a (next_annotation db + 1) db)
  | ch_annotation_edit old a :
      annotations db !! an_id old = Some old → an_tenantId old = tenant → given (an_supervisorId old) ∈ [None; Some uid] →
      unlocked_by db (an_scorecardId old) → same_annotation old a →
      change tenant uid opened db (set_annotation a (next_annotation db) db)
  | ch_annotation_delete old :
      annotations db !! an_id old = Some old → an_tenantId old = tenant → given (an_supervisorId old) ∈ [None; Some uid] →
      unlocked_by db (an_scorecardId old) →
      change tenant uid opened db (with_annotations (delete (an_id old) (annotations db)) (next_annotation db) db)
  | ch_feedback f :
      fb_id f = next_feedback db → fb_tenantId f = tenant → fb_acknowledgedAt f = None →
      change tenant uid opened db (set_feedback f (next_feedback db + 1) db)
  | ch_acknowledge old f :
      feedback db !! fb_id old = Some old → fb_tenantId old = tenant → fb_agentId old = uid → fb_acknowledgedAt old = None →
      fb_id f = fb_id old → fb_tenantId f = tenant → is_Some (fb_acknowledgedAt f) →
      change tenant uid opened db (set_feedback f (next_feedback db) db).

(** ** The services make changes *)

(** A row is stored under its identifier, and identifiers count up from 1. *)
Record wf_ids (db : CoachDb) : Prop := mkWfIds {
  ids_template : ∀ i t, templates db !! i = Some t → tp_id t = i ∧ i < next_template db;
  ids_scorecard : ∀ i s, scorecards db !! i = Some s → sc_id s = i ∧ 0 < i < next_scorecard db;
  ids_annotation : ∀ i a, annotations db !! i = Some a → an_id a = i ∧ i < next_annotation db;
  ids_feedback : ∀ i f, feedback db !! i = Some f → fb_id f = i ∧ i < next_feedback db;
  ids_positive : 0 < next_scorecard db;
}.

Ltac wp_step :=
  first
    [ apply wp_gets | apply wp_ret | apply wp_throw | apply wp_modify
    | apply wp_ensure; intros ?Hens | apply wp_need; [intros ? ?Hneed|intros ?Hneed]
    | apply wp_reads; [solve [auto with reads]|intros [?|?] ?Hread] | apply wp_bind | apply wp_fmap
    | match goal with |- wp (match ?x with _ => _ end) _ _ => destruct x eqn:?Hcase end
    | match goal with |- wp (let '(_, _) := ?x in _) _ _ => destruct x eqn:?Hcase end ].

Ltac wps := repeat (cbv zeta; wp_step).

Context (tenant uid : Z) (opened : option Z) (db : CoachDb).
Context (Hids : wf_ids db).

(** A refusal comes before any write. *)
Definition refusal {A} (r : result CoachError A) : bool := match r with Err (Refused _ _ _) => true | _ => false end.

Definition outcome {A} (r : result CoachError A) (db' : CoachDb) : Prop :=
  change tenant uid opened db db' ∧ (refusal r = true → db' = db).

#[local] Abbreviation makes m := (wp m outcome db).

Lemma unchanged {A} (r : result CoachError A) : outcome r db.
Proof. split; [apply ch_none|done]. Qed.

Lemma changed {A} (a : A) db' : change tenant uid opened db db' → outcome (Ok a) db'.
Proof. by split. Qed.

Lemma find_template_some id tn t : find_template id tn db = Some t → templates db !! id = Some t ∧ tp_tenantId t = tn.
Proof. unfold find_template. intros (x & Hx & Hc)%bind_Some. case_match; [|done]. simplify_eq. split; [done|lia]. Qed.

Lemma find_scorecard_some id tn s : find_scorecard id tn db = Some s → scorecards db !! id = Some s ∧ sc_tenantId s = tn.
Proof. unfold find_scorecard. intros (x & Hx & Hc)%bind_Some. case_match; [|done]. simplify_eq. split; [done|lia]. Qed.

Lemma find_annotation_some id tn a : find_annotation id tn db = Some a → annotations db !! id = Some a ∧ an_tenantId a = tn.
Proof. unfold find_annotation. intros (x & Hx & Hc)%bind_Some. case_match; [|done]. simplify_eq. split; [done|lia]. Qed.

Lemma find_feedback_some id tn f : find_feedback id tn db = Some f → feedback db !! id = Some f ∧ fb_tenantId f = tn.
Proof. unfold find_feedback. intros (x & Hx & Hc)%bind_Some. case_match; [|done]. simplify_eq. split; [done|lia]. Qed.

Lemma makes_create_template name d criteria createdBy : makes (create_template server tenant name d criteria createdBy).
Proof.
  unfold create_template, insert_template, put_template. wps; try apply unchanged.
  apply changed. by apply (ch_template _ _ _ _ (mkTemplate _ _ _ _ _ _ _ _ _)).
Qed.

Lemma makes_update_template id name d criteria updatedBy :
  makes (update_template server id tenant name d criteria updatedBy).
Proof.
  unfold update_template, insert_template, save_template, archive_template, put_template.
  wps; try apply unchanged; apply find_template_some in Hneed as [Hold Ht];
    destruct (ids_template _ Hids _ _ Hold) as [<- _].
  - apply changed. eapply (ch_version _ _ _ _ _ (mkTemplate _ _ _ _ _ _ _ _ _) (mkTemplate _ _ _ _ _ _ _ _ _)); try done.
    by apply Nat.ltb_lt.
  - apply changed. eapply (ch_edit _ _ _ _ _ (mkTemplate _ _ _ _ _ _ _ _ _)); try done. apply Nat.ltb_ge in Hcase. lia.
Qed.

Lemma makes_deactivate_template id : makes (deactivate_template id tenant).
Proof.
  unfold deactivate_template, archive_template, put_template.
  wps; try apply unchanged; apply find_template_some in Hneed as [Hold Ht].
  destruct (ids_template _ Hids _ _ Hold) as [<- _].
  apply changed. by eapply (ch_archive _ _ _ _ _ (mkTemplate _ _ _ _ _ _ _ _ _)).
Qed.

Lemma makes_create_scorecard callUuid t sup agentId campaignId scores comments now :
  getByCallUuid server callUuid tenant db = None → find_template (tp_id t) tenant db = Some t →
  makes (create_scorecard server tenant callUuid (tp_id t) sup agentId campaignId scores comments (tp_criteria t) now).
Proof.
  intros Hnone [Ht Htn]%find_template_some. unfold create_scorecard, put_scorecard. wps; try apply unchanged.
  apply changed. by eapply (ch_scorecard _ _ _ _ (mkScorecard _ _ _ _ _ _ _ _ _ _ _ _ _ _)).
Qed.

Lemma makes_update_scorecard id scores comments criteria :
  makes (update_scorecard server id tenant scores comments criteria).
Proof.
  unfold update_scorecard, put_scorecard, not_finalized. wps; try apply unchanged.
  apply find_scorecard_some in Hneed as [Hold Ht]. destruct (ids_scorecard _ Hids _ _ Hold) as [<- _].
  assert (sc_status a = draft) as Hd by (by destruct (sc_status a)).
  apply changed. by eapply (ch_draft _ _ _ _ _ (with_scores _ _ _ _ _ _)).
Qed.

Lemma makes_finalize_scorecard id t now :
  (∀ s, find_scorecard id tenant db = Some s → find_template (sc_templateId s) tenant db = Some t) →
  makes (finalize_scorecard id tenant (tp_criteria t) now).
Proof.
  intros Htemplate. unfold finalize_scorecard, put_scorecard, not_finalized, refuse. wps; try apply unchanged.
  destruct (find_scorecard_some _ _ _ Hneed) as [Hold Ht]. destruct (ids_scorecard _ Hids _ _ Hold) as [<- _].
  destruct (find_template_some _ _ _ (Htemplate _ Hneed)) as [Htp Htn].
  assert (sc_status a = draft) as Hd by (by destruct (sc_status a)).
  unfold decimal in Hread. destruct (decimal_5_2 (computeTotal _ _)) as [h|] eqn:Htotal; [|done]. injection Hread as ->.
  apply changed. eapply (ch_finalize _ _ _ _ _ (with_scores _ _ _ _ _ _) t); try done.
Qed.

Lemma makes_unlock_scorecard id : opened = Some id → makes (unlock_scorecard id tenant).
Proof.
  intros Hop. unfold unlock_scorecard, put_scorecard. wps; try apply unchanged.
  apply find_scorecard_some in Hneed as [Hold Ht]. destruct (ids_scorecard _ Hids _ _ Hold) as [<- _].
  apply changed. by eapply (ch_unlock _ _ _ _ _ (with_scores _ _ _ _ _ _)).
Qed.

Lemma given_some o i : o = Some i → i ≠ 0 → given o = Some i.
Proof. intros -> Hi. unfold given. cbn. by rewrite (proj2 (Z.eqb_neq _ _) Hi). Qed.

Lemma not_finalized_draft o s : is_finalized o = false → o = Some s → sc_status s = draft.
Proof. intros Hf ->. unfold is_finalized in Hf. case_bool_decide; [done|]. by destruct (sc_status s). Qed.

Lemma makes_create_annotation callUuid scorecardId timestampMs text tag dur now :
  makes (create_annotation server tenant callUuid scorecardId uid timestampMs text tag dur now).
Proof.
  unfold create_annotation, put_annotation. wps; try apply unchanged.
  apply changed. eapply (ch_annotation _ _ _ _ (mkAnnotation _ _ _ _ _ _ _ _ _)); try done; cbn.
  - by apply Nat.ltb_lt.
  - intros i s -> Hi Hs Ht. apply negb_true_iff in Hens1. apply (not_finalized_draft _ s Hens1).
    rewrite (given_some (Some i) i) by done. unfold find_scorecard. cbn [mbind option_bind]. rewrite Hs.
    cbn [mbind option_bind]. by rewrite (proj2 (Z.eqb_eq _ _) Ht).
Qed.

(** What an edit of an annotation has checked. *)
Lemma editable_outcome verb id Q :
  (∀ e, Q (Err e) db) →
  (∀ old, annotations db !! an_id old = Some old → an_tenantId old = tenant →
     given (an_supervisorId old) ∈ [None; Some uid] → unlocked_by db (an_scorecardId old) → Q (Ok old) db) →
  wp (editable_annotation verb id tenant uid) Q db.
Proof.
  intros Herr Hok. unfold editable_annotation. wps; try apply Herr.
  apply find_annotation_some in Hneed as [Hold Ht]. destruct (ids_annotation _ Hids _ _ Hold) as [<- _].
  apply Hok; try done.
  - destruct (given (an_supervisorId a)) as [u|]; [|set_solver]. apply Z.eqb_eq in Hens as ->. set_solver.
  - intros i s Hi Hnz Hs. apply negb_true_iff in Hens0. apply (not_finalized_draft _ s Hens0).
    rewrite (given_some _ _ Hi Hnz). done.
Qed.

Lemma makes_update_annotation id text tag timestampMs dur :
  makes (update_annotation server id tenant uid text tag timestampMs dur).
Proof.
  unfold update_annotation, put_annotation. apply wp_bind, editable_outcome; [intros; apply unchanged|].
  intros old Hold Ht Hu Hl. wps; try apply unchanged.
  apply changed. by eapply (ch_annotation_edit _ _ _ _ old (mkAnnotation _ _ _ _ _ _ _ _ _)).
Qed.

Lemma makes_delete_annotation id : makes (delete_annotation id tenant uid).
Proof.
  unfold delete_annotation. apply wp_bind, editable_outcome; [intros; apply unchanged|].
  intros old Hold Ht Hu Hl. wps. apply changed. by apply ch_annotation_delete.
Qed.

Lemma makes_create_feedback agentId sup body rel call now :
  makes (create_feedback server tenant agentId sup body rel call now).
Proof.
  unfold create_feedback, put_feedback. wps; try apply unchanged.
  all: apply changed; by apply (ch_feedback _ _ _ _ (mkFeedback _ _ _ _ _ _ _ _ _)).
Qed.

Lemma makes_acknowledge id now : makes (acknowledge id tenant uid now).
Proof.
  unfold acknowledge, put_feedback. wps; try apply unchanged.
  apply find_feedback_some in Hneed as [Hold Ht]. destruct (ids_feedback _ Hids _ _ Hold) as [<- _].
  apply Z.eqb_eq in Hens. apply bool_decide_eq_true in Hens0.
  apply changed. by eapply (ch_acknowledge _ _ _ _ _ (mkFeedback _ _ _ _ _ _ _ _ _)).
Qed.

End changes.
