(* ===== verification/CoachingRuns.v ===== *)
(** Every request to the coaching routes as a change of the tables, the invariant of the
    tables over all runs, and what a run leaves as it was: rows of other tenants,
    finalized scorecards with their criteria and annotations, acknowledged feedback. *)

From S2P Require Import Prelude Paging Calendar Jcs JsonText JsNumber Rbac Auth Coaching CoachingScores CoachingTheorems.

#[local] Open Scope Z_scope.

(** ** Requests *)

Inductive CoachCall :=
  | K_list_all_templates (rq : CoachRequest)
  | K_template (rq : CoachRequest) (raw : string)
  | K_create_template (rq : CoachRequest) (body : option TemplateBody)
  | K_update_template (rq : CoachRequest) (raw : string) (body : option TemplatePatch)
  | K_deactivate_template (rq : CoachRequest) (raw : string)
  | K_list_templates (rq : CoachRequest)
  | K_unlock (rq : CoachRequest) (raw : string)
  | K_calibration (rq : CoachRequest)
  | K_call (rq : CoachRequest) (uuid : string)
  | K_scorecard (rq : CoachRequest) (uuid : string)
  | K_create_scorecard (rq : CoachRequest) (uuid : string) (body : option ScorecardBody)
  | K_update_scorecard (rq : CoachRequest) (uuid : string) (body : option ScorecardPatch)
  | K_finalize (rq : CoachRequest) (uuid : string)
  | K_agent_scorecards (rq : CoachRequest) (agent : string) (status limit offset : option string)
  | K_annotations (rq : CoachRequest) (uuid : string)
  | K_create_annotation (rq : CoachRequest) (uuid : string) (body : option AnnotationBody)
  | K_update_annotation (rq : CoachRequest) (raw : string) (body : option AnnotationPatch)
  | K_delete_annotation (rq : CoachRequest) (raw : string)
  | K_create_feedback (rq : CoachRequest) (uuid : string) (body : option FeedbackBody)
  | K_agent_feedback (rq : CoachRequest) (agent : string) (limit offset : option string)
  | K_inbox (rq : CoachRequest) (limit offset unacknowledged : option string)
  | K_feedback (rq : CoachRequest) (raw : string)
  | K_acknowledge (rq : CoachRequest) (raw : string)
  | K_own_scorecards (rq : CoachRequest) (limit offset : option string)
  | K_own_scorecard (rq : CoachRequest) (raw : string).

Definition request_of (k : CoachCall) : CoachRequest :=
  match k with
  | K_list_all_templates rq | K_template rq _ | K_create_template rq _ | K_update_template rq _ _
  | K_deactivate_template rq _ | K_list_templates rq | K_unlock rq _ | K_calibration rq | K_call rq _ | K_scorecard rq _
  | K_create_scorecard rq _ _ | K_update_scorecard rq _ _ | K_finalize rq _ | K_agent_scorecards rq _ _ _ _
  | K_annotations rq _ | K_create_annotation rq _ _ | K_update_annotation rq _ _ | K_delete_annotation rq _
  | K_create_feedback rq _ _ | K_agent_feedback rq _ _ _ | K_inbox rq _ _ _ | K_feedback rq _ | K_acknowledge rq _
  | K_own_scorecards rq _ _ | K_own_scorecard rq _ => rq
  end.

(** The scorecard that a request asks to unlock. *)
Definition opened_by (k : CoachCall) : option Z := match k with K_unlock _ raw => BigInt raw | _ => None end.

Section system.
Variable server : CoachServer.

Definition serve_call (k : CoachCall) : CoachDb → CoachResponse * CoachDb :=
  match k with
  | K_list_all_templates rq => handleAdminListTemplates server rq
  | K_template rq raw => handleAdminGetTemplate rq raw
  | K_create_template rq b => handleAdminCreateTemplate server rq b
  | K_update_template rq raw b => handleAdminUpdateTemplate server rq raw b
  | K_deactivate_template rq raw => handleAdminDeactivateTemplate server rq raw
  | K_list_templates rq => handleListTemplates server rq
  | K_unlock rq raw => handleAdminUnlockScorecard server rq raw
  | K_calibration rq => handleCalibrationStub rq
  | K_call rq uuid => handleGetCallForReview server rq uuid
  | K_scorecard rq uuid => handleGetScorecard server rq uuid
  | K_create_scorecard rq uuid b => handleCreateScorecard server rq uuid b
  | K_update_scorecard rq uuid b => handleUpdateScorecard server rq uuid b
  | K_finalize rq uuid => handleFinalizeScorecard server rq uuid
  | K_agent_scorecards rq a st l o => handleGetAgentScorecards server rq a st l o
  | K_annotations rq uuid => handleListAnnotations server rq uuid
  | K_create_annotation rq uuid b => handleCreateAnnotation server rq uuid b
  | K_update_annotation rq raw b => handleUpdateAnnotation server rq raw b
  | K_delete_annotation rq raw => handleDeleteAnnotation server rq raw
  | K_create_feedback rq uuid b => handleCreateFeedbackForCall server rq uuid b
  | K_agent_feedback rq a l o => handleGetAgentFeedback server rq a l o
  | K_inbox rq l o u => handleAgentListFeedback server rq l o u
  | K_feedback rq raw => handleAgentGetFeedback rq raw
  | K_acknowledge rq raw => handleAgentAcknowledgeFeedback server rq raw
  | K_own_scorecards rq l o => handleAgentListScorecards server rq l o
  | K_own_scorecard rq raw => handleAgentGetScorecard rq raw
  end.

(** ** A request makes one change, and logs it *)

Lemma same_tables_trans db1 db2 db3 : same_tables db1 db2 → same_tables db2 db3 → same_tables db1 db3.
Proof. intros (a & n & ->) (a' & n' & ->). exists (a ++ a'), (n ++ n'). unfold with_logs. cbn. by rewrite !app_assoc. Qed.

Lemma same_tables_refl db : same_tables db db.
Proof. exists [], []. destruct db. unfold with_logs. cbn. by rewrite !(right_id_L [] (++)). Qed.

(** What follows the change of a handler writes logs only, and refuses nothing. *)
Definition logs {A} (m : M A) : Prop := ∀ db, wp m (λ r db', same_tables db db' ∧ refusal r = false) db.

Lemma logs_bind {A B} (m : M A) (f : A → M B) : logs m → (∀ a, logs (f a)) → logs (m ≫= f).
Proof.
  intros Hm Hf db. apply wp_bind. specialize (Hm db). unfold wp in *. destruct (m db) as [[a|e] db1]; cbn in *; [|by destruct Hm, e].
  destruct Hm as [H1 _]. specialize (Hf a db1). unfold wp in Hf. destruct Hf as [H2 Hr].
  split; [by apply (same_tables_trans _ db1)|done].
Qed.

Lemma logs_ret {A} (a : A) : logs (mret a).
Proof. intros db. split; [apply same_tables_refl|done]. Qed.
Lemma logs_gets {A} (f : CoachDb → A) : logs (gets f).
Proof. intros db. split; [apply same_tables_refl|done]. Qed.
Lemma logs_ensure b : logs (ensure b Thrown).
Proof. intros db. by destruct b; (split; [apply same_tables_refl|]). Qed.
Lemma logs_modify a n : logs (modify (with_logs a n)).
Proof. intros db. split; [by exists a, n|done]. Qed.
Lemma logs_audit rq auth action ty ent after : logs (audit server rq auth action ty ent after).
Proof. unfold audit. apply logs_bind; [apply logs_ensure|intros; apply logs_modify]. Qed.
Lemma logs_notify n : logs (notify server n).
Proof.
  unfold notify. apply logs_bind; [apply logs_gets|intros known]. apply logs_bind; [apply logs_ensure|intros; apply logs_modify].
Qed.

(** The same, up to the answer, which is no failure. *)
Definition fails (r : result CoachError CoachResponse) : bool :=
  match r with Err (Refused _ _ _) | Ok (CFail _ _ _) => true | _ => false end.

Definition answers (m : M CoachResponse) : Prop := ∀ db, wp m (λ r db', same_tables db db' ∧ fails r = false) db.

Lemma answers_ret a : fails (Ok a) = false → answers (mret a).
Proof. intros Ha db. split; [apply same_tables_refl|done]. Qed.

Lemma answers_bind {A} (m : M A) f : logs m → (∀ a, answers (f a)) → answers (m ≫= f).
Proof.
  intros Hm Hf db. apply wp_bind. specialize (Hm db). unfold wp in *. destruct (m db) as [[a|e] db1]; cbn in *; [|by destruct Hm, e].
  destruct Hm as [H1 _]. specialize (Hf a db1). unfold wp in Hf. destruct Hf as [H2 Hr].
  split; [by apply (same_tables_trans _ db1)|done].
Qed.

Create HintDb logs.
#[local] Hint Resolve answers_ret answers_bind logs_bind logs_ret logs_gets logs_ensure logs_modify logs_audit logs_notify : logs.

(** What a handler leaves. *)
Definition handled (tenant uid : Z) (opened : option Z) (db : CoachDb) (r : result CoachError CoachResponse) (db' : CoachDb)
    : Prop :=
  (∃ db1, change server tenant uid opened db db1 ∧ same_tables db1 db') ∧ (fails r = true → db' = db).

Lemma handled_same tenant uid opened db r : handled tenant uid opened db r db.
Proof. split; [|done]. exists db. split; [apply ch_none|apply same_tables_refl]. Qed.

(** A service and the logging after it. *)
Lemma handled_service tenant uid opened db {A} (m : M A) (f : A → M CoachResponse) :
  wp m (outcome server tenant uid opened db) db → (∀ a, answers (f a)) → wp (m ≫= f) (handled tenant uid opened db) db.
Proof.
  intros Hm Hf. apply wp_bind. apply (wp_mono _ _ _ _ Hm). intros [a|e] db1 [Hc Hr].
  - specialize (Hf a db1). apply (wp_mono _ _ _ _ Hf). intros r db' [Hs Hnr]. split; [by exists db1|]. by rewrite Hnr.
  - split; [exists db1; split; [done|apply same_tables_refl]|]. intros Hf1. apply Hr. by destruct e.
Qed.

(** A handler that only reads. *)
Lemma handled_reads tenant uid opened db (m : M CoachResponse) : reads m → wp m (handled tenant uid opened db) db.
Proof. intros Hm. apply wp_reads; [done|]. intros. apply handled_same. Qed.

Definition served (k : CoachCall) (db : CoachDb) (out : CoachResponse * CoachDb) : Prop :=
  (out.2 = db ∨ ∃ a db1, rq_auth (request_of k) = Some a ∧ change server (a_tenantId a) (a_uid a) (opened_by k) db db1 ∧
     same_tables db1 out.2) ∧
  (∀ st e l, out.1 = CFail st e l → out.2 = db).

Lemma served_route verb rq k h db :
  request_of k = rq → (∀ a, rq_auth rq = Some a → wp (h a) (handled (a_tenantId a) (a_uid a) (opened_by k) db) db) →
  served k db (route verb rq h db).
Proof.
  intros Hrq Hh. unfold served, route. destruct (requirePermission _ _ _); [by split; [left|]|].
  destruct (rq_auth rq) as [a|] eqn:Ha; [|by split; [left|]]. rewrite Hrq, Ha. specialize (Hh a eq_refl).
  unfold wp in Hh. destruct (h a db) as [[r|[st msg l|]] db']; cbn in *; destruct Hh as [(db1 & Hc & Hs) Hr].
  all: split; [right; by exists a, db1|]; try done.
  - intros st e l ->. by apply Hr.
  - intros _ _ _ _. by apply Hr.
Qed.

Lemma served_read k verb rq h db : request_of k = rq → (∀ a, reads (h a)) → served k db (route verb rq h db).
Proof. intros Hrq Hh. apply served_route; [done|]. intros a _. by apply handled_reads. Qed.

(** A prefix that only reads. *)
Lemma handled_prefix tenant uid opened db {A} (m : M A) (f : A → M CoachResponse) :
  reads m → (∀ a, (m db).1 = Ok a → wp (f a) (handled tenant uid opened db) db) → wp (m ≫= f) (handled tenant uid opened db) db.
Proof.
  intros Hm Hf. apply wp_bind, wp_reads; [done|]. intros [a|e] Ha; [by apply Hf|apply handled_same].
Qed.

Lemma reads_fmap {A B} (m : M A) (f : A → B) : reads m → reads (f <$> m).
Proof. intros Hm db. unfold fmap, M_fmap. specialize (Hm db). by destruct (m db) as [[a|e] db']. Qed.

Lemma reads_scorecard_of_call uuid tn : reads (scorecard_of_call server uuid tn).
Proof. unfold scorecard_of_call. repeat (apply reads_bind; [auto with reads|intros]); auto with reads. Qed.

Lemma reads_parsed {A} (b : option A) : reads (parsed b).
Proof. apply reads_need. Qed.

Lemma scorecard_of_call_ok uuid tn db et :
  (scorecard_of_call server uuid tn db).1 = Ok et →
  getByCallUuid server uuid tn db = Some et.1 ∧ find_template (sc_templateId et.1) tn db = Some et.2.
Proof.
  unfold scorecard_of_call, mbind, M_bind. cbn. destruct (getByCallUuid server uuid tn db) as [s|]; cbn; [|done].
  destruct (find_template (sc_templateId s) tn db) as [t|] eqn:Ht; cbn; [|done]. by intros [= <-].
Qed.

Lemma getByCallUuid_some uuid tn db s :
  wf_ids db → getByCallUuid server uuid tn db = Some s →
  scorecards db !! sc_id s = Some s ∧ sc_tenantId s = tn ∧ same_text server uuid (sc_callUuid s) = true.
Proof.
  intros Hids [Hin [Htext Ht]%andb_prop]%find_some. apply list_elem_of_In in Hin.
  unfold rows in Hin. apply list_elem_of_fmap in Hin as ([i s'] & -> & Hs%elem_of_map_to_list). cbn in *.
  destruct (ids_scorecard _ Hids _ _ Hs) as [-> _]. split_and!; [done|lia|done].
Qed.

(** A prefix that only reads, then a service, then logs. *)
Ltac handler :=
  repeat first
    [ apply handled_prefix; [solve [auto with reads|apply reads_parsed|apply reads_scorecard_of_call]|intros ? ?Hread]
    | apply handled_service; [|intros; repeat first [case_match | progress (cbv zeta)]; auto 8 with logs] ].

Ltac reader :=
  intros; repeat first
    [ progress (cbv zeta) | solve [auto with reads|apply reads_parsed]
    | match goal with |- reads (_ <$> _) => apply reads_fmap | |- reads (_ ≫= _) => apply reads_bind; [|intros] end ].

Lemma serves_create_scorecard rq uuid body db :
  wf_ids db → served (K_create_scorecard rq uuid body) db (handleCreateScorecard server rq uuid body db).
Proof.
  intros Hids. apply served_route; [done|intros auth _]. do 5 (apply handled_prefix;
    [solve [auto with reads|apply reads_parsed]|intros ? ?Hread]).
  destruct a3 as [s|]; [by apply handled_reads|]. cbv zeta. injection Hread3 as Hnone.
  destruct a1 as [t|]; [|done]. injection Hread1 as Ht. injection Hread2 as <-.
  apply handled_service; [|intros; auto 8 with logs].
  destruct (find_template_some _ _ _ _ Ht) as [Htp _]. destruct (ids_template _ Hids _ _ Htp) as [<- _].
  by apply makes_create_scorecard.
Qed.

Lemma serves_finalize rq uuid db : wf_ids db → served (K_finalize rq uuid) db (handleFinalizeScorecard server rq uuid db).
Proof.
  intros Hids. apply served_route; [done|intros auth _]. handler.
  apply scorecard_of_call_ok in Hread as [Hcall Ht]. destruct (getByCallUuid_some _ _ _ _ Hids Hcall) as (Hs & Htn & _).
  apply makes_finalize_scorecard; [done|]. intros s [Hs' _]%find_scorecard_some. by simplify_eq.
Qed.

Lemma serves k db : wf_ids db → served k db (serve_call k db).
Proof.
  intros Hids. destruct k; cbn [serve_call].
  all: try solve [apply served_read; [done|reader]].
  all: try solve [apply served_route; [done|intros auth Hauth]; handler; auto using makes_create_template, makes_update_template,
    makes_deactivate_template, makes_update_scorecard, makes_create_annotation, makes_update_annotation,
    makes_delete_annotation, makes_create_feedback, makes_acknowledge].
  - apply served_route; [done|intros auth Hauth]. handler. apply makes_unlock_scorecard; [done|]. cbn.
    revert Hread. unfold id_of. destruct (BigInt raw) as [n|]; [|done]. case_match; [|done]. by intros [= ->].
  - unfold handleCalibrationStub. destruct (rq_auth rq); by split; [left|].
  - by apply serves_create_scorecard.
  - by apply serves_finalize.
Qed.

(** ** The invariant *)

Record wf_coach (db : CoachDb) : Prop := mkWfCoach {
  wc_ids : wf_ids db;
  (** a version is one above its parent, which is archived and has no other version *)
  wc_parent : ∀ i t p, templates db !! i = Some t → tp_parentId t = Some p →
    ∃ tp, templates db !! p = Some tp ∧ tp_tenantId tp = tp_tenantId t ∧ tp_active tp = false ∧
          tp_version t = tp_version tp + 1;
  wc_child : ∀ i j ti tj p, templates db !! i = Some ti → templates db !! j = Some tj →
    tp_parentId ti = Some p → tp_parentId tj = Some p → i = j;
  wc_template : ∀ i s, scorecards db !! i = Some s →
    ∃ t, templates db !! sc_templateId s = Some t ∧ tp_tenantId t = sc_tenantId s;
  (** a call has one scorecard *)
  wc_call : ∀ i j si sj, scorecards db !! i = Some si → scorecards db !! j = Some sj →
    sc_tenantId si = sc_tenantId sj → same_text server (sc_callUuid si) (sc_callUuid sj) = true → i = j;
  (** the score of a finalized scorecard is that of its answers under the criteria of its template *)
  wc_settled : ∀ i s t, scorecards db !! i = Some s → sc_status s = finalized →
    templates db !! sc_templateId s = Some t → settled (tp_criteria t) s;
  wc_cap : ∀ tn uuid, (length (annotations_on server tn uuid db) ≤ MAX_ANNOTATIONS_PER_CALL)%nat;
}.

(** The collation is an equivalence. *)
Class Collation : Prop := mkCollation {
  text_refl : ∀ s, same_text server s s = true;
  text_sym : ∀ s t, same_text server s t = true → same_text server t s = true;
  text_trans : ∀ s t u, same_text server s t = true → same_text server t u = true → same_text server s u = true;
}.

Lemma elem_of_rows {A} (m : gmap Z A) x : x ∈ rows m ↔ ∃ i, m !! i = Some x.
Proof.
  unfold rows. rewrite list_elem_of_fmap. split.
  - intros ([i y] & -> & H%elem_of_map_to_list). by exists i.
  - intros [i H]. exists (i, x). split; [done|]. by apply elem_of_map_to_list.
Qed.

Lemma finalizedCount_pos id db i s :
  scorecards db !! i = Some s → sc_status s = finalized → sc_templateId s = id → (0 < finalizedCount id db)%nat.
Proof.
  intros Hs Hf Ht. unfold finalizedCount.
  assert (s ∈ List.filter (finalized_with id) (rows (scorecards db))) as Hin.
  { apply elem_of_filter_list. split; [apply elem_of_rows; by exists i|]. unfold finalized_with.
    rewrite (proj2 (Z.eqb_eq _ _) Ht). by rewrite bool_decide_true. }
  destruct (List.filter _ _); [by apply not_elem_of_nil in Hin|cbn; lia].
Qed.

Lemma rows_insert_new {A} (m : gmap Z A) i x : m !! i = None → rows (<[ i := x ]> m) ≡ₚ x :: rows m.
Proof. intros Hi. unfold rows. by rewrite (map_to_list_insert m i x Hi). Qed.

Lemma rows_delete {A} (m : gmap Z A) i x : m !! i = Some x → rows m ≡ₚ x :: rows (delete i m).
Proof. intros Hi. unfold rows. by rewrite <- (map_to_list_delete m i x Hi). Qed.

Lemma rows_insert_old {A} (m : gmap Z A) i x y : m !! i = Some x → rows (<[ i := y ]> m) ≡ₚ y :: rows (delete i m).
Proof. intros Hi. rewrite <- insert_delete_eq. apply rows_insert_new, lookup_delete_eq. Qed.

(** ** What stays *)

(** The rows of a tenant. *)
Definition same_rows (tn : Z) (db db' : CoachDb) : Prop :=
  (∀ i t, tp_tenantId t = tn → templates db' !! i = Some t ↔ templates db !! i = Some t) ∧
  (∀ i s, sc_tenantId s = tn → scorecards db' !! i = Some s ↔ scorecards db !! i = Some s) ∧
  (∀ i a, an_tenantId a = tn → annotations db' !! i = Some a ↔ annotations db !! i = Some a) ∧
  (∀ i f, fb_tenantId f = tn → feedback db' !! i = Some f ↔ feedback db !! i = Some f).

(** A finalized scorecard with the criteria of its template and its tenant's annotations. *)
Definition frozen (i : Z) (db db' : CoachDb) : Prop :=
  ∀ s t, scorecards db !! i = Some s → sc_status s = finalized → templates db !! sc_templateId s = Some t →
  scorecards db' !! i = Some s ∧
  (∃ t', templates db' !! sc_templateId s = Some t' ∧ tp_criteria t' = tp_criteria t) ∧
  (∀ k a, an_tenantId a = sc_tenantId s → an_scorecardId a = Some i →
     annotations db' !! k = Some a ↔ annotations db !! k = Some a).

Definition acknowledged_kept (db db' : CoachDb) : Prop :=
  ∀ i f, feedback db !! i = Some f → is_Some (fb_acknowledgedAt f) → feedback db' !! i = Some f.

Lemma same_rows_trans tn d1 d2 d3 : same_rows tn d1 d2 → same_rows tn d2 d3 → same_rows tn d1 d3.
Proof.
  intros (H1 & H2 & H3 & H4) (K1 & K2 & K3 & K4). split_and!; intros i x Hx.
  - by rewrite K1, H1.
  - by rewrite K2, H2.
  - by rewrite K3, H3.
  - by rewrite K4, H4.
Qed.

Lemma frozen_trans i d1 d2 d3 : frozen i d1 d2 → frozen i d2 d3 → frozen i d1 d3.
Proof.
  intros H12 H23 s t Hs Hf Ht. destruct (H12 s t Hs Hf Ht) as (Hs2 & (t2 & Ht2 & Hc2) & Ha2).
  destruct (H23 s t2 Hs2 Hf Ht2) as (Hs3 & (t3 & Ht3 & Hc3) & Ha3). split_and!; [done| |].
  - exists t3. split; [done|congruence].
  - intros k a Htn Hi. by rewrite Ha3, Ha2.
Qed.

Section step.
Context (tenant uid : Z) (opened : option Z) (db db' : CoachDb).
Context (Hchange : change server tenant uid opened db db').

(** The cases of a change, with the lookups in its tables. *)
Ltac cases :=
  destruct Hchange; cbn [set_template set_scorecard set_annotation set_feedback with_templates with_scorecards with_annotations
    with_feedback templates scorecards annotations feedback next_template next_scorecard next_annotation next_feedback] in *.

Ltac lookups :=
  repeat match goal with
    | H : <[ _ := _ ]> _ !! _ = Some _ |- _ => apply lookup_insert_Some in H as [[? ?]|[? ?]]
    | H : delete _ _ !! _ = Some _ |- _ => apply lookup_delete_Some in H as [? ?]
    end; simplify_eq.

Lemma step_ids : wf_ids db → wf_ids db'.
Proof using Hchange.
  intros [H1 H2 H3 H4 H5]. cases.
  all: unfold same_template, same_scorecard, same_annotation in *.
  all: split; try done; cbn; try lia.
  all: intros i' x' Hx; lookups.
  all: repeat match goal with
    | H : ∀ i t, ?m !! i = Some t → _, Hx : ?m !! _ = Some _ |- _ => apply H in Hx
    end.
  all: naive_solver lia.
Qed.

Context (Hwf : wf_coach db).

Lemma template_below i t : templates db !! i = Some t → i < next_template db.
Proof using Hwf. intros H. by apply (ids_template _ (wc_ids _ Hwf)) in H as [_ ?]. Qed.

Lemma scorecard_below i s : scorecards db !! i = Some s → i < next_scorecard db.
Proof using Hwf. intros H. apply (ids_scorecard _ (wc_ids _ Hwf)) in H as [_ ?]. lia. Qed.

Lemma annotation_new : annotations db !! next_annotation db = None.
Proof using Hwf.
  destruct (annotations db !! _) as [a|] eqn:H; [|done]. apply (ids_annotation _ (wc_ids _ Hwf)) in H as [_ ?]. lia.
Qed.

(** A template is kept but for its texts and criteria, and a parent is kept archived. *)
Lemma step_templates i t : templates db !! i = Some t →
  ∃ t', templates db' !! i = Some t' ∧ same_template t t' ∧ (tp_active t = false → tp_active t' = false).
Proof using Hchange Hwf.
  intros Ht. pose proof (template_below _ _ Ht) as Hlt. cases.
  all: unfold same_template in *.
  all: try (exists t; by split_and!).
  all: match goal with
    | |- context [<[ tp_id ?x := _ ]> (<[ tp_id ?y := _ ]> _) !! ?k] =>
        destruct (decide (k = tp_id x)) as [->|];
          [rewrite lookup_insert_eq|rewrite lookup_insert_ne by done; rewrite lookup_insert_ne by lia]
    | |- context [<[ tp_id ?x := _ ]> _ !! ?k] =>
        destruct (decide (k = tp_id x)) as [->|]; [rewrite lookup_insert_eq|rewrite lookup_insert_ne by done]
    end.
  all: try (exfalso; lia).
  all: destruct_and?.
  all: repeat match goal with Hid : tp_id ?x = tp_id ?y, H : templates ?d !! tp_id ?x = Some _ |- _ => rewrite Hid in H end.
  all: simplify_eq; eexists; split; [done|]; split_and!; congruence.
Qed.

Lemma step_wc_parent i t p : templates db' !! i = Some t → tp_parentId t = Some p →
  ∃ tp, templates db' !! p = Some tp ∧ tp_tenantId tp = tp_tenantId t ∧ tp_active tp = false ∧ tp_version t = tp_version tp + 1.
Proof using Hchange Hwf.
  intros Ht Hp.
  assert ((∃ t0, templates db !! i = Some t0 ∧ same_template t0 t) ∨
          (∃ tp, templates db' !! p = Some tp ∧ tp_tenantId tp = tp_tenantId t ∧ tp_active tp = false ∧
                 tp_version t = tp_version tp + 1)) as [(t0 & Ht0 & Hs)|?]; [|
    destruct Hs as (_ & Htn & Hpar & Hver); rewrite Hpar in Hp; destruct (wc_parent _ Hwf _ _ _ Ht0 Hp) as (tp & H1 & H2 & H3 & H4);
    destruct (step_templates _ _ H1) as (tp' & H1' & (_ & Htn' & _ & Hver') & Ha); exists tp'; split_and!; try done; [congruence|auto|congruence]|done].
  clear - Ht Hp Hchange Hwf. pose proof template_below as Hbelow. cases.
  all: unfold same_template in *.
  all: try (left; exists t; by split_and!).
  all: lookups; destruct_and?.
  all: try (left; eexists; split; [done|]; by split_and!).
  all: try (left; eexists; split; [match goal with H : tp_id ?x = tp_id _ |- _ !! tp_id ?x = _ => rewrite H end; done|]; by split_and!).
  right. exists archived. match goal with H : tp_id archived = tp_id old |- _ => rewrite <- H end.
  split; [apply lookup_insert_eq|]. split_and!; [congruence|done|lia].
Qed.

(** A template that got a new version was active before. *)
Lemma step_new_version i t : templates db' !! i = Some t → is_Some (tp_parentId t) →
  (∃ t0, templates db !! i = Some t0 ∧ tp_parentId t0 = tp_parentId t) ∨
  (i = next_template db ∧ ∃ old, tp_parentId t = Some (tp_id old) ∧ templates db !! tp_id old = Some old ∧ tp_active old = true).
Proof using Hchange Hwf.
  intros Ht [p Hp]. cases.
  all: unfold same_template in *.
  all: try (left; exists t; first [done|congruence|by split_and!]).
  all: lookups; destruct_and?.
  all: try (left; eexists; split; [done|]; first [done|congruence|by split_and!]).
  all: try (left; eexists; split; [match goal with H : tp_id ?x = tp_id _ |- _ !! tp_id ?x = _ => rewrite H end; done|]; first [done|congruence|by split_and!]).
  right. split; [done|]. exists old. by split_and!.
Qed.

Lemma step_wc_child i j ti tj p : templates db' !! i = Some ti → templates db' !! j = Some tj →
  tp_parentId ti = Some p → tp_parentId tj = Some p → i = j.
Proof using Hchange Hwf.
  intros Hi Hj Hpi Hpj.
  destruct (step_new_version _ _ Hi) as [(ti0 & Hi0 & Ei)|(-> & old & Eold & Hold & Ha)]; [by rewrite Hpi| |].
  all: destruct (step_new_version _ _ Hj) as [(tj0 & Hj0 & Ej)|(-> & oldj & Eoldj & Holdj & Haj)]; [by rewrite Hpj| |]; try done.
  - apply (wc_child _ Hwf i j ti0 tj0 p); congruence.
  - destruct (wc_parent _ Hwf i ti0 p Hi0) as (tp & Htp & _ & Hna & _); [congruence|]. simplify_eq. congruence.
  - destruct (wc_parent _ Hwf j tj0 p Hj0) as (tp & Htp & _ & Hna & _); [congruence|]. simplify_eq. congruence.
Qed.

(** A scorecard after the change is one from before, or new. *)
Lemma step_scorecards i s : scorecards db' !! i = Some s →
  (∃ s0, scorecards db !! i = Some s0 ∧ same_scorecard s0 s) ∨
  (i = next_scorecard db ∧ sc_tenantId s = tenant ∧ sc_status s = draft ∧
   getByCallUuid server (sc_callUuid s) tenant db = None ∧
   ∃ t, templates db' !! sc_templateId s = Some t ∧ tp_tenantId t = tenant).
Proof using Hchange Hwf.
  intros Hs. cases.
  all: unfold same_scorecard in *.
  all: try (left; exists s; first [done|congruence|by split_and!]).
  all: lookups; destruct_and?.
  all: try (left; eexists; split; [done|]; first [done|congruence|by split_and!]).
  all: try (left; eexists; split; [match goal with H : sc_id ?x = sc_id _ |- _ !! sc_id ?x = _ => rewrite H end; done|]; first [done|congruence|by split_and!]).
  right. split_and!; try done. by eexists.
Qed.

Lemma getByCallUuid_none uuid tn i s :
  getByCallUuid server uuid tn db = None → scorecards db !! i = Some s → sc_tenantId s = tn →
  same_text server uuid (sc_callUuid s) = false.
Proof.
  intros Hnone Hs Ht. pose proof (find_none _ _ Hnone s) as H. cbn in H.
  rewrite (proj2 (Z.eqb_eq _ _) Ht), andb_true_r in H. apply H. apply list_elem_of_In, elem_of_rows. by exists i.
Qed.

Lemma step_wc_call `{!Collation} i j si sj : scorecards db' !! i = Some si → scorecards db' !! j = Some sj →
  sc_tenantId si = sc_tenantId sj → same_text server (sc_callUuid si) (sc_callUuid sj) = true → i = j.
Proof using Hchange Hwf.
  intros Hi Hj Ht Htext.
  destruct (step_scorecards _ _ Hi) as [(si0 & Hi0 & (_ & Ti & Ui & _))|(-> & Ti & _ & Ni & _)].
  all: destruct (step_scorecards _ _ Hj) as [(sj0 & Hj0 & (_ & Tj & Uj & _))|(-> & Tj & _ & Nj & _)]; try done.
  - apply (wc_call _ Hwf i j si0 sj0); congruence.
  - rewrite Ui in Htext. pose proof (getByCallUuid_none _ _ _ _ Nj Hi0 ltac:(congruence)) as Hf. apply text_sym in Htext. congruence.
  - rewrite Uj in Htext. pose proof (getByCallUuid_none _ _ _ _ Ni Hj0 ltac:(congruence)). congruence.
Qed.

Lemma step_wc_template i s : scorecards db' !! i = Some s →
  ∃ t, templates db' !! sc_templateId s = Some t ∧ tp_tenantId t = sc_tenantId s.
Proof using Hchange Hwf.
  intros Hs. destruct (step_scorecards _ _ Hs) as [(s0 & Hs0 & (_ & Ht & _ & Hid))|(_ & Ht & _ & _ & t & Htp & Htn)].
  - destruct (wc_template _ Hwf _ _ Hs0) as (t & Htp & Htn). destruct (step_templates _ _ Htp) as (t' & Htp' & (_ & Htn' & _) & _).
    exists t'. rewrite Hid. split; [done|congruence].
  - exists t. split; [done|congruence].
Qed.

(** The criteria of a template with finalized scorecards stay. *)
Lemma step_criteria i t : templates db !! i = Some t → (0 < finalizedCount i db)%nat →
  ∃ t', templates db' !! i = Some t' ∧ tp_criteria t' = tp_criteria t.
Proof using Hchange Hwf.
  intros Ht Hn. pose proof (template_below _ _ Ht) as Hlt. cases.
  all: unfold same_template in *; destruct_and?.
  all: try (by exists t).
  - exists t. split; [|done]. by rewrite lookup_insert_ne by lia.
  - destruct (decide (i = tp_id old)) as [->|Hne].
    + exists archived. replace (tp_id archived) with (tp_id old). rewrite lookup_insert_eq. split; [done|congruence].
    + exists t. split; [|done]. rewrite lookup_insert_ne by congruence. by rewrite lookup_insert_ne by lia.
  - exists t. split; [|done]. rewrite lookup_insert_ne; [done|]. intros <-.
    match goal with H : tp_id t0 = tp_id old |- _ => rewrite H in Hn end. lia.
  - destruct (decide (i = tp_id old)) as [->|Hne].
    + exists t0. replace (tp_id t0) with (tp_id old). rewrite lookup_insert_eq. split; [done|congruence].
    + exists t. split; [|done]. by rewrite lookup_insert_ne by congruence.
Qed.

Lemma step_finalized i s : scorecards db' !! i = Some s → sc_status s = finalized →
  scorecards db !! i = Some s ∨ ∃ t, templates db' !! sc_templateId s = Some t ∧ settled (tp_criteria t) s.
Proof using Hchange.
  intros Hs Hf. cases.
  all: try (by left).
  all: lookups; try congruence; try (by left).
  right. by eexists.
Qed.

Lemma step_wc_settled i s t : scorecards db' !! i = Some s → sc_status s = finalized →
  templates db' !! sc_templateId s = Some t → settled (tp_criteria t) s.
Proof using Hchange Hwf.
  intros Hs Hf Ht. destruct (step_finalized _ _ Hs Hf) as [Hs0|(t' & Ht' & Hset)]; [|congruence].
  destruct (wc_template _ Hwf _ _ Hs0) as (t0 & Ht0 & _).
  destruct (step_criteria _ _ Ht0 (finalizedCount_pos _ _ _ _ Hs0 Hf eq_refl)) as (t' & Ht' & Hc).
  simplify_eq. rewrite Hc. by apply (wc_settled _ Hwf i).
Qed.

Lemma step_wc_cap `{!Collation} tn u : (length (annotations_on server tn u db') ≤ MAX_ANNOTATIONS_PER_CALL)%nat.
Proof using Hchange Hwf.
  pose proof (wc_cap _ Hwf tn u) as Hcap. revert Hcap.
  destruct Hchange as [| | | | | | | | |a Hid Ht _ Hn _|old a Hold Ht _ _ (Hid & Hta & Hua & _)|old Hold| |]; try done.
  all: unfold annotations_on; cbn [set_annotation with_annotations annotations].
  - rewrite Hid, (filter_perm _ _ _ (rows_insert_new _ _ a annotation_new)). cbn [List.filter].
    change (on_call server tn u a) with (same_text server u (an_callUuid a) && (an_tenantId a =? tn)).
    destruct (same_text server u (an_callUuid a)) eqn:Hu, (an_tenantId a =? tn) eqn:Htn; cbn [andb]; try done.
    cbn [length]. intros _. apply Z.eqb_eq in Htn as <-. rewrite Ht. unfold annotations_on in Hn.
    replace (List.filter (on_call server tenant u) (rows (annotations db)))
      with (List.filter (on_call server tenant (an_callUuid a)) (rows (annotations db))); [lia|].
    apply List.filter_ext. intros b. unfold on_call. f_equal. apply eq_iff_eq_true. split; intros Hb.
    + by apply (text_trans _ _ _ Hu).
    + apply text_sym in Hu. by apply (text_trans _ _ _ Hu).
  - rewrite Hid. rewrite (filter_perm _ _ _ (rows_delete _ _ _ Hold)), (filter_perm _ _ _ (rows_insert_old _ _ _ a Hold)).
    cbn [List.filter]. replace (on_call server tn u a) with (on_call server tn u old) by (unfold on_call; congruence).
    by destruct (on_call _ _ _ _).
  - rewrite (filter_perm _ _ _ (rows_delete _ _ _ Hold)). cbn [List.filter]. destruct (on_call _ _ _ _); cbn [length]; lia.
Qed.

Lemma coach_step_wf `{!Collation} : wf_coach db'.
Proof using Hchange Hwf.
  split; eauto using step_wc_parent, step_wc_child, step_wc_template, step_wc_call, step_wc_settled, step_wc_cap.
  apply step_ids, (wc_ids _ Hwf).
Qed.

(** Both rows at a key belong to the tenant that acts. *)
Lemma insert_other {A} (tn : A → Z) (m : gmap Z A) i x k (y : A) :
  (∀ z, m !! i = Some z → tn z = tenant) → tn x = tenant → tn y ≠ tenant →
  <[ i := x ]> m !! k = Some y ↔ m !! k = Some y.
Proof.
  intros Hold Hx Hy. destruct (decide (k = i)) as [->|Hne]; [|by rewrite lookup_insert_ne by done].
  rewrite lookup_insert_eq. split; [by intros [= ->]|]. intros H. by apply Hold in H.
Qed.

Lemma step_same_rows tn : tn ≠ tenant → same_rows tn db db'.
Proof using Hchange Hwf.
  intros Hne. destruct (wc_ids _ Hwf) as [I1 I2 I3 I4 _].
  assert (templates db !! next_template db = None ∧ scorecards db !! next_scorecard db = None ∧
          annotations db !! next_annotation db = None ∧ feedback db !! next_feedback db = None) as (N1 & N2 & N3 & N4).
  { split_and!; apply eq_None_not_Some; intros [x Hx];
      [apply I1 in Hx|apply I2 in Hx|apply I3 in Hx|apply I4 in Hx]; lia. }
  cases; unfold same_template, same_scorecard, same_annotation in *; destruct_and?.
  all: split_and!; cbn; try done; intros i' x' Hx'.
  all: repeat match goal with H : tp_id ?x = _ |- context [<[ tp_id ?x := _ ]>] => rewrite H | H : sc_id ?x = _ |- context [<[ sc_id ?x := _ ]>] => rewrite H
    | H : an_id ?x = _ |- context [<[ an_id ?x := _ ]>] => rewrite H | H : fb_id ?x = _ |- context [<[ fb_id ?x := _ ]>] => rewrite H end.
  all: try (first [apply (insert_other tp_tenantId)|apply (insert_other sc_tenantId)|apply (insert_other an_tenantId)
      |apply (insert_other fb_tenantId)]; [intros z Hz; congruence|congruence|congruence]).
  - rewrite (insert_other tp_tenantId); [apply (insert_other tp_tenantId)|intros z|..]; try congruence.
    rewrite lookup_insert_Some. intros [[_ <-]|[_ Hz]]; congruence.
  - rewrite lookup_delete_Some. split; [naive_solver|]. intros Hx. split; [congruence|done].
Qed.

Lemma step_annotations i s k a : opened ≠ Some i → scorecards db !! i = Some s → sc_status s = finalized →
  an_tenantId a = sc_tenantId s → an_scorecardId a = Some i →
  annotations db' !! k = Some a ↔ annotations db !! k = Some a.
Proof using Hchange Hwf.
  intros Hop Hs Hf Ha Hi. pose proof annotation_new as Hnew.
  pose proof (ids_scorecard _ (wc_ids _ Hwf) _ _ Hs) as [_ Hpos]. cases; try done.
  - destruct (decide (k = an_id a0)) as [->|]; [|by rewrite lookup_insert_ne]. rewrite lookup_insert_eq.
    split; [|congruence]. intros [= ->]. exfalso.
    match goal with H : ∀ i s, _ → _ → _ → _ → _ |- _ => specialize (H i s Hi ltac:(lia) Hs ltac:(congruence)) end. congruence.
  - unfold same_annotation in *. destruct_and?. destruct (decide (k = an_id a0)) as [->|]; [|by rewrite lookup_insert_ne].
    rewrite lookup_insert_eq.
    assert (an_scorecardId old ≠ Some i) as Hno.
    { intros Ho. match goal with H : unlocked_by _ _ |- _ => specialize (H i s Ho ltac:(lia) Hs) end. congruence. }
    split; [intros [= ->]; congruence|]. intros Hk. congruence.
  - rewrite lookup_delete_Some. split; [by intros [_ ?]|]. intros Hk. split; [|done]. intros <-. simplify_eq.
    match goal with H : unlocked_by _ _ |- _ => specialize (H i s Hi ltac:(lia) Hs) end. congruence.
Qed.

Lemma step_frozen i : opened ≠ Some i → frozen i db db'.
Proof using Hchange Hwf.
  intros Hop s t Hs Hf Ht. split_and!.
  - pose proof (scorecard_below _ _ Hs) as Hlt. pose proof (ids_scorecard _ (wc_ids _ Hwf) _ _ Hs) as [Hid _].
    cases; try done; unfold same_scorecard in *; destruct_and?; rewrite lookup_insert_ne; try done; congruence || lia.
  - by apply (step_criteria _ _ Ht), (finalizedCount_pos _ _ i s).
  - intros k a Ha Hi. by apply (step_annotations i s).
Qed.

Lemma step_acknowledged : acknowledged_kept db db'.
Proof using Hchange Hwf.
  intros i f Hf Ha. pose proof (ids_feedback _ (wc_ids _ Hwf) _ _ Hf) as [Hid Hlt].
  cases; try done; (rewrite lookup_insert_ne; [done|]); [lia|]. intros Heq. destruct Ha. congruence.
Qed.

End step.

(** ** Runs *)

Definition serve_all (ks : list CoachCall) (db : CoachDb) : CoachDb := fold_left (λ db k, (serve_call k db).2) ks db.

Lemma logs_keep db1 db' : same_tables db1 db' →
  (wf_coach db1 → wf_coach db') ∧ (∀ tn, same_rows tn db1 db') ∧ (∀ i, frozen i db1 db') ∧ acknowledged_kept db1 db'.
Proof.
  intros (a & n & ->). split_and!; [|done| |by intros i f].
  - intros [[] ? ? ? ? ? ?]. by split.
  - intros i s t Hs Hf Ht. split_and!; [done|by exists t|done].
Qed.

(** The tenant that a request acts for. *)
Definition acts_for (k : CoachCall) : option Z := a_tenantId <$> rq_auth (request_of k).

Lemma step_keeps `{!Collation} k db : wf_coach db →
  let db' := (serve_call k db).2 in
  wf_coach db' ∧ (∀ tn, acts_for k ≠ Some tn → same_rows tn db db') ∧
  (∀ i, opened_by k ≠ Some i → frozen i db db') ∧ acknowledged_kept db db'.
Proof.
  intros Hwf db'. destruct (serves k db (wc_ids _ Hwf)) as [[Heq|(a & db1 & Ha & Hc & Hs)] _]; fold db' in Hs || fold db' in Heq.
  - destruct (logs_keep db db' ltac:(rewrite Heq; apply same_tables_refl)) as (H1 & H2 & H3 & H4). by split_and!; auto.
  - destruct (logs_keep _ _ Hs) as (H1 & H2 & H3 & H4). split_and!.
    + apply H1. by apply (coach_step_wf _ _ _ _ _ Hc).
    + intros tn Htn. apply (same_rows_trans tn _ db1); [|done]. apply (step_same_rows _ _ _ _ _ Hc Hwf).
      intros ->. apply Htn. unfold acts_for. by rewrite Ha.
    + intros i Hi. apply (frozen_trans i _ db1); [|done]. by apply (step_frozen _ _ _ _ _ Hc Hwf).
    + intros i f Hf Hk. apply H4; [|done]. by apply (step_acknowledged _ _ _ _ _ Hc Hwf).
Qed.

(** C24: Over every run of the coaching requests the tables stay consistent (a version of a
    template is one above its archived parent, a call has one scorecard and at most 200
    annotations, the score of a finalized scorecard is that of its answers under its
    template's criteria); the rows of a tenant stay while others act; a finalized scorecard
    stays with its criteria and its tenant's annotations unless an unlock names it; and
    feedback that was acknowledged never changes. *)
Theorem coaching_runs `{!Collation} ks db : wf_coach db →
  let db' := serve_all ks db in
  wf_coach db' ∧
  (∀ tn, Forall (λ k, acts_for k ≠ Some tn) ks → same_rows tn db db') ∧
  (∀ i, Forall (λ k, opened_by k ≠ Some i) ks → frozen i db db') ∧
  acknowledged_kept db db'.
Proof.
  intros Hwf. revert db Hwf. induction ks as [|k ks IH]; intros db Hwf; cbn [serve_all fold_left].
  - destruct (logs_keep db db (same_tables_refl db)) as (H1 & H2 & H3 & H4). by split_and!; auto.
  - destruct (step_keeps k db Hwf) as (Hwf1 & Hrows & Hfro & Hack). destruct (IH _ Hwf1) as (Hwf' & Hrows' & Hfro' & Hack').
    split_and!; [done| | |].
    + intros tn [H1 H2]%Forall_cons. eapply same_rows_trans; [by apply Hrows|by apply Hrows'].
    + intros i [H1 H2]%Forall_cons. eapply frozen_trans; [by apply Hfro|by apply Hfro'].
    + intros i f Hf Ha. apply Hack'; [by apply Hack|done].
Qed.

End system.

(** ** A run *)

Module CoachRun.
Import CoachSample.

Definition setup : list CoachCall :=
  [K_create_template (req 1 7) (Some (mkTemplateBody "QA" None criteria));
   K_create_scorecard (req 1 7) "u1"
     (Some (mkScorecardBody "1" (Some "9"%string) None [score "c1" 8; score "c2" 1] None));
   K_create_annotation (req 1 7) "u1" (Some (mkAnnotationBody (Some "1"%string) 500 "good" praise));
   K_finalize (req 1 7) "u1"].

Definition later : list CoachCall :=
  [K_update_template (req 1 7) "1" (Some (mkTemplatePatch None None (Some [criterion "c1" numeric 100 10])));
   K_update_scorecard (req 1 7) "u1" (Some (mkScorecardPatch (Some [score "c1" 0; score "c2" 0]) None));
   K_create_annotation (req 1 7) "u1" (Some (mkAnnotationBody (Some "1"%string) 900 "bad" compliance_flag));
   K_create_annotation (req 2 8) "u9" (Some (mkAnnotationBody (Some "1"%string) 900 "psst" compliance_flag))].

Definition db1 : CoachDb := serve_all server setup empty.
Definition db2 : CoachDb := serve_all server later db1.

#[global] Instance collation : Collation server.
Proof.
  split; cbn; intros s.
  - apply String.eqb_refl.
  - intros t. by rewrite String.eqb_sym.
  - intros t u. by rewrite !String.eqb_eq; intros -> ->.
Qed.

Lemma wf_empty : wf_coach server empty.
Proof.
  split; [split; [intros i x Hx|intros i x Hx|intros i x Hx|intros i x Hx|done]| | | | | |intros tn u; apply (bool_decide_unpack _); exact I].
  all: cbn [empty templates scorecards annotations feedback] in *; intros; by rewrite lookup_empty in *.
Qed.

End CoachRun.

(** Tenant 1 finalizes a scorecard; the template's new criteria, a change of the scores and a
    further annotation leave it as it was. *)
Lemma coaching_runs_witness :
  wf_coach CoachSample.server CoachRun.db2 ∧ frozen 1 CoachRun.db1 CoachRun.db2 ∧
  ((λ s, (sc_status s, sc_totalScore s)) <$> scorecards CoachRun.db2 !! 1) = Some (finalized, 8800) ∧
  (tp_active <$> templates CoachRun.db2 !! 1) = Some false ∧ (tp_version <$> templates CoachRun.db2 !! 2) = Some 2.
Proof.
  destruct (coaching_runs CoachSample.server CoachRun.setup CoachSample.empty CoachRun.wf_empty) as [Hwf1 _].
  destruct (coaching_runs CoachSample.server CoachRun.later CoachRun.db1 Hwf1) as (Hwf2 & _ & Hfrozen & _).
  split; [exact Hwf2|]. split; [apply Hfrozen|split; [|split]; vm_compute; reflexivity].
  unfold CoachRun.later. repeat constructor; vm_compute; discriminate.
Defined.

(** ** Where the routes fall short *)

(** What a request is refused changes nothing. *)
Theorem coaching_refusals server k db st e l :
  wf_ids db → (serve_call server k db).1 = CFail st e l → (serve_call server k db).2 = db.
Proof. intros Hids. destruct (serves server k db Hids) as [_ H]. apply H. Qed.

Lemma coaching_verb_refused a verb :
  a_role a = supervisor ∨ a_role a = agent →
  verb ∈ [scorecard_template_edit; scorecard_read; scorecard_create; scorecard_finalize; feedback_read; feedback_create] →
  requirePermission verb None (Some a) = Some (mkError 403 "forbidden").
Proof.
  intros Hrole Hverb. unfold requirePermission. cbn [default]. destruct a as [uid tenant role perms jti totp group campaigns].
  cbn in Hrole. rewrite !elem_of_cons in Hverb.
  destruct Hrole as [-> | ->]; destruct_or! Hverb; subst; try (by apply not_elem_of_nil in Hverb);
    cbn; unfold Can; cbn; rewrite bool_decide_true by done; reflexivity.
Qed.

(** The guards give no campaign and no owner, so the roles whose grants are for a group or
    their own rows, supervisors and agents, are refused by every route. *)
Theorem coaching_refuses_agents server k a db :
  rq_auth (request_of k) = Some a → a_role a = supervisor ∨ a_role a = agent →
  (∃ st e l, serve_call server k db = (CFail st e l, db)).
Proof.
  intros Ha Hrole. pose proof (λ v, coaching_verb_refused a v Hrole) as Hv.
  destruct k; cbn [request_of] in Ha; cbn [serve_call];
    try (do 3 eexists; unfold handleCalibrationStub; rewrite Ha; reflexivity).
  all: do 3 eexists.
  all: unfold handleAdminListTemplates, handleAdminGetTemplate, handleAdminCreateTemplate, handleAdminUpdateTemplate,
    handleAdminDeactivateTemplate, handleListTemplates, handleAdminUnlockScorecard, handleGetCallForReview,
    handleGetScorecard, handleCreateScorecard, handleUpdateScorecard, handleFinalizeScorecard, handleGetAgentScorecards,
    handleListAnnotations, handleCreateAnnotation, handleUpdateAnnotation, handleDeleteAnnotation,
    handleCreateFeedbackForCall, handleGetAgentFeedback, handleAgentListFeedback, handleAgentGetFeedback,
    handleAgentAcknowledgeFeedback, handleAgentListScorecards, handleAgentGetScorecard, route.
  all: rewrite Ha, Hv by set_solver; reflexivity.
Qed.

(** An annotation names a scorecard by an identifier that only the same tenant's lookup
    guards: one that tenant 2 creates joins the finalized scorecard of tenant 1, which shows it. *)
Theorem annotation_crosses_tenants :
  match (serve_call CoachSample.server (K_scorecard (CoachSample.req 1 7) "u1") CoachRun.db2).1 with
  | CScorecardDetail s _ l =>
      sc_tenantId s = 1 ∧ sc_status s = finalized ∧ map (λ a, (an_tenantId a, an_text a)) l = [(1, "good"); (2, "psst")]%string
  | _ => False
  end.
Proof. vm_compute. split_and!; reflexivity. Qed.

(** The audit row follows the change and holds 255 characters of the user agent: a request
    with a longer one changes the tables, is an internal error and leaves no audit row. *)
Theorem long_user_agent_unaudited :
  let long := String.concat EmptyString (repeat "0123456789"%string 26) in
  let rq := mkCoachRequest (Some (CoachSample.admin_of 1 7)) (Some long) 1746100800000 in
  let out := serve_call CoachSample.server (K_create_template rq (Some (mkTemplateBody "QA" None CoachSample.criteria)))
               CoachSample.empty in
  out.1 = CThrown ∧ (tp_name <$> templates out.2 !! 1) = Some "QA"%string ∧ coach_audits out.2 = [].
Proof. split_and!; vm_compute; reflexivity. Qed.
