(* ===== verification/CoachingReports.v ===== *)
(** Reports on coaching, [api/src/services/coaching/coaching-report-service.ts] with the
    routes of [routes/sup/coaching/handlers/reports.ts]: the statistics of an agent, its
    trend over days, weeks or months and the summary of a team.

    The starts of days, weeks and months are those of the process's time zone, by a library
    ([Dates], a parameter, with the reading of dates); the buckets of a trend are an
    association list in the order of insertion, as in a JavaScript [Map]. *)

From S2P Require Import Prelude Paging Calendar Jcs JsonText JsNumber Rbac Auth Coaching.

#[local] Open Scope Z_scope.

Inductive TrendInterval : Set := day | week | month.

Record Dates := mkDates {
  startOf : TrendInterval → Z → Z;
  add_one : TrendInterval → Z → Z;
  (** [new Date(s)], [None] when invalid *)
  date_of : string → option Z;
}.

(** The library counts forward, by 22 hours at least. *)
Class Forward (dates : Dates) : Prop := add_one_after : ∀ i t, t + 79200000 ≤ add_one dates i t.

Section reports.
Variable server : CoachServer.
Variable dates : Dates.

(** [Number(s.totalScore)] *)
Definition score_of (s : CallScorecard) : Num := num_of_decimal (sc_totalScore s).

(** The mean of scores, rounded; [None] of no score. *)
Definition avg_of (l : list Num) : option Num := match l with [] => None | _ => Some (average_2dp l) end.

Definition in_period (from to t : Z) : bool := (from <=? t) && (t <=? to).

(** The evaluations that reports count. *)
Definition counts (tenantId : Z) (agents : list Z) (from to : Z) (s : CallScorecard) : bool :=
  (sc_tenantId s =? tenantId) && from_option (λ a, bool_decide (a ∈ agents)) false (sc_agentId s) &&
  bool_decide (sc_status s = finalized) && negb (sc_isCalibration s) && in_period from to (sc_createdAt s).

(** ** [getCoachingStats] *)

Record CoachingStats := mkCoachingStats {
  evaluations_received : Z;
  avg_scorecard_score : option Num;
  feedback_items : Z;
  unacknowledged_feedback : Z;
  trend_7d_delta : option Num;
}.

Definition DAY_MS : Z := 86400000.

Definition mean (l : list Num) : Num := ndiv (nsum l) (num (Z.of_nat (length l))).

Definition getCoachingStats (tenantId agentId from to : Z) (db : CoachDb) : CoachingStats :=
  let scorecards := List.filter (counts tenantId [agentId] from to) (rows (scorecards db)) in
  let allFeedback := List.filter (λ f, (fb_tenantId f =? tenantId) && (fb_agentId f =? agentId) &&
                       in_period from to (fb_createdAt f)) (rows (feedback db)) in
  let unack := List.filter (λ f, bool_decide (fb_acknowledgedAt f = None)) allFeedback in
  let recent7 := List.filter (λ s, to - 7 * DAY_MS <=? sc_createdAt s) scorecards in
  let prior7 := List.filter (λ s, (to - 14 * DAY_MS <=? sc_createdAt s) && (sc_createdAt s <? to - 7 * DAY_MS)) scorecards in
  mkCoachingStats (Z.of_nat (length scorecards)) (avg_of (map score_of scorecards)) (Z.of_nat (length allFeedback))
    (Z.of_nat (length unack))
    (if (2 <=? length recent7)%nat && (2 <=? length prior7)%nat
     then Some (round_2dp (nsub (mean (map score_of recent7)) (mean (map score_of prior7)))) else None).

(** ** [groupByInterval] *)

Definition bucket_key (t : Z) : string := String.substring 0 10 (toISOString t).

(** [buckets.set(key, [])]: a key that is there keeps its place. *)
Fixpoint set_bucket (key : string) (v : list Num) (buckets : list (string * list Num)) : list (string * list Num) :=
  match buckets with
  | [] => [(key, v)]
  | (k, l) :: rest => if String.eqb k key then (k, v) :: rest else (k, l) :: set_bucket key v rest
  end.

Definition get_bucket (key : string) (buckets : list (string * list Num)) : option (list Num) :=
  snd <$> List.find (λ kl, String.eqb kl.1 key) buckets.

(** The loop that creates the buckets, on fuel. *)
Fixpoint create_buckets (fuel : nat) (interval : TrendInterval) (cursor to : Z) (buckets : list (string * list Num))
    : list (string * list Num) :=
  match fuel with
  | O => buckets
  | S fuel =>
      if cursor <=? to
      then create_buckets fuel interval (add_one dates interval cursor) to (set_bucket (bucket_key cursor) [] buckets)
      else buckets
  end.

Definition bucket_fuel (cursor to : Z) : nat := S (Z.to_nat ((to - cursor) / 79200000 + 1)).

Definition put_score (interval : TrendInterval) (buckets : list (string * list Num)) (s : CallScorecard)
    : list (string * list Num) :=
  let key := bucket_key (startOf dates interval (sc_createdAt s)) in
  set_bucket key (default [] (get_bucket key buckets) ++ [score_of s]) buckets.

Record DataPoint := mkPoint { dp_date : string; dp_avg_score : option Num; dp_eval_count : Z }.

Definition groupByInterval (scorecards : list CallScorecard) (from to : Z) (interval : TrendInterval) : list DataPoint :=
  let cursor := startOf dates interval from in
  let buckets := create_buckets (bucket_fuel cursor to) interval cursor to [] in
  map (λ kl, mkPoint kl.1 (avg_of kl.2) (Z.of_nat (length kl.2))) (fold_left (put_score interval) scorecards buckets).

(** ** [getAgentTrend] *)

Record AgentTrend := mkTrend {
  at_agent_id : Z;
  at_agent_name : string;
  at_template : option (Z * string);
  at_period : string * string;
  at_data_points : list DataPoint;
  at_avg_score : option Num;
  at_total_evaluations : Z;
  at_trend_delta : option Num;
  at_evaluations_by_tag : list (AnnotationTag * Z);
}.

Definition all_tags : list AnnotationTag := [positive_tag; needs_improvement; training_opportunity; compliance_flag; praise].

Definition find_user (id tenantId : Z) (db : CoachDb) : option CoachUser :=
  u ← coach_users db !! id; if cu_tenantId u =? tenantId then Some u else None.

Definition display_name (u : CoachUser) : string := default (cu_username u) (cu_fullName u).

(** The annotations of the agent's finalized scorecards, by tag; the groups are not ordered. *)
Definition by_tag (tenantId agentId from to : Z) (db : CoachDb) : list (AnnotationTag * Z) :=
  let counted a :=
    (an_tenantId a =? tenantId) && in_period from to (an_createdAt a) &&
    match an_scorecardId a ≫= λ s, scorecards db !! s with
    | Some s => bool_decide (sc_agentId s = Some agentId) && bool_decide (sc_status s = finalized) && negb (sc_isCalibration s)
    | None => false
    end in
  let l := List.filter counted (rows (annotations db)) in
  List.filter (λ tc, 0 <? tc.2)
    (map (λ t, (t, Z.of_nat (length (List.filter (λ a, bool_decide (an_tag a = t)) l)))) all_tags).

Definition trend_delta (points : list DataPoint) : option Num :=
  match rev points with
  | last :: prev :: _ =>
      match dp_avg_score last, dp_avg_score prev with
      | Some a, Some b => Some (round_2dp (nsub a b))
      | _, _ => None
      end
  | _ => None
  end.

Definition oldest_first (l : list CallScorecard) : list CallScorecard := sort_by (λ a b, sc_createdAt a <=? sc_createdAt b) l.

(** [params.templateId ? BigInt(params.templateId) : ...] *)
Definition template_filter (templateId : option Num) : M (option Z) :=
  match templateId with
  | Some x => if truthy x then match BigInt_num x with Some n => mret (Some n) | None => throw Thrown end else mret None
  | None => mret None
  end.

(** [None] of a date stands for an invalid one, which the database client refuses. *)
Definition getAgentTrend (tenantId agentId : Z) (templateId : option Num) (from to : option Z) (interval : TrendInterval)
    : M (option AgentTrend) :=
  found ← gets (find_user agentId tenantId);
  match found with
  | None => mret None
  | Some user =>
      templateId ← template_filter templateId;
      template ← gets (λ db, id ← templateId; find_template id tenantId db);
      match from, to with
      | Some from, Some to =>
          scorecards ← gets (λ db, oldest_first (List.filter (λ s, counts tenantId [agentId] from to s &&
                         from_option (λ t, sc_templateId s =? t) true templateId) (rows (scorecards db))));
          let data_points := groupByInterval scorecards from to interval in
          tags ← gets (by_tag tenantId agentId from to);
          mret (Some (mkTrend agentId (display_name user) ((λ t, (tp_id t, tp_name t)) <$> template)
                        (bucket_key from, bucket_key to) data_points (avg_of (map score_of scorecards))
                        (Z.of_nat (length scorecards)) (trend_delta data_points) tags))
      | _, _ => throw Thrown
      end
  end.

(** ** [getTeamSummary] *)

Record AgentRow := mkAgentRow { ar_agent_id : Z; ar_agent_name : string; ar_avg_score : option Num; ar_eval_count : Z }.

Definition agent_filter (tenantId : Z) (group : option Z) (u : CoachUser) : bool :=
  (cu_tenantId u =? tenantId) && String.eqb (cu_role u) "agent" &&
  match group with Some g => bool_decide (cu_userGroupId u = Some g) | None => true end.

Definition agents_of (tenantId supervisorId : Z) (db : CoachDb) : list (Z * CoachUser) :=
  let group := u ← find_user supervisorId tenantId db; given (cu_userGroupId u) in
  List.filter (λ iu, agent_filter tenantId group iu.2) (map_to_list (coach_users db)).

Definition agent_row (scorecards : list CallScorecard) (iu : Z * CoachUser) : AgentRow :=
  let scores := map score_of (List.filter (λ s, bool_decide (sc_agentId s = Some iu.1)) scorecards) in
  mkAgentRow iu.1 (display_name iu.2) (avg_of scores) (Z.of_nat (length scores)).

(** [(b.avg_score ?? -1) - (a.avg_score ?? -1)] of the sort *)
Definition row_le (a b : AgentRow) : bool :=
  nleb (nsub (default (num (-1)) (ar_avg_score b)) (default (num (-1)) (ar_avg_score a))) (num 0).

Definition optional_text (o : option string) : option string := s ← o; if text_set s then Some s else None.

Definition getTeamSummary (tenantId supervisorId : Z) (campaignId : option string) (templateId : option Num)
    (from to : option Z) : M (string * string * list AgentRow) :=
  agents ← gets (agents_of tenantId supervisorId);
  templateId ← template_filter templateId;
  match from, to with
  | Some from, Some to =>
      scorecards ← gets (λ db, List.filter (λ s, counts tenantId (map fst agents) from to s &&
                     match optional_text campaignId with
                     | Some c => from_option (same_text server c) false (sc_campaignId s)
                     | None => true
                     end && from_option (λ t, sc_templateId s =? t) true templateId) (rows (scorecards db)));
      mret (bucket_key from, bucket_key to, sort_by row_le (map (agent_row scorecards) agents))
  | _, _ => throw Thrown
  end.

(** ** Routes *)

Record ReportQuery := mkReportQuery {
  rp_agent_id : string;
  rp_campaign_id : option string;
  rp_template_id : option string;
  rp_from : string;
  rp_to : string;
  rp_interval : TrendInterval;
}.

Inductive ReportResponse :=
  | RFail (status : Z) (error : string)
  | RThrown
  | RTrend (trend : AgentTrend)
  | RTeam (from to : string) (agents : list AgentRow).

(** A report reads only, so the tables are an argument. *)
Definition report_route (rq : CoachRequest) (query : option ReportQuery)
    (handler : ApiAuth → ReportQuery → M ReportResponse) (db : CoachDb) : ReportResponse :=
  match requirePermission scorecard_read None (rq_auth rq), rq_auth rq with
  | Some e, _ => RFail (statusCode e) (code e)
  | None, None => RFail 401 "not_authenticated"
  | None, Some auth =>
      match query with
      | None => RFail 400 "invalid_query"
      | Some q =>
          match (handler auth q db).1 with
          | Ok r => r
          | Err (Refused st msg _) => RFail st msg
          | Err Thrown => RThrown
          end
      end
  end.

(** [q.template_id ? Number(q.template_id) : undefined] *)
Definition template_param (o : option string) : option Num := Number server <$> optional_text o.

Definition handleAgentTrend (rq : CoachRequest) (query : option ReportQuery) : CoachDb → ReportResponse :=
  report_route rq query (λ auth q,
    match BigInt_num (Number server (rp_agent_id q)) with
    | None => throw Thrown
    | Some agentId =>
        result ← getAgentTrend (a_tenantId auth) agentId (template_param (rp_template_id q)) (date_of dates (rp_from q +:+ "T00:00:00Z"))
                   (date_of dates (rp_to q +:+ "T23:59:59Z")) (rp_interval q);
        mret (match result with Some t => RTrend t | None => RFail 404 "agent_not_found" end)
    end).

Definition handleTeamSummary (rq : CoachRequest) (query : option ReportQuery) : CoachDb → ReportResponse :=
  report_route rq query (λ auth q,
    r ← getTeamSummary (a_tenantId auth) (a_uid auth) (rp_campaign_id q) (template_param (rp_template_id q))
          (date_of dates (rp_from q +:+ "T00:00:00Z")) (date_of dates (rp_to q +:+ "T23:59:59Z"));
    mret (RTeam r.1.1 r.1.2 r.2)).
End reports.

(** ** What a trend counts *)

Section trend.
Variable dates : Dates.

Fixpoint counted (buckets : list (string * list Num)) : nat :=
  match buckets with [] => O | (_, l) :: rest => (length l + counted rest)%nat end.

Lemma counted_set key v buckets :
  (counted (set_bucket key v buckets) + length (default [] (get_bucket key buckets)) = counted buckets + length v)%nat.
Proof.
  unfold get_bucket. induction buckets as [|[k l] rest IH]; [cbn; lia|].
  cbn [set_bucket List.find fst]. destruct (String.eqb k key); cbn in *; lia.
Qed.

Lemma keys_set key v buckets :
  map fst (set_bucket key v buckets) = map fst buckets ∨
  ((key ∉ map fst buckets) ∧ map fst (set_bucket key v buckets) = map fst buckets ++ [key]).
Proof.
  induction buckets as [|[k l] rest IH]; cbn; [right; split; [apply not_elem_of_nil|done]|].
  destruct (String.eqb k key) eqn:Hk; cbn; [by left|]. apply String.eqb_neq in Hk.
  destruct IH as [->|[Hn ->]]; [by left|]. right. split; [|done]. rewrite not_elem_of_cons. by split; [congruence|].
Qed.

Lemma NoDup_set key v buckets : NoDup (map fst buckets) → NoDup (map fst (set_bucket key v buckets)).
Proof.
  intros H. destruct (keys_set key v buckets) as [->|[Hn ->]]; [done|]. apply NoDup_app. split_and!; [done| |apply NoDup_singleton].
  intros x Hx Hx'%list_elem_of_singleton. by subst.
Qed.

Lemma create_empty fuel i cursor to buckets :
  counted buckets = 0%nat → NoDup (map fst buckets) →
  counted (create_buckets dates fuel i cursor to buckets) = 0%nat ∧
  NoDup (map fst (create_buckets dates fuel i cursor to buckets)).
Proof.
  revert cursor buckets. induction fuel as [|fuel IH]; intros cursor buckets Hc Hn; cbn; [done|].
  destruct (cursor <=? to); [|done]. apply IH; [|by apply NoDup_set].
  pose proof (counted_set (bucket_key cursor) [] buckets). cbn in *. lia.
Qed.

Lemma fold_put i scorecards buckets :
  NoDup (map fst buckets) →
  counted (fold_left (put_score dates i) scorecards buckets) = (counted buckets + length scorecards)%nat ∧
  NoDup (map fst (fold_left (put_score dates i) scorecards buckets)).
Proof.
  revert buckets. induction scorecards as [|s l IH]; intros buckets Hn; cbn; [by rewrite Nat.add_0_r|].
  destruct (IH (put_score dates i buckets s)) as [-> Hn']; [by apply NoDup_set|]. split; [|done].
  unfold put_score. pose proof (counted_set (bucket_key (startOf dates i (sc_createdAt s)))
    (default [] (get_bucket (bucket_key (startOf dates i (sc_createdAt s))) buckets) ++ [score_of s]) buckets) as H.
  rewrite length_app in H. cbn in *. lia.
Qed.

(** Enough fuel is any more than the periods left. *)
Lemma create_fuel `{!Forward dates} i n m cursor to buckets :
  to - cursor < 79200000 * Z.of_nat n → to - cursor < 79200000 * Z.of_nat m →
  create_buckets dates n i cursor to buckets = create_buckets dates m i cursor to buckets.
Proof.
  revert m cursor buckets. induction n as [|n IH]; intros m cursor buckets Hn Hm.
  - destruct m as [|m]; cbn; [done|]. by rewrite (proj2 (Z.leb_gt cursor to)) by lia.
  - destruct m as [|m]; cbn.
    + by rewrite (proj2 (Z.leb_gt cursor to)) by lia.
    + destruct (cursor <=? to); [|done]. pose proof (add_one_after i cursor). apply IH; lia.
Qed.

(** A trend counts every scorecard in exactly one of its points and has one point a
    date; the loop that makes the points ends, so more fuel changes nothing. *)
Theorem trend_accounts `{!Forward dates} scorecards from to i :
  let points := groupByInterval dates scorecards from to i in
  let cursor := startOf dates i from in
  foldr Z.add 0 (map dp_eval_count points) = Z.of_nat (length scorecards) ∧ NoDup (map dp_date points) ∧
  ∀ fuel, (bucket_fuel cursor to ≤ fuel)%nat →
    create_buckets dates fuel i cursor to [] = create_buckets dates (bucket_fuel cursor to) i cursor to [].
Proof.
  intros points cursor. unfold points, groupByInterval. fold cursor.
  destruct (create_empty (bucket_fuel cursor to) i cursor to [] eq_refl) as [H0 Hn0]; [constructor|].
  destruct (fold_put i scorecards _ Hn0) as [Hc Hn]. rewrite H0 in Hc. split_and!.
  - rewrite map_map. cbn [dp_eval_count]. rewrite <- (Nat.add_0_l (length scorecards)), <- Hc.
    clear. induction (fold_left _ _ _) as [|[k l] rest IH]; cbn in *; [done|]. rewrite IH. lia.
  - by rewrite map_map.
  - intros fuel Hfuel. unfold bucket_fuel in *. apply create_fuel; lia.
Qed.
End trend.

(** Days of a zone so many hours ahead of UTC, whatever the interval. *)
Definition zone_days (hours : Z) : Dates :=
  mkDates (λ _ t, (t + hours * 3600000) / DAY_MS * DAY_MS - hours * 3600000) (λ _ t, t + DAY_MS) (λ _, None).

#[export] Instance zone_days_forward hours : Forward (zone_days hours).
Proof. intros i t. cbn. unfold DAY_MS. lia. Qed.

Definition sample_evaluation (at_ total : Z) : CallScorecard :=
  mkScorecard 1 1 "u" 1 None (Some 9) None [] total None finalized false (Some at_) at_.

(** Three evaluations over the days from the first to the third of May 2025. *)
Lemma trend_accounts_witness :
  let l := [sample_evaluation 1746100800000 8000; sample_evaluation 1746104400000 9000; sample_evaluation 1746273600000 7000] in
  let points := groupByInterval (zone_days 0) l 1746057600000 1746316799000 day in
  foldr Z.add 0 (map dp_eval_count points) = 3 ∧
  map (λ p, (dp_date p, dp_eval_count p)) points = [("2025-05-01", 2); ("2025-05-02", 0); ("2025-05-03", 1)]%string.
Proof.
  intros l points. destruct (trend_accounts (zone_days 0) l 1746057600000 1746316799000 day) as [H _].
  split; [exact H|vm_compute; reflexivity].
Defined.

(** A day begins at midnight of the process's zone but is named by its date in UTC: ahead of
    UTC that is the day before. *)
Theorem trend_names_day_before :
  map dp_date (groupByInterval (zone_days 2) [sample_evaluation 1746100800000 8000] 1746057600000 1746143999000 day)
  = ["2025-04-30"; "2025-05-01"]%string ∧
  map dp_eval_count (groupByInterval (zone_days 2) [sample_evaluation 1746100800000 8000] 1746057600000 1746143999000 day)
  = [1; 0].
Proof. split; vm_compute; reflexivity. Qed.
