(* ===== verification/Zod.v ===== *)
(** Bodies of requests and the schemas that check them (the zod library, as the routes use
    it): a body is a JSON object, whose numbers are doubles and whose texts are UTF-8; a
    check lets a value through or refuses it; a field may be missing, have a default or be
    [null]. *)

From Stdlib Require Import SpecFloat.
From S2P Require Import Prelude JsNumber.

#[local] Open Scope Z_scope.

(** ** Bodies and fields *)

Inductive BodyValue :=
  | BNull
  | BBool (b : bool)
  | BNum (x : Num)
  | BText (s : string)
  | BArray (l : list BodyValue)
  | BObject.

(** Values of JavaScript objects and of columns: a [bigint], a decimal as its hundredths, a
    date. *)
Inductive JsValue :=
  | VNull
  | VBool (b : bool)
  | VNum (x : Num)
  | VText (s : string)
  | VTexts (l : list string)
  | VBig (n : Z)
  | VDec (hundredths : Z)
  | VDate (t : Z).

#[export] Instance JsValue_eq_dec : EqDecision JsValue.
Proof. solve_decision. Defined.

(** The named members of an object that a schema accepts, and those of a body. *)
Abbreviation Members := (gmap string JsValue).
Abbreviation Body := (gmap string BodyValue).

(** The length of a text in UTF-16 units. *)
Fixpoint utf16_length (s : string) : Z :=
  match s with
  | EmptyString => 0
  | String c s' =>
      let n := N_of_ascii c in
      (if ((128 <=? n) && (n <? 192))%N then 0 else if (240 <=? n)%N then 2 else 1) + utf16_length s'
  end.

Inductive Check :=
  | z_boolean
  | z_number (min max : Num)
  | z_int (min : Z) (max : option Z)
  | z_enum (l : list string)
  | z_string (min max : Z) (also : string → bool)
  | z_strings (max : option Z).

Definition any_text (_ : string) : bool := true.

Definition text_value (v : BodyValue) : option string := match v with BText s => Some s | _ => None end.

(** What a check makes of a value, [None] when it refuses. *)
Definition admit_value (c : Check) (v : BodyValue) : option JsValue :=
  match c, v with
  | z_boolean, BBool b => Some (VBool b)
  | z_number lo hi, BNum x => if nleb lo x && nleb x hi then Some (VNum x) else None
  | z_int lo hi, BNum x =>
      n ← BigInt_num x;
      if (lo <=? n) && from_option (λ m, n <=? m) true hi then Some (VNum x) else None
  | z_enum l, BText s => if bool_decide (s ∈ l) then Some (VText s) else None
  | z_string lo hi also, BText s =>
      if (lo <=? utf16_length s) && (utf16_length s <=? hi) && also s then Some (VText s) else None
  | z_strings hi, BArray l =>
      ts ← mapM text_value l;
      if forallb (λ s, from_option (λ m, utf16_length s <=? m) true hi) ts then Some (VTexts ts) else None
  | _, _ => None
  end.

(** A field: its check, whether [null] is a value, and its default. *)
Record Field := mkField {
  f_name : string;
  f_check : Check;
  f_nullable : bool;
  f_default : option JsValue;
}.

Definition parse_field (f : Field) (v : BodyValue) : option JsValue :=
  match v with
  | BNull => if f_nullable f then Some VNull else admit_value (f_check f) BNull
  | _ => admit_value (f_check f) v
  end.

(** ** Parsing *)

(** One field of a body: [None] when it is refused, [Some None] when it stays undefined. *)
Definition create_member (body : Body) (f : Field) : option (option JsValue) :=
  match body !! f_name f with
  | Some v => Some <$> parse_field f v
  | None => Some <$> f_default f
  end.

(** [partial]: a field that is missing stays so, whatever its default. *)
Definition patch_member (body : Body) (f : Field) : option (option JsValue) :=
  match body !! f_name f with
  | Some v => Some <$> parse_field f v
  | None => Some None
  end.

Fixpoint parse_members (member : Field → option (option JsValue)) (fields : list Field) : option Members :=
  match fields with
  | [] => Some ∅
  | f :: rest =>
      v ← member f;
      m ← parse_members member rest;
      Some (from_option (λ v, <[ f_name f := v ]> m) m v)
  end.

(** [.nullable().optional()]: [Some None] is [undefined]. *)
Definition optional_member (name : string) (c : Check) (body : Body) : option (option JsValue) :=
  match body !! name with
  | None => Some None
  | Some BNull => Some (Some VNull)
  | Some v => Some <$> admit_value c v
  end.

(** A member that must be there. *)
Definition needed {A} (name : string) (c : Check) (read : JsValue → option A) (body : Body) : option A :=
  v ← body !! name; w ← admit_value c v; read w.

Definition text_of (v : JsValue) : option string := match v with VText s => Some s | _ => None end.

Definition integer_of (v : JsValue) : option Z := match v with VNum x => BigInt_num x | _ => None end.

(** [z.coerce.number().int()] with a default *)
Definition coerced_int (Number : string → Num) (texts : list string) (fallback lo : Z) (hi : option Z) : option Z :=
  match texts with
  | [] => Some fallback
  | [s] => n ← BigInt_num (Number s); if (lo <=? n) && from_option (λ m, n <=? m) true hi then Some n else None
  | _ => None
  end.

(** ** Members and parameters, read one by one *)

(** A member that may be missing: [Some None]. *)
Definition member_opt {A} (name : string) (read : BodyValue → option A) (body : Body) : option (option A) :=
  match body !! name with None => Some None | Some v => Some <$> read v end.

(** A member with a default. *)
Definition member_or {A} (name : string) (read : BodyValue → option A) (fallback : A) (body : Body) : option A :=
  match body !! name with None => Some fallback | Some v => read v end.

Definition read_text (c : Check) (v : BodyValue) : option string := admit_value c v ≫= text_of.
Definition read_bool (v : BodyValue) : option bool := match v with BBool b => Some b | _ => None end.

(** [.nullable()]: [Some None] is [null]. *)
Definition or_null {A} (read : BodyValue → option A) (v : BodyValue) : option (option A) :=
  match v with BNull => Some None | _ => Some <$> read v end.

Definition read_integer (v : BodyValue) : option Z := match v with BNum x => BigInt_num x | _ => None end.

(** [BigInt(v)] of a value of a body, which reads an array as its text. *)
Fixpoint coerce_bigint (v : BodyValue) : option Z :=
  match v with
  | BText s => BigInt s
  | BNum x => BigInt_num x
  | BBool b => Some (if b then 1 else 0)
  | BArray [] => Some 0
  | BArray [BNull] => Some 0
  | BArray [BBool _] => None
  | BArray [w] => coerce_bigint w
  | _ => None
  end.

(** A parameter of a query: missing, or one text that is read. *)
Definition query_opt {A} (texts : list string) (read : string → option A) : option (option A) :=
  match texts with [] => Some None | [s] => Some <$> read s | _ => None end.

(** Classes of characters in regular expressions. *)
Definition has_char (p : ascii → bool) (s : string) : bool := negb (string_forallb (λ c, negb (p c)) s).
Definition is_upper (c : ascii) : bool := let n := N_of_ascii c in ((65 <=? n) && (n <=? 90))%N.
Definition is_digit (c : ascii) : bool := let n := N_of_ascii c in ((48 <=? n) && (n <=? 57))%N.
