(* ===== verification/CampaignSchema.v ===== *)
(** The settings of campaigns, [api/src/routes/campaigns/schema.ts]: the fields of a body with
    their checks and defaults, the relations between them, and the SQL fragments a filter of
    leads may be.  A body is a JSON object; its numbers are doubles, its texts UTF-8.  What
    is a URL is a parameter. *)

From Stdlib Require Import SpecFloat.
From S2P Require Import Prelude JsNumber Zod.

#[local] Open Scope Z_scope.

(** ** SQL fragments *)

(** The word characters of a regular expression. *)
Definition is_word (c : ascii) : bool :=
  let n := N_of_ascii c in
  ((48 <=? n) && (n <=? 57) || (65 <=? n) && (n <=? 90) || (97 <=? n) && (n <=? 122) || (n =? 95))%N.

Definition word_at (o : option ascii) : bool := from_option is_word false o.

Definition head_of (s : string) : option ascii := match s with EmptyString => None | String c _ => Some c end.

Fixpoint last_of (s : string) : option ascii :=
  match s with
  | EmptyString => None
  | String c EmptyString => Some c
  | String _ s' => last_of s'
  end.

(** The rest of a text after a prefix, letters compared without case. *)
Fixpoint strip_prefix (w s : string) : option string :=
  match w, s with
  | EmptyString, _ => Some s
  | String a w', String b s' => if Ascii.eqb (lower a) (lower b) then strip_prefix w' s' else None
  | String _ _, EmptyString => None
  end.

(** [\bw\b], from where the character before is [prev] *)
Fixpoint find_word (w : string) (prev : option ascii) (s : string) : bool :=
  xorb (word_at prev) (word_at (head_of s)) &&
  match strip_prefix w s with
  | Some rest => xorb (word_at (last_of w)) (word_at (head_of rest))
  | None => false
  end ||
  match s with EmptyString => false | String c s' => find_word w (Some c) s' end.

Fixpoint find_text (w s : string) : bool :=
  match strip_prefix w s with Some _ => true | None => false end ||
  match s with EmptyString => false | String _ s' => find_text w s' end.

(** [/\bw\b/i], and a pattern of signs alone *)
Inductive Pattern := Word (w : string) | Signs (t : string).

Definition test (p : Pattern) (s : string) : bool :=
  match p with Word w => find_word w None s | Signs t => find_text t s end.

Definition FORBIDDEN_SQL_PATTERNS : list Pattern :=
  [Word "DROP"; Word "TRUNCATE"; Word "ALTER"; Word "CREATE"; Word "INSERT"; Word "UPDATE"; Word "DELETE"; Word "EXEC";
   Word "EXECUTE"; Signs ";"; Signs "--"; Signs "/*"; Word "UNION"]%string.

Definition isSafeLeadFilterSql (val : string) : bool := negb (existsb (λ p, test p val) FORBIDDEN_SQL_PATTERNS).

(** ** The fields of a campaign *)

Definition DialMethodEnum : list string :=
  ["MANUAL"; "RATIO"; "PROGRESSIVE"; "ADAPT_HARD"; "ADAPT_AVG"; "ADAPT_TAPERED"]%string.
Definition NextAgentCallEnum : list string := ["longest_wait"; "random"; "fewest_calls"; "rank"]%string.
Definition RecordingModeEnum : list string := ["NEVER"; "ONDEMAND"; "ALL"; "ALLFORCE"]%string.
Definition AmdActionEnum : list string := ["drop"; "vmdrop"; "agent"]%string.
Definition PauseCodesRequiredEnum : list string := ["OFF"; "OPTIONAL"; "FORCE"]%string.
Definition UnknownTzPolicyEnum : list string := ["deny"; "warn_pass"]%string.
Definition MultiListMixEnum : list string := ["EVEN"; "MULTI"; "NONE"]%string.

Definition id_char (c : ascii) : bool := is_word c || Ascii.eqb c "-".

(** [/^[a-zA-Z0-9_-]+$/] *)
Definition campaign_id_text (s : string) : bool := negb (String.eqb s EmptyString) && string_forallb id_char s.

Section schema.
Variable is_url : string → bool.

(** The double nearest to a number of tenths. *)
Definition tenths (n : Z) : Num := ndiv (num n) (num 10).

Definition field (name : string) (c : Check) (d : JsValue) : Field := mkField name c false (Some d).
Definition nullable (name : string) (c : Check) : Field := mkField name c true (Some VNull).

Definition identifier : Check := z_int 1 None.

Definition settings_fields : list Field :=
  [field "active" z_boolean (VBool true);
   field "dial_method" (z_enum DialMethodEnum) (VText "MANUAL");
   field "auto_dial_level" (z_number (num 0) (num 10)) (VNum (num 0));
   field "adaptive_max_level" (z_number (num 0) (num 10)) (VNum (num 3));
   field "adaptive_drop_pct" (z_number (num 0) (num 100)) (VNum (tenths 15));
   field "dial_timeout_sec" (z_int 5 (Some 120)) (VNum (num 22));
   field "wrapup_seconds" (z_int 0 (Some 600)) (VNum (num 10));
   field "next_agent_call" (z_enum NextAgentCallEnum) (VText "longest_wait");
   field "available_only_tally" z_boolean (VBool false);
   field "hopper_size_target" (z_int 0 None) (VNum (num 0));
   field "hopper_multiplier" (z_number (tenths 1) (num 10)) (VNum (num 2));
   nullable "caller_id_carrier_id" identifier;
   nullable "caller_id_override" (z_string 0 16 any_text);
   field "recording_mode" (z_enum RecordingModeEnum) (VText "ALL");
   field "amd_enabled" z_boolean (VBool false);
   field "amd_action" (z_enum AmdActionEnum) (VText "drop");
   nullable "vmdrop_audio" (z_string 0 255 any_text);
   nullable "safe_harbor_audio" (z_string 0 255 any_text);
   nullable "script_id" identifier;
   nullable "webform_url" (z_string 0 512 is_url);
   field "dial_status_filter" (z_strings None) (VTexts []);
   nullable "call_time_id" identifier;
   field "use_internal_dnc" z_boolean (VBool true);
   field "use_federal_dnc" z_boolean (VBool true);
   field "use_state_dnc" z_boolean (VBool true);
   field "pause_codes_required" (z_enum PauseCodesRequiredEnum) (VText "OPTIONAL");
   field "hot_keys_active" z_boolean (VBool true);
   field "closer_ingroups" (z_strings None) (VTexts []);
   field "unknown_tz_policy" (z_enum UnknownTzPolicyEnum) (VText "deny");
   field "dial_level" (z_number (tenths 1) (num 10)) (VNum (tenths 15));
   field "lock_ttl_sec" (z_int 5 (Some 120)) (VNum (num 30));
   field "min_hopper_level" (z_int 0 None) (VNum (num 50));
   field "max_hopper_level" (z_int 1 None) (VNum (num 5000));
   field "hopper_buffer_multiplier" (z_number (tenths 1) (num 10)) (VNum (tenths 15));
   field "recycle_delay_seconds" (z_int 0 None) (VNum (num 600));
   field "max_calls_per_lead" (z_int 1 (Some 127)) (VNum (num 5));
   field "dial_statuses" (z_strings (Some 8)) (VTexts ["NEW"; "NA"; "B"; "CALLBK"]);
   field "low_water_pct" (z_int 1 (Some 100)) (VNum (num 25));
   field "high_water_pct" (z_int 1 (Some 100)) (VNum (num 90));
   field "over_fetch_ratio" (z_number (tenths 1) (num 10)) (VNum (tenths 15));
   field "machine_terminal" z_boolean (VBool true);
   nullable "lead_filter_sql" (z_string 0 4096 isSafeLeadFilterSql);
   field "multi_list_mix" (z_enum MultiListMixEnum) (VText "EVEN")]%string.

Definition name_field : Field := mkField "name" (z_string 1 128 any_text) false None.
Definition id_field : Field := mkField "id" (z_string 1 32 campaign_id_text) false None.

(** [CampaignBaseObject], and without its [id] *)
Definition patch_fields : list Field := name_field :: settings_fields.
Definition CampaignBaseObject : list Field := id_field :: patch_fields.

(** ** Relations *)

(** [data.x !== undefined && data.y !== undefined && refused] *)
Definition both (data : Members) (x y : string) (refused : Num → Num → bool) : bool :=
  match data !! x, data !! y with Some (VNum a), Some (VNum b) => refused a b | _, _ => false end.

Definition addCrossFieldValidation (data : Members) : bool :=
  negb (both data "lock_ttl_sec" "dial_timeout_sec" (λ l d, nleb l (nadd d (num 5)))) &&
  negb (both data "min_hopper_level" "max_hopper_level" (λ lo hi, nltb hi lo)) &&
  negb (both data "low_water_pct" "high_water_pct" (λ lo hi, nleb hi lo)).

(** What a body is: an object with its members, or another value. *)
Definition CampaignCreateSchema (body : option Body) : option Members :=
  b ← body;
  data ← parse_members (create_member b) CampaignBaseObject;
  if addCrossFieldValidation data then Some data else None.

Definition CampaignUpdateSchema (body : option Body) : option Members :=
  b ← body;
  data ← parse_members (patch_member b) patch_fields;
  if addCrossFieldValidation data then Some data else None.

End schema.

(** ** The other bodies and the query *)

Record StatusOverrideUpsertInput := mkOverrideInput {
  oi_status_code : string;
  oi_recycle_delay_seconds : option JsValue;
  oi_max_calls : option JsValue;
  oi_notes : option JsValue;
}.

Definition StatusOverrideUpsertSchema (body : Body) : option StatusOverrideUpsertInput :=
  code ← needed "status_code" (z_string 1 8 any_text) text_of body;
  delay ← optional_member "recycle_delay_seconds" (z_int 0 None) body;
  calls ← optional_member "max_calls" (z_int 0 (Some 127)) body;
  notes ← optional_member "notes" (z_string 0 255 any_text) body;
  Some (mkOverrideInput code delay calls notes).

(** [list_id] and [priority]; an identifier has no upper bound. *)
Definition CampaignListLinkSchema (body : option Body) : option (Z * Z) :=
  b ← body;
  list_id ← needed "list_id" identifier integer_of b;
  priority ← match b !! "priority" with
             | None => Some 0
             | Some _ => needed "priority" (z_int 0 (Some 32767)) integer_of b
             end;
  Some (list_id, priority).

Inductive CampaignAction := start | pause | stop.

Definition CampaignActionSchema (body : option Body) : option CampaignAction :=
  b ← body;
  action ← needed "action" (z_enum ["start"; "pause"; "stop"]%string) text_of b;
  Some (if String.eqb action "start" then start else if String.eqb action "pause" then pause else stop).

(** The texts a query gives a parameter. *)
Record CampaignListQuery := mkCampaignQuery {
  cq_active : option bool;
  cq_dial_method : option string;
  cq_limit : Z;
  cq_offset : Z;
}.

Definition CampaignListQuerySchema (Number : string → Num) (query : string → list string) : option CampaignListQuery :=
  active ← match query "active" with [] => Some None | [s] => Some (Some (String.eqb s "true")) | _ => None end;
  dial_method ← match query "dial_method" with
                | [] => Some None
                | [s] => if bool_decide (s ∈ DialMethodEnum) then Some (Some s) else None
                | _ => None
                end;
  limit ← coerced_int Number (query "limit") 50 1 (Some 200);
  offset ← coerced_int Number (query "offset") 0 0 None;
  Some (mkCampaignQuery active dial_method limit offset).
