(* ===== verification/Campaigns.v ===== *)
(** Campaigns, [api/src/routes/campaigns/service.ts] with its routes ([index.ts]) and audit
    actions ([audit.ts]): their settings as columns of a table, creation, patches, deletion,
    clones, starting and stopping, the lists linked to a campaign and the delays of statuses
    it overrides.

    An operation is a function of the tables that may throw; a transaction gives them back
    when it does.  Objects of columns are finite maps, as the code builds them.  The server
    ([CampaignServer]) is a parameter: what texts its columns accept, its collation, and what
    the library does to a patch of nothing.  Identifiers and status codes of requests are in
    the spelling of their tables. *)

From Stdlib Require Import SpecFloat.
From S2P Require Import Prelude StateError JsNumber Zod CampaignSchema Rbac Auth.

#[local] Open Scope Z_scope.

Record CampaignServer := mkCampaignServer {
  (** a text of at most so many characters *)
  fits : Z → string → bool;
  same_id : string → string → bool;
  text_le : string → string → bool;
  (** whether an update of no column sets [updated_at] *)
  touches_empty : bool;
  url_text : string → bool;
  number_text : string → Num;
}.

(** ** Building the columns of a campaign *)

(** [v.toFixed(2)] as hundredths; of two nearest ones the greater in size. *)
Definition toDecimal (v : Num) : Z :=
  match v with
  | S754_finite s m e => cond_Zopp s (nearest (100 * Zpos m) e)
  | _ => 0
  end.

Inductive Conversion := keep | to_decimal | to_bigint.

Definition convert (c : Conversion) (v : JsValue) : JsValue :=
  match c, v with
  | to_decimal, VNum x => VDec (toDecimal x)
  | to_bigint, VNum x => match BigInt_num x with Some n => VBig n | None => v end
  | _, _ => v
  end.

(** The assignments of [buildCampaignData]: from a member of the input to a column. *)
Record Assignment := mkAssign { as_field : string; as_column : string; as_conversion : Conversion }.

Definition assignments : list Assignment :=
  [mkAssign "name" "name" keep;
   mkAssign "active" "active" keep;
   mkAssign "dial_method" "dialMethod" keep;
   mkAssign "auto_dial_level" "autoDialLevel" to_decimal;
   mkAssign "adaptive_max_level" "adaptiveMaxLevel" to_decimal;
   mkAssign "adaptive_drop_pct" "adaptiveDropPct" to_decimal;
   mkAssign "dial_timeout_sec" "dialTimeoutSec" keep;
   mkAssign "wrapup_seconds" "wrapupSeconds" keep;
   mkAssign "next_agent_call" "nextAgentCall" keep;
   mkAssign "available_only_tally" "availableOnlyTally" keep;
   mkAssign "hopper_size_target" "hopperSizeTarget" keep;
   mkAssign "hopper_multiplier" "hopperMultiplier" to_decimal;
   mkAssign "caller_id_carrier_id" "callerIdCarrierId" to_bigint;
   mkAssign "caller_id_override" "callerIdOverride" keep;
   mkAssign "recording_mode" "recordingMode" keep;
   mkAssign "amd_enabled" "amdEnabled" keep;
   mkAssign "amd_action" "amdAction" keep;
   mkAssign "vmdrop_audio" "vmdropAudio" keep;
   mkAssign "safe_harbor_audio" "safeHarborAudio" keep;
   mkAssign "script_id" "scriptId" to_bigint;
   mkAssign "webform_url" "webformUrl" keep;
   mkAssign "dial_status_filter" "dialStatusFilter" keep;
   mkAssign "call_time_id" "callTimeId" to_bigint;
   mkAssign "use_internal_dnc" "useInternalDnc" keep;
   mkAssign "use_federal_dnc" "useFederalDnc" keep;
   mkAssign "use_state_dnc" "useStateDnc" keep;
   mkAssign "pause_codes_required" "pauseCodesRequired" keep;
   mkAssign "hot_keys_active" "hotKeysActive" keep;
   mkAssign "closer_ingroups" "closerIngroups" keep;
   mkAssign "unknown_tz_policy" "unknownTzPolicy" keep;
   mkAssign "dial_level" "dialLevel" to_decimal;
   mkAssign "lock_ttl_sec" "lockTtlSec" keep;
   mkAssign "min_hopper_level" "minHopperLevel" keep;
   mkAssign "max_hopper_level" "maxHopperLevel" keep;
   mkAssign "hopper_buffer_multiplier" "hopperBufferMultiplier" to_decimal;
   mkAssign "recycle_delay_seconds" "recycleDelaySeconds" keep;
   mkAssign "max_calls_per_lead" "maxCallsPerLead" keep;
   mkAssign "dial_statuses" "dialStatuses" keep;
   mkAssign "low_water_pct" "lowWaterPct" keep;
   mkAssign "high_water_pct" "highWaterPct" keep;
   mkAssign "over_fetch_ratio" "overFetchRatio" to_decimal;
   mkAssign "machine_terminal" "machineTerminal" keep;
   mkAssign "lead_filter_sql" "leadFilterSql" keep;
   mkAssign "multi_list_mix" "multiListMix" keep]%string.

Definition assign (input : Members) (a : Assignment) (d : Members) : Members :=
  match input !! as_field a with
  | Some v => <[ as_column a := convert (as_conversion a) v ]> d
  | None => d
  end.

Definition buildCampaignData (input : Members) : Members := foldr (assign input) ∅ assignments.

(** ** The table, [schema.prisma] *)

Inductive ColumnType :=
  | t_bool
  | t_int (lo hi : Z)
  | t_bigint
  | t_decimal (below step : Z)   (** hundredths below [below], rounded to [step] *)
  | t_text (n : Z)
  | t_long_text
  | t_enum (l : list string)
  | t_json
  | t_date.

Record Column := mkColumn { c_name : string; c_type : ColumnType; c_required : bool }.

Definition int32 : ColumnType := t_int (-2147483648) 2147483647.
Definition small_int : ColumnType := t_int (-32768) 32767.
Definition unsigned_small : ColumnType := t_int 0 65535.
Definition tiny_int : ColumnType := t_int (-128) 127.
Definition decimal_4_2 : ColumnType := t_decimal 10000 1.
Definition decimal_3_2 : ColumnType := t_decimal 1000 1.
Definition decimal_3_1 : ColumnType := t_decimal 10000 10.

Definition required_column (name : string) (t : ColumnType) : Column := mkColumn name t true.
Definition optional_column (name : string) (t : ColumnType) : Column := mkColumn name t false.

(** The columns beside the key and the time stamps. *)
Definition campaign_columns : list Column :=
  [required_column "name" (t_text 128);
   required_column "active" t_bool;
   required_column "dialMethod" (t_enum DialMethodEnum);
   required_column "autoDialLevel" decimal_4_2;
   required_column "adaptiveMaxLevel" decimal_4_2;
   required_column "dropTargetMax" decimal_4_2;
   required_column "dialTimeoutSec" small_int;
   required_column "wrapupSeconds" small_int;
   required_column "autoReadyAfterWrapup" t_bool;
   required_column "previewAllowedSeconds" small_int;
   required_column "nextAgentCall" (t_enum NextAgentCallEnum);
   required_column "availableOnlyTally" t_bool;
   required_column "hopperSizeTarget" int32;
   required_column "hopperMultiplier" decimal_3_1;
   optional_column "callerIdCarrierId" t_bigint;
   optional_column "callerIdOverride" (t_text 16);
   required_column "recordingMode" (t_enum RecordingModeEnum);
   required_column "amdEnabled" t_bool;
   required_column "amdAction" (t_enum AmdActionEnum);
   optional_column "vmdropAudio" (t_text 255);
   optional_column "vmdropAssetId" t_bigint;
   required_column "vmdropRequiresConsent" t_bool;
   optional_column "safeHarborAudio" (t_text 255);
   optional_column "scriptId" t_bigint;
   optional_column "webformUrl" (t_text 512);
   required_column "dialStatusFilter" t_json;
   optional_column "callTimeId" t_bigint;
   required_column "useInternalDnc" t_bool;
   required_column "useFederalDnc" t_bool;
   required_column "useStateDnc" t_bool;
   required_column "pauseCodesRequired" (t_enum PauseCodesRequiredEnum);
   required_column "hotKeysActive" t_bool;
   required_column "closerIngroups" t_json;
   required_column "unknownTzPolicy" (t_enum UnknownTzPolicyEnum);
   required_column "dialLevel" decimal_4_2;
   required_column "lockTtlSec" small_int;
   required_column "minHopperLevel" int32;
   required_column "maxHopperLevel" int32;
   required_column "hopperBufferMultiplier" decimal_3_1;
   required_column "recycleDelaySeconds" int32;
   required_column "maxCallsPerLead" tiny_int;
   required_column "dialStatuses" t_json;
   required_column "lowWaterPct" tiny_int;
   required_column "highWaterPct" tiny_int;
   required_column "overFetchRatio" decimal_3_1;
   required_column "machineTerminal" t_bool;
   optional_column "leadFilterSql" t_long_text;
   required_column "multiListMix" (t_enum MultiListMixEnum);
   optional_column "consentPolicyOverride" (t_enum ["ALLOW"; "PROMPT_BEEP"; "PROMPT_MESSAGE"; "REQUIRE_ACTIVE"; "SKIP"]%string);
   required_column "recordingPurpose" (t_enum ["general"; "training"; "quality_control"; "monitoring"]%string);
   required_column "optOutAction" (t_enum ["continue_no_record"; "hangup"]%string);
   optional_column "consentMsgAudio" (t_text 255);
   required_column "callsPerSecond" unsigned_small;
   required_column "rampUpFactor" decimal_4_2;
   required_column "minCallBufferSeconds" decimal_4_2;
   required_column "pacingTickMs" unsigned_small;
   required_column "leadLockTtlSeconds" int32;
   required_column "callStrategy" (t_enum NextAgentCallEnum);
   required_column "adaptiveIntensity" tiny_int;
   required_column "adaptiveDlDiffTarget" tiny_int;
   required_column "adaptTickSeconds" unsigned_small;
   required_column "holdBandPp" decimal_3_2;
   required_column "warmupMinAnswered" unsigned_small;
   required_column "warmupMinSeconds" unsigned_small;
   required_column "dropGatedDebounceSec" unsigned_small;
   optional_column "shiftStartLocal" t_date;
   optional_column "shiftEndLocal" t_date;
   required_column "dropTargetSoft" decimal_4_2;
   optional_column "dropTargetMaxOverride" decimal_4_2;
   required_column "recoverSeconds" int32;
   required_column "countEarlyCustomerHangupAsDrop" t_bool;
   required_column "callbackNoAnswerPolicy" (t_enum ["leave_callbk"; "reschedule_24h"; "terminate_NA"]%string);
   required_column "callbackGraceWindowSeconds" int32;
   required_column "callbackStaleThresholdSeconds" int32;
   required_column "rndAutoScrub" t_bool;
   optional_column "rndLastScrubAt" t_date;
   optional_column "rndLastScrubId" (t_text 26);
   required_column "rndScrubStatus"
     (t_enum ["never"; "pending"; "running"; "completed"; "failed"; "paused_budget"]%string);
   required_column "useReassignedDnc" t_bool;
   optional_column "numberPoolId" t_bigint;
   optional_column "fsNodeId" (t_int 0 4294967295)]%string.

Record CampaignRow := mkCampaign {
  cr_tenantId : Z;
  cr_id : string;
  cr_columns : Members;
  cr_createdAt : Z;
  cr_updatedAt : Z;
}.

Record CampaignList := mkCampaignList {
  cl_priority : Z;
  cl_active : bool;
  cl_createdAt : Z;
}.

Record StatusOverride := mkOverride {
  so_recycleDelaySeconds : JsValue;
  so_maxCalls : JsValue;
  so_notes : JsValue;
  so_createdAt : Z;
  so_updatedAt : Z;
}.

(** What an audit row holds before and after. *)
Inductive AuditJson :=
  | no_json
  | campaign_json (fields : list (string * JsValue)) (lists : option (list (Z * Z)))
      (overrides : option (list (string * StatusOverride)))
  | members_json (fields : list (string * JsValue)).

Record CampaignAudit := mkCampaignAudit {
  au_action : string;
  au_tenantId : Z;
  au_actorUserId : Z;
  au_entityId : string;
  au_before : AuditJson;
  au_after : AuditJson;
}.

(** [known]: the rows other tables have, by the column that names them; [held]: campaigns
    that a callback, a disposition or a script names; [list_tenants]: the lists with their
    tenants. *)
Record CampaignDb := mkCampaignDb {
  campaign_rows : gmap (Z * string) CampaignRow;
  campaign_lists : gmap (Z * string * Z) CampaignList;
  status_overrides : gmap (Z * string * string) StatusOverride;
  list_tenants : gmap Z Z;
  known : gmap string (gset Z);
  held : gset (Z * string);
  campaign_audits : list CampaignAudit;
}.

Definition with_campaigns (m : gmap (Z * string) CampaignRow) (db : CampaignDb) : CampaignDb :=
  mkCampaignDb m (campaign_lists db) (status_overrides db) (list_tenants db) (known db) (held db) (campaign_audits db).
Definition with_links (m : gmap (Z * string * Z) CampaignList) (db : CampaignDb) : CampaignDb :=
  mkCampaignDb (campaign_rows db) m (status_overrides db) (list_tenants db) (known db) (held db) (campaign_audits db).
Definition with_overrides (m : gmap (Z * string * string) StatusOverride) (db : CampaignDb) : CampaignDb :=
  mkCampaignDb (campaign_rows db) (campaign_lists db) m (list_tenants db) (known db) (held db) (campaign_audits db).
Definition with_audit (a : CampaignAudit) (db : CampaignDb) : CampaignDb :=
  mkCampaignDb (campaign_rows db) (campaign_lists db) (status_overrides db) (list_tenants db) (known db) (held db)
    (campaign_audits db ++ [a]).

(** The database's codes for a key that exists and a reference to no row; everything else
    that throws. *)
Inductive CampaignError := P2002 | P2003 | Thrown.

Definition Op (A : Type) : Type := SE CampaignDb CampaignError A.

Section service.
Variable server : CampaignServer.

(** ** What the database accepts *)

Definition find_column (name : string) : option Column := List.find (λ c, String.eqb (c_name c) name) campaign_columns.

(** The nearest multiple of [step] of hundredths, halves away from zero. *)
Definition round_to (step h : Z) : Z := Z.sgn h * (step * ((2 * Z.abs h + step) / (2 * step))).

(** What a column of a type keeps of a value. *)
Definition stored (t : ColumnType) (v : JsValue) : option JsValue :=
  match t, v with
  | t_bool, VBool _ => Some v
  | t_int lo hi, VNum x => n ← BigInt_num x; if (lo <=? n) && (n <=? hi) then Some v else None
  | t_bigint, VBig n => if (-9223372036854775808 <=? n) && (n <=? 9223372036854775807) then Some v else None
  | t_decimal below step, VDec h =>
      let h' := round_to step h in if Z.abs h' <? below then Some (VDec h') else None
  | t_text n, VText s => if fits server n s then Some v else None
  | t_long_text, VText s => if Z.of_nat (String.length s) <=? 65535 then Some v else None
  | t_enum l, VText s => if bool_decide (s ∈ l) then Some v else None
  | t_json, VTexts _ => Some v
  | t_date, VDate _ => Some v
  | _, _ => None
  end.

Definition store_column (name : string) (v : JsValue) : option JsValue :=
  c ← find_column name;
  match v with VNull => if c_required c then None else Some VNull | _ => stored (c_type c) v end.

(** The columns of some data; [None] when one does not exist or refuses its value. *)
Definition store_columns (data : Members) : option Members :=
  if bool_decide (map_Forall (λ k v, is_Some (store_column k v)) data) then Some (map_imap store_column data) else None.

Definition has_all_columns (data : Members) : bool :=
  forallb (λ c, negb (c_required c) || bool_decide (is_Some (data !! c_name c))) campaign_columns.

(** Columns that are not given are [NULL]; required ones have no defaults here, since [rest]
    of a clone gives them all. *)
Definition reference_columns : list string :=
  ["callerIdCarrierId"; "vmdropAssetId"; "scriptId"; "callTimeId"; "numberPoolId"; "fsNodeId"]%string.

Definition key_of (v : JsValue) : option Z :=
  match v with VBig n => Some n | VNum x => BigInt_num x | _ => None end.

Definition references_known (data : Members) (db : CampaignDb) : bool :=
  forallb (λ c, match data !! c with
                | Some v => from_option (λ n, bool_decide (n ∈ default ∅ (known db !! c))) true (key_of v)
                | None => true
                end) reference_columns.

(** [campaign.create] of a row with all its columns *)
Definition insert_campaign (tenantId : Z) (id : string) (data : Members) (now : Z) : Op CampaignRow :=
  cols ← require (store_columns data) Thrown;
  _ ← check (has_all_columns cols && fits server 32 id) Thrown;
  taken ← asks (λ db, existsb (λ k : Z * string, (k.1 =? tenantId) && same_id server id k.2)
                        (elements (dom (campaign_rows db))));
  _ ← check (negb taken) P2002;
  refs ← asks (references_known cols);
  _ ← check refs P2003;
  let row := mkCampaign tenantId id cols now now in
  _ ← update (λ db, with_campaigns (<[ (tenantId, id) := row ]> (campaign_rows db)) db);
  mret row.

(** [campaign.update] of a row that is there *)
Definition write_campaign (row : CampaignRow) (data : Members) (now : Z) : Op CampaignRow :=
  cols ← require (store_columns data) Thrown;
  refs ← asks (references_known cols);
  _ ← check refs P2003;
  let updated := if bool_decide (data = ∅) && negb (touches_empty server) then cr_updatedAt row else now in
  let row' := mkCampaign (cr_tenantId row) (cr_id row) (cols ∪ cr_columns row) (cr_createdAt row) updated in
  _ ← update (λ db, with_campaigns (<[ (cr_tenantId row, cr_id row) := row' ]> (campaign_rows db)) db);
  mret row'.

Definition find_campaign (tenantId : Z) (id : string) (db : CampaignDb) : option CampaignRow :=
  campaign_rows db !! (tenantId, id).

(** The rows a relation includes. *)
Definition lists_of (tenantId : Z) (id : string) (db : CampaignDb) : list (Z * CampaignList) :=
  omap (λ kl : Z * string * Z * CampaignList,
          if (kl.1.1.1 =? tenantId) && String.eqb kl.1.1.2 id then Some (kl.1.2, kl.2) else None)
    (map_to_list (campaign_lists db)).

Definition overrides_of (tenantId : Z) (id : string) (db : CampaignDb) : list (string * StatusOverride) :=
  omap (λ kl : Z * string * string * StatusOverride,
          if (kl.1.1.1 =? tenantId) && String.eqb kl.1.1.2 id then Some (kl.1.2, kl.2) else None)
    (map_to_list (status_overrides db)).

(** ** Serialization *)

Inductive Reading := as_is | as_number | as_optional_number.

(** [Number(v)], [NaN] of [undefined] *)
Definition to_number (v : option JsValue) : JsValue :=
  match v with
  | Some (VDec h) => VNum (num_of_decimal h)
  | Some (VBig n) => VNum (num n)
  | Some (VNum x) => VNum x
  | Some VNull => VNum (num 0)
  | _ => VNum NaN
  end.

Definition read_as (r : Reading) (v : option JsValue) : option JsValue :=
  match r with
  | as_is => v
  | as_number => Some (to_number v)
  | as_optional_number =>
      match v with Some (VBig n) => Some (if n =? 0 then VNull else VNum (num n)) | _ => Some VNull end
  end.

Definition serialized_columns : list (string * string * Reading) :=
  [("name", "name", as_is); ("active", "active", as_is); ("dial_method", "dialMethod", as_is);
   ("auto_dial_level", "autoDialLevel", as_number); ("adaptive_max_level", "adaptiveMaxLevel", as_number);
   ("adaptive_drop_pct", "adaptiveDropPct", as_number); ("dial_timeout_sec", "dialTimeoutSec", as_is);
   ("wrapup_seconds", "wrapupSeconds", as_is); ("next_agent_call", "nextAgentCall", as_is);
   ("available_only_tally", "availableOnlyTally", as_is); ("hopper_size_target", "hopperSizeTarget", as_is);
   ("hopper_multiplier", "hopperMultiplier", as_number);
   ("caller_id_carrier_id", "callerIdCarrierId", as_optional_number);
   ("caller_id_override", "callerIdOverride", as_is); ("recording_mode", "recordingMode", as_is);
   ("amd_enabled", "amdEnabled", as_is); ("amd_action", "amdAction", as_is); ("vmdrop_audio", "vmdropAudio", as_is);
   ("safe_harbor_audio", "safeHarborAudio", as_is); ("script_id", "scriptId", as_optional_number);
   ("webform_url", "webformUrl", as_is); ("dial_status_filter", "dialStatusFilter", as_is);
   ("call_time_id", "callTimeId", as_optional_number); ("use_internal_dnc", "useInternalDnc", as_is);
   ("use_federal_dnc", "useFederalDnc", as_is); ("use_state_dnc", "useStateDnc", as_is);
   ("pause_codes_required", "pauseCodesRequired", as_is); ("hot_keys_active", "hotKeysActive", as_is);
   ("closer_ingroups", "closerIngroups", as_is); ("unknown_tz_policy", "unknownTzPolicy", as_is);
   ("dial_level", "dialLevel", as_number); ("lock_ttl_sec", "lockTtlSec", as_is);
   ("min_hopper_level", "minHopperLevel", as_is); ("max_hopper_level", "maxHopperLevel", as_is);
   ("hopper_buffer_multiplier", "hopperBufferMultiplier", as_number);
   ("recycle_delay_seconds", "recycleDelaySeconds", as_is); ("max_calls_per_lead", "maxCallsPerLead", as_is);
   ("dial_statuses", "dialStatuses", as_is); ("low_water_pct", "lowWaterPct", as_is);
   ("high_water_pct", "highWaterPct", as_is); ("over_fetch_ratio", "overFetchRatio", as_number);
   ("machine_terminal", "machineTerminal", as_is); ("lead_filter_sql", "leadFilterSql", as_is);
   ("multi_list_mix", "multiListMix", as_is)]%string.

(** What JSON has of a number that is not finite. *)
Definition json_value (v : JsValue) : JsValue :=
  match v with VNum x => if is_finite x then v else VNull | _ => v end.

Definition serialize_fields (c : CampaignRow) : list (string * JsValue) :=
  [("tenant_id", VNum (num (cr_tenantId c))); ("id", VText (cr_id c))]%string ++
  omap (λ s : string * string * Reading, (λ v, (s.1.1, json_value v)) <$> read_as s.2 (cr_columns c !! s.1.2))
    serialized_columns ++
  [("created_at", VDate (cr_createdAt c)); ("updated_at", VDate (cr_updatedAt c))]%string.

Definition link_json (l : Z * CampaignList) : Z * Z := (l.1, cl_priority l.2).

(** [serializeCampaign], with the relations and without. *)
Definition serializeCampaign (c : CampaignRow) (db : CampaignDb) : AuditJson :=
  campaign_json (serialize_fields c) (Some (link_json <$> lists_of (cr_tenantId c) (cr_id c) db))
    (Some (overrides_of (cr_tenantId c) (cr_id c) db)).

Definition serialize_bare (c : CampaignRow) : AuditJson := campaign_json (serialize_fields c) None None.

(** ** The operations *)

(** Who asks, and what an audit row keeps of the request. *)
Record Actor := mkActor {
  ac_tenantId : Z;
  ac_uid : Z;
  ac_requestId : option string;
  ac_ip : option string;
  ac_userAgent : option string;
  ac_now : Z;
}.

Definition opt_fits (n : Z) (o : option string) : bool := from_option (fits server n) true o.

Definition auditCampaign (who : Actor) (action entityId : string) (before after : AuditJson) : Op unit :=
  _ ← check (fits server 64 entityId && opt_fits 64 (ac_requestId who) && opt_fits 45 (ac_ip who) &&
             opt_fits 255 (ac_userAgent who)) Thrown;
  update (with_audit (mkCampaignAudit action (ac_tenantId who) (ac_uid who) entityId before after)).

Definition campaign_le (a b : CampaignRow) : bool :=
  match cr_columns a !! "name"%string, cr_columns b !! "name"%string with
  | Some (VText x), Some (VText y) => text_le server x y
  | _, _ => true
  end.

Definition listed (tenantId : Z) (q : CampaignListQuery) (c : CampaignRow) : bool :=
  (cr_tenantId c =? tenantId) &&
  from_option (λ b, bool_decide (cr_columns c !! "active"%string = Some (VBool b))) true (cq_active q) &&
  from_option (λ m, bool_decide (cr_columns c !! "dialMethod"%string = Some (VText m))) true (cq_dial_method q).

Definition listCampaigns (tenantId : Z) (q : CampaignListQuery) (db : CampaignDb) : list AuditJson * Z :=
  let rows := List.filter (listed tenantId q) (snd <$> map_to_list (campaign_rows db)) in
  ((λ c, serializeCampaign c db) <$>
     take (Z.to_nat (cq_limit q)) (drop (Z.to_nat (cq_offset q)) (sort_by campaign_le rows)),
   Z.of_nat (length rows)).

Definition getCampaign (tenantId : Z) (id : string) (db : CampaignDb) : option AuditJson :=
  (λ c, serializeCampaign c db) <$> find_campaign tenantId id db.

Definition createCampaign (who : Actor) (id : string) (input : Members) : Op AuditJson :=
  transaction (
    row ← insert_campaign (ac_tenantId who) id (buildCampaignData input) (ac_now who);
    after ← asks (serializeCampaign row);
    _ ← auditCampaign who "campaign.created" id no_json after;
    mret after).

Definition updateCampaign (who : Actor) (id : string) (input : Members) : Op (option AuditJson) :=
  found ← asks (find_campaign (ac_tenantId who) id);
  match found with
  | None => mret None
  | Some existing =>
      transaction (
        row ← write_campaign existing (buildCampaignData input) (ac_now who);
        after ← asks (serializeCampaign row);
        _ ← auditCampaign who "campaign.updated" id (serialize_bare existing) after;
        mret (Some after))
  end.

(** [campaign.delete]: the rows that depend on it go with it; a callback, a disposition or a
    script keeps it. *)
Definition remove_campaign (tenantId : Z) (id : string) : Op unit :=
  used ← asks (λ db, bool_decide ((tenantId, id) ∈ held db));
  _ ← check (negb used) P2003;
  _ ← update (λ db, with_links (filter (λ kl, kl.1.1 ≠ (tenantId, id)) (campaign_lists db)) db);
  _ ← update (λ db, with_overrides (filter (λ ko, ko.1.1 ≠ (tenantId, id)) (status_overrides db)) db);
  update (λ db, with_campaigns (delete (tenantId, id) (campaign_rows db)) db).

Definition deleteCampaign (who : Actor) (id : string) : Op bool :=
  found ← asks (find_campaign (ac_tenantId who) id);
  match found with
  | None => mret false
  | Some existing =>
      transaction (
        _ ← remove_campaign (ac_tenantId who) id;
        _ ← auditCampaign who "campaign.deleted" id (serialize_bare existing) no_json;
        mret true)
  end.

(** [campaignList.createMany] and [campaignStatusOverride.createMany] of a campaign that has
    none *)
Definition copy_links (tenantId : Z) (newId : string) (now : Z) (links : list (Z * CampaignList)) : Op unit :=
  update (λ db, with_links
    (foldr (λ l, <[ (tenantId, newId, l.1) := mkCampaignList (cl_priority l.2) true now ]>) (campaign_lists db) links) db).

Definition copy_overrides (tenantId : Z) (newId : string) (now : Z) (l : list (string * StatusOverride)) : Op unit :=
  update (λ db, with_overrides
    (foldr (λ o, <[ (tenantId, newId, o.1) := mkOverride (so_recycleDelaySeconds o.2) (so_maxCalls o.2) (so_notes o.2)
                                               now now ]>) (status_overrides db) l) db).

Definition cloneCampaign (who : Actor) (sourceId newId newName : string) : Op (option AuditJson) :=
  found ← asks (find_campaign (ac_tenantId who) sourceId);
  match found with
  | None => mret None
  | Some source =>
      links ← asks (lists_of (ac_tenantId who) sourceId);
      overrides ← asks (overrides_of (ac_tenantId who) sourceId);
      transaction (
        newRow ← insert_campaign (ac_tenantId who) newId
                   (<[ "active"%string := VBool false ]> (<[ "name"%string := VText newName ]> (cr_columns source)))
                   (ac_now who);
        cloned ← asks (serializeCampaign newRow);
        _ ← copy_links (ac_tenantId who) newId (ac_now who) links;
        _ ← copy_overrides (ac_tenantId who) newId (ac_now who) overrides;
        _ ← auditCampaign who "campaign.cloned" newId no_json
              (members_json [("source_id", VText sourceId); ("new_id", VText newId); ("name", VText newName)]%string);
        mret (Some cloned))
  end.

Definition applyCampaignAction (who : Actor) (id : string) (action : CampaignAction) : Op (option AuditJson) :=
  found ← asks (find_campaign (ac_tenantId who) id);
  match found with
  | None => mret None
  | Some existing =>
      let active := match action with start => true | _ => false end in
      let auditAction := match action with
                         | start => "campaign.started"
                         | pause => "campaign.paused"
                         | stop => "campaign.stopped"
                         end%string in
      transaction (
        row ← write_campaign existing {[ "active"%string := VBool active ]} (ac_now who);
        after ← asks (serializeCampaign row);
        _ ← auditCampaign who auditAction id
              (members_json (from_option (λ v, [("active"%string, v)]) [] (cr_columns existing !! "active"%string)))
              (members_json [("active"%string, VBool active)]);
        mret (Some after))
  end.

(** ** Lists of a campaign *)

(** A 64-bit identifier *)
Definition bigint_fits (n : Z) : bool := (-9223372036854775808 <=? n) && (n <=? 9223372036854775807).

Definition put_link (key : Z * string * Z) (l : CampaignList) : Op unit :=
  update (λ db, with_links (<[ key := l ]> (campaign_lists db)) db).

(** The upsert; a new link needs its campaign and its list. *)
Definition linkList (who : Actor) (id : string) (list_id priority : Z) : Op unit :=
  transaction (
    _ ← check (bigint_fits list_id) Thrown;
    let key := (ac_tenantId who, id, list_id) in
    existing ← asks (λ db, campaign_lists db !! key);
    _ ← match existing with
        | Some l => put_link key (mkCampaignList priority (cl_active l) (cl_createdAt l))
        | None =>
            there ← asks (λ db, bool_decide (is_Some (find_campaign (ac_tenantId who) id db)) &&
                                bool_decide (is_Some (list_tenants db !! list_id)));
            _ ← check there P2003;
            put_link key (mkCampaignList priority true (ac_now who))
        end;
    auditCampaign who "campaign.list.linked" id no_json
      (members_json [("list_id", VNum (num list_id)); ("priority", VNum (num priority))]%string)).

Definition unlinkList (who : Actor) (id : string) (listId : Z) : Op bool :=
  _ ← check (bigint_fits listId) Thrown;
  let key := (ac_tenantId who, id, listId) in
  existing ← asks (λ db, campaign_lists db !! key);
  match existing with
  | None => mret false
  | Some _ =>
      transaction (
        _ ← update (λ db, with_links (delete key (campaign_lists db)) db);
        _ ← auditCampaign who "campaign.list.unlinked" id no_json (members_json [("list_id"%string, VNum (num listId))]);
        mret true)
  end.

(** ** Statuses overridden *)

(** [INT] and [TINYINT] columns *)
Definition override_fits (input : StatusOverrideUpsertInput) : bool :=
  let column t v := match v with Some VNull | None => true | Some v => bool_decide (is_Some (stored t v)) end in
  column int32 (oi_recycle_delay_seconds input) && column tiny_int (oi_max_calls input) &&
  column (t_text 255) (oi_notes input) && fits server 8 (oi_status_code input).

Definition input_json (input : StatusOverrideUpsertInput) : AuditJson :=
  let member k v := from_option (λ v, [(k, v)]) [] v in
  members_json (("status_code"%string, VText (oi_status_code input)) ::
    member "recycle_delay_seconds"%string (oi_recycle_delay_seconds input) ++
    member "max_calls"%string (oi_max_calls input) ++ member "notes"%string (oi_notes input)).

Definition upsertStatusOverride (who : Actor) (id : string) (input : StatusOverrideUpsertInput)
    : Op (string * StatusOverride) :=
  transaction (
    _ ← check (override_fits input) Thrown;
    let key := (ac_tenantId who, id, oi_status_code input) in
    existing ← asks (λ db, status_overrides db !! key);
    there ← asks (λ db, bool_decide (is_Some (find_campaign (ac_tenantId who) id db)));
    _ ← check (bool_decide (is_Some existing) || there) P2003;
    let row := mkOverride (default VNull (oi_recycle_delay_seconds input)) (default VNull (oi_max_calls input))
                 (default VNull (oi_notes input)) (from_option so_createdAt (ac_now who) existing) (ac_now who) in
    _ ← update (λ db, with_overrides (<[ key := row ]> (status_overrides db)) db);
    _ ← auditCampaign who "campaign.status_override.upserted" (id +:+ ":" +:+ oi_status_code input) no_json
          (input_json input);
    mret (oi_status_code input, row)).

Definition deleteStatusOverride (who : Actor) (id statusCode : string) : Op bool :=
  let key := (ac_tenantId who, id, statusCode) in
  found ← asks (λ db, status_overrides db !! key);
  match found with
  | None => mret false
  | Some existing =>
      transaction (
        _ ← update (λ db, with_overrides (delete key (status_overrides db)) db);
        _ ← auditCampaign who "campaign.status_override.deleted" (id +:+ ":" +:+ statusCode)
              (members_json [("status_code", VText statusCode);
                             ("recycle_delay_seconds", so_recycleDelaySeconds existing);
                             ("max_calls", so_maxCalls existing)]%string) no_json;
        mret true)
  end.

(** [orderBy: { statusCode: 'asc' }] *)
Definition listStatusOverrides (tenantId : Z) (id : string) (db : CampaignDb) : list (string * StatusOverride) :=
  sort_by (λ a b, text_le server a.1 b.1) (overrides_of tenantId id db).

(** ** Routes, [index.ts] *)

Inductive CampaignResponse :=
  | CpFail (status : Z) (error : string)
  | CpThrown
  | CpPage (items : list AuditJson) (total : Z)
  | CpCampaign (status : Z) (campaign : AuditJson)
  | CpNoContent
  | CpLists (items : list (Z * Z))
  | CpOverrides (items : list (string * StatusOverride))
  | CpOverride (statusCode : string) (row : StatusOverride).

(** A request: who is signed in, and what the audit rows keep of it. *)
Record CampaignRequest := mkCampaignRequest {
  cp_auth : option ApiAuth;
  cp_id : option string;
  cp_ip : option string;
  cp_userAgent : option string;
  cp_now : Z;
}.

Definition actor_of (rq : CampaignRequest) (auth : ApiAuth) : Actor :=
  mkActor (a_tenantId auth) (a_uid auth) (cp_id rq) (cp_ip rq) (cp_userAgent rq) (cp_now rq).

(** [requireAuth] and [checkPerm] *)
Definition checkPerm (perm : Verb) (auth : option ApiAuth) : option CampaignResponse :=
  match auth with
  | None => Some (CpFail 401 "not_authenticated")
  | Some a =>
      if negb (bool_decide (perm ∈ a_perms a)) && negb (hasPermission (a_role a) perm)
      then Some (CpFail 403 "permission_denied") else None
  end.

(** A route: its guard, its handler, and the codes of the database it answers. *)
Definition campaign_route (perm : Verb) (answered : CampaignError → option CampaignResponse) (rq : CampaignRequest)
    (handler : Actor → Op CampaignResponse) (db : CampaignDb) : CampaignResponse * CampaignDb :=
  match checkPerm perm (cp_auth rq), cp_auth rq with
  | Some e, _ => (e, db)
  | None, None => (CpFail 401 "not_authenticated", db)
  | None, Some auth =>
      match handler (actor_of rq auth) db with
      | (Ok r, db') => (r, db')
      | (Err e, db') => (default CpThrown (answered e), db')
      end
  end.

Definition answers_none (_ : CampaignError) : option CampaignResponse := None.
Definition answers_conflict (e : CampaignError) : option CampaignResponse :=
  match e with P2002 => Some (CpFail 409 "campaign_id_conflict") | _ => None end.
Definition answers_no_list (e : CampaignError) : option CampaignResponse :=
  match e with P2003 => Some (CpFail 400 "list_not_found") | _ => None end.

Definition not_found : CampaignResponse := CpFail 404 "not_found".

(** A body or query the schema refuses is answered, not thrown. *)
Definition with_parsed {A} (error : string) (o : option A) (k : A → Op CampaignResponse) : Op CampaignResponse :=
  match o with Some a => k a | None => mret (CpFail 400 error) end.

Definition get_campaigns (rq : CampaignRequest) (query : string → list string) : CampaignDb → CampaignResponse * CampaignDb :=
  campaign_route campaign_read answers_none rq (λ who,
    with_parsed "invalid_query" (CampaignListQuerySchema (Number_of (number_text server)) query) (λ q,
      (λ r : list AuditJson * Z, CpPage r.1 r.2) <$> asks (listCampaigns (ac_tenantId who) q))).

Definition input_id (data : Members) : string :=
  match data !! "id"%string with Some (VText s) => s | _ => EmptyString end.

Definition post_campaign (rq : CampaignRequest) (body : option Body) : CampaignDb → CampaignResponse * CampaignDb :=
  campaign_route campaign_create answers_conflict rq (λ who,
    with_parsed "invalid_body" (CampaignCreateSchema (url_text server) body) (λ data,
      CpCampaign 201 <$> createCampaign who (input_id data) data)).

Definition get_campaign (rq : CampaignRequest) (campaignId : string) : CampaignDb → CampaignResponse * CampaignDb :=
  campaign_route campaign_read answers_none rq (λ who,
    from_option (CpCampaign 200) not_found <$> asks (getCampaign (ac_tenantId who) campaignId)).

Definition patch_campaign (rq : CampaignRequest) (campaignId : string) (body : option Body)
    : CampaignDb → CampaignResponse * CampaignDb :=
  campaign_route campaign_edit answers_none rq (λ who,
    with_parsed "invalid_body" (CampaignUpdateSchema (url_text server) body) (λ data,
      from_option (CpCampaign 200) not_found <$> updateCampaign who campaignId data)).

Definition delete_campaign (rq : CampaignRequest) (campaignId : string) : CampaignDb → CampaignResponse * CampaignDb :=
  campaign_route campaign_delete answers_none rq (λ who,
    (λ deleted : bool, if deleted then CpNoContent else not_found) <$> deleteCampaign who campaignId).

(** [!s]: [undefined] or empty *)
Definition named (o : option string) : option string :=
  s ← o; if String.eqb s EmptyString then None else Some s.

Definition clone_route (rq : CampaignRequest) (campaignId : string) (new_id new_name : option string)
    : CampaignDb → CampaignResponse * CampaignDb :=
  campaign_route campaign_create answers_conflict rq (λ who,
    match named new_id, named new_name with
    | Some newId, Some newName =>
        if negb (campaign_id_text newId) || (32 <? utf16_length newId) then mret (CpFail 400 "invalid_new_id")
        else from_option (CpCampaign 201) not_found <$> cloneCampaign who campaignId newId newName
    | _, _ => mret (CpFail 400 "missing_fields")
    end).

Definition action_route (rq : CampaignRequest) (campaignId : string) (body : option Body)
    : CampaignDb → CampaignResponse * CampaignDb :=
  campaign_route campaign_edit answers_none rq (λ who,
    with_parsed "invalid_body" (CampaignActionSchema body) (λ action,
      from_option (CpCampaign 200) not_found <$> applyCampaignAction who campaignId action)).

(** [orderBy: { priority: 'desc' }] *)
Definition get_lists (rq : CampaignRequest) (campaignId : string) : CampaignDb → CampaignResponse * CampaignDb :=
  campaign_route campaign_read answers_none rq (λ who,
    (λ l, CpLists (link_json <$> sort_by (λ a b, cl_priority b.2 <=? cl_priority a.2) l)) <$>
      asks (lists_of (ac_tenantId who) campaignId)).

Definition post_list (rq : CampaignRequest) (campaignId : string) (body : option Body)
    : CampaignDb → CampaignResponse * CampaignDb :=
  campaign_route campaign_edit answers_no_list rq (λ who,
    with_parsed "invalid_body" (CampaignListLinkSchema body) (λ input,
      campaign ← asks (getCampaign (ac_tenantId who) campaignId);
      match campaign with
      | None => mret not_found
      | Some _ => _ ← linkList who campaignId input.1 input.2; mret CpNoContent
      end)).

Definition delete_list (rq : CampaignRequest) (campaignId listId : string) : CampaignDb → CampaignResponse * CampaignDb :=
  campaign_route campaign_edit answers_none rq (λ who,
    match BigInt_num (Number_of (number_text server) listId) with
    | Some n =>
        if n <=? 0 then mret (CpFail 400 "invalid_list_id")
        else (λ deleted : bool, if deleted then CpNoContent else not_found) <$> unlinkList who campaignId n
    | None => mret (CpFail 400 "invalid_list_id")
    end).

Definition get_overrides (rq : CampaignRequest) (campaignId : string) : CampaignDb → CampaignResponse * CampaignDb :=
  campaign_route campaign_read answers_none rq (λ who,
    CpOverrides <$> asks (listStatusOverrides (ac_tenantId who) campaignId)).

(** The members of the body follow the status of the path, and replace it. *)
Definition put_override (rq : CampaignRequest) (campaignId statusCode : string) (body : option Body)
    : CampaignDb → CampaignResponse * CampaignDb :=
  campaign_route campaign_edit answers_none rq (λ who,
    campaign ← asks (getCampaign (ac_tenantId who) campaignId);
    match campaign with
    | None => mret not_found
    | Some _ =>
        with_parsed "invalid_body"
          (StatusOverrideUpsertSchema (default ∅ body ∪ {[ "status_code"%string := BText statusCode ]})) (λ input,
          (λ r : string * StatusOverride, CpOverride r.1 r.2) <$> upsertStatusOverride who campaignId input)
    end).

Definition delete_override (rq : CampaignRequest) (campaignId statusCode : string)
    : CampaignDb → CampaignResponse * CampaignDb :=
  campaign_route campaign_edit answers_none rq (λ who,
    (λ deleted : bool, if deleted then CpNoContent else not_found) <$> deleteStatusOverride who campaignId statusCode).

(** ** Every request *)

Inductive CampaignCall :=
  | call_list (query : string → list string)
  | call_create (body : option Body)
  | call_get (campaignId : string)
  | call_patch (campaignId : string) (body : option Body)
  | call_delete (campaignId : string)
  | call_clone (campaignId : string) (new_id new_name : option string)
  | call_action (campaignId : string) (body : option Body)
  | call_lists (campaignId : string)
  | call_link (campaignId : string) (body : option Body)
  | call_unlink (campaignId listId : string)
  | call_overrides (campaignId : string)
  | call_put_override (campaignId statusCode : string) (body : option Body)
  | call_delete_override (campaignId statusCode : string).

Definition serve_campaign (c : CampaignRequest * CampaignCall) : CampaignDb → CampaignResponse * CampaignDb :=
  match c.2 with
  | call_list q => get_campaigns c.1 q
  | call_create b => post_campaign c.1 b
  | call_get id => get_campaign c.1 id
  | call_patch id b => patch_campaign c.1 id b
  | call_delete id => delete_campaign c.1 id
  | call_clone id new_id new_name => clone_route c.1 id new_id new_name
  | call_action id b => action_route c.1 id b
  | call_lists id => get_lists c.1 id
  | call_link id b => post_list c.1 id b
  | call_unlink id raw => delete_list c.1 id raw
  | call_overrides id => get_overrides c.1 id
  | call_put_override id code b => put_override c.1 id code b
  | call_delete_override id code => delete_override c.1 id code
  end.

Definition run_campaigns (cs : list (CampaignRequest * CampaignCall)) (db : CampaignDb) : CampaignDb :=
  fold_left (λ db c, (serve_campaign c db).2) cs db.

End service.
