(* ===== verification/CampaignColumns.v ===== *)
(** The columns of campaigns: what the object that [buildCampaignData] makes holds, what the
    table keeps of it, and what the schema lets through. *)

From S2P Require Import Prelude StateError JsNumber Zod CampaignSchema Rbac Auth Campaigns.

#[local] Open Scope Z_scope.

(** ** Objects *)

Lemma distinct_by {A B} (key : A → B) l x y : NoDup (key <$> l) → x ∈ l → y ∈ l → key x = key y → x = y.
Proof.
  induction l as [|h l IH]; cbn [fmap list_fmap]; [by intros _ ?%elem_of_nil|]. intros [Hh Hd]%NoDup_cons Hx Hy Hk.
  apply elem_of_cons in Hx, Hy. destruct Hx as [->|Hx], Hy as [->|Hy]; [done|..|by apply IH].
  - destruct Hh. rewrite Hk. by apply list_elem_of_fmap_2.
  - destruct Hh. rewrite <- Hk. by apply list_elem_of_fmap_2.
Qed.

Lemma assign_other input a d k : k ≠ as_column a → assign input a d !! k = d !! k.
Proof. intros Hk. unfold assign. destruct (input !! as_field a); [by rewrite lookup_insert_ne|done]. Qed.

Lemma foldr_assign_fresh input l k : k ∉ as_column <$> l → foldr (assign input) ∅ l !! k = None.
Proof.
  induction l as [|a l IH]; cbn [foldr fmap list_fmap]; [done|]. rewrite not_elem_of_cons. intros [Hk Hl].
  rewrite assign_other by done. by apply IH.
Qed.

Lemma foldr_assign input l a :
  NoDup (as_column <$> l) → a ∈ l →
  foldr (assign input) ∅ l !! as_column a = convert (as_conversion a) <$> (input !! as_field a).
Proof.
  induction l as [|b l IH]; cbn [foldr fmap list_fmap]; [by intros _ ?%elem_of_nil|].
  intros [Hb Hl]%NoDup_cons [->|Ha]%elem_of_cons.
  - unfold assign at 1. destruct (input !! as_field b); [by rewrite lookup_insert_eq|by apply foldr_assign_fresh].
  - rewrite assign_other; [by apply IH|]. intros Hab. apply Hb. rewrite <- Hab. by apply list_elem_of_fmap_2.
Qed.

Lemma assignments_distinct : NoDup (as_column <$> assignments).
Proof. apply (bool_decide_unpack _). vm_compute. exact I. Qed.

Lemma built input a :
  a ∈ assignments → buildCampaignData input !! as_column a = convert (as_conversion a) <$> (input !! as_field a).
Proof. intros Ha. exact (foldr_assign input assignments a assignments_distinct Ha). Qed.

Lemma foldr_assign_only input l k v :
  NoDup (as_column <$> l) → foldr (assign input) ∅ l !! k = Some v →
  ∃ a w, a ∈ l ∧ k = as_column a ∧ input !! as_field a = Some w ∧ v = convert (as_conversion a) w.
Proof.
  intros Hl Hk. destruct (decide (k ∈ as_column <$> l)) as [(a & -> & Ha)%list_elem_of_fmap|Hn].
  - rewrite (foldr_assign input l a Hl Ha) in Hk. apply fmap_Some in Hk as (w & Hw & ->). by exists a, w.
  - by rewrite (foldr_assign_fresh _ _ _ Hn) in Hk.
Qed.

Lemma built_only input k v :
  buildCampaignData input !! k = Some v →
  ∃ a w, a ∈ assignments ∧ k = as_column a ∧ input !! as_field a = Some w ∧ v = convert (as_conversion a) w.
Proof. exact (foldr_assign_only input assignments k v assignments_distinct). Qed.

(** ** Parsing *)

Lemma parse_members_lookup member fields m f :
  NoDup (f_name <$> fields) → parse_members member fields = Some m → f ∈ fields → member f = Some (m !! f_name f).
Proof.
  revert m. induction fields as [|g fields IH]; intros m; cbn [parse_members fmap list_fmap]; [by intros _ _ ?%elem_of_nil|].
  intros [Hg Hn]%NoDup_cons. destruct (member g) as [v|] eqn:Hv; [|done]. cbn.
  destruct (parse_members member fields) as [m'|] eqn:Hm; [|done]. cbn. intros [= <-] [->|Hf]%elem_of_cons.
  - rewrite Hv. destruct v as [v|]; cbn; [by rewrite lookup_insert_eq|].
    assert (Hkeys : ∀ l m k, parse_members member l = Some m → k ∉ f_name <$> l → m !! k = None).
    { clear. induction l as [|h l IH]; intros m k; cbn [parse_members fmap list_fmap]; [by intros [= <-]|].
      destruct (member h) as [v|]; [|done]. cbn. destruct (parse_members member l) as [m'|]; [|done].
      cbn. intros [= <-] [Hk Hl]%not_elem_of_cons. destruct v; cbn; [rewrite lookup_insert_ne by done|]; by apply IH. }
    by rewrite (Hkeys _ _ _ Hm Hg).
  - rewrite (IH m' Hn eq_refl Hf). destruct v as [v|]; cbn; [|done]. rewrite lookup_insert_ne; [done|].
    intros Hgf. apply Hg. rewrite Hgf. by apply list_elem_of_fmap_2.
Qed.

(** A value that a field's check lets through. *)
Definition admitted (f : Field) (v : JsValue) : Prop := ∃ b, parse_field f b = Some v.

Section columns.
Variable server : CampaignServer.
#[local] Abbreviation fields := (patch_fields (url_text server)).

Lemma fields_distinct : NoDup (f_name <$> fields).
Proof. apply (bool_decide_unpack _). vm_compute. exact I. Qed.

Lemma update_schema_some is_url body data :
  CampaignUpdateSchema is_url body = Some data →
  ∃ b m, body = Some b ∧ parse_members (patch_member b) (patch_fields is_url) = Some m ∧ data = m.
Proof.
  unfold CampaignUpdateSchema. destruct body as [b|]; [|done]. cbn [mbind option_bind].
  destruct (parse_members (patch_member b) (patch_fields is_url)) as [m|] eqn:Hm; [|done]. cbn [mbind option_bind].
  destruct (addCrossFieldValidation m); [|done]. intros [= ->]. by exists b, data.
Qed.

Lemma patch_admitted body data f v :
  CampaignUpdateSchema (url_text server) body = Some data → f ∈ fields → data !! f_name f = Some v → admitted f v.
Proof.
  intros (body' & m & -> & Hm & ->)%update_schema_some Hf Hv.
  pose proof (parse_members_lookup _ _ _ _ fields_distinct Hm Hf) as Hp. rewrite Hv in Hp. unfold patch_member in Hp.
  destruct (body' !! f_name f) as [b|]; [|done]. apply fmap_Some in Hp as (w & Hw & [= <-]). by exists b.
Qed.

(** ** What the table keeps *)

Lemma store_columns_lookup data cols k :
  store_columns server data = Some cols → cols !! k = (data !! k ≫= store_column server k).
Proof. unfold store_columns. destruct (bool_decide _); [|done]. intros [= <-]. apply map_lookup_imap. Qed.

Lemma store_columns_all data cols :
  store_columns server data = Some cols → map_Forall (λ k v, is_Some (store_column server k v)) data.
Proof. unfold store_columns. destruct (bool_decide _) eqn:H; [|done]. intros _. by apply bool_decide_eq_true in H. Qed.

Lemma store_columns_some data cols k v :
  store_columns server data = Some cols → data !! k = Some v → ∃ w, store_column server k v = Some w ∧ cols !! k = Some w.
Proof.
  intros Hs Hk. rewrite (store_columns_lookup _ _ _ Hs), Hk. cbn [mbind option_bind].
  destruct (store_columns_all _ _ Hs k v Hk) as [w Hw]. by exists w.
Qed.

Lemma round_to_idem step h : 0 < step → round_to step (round_to step h) = round_to step h.
Proof.
  intros Hs. unfold round_to. set (q := (2 * Z.abs h + step) / (2 * step)).
  assert (Hq : 0 <= q) by (apply Z.div_pos; lia).
  destruct (Z.eq_dec q 0) as [->|Hne]; [rewrite Z.mul_0_r, !Z.mul_0_r; done|].
  destruct (Z.eq_dec h 0) as [->|Hh]; [done|].
  assert (Hpos : 0 < step * q) by nia.
  rewrite Z.sgn_mul, Z.sgn_sgn, Z.abs_mul, (Z.abs_eq (step * q)), (Z.sgn_pos (step * q)) by lia.
  replace (Z.abs (Z.sgn h)) with 1 by lia. rewrite Z.mul_1_l, Z.mul_1_r.
  replace ((2 * (step * q) + step) / (2 * step)) with q; [done|].
  apply Z.div_unique with step; [left; lia|ring].
Qed.

Definition sound_type (t : ColumnType) : bool := match t with t_decimal _ step => 0 <? step | _ => true end.

Lemma stored_idem t v w : sound_type t = true → stored server t v = Some w → stored server t w = Some w.
Proof.
  intros Ht Hs. destruct t, v; cbn [sound_type stored] in Ht, Hs; try done; try (injection Hs as <-; done).
  - destruct (BigInt_num x) as [n|] eqn:Hb; [|done]. cbn [mbind option_bind] in Hs. destruct (_ && _) eqn:Hr; [|done].
    injection Hs as <-. cbn [stored]. by rewrite Hb; cbn [mbind option_bind]; rewrite Hr.
  - destruct (_ && _) eqn:Hr; [|done]. injection Hs as <-. cbn [stored]. by rewrite Hr.
  - apply Z.ltb_lt in Ht. destruct (Z.abs _ <? _) eqn:Hr; [|done]. injection Hs as <-. cbn [stored].
    rewrite round_to_idem by done. by rewrite Hr.
  - destruct (fits server n s) eqn:Hr; [|done]. injection Hs as <-. cbn [stored]. by rewrite Hr.
  - destruct (_ <=? _) eqn:Hr; [|done]. injection Hs as <-. cbn [stored]. by rewrite Hr.
  - case_bool_decide; [|done]. injection Hs as <-. cbn [stored]. by rewrite bool_decide_true.
Qed.

Lemma columns_sound c : c ∈ campaign_columns → sound_type (c_type c) = true.
Proof.
  intros Hc. assert (H : forallb (λ c, sound_type (c_type c)) campaign_columns = true) by (vm_compute; reflexivity).
  rewrite forallb_forall in H. by apply H, list_elem_of_In.
Qed.

Lemma found_column k c : find_column k = Some c → c ∈ campaign_columns ∧ c_name c = k.
Proof.
  unfold find_column. intros H%List.find_some. destruct H as [Hin Hk]. split; [by apply list_elem_of_In|by apply String.eqb_eq].
Qed.

Lemma store_idem k v w : store_column server k v = Some w → store_column server k w = Some w.
Proof.
  unfold store_column. destruct (find_column k) as [c|] eqn:Hc; [|done]. cbn.
  apply found_column in Hc as [Hc _]. pose proof (columns_sound c Hc) as Ht.
  destruct v; try (destruct (c_required c); [done|by intros [= <-]]);
  intros Hs; pose proof (stored_idem _ _ _ Ht Hs) as Hi; (destruct w; [|done..]); by destruct (c_type c).
Qed.

(** ** Rows *)

Record row_ok (r : CampaignRow) : Prop := {
  (** every column is there *)
  ro_present c : c ∈ campaign_columns → is_Some (cr_columns r !! c_name c);
  (** and holds what its type keeps *)
  ro_kept k v : cr_columns r !! k = Some v → store_column server k v = Some v;
  (** each setting is kept of a value that the schema lets through *)
  ro_settings a f : a ∈ assignments → f ∈ settings_fields (url_text server) → f_name f = as_field a →
    is_Some (find_column (as_column a)) →
    ∃ v w, admitted f v ∧ store_column server (as_column a) (convert (as_conversion a) v) = Some w ∧
           cr_columns r !! as_column a = Some w;
}.

(** Data a patch may write. *)
Definition lawful (data : Members) : Prop :=
  ∀ a f v, a ∈ assignments → f ∈ settings_fields (url_text server) → f_name f = as_field a →
    data !! as_column a = Some v → ∃ u, admitted f u ∧ v = convert (as_conversion a) u.

Lemma built_lawful body data :
  CampaignUpdateSchema (url_text server) body = Some data → lawful (buildCampaignData data).
Proof.
  intros Hd a f v Ha Hf Hn Hv. rewrite (built data a Ha) in Hv. apply fmap_Some in Hv as (u & Hu & ->).
  exists u. split; [|done]. rewrite <- Hn in Hu. apply (patch_admitted body data f u Hd); [|done]. by apply list_elem_of_further.
Qed.

Lemma row_ok_write r data cols updated :
  row_ok r → lawful data → store_columns server data = Some cols →
  row_ok (mkCampaign (cr_tenantId r) (cr_id r) (cols ∪ cr_columns r) (cr_createdAt r) updated).
Proof.
  intros [Hp Hk Hs] Hl Hc. split; cbn [cr_columns].
  - intros c Hin. apply lookup_union_is_Some. right. by apply Hp.
  - intros k v [Hv|[_ Hv]]%lookup_union_Some_raw; [|by apply Hk]. rewrite (store_columns_lookup _ _ _ Hc) in Hv.
    destruct (data !! k); [|done]. by apply store_idem in Hv.
  - intros a f Ha Hf Hn Hcol. destruct (data !! as_column a) as [v|] eqn:Hv.
    + destruct (Hl a f v Ha Hf Hn Hv) as (u & Hu & ->). destruct (store_columns_some _ _ _ _ Hc Hv) as (w & Hw & Hlk).
      exists u, w. split_and!; [done|done|]. by apply lookup_union_Some_l.
    + destruct (Hs a f Ha Hf Hn Hcol) as (u & w & Hu & Hw & Hlk). exists u, w. split_and!; [done|done|].
      rewrite lookup_union_r; [done|]. rewrite (store_columns_lookup _ _ _ Hc). by rewrite Hv.
Qed.

Lemma same_setting f g :
  f ∈ settings_fields (url_text server) → g ∈ settings_fields (url_text server) → f_name f = f_name g → f = g.
Proof. pose proof fields_distinct as Hd. apply NoDup_cons in Hd as [_ Hd]. by apply distinct_by. Qed.

Lemma active_assignment : mkAssign "active" "active" keep ∈ assignments.
Proof. unfold assignments. repeat first [apply list_elem_of_here | apply list_elem_of_further]. Qed.

Lemma same_assignment a b : a ∈ assignments → b ∈ assignments → as_column a = as_column b → a = b.
Proof. exact (distinct_by as_column assignments a b assignments_distinct). Qed.

Lemma active_admitted a f b :
  a ∈ assignments → f ∈ settings_fields (url_text server) → f_name f = as_field a → as_column a = "active"%string →
  admitted f (VBool b) ∧ convert (as_conversion a) (VBool b) = VBool b.
Proof.
  intros Ha Hf Hn Hc. rewrite (same_assignment a _ Ha active_assignment Hc) in Hn |- *. split; [|done].
  assert (f = field "active" z_boolean (VBool true)) as -> by (apply same_setting; [done|apply list_elem_of_here|done]).
  by exists (BBool b).
Qed.

Lemma active_lawful b : lawful {[ "active"%string := VBool b ]}.
Proof.
  intros a f v Ha Hf Hn Hv. apply lookup_singleton_Some in Hv as [Hc <-]. symmetry in Hc.
  destruct (active_admitted a f b Ha Hf Hn Hc) as [Hu Hconv]. by exists (VBool b).
Qed.

(** The columns of a clone *)
Lemma row_ok_clone r name cols tenantId id now :
  row_ok r →
  store_columns server (<[ "active"%string := VBool false ]> (<[ "name"%string := VText name ]> (cr_columns r))) = Some cols →
  row_ok (mkCampaign tenantId id cols now now).
Proof.
  intros [Hp Hk Hs] Hc. split; cbn [cr_columns].
  - intros c Hin. destruct (Hp c Hin) as [v Hv].
    assert (∃ v', <[ "active"%string := VBool false ]> (<[ "name"%string := VText name ]> (cr_columns r)) !! c_name c = Some v')
      as [v' Hv'] by (apply lookup_insert_is_Some'; right; apply lookup_insert_is_Some'; eauto).
    destruct (store_columns_some _ _ _ _ Hc Hv') as (w & _ & ->). eauto.
  - intros k v Hv. rewrite (store_columns_lookup _ _ _ Hc) in Hv.
    destruct (_ !! k) as [u|]; [|done]. by apply store_idem in Hv.
  - intros a f Ha Hf Hn Hcol. rewrite (store_columns_lookup _ _ _ Hc).
    destruct (decide (as_column a = "active"%string)) as [Hact|Hact].
    + destruct (active_admitted a f false Ha Hf Hn Hact) as [Hu Hconv]. rewrite Hact, lookup_insert_eq.
      exists (VBool false), (VBool false). by rewrite Hconv.
    + rewrite lookup_insert_ne by done. destruct (Hs a f Ha Hf Hn Hcol) as (u & w & Hu & Hw & Hlk).
      assert (Hname : as_column a ≠ "name"%string).
      { intros Hname. assert (a = mkAssign "name" "name" keep) as ->
          by (apply same_assignment; [done|apply list_elem_of_here|done]).
        pose proof (fields_distinct) as Hd. apply NoDup_cons in Hd as [Hd _]. apply Hd.
        change (f_name name_field) with "name"%string. rewrite <- (Hn : f_name f = "name"%string). by apply list_elem_of_fmap_2. }
      rewrite lookup_insert_ne by done. rewrite Hlk. cbn [mbind option_bind]. exists u, w. split_and!; [done|done|].
      by apply store_idem in Hw.
Qed.

(** ** The column that is gone *)

Definition drop_pct : Assignment := mkAssign "adaptive_drop_pct" "adaptiveDropPct" to_decimal.

Lemma drop_pct_assigned : drop_pct ∈ assignments.
Proof. unfold assignments, drop_pct. repeat first [apply list_elem_of_here | apply list_elem_of_further]. Qed.

Lemma drop_pct_gone v : store_column server "adaptiveDropPct" v = None.
Proof. reflexivity. Qed.

Lemma drop_pct_refused data : is_Some (data !! "adaptive_drop_pct"%string) → store_columns server (buildCampaignData data) = None.
Proof.
  intros [v Hv]. destruct (store_columns server (buildCampaignData data)) as [cols|] eqn:Hs; [|done].
  pose proof (built data drop_pct drop_pct_assigned) as Hb. cbn [as_field as_column drop_pct] in Hb. rewrite Hv in Hb.
  destruct (store_columns_some _ _ _ _ Hs Hb) as (w & Hw & _). by rewrite drop_pct_gone in Hw.
Qed.

Lemma create_schema_some is_url body data :
  CampaignCreateSchema is_url body = Some data →
  ∃ b, body = Some b ∧ parse_members (create_member b) (CampaignBaseObject is_url) = Some data.
Proof.
  unfold CampaignCreateSchema. destruct body as [b|]; [|done]. cbn [mbind option_bind].
  destruct (parse_members (create_member b) (CampaignBaseObject is_url)) as [m|] eqn:Hm; [|done]. cbn [mbind option_bind].
  destruct (addCrossFieldValidation m); [|done]. intros [= ->]. by exists b.
Qed.

Lemma create_fields_distinct : NoDup (f_name <$> CampaignBaseObject (url_text server)).
Proof. apply (bool_decide_unpack _). vm_compute. exact I. Qed.

Lemma create_gives_drop_pct body data :
  CampaignCreateSchema (url_text server) body = Some data → is_Some (data !! "adaptive_drop_pct"%string).
Proof.
  intros (b & -> & Hm)%create_schema_some.
  assert (Hin : field "adaptive_drop_pct" (z_number (num 0) (num 100)) (VNum (tenths 15)) ∈ CampaignBaseObject (url_text server))
    by (unfold CampaignBaseObject, patch_fields, settings_fields;
        repeat first [apply list_elem_of_here | apply list_elem_of_further]).
  pose proof (parse_members_lookup _ _ _ _ create_fields_distinct Hm Hin) as Hp. unfold create_member in Hp.
  cbn [f_name f_default field] in Hp. destruct (b !! _) as [v|]; [|by injection Hp as <-].
  apply fmap_Some in Hp as (w & _ & [= ->]). done.
Qed.

End columns.
