(* ===== verification/CampaignRuns.v ===== *)
(** Every run of the campaign requests: a request is refused and changes nothing, or makes one
    change of its own tenant's rows and writes one audit row; the tables stay consistent. *)

From S2P Require Import Prelude StateError JsNumber Zod CampaignSchema Rbac Auth Campaigns CampaignColumns.

#[local] Open Scope Z_scope.

(** The collation finds a text equal to itself. *)
Class CampaignCollation (server : CampaignServer) : Prop := same_id_refl s : same_id server s s = true.

(** ** Changes *)

Definition set_campaign (k : Z * string) (row : CampaignRow) (db : CampaignDb) : CampaignDb :=
  with_campaigns (<[ k := row ]> (campaign_rows db)) db.
Definition set_link (k : Z * string * Z) (l : CampaignList) (db : CampaignDb) : CampaignDb :=
  with_links (<[ k := l ]> (campaign_lists db)) db.
Definition set_override (k : Z * string * string) (o : StatusOverride) (db : CampaignDb) : CampaignDb :=
  with_overrides (<[ k := o ]> (status_overrides db)) db.

Definition removed (k : Z * string) (db : CampaignDb) : CampaignDb :=
  with_campaigns (delete k (campaign_rows db))
    (with_overrides (filter (λ ko, ko.1.1 ≠ k) (status_overrides db))
       (with_links (filter (λ kl, kl.1.1 ≠ k) (campaign_lists db)) db)).

(** The rows of a clone: its links and its overrides are new, each of a list or code that
    the source has. *)
Definition cloned (k : Z * string) (row : CampaignRow) (links : list (Z * CampaignList))
    (overrides : list (string * StatusOverride)) (db : CampaignDb) : CampaignDb :=
  with_overrides (foldr (λ o, <[ (k, o.1) := o.2 ]>) (status_overrides db) overrides)
    (with_links (foldr (λ l, <[ (k, l.1) := l.2 ]>) (campaign_lists db) links) (set_campaign k row db)).

Section runs.
Variable server : CampaignServer.

(** A change of the rows of a tenant. *)
Inductive effect (tenant : Z) (db : CampaignDb) : CampaignDb → Prop :=
  | eff_write id row row' :
      campaign_rows db !! (tenant, id) = Some row →
      cr_tenantId row' = cr_tenantId row → cr_id row' = cr_id row → cr_createdAt row' = cr_createdAt row →
      (row_ok server row → row_ok server row') →
      effect tenant db (set_campaign (tenant, id) row' db)
  | eff_remove id :
      is_Some (campaign_rows db !! (tenant, id)) → (tenant, id) ∉ held db →
      effect tenant db (removed (tenant, id) db)
  | eff_clone source src id row links overrides :
      campaign_rows db !! (tenant, source) = Some src → campaign_rows db !! (tenant, id) = None →
      cr_tenantId row = tenant → cr_id row = id → (row_ok server src → row_ok server row) →
      (∀ l, l ∈ links.*1 → is_Some (campaign_lists db !! (tenant, source, l))) →
      effect tenant db (cloned (tenant, id) row links overrides db)
  | eff_link id l x :
      is_Some (campaign_rows db !! (tenant, id)) →
      is_Some (campaign_lists db !! (tenant, id, l)) ∨ is_Some (list_tenants db !! l) →
      effect tenant db (set_link (tenant, id, l) x db)
  | eff_unlink id l :
      is_Some (campaign_lists db !! (tenant, id, l)) →
      effect tenant db (with_links (delete (tenant, id, l) (campaign_lists db)) db)
  | eff_override id code x :
      is_Some (campaign_rows db !! (tenant, id)) →
      effect tenant db (set_override (tenant, id, code) x db)
  | eff_unoverride id code :
      is_Some (status_overrides db !! (tenant, id, code)) →
      effect tenant db (with_overrides (delete (tenant, id, code) (status_overrides db)) db).

(** The change of a request, with its audit row, or none. *)
Definition changed (tenant uid : Z) (db db' : CampaignDb) : Prop :=
  db' = db ∨
  ∃ a db1, effect tenant db db1 ∧ db' = with_audit a db1 ∧ au_tenantId a = tenant ∧ au_actorUserId a = uid.

(** ** The invariant *)

Record wf_campaigns (db : CampaignDb) : Prop := {
  wc_key k r : campaign_rows db !! k = Some r → k = (cr_tenantId r, cr_id r);
  wc_row k r : campaign_rows db !! k = Some r → row_ok server r;
  wc_link k l x : campaign_lists db !! (k, l) = Some x → is_Some (campaign_rows db !! k) ∧ is_Some (list_tenants db !! l);
  wc_override k code x : status_overrides db !! (k, code) = Some x → is_Some (campaign_rows db !! k);
}.

Lemma foldr_insert_lookup {K A B} `{Countable K} (f : A → K) (g : A → B) (l : list A) (m : gmap K B) k x :
  foldr (λ a, <[ f a := g a ]>) m l !! k = Some x → (∃ a, a ∈ l ∧ f a = k ∧ g a = x) ∨ m !! k = Some x.
Proof.
  induction l as [|a l IH]; cbn [foldr]; [by right|].
  intros [[Hk Hx]|[_ Hx]]%lookup_insert_Some; [left; exists a; split_and!; [by left|done|done]|].
  destruct (IH Hx) as [(b & Hb & ? & ?)|?]; [|by right]. left. exists b. split_and!; [by right|done|done].
Qed.

Lemma effect_wf tenant db db' : effect tenant db db' → wf_campaigns db → wf_campaigns db'.
Proof.
  intros He [Hk Hr Hl Ho]. destruct He as [id row row' Hf Ht Hi Hc Hrow|id Hf Hheld|source src id row links ovs Hs Hn Ht Hi Hrow Hlinks
    |id l x Hf Hlist|id l Hf|id code x Hf|id code Hf]; split; cbn.
  - intros k r [[<- <-]|[_ H]]%lookup_insert_Some; [|by apply Hk]. rewrite Ht, Hi. by apply Hk.
  - intros k r [[_ <-]|[_ H]]%lookup_insert_Some; [|by apply (Hr k)]. by apply Hrow, (Hr (tenant, id)).
  - intros k l x [H1 H2]%Hl. split; [|done]. by apply lookup_insert_is_Some'; right.
  - intros k code x H%Ho. by apply lookup_insert_is_Some'; right.
  - intros k r [_ H]%lookup_delete_Some. by apply Hk.
  - intros k r [_ H]%lookup_delete_Some. by apply (Hr k).
  - intros k l x [H Hne]%map_lookup_filter_Some. apply Hl in H as [H1 H2]. cbn in Hne.
    split; [by rewrite lookup_delete_ne by congruence|done].
  - intros k code x [H Hne]%map_lookup_filter_Some. apply Ho in H. cbn in Hne. by rewrite lookup_delete_ne by congruence.
  - intros k r [[<- <-]|[_ H]]%lookup_insert_Some; [by rewrite Ht, Hi|by apply Hk].
  - intros k r [[_ <-]|[_ H]]%lookup_insert_Some; [by apply Hrow, (Hr (tenant, source))|by apply (Hr k)].
  - intros k l x [(a & Ha & [= <- <-] & _)|H]%foldr_insert_lookup.
    + split; [by apply lookup_insert_is_Some; left|]. destruct (Hlinks a.1) as [y Hy]; [by apply list_elem_of_fmap_2|].
      by apply (Hl (tenant, source) a.1 y).
    + apply Hl in H as [H1 H2]. split; [by apply lookup_insert_is_Some'; right|done].
  - intros k code x [(a & Ha & [= <- <-] & _)|H]%foldr_insert_lookup; [by apply lookup_insert_is_Some; left|].
    apply Ho in H. by apply lookup_insert_is_Some'; right.
  - done.
  - done.
  - intros k l' y [[[= <- <-] _]|[_ H]]%lookup_insert_Some; [|by apply (Hl k l' y)].
    split; [done|]. destruct Hlist as [[z Hz]|?]; [by apply (Hl (tenant, id) l z)|done].
  - done.
  - done.
  - done.
  - intros k l' y [_ H]%lookup_delete_Some. by apply (Hl k l' y).
  - done.
  - done.
  - done.
  - done.
  - intros k code' y [[[= <- <-] _]|[_ H]]%lookup_insert_Some; [done|by apply (Ho k code' y)].
  - done.
  - done.
  - done.
  - intros k code' y [_ H]%lookup_delete_Some. by apply (Ho k code' y).
Qed.

(** Nothing of a tenant's rows differs, nor of what the requests do not write. *)
Record same_for (tenant : Z) (db db' : CampaignDb) : Prop := {
  sf_rows id : campaign_rows db' !! (tenant, id) = campaign_rows db !! (tenant, id);
  sf_links id l : campaign_lists db' !! (tenant, id, l) = campaign_lists db !! (tenant, id, l);
  sf_overrides id code : status_overrides db' !! (tenant, id, code) = status_overrides db !! (tenant, id, code);
  sf_lists : list_tenants db' = list_tenants db;
  sf_known : known db' = known db;
  sf_held : held db' = held db;
}.

#[export] Instance same_for_preorder tenant : PreOrder (same_for tenant).
Proof.
  split; [done|]. intros a b c [] []. split; intros; etransitivity; eauto.
Qed.

Lemma foldr_insert_other {K A B} `{Countable K} (f : A → K) (g : A → B) (l : list A) (m : gmap K B) k :
  (∀ a, f a ≠ k) → foldr (λ a, <[ f a := g a ]>) m l !! k = m !! k.
Proof. intros Hk. induction l as [|a l IH]; cbn [foldr]; [done|]. by rewrite lookup_insert_ne. Qed.

Lemma effect_same t tenant db db' : effect tenant db db' → t ≠ tenant → same_for t db db'.
Proof.
  intros He Hne. destruct He; split; cbn; intros; try done.
  all: try (rewrite lookup_insert_ne by congruence; done).
  all: try (rewrite lookup_delete_ne by congruence; done).
  all: try (apply foldr_insert_other; congruence).
  all: apply option_eq; intros y; rewrite map_lookup_filter_Some; cbn; split; [by intros [? _]|]; intros Hy; (split; [done|congruence]).
Qed.

(** ** The operations make changes *)

(** The rows after a change of the actor's tenant with its audit row. *)
Definition audited_change (who : Actor) (db db' : CampaignDb) : Prop :=
  ∃ a db1, effect (ac_tenantId who) db db1 ∧ db' = with_audit a db1 ∧ au_tenantId a = ac_tenantId who ∧
           au_actorUserId a = ac_uid who.

#[local] Abbreviation makes_change who := (λ m db, makes (audited_change who db) m db).

Lemma post_audit who action id before after (Q : result CampaignError unit → CampaignDb → Prop) db :
  (∀ e, Q (Err e) db) →
  (∀ a, au_tenantId a = ac_tenantId who → au_actorUserId a = ac_uid who → Q (Ok ()) (with_audit a db)) →
  post (auditCampaign server who action id before after) Q db.
Proof. intros He Ha. unfold auditCampaign. repeat post_step; [by apply Ha|by apply He]. Qed.

#[local] Opaque auditCampaign.

Lemma post_write who existing data now db :
  campaign_rows db !! (ac_tenantId who, cr_id existing) = Some existing → cr_tenantId existing = ac_tenantId who →
  lawful server data →
  post (write_campaign server existing data now)
    (λ r db', match r with Ok _ => effect (ac_tenantId who) db db' | Err _ => True end) db.
Proof.
  intros Hf Ht Hl. unfold write_campaign. repeat post_step; try done.
  rewrite Ht. apply (eff_write _ _ _ existing); [done..|]. intros Hr. rewrite <- Ht. by eapply row_ok_write.
Qed.

Lemma found_keyed tenantId id row db :
  wf_campaigns db → find_campaign tenantId id db = Some row → cr_tenantId row = tenantId ∧ cr_id row = id.
Proof. intros [Hk _ _ _] Hf. apply Hk in Hf. by injection Hf as <- <-. Qed.

#[local] Ltac audited := apply post_bind, post_audit; [done|]; intros au Hau Hu; apply post_ret; by exists au; eexists.

Lemma update_changes who id input db :
  wf_campaigns db → lawful server (buildCampaignData input) → makes_change who (updateCampaign server who id input) db.
Proof.
  intros Hwf Hl. unfold updateCampaign. apply post_bind, post_asks.
  destruct (find_campaign (ac_tenantId who) id db) as [row|] eqn:Hf; [|by apply makes_ret].
  destruct (found_keyed _ _ _ _ Hwf Hf) as [Ht Hi]. apply makes_transaction, post_bind.
  eapply post_mono; [apply (post_write who row _ _ db); [by rewrite Hi|done|done]|]. intros [row'|e] db' He; [|done].
  apply post_bind, post_asks. audited.
Qed.

Lemma action_changes who id action db : wf_campaigns db → makes_change who (applyCampaignAction server who id action) db.
Proof.
  intros Hwf. unfold applyCampaignAction. apply post_bind, post_asks.
  destruct (find_campaign (ac_tenantId who) id db) as [row|] eqn:Hf; [|by apply makes_ret].
  destruct (found_keyed _ _ _ _ Hwf Hf) as [Ht Hi]. apply makes_transaction, post_bind.
  eapply post_mono; [apply (post_write who row _ _ db); [by rewrite Hi|done|apply active_lawful]|]. intros [row'|e] db' He; [|done].
  apply post_bind, post_asks. audited.
Qed.

Lemma delete_changes who id db : makes_change who (deleteCampaign server who id) db.
Proof.
  unfold deleteCampaign. apply post_bind, post_asks.
  destruct (find_campaign (ac_tenantId who) id db) as [row|] eqn:Hf; [|by apply makes_ret].
  apply makes_transaction. unfold remove_campaign. apply post_bind. do 2 post_step. post_step. post_step; [|done].
  apply negb_true_iff, bool_decide_eq_false in H. do 2 (post_step; post_step). post_step.
  pose proof (eff_remove (ac_tenantId who) db id (mk_is_Some _ _ Hf) H) as He. audited.
Qed.
Lemma link_changes who id l priority db :
  wf_campaigns db → makes_change who (linkList server who id l priority) db.
Proof.
  intros Hwf. unfold linkList. apply makes_transaction. apply post_bind, post_check; [intros _|done].
  apply post_bind, post_asks, post_bind. destruct (campaign_lists db !! (ac_tenantId who, id, l)) as [x|] eqn:Hx.
  - apply post_update, post_audit; [done|]. intros au Hau Hu. exists au. eexists. split_and!; [|done..].
    apply eff_link; [by apply (wc_link db Hwf _ l x)|by left].
  - repeat post_step; [|done]. apply post_audit; [done|]. intros au Hau Hu. exists au. eexists. split_and!; [|done..].
    apply andb_true_iff in H as [H1%bool_decide_eq_true H2%bool_decide_eq_true]. apply eff_link; [done|by right].
Qed.

Lemma unlink_changes who id l db : makes_change who (unlinkList server who id l) db.
Proof.
  unfold unlinkList. apply post_bind, post_check; [intros _|intros _; split; [by left|done]].
  apply post_bind, post_asks.
  destruct (campaign_lists db !! (ac_tenantId who, id, l)) as [x|] eqn:Hx; [|by apply makes_ret].
  apply makes_transaction, post_bind, post_update. pose proof (eff_unlink _ db id l (mk_is_Some _ _ Hx)) as He. audited.
Qed.

Lemma upsert_changes who id input db :
  wf_campaigns db → makes_change who (upsertStatusOverride server who id input) db.
Proof.
  intros Hwf. unfold upsertStatusOverride. apply makes_transaction. repeat post_step; try done.
  apply post_audit; [done|]. intros au Hau Hu. apply post_ret. exists au. eexists. split_and!; [|done..].
  apply eff_override. apply orb_true_iff in H0 as [[x Hx]%bool_decide_eq_true|Hc%bool_decide_eq_true]; [|done].
  exact (wc_override db Hwf (ac_tenantId who, id) _ x Hx).
Qed.

Lemma unoverride_changes who id code db : makes_change who (deleteStatusOverride server who id code) db.
Proof.
  unfold deleteStatusOverride. apply post_bind, post_asks.
  destruct (status_overrides db !! (ac_tenantId who, id, code)) as [x|] eqn:Hx; [|by apply makes_ret].
  apply makes_transaction, post_bind, post_update. pose proof (eff_unoverride _ db id code (mk_is_Some _ _ Hx)) as He. audited.
Qed.

Lemma lists_of_spec tenantId id db l x :
  (l, x) ∈ lists_of tenantId id db ↔ campaign_lists db !! (tenantId, id, l) = Some x.
Proof.
  unfold lists_of. rewrite list_elem_of_omap. split.
  - intros (((k, l'), y) & Hin%elem_of_map_to_list & Hk). destruct k as [t i]. cbn in Hk.
    destruct (_ && _) eqn:Hc; [|done]. injection Hk as <- <-. apply andb_true_iff in Hc as [->%Z.eqb_eq ->%String.eqb_eq]. done.
  - intros Hl. exists (tenantId, id, l, x). split; [by apply elem_of_map_to_list|]. cbn. by rewrite Z.eqb_refl, String.eqb_refl.
Qed.

Lemma insert_fresh `{!CampaignCollation server} tenantId id data now db (Q : result CampaignError CampaignRow → CampaignDb → Prop) :
  (∀ e, Q (Err e) db) →
  (∀ cols, store_columns server data = Some cols → campaign_rows db !! (tenantId, id) = None →
     let row := mkCampaign tenantId id cols now now in Q (Ok row) (set_campaign (tenantId, id) row db)) →
  post (insert_campaign server tenantId id data now) Q db.
Proof.
  intros He Hok. unfold insert_campaign. repeat post_step; try apply He. apply Hok; [done|].
  apply negb_true_iff, not_true_iff_false in H1. apply eq_None_not_Some. intros [r Hr]. apply H1, existsb_exists.
  exists (tenantId, id). split; [|cbn; by rewrite Z.eqb_refl, same_id_refl].
  apply list_elem_of_In, elem_of_elements, elem_of_dom. by exists r.
Qed.

Lemma clone_changes `{!CampaignCollation server} who source newId newName db :
  wf_campaigns db → makes_change who (cloneCampaign server who source newId newName) db.
Proof.
  intros Hwf. unfold cloneCampaign. apply post_bind, post_asks.
  destruct (find_campaign (ac_tenantId who) source db) as [src|] eqn:Hf; [|by apply makes_ret].
  apply post_bind, post_asks, post_bind, post_asks, makes_transaction, post_bind, insert_fresh; [done|].
  intros cols Hcols Hfresh row. apply post_bind, post_asks.
  apply post_bind, post_update, post_bind, post_update. apply post_bind, post_audit; [done|]. intros au Hau Hu. apply post_ret.
  exists au. eexists. split_and!; [|done..].
  set (links := lists_of (ac_tenantId who) source db). set (ovs := overrides_of (ac_tenantId who) source db).
  pose proof (eff_clone (ac_tenantId who) db source src newId row
    ((λ l : Z * CampaignList, (l.1, mkCampaignList (cl_priority l.2) true (ac_now who))) <$> links)
    ((λ o : string * StatusOverride, (o.1, mkOverride (so_recycleDelaySeconds o.2) (so_maxCalls o.2) (so_notes o.2)
        (ac_now who) (ac_now who))) <$> ovs) Hf Hfresh eq_refl eq_refl) as He.
  unfold cloned in He. rewrite !foldr_fmap in He. apply He.
  - intros Hr. by eapply row_ok_clone.
  - intros l. rewrite <- list_fmap_compose. intros ([l' x] & -> & Hin%lists_of_spec)%list_elem_of_fmap. cbn. by exists x.
Qed.

Lemma create_changes_nothing who id body data db :
  CampaignCreateSchema (url_text server) body = Some data → createCampaign server who id data db = (Err Thrown, db).
Proof.
  intros Hd%create_gives_drop_pct. apply (drop_pct_refused server) in Hd. unfold createCampaign, insert_campaign, transaction.
  by rewrite Hd.
Qed.

(** ** Requests *)

(** What a request may change, by who is signed in. *)
Definition changed_by (rq : CampaignRequest) (db db' : CampaignDb) : Prop :=
  db' = db ∨ ∃ a, cp_auth rq = Some a ∧ changed (a_tenantId a) (a_uid a) db db'.

Lemma route_changes perm answered rq handler db :
  (∀ who, makes_change who (handler who) db) → changed_by rq db (campaign_route perm answered rq handler db).2.
Proof.
  intros Hh. unfold campaign_route. destruct (checkPerm perm (cp_auth rq)); [by left|].
  destruct (cp_auth rq) as [auth|] eqn:Ha; [|by left]. right. exists auth. split; [done|].
  specialize (Hh (actor_of rq auth)) as [Hc He]. cbn in Hc. by destruct (handler (actor_of rq auth) db) as [[r|e] db'].
Qed.

Lemma serve_changes `{!CampaignCollation server} c db :
  wf_campaigns db → changed_by c.1 db (serve_campaign server c db).2.
Proof.
  intros Hwf. destruct c as [rq c]. destruct c; cbn [serve_campaign fst snd]; apply route_changes; intros who; unfold with_parsed.
  - destruct (CampaignListQuerySchema _ _); [|apply makes_ret]. apply makes_fmap, makes_reads.
  - destruct (CampaignCreateSchema _ _) as [data|] eqn:Hd; [|apply makes_ret]. apply makes_fmap, makes_nothing.
    by eapply post_known; [eapply create_changes_nothing|].
  - apply makes_fmap, makes_reads.
  - destruct (CampaignUpdateSchema _ _) as [data|] eqn:Hd; [|apply makes_ret].
    apply makes_fmap, update_changes; [done|]. by eapply built_lawful.
  - apply makes_fmap, delete_changes.
  - destruct (named new_id), (named new_name); try apply makes_ret. destruct (_ || _); [apply makes_ret|].
    by apply makes_fmap, clone_changes.
  - destruct (CampaignActionSchema _); [|apply makes_ret]. by apply makes_fmap, action_changes.
  - apply makes_fmap, makes_reads.
  - destruct (CampaignListLinkSchema _) as [[l p]|]; [|apply makes_ret]. apply makes_asks.
    destruct (getCampaign _ _ _); [|apply makes_ret]. by apply makes_bind_ret, link_changes.
  - destruct (BigInt_num _) as [n|]; [|apply makes_ret]. destruct (_ <=? _); [apply makes_ret|]. apply makes_fmap, unlink_changes.
  - apply makes_fmap, makes_reads.
  - apply makes_asks. destruct (getCampaign _ _ _); [|apply makes_ret].
    destruct (StatusOverrideUpsertSchema _) as [input|]; [|apply makes_ret]. by apply makes_fmap, upsert_changes.
  - apply makes_fmap, unoverride_changes.
Qed.

(** ** Runs *)

Lemma changed_wf tenant uid db db' : changed tenant uid db db' → wf_campaigns db → wf_campaigns db'.
Proof.
  intros [->|(a & db1 & He & -> & _)] Hwf; [done|]. destruct (effect_wf _ _ _ He Hwf) as []. by split.
Qed.

Lemma changed_same t tenant uid db db' : changed tenant uid db db' → t ≠ tenant → same_for t db db'.
Proof.
  intros [->|(a & db1 & He & -> & _)] Hne; [done|]. destruct (effect_same t _ _ _ He Hne) as []. by split.
Qed.

Lemma effect_audits tenant db db' : effect tenant db db' → campaign_audits db' = campaign_audits db.
Proof. by destruct 1. Qed.

(** The rows that a run adds to the audit log. *)
Definition logged_by (cs : list (CampaignRequest * CampaignCall)) (a : CampaignAudit) : Prop :=
  ∃ c auth, c ∈ cs ∧ cp_auth c.1 = Some auth ∧ au_tenantId a = a_tenantId auth ∧ au_actorUserId a = a_uid auth.

(** C22: Over every run of the requests on campaigns: the tables stay consistent (rows under
    their keys with all their columns, each setting kept of a value the schema lets
    through, links and overrides of campaigns that exist, links to lists that exist);
    nothing of a tenant changes unless one of its users asked; and the audit log only grows,
    by rows that name the tenant and user of a request. *)
Theorem campaign_runs `{!CampaignCollation server} cs db :
  wf_campaigns db →
  let db' := run_campaigns server cs db in
  wf_campaigns db' ∧
  (∀ t, (∀ c auth, c ∈ cs → cp_auth c.1 = Some auth → a_tenantId auth ≠ t) → same_for t db db') ∧
  ∃ log, campaign_audits db' = campaign_audits db ++ log ∧ Forall (logged_by cs) log.
Proof.
  unfold run_campaigns. revert db. induction cs as [|c cs IH]; intros db Hwf; cbn [fold_left].
  { split_and!; [done|done|]. exists []. by rewrite app_nil_r. }
  pose proof (serve_changes c db Hwf) as Hc. set (db1 := (serve_campaign server c db).2) in *.
  assert (Hwf1 : wf_campaigns db1).
  { destruct Hc as [->|(a & _ & Hc)]; [done|]. by eapply changed_wf. }
  destruct (IH db1 Hwf1) as (Hw & Hs & log & Hlog & Hall). split_and!; [done| |].
  - intros t Ht. transitivity db1.
    + destruct Hc as [->|(a & Ha & Hc)]; [done|]. eapply changed_same; [done|]. intros ->. by apply (Ht c a); [left|..].
    + apply Hs. intros c' auth Hin. apply Ht. by right.
  - assert (Hmore : ∀ a, logged_by cs a → logged_by (c :: cs) a).
    { intros a (c' & auth & Hin & ?). exists c', auth. split; [by right|done]. }
    destruct Hc as [Heq|(auth & Ha & [Heq|(a & db2 & He & Heq & Ht & Hu)])].
    + exists log. rewrite Hlog, Heq. split; [done|]. by eapply Forall_impl.
    + exists log. rewrite Hlog, Heq. split; [done|]. by eapply Forall_impl.
    + exists (a :: log). rewrite Hlog, Heq. cbn. rewrite (effect_audits _ _ _ He), <- app_assoc. split; [done|].
      constructor; [|by eapply Forall_impl]. exists c, auth. split_and!; [by left|done..].
Qed.

End runs.
