(* ===== verification/CampaignTheorems.v ===== *)
(** What the campaign routes do: which filters of leads are accepted, what a patch does to
    each column, and where the routes fall short of what they mean to do.  The sample tables
    of the last part witness the run theorem. *)

From S2P Require Import Prelude StateError JsNumber Zod CampaignSchema Rbac Auth Campaigns CampaignColumns CampaignRuns.

#[local] Open Scope Z_scope.

(** ** Filters of leads *)

Definition occurs_word (w s : string) : Prop :=
  ∃ a m b, s = a +:+ m +:+ b ∧ toLowerCase m = toLowerCase w ∧ word_at (last_of a) = false ∧ word_at (head_of b) = false.

Definition occurs_text (t s : string) : Prop := ∃ a b, s = a +:+ t +:+ b.

Lemma lower_word c : is_word (lower c) = is_word c.
Proof. destruct c as [[] [] [] [] [] [] [] []]; reflexivity. Qed.

Lemma strip_prefix_iff w s rest :
  strip_prefix w s = Some rest ↔ ∃ m, s = m +:+ rest ∧ toLowerCase m = toLowerCase w.
Proof.
  revert s. induction w as [|a w IH]; intros s; cbn [strip_prefix].
  - split; [intros [= ->]; by exists EmptyString|]. intros (m & -> & Hm). by destruct m.
  - destruct s as [|b s]; [split; [done|intros (m & Hs & Hm); by destruct m]|].
    destruct (Ascii.eqb_spec (lower a) (lower b)) as [Hab|Hab].
    + rewrite IH. split.
      * intros (m & -> & Hm). exists (String b m). split; [done|].
        change (String (lower b) (toLowerCase m) = String (lower a) (toLowerCase w)). by rewrite Hab, Hm.
      * intros (m & Hs & Hm). destruct m as [|c m]; [done|]. injection Hs as <- ->. injection Hm as _ Hm. by exists m.
    + split; [done|]. intros (m & Hs & Hm). destruct m as [|c m]; [done|].
      injection Hs as <- ->. injection Hm as Hc _. congruence.
Qed.

Definition last_or (prev : option ascii) (a : string) : option ascii :=
  match last_of a with Some c => Some c | None => prev end.

Lemma last_of_cons c a : is_Some (last_of (String c a)).
Proof. revert c. induction a as [|d a IH]; intros c; [by eexists|apply (IH d)]. Qed.

Lemma last_or_cons prev c a : last_or prev (String c a) = last_or (Some c) a.
Proof. unfold last_or. destruct a as [|d a]; [done|]. destruct (last_of_cons d a) as [x Hx].
  change (last_of (String c (String d a))) with (last_of (String d a)). by rewrite Hx.
Qed.

Lemma head_lower m w : toLowerCase m = toLowerCase w → word_at (head_of m) = word_at (head_of w).
Proof.
  destruct m as [|c m], w as [|d w]; cbn; try done. intros [= H _]. by rewrite <- (lower_word c), <- (lower_word d), H.
Qed.

Lemma head_app m b : m ≠ EmptyString → head_of (m +:+ b) = head_of m.
Proof. by destruct m. Qed.

Section word.
Variable w : string.
Hypothesis whole : word_at (head_of w) = true ∧ word_at (last_of w) = true.

#[local] Lemma lower_nonempty m : toLowerCase m = toLowerCase w → m ≠ EmptyString.
Proof using whole. intros Hm ->. destruct w; [by destruct whole|done]. Qed.

Lemma find_word_iff prev s :
  find_word w prev s = true ↔
  ∃ a m b, s = a +:+ m +:+ b ∧ toLowerCase m = toLowerCase w ∧ word_at (last_or prev a) = false ∧ word_at (head_of b) = false.
Proof using whole.
  revert prev. induction s as [|c s IH]; intros prev; cbn [find_word].
  - split.
    + destruct w as [|x w']; [by destruct whole|]. cbn [strip_prefix]. by rewrite andb_false_r.
    + intros (a & m & b & Hs & Hm & _). apply lower_nonempty in Hm. destruct a, m; done.
  - rewrite orb_true_iff, andb_true_iff, IH. split.
    + intros [[Hx Hp]|(a & m & b & -> & Hm & Ha & Hb)].
      * destruct (strip_prefix w (String c s)) as [rest|] eqn:Hr; [|done]. apply strip_prefix_iff in Hr as (m & Hs & Hm).
        exists EmptyString, m, rest. split_and!; [done|done| |].
        -- pose proof (lower_nonempty m Hm) as Hne. rewrite Hs, head_app, (head_lower m w Hm), (proj1 whole) in Hx by done.
           change (word_at prev = false). by destruct (word_at prev).
        -- rewrite (proj2 whole) in Hp. by destruct (word_at (head_of rest)).
      * exists (String c a), m, b. split_and!; [done|done| |done].
        by rewrite last_or_cons.
    + intros (a & m & b & Hs & Hm & Ha & Hb). destruct a as [|c' a].
      * left. change (word_at prev = false) in Ha. change (String c s = m +:+ b) in Hs. rewrite Hs.
        rewrite (head_app m b (lower_nonempty m Hm)), (head_lower m w Hm), (proj1 whole).
        rewrite Ha. split; [done|].
        assert (strip_prefix w (m +:+ b) = Some b) as -> by (apply strip_prefix_iff; eauto).
        by rewrite (proj2 whole), Hb.
      * right. injection Hs as <- ->. exists a, m, b. rewrite last_or_cons in Ha. eauto.
Qed.

End word.

Lemma find_text_iff t s :
  (∀ m, toLowerCase m = toLowerCase t → m = t) → find_text t s = true ↔ occurs_text t s.
Proof.
  intros Hsigns. unfold occurs_text. induction s as [|c s IH]; cbn [find_text]; rewrite orb_true_iff.
  - split.
    + intros [H|]; [|done]. destruct (strip_prefix t EmptyString) as [rest|] eqn:Hr; [|done].
      apply strip_prefix_iff in Hr as (m & Hs & Hm%Hsigns). subst m. by exists EmptyString, rest.
    + intros (a & b & Hs). left. destruct a; [|done].
      assert (strip_prefix t EmptyString = Some b) as -> by (apply strip_prefix_iff; by exists t). done.
  - rewrite IH. split.
    + intros [H|(a & b & ->)]; [|by exists (String c a), b].
      destruct (strip_prefix t (String c s)) as [rest|] eqn:Hr; [|done].
      apply strip_prefix_iff in Hr as (m & Hs & Hm%Hsigns). subst m. by exists EmptyString, rest.
    + intros (a & b & Hs). destruct a as [|d a].
      * left. assert (strip_prefix t (String c s) = Some b) as -> by (apply strip_prefix_iff; by exists t). done.
      * right. injection Hs as <- ->. by exists a, b.
Qed.

Definition forbidden_words : list string :=
  ["DROP"; "TRUNCATE"; "ALTER"; "CREATE"; "INSERT"; "UPDATE"; "DELETE"; "EXEC"; "EXECUTE"; "UNION"]%string.
Definition forbidden_signs : list string := [";"; "--"; "/*"]%string.

Lemma signs_exact t m : t ∈ forbidden_signs → toLowerCase m = toLowerCase t → m = t.
Proof.
  assert (Hc : ∀ c d, d ∈ [";"; "-"; "/"; "*"]%char → lower c = lower d → c = d).
  { intros c d. rewrite !elem_of_cons. intros [->|[->|[->|[->|[]%elem_of_nil]]]] Hl; revert c Hl.
    all: intros [[] [] [] [] [] [] [] []]; try reflexivity; discriminate. }
  unfold forbidden_signs. rewrite !elem_of_cons. intros [->|[->|[->|[]%elem_of_nil]]] Hm.
  all: destruct m as [|x [|y [|z m]]]; try done.
  all: try injection Hm as Hx; try injection Hm as Hx Hy; f_equal; try (apply Hc; [set_solver|done]).
  all: f_equal; apply Hc; [set_solver|done].
Qed.

Ltac listed := repeat first [apply list_elem_of_here | apply list_elem_of_further].

(** A filter of leads is accepted exactly when none of the ten words occurs in it as a word, in
    letters of any case, and none of the three signs occurs at all. *)
Theorem lead_filter_accepted s :
  isSafeLeadFilterSql s = true ↔
  (∀ w, w ∈ forbidden_words → ¬ occurs_word w s) ∧ (∀ t, t ∈ forbidden_signs → ¬ occurs_text t s).
Proof.
  assert (Hword : ∀ w, w ∈ forbidden_words → find_word w None s = true ↔ occurs_word w s).
  { intros w Hw. rewrite find_word_iff.
    - unfold occurs_word, last_or. split; intros (a & m & b & Hs & Hm & Ha & Hb); exists a, m, b; split_and!; try done;
        by destruct (last_of a).
    - unfold forbidden_words in Hw. rewrite !elem_of_cons in Hw. repeat destruct Hw as [->|Hw]; try done. by apply elem_of_nil in Hw. }
  assert (Hsign : ∀ t, t ∈ forbidden_signs → find_text t s = true ↔ occurs_text t s).
  { intros t Ht. apply find_text_iff. intros m. by apply signs_exact. }
  assert (Htest : existsb (λ p, test p s) FORBIDDEN_SQL_PATTERNS = true ↔
    (∃ w, w ∈ forbidden_words ∧ find_word w None s = true) ∨ (∃ t, t ∈ forbidden_signs ∧ find_text t s = true)).
  { rewrite existsb_exists. split.
    - intros (p & Hp & Ht). cbn in Hp. repeat destruct Hp as [<-|Hp]; [..|done].
      all: cbn [test] in Ht; first [left; eexists; split; [|exact Ht]; listed | right; eexists; split; [|exact Ht]; listed].
    - intros [(w & Hw & Ht)|(t & Hw & Ht)]; [exists (Word w)|exists (Signs t)]; (split; [|done]);
        unfold forbidden_words, forbidden_signs in Hw; rewrite !elem_of_cons in Hw;
        repeat destruct Hw as [->|Hw]; try (by apply elem_of_nil in Hw); apply list_elem_of_In; listed. }
  unfold isSafeLeadFilterSql. rewrite negb_true_iff, <- not_true_iff_false, Htest. split.
  - intros H. split; intros x Hx Hocc; apply H; [left|right]; exists x; (split; [done|]); [by apply Hword|by apply Hsign].
  - intros [H1 H2] [(x & Hx & Ht)|(x & Hx & Ht)]; [apply (H1 x Hx), (Hword x Hx), Ht|apply (H2 x Hx), (Hsign x Hx), Ht].
Qed.

(** ** Patches *)

Section patches.
Variable server : CampaignServer.

(** Whether the audit row of a request has room for what it names. *)
Definition audit_fits (rq : CampaignRequest) (entity : string) : bool :=
  fits server 64 entity && opt_fits server 64 (cp_id rq) && opt_fits server 45 (cp_ip rq) &&
  opt_fits server 255 (cp_userAgent rq).

(** The columns after a patch: those of the members given hold what the table keeps of them,
    every other is as it was. *)
Definition patched (data before after : Members) : Prop :=
  (∀ a v, a ∈ assignments → data !! as_field a = Some v →
     ∃ w, store_column server (as_column a) (convert (as_conversion a) v) = Some w ∧ after !! as_column a = Some w) ∧
  (∀ k, (∀ a, a ∈ assignments → as_column a = k → data !! as_field a = None) → after !! k = before !! k).

Lemma patched_columns data cols before :
  store_columns server (buildCampaignData data) = Some cols → patched data before (cols ∪ before).
Proof.
  intros Hc. split.
  - intros a v Ha Hv. pose proof (built data a Ha) as Hb. rewrite Hv in Hb.
    destruct (store_columns_some _ _ _ _ _ Hc Hb) as (w & Hw & Hlk). exists w. split; [done|]. by apply lookup_union_Some_l.
  - intros k Hk. apply lookup_union_r. rewrite (store_columns_lookup _ _ _ _ Hc).
    destruct (buildCampaignData data !! k) as [v|] eqn:Hv; [|done].
    destruct (built_only _ _ _ Hv) as (a & w & Ha & -> & Hw & _). by rewrite (Hk a Ha eq_refl) in Hw.
Qed.

(** C23: What [PATCH /api/campaigns/:id] does for a user who may edit campaigns.  A body the schema
    refuses is answered 400 and an unknown campaign 404.  When a column refuses its
    value, a reference names no row or the audit row has no room, the request fails and changes
    nothing; otherwise the columns of the members given hold what the table keeps of them, every other
    column, row and table is as it was, and one audit row has the campaign before and after. *)
Theorem patch_campaign_outcome rq auth id body db :
  cp_auth rq = Some auth → checkPerm campaign_edit (Some auth) = None →
  let '(r, db') := patch_campaign server rq id body db in
  match CampaignUpdateSchema (url_text server) body, find_campaign (a_tenantId auth) id db with
  | None, _ => r = CpFail 400 "invalid_body" ∧ db' = db
  | Some _, None => r = CpFail 404 "not_found" ∧ db' = db
  | Some data, Some row =>
      (r = CpThrown ∧ db' = db ∧
       ∀ cols, store_columns server (buildCampaignData data) = Some cols →
         references_known cols db = false ∨ audit_fits rq id = false) ∨
      ∃ row' db1, r = CpCampaign 200 (serializeCampaign row' db1) ∧
        db1 = with_campaigns (<[ (cr_tenantId row, cr_id row) := row' ]> (campaign_rows db)) db ∧
        db' = with_audit (mkCampaignAudit "campaign.updated" (a_tenantId auth) (a_uid auth) id (serialize_bare row)
                            (serializeCampaign row' db1)) db1 ∧
        cr_tenantId row' = cr_tenantId row ∧ cr_id row' = cr_id row ∧ cr_createdAt row' = cr_createdAt row ∧
        patched data (cr_columns row) (cr_columns row')
  end.
Proof.
  intros Ha Hp. unfold patch_campaign, campaign_route. rewrite Ha, Hp. unfold with_parsed.
  destruct (CampaignUpdateSchema (url_text server) body) as [data|]; [|done].
  unfold updateCampaign, fmap, SE_fmap, mbind at 1, SE_bind at 1, asks at 1. cbn [ac_tenantId actor_of].
  destruct (find_campaign (a_tenantId auth) id db) as [row|]; [|done].
  unfold transaction, write_campaign, mbind, SE_bind. unfold require at 1.
  destruct (store_columns server (buildCampaignData data)) as [cols|] eqn:Hc; [|left; by split_and!].
  cbn [mret SE_ret]. unfold asks at 1, check at 1.
  destruct (references_known cols db) eqn:Hr; [|left; split_and!; [done..|]; intros ? [= <-]; by left].
  cbn [mret SE_ret]. unfold update at 1, asks at 1. unfold auditCampaign, mbind, SE_bind. unfold check at 1.
  cbn [ac_requestId ac_ip ac_userAgent ac_tenantId ac_uid actor_of].
  fold (audit_fits rq id). destruct (audit_fits rq id) eqn:Hf; [|left; split_and!; [done..|]; intros ? [= <-]; by right].
  right. eexists _, _. split_and!; [reflexivity|reflexivity|reflexivity|done..|]. by apply patched_columns.
Qed.

End patches.
