(* ===== verification/CampaignShortfalls.v ===== *)
(** Where the campaign routes fall short, and sample tables that meet the invariant. *)

From Stdlib Require Import SpecFloat.
From S2P Require Import Prelude StateError JsNumber Zod CampaignSchema Rbac Auth Campaigns CampaignColumns CampaignRuns CampaignTheorems.

#[local] Open Scope Z_scope.

(** ** No campaign is created *)

Section columns.
Variable server : CampaignServer.

(** The schema gives every new campaign an [adaptive_drop_pct], and the table has no such
    column since it was renamed: [POST /api/campaigns] creates nothing, whatever it is sent,
    and a body the schema accepts ends in an internal error. *)
Theorem no_campaign_created rq body db :
  let '(r, db') := post_campaign server rq body db in
  db' = db ∧
  (checkPerm campaign_create (cp_auth rq) = None → is_Some (CampaignCreateSchema (url_text server) body) → r = CpThrown).
Proof.
  unfold post_campaign, campaign_route. destruct (checkPerm campaign_create (cp_auth rq)) as [e|] eqn:Hp; [done|].
  destruct (cp_auth rq) as [auth|] eqn:Ha; [|done]. unfold with_parsed.
  destruct (CampaignCreateSchema (url_text server) body) as [data|] eqn:Hd; [|split; [done|]; by intros _ [? ?]].
  unfold fmap, SE_fmap. rewrite (create_changes_nothing server _ _ _ _ _ Hd). by split.
Qed.

(** A patch of the percentage fails, on every campaign. *)
Theorem drop_target_unpatchable rq auth id body data db :
  cp_auth rq = Some auth → checkPerm campaign_edit (Some auth) = None →
  CampaignUpdateSchema (url_text server) body = Some data → is_Some (data !! "adaptive_drop_pct"%string) →
  is_Some (find_campaign (a_tenantId auth) id db) → patch_campaign server rq id body db = (CpThrown, db).
Proof.
  intros Ha Hp Hd Hdrop [row Hf]. unfold patch_campaign, campaign_route. rewrite Ha, Hp, Hd. unfold with_parsed, updateCampaign.
  unfold fmap, SE_fmap, mbind at 1, SE_bind at 1, asks at 1. cbn [ac_tenantId actor_of]. rewrite Hf.
  unfold transaction, write_campaign, mbind, SE_bind. by rewrite (drop_pct_refused server data Hdrop).
Qed.

(** And every campaign reads as having none. *)
Theorem drop_target_unread row : row_ok server row → ("adaptive_drop_pct"%string, VNull) ∈ serialize_fields row.
Proof.
  intros [_ Hk _]. unfold serialize_fields. apply elem_of_app. right. apply elem_of_app. left. apply list_elem_of_omap.
  exists ("adaptive_drop_pct", "adaptiveDropPct", as_number)%string. split.
  - unfold serialized_columns. repeat first [apply list_elem_of_here | apply list_elem_of_further].
  - cbn [fst snd read_as]. destruct (cr_columns row !! "adaptiveDropPct"%string) as [v|] eqn:Hv; [|done].
    apply Hk in Hv. by rewrite drop_pct_gone in Hv.
Qed.

End columns.

(** ** Sample tables *)

Definition sample_server : CampaignServer :=
  mkCampaignServer (λ n s, Z.of_nat (String.length s) <=? n) String.eqb String.leb true (λ _, true) (λ _, NaN).

#[export] Instance sample_collation : CampaignCollation sample_server.
Proof. intros s. apply String.eqb_refl. Qed.

Definition sample_value (c : Column) : JsValue :=
  if c_required c then
    match c_type c with
    | t_bool => VBool true
    | t_int _ _ => VNum (num 60)
    | t_bigint => VBig 1
    | t_decimal _ _ => VDec 100
    | t_text _ | t_long_text => VText "Spring"
    | t_enum l => VText (hd EmptyString l)
    | t_json => VTexts []
    | t_date => VDate 0
    end
  else VNull.

(** The columns of a campaign with the schema's defaults. *)
Definition sample_columns : Members :=
  default ∅ (store_columns sample_server
    (delete "adaptiveDropPct"%string (buildCampaignData (default ∅
       (CampaignCreateSchema (url_text sample_server)
          (Some (<[ "id"%string := BText "spring" ]> {[ "name"%string := BText "Spring" ]}))))))) ∪
  list_to_map ((λ c, (c_name c, sample_value c)) <$> campaign_columns).

Definition sample_row : CampaignRow := mkCampaign 1 "spring" sample_columns 0 0.

(** A body that gives a value. *)
Definition body_of (v : JsValue) : BodyValue :=
  match v with
  | VBool b => BBool b
  | VNum x => BNum x
  | VText s => BText s
  | VTexts l => BArray (BText <$> l)
  | _ => BNull
  end.

Definition default_stored (cols : Members) (a : Assignment) : bool :=
  match List.find (λ f, String.eqb (f_name f) (as_field a)) (settings_fields (url_text sample_server)) with
  | Some f =>
      bool_decide (find_column (as_column a) = None :> option Column) ||
      match f_default f with
      | Some u =>
          bool_decide (parse_field f (body_of u) = Some u) &&
          bool_decide (store_column sample_server (as_column a) (convert (as_conversion a) u) = cols !! as_column a) &&
          bool_decide (is_Some (cols !! as_column a))
      | None => false
      end
  | None => true
  end.

Lemma default_stored_settings cols :
  forallb (default_stored cols) assignments = true →
  ∀ a f, a ∈ assignments → f ∈ settings_fields (url_text sample_server) → f_name f = as_field a →
  is_Some (find_column (as_column a)) →
  ∃ v w, admitted f v ∧ store_column sample_server (as_column a) (convert (as_conversion a) v) = Some w ∧
         cols !! as_column a = Some w.
Proof.
  intros Hall a f Ha Hf Hn [c Hc]. rewrite forallb_forall in Hall. specialize (Hall a (proj1 (list_elem_of_In _ _) Ha)).
  unfold default_stored in Hall. destruct (List.find _ _) as [g|] eqn:Hg.
  - apply List.find_some in Hg as [Hg Hgn]. apply list_elem_of_In in Hg. apply String.eqb_eq in Hgn.
    assert (g = f) as -> by (apply (same_setting sample_server); [done|done|congruence]).
    rewrite bool_decide_false in Hall by congruence. cbn [orb] in Hall. destruct (f_default f) as [u|]; [|done].
    apply andb_true_iff in Hall as [[Hp%bool_decide_eq_true Hs%bool_decide_eq_true]%andb_true_iff [w Hw]%bool_decide_eq_true].
    exists u, w. split_and!; [by exists (body_of u)|by rewrite Hs|done].
  - apply list_elem_of_In in Hf. pose proof (List.find_none _ _ Hg f Hf) as Hne. cbn beta in Hne. by rewrite Hn, String.eqb_refl in Hne.
Qed.

Lemma sample_row_ok : row_ok sample_server sample_row.
Proof.
  split; cbn [cr_columns sample_row].
  - assert (H : forallb (λ c, bool_decide (is_Some (sample_columns !! c_name c))) campaign_columns = true)
      by (vm_compute; reflexivity).
    rewrite forallb_forall in H. intros c Hc. by apply list_elem_of_In, H, bool_decide_eq_true in Hc.
  - assert (H : bool_decide (map_Forall (λ k v, store_column sample_server k v = Some v) sample_columns) = true)
      by (vm_compute; reflexivity).
    apply bool_decide_eq_true in H. exact H.
  - apply default_stored_settings. vm_compute. reflexivity.
Qed.

(** A campaign with a list that was switched off; list 8 is another tenant's. *)
Definition sample_db : CampaignDb :=
  mkCampaignDb {[ (1, "spring"%string) := sample_row ]} {[ (1, "spring"%string, 7) := mkCampaignList 5 false 0 ]} ∅
    (<[ 7 := 1 ]> {[ 8 := 2 ]}) (<[ "scriptId"%string := {[ 3 ]} ]> ∅) ∅ [].

Lemma sample_db_wf : wf_campaigns sample_server sample_db.
Proof.
  split; cbn [campaign_rows campaign_lists status_overrides sample_db].
  - by intros k r [<- <-]%lookup_singleton_Some.
  - intros k r [<- <-]%lookup_singleton_Some. apply sample_row_ok.
  - intros k l x [[= <- <-] _]%lookup_singleton_Some. rewrite lookup_singleton_eq. split; [done|]. by vm_compute; eexists.
  - by intros k code x ?%lookup_empty_Some.
Qed.

Definition user_as (role : Role) : CampaignRequest :=
  mkCampaignRequest (Some (mkApiAuth 5 1 role (permsAsSet role) "j" true None AllCampaigns)) None None None 100.

Definition status_of (r : CampaignResponse) : Z :=
  match r with
  | CpFail status _ | CpCampaign status _ => status
  | CpThrown => 500
  | CpNoContent => 204
  | _ => 200
  end.

Definition column_of (id name : string) (db : CampaignDb) : option JsValue :=
  row ← find_campaign 1 id db; cr_columns row !! name.

(** ** What a patch checks *)

(** The plan has data definition and function calls refused; the code refuses neither as
    such. *)
Theorem filters_pass :
  forallb isSafeLeadFilterSql
    ["state = 'NY') OR SLEEP(5) # "; "1=1) RENAME TABLE leads TO gone"; "1) GRANT ALL ON x TO y"; "1) REPLACE INTO leads VALUES (1"]%string = true.
Proof. vm_compute. reflexivity. Qed.

(** The relations between settings are checked within a body: a patch of one side alone is
    accepted and leaves the campaign with less room than it asks for, a lock that ends before
    the call rings out, and water marks in the wrong order. *)
Theorem patch_breaks_relations :
  let patch body := patch_campaign sample_server (user_as admin) "spring" (Some body) sample_db in
  let '(r1, db1) := patch {[ "min_hopper_level"%string := BNum (num 6000) ]} in
  let '(r2, db2) := patch {[ "lock_ttl_sec"%string := BNum (num 5) ]} in
  let '(r3, db3) := patch {[ "low_water_pct"%string := BNum (num 95) ]} in
  status_of r1 = 200 ∧ column_of "spring" "minHopperLevel" db1 = Some (VNum (num 6000)) ∧
    column_of "spring" "maxHopperLevel" db1 = Some (VNum (num 5000)) ∧
  status_of r2 = 200 ∧ column_of "spring" "lockTtlSec" db2 = Some (VNum (num 5)) ∧
    column_of "spring" "dialTimeoutSec" db2 = Some (VNum (num 22)) ∧
  status_of r3 = 200 ∧ column_of "spring" "lowWaterPct" db3 = Some (VNum (num 95)) ∧
    column_of "spring" "highWaterPct" db3 = Some (VNum (num 90)).
Proof. vm_compute. by split_and!. Qed.

(** Multipliers are checked and printed with two decimals, and kept with one. *)
Theorem multiplier_rounded :
  let '(r, db') := patch_campaign sample_server (user_as admin) "spring"
                     (Some {[ "hopper_multiplier"%string := BNum (ndiv (num 5) (num 4)) ]}) sample_db in
  status_of r = 200 ∧ column_of "spring" "hopperMultiplier" db' = Some (VDec 130).
Proof. vm_compute. by split. Qed.

(** ** Links and overrides *)

(** Linking again a list that was switched off answers success and leaves it off; a clone
    switches it on; and a campaign can be given another tenant's list. *)
Theorem links_misled :
  let link l := post_list sample_server (user_as admin) "spring" (Some {[ "list_id"%string := BNum (num l) ]}) sample_db in
  let '(r1, db1) := link 7 in
  let '(r2, db2) := clone_route sample_server (user_as admin) "spring" (Some "copy"%string) (Some "Copy"%string) sample_db in
  let '(r3, db3) := link 8 in
  status_of r1 = 204 ∧ cl_active <$> campaign_lists db1 !! (1, "spring"%string, 7) = Some false ∧
  status_of r2 = 201 ∧ cl_active <$> campaign_lists db2 !! (1, "copy"%string, 7) = Some true ∧
  status_of r3 = 204 ∧ list_tenants db3 !! 8 = Some 2 ∧
    cl_priority <$> campaign_lists db3 !! (1, "spring"%string, 8) = Some 0.
Proof. vm_compute. by split_and!. Qed.

(** The body of an override names its status before the path does. *)
Theorem override_body_wins :
  let '(r, db') := put_override sample_server (user_as admin) "spring" "NA"
                     (Some {[ "status_code"%string := BText "B" ]}) sample_db in
  status_of r = 200 ∧ is_Some (status_overrides db' !! (1, "spring"%string, "B"%string)) ∧
  status_overrides db' !! (1, "spring"%string, "NA"%string) = None.
Proof. vm_compute. split_and!; [done|by eexists|done]. Qed.

(** ** Who may start a campaign *)

(** Supervisors hold the permissions to start and to pause campaigns, which no route asks for:
    starting and pausing ask for the permission to edit. *)
Theorem supervisors_cannot_start server rq auth id body db :
  cp_auth rq = Some auth → a_role auth = supervisor → a_perms auth = permsAsSet supervisor →
  hasPermission supervisor campaign_start = true ∧ hasPermission supervisor campaign_pause = true ∧
  action_route server rq id body db = (CpFail 403 "permission_denied", db) :> CampaignResponse * CampaignDb.
Proof.
  intros Ha Hr Hp. split; [done|]. split; [done|]. unfold action_route, campaign_route, checkPerm. rewrite Ha, Hr, Hp.
  assert (negb (bool_decide (campaign_edit ∈ permsAsSet supervisor)) && negb (hasPermission supervisor campaign_edit) = true) as ->
    by (vm_compute; reflexivity).
  done.
Qed.

(** ** Witnesses *)

Lemma campaign_runs_witness :
  let cs := [(user_as admin, call_patch "spring" (Some {[ "wrapup_seconds"%string := BNum (num 20) ]}));
             (user_as admin, call_clone "spring" (Some "copy"%string) (Some "Copy"%string));
             (user_as viewer, call_delete "spring")] in
  let db' := run_campaigns sample_server cs sample_db in
  wf_campaigns sample_server db' ∧ same_for 2 sample_db db' ∧
  column_of "spring" "wrapupSeconds" db' = Some (VNum (num 20)) ∧ column_of "copy" "active" db' = Some (VBool false).
Proof.
  intros cs db'. destruct (campaign_runs sample_server cs sample_db sample_db_wf) as (Hwf & Hsame & _).
  split; [exact Hwf|]. split.
  - apply Hsame. intros c auth Hin Ha. unfold cs in Hin. rewrite !elem_of_cons in Hin.
    destruct Hin as [->|[->|[->|[]%elem_of_nil]]]; injection Ha as <-; done.
  - vm_compute. by split.
Defined.

Lemma patch_campaign_outcome_witness :
  let rq := user_as admin in let body := Some {[ "wrapup_seconds"%string := BNum (num 20) ]} in
  let '(r, db') := patch_campaign sample_server rq "spring" body sample_db in
  status_of r = 200 ∧ column_of "spring" "wrapupSeconds" db' = Some (VNum (num 20)).
Proof.
  intros rq body.
  pose proof (patch_campaign_outcome sample_server rq (mkApiAuth 5 1 admin (permsAsSet admin) "j" true None AllCampaigns)
    "spring" body sample_db eq_refl eq_refl) as H.
  assert (Hd : CampaignUpdateSchema (url_text sample_server) body = Some {[ "wrapup_seconds"%string := VNum (num 20) ]})
    by (vm_compute; reflexivity).
  assert (Hs : status_of (patch_campaign sample_server rq "spring" body sample_db).1 = 200) by (vm_compute; reflexivity).
  destruct (patch_campaign sample_server rq "spring" body sample_db) as [r db']. rewrite Hd in H. cbn [fst] in Hs.
  change (find_campaign _ "spring" sample_db) with (Some sample_row) in H.
  destruct H as [(-> & _)|(row' & db1 & _ & -> & -> & _ & _ & _ & Hp & _)]; [done|]. split; [exact Hs|].
  destruct (Hp (mkAssign "wrapup_seconds" "wrapupSeconds" keep) (VNum (num 20))) as (w & Hw & Hlk);
    [unfold assignments; listed|reflexivity|].
  unfold column_of, find_campaign. cbn [campaign_rows with_audit with_campaigns].
  change (cr_tenantId sample_row, cr_id sample_row) with (1, "spring"%string).
  rewrite lookup_insert_eq. cbn [mbind option_bind]. cbn [as_column] in Hlk. rewrite Hlk, <- Hw. vm_compute. reflexivity.
Defined.
