(* ===== verification/AdminUsers.v ===== *)
(** The administration of users, [api/src/routes/admin/users]: schemas, the service and its
    routes.  Roles are those of [Rbac]; the table calls a super administrator
    [superadmin].

    An operation is a function of the tables that may throw.  The server ([UserServer]) is a
    parameter: the collation of the columns, their order, what contains a text, what is an
    e-mail address for the schema library, and the password hash.  Rows that go with a
    deleted user are not in the state; those that keep it are. *)

From S2P Require Import Prelude Paging StateError Calendar JsNumber Zod Rbac Auth.

#[local] Open Scope Z_scope.

#[export] Instance UserRole_eq_dec : EqDecision UserRole.
Proof. solve_decision. Defined.

Inductive UserSort := by_username | by_email | by_role | by_active | by_createdAt | by_lastLoginAt.

(** The user group of the library's [bigint] columns, the time stamps in milliseconds. *)
Record UserRow := mkUserRow {
  ur_id : Z;
  ur_tenantId : Z;
  ur_username : string;
  ur_email : option string;
  ur_passwordHash : string;
  ur_fullName : option string;
  ur_role : UserRole;
  ur_userGroupId : option Z;
  ur_active : bool;
  ur_hotkeysActive : bool;
  ur_totpRequired : bool;
  ur_lastLoginAt : option Z;
  ur_createdAt : Z;
  ur_updatedAt : Z;
}.

Record UserServer := mkUserServer {
  same_text : string → string → bool;
  (** the order of a column, ascending *)
  column_le : UserSort → UserRow → UserRow → bool;
  contains : string → string → bool;
  is_email : string → bool;
  hashPassword : string → string;
  number_text : string → Num;
}.

Record UserAudit := mkUserAudit {
  ua_action : string;
  ua_tenantId : Z;
  ua_actorUserId : Z;
  ua_entityId : string;
  ua_before : option (UserRole * bool);
  ua_after : list (string * string);
}.

(** [group_tenants]: the user groups with their tenants; [keeps]: users that an import or an
    asset names, whom the database does not delete. *)
Record UserDb := mkUserDb {
  user_rows : gmap Z UserRow;
  next_user : Z;
  group_tenants : gmap Z Z;
  keeps : gset Z;
  user_audits : list UserAudit;
}.

Definition with_user_rows (m : gmap Z UserRow) (next : Z) (db : UserDb) : UserDb :=
  mkUserDb m next (group_tenants db) (keeps db) (user_audits db).
Definition with_user_audit (a : UserAudit) (db : UserDb) : UserDb :=
  mkUserDb (user_rows db) (next_user db) (group_tenants db) (keeps db) (user_audits db ++ [a]).

Inductive UserError := Forbidden (message : string) | Taken | Failed.

Definition UserOp (A : Type) : Type := SE UserDb UserError A.

(** ** Schemas, [schema.ts] *)

(** [RoleEnum]; viewers are not in it. *)
Definition role_of_text (s : string) : option Role :=
  if String.eqb s "super_admin" then Some super_admin else if String.eqb s "admin" then Some admin
  else if String.eqb s "supervisor" then Some supervisor else if String.eqb s "agent" then Some agent
  else if String.eqb s "integrator" then Some integrator else None.

Definition RoleEnum : Check := z_enum ["super_admin"; "admin"; "supervisor"; "agent"; "integrator"]%string.

Definition positive_bigint (v : BodyValue) : option Z := n ← coerce_bigint v; if 0 <? n then Some n else None.

Definition read_role (v : BodyValue) : option Role := read_text RoleEnum v ≫= role_of_text.
Definition read_group (v : BodyValue) : option (option Z) := or_null positive_bigint v.

Definition username_char (c : ascii) : bool :=
  let n := N_of_ascii c in
  ((97 <=? n) && (n <=? 122) || (48 <=? n) && (n <=? 57) || (n =? 95) || (n =? 46) || (n =? 45))%N.

Definition username_check : Check := z_string 2 64 (string_forallb username_char).
Definition password_check : Check := z_string 12 128 (λ s, has_char is_upper s && has_char is_digit s).

Record UserCreateInput := mkUserCreate {
  uc_username : string;
  uc_email : option string;
  uc_password : string;
  uc_fullName : option string;
  uc_role : Role;
  uc_userGroupId : option Z;
  uc_active : bool;
  uc_hotkeysActive : bool;
  uc_totpRequired : bool;
}.

Record UserUpdateInput := mkUserUpdate {
  uu_email : option string;
  uu_fullName : option string;
  uu_role : option Role;
  uu_userGroupId : option (option Z);
  uu_active : option bool;
  uu_hotkeysActive : option bool;
  uu_totpRequired : option bool;
}.

Record UserListQuery := mkUserQuery {
  uq_page : Z;
  uq_pageSize : Z;
  uq_sort : UserSort;
  uq_descending : bool;
  uq_role : option Role;
  uq_active : option bool;
  uq_search : option string;
}.

Section service.
Variable server : UserServer.

Definition email_check : Check := z_string 0 128 (is_email server).

Definition UserCreateSchema (body : option Body) : option UserCreateInput :=
  b ← body;
  username ← needed "username" username_check text_of b;
  email ← member_opt "email" (read_text email_check) b;
  password ← needed "password" password_check text_of b;
  fullName ← member_opt "fullName" (read_text (z_string 0 128 any_text)) b;
  role ← member_or "role" read_role agent b;
  group ← member_opt "userGroupId" positive_bigint b;
  active ← member_or "active" read_bool true b;
  hotkeysActive ← member_or "hotkeysActive" read_bool true b;
  totpRequired ← member_or "totpRequired" read_bool false b;
  Some (mkUserCreate username email password fullName role group active hotkeysActive totpRequired).

Definition update_members : list string :=
  ["email"; "fullName"; "role"; "userGroupId"; "active"; "hotkeysActive"; "totpRequired"]%string.

(** [strict]: a member of another name is refused. *)
Definition UserUpdateSchema (body : option Body) : option UserUpdateInput :=
  b ← body;
  if negb (bool_decide (map_Forall (λ k _, k ∈ update_members) b)) then None
  else
    email ← member_opt "email" (read_text email_check) b;
    fullName ← member_opt "fullName" (read_text (z_string 0 128 any_text)) b;
    role ← member_opt "role" read_role b;
    group ← member_opt "userGroupId" read_group b;
    active ← member_opt "active" read_bool b;
    hotkeysActive ← member_opt "hotkeysActive" read_bool b;
    totpRequired ← member_opt "totpRequired" read_bool b;
    Some (mkUserUpdate email fullName role group active hotkeysActive totpRequired).

Definition RoleAssignSchema (body : option Body) : option Role := b ← body; b !! "role"%string ≫= read_role.

Definition sort_of_text (s : string) : option UserSort :=
  if String.eqb s "username" then Some by_username else if String.eqb s "email" then Some by_email
  else if String.eqb s "role" then Some by_role else if String.eqb s "active" then Some by_active
  else if String.eqb s "createdAt" then Some by_createdAt else if String.eqb s "lastLoginAt" then Some by_lastLoginAt
  else None.

Definition UserListQuerySchema (query : string → list string) : option UserListQuery :=
  let Number := Number_of (number_text server) in
  page ← coerced_int Number (query "page") 1 1 None;
  pageSize ← coerced_int Number (query "pageSize") 50 1 (Some 200);
  sort ← query_opt (query "sort") sort_of_text;
  dir ← query_opt (query "dir") (λ s, if String.eqb s "asc" then Some false
                                      else if String.eqb s "desc" then Some true else None);
  role ← query_opt (query "role") role_of_text;
  active ← query_opt (query "active") (λ s, Some (if String.eqb s "true" then Some true
                                                  else if String.eqb s "false" then Some false else None));
  search ← query_opt (query "search") (λ s, if utf16_length s <=? 64 then Some s else None);
  Some (mkUserQuery page pageSize (default by_username sort) (default false dir) role (default None active) search).

(** ** The service, [service.ts] *)

Definition toPrismaRole (r : Role) : UserRole :=
  match r with
  | super_admin => db_superadmin
  | admin => db_admin
  | supervisor => db_supervisor
  | agent => db_agent
  | viewer => db_viewer
  | integrator => db_integrator
  end.

Definition fromPrismaRole (r : UserRole) : string :=
  match r with db_superadmin => "super_admin" | _ => user_role_name r end.

Record UserResponse := mkUserResponse {
  us_id : string;
  us_tenantId : string;
  us_username : string;
  us_email : option string;
  us_fullName : option string;
  us_role : string;
  us_userGroupId : option string;
  us_active : bool;
  us_hotkeysActive : bool;
  us_totpRequired : bool;
  us_lastLoginAt : option string;
  us_createdAt : string;
  us_updatedAt : string;
}.

Definition toResponse (u : UserRow) : UserResponse :=
  mkUserResponse (zs (ur_id u)) (zs (ur_tenantId u)) (ur_username u) (ur_email u) (ur_fullName u) (fromPrismaRole (ur_role u))
    (zs <$> ur_userGroupId u) (ur_active u) (ur_hotkeysActive u) (ur_totpRequired u) (toISOString <$> ur_lastLoginAt u)
    (toISOString (ur_createdAt u)) (toISOString (ur_updatedAt u)).

Definition matches_query (tenantId : Z) (q : UserListQuery) (u : UserRow) : bool :=
  (ur_tenantId u =? tenantId) &&
  from_option (λ r, bool_decide (ur_role u = toPrismaRole r)) true (uq_role q) &&
  from_option (λ b, Bool.eqb (ur_active u) b) true (uq_active q) &&
  match uq_search q with
  | None | Some EmptyString => true
  | Some s => contains server s (ur_username u) || from_option (contains server s) false (ur_email u) ||
              from_option (contains server s) false (ur_fullName u)
  end.

Definition order_le (q : UserListQuery) (a b : UserRow) : bool :=
  if uq_descending q then column_le server (uq_sort q) b a else column_le server (uq_sort q) a b.

(** The rows a query finds, in its order. *)
Definition matching (tenantId : Z) (q : UserListQuery) (db : UserDb) : list UserRow :=
  sort_by (order_le q) (List.filter (matches_query tenantId q) (snd <$> map_to_list (user_rows db))).

(** The data of a page, the count of all rows and of pages. *)
Definition listUsers (tenantId : Z) (q : UserListQuery) (db : UserDb) : list UserResponse * Z * Z :=
  let rows := matching tenantId q db in
  let totalCount := Z.of_nat (length rows) in
  (toResponse <$> offset_page (uq_pageSize q) (uq_page q) rows, totalCount, total_pages totalCount (uq_pageSize q)).

Definition find_user (tenantId userId : Z) (db : UserDb) : option UserRow :=
  u ← user_rows db !! userId; if ur_tenantId u =? tenantId then Some u else None.

Definition bigint_max : Z := 9223372036854775807.

(** [findFirst]; the library refuses an identifier beyond 64 bits. *)
Definition find_by_id (tenantId userId : Z) : UserOp (option UserRow) :=
  _ ← check (userId <=? bigint_max) Failed;
  asks (find_user tenantId userId).

Definition getUser (tenantId userId : Z) : UserOp (option UserResponse) := fmap toResponse <$> find_by_id tenantId userId.

(** The unique keys: names, and e-mail addresses that are not [NULL], within the tenant. *)
Definition clashes (u v : UserRow) : bool :=
  negb (ur_id u =? ur_id v) && (ur_tenantId u =? ur_tenantId v) &&
  (same_text server (ur_username u) (ur_username v) ||
   match ur_email u, ur_email v with Some e, Some f => same_text server e f | _, _ => false end).

Definition is_taken (u : UserRow) (db : UserDb) : bool :=
  existsb (clashes u) (snd <$> map_to_list (user_rows db)).

(** The group of a row exists. *)
Definition group_known (u : UserRow) (db : UserDb) : bool :=
  from_option (λ g, bool_decide (is_Some (group_tenants db !! g))) true (ur_userGroupId u).

(** [user.create] and [user.update]; a group beyond 64 bits fails before the keys are looked
    at, an unknown one after. *)
Definition put_user (u : UserRow) (next : Z) : UserOp UserRow :=
  _ ← check (from_option (λ g, g <=? bigint_max) true (ur_userGroupId u)) Failed;
  taken ← asks (is_taken u);
  _ ← check (negb taken) Taken;
  known ← asks (group_known u);
  _ ← check known Failed;
  _ ← update (λ db, with_user_rows (<[ ur_id u := u ]> (user_rows db)) next db);
  mret u.

Definition audit_user (a : UserAudit) : UserOp unit := update (with_user_audit a).

(** [!roleAtLeast(actorRole, role) && actorRole !== "super_admin"] *)
Definition above (actorRole role : Role) : bool :=
  negb (roleAtLeast actorRole role) && negb (bool_decide (actorRole = super_admin)).

Definition createUser (tenantId actorId : Z) (actorRole : Role) (now : Z) (input : UserCreateInput) : UserOp UserResponse :=
  _ ← check (negb (above actorRole (uc_role input))) (Forbidden "Cannot create a user with a higher role than your own");
  transaction (
    id ← asks next_user;
    user ← put_user (mkUserRow id tenantId (uc_username input) (uc_email input) (hashPassword server (uc_password input))
                       (uc_fullName input) (toPrismaRole (uc_role input)) (uc_userGroupId input) (uc_active input)
                       (uc_hotkeysActive input) (uc_totpRequired input) None now now) (id + 1);
    _ ← audit_user (mkUserAudit "auth.user.created" tenantId actorId (zs (ur_id user)) None
                      [("username", ur_username user); ("role", user_role_name (ur_role user))]%string);
    mret (toResponse user)).

Definition bool_text (b : bool) : string := if b then "true" else "false".

(** The action an update is audited under. *)
Definition update_action (input : UserUpdateInput) (before : UserRow) : string :=
  let role_changes := match uu_role input with Some r => negb (bool_decide (toPrismaRole r = ur_role before)) | None => false end in
  if role_changes then "auth.role.changed"
  else if bool_decide (uu_active input = Some false) && ur_active before then "auth.user.deactivated"
  else if bool_decide (uu_active input = Some true) && negb (ur_active before) then "auth.user.activated"
  else "auth.role.changed".

Definition updated_row (input : UserUpdateInput) (now : Z) (u : UserRow) : UserRow :=
  mkUserRow (ur_id u) (ur_tenantId u) (ur_username u)
    (match uu_email input with Some e => Some e | None => ur_email u end) (ur_passwordHash u)
    (match uu_fullName input with Some n => Some n | None => ur_fullName u end)
    (from_option toPrismaRole (ur_role u) (uu_role input)) (default (ur_userGroupId u) (uu_userGroupId input))
    (default (ur_active u) (uu_active input)) (default (ur_hotkeysActive u) (uu_hotkeysActive input))
    (default (ur_totpRequired u) (uu_totpRequired input)) (ur_lastLoginAt u) (ur_createdAt u) now.

Definition updateUser (tenantId actorId : Z) (actorRole : Role) (userId now : Z) (input : UserUpdateInput)
    : UserOp (option UserResponse) :=
  _ ← check (negb (from_option (above actorRole) false (uu_role input))) (Forbidden "Cannot assign a role higher than your own");
  found ← find_by_id tenantId userId;
  match found with
  | None => mret None
  | Some before =>
      transaction (
        next ← asks next_user;
        updated ← put_user (updated_row input now before) next;
        _ ← audit_user (mkUserAudit (update_action input before) tenantId actorId (zs userId)
                          (Some (ur_role before, ur_active before))
                          [("role", user_role_name (ur_role updated)); ("active", bool_text (ur_active updated))]%string);
        mret (Some (toResponse updated)))
  end.

Definition deleteUser (tenantId actorId userId : Z) : UserOp bool :=
  found ← find_by_id tenantId userId;
  match found with
  | None => mret false
  | Some _ =>
      transaction (
        kept ← asks (λ db, bool_decide (userId ∈ keeps db));
        _ ← check (negb kept) Failed;
        _ ← update (λ db, with_user_rows (delete userId (user_rows db)) (next_user db) db);
        _ ← audit_user (mkUserAudit "auth.user.deleted" tenantId actorId (zs userId) None []);
        mret true)
  end.

Definition role_update (r : Role) : UserUpdateInput := mkUserUpdate None None (Some r) None None None None.

Definition assignRole (tenantId actorId : Z) (actorRole : Role) (userId now : Z) (newRole : Role)
    : UserOp (option UserResponse) :=
  updateUser tenantId actorId actorRole userId now (role_update newRole).

(** ** Routes, [index.ts] *)

Inductive UserReply :=
  | UrFail (status : Z) (error message : string)
  | UrThrown
  | UrPage (data : list UserResponse) (page pageSize totalCount totalPages : Z)
  | UrUser (status : Z) (user : UserResponse)
  | UrNoContent.

(** [requireAuth] and [requirePermission] *)
Definition user_route (verb : Verb) (auth : option ApiAuth) (handler : ApiAuth → UserOp UserReply) (db : UserDb)
    : UserReply * UserDb :=
  match requirePermission verb None auth, auth with
  | Some e, _ => (UrFail (statusCode e) (code e) EmptyString, db)
  | None, None => (UrFail 401 "not_authenticated" EmptyString, db)
  | None, Some a =>
      match handler a db with
      | (Ok r, db') => (r, db')
      | (Err (Forbidden message), db') => (UrFail 403 "forbidden" message, db')
      | (Err Taken, db') => (UrThrown, db')
      | (Err Failed, db') => (UrThrown, db')
      end
  end.

(** [POST] answers a key that is taken. *)
Definition answers_taken (m : UserOp UserReply) : UserOp UserReply := λ db,
  match m db with
  | (Err Taken, db') => (Ok (UrFail 409 "conflict" "Username already exists"), db')
  | r => r
  end.

Definition parseUserId (raw : string) : option Z := n ← BigInt raw; if n <=? 0 then None else Some n.

(** The user of a path. *)
Definition with_user_id (raw : string) (k : Z → UserOp UserReply) : UserOp UserReply :=
  match parseUserId raw with
  | None => mret (UrFail 400 "invalid_param" "Invalid userId")
  | Some id => k id
  end.

Definition validated {A} (o : option A) (k : A → UserOp UserReply) : UserOp UserReply :=
  match o with Some a => k a | None => mret (UrFail 400 "validation_error" EmptyString) end.

Definition user_not_found : UserReply := UrFail 404 "not_found" "User not found".

Definition get_users (auth : option ApiAuth) (query : string → list string) : UserDb → UserReply * UserDb :=
  user_route user_edit auth (λ a, validated (UserListQuerySchema query) (λ q,
    (λ r : list UserResponse * Z * Z, UrPage r.1.1 (uq_page q) (uq_pageSize q) r.1.2 r.2) <$>
      asks (listUsers (a_tenantId a) q))).

Definition post_user (auth : option ApiAuth) (now : Z) (body : option Body) : UserDb → UserReply * UserDb :=
  user_route user_create auth (λ a, validated (UserCreateSchema body) (λ input,
    answers_taken (UrUser 201 <$> createUser (a_tenantId a) (a_uid a) (a_role a) now input))).

Definition get_user (auth : option ApiAuth) (raw : string) : UserDb → UserReply * UserDb :=
  user_route user_edit auth (λ a, with_user_id raw (λ id,
    from_option (UrUser 200) user_not_found <$> getUser (a_tenantId a) id)).

Definition patch_user (auth : option ApiAuth) (now : Z) (raw : string) (body : option Body) : UserDb → UserReply * UserDb :=
  user_route user_edit auth (λ a, with_user_id raw (λ id, validated (UserUpdateSchema body) (λ input,
    from_option (UrUser 200) user_not_found <$> updateUser (a_tenantId a) (a_uid a) (a_role a) id now input))).

Definition delete_user (auth : option ApiAuth) (raw : string) : UserDb → UserReply * UserDb :=
  user_route user_delete auth (λ a, with_user_id raw (λ id,
    if a_uid a =? id then mret (UrFail 400 "self_delete" "Cannot delete your own account")
    else (λ deleted : bool, if deleted then UrNoContent else user_not_found) <$> deleteUser (a_tenantId a) (a_uid a) id)).

Definition patch_role (auth : option ApiAuth) (now : Z) (raw : string) (body : option Body) : UserDb → UserReply * UserDb :=
  user_route user_edit auth (λ a, with_user_id raw (λ id, validated (RoleAssignSchema body) (λ role,
    from_option (UrUser 200) user_not_found <$> assignRole (a_tenantId a) (a_uid a) (a_role a) id now role))).

(** ** Every request *)

Inductive UserCall :=
  | call_users (query : string → list string)
  | call_create_user (body : option Body)
  | call_user (userId : string)
  | call_update_user (userId : string) (body : option Body)
  | call_delete_user (userId : string)
  | call_role (userId : string) (body : option Body).

(** A request: who is signed in, when, and what is asked. *)
Definition UserRequest : Type := option ApiAuth * Z * UserCall.

Definition serve_user (c : UserRequest) : UserDb → UserReply * UserDb :=
  let '(auth, now, call) := c in
  match call with
  | call_users q => get_users auth q
  | call_create_user b => post_user auth now b
  | call_user id => get_user auth id
  | call_update_user id b => patch_user auth now id b
  | call_delete_user id => delete_user auth id
  | call_role id b => patch_role auth now id b
  end.

Definition run_users (cs : list UserRequest) (db : UserDb) : UserDb := fold_left (λ db c, (serve_user c db).2) cs db.

End service.
