(* ===== verification/AdminUserTheorems.v ===== *)
(** What the administration of users guarantees: who gives roles, unique names, tenants apart,
    and pages that show every user once; and where it falls short. *)

From S2P Require Import Prelude Paging StateError Calendar JsNumber Zod Rbac Auth AdminUsers.

#[local] Open Scope Z_scope.

(** The collation is an equivalence. *)
Class UserCollation (server : UserServer) : Prop := text_equiv : Equivalence (λ a b, same_text server a b = true).

(** ** Changes *)

Section changes.
Variable server : UserServer.

(** A role that an actor may give. *)
Definition gives (actorRole : Role) (x : UserRole) : Prop := ∃ r, x = toPrismaRole r ∧ above actorRole r = false.

(** A change of a tenant's users. *)
Inductive user_effect (tenant : Z) (role : Role) (db : UserDb) : UserDb → Prop :=
  | ue_create u :
      ur_id u = next_user db → ur_tenantId u = tenant → gives role (ur_role u) →
      is_taken server u db = false → group_known u db = true →
      user_effect tenant role db (with_user_rows (<[ ur_id u := u ]> (user_rows db)) (next_user db + 1) db)
  | ue_update id u u' :
      user_rows db !! id = Some u → ur_tenantId u = tenant → ur_id u' = ur_id u → ur_tenantId u' = tenant →
      ur_username u' = ur_username u → ur_passwordHash u' = ur_passwordHash u →
      ur_role u' = ur_role u ∨ gives role (ur_role u') →
      is_taken server u' db = false → group_known u' db = true →
      user_effect tenant role db (with_user_rows (<[ ur_id u' := u' ]> (user_rows db)) (next_user db) db)
  | ue_delete id u :
      user_rows db !! id = Some u → ur_tenantId u = tenant → id ∉ keeps db →
      user_effect tenant role db (with_user_rows (delete id (user_rows db)) (next_user db) db).

(** The rows are under their identifiers. *)
Definition keyed (db : UserDb) : Prop := ∀ k u, user_rows db !! k = Some u → ur_id u = k.

(** An audit row tells a change: its entity is the only row that differs, and its action and
    texts are those of a creation under the next identifier, an update or a deletion. *)
Definition tells (a : UserAudit) (db db' : UserDb) : Prop :=
  ∃ id, ua_entityId a = zs id ∧ (∀ k, k ≠ id → user_rows db' !! k = user_rows db !! k) ∧
    ((∃ u, id = next_user db ∧ user_rows db' !! id = Some u ∧ ua_action a = "auth.user.created"%string ∧
           ua_after a = [("username", ur_username u); ("role", user_role_name (ur_role u))]%string) ∨
     (∃ u u', user_rows db !! id = Some u ∧ user_rows db' !! id = Some u' ∧
              ua_before a = Some (ur_role u, ur_active u) ∧
              ua_after a = [("role", user_role_name (ur_role u')); ("active", bool_text (ur_active u'))]%string) ∨
     (∃ u, user_rows db !! id = Some u ∧ user_rows db' !! id = None ∧ ua_action a = "auth.user.deleted"%string)).

(** A change with its audit row. *)
Definition audited_by (auth : ApiAuth) (db db' : UserDb) : Prop :=
  ∃ a db1, user_effect (a_tenantId auth) (a_role auth) db db1 ∧ db' = with_user_audit a db1 ∧
           ua_tenantId a = a_tenantId auth ∧ ua_actorUserId a = a_uid auth ∧ tells a db db1.

(** ** The operations make them *)

Lemma post_put u next (Q : result UserError UserRow → UserDb → Prop) db :
  (∀ e, Q (Err e) db) →
  (is_taken server u db = false → group_known u db = true →
   Q (Ok u) (with_user_rows (<[ ur_id u := u ]> (user_rows db)) next db)) →
  post (put_user server u next) Q db.
Proof.
  intros He Hok. unfold put_user. repeat post_step; try apply He. apply Hok; [by apply negb_true_iff|done].
Qed.

Lemma post_audit_user a (Q : result UserError unit → UserDb → Prop) db :
  Q (Ok ()) (with_user_audit a db) → post (audit_user a) Q db.
Proof. apply post_update. Qed.

Lemma create_makes auth now input db :
  makes (audited_by auth db) (createUser server (a_tenantId auth) (a_uid auth) (a_role auth) now input) db.
Proof.
  unfold createUser. apply makes_check. intros Hr%negb_true_iff. apply makes_transaction, post_bind, post_asks, post_bind, post_put; [done|].
  intros Ht Hg. apply post_bind, post_audit_user, post_ret. eexists _, _. split_and!; [|reflexivity..|].
  - apply ue_create; [done|done|by exists (uc_role input)|done|done].
  - eexists. split; [reflexivity|]. cbn. split; [intros k Hk; by rewrite lookup_insert_ne|]. left. eexists.
    split_and!; [done|apply lookup_insert_eq|done|done].
Qed.

Lemma find_makes {A} auth tenantId userId (k : option UserRow → UserOp A) db :
  (∀ o, o = find_user tenantId userId db → makes (audited_by auth db) (k o) db) →
  makes (audited_by auth db) (o ← find_by_id tenantId userId; k o) db.
Proof.
  intros Hk. unfold find_by_id. apply post_bind, post_bind, post_check.
  - intros _. by apply post_asks, Hk.
  - intros _. split; [by left|done].
Qed.

Lemma find_user_some tenantId userId db u :
  find_user tenantId userId db = Some u → user_rows db !! userId = Some u ∧ ur_tenantId u = tenantId.
Proof.
  unfold find_user. destruct (user_rows db !! userId) as [v|]; [|done]. cbn [mbind option_bind].
  destruct (Z.eqb_spec (ur_tenantId v) tenantId); [|done]. by intros [= ->].
Qed.

Lemma update_makes auth userId now input db :
  keyed db →
  makes (audited_by auth db) (updateUser server (a_tenantId auth) (a_uid auth) (a_role auth) userId now input) db.
Proof.
  intros Hkey. unfold updateUser. apply makes_check. intros Hr%negb_true_iff. apply find_makes. intros [u|] Hf; [|apply makes_ret].
  symmetry in Hf. apply find_user_some in Hf as [Hf Htu].
  apply makes_transaction, post_bind, post_asks, post_bind, post_put; [done|]. intros Ht Hg.
  apply post_bind, post_audit_user, post_ret. eexists _, _. split_and!; [|reflexivity..|].
  - apply (ue_update _ _ _ userId u); try done. cbn [ur_role updated_row]. destruct (uu_role input) as [r|]; [right; by exists r|by left].
  - exists userId. split; [done|]. cbn. rewrite (Hkey _ _ Hf). split; [intros k Hk; by rewrite lookup_insert_ne|].
    right. left. exists u, (updated_row input now u). split_and!; [done|apply lookup_insert_eq|done|done].
Qed.

Lemma delete_makes auth userId db :
  makes (audited_by auth db) (deleteUser (a_tenantId auth) (a_uid auth) userId) db.
Proof.
  unfold deleteUser. apply find_makes. intros [u|] Hf; [|apply makes_ret]. symmetry in Hf. apply find_user_some in Hf as [Hf Htu].
  apply makes_transaction, post_bind, post_asks, post_bind, post_check; [|done].
  intros Hk%negb_true_iff%bool_decide_eq_false. apply post_bind, post_update, post_bind, post_audit_user, post_ret.
  eexists _, _. split_and!; [by apply (ue_delete _ _ _ userId u)|reflexivity..|].
  exists userId. split; [done|]. cbn. split; [intros k Hne; by rewrite lookup_delete_ne|].
  right. right. exists u. split_and!; [done|apply lookup_delete_eq|done].
Qed.

(** What a request changes, and who signed it. *)
Definition user_changed (auth : option ApiAuth) (db db' : UserDb) : Prop :=
  db' = db ∨ ∃ a, auth = Some a ∧ audited_by a db db'.

Lemma user_route_makes verb auth handler db :
  (∀ a, makes (audited_by a db) (handler a) db) → user_changed auth db (user_route verb auth handler db).2.
Proof.
  intros Hh. unfold user_route. destruct (requirePermission verb None auth); [by left|].
  destruct auth as [a|]; [|by left]. specialize (Hh a) as [Hc He].
  destruct (handler a db) as [[r|[m| |]] db']; cbn in *; (destruct Hc as [->|Hc]; [by left|right; by exists a]).
Qed.

Lemma answers_taken_makes auth (m : UserOp UserReply) db :
  makes (audited_by auth db) m db → makes (audited_by auth db) (answers_taken m) db.
Proof.
  intros [Hc He]. destruct (m db) as [r db'] eqn:E. cbn in Hc, He.
  destruct r as [r|[msg| |]]; (eapply post_known; [unfold answers_taken; rewrite E; reflexivity|]); (split; [done|]); try done.
  all: intros e [= <-]; by eapply He.
Qed.

Lemma serve_user_makes c db : keyed db → user_changed c.1.1 db (serve_user server c db).2.
Proof.
  intros Hkey. destruct c as [[auth now] c]. destruct c; cbn [serve_user fst]; apply user_route_makes; intros a;
    unfold validated, with_user_id; try (destruct (parseUserId _) as [id|]; [|apply makes_ret]).
  - destruct (UserListQuerySchema _ _); [|apply makes_ret]. apply makes_fmap, makes_reads.
  - destruct (UserCreateSchema _ _); [|apply makes_ret]. apply answers_taken_makes, makes_fmap, create_makes.
  - apply makes_fmap. unfold getUser. apply makes_fmap. unfold find_by_id. apply makes_check. intros _. apply makes_reads.
  - destruct (UserUpdateSchema _ _); [|apply makes_ret]. by apply makes_fmap, update_makes.
  - destruct (_ =? _); [apply makes_ret|]. apply makes_fmap, delete_makes.
  - destruct (RoleAssignSchema _); [|apply makes_ret]. apply makes_fmap. unfold assignRole. by apply update_makes.
Qed.

End changes.

(** ** The invariant *)

Section runs.
Variable server : UserServer.

Record wf_users (db : UserDb) : Prop := {
  wu_key k u : user_rows db !! k = Some u → ur_id u = k;
  wu_next k u : user_rows db !! k = Some u → k < next_user db;
  wu_group k u : user_rows db !! k = Some u → group_known u db = true;
  wu_unique j k u v : user_rows db !! j = Some u → user_rows db !! k = Some v → clashes server u v = false;
}.

Lemma not_taken u db k v : is_taken server u db = false → user_rows db !! k = Some v → clashes server u v = false.
Proof.
  unfold is_taken. intros Ht Hv. apply not_true_iff_false. intros Hc. apply not_true_iff_false in Ht. apply Ht, existsb_exists.
  exists v. split; [|done]. apply list_elem_of_In, list_elem_of_fmap. exists (k, v). by rewrite elem_of_map_to_list.
Qed.

Lemma clashes_sym `{!UserCollation server} u v : clashes server u v = clashes server v u.
Proof.
  assert (Hs : ∀ a b, same_text server a b = same_text server b a).
  { intros a b. apply eq_true_iff_eq. by split; apply (Equivalence_Symmetric (Equivalence := text_equiv)). }
  unfold clashes. rewrite (Z.eqb_sym (ur_id u)), (Z.eqb_sym (ur_tenantId u)), (Hs (ur_username u)). do 2 f_equal.
  destruct (ur_email u), (ur_email v); [apply Hs|done..].
Qed.

Lemma clashes_self u : clashes server u u = false.
Proof. unfold clashes. by rewrite Z.eqb_refl. Qed.

(** A row that is put where no other row clashes. *)
Lemma put_wf `{!UserCollation server} u next db :
  wf_users db → ur_id u < next → next_user db <= next → is_taken server u db = false → group_known u db = true →
  wf_users (with_user_rows (<[ ur_id u := u ]> (user_rows db)) next db).
Proof.
  intros [Hk Hn Hg Hu] Hid Hnext Ht Hgu. split; cbn [user_rows next_user with_user_rows].
  - intros k v [[<- <-]|[_ H]]%lookup_insert_Some; [done|by apply Hk].
  - intros k v [[<- <-]|[_ H]]%lookup_insert_Some; [done|]. apply Hn in H. lia.
  - intros k v [[_ <-]|[_ H]]%lookup_insert_Some; [done|by apply (Hg k)].
  - intros j k v w [[_ <-]|[_ Hv]]%lookup_insert_Some [[_ <-]|[_ Hw]]%lookup_insert_Some.
    + apply clashes_self.
    + by apply (not_taken _ _ _ _ Ht Hw).
    + rewrite clashes_sym. by apply (not_taken _ _ _ _ Ht Hv).
    + by apply (Hu j k).
Qed.

Lemma user_effect_wf `{!UserCollation server} tenant role db db' :
  user_effect server tenant role db db' → wf_users db → wf_users db'.
Proof.
  intros He Hwf. destruct He as [u Hid Ht Hr Htk Hg|id u u' Hf Ht Hid Ht' Hn Hp Hr Htk Hg|id u Hf Ht Hk].
  - apply put_wf; [done|lia|lia|done|done].
  - apply put_wf; [done| |lia|done|done]. rewrite Hid, (wu_key _ Hwf _ _ Hf). by apply (wu_next _ Hwf _ _ Hf).
  - destruct Hwf as [H1 H2 H3 H4]. split; cbn [user_rows next_user with_user_rows].
    + intros k v [_ H]%lookup_delete_Some. by apply H1.
    + intros k v [_ H]%lookup_delete_Some. by apply (H2 k v).
    + intros k v [_ H]%lookup_delete_Some. by apply (H3 k).
    + intros j k v w [_ Hv]%lookup_delete_Some [_ Hw]%lookup_delete_Some. by apply (H4 j k).
Qed.

(** The users of a tenant are as they were. *)
Definition same_users (tenant : Z) (db db' : UserDb) : Prop :=
  ∀ k u, ur_tenantId u = tenant → user_rows db' !! k = Some u ↔ user_rows db !! k = Some u.

Lemma user_effect_same t tenant role db db' :
  user_effect server tenant role db db' → wf_users db → t ≠ tenant → same_users t db db'.
Proof.
  intros He [Hk Hnext _ _] Hne k v Hv. destruct He as [u Hid Ht _ _ _|id u u' Hf Ht Hid Ht' _ _ _ _ _|id u Hf Ht _]; cbn.
  - rewrite lookup_insert_Some. split; [intros [[_ ->]|[_ H]]; [congruence|done]|].
    intros H. right. split; [|done]. intros <-. apply Hnext in H. lia.
  - rewrite lookup_insert_Some. split; [intros [[_ ->]|[_ H]]; [congruence|done]|].
    intros H. right. split; [|done]. intros <-. rewrite Hid, (Hk _ _ Hf) in H. congruence.
  - rewrite lookup_delete_Some. split; [by intros [_ H]|]. intros H. split; [|done]. intros ->. congruence.
Qed.

(** The role of a user is one they had, or one that a request gave. *)
Definition role_kept (db : UserDb) (k : Z) (u' : UserRow) : Prop :=
  ∃ u, user_rows db !! k = Some u ∧ ur_role u = ur_role u' ∧ ur_tenantId u = ur_tenantId u'.

Lemma user_effect_roles tenant role db db' k u' :
  user_effect server tenant role db db' → wf_users db → user_rows db' !! k = Some u' →
  role_kept db k u' ∨ (ur_tenantId u' = tenant ∧ gives role (ur_role u')).
Proof.
  intros He [Hk _ _ _] Hu'. destruct He as [u Hid Ht Hg _ _|id u w Hf Ht Hid Ht' _ _ Hr _ _|id u Hf Ht _]; cbn in Hu'.
  - apply lookup_insert_Some in Hu' as [[_ <-]|[_ H]]; [by right|left; by exists u'].
  - apply lookup_insert_Some in Hu' as [[<- <-]|[_ H]]; [|left; by exists u'].
    destruct Hr as [Hr|Hg]; [left; exists u|by right]. rewrite Hid, (Hk _ _ Hf), Hr, Ht, Ht'. done.
  - apply lookup_delete_Some in Hu' as [_ H]. left; by exists u'.
Qed.

(** ** Runs *)

(** A request of a run that is signed. *)
Definition signed (cs : list UserRequest) (a : ApiAuth) : Prop := ∃ c, c ∈ cs ∧ c.1.1 = Some a.

Lemma with_audit_users a db : user_rows (with_user_audit a db) = user_rows db.
Proof. done. Qed.

Lemma audited_wf `{!UserCollation server} a db db' : audited_by server a db db' → wf_users db → wf_users db'.
Proof. intros (au & db1 & He & -> & _) Hwf. destruct (user_effect_wf _ _ _ _ He Hwf) as []. by split. Qed.

(** C27: Over every run of the requests on users: a user's role is one that the same user had before
    the run, or one that a signed request of that tenant gave whose own role is at least as
    high (or is super administrator).  No sequence of requests raises anybody above those who ask. *)
Theorem roles_given `{!UserCollation server} cs db k u' :
  wf_users db → user_rows (run_users server cs db) !! k = Some u' →
  role_kept db k u' ∨ ∃ a, signed cs a ∧ a_tenantId a = ur_tenantId u' ∧ gives (a_role a) (ur_role u').
Proof.
  unfold run_users. revert db. induction cs as [|c cs IH]; intros db Hwf; cbn [fold_left]; [intros Hu; left; by exists u'|].
  set (db1 := (serve_user server c db).2). pose proof (serve_user_makes server c db (wu_key _ Hwf)) as Hc. fold db1 in Hc.
  assert (Hmore : ∀ a, signed cs a → signed (c :: cs) a) by (intros a (c' & Hin & ?); exists c'; split; [by right|done]).
  assert (Hwf1 : wf_users db1) by (destruct Hc as [->|(a & _ & Hc)]; [done|by eapply audited_wf]).
  intros Hu. destruct (IH db1 Hwf1 Hu) as [(u1 & H1 & Hr1 & Ht1)|(a & Ha & ?)]; [|right; exists a; by split; [apply Hmore|]].
  destruct Hc as [Heq|(a & Ha & au & db2 & He & Heq & _)].
  - rewrite Heq in H1. left. by exists u1.
  - rewrite Heq, with_audit_users in H1.
    destruct (user_effect_roles _ _ _ _ _ _ He Hwf H1) as [(u & Hu0 & Hr & Ht)|[Ht Hg]].
    + left. exists u. split_and!; [done|congruence|congruence].
    + right. exists a. split_and!; [exists c; split; [by left|done]|congruence|by rewrite <- Hr1].
Qed.

Lemma serve_user_wf `{!UserCollation server} c db : wf_users db → wf_users (serve_user server c db).2.
Proof.
  intros Hwf. destruct (serve_user_makes server c db (wu_key _ Hwf)) as [->|(a & _ & Ha)]; [done|by eapply audited_wf].
Qed.

Lemma run_users_wf `{!UserCollation server} cs db : wf_users db → wf_users (run_users server cs db).
Proof. unfold run_users. revert db. induction cs as [|c cs IH]; intros db Hwf; [done|]. by apply IH, serve_user_wf. Qed.

(** An identifier that was given before and is free. *)
Definition spent_id (db : UserDb) (k : Z) : Prop := k < next_user db ∧ user_rows db !! k = None.

Lemma user_effect_spent tenant role db db' k :
  user_effect server tenant role db db' → keyed db → spent_id db k → spent_id db' k.
Proof.
  intros He Hkey [Hk Hno]. destruct He as [u Hid _ _ _ _|id u u' Hf _ Hid _ _ _ _ _ _|id u _ _ _]; split; cbn; try lia.
  - rewrite lookup_insert_ne; [done|lia].
  - rewrite lookup_insert_ne; [done|]. rewrite Hid, (Hkey _ _ Hf). by intros ->; rewrite Hf in Hno.
  - rewrite lookup_delete. by destruct (decide _).
Qed.

Lemma serve_user_spent `{!UserCollation server} c db k : wf_users db → spent_id db k → spent_id (serve_user server c db).2 k.
Proof.
  intros Hwf Hs. destruct (serve_user_makes server c db (wu_key _ Hwf)) as [->|(a & _ & au & db1 & He & -> & _)]; [done|].
  exact (user_effect_spent _ _ _ _ _ He (wu_key _ Hwf) Hs).
Qed.

Lemma serve_user_same `{!UserCollation server} t c db :
  wf_users db → (∀ a, c.1.1 = Some a → a_tenantId a ≠ t) → same_users t db (serve_user server c db).2.
Proof.
  intros Hwf Ht. destruct (serve_user_makes server c db (wu_key _ Hwf)) as [->|(a & Ha & au & db1 & He & -> & _)]; [by intros|].
  apply (user_effect_same t _ _ _ _ He Hwf). intros ->. by apply (Ht a).
Qed.

(** What a request leaves: the tables as they were, or one audit row more that names its tenant and user
    and tells the change. *)
Definition one_audit (c : UserRequest) (db db' : UserDb) : Prop :=
  db' = db ∨
  ∃ a au, c.1.1 = Some a ∧ user_audits db' = user_audits db ++ [au] ∧
    ua_tenantId au = a_tenantId a ∧ ua_actorUserId au = a_uid a ∧ tells au db db'.

Lemma serve_user_audits c db : keyed db → one_audit c db (serve_user server c db).2.
Proof.
  intros Hkey. destruct (serve_user_makes server c db Hkey) as [->|(a & Ha & au & db1 & He & -> & Ht & Hu & Htell)]; [by left|].
  right. exists a, au. split_and!; [done| |done|done|exact Htell]. by destruct He.
Qed.

(** C29: From tables where names and e-mail addresses are unique within a tenant, under the
    collation of the table, and groups exist, they stay so over every run of the requests on users; an
    identifier that was given and is free stays free; the users of a tenant stay as they are
    unless one of its users asked; and each request leaves the tables as they are or adds one
    audit row, which names its tenant and user, the one row it changed, and the change. *)
Theorem user_runs `{!UserCollation server} cs db :
  wf_users db →
  wf_users (run_users server cs db) ∧
  (∀ k, spent_id db k → spent_id (run_users server cs db) k) ∧
  (∀ t, (∀ a, signed cs a → a_tenantId a ≠ t) → same_users t db (run_users server cs db)) ∧
  (∀ cs1 c cs2, cs = cs1 ++ c :: cs2 →
     one_audit c (run_users server cs1 db) (run_users server (cs1 ++ [c]) db)).
Proof.
  intros Hwf. split_and!.
  - by apply run_users_wf.
  - unfold run_users. revert db Hwf. induction cs as [|c cs IH]; intros db Hwf k Hk; [done|].
    by apply IH; [apply serve_user_wf|apply serve_user_spent].
  - unfold run_users. revert db Hwf. induction cs as [|c cs IH]; intros db Hwf t Ht; [done|].
    intros k u Hu. cbn [fold_left]. etransitivity.
    + apply (IH _ (serve_user_wf c db Hwf) t); [|done]. intros a (c' & Hin & Ha). apply Ht. exists c'. split; [by right|done].
    + refine (serve_user_same t c db Hwf _ k u Hu). intros a Ha. apply Ht. exists c. split; [by left|done].
  - intros cs1 c cs2 _. unfold run_users. rewrite fold_left_app. apply serve_user_audits. exact (wu_key _ (run_users_wf cs1 db Hwf)).
Qed.

(** ** Pages *)

(** The pages of a query, one after the other. *)
Definition page_of (q : UserListQuery) (page : Z) : UserListQuery :=
  mkUserQuery page (uq_pageSize q) (uq_sort q) (uq_descending q) (uq_role q) (uq_active q) (uq_search q).

(** The pages of a list of users up to [totalPages] are, put together, the users that the query finds, each
    once and in its order, and the page after them is empty. *)
Theorem user_pages_exact tenantId q db :
  0 < uq_pageSize q →
  let '(_, totalCount, totalPages) := listUsers server tenantId q db in
  let page i := (listUsers server tenantId (page_of q (Z.of_nat i + 1)) db).1.1 in
  mjoin (page <$> seq 0 (Z.to_nat totalPages)) = toResponse <$> matching server tenantId q db ∧
  totalCount = Z.of_nat (length (matching server tenantId q db)) ∧
  ∀ i, totalPages <= Z.of_nat i → page i = [].
Proof.
  intros Hs. destruct (offset_pages toResponse (uq_pageSize q) (matching server tenantId q db) Hs) as [Hall Hend].
  by split_and!; [exact Hall| |exact Hend].
Qed.

End runs.

(** ** Where it falls short *)

Definition sample_users : UserServer :=
  mkUserServer String.eqb (λ _ a b, ur_id a <=? ur_id b) (λ _ _, false) (λ _, true) (λ p, "hash of " +:+ p) (λ _, NaN).

#[export] Instance sample_users_collation : UserCollation sample_users.
Proof.
  split.
  - intros a. apply String.eqb_refl.
  - intros a b H. cbn in *. by rewrite String.eqb_sym.
  - intros a b c ->%String.eqb_eq ->%String.eqb_eq. apply String.eqb_refl.
Qed.

Definition sample_user (id tenant : Z) (name : string) (role : UserRole) : UserRow :=
  mkUserRow id tenant name None "hash" None role None true true false None 0 0.

(** Tenant 1 has a super administrator, an administrator and an agent; tenant 2 the group 9. *)
Definition sample_user_db : UserDb :=
  mkUserDb (<[ 1 := sample_user 1 1 "root" db_superadmin ]> (<[ 2 := sample_user 2 1 "ada" db_admin ]>
              {[ 3 := sample_user 3 1 "bob" db_agent ]})) 4 {[ 9 := 2 ]} ∅ [].

Definition ada : option ApiAuth := Some (mkApiAuth 2 1 admin (permsAsSet admin) "j" true None AllCampaigns).

Definition user_status (r : UserReply) : Z :=
  match r with UrFail status _ _ | UrUser status _ => status | UrThrown => 500 | UrPage _ _ _ _ _ => 200 | UrNoContent => 204 end.

(** Only the role that is given is compared with the actor's, never the one that is taken away: an
    administrator makes a super administrator an agent, switches one off and deletes one. *)
Theorem admin_unseats_superadmin :
  let body k v : option Body := Some {[ k := v ]} in
  let '(r1, db1) := serve_user sample_users (ada, 5, call_role "1" (body "role"%string (BText "agent"))) sample_user_db in
  let '(r2, db2) := serve_user sample_users (ada, 5, call_update_user "1" (body "active"%string (BBool false))) sample_user_db in
  let '(r3, db3) := serve_user sample_users (ada, 5, call_delete_user "1") sample_user_db in
  user_status r1 = 200 ∧ ur_role <$> user_rows db1 !! 1 = Some db_agent ∧
  user_status r2 = 200 ∧ ur_active <$> user_rows db2 !! 1 = Some false ∧
  user_status r3 = 204 ∧ user_rows db3 !! 1 = None.
Proof. vm_compute. by split_and!. Qed.

(** Integrators are outside the hierarchy: the role is above every other but the super
    administrator's, who cannot sign in, so that nobody can create one. *)
Theorem integrators_uncreatable r : above r integrator = false ↔ r = integrator ∨ r = super_admin.
Proof. destruct r; vm_compute; naive_solver. Qed.

(** A change of anything but role and activity is audited as a change of role; switching a
    user off with a change of role is audited as that alone. *)
Theorem audit_actions_misnamed u name :
  ur_role u = db_agent →
  update_action (mkUserUpdate None (Some name) None None None None None) u = "auth.role.changed"%string ∧
  update_action (mkUserUpdate None None (Some supervisor) None (Some false) None None) u = "auth.role.changed"%string.
Proof. intros Hr. unfold update_action. cbn. rewrite Hr. by split. Qed.

(** A user may be put into a group of another tenant. *)
Theorem foreign_group :
  let '(r, db') := serve_user sample_users (ada, 5, call_update_user "3" (Some {[ "userGroupId"%string := BText "9" ]}))
                     sample_user_db in
  user_status r = 200 ∧ ur_userGroupId <$> user_rows db' !! 3 = Some (Some 9) ∧ group_tenants db' !! 9 = Some 2.
Proof. vm_compute. by split_and!. Qed.

(** Nothing keeps the last administrator of a tenant from giving the role up. *)
Theorem last_admin_leaves :
  let '(r, db') := serve_user sample_users (ada, 5, call_role "2" (Some {[ "role"%string := BText "agent" ]})) sample_user_db in
  user_status r = 200 ∧ ur_role <$> user_rows db' !! 2 = Some db_agent.
Proof. vm_compute. by split. Qed.

(** ** Witnesses *)

Lemma sample_user_db_wf : wf_users sample_users sample_user_db.
Proof.
  assert (Hrows : ∀ k u, user_rows sample_user_db !! k = Some u →
    (k, u) = (1, sample_user 1 1 "root" db_superadmin) ∨ (k, u) = (2, sample_user 2 1 "ada" db_admin) ∨
    (k, u) = (3, sample_user 3 1 "bob" db_agent)).
  { intros k u. cbn [user_rows sample_user_db]. rewrite !lookup_insert_Some, lookup_singleton_Some. naive_solver. }
  split.
  - intros k u [[= -> ->]|[[= -> ->]|[= -> ->]]]%Hrows; done.
  - intros k u [[= -> ->]|[[= -> ->]|[= -> ->]]]%Hrows; done.
  - intros k u [[= -> ->]|[[= -> ->]|[= -> ->]]]%Hrows; done.
  - intros j k u v [[= -> ->]|[[= -> ->]|[= -> ->]]]%Hrows [[= -> ->]|[[= -> ->]|[= -> ->]]]%Hrows; done.
Qed.

Definition sample_calls : list UserRequest :=
  [(ada, 5, call_create_user (Some (<[ "username"%string := BText "eve" ]>
      (<[ "role"%string := BText "supervisor" ]> {[ "password"%string := BText "A long passw0rd" ]}))));
   (ada, 6, call_role "4" (Some {[ "role"%string := BText "super_admin" ]}))].

Lemma roles_given_witness :
  let db' := run_users sample_users sample_calls sample_user_db in
  ur_role <$> user_rows db' !! 4 = Some db_supervisor ∧
  ∃ a, signed sample_calls a ∧ a_tenantId a = 1 ∧ gives (a_role a) db_supervisor.
Proof.
  intros db'. assert (Hr : ur_role <$> user_rows db' !! 4 = Some db_supervisor) by (vm_compute; reflexivity).
  assert (Ht : ur_tenantId <$> user_rows db' !! 4 = Some 1) by (vm_compute; reflexivity).
  split; [exact Hr|]. destruct (user_rows db' !! 4) as [u'|] eqn:Hu; [|done]. injection Hr as Hr. injection Ht as Ht.
  destruct (roles_given sample_users sample_calls sample_user_db 4 u' sample_user_db_wf Hu) as [(u & Hu0 & _)|(a & Ha & Hta & Hg)].
  - done.
  - exists a. by rewrite <- Hr, Hta.
Defined.

Lemma user_runs_witness :
  let db' := run_users sample_users sample_calls sample_user_db in
  wf_users sample_users db' ∧ same_users 2 sample_user_db db' ∧ next_user db' = 5 ∧ length (user_audits db') = 1%nat.
Proof.
  intros db'. destruct (user_runs sample_users sample_calls sample_user_db sample_user_db_wf) as (Hw & _ & Hs & _).
  split_and!; [exact Hw| |vm_compute; reflexivity..]. apply Hs. intros a (c & Hc & Ha).
  unfold sample_calls in Hc. rewrite !elem_of_cons in Hc. destruct Hc as [->|[->|[]%elem_of_nil]]; by injection Ha as <-.
Defined.

Lemma user_pages_exact_witness :
  let q := mkUserQuery 1 2 by_username false None None None in
  (listUsers sample_users 1 q sample_user_db).2 = 2 ∧
  (toResponse <$> matching sample_users 1 q sample_user_db) =
    mjoin ((λ i : nat, (listUsers sample_users 1 (page_of q (Z.of_nat i + 1)) sample_user_db).1.1) <$> seq 0 2).
Proof.
  intros q. pose proof (user_pages_exact sample_users 1 q sample_user_db) as H.
  assert (Hp : (listUsers sample_users 1 q sample_user_db).2 = 2) by (vm_compute; reflexivity). split; [exact Hp|].
  destruct (listUsers sample_users 1 q sample_user_db) as [[d c] p] eqn:E. cbn in Hp. subst p.
  destruct H as (Hm & _); [done|]. by rewrite <- Hm.
Defined.
