(* ===== verification/StatusCache.v ===== *)
(** The in-process cache of [api/src/statuses/cache.ts]: a [Map] in the order of insertion,
    entries that expire after a minute, the oldest of which gives way when a thousand are
    there, and the channel on which processes tell each other what to forget.

    Against it stands the map of what was set last: the cache returns that, or nothing. *)

From S2P Require Import Prelude.

#[local] Open Scope Z_scope.

Definition CACHE_TTL_MS : Z := 60000.
Definition MAX_ENTRIES : nat := Z.to_nat 1000.

Section cache.
Context {A : Type}.

Record CacheEntry := mkCacheEntry { ce_data : A; ce_expiresAt : Z }.

(** A [Map]. *)
Abbreviation Store := (list (string * CacheEntry)).

Fixpoint store_get (key : string) (s : Store) : option CacheEntry :=
  match s with
  | [] => None
  | (k, e) :: s' => if String.eqb k key then Some e else store_get key s'
  end.

Definition store_delete (key : string) (s : Store) : Store := List.filter (λ kv, negb (String.eqb kv.1 key)) s.

(** A key that is there keeps its place. *)
Fixpoint store_set (key : string) (e : CacheEntry) (s : Store) : Store :=
  match s with
  | [] => [(key, e)]
  | (k, e') :: s' => if String.eqb k key then (k, e) :: s' else (k, e') :: store_set key e s'
  end.

Definition cacheKey (tenantId : Z) (campaignId : string) : string := zs tenantId +:+ ":" +:+ campaignId.

Definition evictOldest (s : Store) : Store := if (length s <? MAX_ENTRIES)%nat then s else tl s.

Definition cacheGet (now tenantId : Z) (campaignId : string) (s : Store) : option A * Store :=
  let key := cacheKey tenantId campaignId in
  match store_get key s with
  | None => (None, s)
  | Some e => if ce_expiresAt e <? now then (None, store_delete key s) else (Some (ce_data e), s)
  end.

Definition cacheSet (now tenantId : Z) (campaignId : string) (data : A) (s : Store) : Store :=
  store_set (cacheKey tenantId campaignId) (mkCacheEntry data (now + CACHE_TTL_MS)) (evictOldest s).

Definition cacheInvalidate (tenantId : Z) (campaignId : string) : Store → Store := store_delete (cacheKey tenantId campaignId).

Definition cacheClear : Store := [].

(** ** Laws *)

Lemma store_get_delete key k s : store_get k (store_delete key s) = if String.eqb key k then None else store_get k s.
Proof.
  unfold store_delete. induction s as [|[k' e] s IH]; cbn; [by destruct (String.eqb key k)|]. destruct (String.eqb_spec k' key) as [->|Hne]; cbn.
  - rewrite IH. by destruct (String.eqb key k).
  - destruct (String.eqb_spec k' k) as [->|]; [|done]. by destruct (String.eqb_spec key k) as [->|].
Qed.

Lemma store_get_set key e k s : store_get k (store_set key e s) = if String.eqb key k then Some e else store_get k s.
Proof.
  induction s as [|[k' e'] s IH]; cbn; [done|]. destruct (String.eqb_spec k' key) as [->|Hne]; cbn.
  - by destruct (String.eqb key k).
  - destruct (String.eqb_spec k' k) as [->|]; [|done]. by destruct (String.eqb_spec key k) as [->|].
Qed.

Abbreviation keys := (fmap fst : Store → list string).

Lemma store_get_in key e s : NoDup (keys s) → (key, e) ∈ s ↔ store_get key s = Some e.
Proof.
  induction s as [|[k' e'] s IH]; cbn; intros Hn; [split; [by intros ?%elem_of_nil|done]|].
  apply NoDup_cons in Hn as [Hk Hn]. rewrite elem_of_cons, IH by done.
  destruct (String.eqb_spec k' key) as [->|Hne]; [|split; [by intros [[= ? ?]|H]|by right]].
  split; [intros [[= <-]|H]; [done|]|by intros [= <-]; left]. exfalso. apply Hk, list_elem_of_fmap. exists (key, e).
  split; [done|by apply IH].
Qed.

Lemma store_keys_delete key s : NoDup (keys s) → NoDup (keys (store_delete key s)).
Proof.
  unfold store_delete. induction s as [|[k e] s IH]; cbn; [done|]. intros [Hk Hn]%NoDup_cons. destruct (String.eqb k key); cbn; [by apply IH|].
  constructor; [|by apply IH]. contradict Hk. apply list_elem_of_fmap in Hk as ([k' e'] & -> & Hin). apply list_elem_of_In, filter_In in Hin as [Hin _].
  apply list_elem_of_fmap. exists (k', e'). by rewrite list_elem_of_In.
Qed.

Lemma store_keys_set key e s : keys (store_set key e s) = if bool_decide (key ∈ keys s) then keys s else keys s ++ [key].
Proof.
  induction s as [|[k e'] s IH]; cbn; [done|]. destruct (String.eqb_spec k key) as [->|Hne]; cbn.
  - by rewrite bool_decide_true by left.
  - rewrite IH. destruct (decide (key ∈ keys s)) as [Hin|Hin].
    + rewrite !bool_decide_true; [done| by right |done].
    + rewrite !bool_decide_false; [done| |done]. by intros [?|?]%elem_of_cons.
Qed.

(** A store: each key once, at most a thousand. *)
Record wf_store (s : Store) : Prop := { ws_keys : NoDup (keys s); ws_size : (length s ≤ MAX_ENTRIES)%nat }.

Lemma wf_store_nil : wf_store cacheClear.
Proof. split; [constructor|cbn; lia]. Qed.

Lemma length_filter_le {B} (p : B → bool) (l : list B) : (length (List.filter p l) ≤ length l)%nat.
Proof. induction l as [|x l IH]; cbn; [lia|]. destruct (p x); cbn; lia. Qed.

Lemma delete_wf key s : wf_store s → wf_store (store_delete key s).
Proof. intros [Hk Hs]. split; [by apply store_keys_delete|]. pose proof (length_filter_le (λ kv, negb (String.eqb kv.1 key)) s). unfold store_delete. lia. Qed.

Lemma evict_get k e s : wf_store s → store_get k (evictOldest s) = Some e → store_get k s = Some e.
Proof.
  intros [Hn _] He. unfold evictOldest in He. destruct (_ <? _)%nat; [done|]. destruct s as [|[k' e'] s]; [done|]. cbn in *.
  apply NoDup_cons in Hn as [Hk Hn]. destruct (String.eqb_spec k' k) as [->|]; [|done]. exfalso. apply Hk, list_elem_of_fmap.
  exists (k, e). split; [done|]. by apply store_get_in.
Qed.

Lemma MAX_ENTRIES_pos : (0 < MAX_ENTRIES)%nat.
Proof. unfold MAX_ENTRIES. lia. Qed.

Lemma evict_wf s : wf_store s → NoDup (keys (evictOldest s)) ∧ (length (evictOldest s) < MAX_ENTRIES)%nat.
Proof.
  pose proof MAX_ENTRIES_pos as H0. intros [Hn Hs]. unfold evictOldest. destruct (Nat.ltb_spec (length s) MAX_ENTRIES); [done|].
  destruct s as [|kv s]; [cbn in *; lia|]. cbn in *. apply NoDup_cons in Hn as [_ Hn]. split; [done|lia].
Qed.

Lemma cacheSet_wf now t c data s : wf_store s → wf_store (cacheSet now t c data s).
Proof.
  intros [Hn Hs]%evict_wf. unfold cacheSet. set (s' := evictOldest s) in *. set (key := cacheKey t c).
  assert (Hk := store_keys_set key (mkCacheEntry data (now + CACHE_TTL_MS)) s').
  split.
  - rewrite Hk. case_bool_decide as Hin; [done|]. apply NoDup_app. split_and!; [done| |by apply NoDup_singleton].
    by intros x Hx ->%list_elem_of_singleton.
  - rewrite <- (length_fmap fst). rewrite Hk. case_bool_decide; rewrite ?length_app, length_fmap; cbn; lia.
Qed.

Lemma cacheGet_wf now t c s : wf_store s → wf_store (cacheGet now t c s).2.
Proof. intros Hs. unfold cacheGet. destruct (store_get _ s) as [e|]; [|done]. destruct (_ <? _); [by apply delete_wf|done]. Qed.

(** What a cache answers was set, and has not expired. *)
Lemma cacheGet_some now t c s data :
  (cacheGet now t c s).1 = Some data ↔ ∃ e, store_get (cacheKey t c) s = Some e ∧ ce_data e = data ∧ now <= ce_expiresAt e.
Proof.
  unfold cacheGet. destruct (store_get (cacheKey t c) s) as [e|]; cbn; [|naive_solver].
  destruct (Z.ltb_spec (ce_expiresAt e) now); cbn; split; [done|intros (? & [= <-] & ? & ?); lia|intros [= <-]; by exists e|].
  by intros (? & [= <-] & -> & _).
Qed.

Lemma cacheGet_get now t c s k e : store_get k (cacheGet now t c s).2 = Some e → store_get k s = Some e.
Proof.
  unfold cacheGet. destruct (store_get (cacheKey t c) s) as [e'|] eqn:E; [|done]. destruct (_ <? _); [|done]. cbn.
  rewrite store_get_delete. by destruct (String.eqb _ k).
Qed.

Lemma cacheSet_get now t c data s k e :
  wf_store s → store_get k (cacheSet now t c data s) = Some e →
  (k = cacheKey t c ∧ e = mkCacheEntry data (now + CACHE_TTL_MS)) ∨ store_get k s = Some e.
Proof.
  intros Hs. unfold cacheSet. rewrite store_get_set. destruct (String.eqb_spec (cacheKey t c) k) as [<-|]; [intros [= <-]; by left|].
  intros He. right. by apply evict_get.
Qed.

Lemma cacheKey_inj t c t' c' : cacheKey t c = cacheKey t' c' → t = t' ∧ c = c'.
Proof.
  unfold cacheKey. intros H. apply app_sep_inj in H as [Ht Hc]; [|apply zs_lacks; done..]. by apply (inj zs) in Ht.
Qed.

End cache.
