(* ===== verification/Statuses.v ===== *)
(** Statuses of calls: [api/src/statuses], the three layers of a status, its cache and its
    routes, and [api/src/routes/admin/statuses], the administration of the table.

    A status is a row of a campaign over a row of the system ([__SYS__]), with the delay and
    the number of calls that [campaign_status_overrides] may give between them.  Tables are
    keyed by what the collation compares ([sort_key]).  A request runs in a process, which has
    a cache of its own, at an instant, with Redis there or not.  The server
    ([StatusServer]) is a parameter: the collation, the texts a column takes, their order,
    which of several spellings [DISTINCT] keeps, which row [findFirst] finds. *)

From S2P Require Import Prelude Paging StateError Calendar JsNumber Zod Rbac Auth StatusCache.

#[local] Open Scope Z_scope.

(** ** Tables *)

(** [st_maxCalls] is the column [max_calls], which the merge reads and no migration adds;
    it is NULL in a table without it, and nothing writes it. *)
Record StatusRow := mkStatus {
  st_tenantId : Z;
  st_campaignId : string;
  st_status : string;
  st_description : string;
  st_selectable : bool;
  st_humanAnswered : bool;
  st_sale : bool;
  st_dnc : bool;
  st_callback : bool;
  st_notInterested : bool;
  st_hotkey : option string;
  st_recycleDelaySeconds : option Z;
  st_category : option string;
  st_systemOwner : option string;
  st_maxCalls : option Z;
  st_createdAt : Z;
  st_updatedAt : Z;
}.

Record OverrideRow := mkOverrideRow { ov_recycleDelaySeconds : option Z; ov_maxCalls : option Z }.

Record StatusAudit := mkStatusAudit {
  sa_action : string;
  sa_tenantId : Z;
  sa_actorUserId : Z;
  sa_entityId : string;
  sa_before : option (string * string);
  sa_after : option (string * string);
}.

Abbreviation StatusKey := (Z * string * string)%type.

(** [known_campaigns]: tenants and the identifiers of their campaigns, as they compare.
    [status_columns]: the columns that the table of statuses has. *)
Record StatusDb := mkStatusDb {
  status_columns : list string;
  status_rows : gmap StatusKey StatusRow;
  override_rows : gmap StatusKey OverrideRow;
  known_campaigns : gset (Z * string);
  status_audits : list StatusAudit;
}.

Definition with_status_rows (m : gmap StatusKey StatusRow) (db : StatusDb) : StatusDb :=
  mkStatusDb (status_columns db) m (override_rows db) (known_campaigns db) (status_audits db).
Definition with_override_rows (m : gmap StatusKey OverrideRow) (db : StatusDb) : StatusDb :=
  mkStatusDb (status_columns db) (status_rows db) m (known_campaigns db) (status_audits db).
Definition with_status_audit (a : StatusAudit) (db : StatusDb) : StatusDb :=
  mkStatusDb (status_columns db) (status_rows db) (override_rows db) (known_campaigns db) (status_audits db ++ [a]).

Record StatusServer := mkStatusServer {
  sort_key : string → string;
  fits : Z → string → bool;
  text_le : string → string → bool;
  kept_spelling : list string → string;
  first_row : list StatusRow → option StatusRow;
  contains : string → string → bool;
  number_text : string → Num;
}.

Inductive StatusSource := from_shadow | from_override | from_system.

(** [EffectiveStatus] of [shared/types/src/status.ts] *)
Record EffectiveStatus := mkEffective {
  es_code : string;
  es_description : string;
  es_selectable : bool;
  es_humanAnswered : bool;
  es_sale : bool;
  es_dnc : bool;
  es_callback : bool;
  es_notInterested : bool;
  es_hotkey : option string;
  es_recycleDelaySeconds : option Z;
  es_maxCalls : option Z;
  es_category : option string;
  es_systemOwner : option string;
  es_source : StatusSource;
}.

Inductive StatusError :=
  | status_not_found | code_exists_in_system | hotkey_conflict
  | unique_conflict | redis_down | failed_statement.

(** What a request sees: the tables, the cache of its process and what has been published. *)
Record StatusWorld := mkStatusWorld {
  w_db : StatusDb;
  w_cache : list (string * CacheEntry (A := list EffectiveStatus));
  w_published : list string;
}.

Definition on_db (f : StatusDb → StatusDb) (w : StatusWorld) : StatusWorld := mkStatusWorld (f (w_db w)) (w_cache w) (w_published w).
Definition on_cache (f : list (string * CacheEntry (A := list EffectiveStatus)) → list (string * CacheEntry (A := list EffectiveStatus)))
    (w : StatusWorld) : StatusWorld := mkStatusWorld (w_db w) (f (w_cache w)) (w_published w).
Definition publish (channel : string) (w : StatusWorld) : StatusWorld :=
  mkStatusWorld (w_db w) (w_cache w) (w_published w ++ [channel]).

Definition StOp (A : Type) : Type := SE StatusWorld StatusError A.

Definition SYS : string := "__SYS__".

(** ** Schemas, [validators.ts] *)

Definition code_char (c : ascii) : bool :=
  is_upper c || is_digit c || Ascii.eqb c "_" || Ascii.eqb c "-".

(** [/^[A-Z][A-Z0-9_-]{0,7}$/] *)
Definition status_code_text (s : string) : bool :=
  match s with String c r => is_upper c && string_forallb code_char r | EmptyString => false end.

Definition StatusCodeSchema : Check := z_string 1 8 status_code_text.
Definition HotkeySchema : Check := z_string 1 1 (string_forallb is_digit).

(** -1, 0 or a whole number from 1 on *)
Definition recycle_delay (v : BodyValue) : option Z := n ← read_integer v; if -1 <=? n then Some n else None.

Definition CategorySchema : Check :=
  z_enum ["agent-outcome"; "system-amd"; "system-carrier"; "system-compliance"; "lifecycle"]%string.

Record StatusCreateInput := mkStatusCreate {
  sc_status : string;
  sc_description : string;
  sc_selectable : bool;
  sc_humanAnswered : bool;
  sc_sale : bool;
  sc_dnc : bool;
  sc_callback : bool;
  sc_notInterested : bool;
  sc_hotkey : option string;
  sc_recycleDelaySeconds : option Z;
  sc_category : option string;
}.

Definition StatusCreateSchema (body : option Body) : option StatusCreateInput :=
  b ← body;
  status ← needed "status" StatusCodeSchema text_of b;
  description ← needed "description" (z_string 1 128 any_text) text_of b;
  selectable ← member_or "selectable" read_bool true b;
  humanAnswered ← member_or "humanAnswered" read_bool false b;
  sale ← member_or "sale" read_bool false b;
  dnc ← member_or "dnc" read_bool false b;
  callback ← member_or "callback" read_bool false b;
  notInterested ← member_or "notInterested" read_bool false b;
  hotkey ← member_or "hotkey" (or_null (read_text HotkeySchema)) None b;
  recycle ← member_or "recycleDelaySeconds" (or_null recycle_delay) None b;
  category ← member_or "category" (or_null (read_text CategorySchema)) None b;
  Some (mkStatusCreate status description selectable humanAnswered sale dnc callback notInterested hotkey recycle category).

(** [StatusDef]: [None] is [undefined], [Some None] is [null]. *)
Record StatusDef := mkStatusDef {
  sd_description : option string;
  sd_selectable : option bool;
  sd_humanAnswered : option bool;
  sd_sale : option bool;
  sd_dnc : option bool;
  sd_callback : option bool;
  sd_notInterested : option bool;
  sd_hotkey : option (option string);
  sd_recycleDelaySeconds : option (option Z);
  sd_maxCalls : option (option Z);
  sd_category : option (option string);
}.

Definition max_calls (v : BodyValue) : option Z := n ← read_integer v; if 1 <=? n then Some n else None.

(** The schema has no category. *)
Definition StatusUpdateSchema (body : option Body) : option StatusDef :=
  b ← body;
  description ← member_opt "description" (read_text (z_string 1 128 any_text)) b;
  selectable ← member_opt "selectable" read_bool b;
  humanAnswered ← member_opt "humanAnswered" read_bool b;
  sale ← member_opt "sale" read_bool b;
  dnc ← member_opt "dnc" read_bool b;
  callback ← member_opt "callback" read_bool b;
  notInterested ← member_opt "notInterested" read_bool b;
  hotkey ← member_opt "hotkey" (or_null (read_text HotkeySchema)) b;
  recycle ← member_opt "recycleDelaySeconds" (or_null recycle_delay) b;
  maxCalls ← member_opt "maxCalls" (or_null max_calls) b;
  Some (mkStatusDef description selectable humanAnswered sale dnc callback notInterested hotkey recycle maxCalls None).

(** ** The three layers, [service.ts] *)

(** [COALESCE] *)
Fixpoint coalesce {A} (l : list (option A)) : option A :=
  match l with [] => None | Some a :: _ => Some a | None :: l' => coalesce l' end.

(** A row of the merge: the columns of the campaign's row [c], the system's [sys] and the override [o]. *)
Definition merge_row (code : string) (c sys : option StatusRow) (o : option OverrideRow) : EffectiveStatus :=
  let column {A} (f : StatusRow → A) (fallback : A) : A := default fallback (coalesce [f <$> c; f <$> sys]) in
  mkEffective code (column st_description EmptyString) (column st_selectable false) (column st_humanAnswered false)
    (column st_sale false) (column st_dnc false) (column st_callback false) (column st_notInterested false)
    (coalesce [c ≫= st_hotkey; sys ≫= st_hotkey])
    (coalesce [c ≫= st_recycleDelaySeconds; o ≫= ov_recycleDelaySeconds; sys ≫= st_recycleDelaySeconds])
    (coalesce [o ≫= ov_maxCalls; sys ≫= st_maxCalls])
    (coalesce [c ≫= st_category; sys ≫= st_category])
    (coalesce [c ≫= st_systemOwner; sys ≫= st_systemOwner])
    (match c, o with Some _, _ => from_shadow | None, Some _ => from_override | None, None => from_system end).

Section service.
Variable server : StatusServer.

Definition key_of (tenantId : Z) (campaignId code : string) : StatusKey :=
  (tenantId, sort_key server campaignId, sort_key server code).

Definition find_status (tenantId : Z) (campaignId code : string) (db : StatusDb) : option StatusRow :=
  status_rows db !! key_of tenantId campaignId code.

(** [WHERE tenant_id = ? AND campaign_id IN (?, '__SYS__')] *)
Definition in_scope (tenantId : Z) (campaignId : string) (r : StatusRow) : bool :=
  (st_tenantId r =? tenantId) &&
  (String.eqb (sort_key server (st_campaignId r)) (sort_key server campaignId) ||
   String.eqb (sort_key server (st_campaignId r)) (sort_key server SYS)).

Definition scoped (tenantId : Z) (campaignId : string) (db : StatusDb) : list StatusRow :=
  List.filter (in_scope tenantId campaignId) (snd <$> map_to_list (status_rows db)).

Definition comparing (code : string) (r : StatusRow) : bool := String.eqb (sort_key server (st_status r)) code.

(** The row of the merge for a code as it compares, with what it is ordered by. *)
Definition merged (tenantId : Z) (campaignId : string) (db : StatusDb) (code : string) : EffectiveStatus * (nat * option string) :=
  let c := status_rows db !! (tenantId, sort_key server campaignId, code) in
  let sys := status_rows db !! (tenantId, sort_key server SYS, code) in
  let o := override_rows db !! (tenantId, sort_key server campaignId, code) in
  let spelled := kept_spelling server (st_status <$> List.filter (comparing code) (scoped tenantId campaignId db)) in
  let rank := match sys ≫= st_systemOwner with
              | None => 2%nat
              | Some owner => if String.eqb (sort_key server owner) (sort_key server "__AGT__") then 0%nat else 1%nat
              end in
  (merge_row spelled c sys o, (rank, sys ≫= st_hotkey)).

(** Ascending, [NULL] first. *)
Definition text_order (a b : option string) : option bool :=
  match a, b with
  | None, None => None
  | None, Some _ => Some true
  | Some _, None => Some false
  | Some x, Some y => if String.eqb (sort_key server x) (sort_key server y) then None else Some (text_le server x y)
  end.

(** [ORDER BY (sys.system_owner = '__AGT__') DESC, sys.hotkey, s.status] *)
Definition merge_le (a b : EffectiveStatus * (nat * option string)) : bool :=
  if (a.2.1 <? b.2.1)%nat then true else if (b.2.1 <? a.2.1)%nat then false
  else match text_order a.2.2 b.2.2 with Some le => le | None => text_le server (es_code a.1) (es_code b.1) end.

(** The columns of statuses that [MERGE_SQL] names. *)
Definition merge_columns : list string :=
  ["tenant_id"; "campaign_id"; "status"; "description"; "selectable"; "human_answered"; "sale"; "dnc"; "callback";
   "not_interested"; "hotkey"; "recycle_delay_seconds"; "max_calls"; "category"; "system_owner"]%string.

(** A statement that names a column the table does not have fails. *)
Definition merge_runs (db : StatusDb) : bool := forallb (λ c, bool_decide (c ∈ status_columns db)) merge_columns.

(** [MERGE_SQL], in a database that has its columns; in one that lacks them the statement
    fails, and [list_statuses] with it. *)
Definition merge_statuses (tenantId : Z) (campaignId : string) (db : StatusDb) : list EffectiveStatus :=
  let codes := remove_dups ((λ r, sort_key server (st_status r)) <$> scoped tenantId campaignId db) in
  fst <$> sort_by merge_le (merged tenantId campaignId db <$> codes).

(** ** The service *)

Section process.
(** The instant, and whether Redis answers. *)
Variables (now : Z) (redis : bool).

Definition invalidation_channel (tenantId : Z) (campaignId : string) : string :=
  "pubsub:t:" +:+ zs tenantId +:+ ":status_changed:" +:+ campaignId.

Definition publishInvalidation (tenantId : Z) (campaignId : string) : StOp unit :=
  _ ← check redis redis_down;
  _ ← update (publish (invalidation_channel tenantId campaignId));
  update (on_cache (cacheInvalidate tenantId campaignId)).

Definition list_statuses (tenantId : Z) (campaignId : string) : StOp (list EffectiveStatus) :=
  cached ← asks (λ w, cacheGet now tenantId campaignId (w_cache w));
  _ ← update (on_cache (λ _, cached.2));
  match cached.1 with
  | Some data => mret data
  | None =>
      runs ← asks (λ w, merge_runs (w_db w));
      _ ← check runs failed_statement;
      rows ← asks (λ w, merge_statuses tenantId campaignId (w_db w));
      _ ← update (on_cache (cacheSet now tenantId campaignId rows));
      mret rows
  end.

Definition resolve (tenantId : Z) (campaignId code : string) : StOp (option EffectiveStatus) :=
  all ← list_statuses tenantId campaignId;
  mret (List.find (λ s, String.eqb (es_code s) code) all).

Definition isSelectable (tenantId : Z) (campaignId code : string) : StOp bool :=
  from_option es_selectable false <$> resolve tenantId campaignId code.

(** The later of two statuses with a hotkey has it. *)
Definition hotkeys (all : list EffectiveStatus) : gmap string string :=
  fold_left (λ m s, match es_hotkey s with
                    | None | Some EmptyString => m
                    | Some h => <[ h := es_code s ]> m
                    end) all ∅.

Definition hotkeyMap (tenantId : Z) (campaignId : string) : StOp (gmap string string) :=
  hotkeys <$> list_statuses tenantId campaignId.

Definition int_fits (lo hi : Z) (o : option Z) : bool := from_option (λ n, (lo <=? n) && (n <=? hi)) true o.

(** The values that the columns take: [VARCHAR], [INT] with its check, and [TINYINT]. *)
Definition status_fits (r : StatusRow) : bool :=
  fits server 32 (st_campaignId r) && fits server 24 (st_status r) && fits server 128 (st_description r) &&
  from_option (fits server 1) true (st_hotkey r) && from_option (fits server 20) true (st_category r) &&
  from_option (fits server 8) true (st_systemOwner r) && int_fits (-1) 2147483647 (st_recycleDelaySeconds r).

Definition override_fits (o : OverrideRow) : bool :=
  int_fits (-2147483648) 2147483647 (ov_recycleDelaySeconds o) && int_fits (-128) 127 (ov_maxCalls o).

Definition put_row (r : StatusRow) : StOp unit :=
  update (on_db (λ db, with_status_rows (<[ key_of (st_tenantId r) (st_campaignId r) (st_status r) := r ]> (status_rows db)) db)).

(** [status.create] *)
Definition insert_status (r : StatusRow) : StOp unit :=
  _ ← check (status_fits r) failed_statement;
  there ← asks (λ w, find_status (st_tenantId r) (st_campaignId r) (st_status r) (w_db w));
  _ ← check (bool_decide (there = None)) unique_conflict;
  put_row r.

Definition set_fields (def : StatusDef) (r : StatusRow) : StatusRow :=
  mkStatus (st_tenantId r) (st_campaignId r) (st_status r)
    (default (st_description r) (sd_description def)) (default (st_selectable r) (sd_selectable def))
    (default (st_humanAnswered r) (sd_humanAnswered def)) (default (st_sale r) (sd_sale def)) (default (st_dnc r) (sd_dnc def))
    (default (st_callback r) (sd_callback def)) (default (st_notInterested r) (sd_notInterested def))
    (default (st_hotkey r) (sd_hotkey def)) (default (st_recycleDelaySeconds r) (sd_recycleDelaySeconds def))
    (default (st_category r) (sd_category def)) (st_systemOwner r) (st_maxCalls r) (st_createdAt r) now.

(** [status.update] *)
Definition update_status (def : StatusDef) (r : StatusRow) : StOp StatusRow :=
  let r' := set_fields def r in
  _ ← check (status_fits r') failed_statement;
  _ ← put_row r';
  mret r'.

(** A campaign's row, with the system's values where the definition has none. *)
Definition shadow_of (tenantId : Z) (campaignId code : string) (def : StatusDef) (sys : StatusRow) : StatusRow :=
  let r := set_fields def sys in
  mkStatus tenantId campaignId code (st_description r) (st_selectable r) (st_humanAnswered r) (st_sale r) (st_dnc r)
    (st_callback r) (st_notInterested r) (st_hotkey r) (st_recycleDelaySeconds r) (st_category r) (st_systemOwner r) None
    now now.

Definition hasOnlyDelayOrMaxCalls (def : StatusDef) : bool :=
  bool_decide (is_Some (sd_recycleDelaySeconds def)) || bool_decide (is_Some (sd_maxCalls def)).

Definition hasOtherColumns (def : StatusDef) : bool :=
  bool_decide (is_Some (sd_description def)) || bool_decide (is_Some (sd_selectable def)) ||
  bool_decide (is_Some (sd_humanAnswered def)) || bool_decide (is_Some (sd_sale def)) || bool_decide (is_Some (sd_dnc def)) ||
  bool_decide (is_Some (sd_callback def)) || bool_decide (is_Some (sd_notInterested def)) ||
  bool_decide (is_Some (sd_hotkey def)) || bool_decide (is_Some (sd_category def)).

(** [campaignStatusOverride.upsert]; a new row needs its campaign. *)
Definition upsert_override (tenantId : Z) (campaignId code : string) (def : StatusDef) : StOp unit :=
  existing ← asks (λ w, override_rows (w_db w) !! key_of tenantId campaignId code);
  let old := default (mkOverrideRow None None) existing in
  let row := mkOverrideRow (default (ov_recycleDelaySeconds old) (sd_recycleDelaySeconds def))
               (default (ov_maxCalls old) (sd_maxCalls def)) in
  _ ← check (override_fits row && (bool_decide (is_Some existing) || fits server 32 campaignId && fits server 8 code))
        failed_statement;
  known ← asks (λ w, bool_decide ((tenantId, sort_key server campaignId) ∈ known_campaigns (w_db w)));
  _ ← check (bool_decide (is_Some existing) || known) failed_statement;
  update (on_db (λ db, with_override_rows (<[ key_of tenantId campaignId code := row ]> (override_rows db)) db)).

(** The row or the override that an update writes. *)
Definition write_layer (tenantId : Z) (campaignId code : string) (def : StatusDef) : StOp unit :=
  if hasOtherColumns def then
    existing ← asks (λ w, find_status tenantId campaignId code (w_db w));
    match existing with
    | Some r => _ ← update_status def r; mret ()
    | None =>
        sys ← asks (λ w, find_status tenantId SYS code (w_db w));
        r ← require sys status_not_found;
        insert_status (shadow_of tenantId campaignId code def r)
    end
  else if hasOnlyDelayOrMaxCalls def then upsert_override tenantId campaignId code def
  else mret ().

Definition upsert (tenantId : Z) (campaignId code : string) (def : StatusDef) : StOp EffectiveStatus :=
  _ ← write_layer tenantId campaignId code def;
  _ ← publishInvalidation tenantId campaignId;
  updated ← resolve tenantId campaignId code;
  require updated status_not_found.

(** [findFirst] on a hotkey of a campaign, but for one status. *)
Definition hotkey_rows (tenantId : Z) (campaignId hotkey : string) (exclude : option string) (db : StatusDb) : list StatusRow :=
  List.filter (λ r, (st_tenantId r =? tenantId) && String.eqb (sort_key server (st_campaignId r)) (sort_key server campaignId) &&
                    from_option (λ h, String.eqb (sort_key server h) (sort_key server hotkey)) false (st_hotkey r) &&
                    from_option (λ c, negb (String.eqb (sort_key server (st_status r)) (sort_key server c))) true exclude)
    (snd <$> map_to_list (status_rows db)).

Definition assertHotkeyUnique (tenantId : Z) (campaignId excludeCode hotkey : string) : StOp unit :=
  conflict ← asks (λ w, first_row server (hotkey_rows tenantId campaignId hotkey (Some excludeCode) (w_db w)));
  check (bool_decide (conflict = None)) hotkey_conflict.

Definition create_status (tenantId : Z) (campaignId code : string) (def : StatusCreateInput) : StOp EffectiveStatus :=
  sys ← asks (λ w, find_status tenantId SYS code (w_db w));
  _ ← check (bool_decide (sys = None)) code_exists_in_system;
  _ ← match sc_hotkey def with
      | None | Some EmptyString => mret ()
      | Some hotkey => assertHotkeyUnique tenantId campaignId code hotkey
      end;
  _ ← insert_status (mkStatus tenantId campaignId code (sc_description def) (sc_selectable def) (sc_humanAnswered def) (sc_sale def)
                       (sc_dnc def) (sc_callback def) (sc_notInterested def) (sc_hotkey def) (sc_recycleDelaySeconds def)
                       (sc_category def) None None now now);
  _ ← publishInvalidation tenantId campaignId;
  created ← resolve tenantId campaignId code;
  require created status_not_found.

Definition remove_row (tenantId : Z) (campaignId code : string) : StOp unit :=
  update (on_db (λ db, with_status_rows (delete (key_of tenantId campaignId code) (status_rows db)) db)).

Definition delete_status (tenantId : Z) (campaignId code : string) : StOp bool :=
  existing ← asks (λ w, find_status tenantId campaignId code (w_db w));
  match existing with
  | None => mret false
  | Some _ => _ ← remove_row tenantId campaignId code; _ ← publishInvalidation tenantId campaignId; mret true
  end.

(** The error of a transition: its code and its reason. *)
Definition ILLEGAL_TRANSITIONS : list (option string * option string * string * string) :=
  [ (None, Some "INCALL", "illegal_to_incall", "INCALL is set by T01 CHANNEL_BRIDGE only");
    (None, Some "QUEUE", "illegal_to_queue", "QUEUE is set by E01 filler only");
    (None, Some "NEW", "illegal_to_new", "Cannot un-call a lead");
    (Some "SALE", None, "sale_immutable", "Sales are immutable without admin force-recycle");
    (None, Some "INVALID", "illegal_to_invalid", "INVALID is set by T04 hangup-map only");
    (Some "DNC", None, "dnc_immutable", "DNC is sticky by FTC TSR; use M06 admin path") ]%string.

(** The three tests of the loop, in their order. *)
Definition rule_applies (from_ to : string) (rule : option string * option string * string * string) : bool :=
  let '(f, t, _, _) := rule in
  bool_decide (f = None ∧ t = Some to) || bool_decide (f = Some from_ ∧ t = None) || bool_decide (f = Some from_ ∧ t = Some to).

(** [None]: allowed. *)
Definition validateTransition (tenantId : Z) (from_ to : string) : StOp (option (string * string)) :=
  match List.find (rule_applies from_ to) ILLEGAL_TRANSITIONS with
  | Some (_, _, errorCode, reason) => mret (Some (errorCode, reason))
  | None =>
      sysRow ← asks (λ w, find_status tenantId SYS from_ (w_db w));
      mret (if bool_decide ((sysRow ≫= st_recycleDelaySeconds) = Some (-1))
            then Some ("terminal_status", "Status " +:+ from_ +:+ " is terminal (recycleDelaySeconds=-1); use force-recycle endpoint")%string
            else None)
  end.

(** The row as the administration answers it. *)
Record StatusResponse := mkStatusResponse {
  sr_tenantId : string;
  sr_campaignId : string;
  sr_status : string;
  sr_description : string;
  sr_selectable : bool;
  sr_humanAnswered : bool;
  sr_sale : bool;
  sr_dnc : bool;
  sr_callback : bool;
  sr_notInterested : bool;
  sr_hotkey : option string;
  sr_recycleDelaySeconds : option Z;
  sr_category : option string;
  sr_systemOwner : option string;
  sr_createdAt : string;
  sr_updatedAt : string;
}.

(** ** Handlers, [handlers] *)

Inductive StatusReply :=
  | StFail (status : Z) (error message : string)
  | StThrown (e : StatusError)
  | StItems (campaignId : string) (items : list EffectiveStatus)
  | StSystem (items : list EffectiveStatus)
  | StStatus (status : Z) (s : EffectiveStatus)
  | StNoContent
  | StPage (data : list StatusResponse) (page pageSize totalCount totalPages : Z)
  | StRow (status : Z) (row : StatusResponse).

(** What a handler makes of what is thrown. *)
Definition answering (f : StatusError → option StatusReply) (m : StOp StatusReply) : StOp StatusReply := λ w,
  match m w with
  | (Ok r, w') => (Ok r, w')
  | (Err e, w') => match f e with Some r => (Ok r, w') | None => (Err e, w') end
  end.

Definition system_status_immutable : StatusReply := StFail 403 "system_status_immutable" EmptyString.

(** [cid === "__SYS__"] *)
Definition unless_system (cid : string) (m : StOp StatusReply) : StOp StatusReply :=
  if String.eqb cid SYS then mret system_status_immutable else m.

Definition handleListCampaignStatuses (auth : ApiAuth) (cid : string) : StOp StatusReply :=
  StItems cid <$> list_statuses (a_tenantId auth) cid.

Definition starts_reserved (code : string) : bool :=
  match code with String "_" (String "_" _) => true | _ => false end.

Definition handleCreateStatus (auth : ApiAuth) (cid : string) (body : option Body) : StOp StatusReply :=
  unless_system cid (
    match StatusCreateSchema body with
    | None => mret (StFail 400 "invalid_body" EmptyString)
    | Some def =>
        if starts_reserved (sc_status def) && negb (bool_decide (tenant_edit ∈ a_perms auth))
        then mret (StFail 403 "reserved_code_prefix" EmptyString)
        else answering (λ e, match e with
                             | code_exists_in_system => Some (StFail 409 "code_exists_in_system" EmptyString)
                             | hotkey_conflict => Some (StFail 409 "hotkey_conflict" EmptyString)
                             | _ => None
                             end)
               (StStatus 201 <$> create_status (a_tenantId auth) cid (sc_status def) def)
    end).

Definition handleUpdateStatus (auth : ApiAuth) (cid code : string) (body : option Body) : StOp StatusReply :=
  unless_system cid (
    match StatusUpdateSchema body with
    | None => mret (StFail 400 "invalid_body" EmptyString)
    | Some def =>
        answering (λ e, match e with
                        | status_not_found => Some (StFail 404 "not_found" EmptyString)
                        | hotkey_conflict => Some (StFail 409 "hotkey_conflict" EmptyString)
                        | _ => None
                        end)
          (StStatus 200 <$> upsert (a_tenantId auth) cid code def)
    end).

Definition handleDeleteStatus (auth : ApiAuth) (cid code : string) : StOp StatusReply :=
  unless_system cid (
    (λ deleted : bool, if deleted then StNoContent else StFail 404 "not_found" EmptyString) <$>
      delete_status (a_tenantId auth) cid code).

(** By hotkey, then by status. *)
Definition system_le (a b : StatusRow) : bool :=
  match text_order (st_hotkey a) (st_hotkey b) with Some le => le | None => text_le server (st_status a) (st_status b) end.

Definition system_item (r : StatusRow) : EffectiveStatus :=
  mkEffective (st_status r) (st_description r) (st_selectable r) (st_humanAnswered r) (st_sale r) (st_dnc r) (st_callback r)
    (st_notInterested r) (st_hotkey r) (st_recycleDelaySeconds r) None (st_category r) (st_systemOwner r) from_system.

Definition handleListSystemStatuses (auth : ApiAuth) : StOp StatusReply :=
  rows ← asks (λ w, sort_by system_le
                 (List.filter (λ r, (st_tenantId r =? a_tenantId auth) && String.eqb (sort_key server (st_campaignId r)) (sort_key server SYS))
                    (snd <$> map_to_list (status_rows (w_db w)))));
  mret (StSystem (system_item <$> rows)).

(** ** The administration of the table, [routes/admin/statuses] *)

Definition CATEGORY_VALUES : Check := z_enum ["sale"; "not_interested"; "dnc"; "callback"; "machine"; "system"; "other"]%string.

Definition admin_delay (v : BodyValue) : option Z :=
  n ← read_integer v; if (-1 <=? n) && (n <=? 86400) then Some n else None.

Definition read_hotkey : BodyValue → option string := read_text (z_string 1 1 any_text).

(** The campaign and the rest of a body. *)
Definition AdminStatusCreateSchema (body : option Body) : option (string * StatusCreateInput) :=
  b ← body;
  status ← needed "status" (z_string 1 24 any_text) text_of b;
  description ← member_or "description" (read_text (z_string 0 128 any_text)) EmptyString b;
  campaignId ← b !! "campaignId"%string ≫= text_value;
  _ ← (if String.eqb campaignId EmptyString then None else Some ());
  selectable ← member_or "selectable" read_bool true b;
  humanAnswered ← member_or "humanAnswered" read_bool false b;
  sale ← member_or "sale" read_bool false b;
  dnc ← member_or "dnc" read_bool false b;
  callback ← member_or "callback" read_bool false b;
  notInterested ← member_or "notInterested" read_bool false b;
  hotkey ← member_or "hotkey" (or_null read_hotkey) None b;
  recycle ← member_or "recycleDelaySeconds" (or_null admin_delay) None b;
  category ← member_or "category" (or_null (read_text CATEGORY_VALUES)) None b;
  Some (campaignId, mkStatusCreate status description selectable humanAnswered sale dnc callback notInterested hotkey recycle category).

Definition AdminStatusUpdateSchema (body : option Body) : option StatusDef :=
  b ← body;
  description ← member_opt "description" (read_text (z_string 0 128 any_text)) b;
  selectable ← member_opt "selectable" read_bool b;
  humanAnswered ← member_opt "humanAnswered" read_bool b;
  sale ← member_opt "sale" read_bool b;
  dnc ← member_opt "dnc" read_bool b;
  callback ← member_opt "callback" read_bool b;
  notInterested ← member_opt "notInterested" read_bool b;
  hotkey ← member_opt "hotkey" (or_null read_hotkey) b;
  recycle ← member_opt "recycleDelaySeconds" (or_null admin_delay) b;
  category ← member_opt "category" (or_null (read_text CATEGORY_VALUES)) b;
  Some (mkStatusDef description selectable humanAnswered sale dnc callback notInterested hotkey recycle None category).

Record StatusListQuery := mkStatusQuery {
  sq_page : Z;
  sq_pageSize : Z;
  sq_campaignId : option string;
  sq_search : option string;
  sq_category : option string;
  sq_selectable : option bool;
}.

Definition AdminStatusListQuerySchema (query : string → list string) : option StatusListQuery :=
  let Number := Number_of (number_text server) in
  page ← coerced_int Number (query "page") 1 1 None;
  pageSize ← coerced_int Number (query "pageSize") 50 1 (Some 200);
  campaignId ← query_opt (query "campaignId") Some;
  search ← query_opt (query "search") Some;
  category ← query_opt (query "category") Some;
  selectable ← query_opt (query "selectable") (λ s, if String.eqb s "true" then Some (Some true)
                 else if String.eqb s "false" then Some (Some false) else if String.eqb s "all" then Some None else None);
  Some (mkStatusQuery page pageSize campaignId search category (default None selectable)).

(** A condition that an empty text leaves out. *)
Definition when_given (o : option string) (p : string → bool) : bool :=
  match o with None | Some EmptyString => true | Some s => p s end.

Definition matches_status (tenantId : Z) (q : StatusListQuery) (r : StatusRow) : bool :=
  (st_tenantId r =? tenantId) &&
  when_given (sq_campaignId q) (λ c, String.eqb (sort_key server (st_campaignId r)) (sort_key server c)) &&
  when_given (sq_category q) (λ c, from_option (λ d, String.eqb (sort_key server d) (sort_key server c)) false (st_category r)) &&
  from_option (Bool.eqb (st_selectable r)) true (sq_selectable q) &&
  when_given (sq_search q) (λ s, contains server s (st_status r) || contains server s (st_description r)).

(** By campaign, then by status. *)
Definition table_le (a b : StatusRow) : bool :=
  match text_order (Some (st_campaignId a)) (Some (st_campaignId b)) with
  | Some le => le
  | None => text_le server (st_status a) (st_status b)
  end.

Definition matching_statuses (tenantId : Z) (q : StatusListQuery) (db : StatusDb) : list StatusRow :=
  sort_by table_le (List.filter (matches_status tenantId q) (snd <$> map_to_list (status_rows db))).

Definition toStatusResponse (r : StatusRow) : StatusResponse :=
  mkStatusResponse (zs (st_tenantId r)) (st_campaignId r) (st_status r) (st_description r) (st_selectable r) (st_humanAnswered r)
    (st_sale r) (st_dnc r) (st_callback r) (st_notInterested r) (st_hotkey r) (st_recycleDelaySeconds r) (st_category r)
    (st_systemOwner r) (toISOString (st_createdAt r)) (toISOString (st_updatedAt r)).

Definition listStatuses (tenantId : Z) (q : StatusListQuery) (db : StatusDb) : list StatusResponse * Z * Z :=
  let rows := matching_statuses tenantId q db in
  let totalCount := Z.of_nat (length rows) in
  (toStatusResponse <$> offset_page (sq_pageSize q) (sq_page q) rows, totalCount, total_pages totalCount (sq_pageSize q)).

Definition getStatus (tenantId : Z) (campaignId code : string) : StOp (option StatusResponse) :=
  asks (λ w, toStatusResponse <$> find_status tenantId campaignId code (w_db w)).

(** The status that has a hotkey already. *)
Definition checkHotkeyConflict (tenantId : Z) (campaignId : string) (hotkey : option (option string)) (exclude : option string)
    : StOp (option string) :=
  match hotkey with
  | None | Some None | Some (Some EmptyString) => mret None
  | Some (Some h) =>
      conflict ← asks (λ w, first_row server (hotkey_rows tenantId campaignId h exclude (w_db w)));
      mret (match st_status <$> conflict with Some EmptyString => None | o => o end)
  end.

Definition audit_status (a : StatusAudit) : StOp unit := update (on_db (with_status_audit a)).

Definition row_name (r : StatusRow) : string * string := (st_status r, st_campaignId r).

Definition createStatus (tenantId actorUserId : Z) (campaignId : string) (data : StatusCreateInput) : StOp (string + StatusResponse) :=
  conflict ← checkHotkeyConflict tenantId campaignId (Some (sc_hotkey data)) None;
  match conflict with
  | Some code => mret (inl code)
  | None =>
      transaction (
        let created := mkStatus tenantId campaignId (sc_status data) (sc_description data) (sc_selectable data)
                         (sc_humanAnswered data) (sc_sale data) (sc_dnc data) (sc_callback data) (sc_notInterested data)
                         (sc_hotkey data) (sc_recycleDelaySeconds data) (sc_category data) None None now now in
        _ ← insert_status created;
        _ ← audit_status (mkStatusAudit "status.created" tenantId actorUserId (campaignId +:+ ":" +:+ sc_status data)
                            None (Some (row_name created)));
        mret (inr (toStatusResponse created)))
  end.

Definition updateStatus (tenantId actorUserId : Z) (campaignId code : string) (data : StatusDef)
    : StOp (string + option StatusResponse) :=
  existing ← asks (λ w, find_status tenantId campaignId code (w_db w));
  match existing with
  | None => mret (inr None)
  | Some r =>
      conflict ← checkHotkeyConflict tenantId campaignId (sd_hotkey data) (Some code);
      match conflict with
      | Some other => mret (inl other)
      | None =>
          transaction (
            updated ← update_status data r;
            _ ← audit_status (mkStatusAudit "status.updated" tenantId actorUserId (campaignId +:+ ":" +:+ code)
                                (Some (row_name r)) (Some (row_name updated)));
            mret (inr (Some (toStatusResponse updated))))
      end
  end.

Inductive DeleteStatusResult := deleted_ok | delete_not_found | system_protected (owner : string).

Definition deleteStatus (tenantId actorUserId : Z) (campaignId code : string) : StOp DeleteStatusResult :=
  existing ← asks (λ w, find_status tenantId campaignId code (w_db w));
  match existing with
  | None => mret delete_not_found
  | Some r =>
      match st_systemOwner r with
      | Some owner => mret (system_protected owner)
      | None =>
          transaction (
            _ ← remove_row tenantId campaignId code;
            _ ← audit_status (mkStatusAudit "status.deleted" tenantId actorUserId (campaignId +:+ ":" +:+ code)
                                (Some (row_name r)) None);
            mret deleted_ok)
      end
  end.

Definition status_missing : StatusReply := StFail 404 "not_found" "Status not found".

Definition hotkey_taken (other : string) : StatusReply :=
  StFail 409 "hotkey_conflict" ("Hotkey already used by status " +:+ other +:+ " in this campaign").

Definition invalid_status_body : StatusReply := StFail 400 "validation_error" EmptyString.

Definition answers_exists : StOp StatusReply → StOp StatusReply :=
  answering (λ e, match e with
                  | unique_conflict => Some (StFail 409 "status_exists" "A status with this code already exists in this campaign scope")
                  | _ => None
                  end).

Definition get_statuses (auth : ApiAuth) (query : string → list string) : StOp StatusReply :=
  match AdminStatusListQuerySchema query with
  | None => mret invalid_status_body
  | Some q => (λ r : list StatusResponse * Z * Z, StPage r.1.1 (sq_page q) (sq_pageSize q) r.1.2 r.2) <$>
                asks (λ w, listStatuses (a_tenantId auth) q (w_db w))
  end.

Definition post_status (auth : ApiAuth) (body : option Body) : StOp StatusReply :=
  match AdminStatusCreateSchema body with
  | None => mret invalid_status_body
  | Some (campaignId, data) =>
      answers_exists ((λ r : string + StatusResponse, match r with inl other => hotkey_taken other | inr row => StRow 201 row end) <$>
        createStatus (a_tenantId auth) (a_uid auth) campaignId data)
  end.

Definition get_status (auth : ApiAuth) (campaignId code : string) : StOp StatusReply :=
  from_option (StRow 200) status_missing <$> getStatus (a_tenantId auth) campaignId code.

Definition patch_status (auth : ApiAuth) (campaignId code : string) (body : option Body) : StOp StatusReply :=
  match AdminStatusUpdateSchema body with
  | None => mret invalid_status_body
  | Some data =>
      answers_exists ((λ r : string + option StatusResponse,
          match r with
          | inl other => hotkey_taken other
          | inr None => status_missing
          | inr (Some row) => StRow 200 row
          end) <$> updateStatus (a_tenantId auth) (a_uid auth) campaignId code data)
  end.

Definition remove_status (auth : ApiAuth) (campaignId code : string) : StOp StatusReply :=
  (λ r, match r with
        | deleted_ok => StNoContent
        | delete_not_found => status_missing
        | system_protected owner => StFail 403 "system_protected"
            ("Status " +:+ code +:+ " is owned by system module '" +:+ owner +:+ "' and cannot be deleted.")
        end) <$> deleteStatus (a_tenantId auth) (a_uid auth) campaignId code.

(** ** Every request *)

Inductive StatusCall :=
  | call_system_statuses
  | call_campaign_statuses (cid : string)
  | call_create_status (cid : string) (body : option Body)
  | call_update_status (cid code : string) (body : option Body)
  | call_delete_status (cid code : string)
  | call_table (query : string → list string)
  | call_table_create (body : option Body)
  | call_table_get (campaignId code : string)
  | call_table_update (campaignId code : string) (body : option Body)
  | call_table_delete (campaignId code : string).

(** [requireAuth] and [checkPerm] *)
Definition with_perm (perm : Verb) (auth : option ApiAuth) (handler : ApiAuth → StOp StatusReply) : StOp StatusReply :=
  match auth with
  | None => mret (StFail 401 "not_authenticated" EmptyString)
  | Some a =>
      if negb (bool_decide (perm ∈ a_perms a)) && negb (hasPermission (a_role a) perm)
      then mret (StFail 403 "permission_denied" EmptyString)
      else handler a
  end.

(** [requireAuth] and [requireRole("admin")] *)
Definition with_admin (auth : option ApiAuth) (handler : ApiAuth → StOp StatusReply) : StOp StatusReply :=
  match requireRole admin auth, auth with
  | Some e, _ => mret (StFail (statusCode e) (code e) EmptyString)
  | None, None => mret (StFail 401 "not_authenticated" EmptyString)
  | None, Some a => handler a
  end.

Definition status_handler (auth : option ApiAuth) (c : StatusCall) : StOp StatusReply :=
  match c with
  | call_system_statuses => with_perm campaign_read auth handleListSystemStatuses
  | call_campaign_statuses cid => with_perm campaign_read auth (λ a, handleListCampaignStatuses a cid)
  | call_create_status cid b => with_perm campaign_edit auth (λ a, handleCreateStatus a cid b)
  | call_update_status cid code b => with_perm campaign_edit auth (λ a, handleUpdateStatus a cid code b)
  | call_delete_status cid code => with_perm campaign_edit auth (λ a, handleDeleteStatus a cid code)
  | call_table q => with_admin auth (λ a, get_statuses a q)
  | call_table_create b => with_admin auth (λ a, post_status a b)
  | call_table_get cid code => with_admin auth (λ a, get_status a cid code)
  | call_table_update cid code b => with_admin auth (λ a, patch_status a cid code b)
  | call_table_delete cid code => with_admin auth (λ a, remove_status a cid code)
  end.

Definition serve_status (auth : option ApiAuth) (c : StatusCall) (w : StatusWorld) : StatusReply * StatusWorld :=
  match status_handler auth c w with
  | (Ok r, w') => (r, w')
  | (Err e, w') => (StThrown e, w')
  end.

End process.
End service.

(** ** Processes *)

Fixpoint after_text (prefix s : string) : option string :=
  match prefix, s with
  | EmptyString, _ => Some s
  | String a p, String b s' => if Ascii.eqb a b then after_text p s' else None
  | _, _ => None
  end.

Fixpoint span_digits (s : string) : string * string :=
  match s with
  | String c s' => if is_digit c then let '(d, r) := span_digits s' in (String c d, r) else (EmptyString, s)
  | EmptyString => (EmptyString, EmptyString)
  end.

(** What the dot of a regular expression matches everywhere. *)
Fixpoint one_line (s : string) : bool :=
  match s with
  | String c s' =>
      negb (Ascii.eqb c "010" || Ascii.eqb c "013") &&
      match s' with
      | String "128" (String d _) => negb (Ascii.eqb c "226" && (Ascii.eqb d "168" || Ascii.eqb d "169"))
      | _ => true
      end && one_line s'
  | EmptyString => true
  end.

(** [/^pubsub:t:(\d+):status_changed:(.+)$/] *)
Definition channel_parts (channel : string) : option (Z * string) :=
  s ← after_text "pubsub:t:" channel;
  let '(digits, rest) := span_digits s in
  tid ← (if String.eqb digits EmptyString then None else bigint_of digits);
  cid ← after_text ":status_changed:" rest;
  if negb (String.eqb cid EmptyString) && one_line cid then Some (tid, cid) else None.

(** What a process does with a message of [subscribeToInvalidation]. *)
Definition on_message {A} (channel : string) (s : list (string * CacheEntry (A := A))) : list (string * CacheEntry (A := A)) :=
  match channel_parts channel with Some (tid, cid) => cacheInvalidate tid cid s | None => s end.

Record StatusSystem := mkStatusSystem {
  sys_db : StatusDb;
  sys_caches : gmap nat (list (string * CacheEntry (A := list EffectiveStatus)));
  sys_published : list string;
}.

Record StatusRequest := mkStatusRequest {
  rq_process : nat;
  rq_now : Z;
  rq_redis : bool;
  rq_auth : option ApiAuth;
  rq_call : StatusCall;
}.

Inductive StatusEvent :=
  | status_request (r : StatusRequest)
  | status_message (process : nat) (channel : string).

Definition process_cache (p : nat) (sys : StatusSystem) : list (string * CacheEntry (A := list EffectiveStatus)) :=
  default cacheClear (sys_caches sys !! p).

Definition serve_in (server : StatusServer) (r : StatusRequest) (sys : StatusSystem) : StatusReply * StatusSystem :=
  let '(reply, w) := serve_status server (rq_now r) (rq_redis r) (rq_auth r) (rq_call r)
                       (mkStatusWorld (sys_db sys) (process_cache (rq_process r) sys) (sys_published sys)) in
  (reply, mkStatusSystem (w_db w) (<[ rq_process r := w_cache w ]> (sys_caches sys)) (w_published w)).

(** A message that is delivered was published. *)
Definition status_step (server : StatusServer) (e : StatusEvent) (sys : StatusSystem) : StatusSystem :=
  match e with
  | status_request r => (serve_in server r sys).2
  | status_message p channel =>
      if bool_decide (channel ∈ sys_published sys)
      then mkStatusSystem (sys_db sys) (<[ p := on_message channel (process_cache p sys) ]> (sys_caches sys)) (sys_published sys)
      else sys
  end.

Definition run_statuses (server : StatusServer) (es : list StatusEvent) (sys : StatusSystem) : StatusSystem :=
  fold_left (λ sys e, status_step server e sys) es sys.

(** ** Causes of hanging up, [hangup-map.ts] *)

(** The map of the process, when it has been read; the file as it is read, [None] when that fails. *)
Definition HangupMap : Type := option (gmap string string).

Definition loadHangupMap (file : option (gmap string string)) (m : HangupMap) : HangupMap :=
  match file with Some f => Some f | None => m end.

Definition ensureLoaded (file : option (gmap string string)) (m : HangupMap) : HangupMap :=
  match m with Some _ => m | None => loadHangupMap file m end.

(** [None]: the file could not be read. *)
Definition resolveFromHangupCause (file : option (gmap string string)) (hangupCause : string) (m : HangupMap)
    : option string * HangupMap :=
  let m' := ensureLoaded file m in
  (map ← m'; Some (match map !! hangupCause with None | Some EmptyString => "NA"%string | Some s => s end), m').

(** Whether the reload succeeded. *)
Definition handleD04Reload (file : option (gmap string string)) (m : HangupMap) : bool * HangupMap :=
  (bool_decide (is_Some file), loadHangupMap file m).
