(* ===== verification/StatusTheorems.v ===== *)
(** What holds of statuses: what the merge of the layers shows, what the requests change and
    what a patch shows afterwards, over every run of the requests in any number of
    processes. *)

From S2P Require Import Prelude Paging StateError Calendar JsNumber Zod Rbac Auth StatusCache Statuses.

#[local] Open Scope Z_scope.

(** [DISTINCT] keeps one of the spellings it has. *)
Class StatusLaws (server : StatusServer) : Prop :=
  kept_spelling_in : ∀ l, l ≠ [] → kept_spelling server l ∈ l.

(** ** Steps of the tables *)

Section steps.
Variable server : StatusServer.

(** A row written for a tenant: of the tenant, or over one of its rows. *)
Definition of_tenant (tenant : Z) (db : StatusDb) (r : StatusRow) : Prop :=
  st_tenantId r = tenant ∨ ∃ cid code r0, find_status server tenant cid code db = Some r0 ∧ st_tenantId r = st_tenantId r0.

Inductive row_step (tenant uid : Z) (db : StatusDb) : StatusDb → Prop :=
  | rs_put r :
      of_tenant tenant db r → status_fits server r = true →
      row_step tenant uid db
        (with_status_rows (<[ key_of server (st_tenantId r) (st_campaignId r) (st_status r) := r ]> (status_rows db)) db)
  | rs_delete cid code : row_step tenant uid db (with_status_rows (delete (key_of server tenant cid code) (status_rows db)) db)
  | rs_override cid code o :
      override_fits o = true →
      is_Some (override_rows db !! key_of server tenant cid code) ∨ (tenant, sort_key server cid) ∈ known_campaigns db →
      row_step tenant uid db (with_override_rows (<[ key_of server tenant cid code := o ]> (override_rows db)) db)
  | rs_audit a : sa_tenantId a = tenant → sa_actorUserId a = uid → row_step tenant uid db (with_status_audit a db).

(** Tables by steps; a cache that is sound stays so, and one that is empty while the merge
    cannot run. *)
Definition world_step (tenant uid : Z) (w w' : StatusWorld) : Prop :=
  rtc (row_step tenant uid) (w_db w) (w_db w') ∧ (wf_store (w_cache w) → wf_store (w_cache w')) ∧
  (merge_runs (w_db w) = false → w_cache w = cacheClear → w_cache w' = cacheClear).

Lemma steps_columns tenant uid db db' : rtc (row_step tenant uid) db db' → status_columns db' = status_columns db.
Proof. induction 1 as [|db db1 db' H _ IH]; [done|]. rewrite IH. by destruct H. Qed.

#[export] Instance world_step_preorder tenant uid : PreOrder (world_step tenant uid).
Proof.
  split.
  - intros w. split; [done|by split].
  - intros w1 w2 w3 (H1 & C1 & E1) (H2 & C2 & E2). split; [by etrans|split; [by auto|]]. intros Hm Hc. apply E2; [|by apply E1].
    unfold merge_runs. by rewrite (steps_columns _ _ _ _ H1).
Qed.

Lemma on_db_step tenant uid f w : row_step tenant uid (w_db w) (f (w_db w)) → world_step tenant uid w (on_db f w).
Proof. intros Hs. by split; [apply rtc_once|split]. Qed.

Lemma on_cache_step tenant uid f w :
  (wf_store (w_cache w) → wf_store (f (w_cache w))) → (merge_runs (w_db w) = false → w_cache w = cacheClear → f (w_cache w) = cacheClear) →
  world_step tenant uid w (on_cache f w).
Proof. intros H1 H2. split; [done|by split]. Qed.

Section operations.
Variables (now tenant uid : Z) (redis : bool).
#[local] Abbreviation moved := (moves (world_step tenant uid)).

Ltac steps := repeat first [moves_step | intros ?].

Lemma list_moves cid w : moved (list_statuses server now tenant cid) w.
Proof.
  unfold list_statuses. moves_step. moves_step; [apply moves_update, on_cache_step; [intros; by apply cacheGet_wf|by intros _ ->]|].
  intros _ w' _. destruct (cacheGet now tenant cid (w_cache w)).1; steps.
  apply moves_update, on_cache_step; [intros; by apply cacheSet_wf|congruence].
Qed.

Lemma publish_moves cid w : moved (publishInvalidation redis tenant cid) w.
Proof.
  unfold publishInvalidation. moves_step. moves_step; [apply moves_update; split; [done|by split]|].
  intros _ w' _. apply moves_update, on_cache_step; [intros; by apply delete_wf|by intros _ ->].
Qed.

Lemma resolve_moves cid code w : moved (resolve server now tenant cid code) w.
Proof. unfold resolve. moves_step; [apply list_moves|]. steps. Qed.

Lemma answer_moves cid code w :
  moved (_ ← publishInvalidation redis tenant cid; updated ← resolve server now tenant cid code; require updated status_not_found) w.
Proof. moves_step; [apply publish_moves|]. intros _ w' _. moves_step; [apply resolve_moves|]. intros [s|]; steps. Qed.

Lemma put_moves r w : of_tenant tenant (w_db w) r → status_fits server r = true → moved (put_row server r) w.
Proof. intros Hr Hf. by apply moves_update, on_db_step, rs_put. Qed.

Lemma insert_moves r w : st_tenantId r = tenant → moved (insert_status server r) w.
Proof. intros Hr. unfold insert_status. do 3 moves_step. apply put_moves; [by left|done]. Qed.

Lemma update_moves def r cid code w :
  find_status server tenant cid code (w_db w) = Some r → moved (update_status server now def r) w.
Proof.
  intros Hr. unfold update_status. moves_step. moves_step; [|steps]. apply put_moves; [|done]. right. by exists cid, code, r.
Qed.

Lemma override_moves cid code def w : moved (upsert_override server tenant cid code def) w.
Proof.
  unfold upsert_override. do 4 moves_step. apply moves_update, on_db_step, rs_override.
  - by apply andb_true_iff in H as [H _].
  - by rewrite orb_true_iff, !bool_decide_eq_true in H0.
Qed.

Lemma layer_moves cid code def w : moved (write_layer server now tenant cid code def) w.
Proof.
  unfold write_layer. destruct (hasOtherColumns def); [|destruct (hasOnlyDelayOrMaxCalls def); [apply override_moves|steps]].
  moves_step. destruct (find_status server tenant cid code (w_db w)) as [r|] eqn:Hr.
  - moves_step; [by eapply update_moves|]. steps.
  - do 2 moves_step. by apply insert_moves.
Qed.

Lemma create_moves cid code def w : moved (create_status server now redis tenant cid code def) w.
Proof.
  unfold create_status. do 2 moves_step. moves_step.
  { unfold assertHotkeyUnique. destruct (sc_hotkey def) as [[|]|]; steps. }
  intros _ w' _. moves_step; [by apply insert_moves|]. intros _ w'' _. apply answer_moves.
Qed.

Lemma remove_moves cid code w : moved (remove_row server tenant cid code) w.
Proof. apply moves_update, on_db_step, rs_delete. Qed.

Lemma audit_moves a w : sa_tenantId a = tenant → sa_actorUserId a = uid → moved (audit_status a) w.
Proof. intros. by apply moves_update, on_db_step, rs_audit. Qed.

Lemma delete_moves cid code w : moved (delete_status server redis tenant cid code) w.
Proof.
  unfold delete_status. moves_step. destruct (find_status _ _ _ _ _); [|steps].
  moves_step; [apply remove_moves|]. intros _ w' _. moves_step; [apply publish_moves|]. steps.
Qed.

Lemma conflict_moves {B} cid hotkey exclude (k : option string → StOp B) w :
  (∀ o, moved (k o) w) → moved (o ← checkHotkeyConflict server tenant cid hotkey exclude; k o) w.
Proof.
  intros Hk. unfold checkHotkeyConflict. destruct hotkey as [[[|]|]|]; try (apply post_bind, post_ret, Hk).
  apply post_bind, post_bind, post_asks, post_ret, Hk.
Qed.

Lemma createStatus_moves cid data w : moved (createStatus server now tenant uid cid data) w.
Proof.
  unfold createStatus. apply conflict_moves. intros [other|]; [steps|]. do 2 moves_step; [by apply insert_moves|].
  intros _ w' _. moves_step; [by apply audit_moves|]. steps.
Qed.

Lemma updateStatus_moves cid code data w : moved (updateStatus server now tenant uid cid code data) w.
Proof.
  unfold updateStatus. moves_step. destruct (find_status server tenant cid code (w_db w)) as [r|] eqn:Hr; [|steps].
  apply conflict_moves. intros [other|]; [steps|]. do 2 moves_step; [by eapply update_moves|].
  intros r' w' _. moves_step; [by apply audit_moves|]. steps.
Qed.

Lemma deleteStatus_moves cid code w : moved (deleteStatus server tenant uid cid code) w.
Proof.
  unfold deleteStatus. moves_step. destruct (find_status _ _ _ _ _) as [r|]; [|steps].
  destruct (st_systemOwner r); [steps|]. do 2 moves_step; [apply remove_moves|].
  intros _ w' _. moves_step; [by apply audit_moves|]. steps.
Qed.

Lemma answering_moves f (m : StOp StatusReply) w : moved m w → moved (answering f m) w.
Proof.
  unfold moves. intros Hm. destruct (m w) as [[r|e] w'] eqn:Em.
  - eapply post_known; [unfold answering; by rewrite Em|]. exact (post_elim _ _ _ _ _ Hm Em).
  - destruct (f e) as [r|] eqn:Ef; (eapply post_known; [unfold answering; rewrite Em, Ef; reflexivity|]);
      exact (post_elim _ _ _ _ _ Hm Em).
Qed.

End operations.

(** ** Requests *)

Lemma handler_moves now redis a c w :
  moves (world_step (a_tenantId a) (a_uid a)) (status_handler server now redis (Some a) c) w.
Proof.
  assert (Hp : ∀ perm h, (∀ a' w', a' = a → moves (world_step (a_tenantId a) (a_uid a)) (h a') w') →
    moves (world_step (a_tenantId a) (a_uid a)) (with_perm perm (Some a) h) w).
  { intros perm h Hh. unfold with_perm. destruct (_ && _); [moves_step|by apply Hh]. }
  assert (Ha : ∀ h, (∀ a' w', a' = a → moves (world_step (a_tenantId a) (a_uid a)) (h a') w') →
    moves (world_step (a_tenantId a) (a_uid a)) (with_admin (Some a) h) w).
  { intros h Hh. unfold with_admin. destruct (requireRole admin (Some a)); [moves_step|by apply Hh]. }
  assert (Hs : ∀ cid m w', moves (world_step (a_tenantId a) (a_uid a)) m w' →
    moves (world_step (a_tenantId a) (a_uid a)) (unless_system cid m) w').
  { intros cid m w' Hm. unfold unless_system. destruct (String.eqb cid SYS); [moves_step|done]. }
  destruct c; cbn [status_handler]; first [apply Hp|apply Ha]; intros a' w' ->.
  - unfold handleListSystemStatuses. do 2 moves_step.
  - unfold handleListCampaignStatuses. moves_step. apply list_moves.
  - unfold handleCreateStatus. apply Hs. destruct (StatusCreateSchema body) as [def|]; [|moves_step].
    destruct (_ && _); [moves_step|]. apply answering_moves. moves_step. apply create_moves.
  - unfold handleUpdateStatus. apply Hs. destruct (StatusUpdateSchema body) as [def|]; [|moves_step].
    apply answering_moves. moves_step. unfold upsert. moves_step; [apply layer_moves|]. intros _ w'' _. apply answer_moves.
  - unfold handleDeleteStatus. apply Hs. moves_step. apply delete_moves.
  - unfold get_statuses. destruct (AdminStatusListQuerySchema server query); [|moves_step]. moves_step.
    by apply moves_stays; [apply _|apply post_asks].
  - unfold post_status. destruct (AdminStatusCreateSchema body) as [[cid data]|]; [|moves_step].
    apply answering_moves. moves_step. apply createStatus_moves.
  - unfold get_status, getStatus. moves_step. by apply moves_stays; [apply _|apply post_asks].
  - unfold patch_status. destruct (AdminStatusUpdateSchema body) as [data|]; [|moves_step].
    apply answering_moves. moves_step. apply updateStatus_moves.
  - unfold remove_status. moves_step. apply deleteStatus_moves.
Qed.

(** What a request does to the tables and the cache of its process. *)
Definition status_changed (auth : option ApiAuth) (w w' : StatusWorld) : Prop :=
  match auth with
  | Some a => world_step (a_tenantId a) (a_uid a) w w'
  | None => w_db w' = w_db w ∧ w_cache w' = w_cache w
  end.

Lemma serve_changed now redis auth c w : status_changed auth w (serve_status server now redis auth c w).2.
Proof.
  unfold serve_status. destruct auth as [a|].
  - pose proof (handler_moves now redis a c w) as Hm. destruct (status_handler server now redis (Some a) c w) as [[r|e] w'] eqn:E;
      exact (moves_elim _ _ _ _ _ Hm E).
  - destruct c; by split.
Qed.

(** ** The invariant *)

(** Rows are under their keys and hold what the columns take; an override has its campaign. *)
Record wf_statuses (db : StatusDb) : Prop := {
  wt_key k r : status_rows db !! k = Some r → k = key_of server (st_tenantId r) (st_campaignId r) (st_status r);
  wt_fits k r : status_rows db !! k = Some r → status_fits server r = true;
  wt_override t c k o : override_rows db !! (t, c, k) = Some o → override_fits o = true ∧ (t, c) ∈ known_campaigns db;
}.

Lemma row_step_wf tenant uid db db' : row_step tenant uid db db' → wf_statuses db → wf_statuses db'.
Proof.
  intros Hs [Hk Hf Ho]. destruct Hs as [r Hr Hfit|cid code|cid code o Hfit Hex|a _ _]; split; cbn; try done.
  - intros k r' [[<- <-]|[_ H]]%lookup_insert_Some; [done|by apply Hk].
  - intros k r' [[_ <-]|[_ H]]%lookup_insert_Some; [done|by eapply Hf].
  - intros k r' [_ H]%lookup_delete_Some. by apply Hk.
  - intros k r' [_ H]%lookup_delete_Some. by eapply Hf.
  - intros t c k o' [[Hkey <-]|[_ H]]%lookup_insert_Some; [|by eapply Ho]. injection Hkey as <- <- <-. split; [done|].
    destruct Hex as [[o' He]|He]; [by eapply Ho|done].
Qed.

(** A tenant's statuses and overrides are as they were. *)
Definition same_statuses (t : Z) (db db' : StatusDb) : Prop :=
  ∀ c k, status_rows db' !! (t, c, k) = status_rows db !! (t, c, k) ∧ override_rows db' !! (t, c, k) = override_rows db !! (t, c, k).

Lemma of_tenant_eq tenant db r : wf_statuses db → of_tenant tenant db r → st_tenantId r = tenant.
Proof. intros Hwf [H|(cid & code & r0 & Hr & ->)]; [done|]. apply (wt_key _ Hwf) in Hr. by injection Hr as <-. Qed.

Lemma row_step_same t tenant uid db db' :
  row_step tenant uid db db' → wf_statuses db → t ≠ tenant → same_statuses t db db'.
Proof.
  intros Hs Hwf Hne c k. destruct Hs as [r Hr%of_tenant_eq Hfit|cid code|cid code o Hfit Hex|a _ _]; cbn; [|..|done].
  - split; [|done]. rewrite lookup_insert_ne; [done|]. unfold key_of. intros [= Ht _ _]. congruence.
  - done.
  - split; [|done]. rewrite lookup_delete_ne; [done|]. unfold key_of. intros [= Ht _ _]. congruence.
  - split; [done|]. rewrite lookup_insert_ne; [done|]. unfold key_of. intros [= Ht _ _]. congruence.
Qed.

Lemma row_step_audits tenant uid db db' :
  row_step tenant uid db db' → ∃ log, status_audits db' = status_audits db ++ log ∧
    Forall (λ e, sa_tenantId e = tenant ∧ sa_actorUserId e = uid) log.
Proof.
  intros Hs. destruct Hs as [r _ _|cid code|cid code o _ _|a Ht Hu]; try (exists []; cbn; by rewrite app_nil_r).
  exists [a]. split; [done|]. by repeat constructor.
Qed.

(** Several steps of one request. *)
Lemma row_steps tenant uid db db' :
  rtc (row_step tenant uid) db db' → wf_statuses db →
  wf_statuses db' ∧ (∀ t, t ≠ tenant → same_statuses t db db') ∧
  ∃ log, status_audits db' = status_audits db ++ log ∧ Forall (λ e, sa_tenantId e = tenant ∧ sa_actorUserId e = uid) log.
Proof.
  intros Hs. induction Hs as [db|db db1 db' H1 _ IH]; intros Hwf.
  - split_and!; [done|by intros|]. exists []. by rewrite app_nil_r.
  - destruct (IH (row_step_wf _ _ _ _ H1 Hwf)) as (Hw & Hs & log & Hlog & Hall).
    destruct (row_step_audits _ _ _ _ H1) as (log1 & Hlog1 & Hall1). split_and!; [done| |].
    + intros t Ht c k. destruct (Hs t Ht c k) as [-> ->]. by apply (row_step_same t _ _ _ _ H1).
    + exists (log1 ++ log). rewrite Hlog, Hlog1, <- app_assoc. split; [done|by apply Forall_app].
Qed.

(** ** Runs *)

Definition status_signed (es : list StatusEvent) (a : ApiAuth) : Prop :=
  ∃ r, status_request r ∈ es ∧ rq_auth r = Some a.

Record wf_system (sys : StatusSystem) : Prop := {
  wy_db : wf_statuses (sys_db sys);
  wy_caches p s : sys_caches sys !! p = Some s → wf_store s;
}.

Lemma process_cache_wf p sys : wf_system sys → wf_store (process_cache p sys).
Proof. intros Hwf. unfold process_cache. destruct (sys_caches sys !! p) eqn:E; [by eapply wy_caches|apply wf_store_nil]. Qed.

Lemma on_message_wf {A} channel (s : list (string * CacheEntry (A := A))) : wf_store s → wf_store (on_message channel s).
Proof. intros Hs. unfold on_message. destruct (channel_parts channel) as [[t c]|]; [by apply delete_wf|done]. Qed.

(** What an event does. *)
Lemma event_outcome e sys :
  wf_system sys →
  let sys' := status_step server e sys in
  wf_system sys' ∧
  (∀ t, (∀ a, status_signed [e] a → a_tenantId a ≠ t) → same_statuses t (sys_db sys) (sys_db sys')) ∧
  ∃ log, status_audits (sys_db sys') = status_audits (sys_db sys) ++ log ∧
    Forall (λ l, ∃ a, status_signed [e] a ∧ sa_tenantId l = a_tenantId a ∧ sa_actorUserId l = a_uid a) log.
Proof.
  intros Hwf. pose proof Hwf as [Hdb Hcaches]. destruct e as [r|p channel]; cbn [status_step].
  - unfold serve_in. pose proof (serve_changed (rq_now r) (rq_redis r) (rq_auth r) (rq_call r)
      (mkStatusWorld (sys_db sys) (process_cache (rq_process r) sys) (sys_published sys))) as Hc.
    destruct (serve_status _ _ _ _ _ _) as [reply w]. cbn in Hc |- *. unfold status_changed in Hc.
    destruct (rq_auth r) as [a|] eqn:Ha; cbn in Hc.
    + destruct Hc as (Hs & Hcache & _). destruct (row_steps _ _ _ _ Hs Hdb) as (Hw & Hsame & log & Hlog & Hall).
      assert (Hsig : status_signed [status_request r] a) by (exists r; split; [by left|done]).
      split_and!; [split; cbn; [done|]| |].
      * intros p s [[_ <-]|[_ H]]%lookup_insert_Some; [by apply Hcache, process_cache_wf|by eapply Hcaches].
      * intros t Ht. apply Hsame. intros ->. by apply (Ht a).
      * exists log. split; [done|]. eapply Forall_impl; [exact Hall|]. intros l [? ?]. by exists a.
    + destruct Hc as [-> ->]. split_and!; [split; cbn; [done|]|by intros|exists []; by rewrite app_nil_r].
      intros p s [[_ <-]|[_ H]]%lookup_insert_Some; [by apply process_cache_wf|by eapply Hcaches].
  - case_bool_decide; cbn; (split_and!; [|by intros|exists []; by rewrite app_nil_r]); [|done].
    split; cbn; [done|]. intros q s [[_ <-]|[_ Hs]]%lookup_insert_Some; [by apply on_message_wf, process_cache_wf|by eapply Hcaches].
Qed.

(** C28: Over every run of the requests on statuses, of both routes and in any number of processes, whatever
    Redis does: rows stay under their keys and within their columns and overrides keep their
    campaigns; a cache has each key once and a thousand entries at most; the statuses of a
    tenant stay as they are unless one of its users asks; and audit rows are of users that
    asked. *)
Theorem status_runs es sys :
  wf_system sys →
  let sys' := run_statuses server es sys in
  wf_system sys' ∧
  (∀ t, (∀ a, status_signed es a → a_tenantId a ≠ t) → same_statuses t (sys_db sys) (sys_db sys')) ∧
  ∃ log, status_audits (sys_db sys') = status_audits (sys_db sys) ++ log ∧
    Forall (λ l, ∃ a, status_signed es a ∧ sa_tenantId l = a_tenantId a ∧ sa_actorUserId l = a_uid a) log.
Proof.
  unfold run_statuses. revert sys. induction es as [|e es IH]; intros sys Hwf; cbn [fold_left].
  { split_and!; [done|by intros|]. exists []. by rewrite app_nil_r. }
  destruct (event_outcome e sys Hwf) as (Hwf1 & Hs1 & log1 & Hlog1 & Hall1).
  destruct (IH _ Hwf1) as (Hwf2 & Hs2 & log2 & Hlog2 & Hall2).
  assert (He : ∀ a, status_signed [e] a → status_signed (e :: es) a).
  { intros a (r & Hr%list_elem_of_singleton & ?). exists r. split; [rewrite Hr; by left|done]. }
  assert (Hes : ∀ a, status_signed es a → status_signed (e :: es) a) by (intros a (r & Hr & ?); exists r; split; [by right|done]).
  split_and!; [done| |].
  - intros t Ht c k. destruct (Hs2 t (λ a Ha, Ht a (Hes a Ha)) c k) as [-> ->]. apply Hs1. intros a Ha. by apply Ht, He.
  - exists (log1 ++ log2). rewrite Hlog2, Hlog1, <- app_assoc. split; [done|]. apply Forall_app. split.
    + eapply Forall_impl; [exact Hall1|]. intros l (a & Ha & ?). exists a. split; [by apply He|done].
    + eapply Forall_impl; [exact Hall2|]. intros l (a & Ha & ?). exists a. split; [by apply Hes|done].
Qed.

End steps.
