(* ===== verification/StatusShortfalls.v ===== *)
(** Where statuses fall short of their own intent, and inputs at which the theorems apply. *)

From Stdlib Require Import SpecFloat.
From S2P Require Import Prelude Paging StateError Calendar JsNumber Zod Rbac Auth StatusCache Statuses StatusTheorems.

#[local] Open Scope Z_scope.

(** ** The merge never runs *)

(** The columns of the table after the migrations. *)
Definition migrated_columns : list string :=
  ["tenant_id"; "campaign_id"; "status"; "description"; "selectable"; "human_answered"; "sale"; "dnc"; "callback";
   "not_interested"; "hotkey"; "recycle_delay_seconds"; "category"; "system_owner"; "created_at"; "updated_at"]%string.

(** An answer with an effective status. *)
Definition effective_answer (r : StatusReply) : bool :=
  match r with StItems _ _ | StStatus _ _ => true | _ => false end.

Section never.
Variable server : StatusServer.

Lemma list_fails now tenant cid w :
  merge_runs (w_db w) = false → w_cache w = cacheClear → ∃ w', list_statuses server now tenant cid w = (Err failed_statement, w').
Proof.
  intros Hm Hc. unfold list_statuses, asks, mbind, SE_bind. cbn beta iota. rewrite Hc. cbn -[merge_runs]. rewrite Hm. cbn. by eexists.
Qed.

(** The listing of statuses by the merge names a column of statuses that no migration adds, so that it
    fails: no run of requests from empty caches leaves anything in them, and none answers with
    the effective status of a call.  Creations and patches are written nevertheless. *)
Theorem merge_never_runs es sys :
  status_columns (sys_db sys) = migrated_columns → (∀ p, process_cache p sys = cacheClear) →
  let sys' := run_statuses server es sys in
  status_columns (sys_db sys') = migrated_columns ∧ (∀ p, process_cache p sys' = cacheClear) ∧
  ∀ r auth cid, rq_auth r = Some auth → rq_call r = call_campaign_statuses cid → effective_answer (serve_in server r sys').1 = false.
Proof.
  intros Hcol Hc. cbn zeta. unfold run_statuses. revert sys Hcol Hc. induction es as [|e es IH]; intros sys Hcol Hc; cbn [fold_left].
  - split_and!; [done..|]. intros r auth cid Ha Hr. unfold serve_in. rewrite Hc, Ha, Hr. unfold serve_status. cbn [status_handler].
    unfold with_perm. destruct (_ && _); [done|]. unfold handleListCampaignStatuses, fmap, SE_fmap.
    destruct (list_fails (rq_now r) (a_tenantId auth) cid (mkStatusWorld (sys_db sys) cacheClear (sys_published sys))) as [w' E];
      [cbn; unfold merge_runs; by rewrite Hcol|done|]. by rewrite E.
  - apply IH.
    + destruct e as [r|p ch]; cbn [status_step]; [|by destruct (bool_decide _)]. unfold serve_in.
      pose proof (serve_changed server (rq_now r) (rq_redis r) (rq_auth r) (rq_call r)
        (mkStatusWorld (sys_db sys) (process_cache (rq_process r) sys) (sys_published sys))) as H.
      destruct (serve_status _ _ _ _ _ _) as [reply w]. cbn in H |- *. destruct (rq_auth r); cbn in H.
      * destruct H as [H _]. by rewrite (steps_columns _ _ _ _ _ H).
      * by destruct H as [-> _].
    + intros p. destruct e as [r|q ch]; cbn [status_step].
      * unfold serve_in. pose proof (serve_changed server (rq_now r) (rq_redis r) (rq_auth r) (rq_call r)
          (mkStatusWorld (sys_db sys) (process_cache (rq_process r) sys) (sys_published sys))) as H.
        destruct (serve_status _ _ _ _ _ _) as [reply w]. cbn -[merge_runs] in H |- *. unfold process_cache at 1. cbn -[merge_runs].
        destruct (decide (rq_process r = p)) as [<-|Hne]; [|rewrite lookup_insert_ne by done; apply Hc].
        rewrite lookup_insert_eq. cbn -[merge_runs]. destruct (rq_auth r); cbn -[merge_runs] in H.
        -- destruct H as (_ & _ & H). apply H; [|apply Hc]. cbn [w_db]. unfold merge_runs. by rewrite Hcol.
        -- destruct H as [_ ->]. apply Hc.
      * case_bool_decide; [|apply Hc]. unfold process_cache at 1. cbn. destruct (decide (q = p)) as [<-|Hne].
        -- rewrite lookup_insert_eq. cbn. rewrite Hc. unfold on_message. by destruct (channel_parts ch) as [[??]|].
        -- rewrite lookup_insert_ne by done. apply Hc.
Qed.

End never.


(** ** Transitions *)

Lemma find_none_iff {A} (p : A → bool) l : List.find p l = None ↔ Forall (λ x, p x = false) l.
Proof.
  induction l as [|x l IH]; cbn; [split; [constructor|done]|]. rewrite Forall_cons, <- IH. destruct (p x); naive_solver.
Qed.

Lemma rule_applies_false from_ to f t e m :
  rule_applies from_ to (f, t, e, m) = false ↔ (f = None → t ≠ Some to) ∧ (f = Some from_ → t ≠ None ∧ t ≠ Some to).
Proof.
  unfold rule_applies. rewrite !orb_false_iff, !bool_decide_eq_false. naive_solver.
Qed.

(** A change of status is allowed unless it is to one of four statuses, from one of two, or from one
    whose system row is terminal.  There are six rules where the comment counts seven. *)
Theorem transition_allowed server tenant from_ to w :
  (validateTransition server tenant from_ to w).1 = Ok None ↔
  (to ∉ ["INCALL"; "QUEUE"; "NEW"; "INVALID"]%string ∧ from_ ∉ ["SALE"; "DNC"]%string) ∧
  (find_status server tenant SYS from_ (w_db w) ≫= st_recycleDelaySeconds) ≠ Some (-1).
Proof.
  assert (Hrules : List.find (rule_applies from_ to) ILLEGAL_TRANSITIONS = None ↔
    to ∉ ["INCALL"; "QUEUE"; "NEW"; "INVALID"]%string ∧ from_ ∉ ["SALE"; "DNC"]%string).
  { rewrite find_none_iff. unfold ILLEGAL_TRANSITIONS. rewrite !Forall_cons, !rule_applies_false, !not_elem_of_cons.
    split.
    - intros ((H1 & _) & (H2 & _) & (H3 & _) & (_ & H4) & (H5 & _) & (_ & H6) & _).
      assert (∀ a b : string, (Some a : option string) ≠ Some b → b ≠ a) as Hs by (intros a b H ->; done).
      split_and!; try (by intros ?%elem_of_nil); try (apply Hs; auto).
      + intros Heq. by destruct (H4 Heq).
      + intros Heq. by destruct (H6 Heq).
    - intros ((H1 & H2 & H3 & H4 & _) & H5 & H6 & _).
      split_and!; try (by apply Forall_nil); try (by intros ?); intros ?; congruence. }
  unfold validateTransition. destruct (List.find _ _) as [[[[f t] e] m]|] eqn:E.
  - split; [done|]. intros [Hr _]. 
    by apply Hrules in Hr.
  - rewrite <- Hrules. unfold asks. unfold mbind at 1, SE_bind. cbn beta iota. case_bool_decide; cbn [fst mret SE_ret]; naive_solver.
Qed.

(** ** A table *)

Definition sample_statuses : StatusServer :=
  mkStatusServer toLowerCase (λ n s, Z.of_nat (String.length s) <=? n) String.leb (λ l, default EmptyString (head l)) head
    (λ _ _, false) (λ _, NaN).

#[export] Instance sample_statuses_laws : StatusLaws sample_statuses.
Proof. intros [|s l] H; [done|]. left. Qed.

Definition sample_status (cid code : string) (hotkey : option string) (delay : option Z) (owner : option string) : StatusRow :=
  mkStatus 1 cid code "as it was" true true false false false false hotkey delay None owner None 0 0.

Definition sale : StatusRow := sample_status SYS "SALE" (Some "1"%string) (Some (-1)) (Some "__AGT__"%string).
Definition ni : StatusRow := sample_status SYS "NI" (Some "2"%string) None (Some "__AGT__"%string).

(** Two system statuses, and a campaign; [columns] are those of the table. *)
Definition sample_status_db (columns : list string) : StatusDb :=
  mkStatusDb columns
    (<[ key_of sample_statuses 1 SYS "SALE" := sale ]> {[ key_of sample_statuses 1 SYS "NI" := ni ]})
    ∅ {[ (1, toLowerCase "C1") ]} [].

Definition manager : ApiAuth := mkApiAuth 2 1 admin (permsAsSet admin) "j" true None AllCampaigns.

Definition sample_world (columns : list string) : StatusWorld := mkStatusWorld (sample_status_db columns) [] [].

(** A request while Redis answers. *)
Definition ask (c : StatusCall) : StatusWorld → StatusReply * StatusWorld := serve_status sample_statuses 5 true (Some manager) c.

Definition body_of (l : list (string * BodyValue)) : option Body := Some (list_to_map l).

Definition sample_number (n : positive) : BodyValue := BNum (S754_finite false n 0).

Definition shown_as (code : string) (w : StatusWorld) : option EffectiveStatus :=
  List.find (λ s, String.eqb (es_code s) code) (merge_statuses sample_statuses 1 "C1" (w_db w)).

(** ** What goes wrong *)

(** With the columns of the migrations a patch writes its row and answers an internal error. *)
Theorem patch_writes_and_throws :
  let '(r, w) := ask (call_update_status "C1" "SALE" (body_of [("description", BText "sold")]%string)) (sample_world migrated_columns) in
  r = StThrown failed_statement ∧ st_description <$> find_status sample_statuses 1 "C1" "SALE" (w_db w) = Some "sold"%string.
Proof. vm_compute. by split. Qed.

(** A [null] that a patch writes to a campaign's row shows the system's value: the hotkey stays. *)
Theorem null_shows_system :
  let '(_, w) := ask (call_update_status "C1" "SALE" (body_of [("hotkey", BNull)]%string)) (sample_world migrated_columns) in
  st_hotkey <$> find_status sample_statuses 1 "C1" "SALE" (w_db w) = Some None ∧
  es_hotkey <$> shown_as "SALE" w = Some (Some "1"%string).
Proof. vm_compute. by split. Qed.

(** Beside another column the number of calls is dropped. *)
Theorem calls_dropped :
  let '(_, w) := ask (call_update_status "C1" "SALE" (body_of [("description", BText "sold"); ("maxCalls", sample_number 3)]%string))
                   (sample_world migrated_columns) in
  override_rows (w_db w) = ∅ ∧ es_maxCalls <$> shown_as "SALE" w = Some None.
Proof. vm_compute. by split. Qed.

(** A patch of the description takes the system's delay into the campaign's row, over the delay that an
    override had given. *)
Theorem description_resets_delay :
  let '(_, w1) := ask (call_update_status "C1" "SALE" (body_of [("recycleDelaySeconds", sample_number 60)]%string))
                    (sample_world migrated_columns) in
  let '(_, w2) := ask (call_update_status "C1" "SALE" (body_of [("description", BText "sold")]%string)) w1 in
  es_recycleDelaySeconds <$> shown_as "SALE" w1 = Some (Some 60) ∧ es_recycleDelaySeconds <$> shown_as "SALE" w2 = Some (Some (-1)).
Proof. vm_compute. by split. Qed.

(** An override of a status that does not exist is written before the answer that it does not. *)
Theorem unknown_code_written :
  let '(r, w) := ask (call_update_status "C1" "NOPE" (body_of [("recycleDelaySeconds", sample_number 60)]%string))
                   (sample_world merge_columns) in
  r = StFail 404 "not_found" EmptyString ∧ override_rows (w_db w) !! key_of sample_statuses 1 "C1" "NOPE" = Some (mkOverrideRow (Some 60) None).
Proof. vm_compute. by split. Qed.

(** A patch does not look whether its hotkey is taken, and a creation not at the system's. *)
Theorem hotkey_taken_twice :
  let '(_, w1) := ask (call_update_status "C1" "NI" (body_of [("hotkey", BText "1")]%string)) (sample_world migrated_columns) in
  let '(_, w2) := ask (call_create_status "C1" (body_of [("status", BText "HOT"); ("description", BText "hot"); ("hotkey", BText "1")]%string))
                    (sample_world migrated_columns) in
  es_hotkey <$> shown_as "NI" w1 = es_hotkey <$> shown_as "SALE" w1 ∧ es_hotkey <$> shown_as "HOT" w2 = es_hotkey <$> shown_as "SALE" w2.
Proof. vm_compute. by split. Qed.

(** The guard of the system's rows compares the spelling, the table does not: in lower case they are
    patched; and the administration of the table has no such guard. *)
Theorem system_row_patched :
  let change := body_of [("description", BText "sold")]%string in
  let '(r1, _) := ask (call_update_status SYS "SALE" change) (sample_world migrated_columns) in
  let '(_, w2) := ask (call_update_status "__sys__" "SALE" change) (sample_world migrated_columns) in
  let '(_, w3) := ask (call_table_update SYS "SALE" change) (sample_world migrated_columns) in
  r1 = system_status_immutable ∧ st_description <$> find_status sample_statuses 1 SYS "SALE" (w_db w2) = Some "sold"%string ∧
  st_description <$> find_status sample_statuses 1 SYS "SALE" (w_db w3) = Some "sold"%string.
Proof. vm_compute. by split_and!. Qed.

(** The owner is copied into a campaign's row, which the administration then does not delete. *)
Theorem shadow_not_deleted :
  let '(_, w1) := ask (call_update_status "C1" "SALE" (body_of [("description", BText "sold")]%string)) (sample_world migrated_columns) in
  let '(r, _) := ask (call_table_delete "C1" "SALE") w1 in
  match r with StFail status _ _ => status = 403 | _ => False end.
Proof. by vm_compute. Qed.

(** Were the column there: when Redis is down a patch is written and the cache keeps the status as it was,
    as it does after a patch of the administration, which tells nobody. *)
Theorem cache_not_told :
  let change := body_of [("description", BText "sold")]%string in
  let '(_, w) := ask (call_campaign_statuses "C1") (sample_world merge_columns) in
  let '(r1, w1) := serve_status sample_statuses 6 false (Some manager) (call_update_status "C1" "SALE" change) w in
  let '(_, w2) := ask (call_table_update SYS "SALE" change) w in
  let shown (w : StatusWorld) := match (ask (call_campaign_statuses "C1") w).1 with StItems _ items => es_description <$> items | _ => [] end in
  r1 = StThrown redis_down ∧ es_description <$> shown_as "SALE" w1 = Some "sold"%string ∧ shown w1 = shown w ∧
  es_description <$> shown_as "SALE" w2 = Some "sold"%string ∧ shown w2 = shown w.
Proof. vm_compute. by split_and!. Qed.

(** ** Witnesses *)

Lemma sample_status_db_wf columns : wf_statuses sample_statuses (sample_status_db columns).
Proof.
  assert (Hrows : ∀ k r, status_rows (sample_status_db columns) !! k = Some r →
    (k, r) = (key_of sample_statuses 1 SYS "SALE", sale) ∨ (k, r) = (key_of sample_statuses 1 SYS "NI", ni)).
  { intros k r. cbn [status_rows sample_status_db]. rewrite lookup_insert_Some, lookup_singleton_Some. naive_solver. }
  split.
  - intros k r [[= -> ->]|[= -> ->]]%Hrows; done.
  - intros k r [[= -> ->]|[= -> ->]]%Hrows; done.
  - intros t c k o Ho. cbn in Ho. by rewrite lookup_empty in Ho.
Qed.

Definition sample_status_system : StatusSystem := mkStatusSystem (sample_status_db migrated_columns) ∅ [].

Lemma status_runs_witness :
  let change := body_of [("description", BText "sold")]%string in
  let es := [status_request (mkStatusRequest 0 5 true (Some manager) (call_update_status "C1" "SALE" change));
             status_message 1 "pubsub:t:1:status_changed:C1";
             status_request (mkStatusRequest 1 6 true (Some manager) (call_table_update SYS "NI" change))] in
  let sys' := run_statuses sample_statuses es sample_status_system in
  wf_system sample_statuses sys' ∧ same_statuses 2 (sys_db sample_status_system) (sys_db sys') ∧
  length (status_audits (sys_db sys')) = 1%nat.
Proof.
  intros change es sys'. assert (Hwf : wf_system sample_statuses sample_status_system).
  { split; [apply sample_status_db_wf|]. intros p s Hp. cbn in Hp. by rewrite lookup_empty in Hp. }
  destruct (status_runs sample_statuses es sample_status_system Hwf) as (Hw & Hs & _).
  split_and!; [exact Hw| |vm_compute; reflexivity]. apply Hs. intros a (r & Hr & Ha).
  unfold es in Hr. rewrite !elem_of_cons in Hr. destruct Hr as [[= ->]|[?|[[= ->]|[]%elem_of_nil]]]; [|done|]; by injection Ha as <-.
Defined.
