(* ===== verification/Leads.v ===== *)
(** Leads, [api/src/leads]: cursors, the routes that read leads (one, by phone, pages,
    the CSV export) and those that write them (create, bulk, patch, delete), with the
    table of leads, the audit rows and the events published as their state.

    A column of the database is a [Value]; the columns a request may set are the map
    [l_cols] of a lead, by the names of the client, and the others are fields.  Columns
    of instants are microseconds, a JavaScript [Date] milliseconds.  The phone number
    library, base64url, the collation of text columns and the reading of dates other than
    ISO ones are parameters.  Request bodies are those the schemas accept, with their
    defaults, as maps from field to value. *)

From S2P Require Import Prelude Calendar Jcs JsonText JsNumber Rbac Auth.

#[local] Open Scope Z_scope.

(** ** Cursors, [cursor.ts] *)

Inductive SortOrder : Set := modify_at_desc | created_at_desc.

#[export] Instance SortOrder_eq_dec : EqDecision SortOrder.
Proof. solve_decision. Defined.

Definition sort_name (s : SortOrder) : string :=
  match s with modify_at_desc => "modify_at_desc" | created_at_desc => "created_at_desc" end.

Inductive CursorError : Set := INVALID_CURSOR | INVALID_CURSOR_VERSION | CURSOR_SORT_MISMATCH.

Definition cursor_error_code (e : CursorError) : string :=
  match e with
  | INVALID_CURSOR => "INVALID_CURSOR"
  | INVALID_CURSOR_VERSION => "INVALID_CURSOR_VERSION"
  | CURSOR_SORT_MISMATCH => "CURSOR_SORT_MISMATCH"
  end.

Record DecodedCursor := mkCursor { c_timestamp : Z; c_id : Z; c_sort : SortOrder }.

Definition CURSOR_VERSION : Z := 1.

Fixpoint assoc {A} (k : string) (l : list (string * A)) : option A :=
  match l with [] => None | (k', v) :: l' => if String.eqb k k' then Some v else assoc k l' end.

(** [p[k]] of a parsed object; an array has no such property. *)
Definition property (k : string) (p : Json) : option Json :=
  match p with JObj l => assoc k l | _ => None end.

Definition is_object (p : Json) : bool := match p with JObj _ | JArr _ => true | _ => false end.

Definition cursor_payload (ts id : Z) (sort : SortOrder) : Json :=
  JObj [("v", JNum CURSOR_VERSION); ("k", JArr [JStr (toISOString ts); JStr (zs id)]);
        ("sort", JStr (sort_name sort))]%string.

(** The base64url of [Buffer], and what the language leaves open. *)
Record Host := mkHost {
  b64urlEncode : string → string;
  b64urlDecode : string → string;
  read_double : string → Json;
  other_date : string → option Z;
}.

Section cursor.
Variable host : Host.

(** [new Date(s)], [None] for an invalid one. *)
Definition Date_of (s : string) : option Z :=
  match iso_read s with Some t => Some t | None => other_date host s end.

Definition encodeCursor (ts id : Z) (sort : SortOrder) : string :=
  match JSON_stringify (cursor_payload ts id sort) with
  | Ok (Some text) => b64urlEncode host text
  | _ => EmptyString
  end.

Definition decodeCursor (raw : string) (expectedSort : SortOrder) : result CursorError DecodedCursor :=
  p ← of_option INVALID_CURSOR (JSON_parse (read_double host) (b64urlDecode host raw));
  _ ← guard_or (is_object p) INVALID_CURSOR;
  _ ← match property "v" p with
      | Some (JNum n) => guard_or (n =? CURSOR_VERSION) INVALID_CURSOR_VERSION
      | _ => Err INVALID_CURSOR_VERSION
      end;
  '(tsRaw, idRaw) ← match property "k" p with
                    | Some (JArr [JStr t; JStr i]) => Ok (t, i)
                    | _ => Err INVALID_CURSOR
                    end;
  sort ← match property "sort" p with Some (JStr s) => Ok s | _ => Err INVALID_CURSOR end;
  _ ← guard_or (String.eqb sort (sort_name expectedSort)) CURSOR_SORT_MISMATCH;
  ts ← of_option INVALID_CURSOR (Date_of tsRaw);
  id ← of_option INVALID_CURSOR (BigInt idRaw);
  Ok (mkCursor ts id expectedSort).
End cursor.

(** ** The tables *)

Inductive Value :=
  | VNull
  | VStr (s : string)
  | VInt (n : Z)
  | VBig (n : Z)
  | VDate (t : Z)
  | VJson (j : Json).

Record Lead := mkLead {
  l_id : Z;
  l_tenantId : Z;
  l_listId : Z;
  l_status : string;
  l_calledCount : Z;
  l_version : Z;
  l_deletedAt : option Z;
  l_entryAt : Z;
  l_modifyAt : Z;
  l_createdAt : Z;
  l_cols : gmap string Value;
}.

Record LeadAudit := mkAudit {
  u_action : string;
  u_tenantId : Z;
  u_actor : Z;
  u_entity : string;
  u_before : list (string * Value);
  u_after : list (string * Value);
}.

Record LeadEvent := mkEvent { e_stream : string; e_fields : list (string * string) }.

Record LeadDb := mkDb {
  leads : gmap Z Lead;
  next_id : Z;
  lead_lists : gmap Z (Z * string);
  lead_users : gset Z;
  audits : list LeadAudit;
  events : list LeadEvent;
}.

Definition with_leads (f : gmap Z Lead → gmap Z Lead) (db : LeadDb) : LeadDb :=
  mkDb (f (leads db)) (next_id db) (lead_lists db) (lead_users db) (audits db) (events db).

Definition with_audit (a : LeadAudit) (db : LeadDb) : LeadDb :=
  mkDb (leads db) (next_id db) (lead_lists db) (lead_users db) (audits db ++ [a]) (events db).

Definition with_event (e : LeadEvent) (db : LeadDb) : LeadDb :=
  mkDb (leads db) (next_id db) (lead_lists db) (lead_users db) (audits db) (events db ++ [e]).

Definition all_leads (db : LeadDb) : list Lead := snd <$> map_to_list (leads db).

Definition col (name : string) (l : Lead) : Value := default VNull (l_cols l !! name).

Definition text_of (v : Value) : option string := match v with VStr s => Some s | _ => None end.

(** ** Responses *)

Inductive LeadResponse :=
  | LRefused (status : Z) (error : string)
  | LThrown
  | LStale (expected actual : Z)
  | LLead (status : Z) (lead : Lead) (list : option (option (Z * string))) (etag : Z)
  | LFound (leads : list Lead)
  | LPage (leads : list Lead) (custom : bool) (has_more : bool) (next_cursor : option string) (count : option (Z * bool))
  | LNoContent
  | LBulk (inserted skipped : Z) (would_insert : option Z) (errors : list (Z * string))
  | LStrict (errors : list (Z * string)) (skipped : Z) (inserted : option Z)
  | LCsv (text : string)
  | LIndexed (key column index ddl : string)
  | LNoCalls.

Definition lead_guard (verb : Verb) (auth : option ApiAuth) (db : LeadDb) (k : ApiAuth → LeadResponse * LeadDb)
    : LeadResponse * LeadDb :=
  match requirePermission verb None auth, auth with
  | Some e, _ => (LRefused (statusCode e) (code e), db)
  | None, Some a => k a
  | None, None => (LRefused 401 "not_authenticated", db)
  end.

(** [IdParamSchema]: a text [BigInt] refuses throws out of the schema. *)
Definition with_id (raw : string) (db : LeadDb) (k : Z → LeadResponse * LeadDb) : LeadResponse * LeadDb :=
  match BigInt raw with Some id => k id | None => (LThrown, db) end.

(** [publishLeadEvent]: the stream and the fields of the entry. *)
Definition publishLeadEvent (action : string) (tenant : Z) (lead_id : string) (actor now : Z)
    (details : option string) (db : LeadDb) : LeadDb :=
  with_event (mkEvent ("events:vici2.lead." +:+ action)
    ([("tenant_id", zs tenant); ("lead_id", lead_id); ("actor_user_id", zs actor);
      ("ts", toISOString now); ("action", action)]%string ++
     match details with Some d => [("details"%string, d)] | None => [] end)) db.

(** ** Permissions, [permissions.ts] *)

Definition isAdmin (auth : option ApiAuth) : bool := from_option (λ a, roleAtLeast (a_role a) admin) false auth.
Definition isSuperAdmin (auth : option ApiAuth) : bool := from_option (λ a, bool_decide (a_role a = super_admin)) false auth.
Definition canAccessAllLeads (auth : option ApiAuth) : bool :=
  from_option (λ a, roleAtLeast (a_role a) supervisor) false auth.
Definition ownerFilter (auth : option ApiAuth) : option Z :=
  a ← auth; if canAccessAllLeads auth then None else Some (a_uid a).

(** ** Phone numbers, [normalize.ts] *)

(** The library gives the number in E.164 and whether it is valid, or nothing. *)
Record Library := mkLibrary {
  parsePhone : string → string → option (string * bool);
  same_text : string → string → bool;
  starts_with : string → string → bool;
}.

Section routes.
Variable host : Host.
Variable lib : Library.

Definition normalizePhone (raw country : string) : option (string * bool) :=
  if String.eqb (trim raw) EmptyString then None else parsePhone lib raw country.

Definition strictNormalizePhone (raw country : string) : option string :=
  match normalizePhone raw country with Some (e164, true) => Some e164 | _ => None end.

(** An alternative number that cannot be read is kept as it is. *)
Definition soft_phone (raw country : string) : string :=
  match normalizePhone raw country with Some (e164, _) => e164 | None => raw end.

Definition INVALID_PHONE (raw : string) : string :=
  "Invalid phone number: " +:+ String quote (raw +:+ char quote).

(** ** Reading *)

Definition visible (tenantId : Z) (l : Lead) : bool := (l_tenantId l =? tenantId) && bool_decide (l_deletedAt l = None).

(** [prisma.lead.findFirst] of an id, a tenant and no deletion. *)
Definition find_lead (id tenantId : Z) (db : LeadDb) : option Lead :=
  l ← leads db !! id; if visible tenantId l then Some l else None.

Definition get_lead (auth : option ApiAuth) (rawId expand : string) (db : LeadDb) : LeadResponse * LeadDb :=
  lead_guard lead_read auth db (λ a, with_id rawId db (λ id,
    match find_lead id (a_tenantId a) db with
    | None => (LRefused 404 "NOT_FOUND", db)
    | Some l =>
        let expands := trim <$> split_on "," expand in
        let list := if bool_decide ("list"%string ∈ expands) then
                      Some ('(t, name) ← lead_lists db !! l_listId l;
                            if t =? a_tenantId a then Some (l_listId l, name) else None)
                    else None in
        (LLead 200 l list (l_version l), db)
    end)).

Definition lead_calls (auth : option ApiAuth) (rawId : string) (db : LeadDb) : LeadResponse * LeadDb :=
  lead_guard lead_read auth db (λ a, with_id rawId db (λ id,
    match find_lead id (a_tenantId a) db with
    | None => (LRefused 404 "NOT_FOUND", db)
    | Some _ => (LNoCalls, db)
    end)).

(** [WHERE column = text]. *)
Definition has_text (name text : string) (l : Lead) : bool :=
  from_option (same_text lib text) false (text_of (col name l)).

(** [ORDER BY modify_at DESC]. *)
Definition by_modify (l : list Lead) : list Lead := sort_by (λ a b, l_modifyAt b <=? l_modifyAt a) l.

Definition lookup_leads (auth : option ApiAuth) (phone : string) (limit : nat) (db : LeadDb) : LeadResponse * LeadDb :=
  lead_guard lead_read auth db (λ a,
    if length_in 2 20 phone && (1 <=? limit)%nat && (limit <=? 10)%nat then
      (LFound (take limit (by_modify
         (List.filter (λ l, visible (a_tenantId a) l && has_text "phoneE164" phone l) (all_leads db)))), db)
    else (LRefused 400 "INVALID_QUERY", db)).

(** The query of a list; the texts of [list_id] become numbers in the schema. *)
Record LeadQuery := mkLeadQuery {
  q_list_id : option (list string);
  q_status : option (list string);
  q_owner_user_id : option Z;
  q_phone_e164 : option string;
  q_state : option string;
  q_min_called : option Z;
  q_max_called : option Z;
  q_created_after : option Z;
  q_created_before : option Z;
  q_modified_after : option Z;
  q_modified_before : option Z;
  q_search : option string;
  q_include_deleted : bool;
  q_cursor : option string;
  q_limit : nat;
  q_sort : SortOrder;
  q_include : option string;
  q_withCount : bool;
  q_custom : list (string * string);
}.

(** A filter that is absent, or an empty text or list, selects everything. *)
Definition when {A} (o : option A) (p : A → bool) : bool := from_option p true o.
Definition when_text (o : option string) (p : string → bool) : bool :=
  when o (λ s, String.eqb s EmptyString || p s).
Definition when_list {A} (o : option (list A)) (p : list A → bool) : bool :=
  when o (λ l, match l with [] => true | _ => p l end).

Definition in_lists (ids : list Z) (l : Lead) : bool := bool_decide (l_listId l ∈ ids).
Definition in_statuses (statuses : list string) (l : Lead) : bool := existsb (λ s, same_text lib s (l_status l)) statuses.

Definition SEARCHED : list string := ["lastName"; "firstName"; "email"; "vendorLeadCode"]%string.

Definition searched (prefix : string) (l : Lead) : bool :=
  existsb (λ c, from_option (starts_with lib prefix) false (text_of (col c l))) SEARCHED.

(** The [where] of a list, for the list identifiers read; dates of the query are
    milliseconds. *)
Definition list_where (tenantId : Z) (ids : option (list Z)) (q : LeadQuery) (l : Lead) : bool :=
  (l_tenantId l =? tenantId) && (q_include_deleted q || bool_decide (l_deletedAt l = None)) &&
  when_list ids (λ ids, in_lists ids l) &&
  when_list (q_status q) (λ s, in_statuses s l) &&
  when (q_owner_user_id q) (λ o, match col "ownerUserId" l with VBig n => n =? o | _ => false end) &&
  when_text (q_phone_e164 q) (λ p, has_text "phoneE164" p l) &&
  when (q_state q) (λ s, has_text "state" s l) &&
  when (q_min_called q) (λ n, n <=? l_calledCount l) && when (q_max_called q) (λ n, l_calledCount l <=? n) &&
  when (q_created_after q) (λ t, 1000 * t <=? l_createdAt l) &&
  when (q_created_before q) (λ t, l_createdAt l <=? 1000 * t) &&
  when (q_modified_after q) (λ t, 1000 * t <=? l_modifyAt l) &&
  when (q_modified_before q) (λ t, l_modifyAt l <=? 1000 * t) &&
  when (q_search q) (λ s, searched s l).

Definition sort_key (sort : SortOrder) (l : Lead) : Z :=
  match sort with modify_at_desc => l_modifyAt l | created_at_desc => l_createdAt l end.

Definition cursor_where (sort : SortOrder) (c : option DecodedCursor) (l : Lead) : bool :=
  when c (λ c, (sort_key sort l <? 1000 * c_timestamp c) ||
               ((sort_key sort l =? 1000 * c_timestamp c) && (l_id l <? c_id c))).

(** [ORDER BY key DESC, id DESC]. *)
Definition newer (sort : SortOrder) (a b : Lead) : bool :=
  (sort_key sort b <? sort_key sort a) || ((sort_key sort b =? sort_key sort a) && (l_id b <=? l_id a)).

Definition by_key (sort : SortOrder) (l : list Lead) : list Lead := sort_by (newer sort) l.

(** A page: one row more than its limit is fetched.  The client has instants in
    milliseconds. *)
Definition lead_page (sort : SortOrder) (limit : nat) (rows : list Lead) : list Lead * bool * option string :=
  let fetched := take (S limit) (by_key sort rows) in
  let hasMore := (limit <? length fetched)%nat in
  let pageLeads := if hasMore then take limit fetched else fetched in
  let nextCursor := if hasMore then (λ l, encodeCursor host (sort_key sort l / 1000) (l_id l) sort) <$> last pageLeads
                    else None in
  (pageLeads, hasMore, nextCursor).

Definition CAP : Z := 100001.

Definition cappedCount (tenantId : Z) (where_ : Lead → bool) (rows : list Lead) : Z * bool :=
  let count := Z.of_nat (length (List.filter (λ l, where_ l && (l_tenantId l =? tenantId)) rows)) in
  if CAP <=? count then (100000, true) else (count, false).

Definition truthy_cursor (o : option string) : option string :=
  c ← o; if String.eqb c EmptyString then None else Some c.

Fixpoint contains (needle s : string) : bool :=
  String.prefix needle s || match s with EmptyString => false | String _ s' => contains needle s' end.

(** The rows of the query, and what is answered. *)
Definition answer_page (a : ApiAuth) (q : LeadQuery) (where_ : Lead → bool) (c : option DecodedCursor) (db : LeadDb)
    : LeadResponse * LeadDb :=
  let finalWhere l := where_ l && cursor_where (q_sort q) c l in
  let includeCustom := from_option (contains "custom_data") false (q_include q) || bool_decide (q_custom q ≠ []) in
  let '(page, hasMore, next) := lead_page (q_sort q) (q_limit q) (List.filter finalWhere (all_leads db)) in
  if q_withCount q then
    if isAdmin (Some a)
    then (LPage page includeCustom hasMore next (Some (cappedCount (a_tenantId a) finalWhere (all_leads db))), db)
    else (LRefused 403 "ADMIN_ONLY", db)
  else (LPage page includeCustom hasMore next None, db).

Definition list_leads (auth : option ApiAuth) (q : LeadQuery) (db : LeadDb) : LeadResponse * LeadDb :=
  lead_guard lead_read auth db (λ a,
    if negb ((1 <=? q_limit q)%nat && (q_limit q <=? 200)%nat) then (LRefused 400 "INVALID_QUERY", db)
    else match mapM BigInt (default [] (q_list_id q)) with
    | None => (LThrown, db)
    | Some ids =>
        let where_ := list_where (a_tenantId a) (Some ids) q in
        match truthy_cursor (q_cursor q) with
        | None => answer_page a q where_ None db
        | Some raw =>
            match decodeCursor host raw (q_sort q) with
            | Err e => (LRefused 400 (cursor_error_code e), db)
            | Ok c => answer_page a q where_ (Some c) db
            end
        end
    end).
(** ** The CSV export *)

Definition CSV_COLUMNS : list string :=
  ["id"; "list_id"; "status"; "phone_e164"; "phone_alt"; "phone_alt2"; "first_name"; "last_name"; "email"; "state";
   "postal_code"; "country_code"; "vendor_lead_code"; "rank"; "called_count"; "known_timezone"; "entry_at";
   "modify_at"]%string.

Definition newline : ascii := "010".

(** Every quote twice. *)
Fixpoint double_quotes (s : string) : string :=
  match s with
  | EmptyString => EmptyString
  | String c s' => if Ascii.eqb c quote then String quote (String quote (double_quotes s')) else String c (double_quotes s')
  end.

Definition escapeCSV (s : string) : string :=
  if negb (lacks "," s) || negb (lacks quote s) || negb (lacks newline s)
  then String quote (double_quotes s +:+ char quote) else s.

(** [String(v)] of a column, [""] for [null]. *)
Definition cell (v : Value) : string :=
  match v with VStr s => s | VInt n | VBig n => zs n | _ => EmptyString end.

Definition csv_cells (l : Lead) : list string :=
  [zs (l_id l); zs (l_listId l); l_status l; cell (col "phoneE164" l); cell (col "phoneAlt" l);
   cell (col "phoneAlt2" l); cell (col "firstName" l); cell (col "lastName" l); cell (col "email" l);
   cell (col "state" l); cell (col "postalCode" l); cell (col "countryCode" l); cell (col "vendorLeadCode" l);
   cell (col "rank" l); zs (l_calledCount l); cell (col "knownTimezone" l); toISOString (l_entryAt l / 1000);
   toISOString (l_modifyAt l / 1000)].

Definition csv_line (cells : list string) : string := join "," cells +:+ char newline.

Definition csv_row (l : Lead) : string := csv_line (escapeCSV <$> csv_cells l).

(** [where] of the export: of the filters, the lists and the statuses. *)
Definition export_where (tenantId : Z) (ids : list Z) (statuses : list string) (l : Lead) : bool :=
  visible tenantId l && when_list (Some ids) (λ ids, in_lists ids l) &&
  when_list (Some statuses) (λ s, in_statuses s l).

Definition batchSize : nat := 500.

(** [ORDER BY id ASC]. *)
Definition by_id (l : list Lead) : list Lead := sort_by (λ a b, l_id a <=? l_id b) l.

(** [lastId ? { id: { gt: lastId } } : {}]; zero is no identifier. *)
Definition after_id (lastId : option Z) (l : Lead) : bool :=
  when lastId (λ n, (n =? 0) || (n <? l_id l)).

(** The loop over the batches, of [size] rows. *)
Fixpoint export_rows (fuel size : nat) (lastId : option Z) (rows : list Lead) : option (list Lead) :=
  match fuel with
  | O => None
  | S n =>
      let batch := take size (by_id (List.filter (after_id lastId) rows)) in
      match last batch with
      | None => Some []
      | Some l => if (length batch <? size)%nat then Some batch
                  else (app batch) <$> export_rows n size (Some (l_id l)) rows
      end
  end.

Definition export_text (rows : list Lead) : string :=
  String.concat EmptyString (csv_line CSV_COLUMNS :: (csv_row <$> rows)).

Definition export_leads (auth : option ApiAuth) (q : LeadQuery) (db : LeadDb) : LeadResponse * LeadDb :=
  lead_guard lead_export auth db (λ a,
    match mapM BigInt (default [] (q_list_id q)) with
    | None => (LThrown, db)
    | Some ids =>
        let rows := List.filter (export_where (a_tenantId a) ids (default [] (q_status q))) (all_leads db) in
        match export_rows (S (length rows)) batchSize None rows with
        | Some l => (LCsv (export_text l), db)
        | None => (LThrown, db)
        end
    end).

(** ** Creating *)

Definition Body : Type := gmap string Value.

Definition field_text (name : string) (b : Body) : option string := b !! name ≫= text_of.

Definition nonempty_text (o : option string) : option string :=
  s ← o; if String.eqb s EmptyString then None else Some s.

(** A date of birth becomes a [Date]; the identifier of an owner already is a [bigint]. *)
Definition column_value (field : string) (v : Value) : Value :=
  match v with
  | VStr s => if String.eqb field "date_of_birth" && negb (String.eqb s EmptyString)
              then from_option VDate VNull (Date_of host s) else v
  | _ => v
  end.

(** The fields copied into columns, after a table of column and field. *)
Definition copy_fields (table : list (string * string)) (b : Body) : gmap string Value :=
  foldr (λ cf m, match b !! cf.2 with Some v => <[ cf.1 := column_value cf.2 v ]> m | None => m end) ∅ table.

Definition CREATE_COLUMNS : list (string * string) :=
  [("title", "title"); ("firstName", "first_name"); ("middleInitial", "middle_initial"); ("lastName", "last_name");
   ("address1", "address1"); ("address2", "address2"); ("city", "city"); ("state", "state");
   ("postalCode", "postal_code"); ("email", "email"); ("dateOfBirth", "date_of_birth"); ("gender", "gender");
   ("comments", "comments"); ("rank", "rank"); ("ownerUserId", "owner_user_id");
   ("vendorLeadCode", "vendor_lead_code"); ("sourceId", "source_id"); ("customData", "custom_data")]%string.

Definition INT_MAX : Z := 2147483647.

(** What the server refuses of the columns of a row: a rank beyond its type, an owner
    who is no user. *)
Definition columns_ok (db : LeadDb) (cols : gmap string Value) : bool :=
  match cols !! "rank"%string with Some (VInt n) => (- INT_MAX - 1 <=? n) && (n <=? INT_MAX) | _ => true end &&
  match cols !! "ownerUserId"%string with Some (VBig n) => bool_decide (n ∈ lead_users db) | _ => true end.

Definition optional_phone (o : option string) (country : string) : Value :=
  from_option (λ p, VStr (soft_phone p country)) VNull (nonempty_text o).

Definition create_columns (phoneE164 country : string) (b : Body) : gmap string Value :=
  <[ "phoneE164" := VStr phoneE164 ]>
  (<[ "phoneAlt" := optional_phone (field_text "phone_alt" b) country ]>
  (<[ "phoneAlt2" := optional_phone (field_text "phone_alt2" b) country ]>
  (<[ "countryCode" := VStr country ]> (copy_fields CREATE_COLUMNS b))))%string.

(** The instants of the new row are the server's, in microseconds. *)
Definition create_lead (auth : option ApiAuth) (now server_now : Z) (b : Body) (list_id : Z) (db : LeadDb)
    : LeadResponse * LeadDb :=
  lead_guard lead_create auth db (λ a,
    let country := default "US"%string (field_text "country_code" b) in
    if negb (from_option (λ l, l.1 =? a_tenantId a) false (lead_lists db !! list_id))
    then (LRefused 400 "INVALID_LIST_ID", db)
    else
      match strictNormalizePhone (default EmptyString (field_text "phone_e164" b)) country with
      | None => (LRefused 400 "INVALID_PHONE", db)
      | Some phoneE164 =>
          let cols := create_columns phoneE164 country b in
          if negb (columns_ok db cols) then (LThrown, db)
          else
            let id := next_id db in
            let created := mkLead id (a_tenantId a) list_id "NEW" 0 1 None server_now server_now server_now cols in
            let audit := mkAudit "lead.created" (a_tenantId a) (a_uid a) (zs id) []
              [("phone_e164", VStr phoneE164); ("email", col "email" created); ("list_id", VStr (zs list_id));
               ("status", VStr "NEW")]%string in
            let db1 := mkDb (<[ id := created ]> (leads db)) (id + 1) (lead_lists db) (lead_users db)
                         (audits db ++ [audit]) (events db) in
            (LLead 201 created None 1,
             publishLeadEvent "lead.created" (a_tenantId a) (zs id) (a_uid a) now None db1)
      end).
(** ** Creating in bulk *)

Record BulkOptions := mkOptions { skipDuplicates : bool; dryRun : bool; strict : bool }.

Record RowPrep := mkRow {
  rp_row : Z;
  rp_list : Z;
  rp_cols : gmap string Value;
}.

(** The row's values, with its numbers normalised, or the error of its main number. *)
Definition prepare_row (list_id i : Z) (row : Body) : string * Z + RowPrep :=
  let country := default "US"%string (field_text "country_code" row) in
  match strictNormalizePhone (default EmptyString (field_text "phone_e164" row)) country with
  | None => inl ("INVALID_PHONE"%string, i)
  | Some phoneE164 =>
      inr (mkRow i (match row !! "list_id"%string with Some (VBig n) => n | _ => list_id end)
             (create_columns phoneE164 country row))
  end.

Fixpoint prepare_rows (list_id i : Z) (rows : list Body) : list (Z * string) * list RowPrep :=
  match rows with
  | [] => ([], [])
  | row :: rows' =>
      let '(errors, valid) := prepare_rows list_id (i + 1) rows' in
      match prepare_row list_id i row with
      | inl (e, n) => ((n, e) :: errors, valid)
      | inr p => (errors, p :: valid)
      end
  end.

Definition BULK_TUPLE : string :=
  "(?, ?, ?, ?, ?, ?, ?, ?, ?, ?, ?, ?, ?, ?, ?, ?, ?, ?, ?, ?, ?, ?, ?, ?, ?, ?, ?, ?, ?)".

Definition BULK_COLUMNS : list string :=
  ["tenant_id"; "list_id"; "status"; "vendor_lead_code"; "source_id";
   "phone_e164"; "phone_alt"; "phone_alt2"; "country_code"; "title";
   "first_name"; "middle_initial"; "last_name"; "address1"; "address2";
   "city"; "state"; "postal_code"; "email"; "date_of_birth"; "gender";
   "comments"; "rank"; "owner_user_id"; "custom_data"; "version";
   "entry_at"; "modify_at"]%string.

(** The values of a row, in the order they are pushed. *)
Definition bulk_values (tenantId server_now : Z) (r : RowPrep) : list Value :=
  let c (name : string) := default VNull (rp_cols r !! name) in
  [VBig tenantId; VBig (rp_list r); VStr "NEW"; c "vendorLeadCode"; c "sourceId"; c "phoneE164"; c "phoneAlt";
   c "phoneAlt2"; c "countryCode"; c "title"; c "firstName"; c "middleInitial"; c "lastName"; c "address1";
   c "address2"; c "city"; c "state"; c "postalCode"; c "email"; c "dateOfBirth"; c "gender"; c "comments"; c "rank";
   c "ownerUserId"; c "customData"; VInt 1; VDate server_now; VDate server_now]%string.

Definition count_char (c : ascii) (s : string) : nat := length (List.filter (Ascii.eqb c) (String.list_ascii_of_string s)).

(** The server runs an [INSERT] when each row has a marker for each column, and as many
    values as there are markers are bound; then each row must name a list. *)
Definition statement_ok (columns markers : nat) (rows : list (list Value)) : bool :=
  forallb (λ r, (markers =? columns)%nat && (length r =? markers)%nat) rows.

Definition insert_row (tenantId server_now : Z) (r : RowPrep) (db : LeadDb) : LeadDb :=
  let id := next_id db in
  mkDb (<[ id := mkLead id tenantId (rp_list r) "NEW" 0 1 None server_now server_now server_now (rp_cols r) ]> (leads db))
    (id + 1) (lead_lists db) (lead_users db) (audits db) (events db).

Definition row_ok (db : LeadDb) (r : RowPrep) : bool :=
  bool_decide (is_Some (lead_lists db !! rp_list r)) && columns_ok db (rp_cols r).

(** [INSERT IGNORE] leaves out the rows the server refuses, [INSERT] fails on one; the
    table has no unique key but its identifier. *)
Definition executeInsert (skip : bool) (tenantId server_now : Z) (rows : list RowPrep) (db : LeadDb)
    : option (Z * LeadDb) :=
  if statement_ok (length BULK_COLUMNS) (count_char "?" BULK_TUPLE) (bulk_values tenantId server_now <$> rows) then
    let accepted := List.filter (row_ok db) rows in
    if skip || (length accepted =? length rows)%nat
    then Some (Z.of_nat (length accepted), foldl (λ db r, insert_row tenantId server_now r db) db accepted)
    else None
  else None.

Definition bulk_audit (a : ApiAuth) (list_id inserted skipped errors : Z) : LeadAudit :=
  mkAudit "lead.bulk_inserted" (a_tenantId a) (a_uid a) (zs list_id) []
    [("list_id", VStr (zs list_id)); ("count_inserted", VInt inserted); ("count_skipped", VInt skipped);
     ("error_count", VInt errors)]%string.

Definition bulk_details (inserted skipped errors : Z) : string :=
  default EmptyString (match JSON_stringify (JObj [("inserted", JNum inserted); ("skipped", JNum skipped);
                                                   ("error_count", JNum errors)]%string) with
                       | Ok t => t | Err _ => None end).

Definition bulk_leads (auth : option ApiAuth) (now server_now list_id : Z) (rows : list Body) (o : BulkOptions)
    (db : LeadDb) : LeadResponse * LeadDb :=
  lead_guard lead_import auth db (λ a,
    if (500 <? length rows)%nat then (LRefused 400 "TOO_MANY_ROWS", db)
    else if (length rows =? 0)%nat then (LRefused 400 "INVALID_BODY", db)
    else if negb (from_option (λ l, l.1 =? a_tenantId a) false (lead_lists db !! list_id))
    then (LRefused 400 "INVALID_LIST_ID", db)
    else
      let '(errors, valid) := prepare_rows list_id 0 rows in
      if dryRun o then (LBulk 0 0 (Some (Z.of_nat (length valid))) errors, db)
      else if strict o && bool_decide (errors ≠ []) then (LStrict errors 0 None, db)
      else
        let n := Z.of_nat (length errors) in
        let published inserted skipped db' :=
          (LBulk inserted skipped None errors,
           publishLeadEvent "lead.bulk_inserted" (a_tenantId a) (zs list_id) (a_uid a) now
             (Some (bulk_details inserted skipped n)) db') in
        if bool_decide (valid = []) then published 0 0 db
        else
          match executeInsert (skipDuplicates o) (a_tenantId a) server_now valid db with
          | None => (LThrown, db)
          | Some (inserted, db1) =>
              let skipped := Z.of_nat (length valid) - inserted in
              let db2 := with_audit (bulk_audit a list_id inserted skipped n) db1 in
              if strict o && (0 <? skipped)
              then (LStrict (errors ++ [(-1, "DUPLICATE_SKIPPED"%string)]) skipped (Some inserted), db2)
              else published inserted skipped db2
          end).
(** ** Changing *)

(** [raw.replace(/^W\//, "").replace(quotes, "")], then [parseInt]. *)
Definition strip_weak (s : string) : string :=
  match s with String "W" (String "/" s') => s' | _ => s end.

Fixpoint without (c : ascii) (s : string) : string :=
  match s with
  | EmptyString => EmptyString
  | String d s' => if Ascii.eqb c d then without c s' else String d (without c s')
  end.

Definition parseVersion (raw : option string) : option Z :=
  s ← nonempty_text raw; parseInt10 (without quote (strip_weak s)).

Definition fieldMap : list (string * string) :=
  [("phoneE164", "phone_e164"); ("phoneAlt", "phone_alt"); ("phoneAlt2", "phone_alt2");
   ("countryCode", "country_code"); ("firstName", "first_name"); ("middleInitial", "middle_initial");
   ("lastName", "last_name"); ("address1", "address1"); ("address2", "address2"); ("postalCode", "postal_code");
   ("dateOfBirth", "date_of_birth"); ("ownerUserId", "owner_user_id"); ("vendorLeadCode", "vendor_lead_code");
   ("sourceId", "source_id"); ("customData", "custom_data")]%string.

Definition PASSTHROUGH : list string := ["title"; "city"; "state"; "email"; "gender"; "comments"; "rank"]%string.

Definition PATCH_COLUMNS : list (string * string) := fieldMap ++ ((λ f, (f, f)) <$> PASSTHROUGH).

(** [{ ...existing, ...patch }] *)
Definition spread (existing patch : list (string * Json)) : list (string * Json) :=
  foldl (λ o p, put_member p.1 p.2 o) existing patch.

Definition json_members (v : Value) : list (string * Json) := match v with VJson (JObj l) => l | _ => [] end.

Definition merged_columns (before : Lead) (b : Body) : gmap string Value :=
  let cols := copy_fields PATCH_COLUMNS b in
  match b !! "custom_data"%string with
  | Some (VJson (JObj l)) =>
      <[ "customData"%string := VJson (JObj (spread (json_members (col "customData" before)) l)) ]> cols
  | _ => cols
  end.

(** [JSON.stringify] of a column. *)
Definition value_text (v : Value) : result JcsError (option string) :=
  match v with
  | VNull => JSON_stringify JNull
  | VStr s => JSON_stringify (JStr s)
  | VInt n => JSON_stringify (JNum n)
  | VBig _ => JSON_stringify (JOther "bigint")
  | VDate t => JSON_stringify (JStr (toISOString t))
  | VJson j => JSON_stringify j
  end.

(** [before[key]] of the columns a patch may set, and of [modifyAt]. *)
Definition column_of (l : Lead) (key : string) : Value :=
  if String.eqb key "modifyAt" then VDate (l_modifyAt l / 1000) else col key l.

Fixpoint diffLeadChanges (before after : Lead) (keys : list string)
    : result JcsError (list (string * Value) * list (string * Value)) :=
  match keys with
  | [] => Ok ([], [])
  | key :: keys' =>
      old ← value_text (column_of before key);
      new ← value_text (column_of after key);
      d ← diffLeadChanges before after keys';
      Ok (if bool_decide (old = new) then d
          else ((key, column_of before key) :: d.1, (key, column_of after key) :: d.2))
  end.

(** A patch whose transaction has read the lead. *)
Record PendingPatch := mkPending {
  pp_id : Z;
  pp_tenantId : Z;
  pp_actor : Z;
  pp_now : Z;
  pp_before : Lead;
  pp_cols : gmap string Value;
}.

Definition expectedVersion (ifMatch : option string) (bodyVersion : option Z) : option Z :=
  match parseVersion ifMatch with Some v => Some v | None => bodyVersion end.

Definition bad_phone (b : Body) : bool :=
  match nonempty_text (field_text "phone_e164" b) with
  | Some p => bool_decide (strictNormalizePhone p (default "US"%string (field_text "country_code" b)) = None)
  | None => false
  end.

(** Up to the write: the checks, the read of the transaction and the optimistic lock. *)
Definition patch_begin (auth : option ApiAuth) (now : Z) (rawId : string) (ifMatch : option string)
    (bodyVersion : option Z) (b : Body) (db : LeadDb) : LeadResponse + PendingPatch :=
  match requirePermission lead_edit None auth, auth with
  | Some e, _ => inl (LRefused (statusCode e) (code e))
  | None, None => inl (LRefused 401 "not_authenticated")
  | None, Some a =>
      match BigInt rawId with
      | None => inl LThrown
      | Some id =>
          if bad_phone b then inl (LRefused 400 "INVALID_PHONE")
          else
            match find_lead id (a_tenantId a) db with
            | None => inl (LRefused 404 "NOT_FOUND")
            | Some before =>
                match expectedVersion ifMatch bodyVersion with
                | Some v =>
                    if l_version before =? v
                    then inr (mkPending id (a_tenantId a) (a_uid a) now before (merged_columns before b))
                    else inl (LStale v (l_version before))
                | None => inr (mkPending id (a_tenantId a) (a_uid a) now before (merged_columns before b))
                end
            end
      end
  end.

Definition SMALLINT_MAX : Z := 32767.

Definition apply_patch (p : PendingPatch) (l : Lead) : Lead :=
  mkLead (l_id l) (l_tenantId l) (l_listId l) (l_status l) (l_calledCount l) (l_version l + 1) (l_deletedAt l)
    (l_entryAt l) (1000 * pp_now p) (l_createdAt l) (pp_cols p ∪ l_cols l).

Definition patch_keys (p : PendingPatch) : list string :=
  "modifyAt"%string :: List.filter (λ c, bool_decide (is_Some (pp_cols p !! c))) PATCH_COLUMNS.*1.

(** The write of the row of the identifier and the tenant, the audit row, the commit.  An
    error of the server or of the audit undoes the transaction. *)
Definition patch_commit (p : PendingPatch) (db : LeadDb) : LeadResponse * LeadDb :=
  match leads db !! pp_id p with
  | Some l =>
      if negb (l_tenantId l =? pp_tenantId p) then (LRefused 412 "stale_version", db)
      else if SMALLINT_MAX <? l_version l + 1 then (LThrown, db)
      else if negb (columns_ok db (pp_cols p)) then (LThrown, db)
      else
        let after := apply_patch p l in
        match diffLeadChanges (pp_before p) after (patch_keys p) with
        | Err _ => (LThrown, db)
        | Ok (b, a) =>
            let audit := mkAudit "lead.updated" (pp_tenantId p) (pp_actor p) (zs (pp_id p)) b a in
            let db1 := with_audit audit (with_leads <[ pp_id p := after ]> db) in
            (LLead 200 after None (l_version after),
             publishLeadEvent "lead.updated" (pp_tenantId p) (zs (pp_id p)) (pp_actor p) (pp_now p) None db1)
        end
  | None => (LRefused 412 "stale_version", db)
  end.

(** A patch that no other request interrupts. *)
Definition patch_lead (auth : option ApiAuth) (now : Z) (rawId : string) (ifMatch : option string)
    (bodyVersion : option Z) (b : Body) (db : LeadDb) : LeadResponse * LeadDb :=
  match patch_begin auth now rawId ifMatch bodyVersion b db with
  | inl r => (r, db)
  | inr p => patch_commit p db
  end.

Definition mark_deleted (now : Z) (l : Lead) : Lead :=
  mkLead (l_id l) (l_tenantId l) (l_listId l) (l_status l) (l_calledCount l) (l_version l) (Some (1000 * now))
    (l_entryAt l) (1000 * now) (l_createdAt l) (l_cols l).

Definition delete_lead (auth : option ApiAuth) (now : Z) (rawId : string) (db : LeadDb) : LeadResponse * LeadDb :=
  lead_guard lead_delete auth db (λ a, with_id rawId db (λ id,
    let db1 :=
      match find_lead id (a_tenantId a) db with
      | None => db
      | Some l =>
          with_audit (mkAudit "lead.deleted" (a_tenantId a) (a_uid a) (zs id) []
                        [("soft", VJson (JBool true)); ("deleted_at", VStr (toISOString now))]%string)
            (with_leads <[ id := mark_deleted now l ]> db)
      end in
    (LNoContent, publishLeadEvent "lead.deleted" (a_tenantId a) (zs id) (a_uid a) now None db1))).

(** ** Indexing a custom field *)

Definition field_start (c : ascii) : bool := let n := nat_of_ascii c in ((97 <=? n)%nat && (n <=? 122)%nat) || (n =? 95)%nat.

(** [/^[a-z_][a-z0-9_]{0,30}$/] *)
Definition field_key (k : string) : bool :=
  match k with
  | String c k' => field_start c && string_forallb (λ d, field_start d || is_dec d) k' && (String.length k' <=? 30)%nat
  | EmptyString => false
  end.

Definition buildPromoteDdl (k : string) : string :=
  "ALTER TABLE leads" +:+ String newline "      ADD COLUMN IF NOT EXISTS cf_" +:+ k +:+ " VARCHAR(255)" +:+
  String newline "        AS (JSON_UNQUOTE(JSON_EXTRACT(custom_data, '$." +:+ String quote (k +:+ String quote "')))") +:+
  " VIRTUAL," +:+ String newline "      ADD INDEX IF NOT EXISTS idx_t_cf_" +:+ k +:+ " (tenant_id, cf_" +:+ k +:+ ")".

(** The server may refuse the statement. *)
Definition promote_field (ddl_error : string → option string) (auth : option ApiAuth) (k : string) (db : LeadDb)
    : LeadResponse * LeadDb :=
  match auth with
  | None => (LRefused 401 "not_authenticated", db)
  | Some a =>
      if negb (isSuperAdmin auth) then (LRefused 403 "FORBIDDEN", db)
      else if negb (field_key k) then (LRefused 400 "INVALID_FIELD_KEY", db)
      else
        let ddl := buildPromoteDdl k in
        match ddl_error ddl with
        | Some _ => (LRefused 500 "DDL_FAILED", db)
        | None =>
            (LIndexed k ("cf_" +:+ k) ("idx_t_cf_" +:+ k) ddl,
             with_audit (mkAudit "lead.field_indexed" (a_tenantId a) (a_uid a) k []
                           [("key", VStr k); ("ddl", VStr ddl)]%string) db)
        end
  end.
End routes.
