(* ===== verification/LeadsTheorems.v ===== *)
(** What holds of leads: cursors and pages, the export, the optimistic lock and the
    separation of tenants over every run, and where the routes fall short. *)

From Stdlib Require Import DecimalString DecimalZ DecimalFacts.
From S2P Require Import Prelude Paging Calendar Jcs JsonText JsNumber Rbac Auth Leads.

#[local] Open Scope Z_scope.

(** ** Cursors *)

Module Cursor.

Lemma trim_left_nospace l : Forall (λ c, is_space c = false) l → trim_left l = l.
Proof. destruct 1 as [|c l Hc]; cbn; [done|]. by rewrite Hc. Qed.

Lemma trim_nospace s : string_forallb (λ c, negb (is_space c)) s = true → trim s = s.
Proof.
  intros H. assert (Forall (λ c, is_space c = false) (String.list_ascii_of_string s)) as Hl.
  { induction s as [|c s IH]; [constructor|]. cbn in H |- *. apply andb_prop in H as [Hc H]. constructor; [|auto].
    by destruct (is_space c). }
  unfold trim, trim_list. rewrite (trim_left_nospace (String.list_ascii_of_string s)) by done.
  rewrite trim_left_nospace by (apply Forall_rev; done).
  by rewrite rev_involutive, String.string_of_list_ascii_of_string.
Qed.

Lemma digits_in_acc d acc :
  digits_in 10 hex_value (Z.pos acc) (NilEmpty.string_of_uint d) = Some (Z.pos (Pos.of_uint_acc d acc)).
Proof.
  revert acc. induction d as [|d IH|d IH|d IH|d IH|d IH|d IH|d IH|d IH|d IH|d IH]; intros acc; [done|..];
    cbn [NilEmpty.string_of_uint digits_in Pos.of_uint_acc];
    match goal with |- context [hex_value ?c] => let v := eval vm_compute in (hex_value c) in change (hex_value c) with v end;
    cbn [mbind option_bind]; rewrite (proj2 (Z.ltb_lt _ 10)) by lia; rewrite <- IH; f_equal; lia.
Qed.

Lemma digits_in_uint d : digits_in 10 hex_value 0 (NilEmpty.string_of_uint d) = Some (Z.of_uint d).
Proof.
  induction d as [|d IH|d IH|d IH|d IH|d IH|d IH|d IH|d IH|d IH|d IH]; [done|exact IH|..];
    cbn [NilEmpty.string_of_uint digits_in];
    match goal with |- context [hex_value ?c] => let v := eval vm_compute in (hex_value c) in change (hex_value c) with v end;
    cbn [mbind option_bind]; rewrite (proj2 (Z.ltb_lt _ 10)) by lia; apply digits_in_acc.
Qed.

(** A text of decimal digits and the minus of a number. *)
Lemma BigInt_zs n : BigInt (zs n) = Some n.
Proof.
  destruct (zs_uint_text n) as (sign & d & Hz & Hd & Hnorm & Hsign). unfold BigInt.
  rewrite trim_nospace.
  2:{ eapply string_forallb_impl; [|apply zs_chars]. intros [[] [] [] [] [] [] [] []]; done. }
  rewrite Hz. destruct Hsign as [[-> ->]|[-> ->]]; autorewrite with strs.
  - assert (number_in 10 (NilEmpty.string_of_uint d) = Some (Z.of_uint d)) as Hd'.
    { rewrite <- digits_in_uint. by destruct d. }
    destruct d as [|d|d|d|d|d|d|d|d|d|d]; try done. apply unorm_leading_zero in Hnorm. by destruct d.
  - assert (number_in 10 (NilEmpty.string_of_uint d) = Some (Z.of_uint d)) as Hd'.
    { rewrite <- digits_in_uint. by destruct d. }
    by rewrite Hd'.
Qed.

Section host.
Variable host : Host.

(** What the code relies on of the base64 of [Buffer]: texts survive it, and only the
    empty one has no characters. *)
Definition base64_law : Prop :=
  (∀ s, b64urlDecode host (b64urlEncode host s) = s) ∧
  (∀ s, b64urlEncode host s = EmptyString → s = EmptyString).

Lemma payload_plain ts id sort : plain_json (cursor_payload ts id sort) = true.
Proof. reflexivity. Qed.

Lemma decode_encode ts id sort expected :
  base64_law → 0 <= getUTCFullYear ts <= 9999 →
  decodeCursor host (encodeCursor host ts id sort) expected =
    if decide (expected = sort) then Ok (mkCursor ts id sort) else Err CURSOR_SORT_MISMATCH.
Proof.
  intros [Hb _] Hy. unfold decodeCursor, encodeCursor.
  destruct (parse_stringify (read_double host) (cursor_payload ts id sort)) as (t & -> & Hp); [apply payload_plain|].
  rewrite Hb, Hp. unfold cursor_payload. cbn [of_option mbind result_bind guard_or is_object property assoc].
  change (String.eqb "v" "v") with true. change (String.eqb "k" "v") with false. change (String.eqb "k" "k") with true.
  change (String.eqb "sort" "v") with false. change (String.eqb "sort" "k") with false.
  change (String.eqb "sort" "sort") with true. cbn iota. change (CURSOR_VERSION =? CURSOR_VERSION) with true.
  cbn [guard_or mbind result_bind]. unfold Date_of. rewrite iso_read_toISOString by done. rewrite BigInt_zs.
  by destruct sort, expected.
Qed.

Lemma encode_nonempty ts id sort : base64_law → encodeCursor host ts id sort ≠ EmptyString.
Proof.
  intros [_ Hb]. unfold encodeCursor.
  destruct (parse_stringify (read_double host) (cursor_payload ts id sort)) as (t & -> & Hp); [apply payload_plain|].
  intros ->%Hb. discriminate Hp.
Qed.
End host.

End Cursor.

(** ** Pages *)

Module LeadPages.

(** The order of a page is total, and tells rows of different identifiers apart. *)
Lemma newer_total sort a b : newer sort a b = true ∨ newer sort b a = true.
Proof. unfold newer. lia. Qed.

Lemma newer_trans sort a b c : newer sort a b = true → newer sort b c = true → newer sort a c = true.
Proof. unfold newer. lia. Qed.

(** A table: each row under its identifier. *)
Definition wf_ids (db : LeadDb) : Prop := ∀ id l, leads db !! id = Some l → l_id l = id.

Lemma elem_of_all_leads db l : wf_ids db → l ∈ all_leads db ↔ leads db !! l_id l = Some l.
Proof.
  intros Hwf. unfold all_leads. rewrite list_elem_of_fmap. split.
  - intros ([id l'] & -> & H%elem_of_map_to_list). cbn. by rewrite (Hwf _ _ H).
  - intros H. exists (l_id l, l). split; [done|]. by apply elem_of_map_to_list.
Qed.

Lemma all_leads_nodup db : wf_ids db → NoDup (all_leads db).
Proof.
  intros Hwf. unfold all_leads. apply NoDup_fmap_2_strong; [|apply NoDup_map_to_list].
  intros [i a] [j b] Ha%elem_of_map_to_list Hb%elem_of_map_to_list Hab. cbn in Hab. subst b.
  by rewrite <- (Hwf _ _ Ha), (Hwf _ _ Hb).
Qed.

Lemma newer_separates sort db : wf_ids db → separates (newer sort) (all_leads db).
Proof.
  intros Hwf a b Ha Hb H1 H2. apply elem_of_all_leads in Ha, Hb; [|done..].
  assert (l_id a = l_id b) as He by (unfold newer in *; lia). rewrite He in Ha. congruence.
Qed.

Section pages.
Variable host : Host.
Variable lib : Library.

Definition with_cursor (c : string) (q : LeadQuery) : LeadQuery :=
  mkLeadQuery (q_list_id q) (q_status q) (q_owner_user_id q) (q_phone_e164 q) (q_state q) (q_min_called q)
    (q_max_called q) (q_created_after q) (q_created_before q) (q_modified_after q) (q_modified_before q) (q_search q)
    (q_include_deleted q) (Some c) (q_limit q) (q_sort q) (q_include q) (q_withCount q) (q_custom q).

(** Following [next_cursor]; [None] when the fuel is out or a page is refused. *)
Fixpoint follow (fuel : nat) (auth : option ApiAuth) (q : LeadQuery) (db : LeadDb) : option (list Lead) :=
  match fuel with
  | O => None
  | S fuel' =>
      match (list_leads host lib auth q db).1 with
      | LPage page _ _ None _ => Some page
      | LPage page _ _ (Some c) _ => app page <$> follow fuel' auth (with_cursor c q) db
      | _ => None
      end
  end.

(** The instants a cursor has: whole milliseconds of the years 0 to 9999. *)
Definition whole_ms (sort : SortOrder) (l : Lead) : Prop :=
  sort_key sort l mod 1000 = 0 ∧ 0 <= getUTCFullYear (sort_key sort l / 1000) <= 9999.

(** The cursor of a query, when it has one that is accepted. *)
Definition cursor_is (q : LeadQuery) (c : option DecodedCursor) : Prop :=
  match truthy_cursor (q_cursor q), c with
  | None, None => True
  | Some raw, Some c => decodeCursor host raw (q_sort q) = Ok c
  | _, _ => False
  end.

Definition row_cursor (sort : SortOrder) (r : Lead) : DecodedCursor := mkCursor (sort_key sort r / 1000) (l_id r) sort.

Lemma cursor_after sort r x :
  whole_ms sort r → cursor_where sort (Some (row_cursor sort r)) x = negb (newer sort x r).
Proof. intros [Hr _]. unfold cursor_where, row_cursor, newer. cbn [when from_option c_timestamp c_id]. lia. Qed.

#[export] Instance whole_ms_dec sort l : base.Decision (whole_ms sort l).
Proof. unfold whole_ms. apply _. Defined.

Section asked.
Context (a : ApiAuth) (q0 : LeadQuery) (ids : list Z) (db : LeadDb).
Context (Hperm : requirePermission lead_read None (Some a) = None) (Hlim : (1 ≤ q_limit q0 ≤ 200)%nat).
Context (Hids : mapM BigInt (default [] (q_list_id q0)) = Some ids) (Hcount : q_withCount q0 = false).

(** The rows asked for, whatever the cursor. *)
Definition asked : list Lead := List.filter (list_where lib (a_tenantId a) (Some ids) q0) (all_leads db).

(** What a request with a cursor answers. *)
Lemma list_leads_page q c :
  (∃ c', q = q0 ∨ q = with_cursor c' q0) → cursor_is q c →
  ∃ custom, (list_leads host lib (Some a) q db).1 =
    let '(page, more, next) := lead_page host (q_sort q0) (q_limit q0)
      (List.filter (λ l, cursor_where (q_sort q0) c l) asked) in
    LPage page custom more next None.
Proof.
  intros (c' & Hq) Hc. unfold asked. rewrite filter_filter_and.
  assert (list_where lib (a_tenantId a) (Some ids) q = list_where lib (a_tenantId a) (Some ids) q0 ∧
    q_sort q = q_sort q0 ∧ q_limit q = q_limit q0 ∧ q_withCount q = q_withCount q0 ∧ q_list_id q = q_list_id q0)
    as (Hw & Hs & Hl & Hn & Hi) by (by destruct Hq as [-> | ->]).
  unfold list_leads, lead_guard. rewrite Hperm, Hl, Hi, Hids.
  rewrite (proj2 (Nat.leb_le 1 _)), (proj2 (Nat.leb_le _ 200)) by lia. cbn [negb andb].
  assert (∃ custom, (answer_page host a q (list_where lib (a_tenantId a) (Some ids) q) c db).1 =
    let '(page, more, next) := lead_page host (q_sort q0) (q_limit q0)
      (List.filter (λ l, cursor_where (q_sort q0) c l && list_where lib (a_tenantId a) (Some ids) q0 l) (all_leads db)) in
    LPage page custom more next None) as [custom Ha].
  { unfold answer_page. rewrite Hs, Hl, Hn, Hcount, Hw.
    rewrite (List.filter_ext (λ l, _ && cursor_where _ c l) (λ l, cursor_where (q_sort q0) c l &&
      list_where lib (a_tenantId a) (Some ids) q0 l)) by (intros l; apply andb_comm).
    destruct (lead_page _ _ _ _) as [[page more] next]. eexists. reflexivity. }
  exists custom. rewrite <- Ha. unfold cursor_is in Hc. rewrite Hs in *.
  destruct (truthy_cursor (q_cursor q)) as [raw|], c as [c|]; try done. by rewrite Hc.
Qed.

Context (Hwf : wf_ids db) (Hms : Forall (whole_ms (q_sort q0)) asked) (Hb : Cursor.base64_law host).

Lemma asked_separates : separates (newer (q_sort q0)) asked.
Proof using Hwf. by apply separates_filter, newer_separates. Qed.

Lemma asked_nodup : NoDup asked.
Proof using Hwf. by apply NoDup_filter_list, all_leads_nodup. Qed.

(** The cursor of a row is accepted, and selects what comes after the row. *)
Lemma row_cursor_is r :
  r ∈ asked →
  cursor_is (with_cursor (encodeCursor host (sort_key (q_sort q0) r / 1000) (l_id r) (q_sort q0)) q0)
    (Some (row_cursor (q_sort q0) r)).
Proof using Hms Hb.
  intros Hr. rewrite Forall_forall in Hms. destruct (Hms r Hr) as [_ Hy]. unfold cursor_is, with_cursor.
  cbn [q_cursor q_sort truthy_cursor mbind option_bind].
  destruct (String.eqb_spec (encodeCursor host (sort_key (q_sort q0) r / 1000) (l_id r) (q_sort q0)) EmptyString)
    as [He|_]; [by apply Cursor.encode_nonempty in He|].
  rewrite Cursor.decode_encode by done. by rewrite decide_True.
Qed.

(** The rest of the pages, when what the query selects is the end [l] of the rows asked for. *)
Lemma lead_follow_suffix : ∀ fuel q c pre l,
  (∃ c', q = q0 ∨ q = with_cursor c' q0) → cursor_is q c → (length l < fuel)%nat →
  by_key (q_sort q0) asked = pre ++ l →
  by_key (q_sort q0) (List.filter (λ l, cursor_where (q_sort q0) c l) asked) = l →
  follow fuel (Some a) q db = Some l.
Proof using Type*.
  induction fuel as [|fuel IH]; intros q c pre l Hq Hc Hl Hpre Hsel; [lia|]. cbn [follow].
  destruct (list_leads_page q c Hq Hc) as [custom ->]. unfold lead_page. rewrite Hsel, length_take.
  destruct (Nat.ltb_spec (q_limit q0) (S (q_limit q0) `min` length l)) as [Hlt|Hge].
  2:{ by rewrite take_ge by lia. }
  rewrite take_take. replace (q_limit q0 `min` S (q_limit q0))%nat with (q_limit q0) by lia.
  destruct (last (take (q_limit q0) l)) as [r|] eqn:Hlast.
  2:{ apply last_None in Hlast. apply (f_equal length) in Hlast. rewrite length_take in Hlast. cbn in Hlast. lia. }
  apply last_Some in Hlast as [l1 Hl1]. cbn [fmap option_fmap option_map].
  assert (by_key (q_sort q0) asked = (pre ++ l1) ++ r :: drop (q_limit q0) l) as Hsplit.
  { rewrite Hpre, <- (take_drop (q_limit q0) l) at 1. rewrite Hl1. by rewrite <- !app_assoc. }
  assert (r ∈ asked) as Hr.
  { rewrite <- (elem_of_sort_by (newer (q_sort q0))). fold (by_key (q_sort q0) asked). rewrite Hsplit. set_solver. }
  assert (with_cursor (encodeCursor host (sort_key (q_sort q0) r / 1000) (l_id r) (q_sort q0)) q =
    with_cursor (encodeCursor host (sort_key (q_sort q0) r / 1000) (l_id r) (q_sort q0)) q0) as ->
    by (by destruct Hq as (c' & [-> | ->])).
  rewrite (IH _ (Some (row_cursor (q_sort q0) r)) ((pre ++ l1) ++ [r]) (drop (q_limit q0) l)).
  - cbn. by rewrite take_drop.
  - eauto.
  - by apply row_cursor_is.
  - rewrite length_drop. lia.
  - rewrite <- app_assoc. exact Hsplit.
  - unfold by_key. rewrite sort_by_filter
      by (apply newer_total || apply newer_trans || apply asked_separates).
    apply (after_suffix _ (newer_total _) (newer_trans _) _ (pre ++ l1) r);
      [apply asked_nodup|apply asked_separates|exact Hsplit|].
    intros x _. apply cursor_after. rewrite Forall_forall in Hms. by apply Hms.
Qed.
End asked.

(** C15: Reading the leads page by page shows each exactly once: following the cursors
    from a first page of any size from 1 to 200 takes at most one request more than there
    are leads, and gives the leads of the tenant that the filters select, from the newest
    to the oldest and among equal instants from the highest identifier, as one sorted
    query would, when the instants the leads are sorted by are whole milliseconds. *)
Theorem lead_pages_exact (a : ApiAuth) (q : LeadQuery) (ids : list Z) (db : LeadDb) :
  Cursor.base64_law host → wf_ids db → Forall (whole_ms (q_sort q)) (asked a q ids db) →
  requirePermission lead_read None (Some a) = None → (1 ≤ q_limit q ≤ 200)%nat →
  mapM BigInt (default [] (q_list_id q)) = Some ids → q_withCount q = false → q_cursor q = None →
  follow (S (size (leads db))) (Some a) q db = Some (by_key (q_sort q) (asked a q ids db)).
Proof.
  intros Hb Hwf Hms Hperm Hlim Hids Hcount Hcur.
  apply (lead_follow_suffix a q ids db Hperm Hlim Hids Hcount Hwf Hms Hb _ q None []); [|by unfold cursor_is; rewrite Hcur| |done|].
  - exists EmptyString. by left.
  - unfold by_key. rewrite sort_by_perm. unfold asked, all_leads.
    pose proof (List.filter_length_le (list_where lib (a_tenantId a) (Some ids) q) (snd <$> map_to_list (leads db))) as H.
    rewrite length_fmap, length_map_to_list in H. lia.
  - f_equal. by apply filter_all.
Qed.
End pages.

End LeadPages.

(** ** The export *)

Module CsvExport.

(** *** Its rows *)

#[local] Abbreviation le_id := (λ a b : Lead, l_id a <=? l_id b).

Lemma le_id_total a b : le_id a b = true ∨ le_id b a = true.
Proof. cbn. lia. Qed.

Lemma le_id_trans a b c : le_id a b = true → le_id b c = true → le_id a c = true.
Proof. cbn. lia. Qed.

(** Identifiers are positive, and each row is under its own. *)
Definition wf_table (db : LeadDb) : Prop := LeadPages.wf_ids db ∧ ∀ id l, leads db !! id = Some l → 0 < id.

Section batches.
Context (rows : list Lead) (Hnd : NoDup rows) (Hsep : separates le_id rows) (Hpos : ∀ l, l ∈ rows → 0 < l_id l).

Lemma export_suffix size : (1 ≤ size)%nat → ∀ fuel lastId pre l,
  (length l < fuel)%nat → by_id rows = pre ++ l → by_id (List.filter (after_id lastId) rows) = l →
  export_rows fuel size lastId rows = Some l.
Proof using Type*.
  intros Hsize. induction fuel as [|fuel IH]; intros lastId pre l Hl Hpre Hsel; [lia|]. cbn [export_rows].
  rewrite Hsel. destruct (last (take size l)) as [r|] eqn:Hlast.
  2:{ apply last_None in Hlast. apply (f_equal length) in Hlast. rewrite length_take in Hlast. cbn in Hlast.
      destruct l; [done|cbn in Hlast; lia]. }
  rewrite length_take. destruct (Nat.ltb_spec (size `min` length l) size) as [Hlt|Hge]; [by rewrite take_ge by lia|].
  apply last_Some in Hlast as [l1 Hl1].
  assert (by_id rows = (pre ++ l1) ++ r :: drop size l) as Hsplit.
  { rewrite Hpre, <- (take_drop size l) at 1. rewrite Hl1. by rewrite <- !app_assoc. }
  rewrite (IH (Some (l_id r)) ((pre ++ l1) ++ [r]) (drop size l)).
  - cbn. by rewrite take_drop.
  - rewrite length_drop. lia.
  - rewrite <- app_assoc. exact Hsplit.
  - unfold by_id. rewrite sort_by_filter by (apply le_id_total || apply le_id_trans || done).
    apply (after_suffix _ le_id_total le_id_trans _ (pre ++ l1) r); [done|done|exact Hsplit|].
    assert (r ∈ rows) as Hr by (rewrite <- (elem_of_sort_by le_id); fold (by_id rows); rewrite Hsplit; set_solver).
    apply Hpos in Hr. intros x _. cbn. lia.
Qed.

Lemma export_complete size : (1 ≤ size)%nat → export_rows (S (length rows)) size None rows = Some (by_id rows).
Proof using Type*.
  intros Hs. apply (export_suffix size Hs _ None [] (by_id rows)); [|done|].
  - unfold by_id. rewrite sort_by_perm. lia.
  - f_equal. by apply filter_all.
Qed.
End batches.

(** *** A reader of the format *)

(** A quoted field after its quote: two quotes are one, one ends it. *)
Fixpoint read_quoted (s : string) : option (string * string) :=
  match s with
  | EmptyString => None
  | String c s1 =>
      if Ascii.eqb c quote then
        match s1 with
        | String d s2 => if Ascii.eqb d quote then prepend (char quote) (read_quoted s2) else Some (EmptyString, s1)
        | EmptyString => Some (EmptyString, s1)
        end
      else prepend (char c) (read_quoted s1)
  end.

(** A plain field, up to a comma or the end of the line. *)
Fixpoint read_plain (s : string) : string * string :=
  match s with
  | EmptyString => (EmptyString, EmptyString)
  | String c s1 =>
      if Ascii.eqb c "," || Ascii.eqb c newline then (EmptyString, s)
      else let '(f, r) := read_plain s1 in (String c f, r)
  end.

Definition read_field (s : string) : option (string * string) :=
  match eat quote s with Some s' => read_quoted s' | None => Some (read_plain s) end.

Fixpoint read_record (fuel : nat) (s : string) : option (list string * string) :=
  match fuel with
  | O => None
  | S n =>
      '(f, r) ← read_field s;
      match eat "," r with
      | Some r' => (λ p, (f :: p.1, p.2)) <$> read_record n r'
      | None => (λ r', ([f], r')) <$> eat newline r
      end
  end.

Fixpoint read_csv (fuel : nat) (s : string) : option (list (list string)) :=
  match fuel with
  | O => None
  | S n =>
      match s with
      | EmptyString => Some []
      | _ => '(record, r) ← read_record n s; cons record <$> read_csv n r
      end
  end.

(** What may follow a field. *)
Definition ends_field (s : string) : bool :=
  match s with String c _ => Ascii.eqb c "," || Ascii.eqb c newline | EmptyString => false end.

Lemma read_doubled f r : ends_field r = true → read_quoted (double_quotes f +:+ String quote r) = Some (f, r).
Proof.
  intros Hr. induction f as [|c f IH]; cbn [double_quotes].
  - rewrite string_app_nil_l. cbn [read_quoted]. rewrite Ascii.eqb_refl. destruct r as [|d r]; [done|].
    destruct (Ascii.eqb_spec d quote); [by subst|done].
  - destruct (Ascii.eqb c quote) eqn:E; autorewrite with strs; cbn [read_quoted].
    + rewrite IH. by apply Ascii.eqb_eq in E as ->.
    + rewrite E, IH. done.
Qed.

Lemma read_plain_app f r :
  lacks "," f = true → lacks newline f = true → ends_field r = true → read_plain (f +:+ r) = (f, r).
Proof.
  intros Hc Hn Hr. induction f as [|c f IH].
  - destruct r as [|d r]; [done|]. rewrite string_app_nil_l. cbn [read_plain]. cbn [ends_field] in Hr. by rewrite Hr.
  - rewrite lacks_cons in Hc, Hn. apply andb_prop in Hc as [Hc1 Hc], Hn as [Hn1 Hn].
    rewrite string_app_cons. cbn [read_plain]. rewrite (IH Hc Hn).
    destruct (Ascii.eqb_spec c ","), (Ascii.eqb_spec c newline); subst; done.
Qed.

Lemma read_escaped_field f r : ends_field r = true → read_field (escapeCSV f +:+ r) = Some (f, r).
Proof.
  intros Hr. unfold escapeCSV, read_field. destruct (_ || _) eqn:E.
  - autorewrite with strs. rewrite eat_eq. rewrite <- (string_app_nil_l r). apply read_doubled. done.
  - apply orb_false_elim in E as [E Hn%negb_false_iff]. apply orb_false_elim in E as [Hc%negb_false_iff Hq%negb_false_iff].
    assert (eat quote (f +:+ r) = None) as ->.
    { destruct f as [|c f].
      - destruct r as [|d r]; [done|]. rewrite string_app_nil_l. apply eat_ne. cbn [ends_field] in Hr.
        destruct (Ascii.eqb_spec quote d) as [<-|]; done.
      - rewrite lacks_cons in Hq. apply andb_prop in Hq as [Hq _]. rewrite string_app_cons.
        apply eat_ne. by destruct (Ascii.eqb quote c). }
    by rewrite read_plain_app.
Qed.

Lemma read_line cells r n :
  cells ≠ [] → (length cells ≤ n)%nat → read_record n (csv_line (escapeCSV <$> cells) +:+ r) = Some (cells, r).
Proof.
  intros Hne Hn. unfold csv_line. revert n Hn. induction cells as [|f cells IH]; intros n Hn; [done|].
  destruct n as [|n]; [cbn in Hn; lia|]. cbn [read_record]. destruct cells as [|g cells].
  - cbn [fmap list_fmap String.concat]. autorewrite with strs. rewrite read_escaped_field by done. done.
  - change (join "," (escapeCSV <$> f :: g :: cells)) with (escapeCSV f +:+ "," +:+ join "," (escapeCSV <$> g :: cells)).
    autorewrite with strs. rewrite read_escaped_field by done. cbn [mbind option_bind]. rewrite eat_eq.
    autorewrite with strs in IH. rewrite IH; [done|done|]. cbn in Hn |- *. lia.
Qed.

Lemma csv_line_nonempty cells : (1 ≤ String.length (csv_line cells))%nat.
Proof. unfold csv_line. rewrite length_string_app. cbn. lia. Qed.

Lemma csv_line_length cells : cells ≠ [] → (length cells ≤ String.length (csv_line (escapeCSV <$> cells)))%nat.
Proof.
  unfold csv_line. rewrite length_string_app. cbn [String.length char].
  induction cells as [|f cells IH]; [done|]. intros _. destruct cells as [|g cells]; [cbn; lia|].
  change (join "," (escapeCSV <$> f :: g :: cells)) with (escapeCSV f +:+ "," +:+ join "," (escapeCSV <$> g :: cells)).
  rewrite !length_string_app. specialize (IH ltac:(done)). cbn [length String.length] in IH |- *. lia.
Qed.

Lemma read_csv_step n s record r :
  (1 ≤ String.length s)%nat → read_record n s = Some (record, r) → read_csv (S n) s = cons record <$> read_csv n r.
Proof. intros Hs Hr. cbn [read_csv]. destruct s; [cbn in Hs; lia|]. by rewrite Hr. Qed.

(** The text of records, one line each. *)
Fixpoint lines_of (records : list (list string)) : string :=
  match records with [] => EmptyString | cells :: l => csv_line (escapeCSV <$> cells) +:+ lines_of l end.

Lemma read_lines records n :
  Forall (λ cells, cells ≠ []) records → (String.length (lines_of records) < n)%nat →
  read_csv n (lines_of records) = Some records.
Proof.
  intros H. revert n. induction H as [|cells records Hc H IH]; intros n Hn; (destruct n as [|n]; [lia|]); [done|].
  cbn [lines_of] in Hn |- *. rewrite length_string_app in Hn.
  pose proof (csv_line_length cells Hc). pose proof (csv_line_nonempty (escapeCSV <$> cells)).
  rewrite (read_csv_step n _ cells (lines_of records)).
  - by rewrite IH by lia.
  - rewrite length_string_app. lia.
  - apply read_line; [done|lia].
Qed.

Lemma concat_cons t l : String.concat EmptyString (t :: l) = t +:+ String.concat EmptyString l.
Proof. destruct l; cbn [String.concat]; by autorewrite with strs. Qed.

Lemma export_text_lines rows : export_text rows = lines_of (CSV_COLUMNS :: (csv_cells <$> rows)).
Proof.
  unfold export_text. rewrite concat_cons. cbn [lines_of]. f_equal.
  induction rows as [|l rows IH]; [done|]. rewrite fmap_cons, concat_cons, IH. done.
Qed.

(** C16: The CSV export is complete and can be read back: for a caller who may export, and
    list identifiers that are numbers, the file read by the rules of CSV (commas and line
    feeds end fields, two quotes within quotes are one) is the header and then exactly the
    visible leads of the tenant in the lists and statuses asked for, each once, by
    identifier, whatever commas, quotes and line breaks their fields have; the batches end;
    and nothing is changed. *)
Theorem export_reads_back lib (a : ApiAuth) (q : LeadQuery) (ids : list Z) (db : LeadDb) :
  wf_table db → requirePermission lead_export None (Some a) = None →
  mapM BigInt (default [] (q_list_id q)) = Some ids →
  ∃ text, export_leads lib (Some a) q db = (LCsv text, db) ∧
    ∀ n, (String.length text < n)%nat →
    read_csv n text = Some (CSV_COLUMNS ::
      (csv_cells <$> by_id (List.filter (export_where lib (a_tenantId a) ids (default [] (q_status q))) (all_leads db)))).
Proof.
  intros [Hwf Hpos] Hperm Hids.
  set (rows := List.filter (export_where lib (a_tenantId a) ids (default [] (q_status q))) (all_leads db)).
  exists (export_text (by_id rows)). split.
  - unfold export_leads, lead_guard. rewrite Hperm, Hids. fold rows. rewrite export_complete; [done| | | |unfold batchSize; lia].
    + by apply NoDup_filter_list, LeadPages.all_leads_nodup.
    + apply separates_filter. intros x y Hx Hy H1 H2. apply LeadPages.elem_of_all_leads in Hx, Hy; [|done..].
      assert (l_id x = l_id y) as He by (cbn in H1, H2; lia). rewrite He in Hx. congruence.
    + intros l [Hl _]%elem_of_filter_list. apply LeadPages.elem_of_all_leads in Hl; [|done]. by apply Hpos in Hl.
  - intros n Hn. rewrite export_text_lines in Hn |- *. apply read_lines; [|done].
    constructor; [done|]. apply Forall_fmap, Forall_true. done.
Qed.

End CsvExport.

(** ** Every run *)

Module LeadRuns.

Inductive LeadRequest :=
  | R_get (auth : option ApiAuth) (rawId expand : string)
  | R_calls (auth : option ApiAuth) (rawId : string)
  | R_lookup (auth : option ApiAuth) (phone : string) (limit : nat)
  | R_list (auth : option ApiAuth) (q : LeadQuery)
  | R_export (auth : option ApiAuth) (q : LeadQuery)
  | R_create (auth : option ApiAuth) (now server_now : Z) (b : Body) (list_id : Z)
  | R_bulk (auth : option ApiAuth) (now server_now list_id : Z) (rows : list Body) (o : BulkOptions)
  | R_patch (auth : option ApiAuth) (now : Z) (rawId : string) (ifMatch : option string) (version : option Z) (b : Body)
  | R_delete (auth : option ApiAuth) (now : Z) (rawId : string)
  | R_promote (ddl_error : string → option string) (auth : option ApiAuth) (k : string).

Definition request_auth (r : LeadRequest) : option ApiAuth :=
  match r with
  | R_get a _ _ | R_calls a _ | R_lookup a _ _ | R_list a _ | R_export a _ | R_create a _ _ _ _
  | R_bulk a _ _ _ _ _ | R_patch a _ _ _ _ _ | R_delete a _ _ | R_promote _ a _ => a
  end.

Section system.
Variable host : Host.
Variable lib : Library.

Definition handle (r : LeadRequest) (db : LeadDb) : LeadResponse * LeadDb :=
  match r with
  | R_get a id e => get_lead a id e db
  | R_calls a id => lead_calls a id db
  | R_lookup a p n => lookup_leads lib a p n db
  | R_list a q => list_leads host lib a q db
  | R_export a q => export_leads lib a q db
  | R_create a now s b l => create_lead host lib a now s b l db
  | R_bulk a now s l rows o => bulk_leads host lib a now s l rows o db
  | R_patch a now id m v b => patch_lead host lib a now id m v b db
  | R_delete a now id => delete_lead a now id db
  | R_promote e a k => promote_field e a k db
  end.

(** The table: rows under their positive identifiers, below the next one, in a list of
    their tenant. *)
Definition row_wf (db : LeadDb) (id : Z) (l : Lead) : Prop :=
  l_id l = id ∧ 0 < id < next_id db ∧ ∃ name, lead_lists db !! l_listId l = Some (l_tenantId l, name).

Definition wf_db (db : LeadDb) : Prop := 0 < next_id db ∧ ∀ id l, leads db !! id = Some l → row_wf db id l.

(** What a request with the rights of a tenant does to the rows: other tenants' rows stay,
    no row goes or changes its tenant, versions only grow. *)
Definition row_step (tenant : option Z) (l l' : Lead) : Prop :=
  l_tenantId l' = l_tenantId l ∧ l_version l <= l_version l' ∧ (tenant ≠ Some (l_tenantId l) → l' = l).

Definition table_step (tenant : option Z) (db db' : LeadDb) : Prop :=
  lead_lists db' = lead_lists db ∧ lead_users db' = lead_users db ∧
  (∀ id l, leads db !! id = Some l → ∃ l', leads db' !! id = Some l' ∧ row_step tenant l l') ∧
  (∀ id l', leads db' !! id = Some l' → leads db !! id = None → tenant = Some (l_tenantId l')).

Lemma row_step_refl t l : row_step t l l.
Proof. split_and!; [done|lia|done]. Qed.

Lemma table_step_same t db db' :
  leads db' = leads db → lead_lists db' = lead_lists db → lead_users db' = lead_users db → table_step t db db'.
Proof.
  intros Hl Hi Hu. split_and!; [done|done| |]; rewrite Hl; [|congruence].
  intros id l H. exists l. split; [done|apply row_step_refl].
Qed.

(** A server never runs the bulk statement. *)
Lemma executeInsert_none skip tenant now rows db : rows ≠ [] → executeInsert skip tenant now rows db = None.
Proof. destruct rows; [done|]. intros _. unfold executeInsert. reflexivity. Qed.

(** *** What each request leaves *)

(** A request keeps the table well formed, steps its rows, and shows rows of its tenant. *)
Definition shown (r : LeadResponse) : list Lead :=
  match r with LLead _ l _ _ => [l] | LFound ls => ls | LPage ls _ _ _ _ => ls | _ => [] end.

Definition good_answer (tenant : option Z) (db : LeadDb) (p : LeadResponse * LeadDb) : Prop :=
  wf_db p.2 ∧ table_step tenant db p.2 ∧ Forall (λ l, tenant = Some (l_tenantId l)) (shown p.1).

Lemma wf_same db db' :
  leads db' = leads db → lead_lists db' = lead_lists db → next_id db' = next_id db → wf_db db → wf_db db'.
Proof. unfold wf_db, row_wf. by intros -> -> ->. Qed.

(** An answer that leaves the rows. *)
Lemma good_same t db r db' :
  wf_db db → leads db' = leads db → lead_lists db' = lead_lists db → lead_users db' = lead_users db →
  next_id db' = next_id db → Forall (λ l, t = Some (l_tenantId l)) (shown r) → good_answer t db (r, db').
Proof. intros. split_and!; [by apply (wf_same db)|by apply table_step_same|done]. Qed.

Lemma good_guard verb auth db k :
  wf_db db → (∀ a, auth = Some a → good_answer (a_tenantId <$> auth) db (k a)) →
  good_answer (a_tenantId <$> auth) db (lead_guard verb auth db k).
Proof.
  intros Hwf Hk. unfold lead_guard.
  destruct (requirePermission verb None auth); [by apply good_same|]. destruct auth as [a|]; [|by apply good_same].
  by apply Hk.
Qed.

Lemma find_lead_some id tenant db l :
  find_lead id tenant db = Some l ↔ leads db !! id = Some l ∧ l_tenantId l = tenant ∧ l_deletedAt l = None.
Proof.
  unfold find_lead, visible. destruct (leads db !! id) as [l'|]; cbn; [|naive_solver].
  destruct (Z.eqb_spec (l_tenantId l') tenant), (bool_decide_reflect (l_deletedAt l' = None)); cbn; naive_solver.
Qed.

Lemma good_with_id t db rawId k :
  wf_db db → (∀ id, BigInt rawId = Some id → good_answer t db (k id)) → good_answer t db (with_id rawId db k).
Proof. intros Hwf Hk. unfold with_id. destruct (BigInt rawId) as [id|]; [by apply Hk|by apply good_same]. Qed.

Lemma good_get a id e db : wf_db db → good_answer (a_tenantId <$> a) db (get_lead a id e db).
Proof.
  intros Hwf. apply good_guard; [done|]. intros a' ->. apply good_with_id; [done|]. intros n _.
  destruct (find_lead n (a_tenantId a') db) as [l|] eqn:E; [|by apply good_same].
  apply find_lead_some in E as (_ & Ht & _). apply good_same; try done. constructor; [|done]. cbn. by rewrite Ht.
Qed.

Lemma good_calls a id db : wf_db db → good_answer (a_tenantId <$> a) db (lead_calls a id db).
Proof.
  intros Hwf. apply good_guard; [done|]. intros a' ->. apply good_with_id; [done|]. intros n _.
  destruct (find_lead n (a_tenantId a') db); by apply good_same.
Qed.

(** Rows that sorting, a limit and conditions leave of the tenant's. *)
Lemma Forall_selected (P : Lead → Prop) (p : Lead → bool) (le : Lead → Lead → bool) n l :
  (∀ x, p x = true → P x) → Forall P (take n (sort_by le (List.filter p l))).
Proof.
  intros H. apply Forall_take. rewrite sort_by_perm. apply Forall_forall. intros x [_ Hx]%elem_of_filter_list. by apply H.
Qed.

Lemma good_lookup a p n db : wf_db db → good_answer (a_tenantId <$> a) db (lookup_leads lib a p n db).
Proof.
  intros Hwf. apply good_guard; [done|]. intros a' ->. destruct (_ && _); [|by apply good_same].
  apply good_same; try done. cbn [shown]. apply Forall_selected. intros x Hx. unfold visible in Hx. cbn.
  f_equal. lia.
Qed.

Lemma list_where_tenant tenant ids q l : list_where lib tenant ids q l = true → l_tenantId l = tenant.
Proof. unfold list_where. rewrite !andb_true_iff. intros H. decompose [and] H. lia. Qed.

Lemma good_page a' q tenant_where c db :
  wf_db db → (∀ l, tenant_where l = true → l_tenantId l = a_tenantId a') →
  good_answer (a_tenantId <$> Some a') db (answer_page host a' q tenant_where c db).
Proof.
  intros Hwf Ht. unfold answer_page, lead_page.
  assert (∀ n, Forall (λ l, a_tenantId <$> Some a' = Some (l_tenantId l)) (take n (by_key (q_sort q) (List.filter
    (λ l, tenant_where l && cursor_where (q_sort q) c l) (all_leads db))))) as Hall.
  { intros n. apply Forall_selected. intros x [Hx _]%andb_prop. cbn. f_equal. symmetry. by apply Ht. }
  assert (∀ b : bool, Forall (λ l, a_tenantId <$> Some a' = Some (l_tenantId l))
    (if b then take (q_limit q) (take (S (q_limit q)) (by_key (q_sort q) (List.filter
      (λ l, tenant_where l && cursor_where (q_sort q) c l) (all_leads db))))
     else take (S (q_limit q)) (by_key (q_sort q) (List.filter
      (λ l, tenant_where l && cursor_where (q_sort q) c l) (all_leads db))))) as Hb
    by (intros []; [apply Forall_take|]; apply Hall).
  destruct (q_withCount q); [destruct (isAdmin (Some a'))|]; apply good_same; try done; apply Hb.
Qed.

Lemma good_list a q db : wf_db db → good_answer (a_tenantId <$> a) db (list_leads host lib a q db).
Proof.
  intros Hwf. apply good_guard; [done|]. intros a' ->.
  destruct (negb _); [by apply good_same|]. destruct (mapM _ _) as [ids|]; [|by apply good_same].
  destruct (truthy_cursor (q_cursor q)); [destruct (decodeCursor _ _ _)|]; try (by apply good_same);
    apply good_page; [done| |done|]; intros l; apply list_where_tenant.
Qed.

Lemma good_export a q db : wf_db db → good_answer (a_tenantId <$> a) db (export_leads lib a q db).
Proof.
  intros Hwf. apply good_guard; [done|]. intros a' ->. destruct (mapM _ _); [|by apply good_same].
  cbv zeta. case_match; by apply good_same.
Qed.

Lemma good_bulk a now s list_id rows o db :
  wf_db db → good_answer (a_tenantId <$> a) db (bulk_leads host lib a now s list_id rows o db).
Proof.
  intros Hwf. apply good_guard; [done|]. intros a' ->.
  destruct (_ <? _)%nat; [by apply good_same|]. destruct (_ =? 0)%nat; [by apply good_same|].
  destruct (negb _); [by apply good_same|]. destruct (prepare_rows _ _ _ _ _) as [errors valid].
  destruct (dryRun o); [by apply good_same|]. destruct (strict o && _); [by apply good_same|].
  case_bool_decide; [by apply good_same|]. rewrite executeInsert_none by done. by apply good_same.
Qed.

Lemma good_promote e a k db : wf_db db → good_answer (a_tenantId <$> a) db (promote_field e a k db).
Proof.
  intros Hwf. unfold promote_field. destruct a; [|by apply good_same].
  destruct (negb _); [by apply good_same|]. destruct (negb _); [by apply good_same|].
  destruct (e _); by apply good_same.
Qed.

(** A row of the tenant replaced by one with its identifier, tenant and list. *)
Lemma good_replace a db db' r id l l' :
  wf_db db → leads db !! id = Some l → l_tenantId l = a →
  l_id l' = l_id l → l_tenantId l' = l_tenantId l → l_listId l' = l_listId l → l_version l <= l_version l' →
  leads db' = <[ id := l' ]> (leads db) → lead_lists db' = lead_lists db → lead_users db' = lead_users db →
  next_id db' = next_id db → Forall (λ x, x = l') (shown r) → good_answer (Some a) db (r, db').
Proof.
  intros [Hnext Hwf] Hl Ht Hid Htn Hls Hv Hleads Hlists Husers Hn Hshown. split_and!; cbn [fst snd].
  - split; [by rewrite Hn|]. intros i x Hx. unfold row_wf. rewrite Hlists, Hn. rewrite Hleads in Hx.
    apply lookup_insert_Some in Hx as [[<- <-]|[_ Hx]]; [|by apply Hwf].
    specialize (Hwf id l Hl). unfold row_wf in Hwf. by rewrite Hid, Htn, Hls.
  - split_and!; [done|done| |]; rewrite Hleads.
    + intros i x Hx. destruct (decide (i = id)) as [->|Hne].
      * rewrite Hl in Hx. injection Hx as <-. exists l'. rewrite lookup_insert_eq. split; [done|]. split_and!; [done|done|].
        by rewrite Ht.
      * exists x. rewrite lookup_insert_ne by done. split; [done|apply row_step_refl].
    + intros i x [[<- <-]|[_ Hx]]%lookup_insert_Some Hnone; congruence.
  - eapply Forall_impl; [exact Hshown|]. intros x ->. by rewrite Htn, Ht.
Qed.

Lemma good_delete a now id db : wf_db db → good_answer (a_tenantId <$> a) db (delete_lead a now id db).
Proof.
  intros Hwf. apply good_guard; [done|]. intros a' ->. apply good_with_id; [done|]. intros n _.
  destruct (find_lead n (a_tenantId a') db) as [l|] eqn:E; [|by apply good_same].
  apply find_lead_some in E as (Hl & Ht & _). by apply (good_replace _ _ _ _ n l (mark_deleted now l)).
Qed.

Lemma good_create a now s b list_id db :
  wf_db db → good_answer (a_tenantId <$> a) db (create_lead host lib a now s b list_id db).
Proof.
  intros Hwf. apply good_guard; [done|]. intros a' ->.
  destruct (lead_lists db !! list_id) as [[t name]|] eqn:Hlist; cbn [from_option fst]; [|by apply good_same].
  destruct (Z.eqb_spec t (a_tenantId a')) as [->|Ht]; cbn [negb]; [|by apply good_same].
  destruct (strictNormalizePhone _ _ _) as [phone|]; [|by apply good_same].
  cbv zeta. destruct (negb _); [by apply good_same|].
  destruct Hwf as [Hnext Hwf]. assert (leads db !! next_id db = None) as Hnone.
  { destruct (leads db !! next_id db) as [l|] eqn:E; [|done]. destruct (Hwf _ _ E) as (_ & ? & _). lia. }
  split_and!; cbn [fst snd].
  - split; [cbn; lia|]. cbn. intros id l [[<- <-]|[_ Hl]]%lookup_insert_Some.
    + unfold row_wf. cbn. split_and!; [done|lia|lia|by exists name].
    + destruct (Hwf _ _ Hl) as (H1 & H2 & H3). unfold row_wf. cbn. split_and!; [done|lia|lia|done].
  - split_and!; [done|done| |]; cbn.
    + intros id l Hl. exists l. split; [|apply row_step_refl]. rewrite lookup_insert_ne; [done|congruence].
    + intros id l [[<- <-]|[_ Hl]]%lookup_insert_Some Hid; [done|congruence].
  - by constructor.
Qed.

(** *** Patches *)

Lemma patch_begin_inr a now raw m v b db p :
  patch_begin host lib a now raw m v b db = inr p →
  ∃ a', a = Some a' ∧ pp_tenantId p = a_tenantId a' ∧ BigInt raw = Some (pp_id p) ∧
    find_lead (pp_id p) (a_tenantId a') db = Some (pp_before p) ∧
    from_option (λ n, l_version (pp_before p) = n) True (expectedVersion m v).
Proof.
  unfold patch_begin. destruct (requirePermission _ _ _); [done|]. destruct a as [a'|]; [|done].
  destruct (BigInt raw) as [id|]; [|done]. destruct (bad_phone _ _); [done|].
  destruct (find_lead id (a_tenantId a') db) as [before|] eqn:E; [|done].
  destruct (expectedVersion m v) as [n|]; [destruct (Z.eqb_spec (l_version before) n); [|done]|];
    intros [= <-]; exists a'; done.
Qed.

(** A refusal or a stale answer shows nothing. *)
Lemma patch_begin_inl a now raw m v b db r :
  patch_begin host lib a now raw m v b db = inl r → shown r = [].
Proof.
  unfold patch_begin. repeat case_match; by intros [= <-].
Qed.

(** What a commit that succeeds leaves. *)
Definition committed (p : PendingPatch) (l : Lead) (db db' : LeadDb) : Prop :=
  leads db' = <[ pp_id p := apply_patch p l ]> (leads db) ∧ lead_lists db' = lead_lists db ∧
  lead_users db' = lead_users db ∧ next_id db' = next_id db ∧ length (events db') = S (length (events db)) ∧
  ∃ d, diffLeadChanges (pp_before p) (apply_patch p l) (patch_keys p) = Ok d ∧
    audits db' = audits db ++ [mkAudit "lead.updated" (pp_tenantId p) (pp_actor p) (zs (pp_id p)) d.1 d.2].

(** A commit changes nothing, or writes its row. *)
Lemma patch_commit_cases p db :
  (∃ r, patch_commit p db = (r, db) ∧ shown r = []) ∨
  (∃ l db', leads db !! pp_id p = Some l ∧ l_tenantId l = pp_tenantId p ∧ l_version l + 1 <= SMALLINT_MAX ∧
    columns_ok db (pp_cols p) = true ∧
    patch_commit p db = (LLead 200 (apply_patch p l) None (l_version l + 1), db') ∧ committed p l db db').
Proof.
  unfold patch_commit. destruct (leads db !! pp_id p) as [l|] eqn:Hl; [|left; by eexists].
  destruct (Z.eqb_spec (l_tenantId l) (pp_tenantId p)); cbn [negb]; [|left; by eexists].
  destruct (Z.ltb_spec SMALLINT_MAX (l_version l + 1)); [left; by eexists|].
  destruct (columns_ok db (pp_cols p)) eqn:Hc; cbn [negb]; [|left; by eexists].
  cbv zeta. destruct (diffLeadChanges _ _ _) as [[d1 d2]|] eqn:Hd; [|left; by eexists].
  right. exists l. eexists. do 3 (split; [done || lia|]). split; [done|]. split; [reflexivity|].
  split; [reflexivity|]. do 3 (split; [reflexivity|]). split; [|exists (d1, d2); split; [done|reflexivity]].
  unfold publishLeadEvent, with_event. cbn [events with_audit with_leads]. rewrite length_app. apply Nat.add_1_r.
Qed.

Lemma good_patch a now raw m v b db :
  wf_db db → good_answer (a_tenantId <$> a) db (patch_lead host lib a now raw m v b db).
Proof.
  intros Hwf. unfold patch_lead. destruct (patch_begin _ _ _ _ _ _ _ _ _) as [r|p] eqn:E.
  - apply good_same; try done. by rewrite (patch_begin_inl _ _ _ _ _ _ _ _ E).
  - apply patch_begin_inr in E as (a' & -> & Ht & _).
    destruct (patch_commit_cases p db) as [(r & -> & Hr)|(l & db' & Hl & Htl & _ & _ & -> & H1 & H2 & H3 & H4 & _)].
    + apply good_same; try done. by rewrite Hr.
    + apply (good_replace _ _ _ _ (pp_id p) l (apply_patch p l)); try done; [congruence|cbn; lia|by constructor].
Qed.

Lemma good_handle r db : wf_db db → good_answer (a_tenantId <$> request_auth r) db (handle r db).
Proof.
  intros Hwf. destruct r; cbn [handle request_auth];
    [by apply good_get|by apply good_calls|by apply good_lookup|by apply good_list|by apply good_export|
     by apply good_create|by apply good_bulk|by apply good_patch|by apply good_delete|by apply good_promote].
Qed.

(** A run: requests one after the other. *)
Inductive run : LeadDb → list LeadRequest → LeadDb → Prop :=
  | run_nil db : run db [] db
  | run_step db r rs db' : run (handle r db).2 rs db' → run db (r :: rs) db'.

Lemma lead_run_wf db rs db' : run db rs db' → wf_db db → wf_db db'.
Proof. induction 1 as [|db r rs db' _ IH]; [done|]. intros Hwf. apply IH. by apply (good_handle r db). Qed.

(** Over a run versions only grow, and rows stay their tenants'. *)
Lemma run_rows db rs db' id l :
  run db rs db' → wf_db db → leads db !! id = Some l →
  ∃ l', leads db' !! id = Some l' ∧ l_tenantId l' = l_tenantId l ∧ l_version l <= l_version l'.
Proof.
  intros H. revert l. induction H as [|db r rs db' _ IH]; intros l Hwf Hl; [exists l; split_and!; [done|done|lia]|].
  destruct (good_handle r db Hwf) as (Hwf' & (_ & _ & Hrows & _) & _).
  destruct (Hrows id l Hl) as (l1 & Hl1 & Ht & Hv & _). destruct (IH l1 Hwf' Hl1) as (l2 & Hl2 & Ht2 & Hv2).
  exists l2. split_and!; [done|congruence|lia].
Qed.

(** *** Tenants *)

Lemma step_others r db t id l :
  wf_db db → a_tenantId <$> request_auth r ≠ Some t → l_tenantId l = t →
  leads (handle r db).2 !! id = Some l ↔ leads db !! id = Some l.
Proof.
  intros Hwf Hr Ht. destruct (good_handle r db Hwf) as (_ & (_ & _ & Hrows & Hnew) & _). split; intros Hl.
  - destruct (leads db !! id) as [l0|] eqn:E.
    + destruct (Hrows id l0 E) as (l' & Hl' & Ht' & _ & Hsame). rewrite Hl in Hl'. injection Hl' as <-.
      rewrite Hsame; [done|congruence].
    + specialize (Hnew id l Hl E). congruence.
  - destruct (Hrows id l Hl) as (l' & Hl' & _ & _ & Hsame). rewrite Hl', Hsame; [done|congruence].
Qed.

(** C14: Tenants stay apart in every run: requests without the rights of a tenant neither
    change its leads nor add any; every lead stays in a list of its own tenant; and whatever
    any request then answers, the leads it shows are its caller's tenant's. *)
Theorem lead_tenant_isolation db rs db' t :
  wf_db db → run db rs db' → Forall (λ r, a_tenantId <$> request_auth r ≠ Some t) rs →
  (∀ id l, l_tenantId l = t → leads db' !! id = Some l ↔ leads db !! id = Some l) ∧
  (∀ id l, leads db' !! id = Some l → ∃ name, lead_lists db' !! l_listId l = Some (l_tenantId l, name)) ∧
  (∀ r l, l ∈ shown (handle r db').1 → a_tenantId <$> request_auth r = Some (l_tenantId l)).
Proof.
  intros Hwf Hrun Hrs. pose proof (lead_run_wf _ _ _ Hrun Hwf) as Hwf'. split_and!.
  - clear Hwf'. intros id l Hl. induction Hrun as [|db r rs db' _ IH]; [done|]. apply Forall_cons in Hrs as [Hr Hrs].
    rewrite IH; [by apply (step_others r db t)|by apply (good_handle r db)|done].
  - intros id l Hl. by apply Hwf' in Hl as (_ & _ & ?).
  - intros r l Hl. destruct (good_handle r db' Hwf') as (_ & _ & Hs). rewrite Forall_forall in Hs. by apply Hs.
Qed.

(** *** The optimistic lock *)

(** C12: Of the patches of a lead that ask for the same version, at most one takes effect,
    when requests are served one after the other: once a patch asking for a version has
    answered with the lead, then after any further requests every other patch of that lead
    by the tenant that asks for that version, in its header or its body, is refused and
    leaves the leads as they are. *)
Theorem patch_version_lock db rs db2 n a1 now1 raw1 m1 v1 b1 a2 now2 raw2 m2 v2 b2 :
  let first := patch_lead host lib a1 now1 raw1 m1 v1 b1 db in
  let second := patch_lead host lib a2 now2 raw2 m2 v2 b2 db2 in
  wf_db db → expectedVersion m1 v1 = Some n → shown first.1 ≠ [] →
  run first.2 rs db2 →
  BigInt raw2 = BigInt raw1 → a_tenantId <$> a2 = a_tenantId <$> a1 → expectedVersion m2 v2 = Some n →
  shown second.1 = [] ∧ leads second.2 = leads db2.
Proof.
  intros first second Hwf Hv1 Hok Hrun Hraw Hten Hv2. subst first second.
  pose proof (good_patch a1 now1 raw1 m1 v1 b1 db Hwf) as (Hwf1 & _).
  unfold patch_lead in Hok, Hrun, Hwf1.
  destruct (patch_begin _ _ a1 _ _ _ _ _ _) as [r|p] eqn:E1;
    [cbn in Hok; by rewrite (patch_begin_inl _ _ _ _ _ _ _ _ E1) in Hok|].
  apply patch_begin_inr in E1 as (a1' & -> & Ht1 & Hid1 & Hf1 & Hn1). rewrite Hv1 in Hn1. cbn in Hn1.
  apply find_lead_some in Hf1 as (Hl1 & Htl1 & _).
  destruct (patch_commit_cases p db) as [(r & Hp & Hr)|(l & db' & Hl & Htl & _ & _ & Hp & (Hdb' & _))];
    rewrite Hp in Hok, Hrun, Hwf1; cbn [fst snd] in Hok, Hrun, Hwf1; [done|].
  rewrite Hl1 in Hl. injection Hl as <-.
  assert (leads db' !! pp_id p = Some (apply_patch p (pp_before p))) as Hl' by (rewrite Hdb'; apply lookup_insert_eq).
  destruct (run_rows _ _ _ _ _ Hrun Hwf1 Hl') as (l2 & Hl2 & Ht2 & Hver). cbn in Hver.
  unfold patch_lead. destruct (patch_begin _ _ a2 _ _ _ _ _ _) as [r|p2] eqn:E2;
    [split; [by apply (patch_begin_inl _ _ _ _ _ _ _ _ E2)|done]|].
  exfalso. apply patch_begin_inr in E2 as (a2' & -> & _ & Hid2 & Hf2 & Hn2). rewrite Hv2 in Hn2. cbn in Hn2.
  apply find_lead_some in Hf2 as (Hl3 & _ & _). assert (pp_id p2 = pp_id p) as Hpp by congruence.
  rewrite Hpp, Hl2 in Hl3. injection Hl3 as ->. lia.
Qed.
End system.
End LeadRuns.

(** ** Witnesses: a small table *)

Module Sample.

Definition host : Host := mkHost (λ s, s) (λ s, s) (λ _, JNonFinite) (λ _, None).

Definition lib : Library := mkLibrary (λ raw _, Some (raw, true)) String.eqb String.prefix.

Definition admin_of (tenant : Z) : ApiAuth := mkApiAuth 7 tenant admin (permsAsSet admin) "j" true None AllCampaigns.

Definition lead (id tenant list version at_ : Z) (name : string) : Lead :=
  mkLead id tenant list "NEW" 0 version None at_ at_ at_
    {[ "phoneE164" := VStr "+15551234567"; "lastName" := VStr name;
       "customData" := VJson (JObj [("colour", JStr "red")]) ]}%string.

(** Leads 1 and 2 are of tenant 1 and changed in the same millisecond, lead 3 of tenant 2. *)
Definition db : LeadDb :=
  mkDb {[ 1 := lead 1 1 10 5 1746100799007000 "O,Neil"; 2 := lead 2 1 10 1 1746100799007000 "Smith";
          3 := lead 3 2 20 1 1746100799008000 "Jones" ]}
    4 {[ 10 := (1, "A"); 20 := (2, "B") ]}%string {[ 7; 8 ]} [] [].

Definition query (limit : nat) : LeadQuery :=
  mkLeadQuery None None None None None None None None None None None None false None limit modify_at_desc None false [].

Lemma wf : LeadRuns.wf_db db.
Proof.
  split; [done|]. intros id l Hl. unfold db in Hl. cbn [leads] in Hl.
  repeat (apply lookup_insert_Some in Hl as [[<- <-]|[_ Hl]]; [split_and!; [done|cbn; lia..|by eexists]|]).
  apply lookup_singleton_Some in Hl as [<- <-]. split_and!; [done|cbn; lia..|by eexists].
Qed.

Lemma base64 : Cursor.base64_law host.
Proof. done. Qed.

Lemma wf_ids : LeadPages.wf_ids db.
Proof. intros id l Hl. by destruct (proj2 wf id l Hl). Qed.

Lemma wf_table : CsvExport.wf_table db.
Proof. split; [apply wf_ids|]. intros id l Hl. destruct (proj2 wf id l Hl) as (_ & ? & _). lia. Qed.
End Sample.

(** With pages of one lead, two requests show both leads of the tenant. *)
Lemma lead_pages_exact_witness :
  LeadPages.follow Sample.host Sample.lib 4 (Some (Sample.admin_of 1)) (Sample.query 1) Sample.db
  = Some [Sample.lead 2 1 10 1 1746100799007000 "Smith"; Sample.lead 1 1 10 5 1746100799007000 "O,Neil"].
Proof.
  etransitivity; [|reflexivity].
  apply (LeadPages.lead_pages_exact Sample.host Sample.lib (Sample.admin_of 1) (Sample.query 1) [] Sample.db Sample.base64
    Sample.wf_ids).
  - apply (bool_decide_unpack _). vm_compute. exact I.
  - reflexivity.
  - cbn. lia.
  - reflexivity.
  - reflexivity.
  - reflexivity.
Defined.

Lemma export_reads_back_witness :
  ∃ text, export_leads Sample.lib (Some (Sample.admin_of 1)) (Sample.query 1) Sample.db = (LCsv text, Sample.db) ∧
    ∀ n, (String.length text < n)%nat → CsvExport.read_csv n text = Some (CSV_COLUMNS ::
      (csv_cells <$> [Sample.lead 1 1 10 5 1746100799007000 "O,Neil"; Sample.lead 2 1 10 1 1746100799007000 "Smith"])).
Proof.
  exact (CsvExport.export_reads_back Sample.lib (Sample.admin_of 1) (Sample.query 1) [] Sample.db Sample.wf_table
    eq_refl eq_refl).
Defined.

(** Tenant 2 deletes its lead. *)
Lemma lead_tenant_isolation_witness :
  let db' := (LeadRuns.handle Sample.host Sample.lib (LeadRuns.R_delete (Some (Sample.admin_of 2)) 1746100800000 "3")
                Sample.db).2 in
  leads db' !! 1 = Some (Sample.lead 1 1 10 5 1746100799007000 "O,Neil") ∧ (l_deletedAt <$> leads db' !! 3) = Some (Some 1746100800000000).
Proof.
  intros db'. split; [|vm_compute; reflexivity].
  apply (proj1 (LeadRuns.lead_tenant_isolation Sample.host Sample.lib Sample.db
    [LeadRuns.R_delete (Some (Sample.admin_of 2)) 1746100800000 "3"] db' 1 Sample.wf
    (LeadRuns.run_step _ _ _ _ _ _ (LeadRuns.run_nil _ _ _)) ltac:(by repeat constructor)) 1
    (Sample.lead 1 1 10 5 1746100799007000 "O,Neil") eq_refl).
  reflexivity.
Defined.

(** Of two patches of lead 1 for version 5 the second is refused. *)
Lemma patch_version_lock_witness :
  let rename (name : string) (db : LeadDb) :=
    patch_lead Sample.host Sample.lib (Some (Sample.admin_of 1)) 1746100800000 "1" None (Some 5)
      {[ "first_name" := VStr name ]}%string db in
  LeadRuns.shown (rename "Bob"%string (rename "Ann"%string Sample.db).2).1 = [].
Proof.
  intros rename.
  apply (LeadRuns.patch_version_lock Sample.host Sample.lib Sample.db [] (rename "Ann"%string Sample.db).2 5
    (Some (Sample.admin_of 1)) 1746100800000 "1" None (Some 5) {[ "first_name" := VStr "Ann" ]}%string
    (Some (Sample.admin_of 1)) 1746100800000 "1" None (Some 5) {[ "first_name" := VStr "Bob" ]}%string Sample.wf);
    [reflexivity| |apply LeadRuns.run_nil|reflexivity..].
  vm_compute. discriminate.
Defined.
