(* ===== verification/LeadPatches.v ===== *)
(** What a patch of a lead does to it, and where the routes of leads fall short of what
    they are meant for. *)

From S2P Require Import Prelude Paging Calendar Jcs JsonText JsNumber Rbac Auth Leads LeadsTheorems.
Import LeadRuns.

#[local] Open Scope Z_scope.

(** ** Columns and custom data *)

Section copy.
Variable host : Host.

Lemma copy_fields_other table b c : c ∉ table.*1 → copy_fields host table b !! c = None.
Proof.
  induction table as [|[c' f] table IH]; intros Hc; [done|]. cbn in Hc. apply not_elem_of_cons in Hc as [Hne Hc].
  cbn. destruct (b !! f); [rewrite lookup_insert_ne by done|]; by apply IH.
Qed.

(** A column of the table has the value of its field, when the body has one. *)
Lemma copy_fields_lookup table b c f :
  NoDup table.*1 → (c, f) ∈ table → copy_fields host table b !! c = column_value host f <$> b !! f.
Proof.
  induction table as [|[c' f'] table IH]; intros Hn Hin; [by apply not_elem_of_nil in Hin|].
  cbn in Hn. apply NoDup_cons in Hn as [Hc' Hn]. cbn. apply elem_of_cons in Hin as [[= -> ->]|Hin].
  - destruct (b !! f') as [v|]; [by rewrite lookup_insert_eq|]. by apply copy_fields_other.
  - assert (c ≠ c').
    { intros ->. apply Hc'. by apply (list_elem_of_fmap_2 fst) in Hin. }
    destruct (b !! f'); [rewrite lookup_insert_ne by done|]; by apply IH.
Qed.

Lemma patch_columns_nodup : NoDup PATCH_COLUMNS.*1.
Proof. apply (bool_decide_unpack _). vm_compute. exact I. Qed.
End copy.



(** ** The audit row *)

Definition changed (before after : Lead) (key : string) : bool :=
  match value_text (column_of before key), value_text (column_of after key) with
  | Ok old, Ok new => negb (bool_decide (old = new))
  | _, _ => false
  end.

Lemma changed_ok before after key old new :
  value_text (column_of before key) = Ok old → value_text (column_of after key) = Ok new →
  changed before after key = negb (bool_decide (old = new)).
Proof. unfold changed. by intros -> ->. Qed.

Lemma diff_spec before after keys d :
  diffLeadChanges before after keys = Ok d →
  d = ((λ k, (k, column_of before k)) <$> List.filter (changed before after) keys,
       (λ k, (k, column_of after k)) <$> List.filter (changed before after) keys) ∧
  Forall (λ k, is_ok (value_text (column_of after k)) = true) keys.
Proof.
  revert d. induction keys as [|k keys IH]; intros d; cbn [diffLeadChanges]; [by intros [= <-]|].
  intros (old & Ho & (new & Hn & (d' & Hd & [= <-])%bind_ok)%bind_ok)%bind_ok. destruct (IH d' Hd) as [-> Hall].
  split; [|constructor; [by rewrite Hn|done]]. cbn [List.filter]. rewrite (changed_ok _ _ _ _ _ Ho Hn). by case_bool_decide.
Qed.

Section patches.
Variable host : Host.
Variable lib : Library.

(** A patch that answers with the lead has committed. *)
Lemma patch_success a now raw m v b db :
  shown (patch_lead host lib a now raw m v b db).1 ≠ [] →
  ∃ a' id before db', a = Some a' ∧ BigInt raw = Some id ∧ find_lead id (a_tenantId a') db = Some before ∧
    let p := mkPending id (a_tenantId a') (a_uid a') now before (merged_columns host before b) in
    patch_lead host lib a now raw m v b db = (LLead 200 (apply_patch p before) None (l_version before + 1), db') ∧
    l_version before + 1 <= SMALLINT_MAX ∧ columns_ok db (merged_columns host before b) = true ∧
    committed p before db db'.
Proof.
  intros Hs. unfold patch_lead in Hs |- *. destruct (patch_begin host lib a now raw m v b db) as [r|p] eqn:E;
    [cbn in Hs; by rewrite (patch_begin_inl _ _ _ _ _ _ _ _ _ _ E) in Hs|].
  assert (p = mkPending (pp_id p) (pp_tenantId p) (pp_actor p) now (pp_before p) (merged_columns host (pp_before p) b) ∧
    a_uid <$> a = Some (pp_actor p)) as [Hp Hact].
  { unfold patch_begin in E. repeat case_match; by simplify_eq. }
  apply patch_begin_inr in E as (a' & -> & Ht & Hid & Hf & _). injection Hact as Hact.
  exists a', (pp_id p), (pp_before p). apply find_lead_some in Hf as Hf'. destruct Hf' as (Hl & _).
  destruct (patch_commit_cases p db) as [(r & Hc & Hr)|(l & db' & Hl' & Htl & Hv & Hok & Hc & Hdb)];
    [by rewrite Hc in Hs|].
  rewrite Hl in Hl'. injection Hl' as <-. exists db'.
  do 3 (split; [done|]). cbv zeta. rewrite Hact, <- Ht, <- Hp. split; [exact Hc|]. split; [exact Hv|]. split; [|exact Hdb]. by rewrite Hp in Hok.
Qed.

(** *** The columns of a patch *)

Lemma merged_lookup before b c f :
  (c, f) ∈ PATCH_COLUMNS → c ≠ "customData"%string →
  merged_columns host before b !! c = column_value host f <$> b !! f.
Proof.
  intros Hin Hc. pose proof (copy_fields_lookup host PATCH_COLUMNS b c f patch_columns_nodup Hin) as Hcopy.
  unfold merged_columns. repeat case_match; rewrite ?lookup_insert_ne by done; exact Hcopy.
Qed.

Lemma patched_column before b id tenant actor now c f :
  (c, f) ∈ PATCH_COLUMNS → c ≠ "customData"%string →
  col c (apply_patch (mkPending id tenant actor now before (merged_columns host before b)) before) =
    match b !! f with Some x => column_value host f x | None => col c before end.
Proof.
  intros Hin Hc. unfold col, apply_patch. cbn [l_cols pp_cols]. rewrite lookup_union, (merged_lookup before b c f Hin Hc).
  by destruct (b !! f), (l_cols before !! c).
Qed.


(** The patch sets exactly the columns whose field the body has. *)
Lemma merged_is_some before b c f :
  (c, f) ∈ PATCH_COLUMNS → is_Some (merged_columns host before b !! c) ↔ is_Some (b !! f).
Proof.
  intros Hin. destruct (decide (c = "customData"%string)) as [->|Hne].
  2:{ rewrite (merged_lookup before b c f Hin Hne). by rewrite fmap_is_Some. }
  assert (f = "custom_data"%string) as ->.
  { assert (Forall (λ cf, cf.1 ≠ "customData"%string ∨ cf.2 = "custom_data"%string) PATCH_COLUMNS) as Hall
      by (apply (bool_decide_unpack _); vm_compute; exact I).
    rewrite Forall_forall in Hall. by destruct (Hall _ Hin). }
  pose proof (copy_fields_lookup host PATCH_COLUMNS b _ _ patch_columns_nodup Hin) as Hcopy.
  unfold merged_columns. destruct (b !! "custom_data"%string) as [v|] eqn:Hb.
  - split; [by eexists|]. intros _. destruct v as [| | | | |[]]; rewrite ?lookup_insert_eq, ?Hcopy; by eexists.
  - by rewrite Hcopy.
Qed.

Lemma patch_keys_spec p b before k :
  pp_cols p = merged_columns host before b →
  k ∈ patch_keys p ↔ k = "modifyAt"%string ∨ ∃ f, (k, f) ∈ PATCH_COLUMNS ∧ is_Some (b !! f).
Proof.
  intros Hp. unfold patch_keys. rewrite elem_of_cons, elem_of_filter_list, bool_decide_eq_true, Hp, list_elem_of_fmap.
  split.
  - intros [?|[([c f] & -> & Hin) Hs]]; [by left|right]. exists f. split; [done|]. by apply (merged_is_some before b c f).
  - intros [?|(f & Hin & Hs)]; [by left|right]. split; [by exists (k, f)|]. by apply (merged_is_some before b k f).
Qed.


End patches.


(** ** Where the routes fall short *)

Section shortfalls.
Variable host : Host.
Variable lib : Library.

Lemma diff_err before after keys k :
  k ∈ keys → is_ok (value_text (column_of after k)) = false → is_ok (diffLeadChanges before after keys) = false.
Proof.
  intros Hk Herr. destruct (diffLeadChanges before after keys) as [d|] eqn:Hd; [|done].
  apply diff_spec in Hd as [_ Hall]. rewrite Forall_forall in Hall. by rewrite Hall in Herr.
Qed.

(** A patch that names an owner never takes effect: the audit's comparison of the columns
    throws on the [bigint] of the new owner, which undoes the transaction. *)
Theorem patch_owner_fails a now raw m v b db owner :
  b !! "owner_user_id"%string = Some (VBig owner) →
  shown (patch_lead host lib a now raw m v b db).1 = [] ∧ leads (patch_lead host lib a now raw m v b db).2 = leads db.
Proof.
  intros Hb. unfold patch_lead. destruct (patch_begin host lib a now raw m v b db) as [r|p] eqn:E;
    [split; [by apply (patch_begin_inl _ _ _ _ _ _ _ _ _ _ E)|done]|].
  destruct (patch_commit_cases p db) as [(r & -> & Hr)|(l & db' & _ & _ & _ & _ & _ & Hdb)]; [done|exfalso].
  assert (pp_cols p = merged_columns host (pp_before p) b) as Hcols.
  { unfold patch_begin in E. repeat case_match; by simplify_eq. }
  destruct Hdb as (_ & _ & _ & _ & _ & d & Hd & _).
  assert (("ownerUserId", "owner_user_id")%string ∈ PATCH_COLUMNS) as Hin
    by (apply (bool_decide_unpack _); vm_compute; exact I).
  assert (is_ok (diffLeadChanges (pp_before p) (apply_patch p l) (patch_keys p)) = false) as Herr; [|by rewrite Hd in Herr].
  apply (diff_err _ _ _ "ownerUserId").
  - apply (patch_keys_spec host p b (pp_before p)); [done|]. right. eexists. split; [exact Hin|by eexists].
  - unfold column_of. change (String.eqb "ownerUserId" "modifyAt") with false. cbn iota.
    unfold col, apply_patch. cbn [l_cols]. rewrite lookup_union, Hcols, (merged_lookup host _ b _ _ Hin), Hb by done.
    by destruct (l_cols l !! "ownerUserId"%string).
Qed.

(** A lead at the largest version cannot be patched any more. *)
Theorem patch_version_exhausted a now raw m v b db :
  (∀ id l, leads db !! id = Some l → l_version l = SMALLINT_MAX) →
  shown (patch_lead host lib a now raw m v b db).1 = [].
Proof.
  intros Hmax. destruct (shown _) eqn:E; [done|]. exfalso.
  destruct (patch_success host lib a now raw m v b db) as (a' & id & before & db' & _ & _ & Hf & _ & Hv & _);
    [by rewrite E|]. apply find_lead_some in Hf as (Hl & _). rewrite (Hmax _ _ Hl) in Hv. unfold SMALLINT_MAX in Hv. lia.
Qed.

(** The text of the main number is stored as it came, though it was normalised. *)
Theorem patch_stores_raw_phone a now raw m v b db text :
  b !! "phone_e164"%string = Some (VStr text) →
  shown (patch_lead host lib a now raw m v b db).1 ≠ [] →
  ∃ l db', patch_lead host lib a now raw m v b db = (LLead 200 l None (l_version l), db') ∧
    col "phoneE164" l = VStr text.
Proof.
  intros Hb (a' & id & before & db' & _ & _ & _ & Hp & _)%patch_success. exists (apply_patch (mkPending id (a_tenantId a')
    (a_uid a') now before (merged_columns host before b)) before), db'. split; [exact Hp|].
  rewrite (patched_column host before b _ _ _ _ "phoneE164" "phone_e164")%string;
    [by rewrite Hb|apply (bool_decide_unpack _); vm_compute; exact I|done].
Qed.

(** No request to create leads in bulk that has a row to insert ever inserts one: the
    statement has a marker more in each row than it has columns. *)
Theorem bulk_never_inserts (a : ApiAuth) now server_now list_id rows o db errors valid :
  requirePermission lead_import None (Some a) = None → (1 ≤ length rows ≤ 500)%nat →
  (∃ name, lead_lists db !! list_id = Some (a_tenantId a, name)) →
  prepare_rows host lib list_id 0 rows = (errors, valid) → valid ≠ [] →
  dryRun o = false → (strict o = false ∨ errors = []) →
  bulk_leads host lib (Some a) now server_now list_id rows o db = (LThrown, db).
Proof.
  intros Hperm Hlen (name & Hlist) Hrows Hvalid Hdry Hstrict. unfold bulk_leads, lead_guard. rewrite Hperm.
  rewrite (proj2 (Nat.ltb_ge 500 _)) by lia. rewrite (proj2 (Nat.eqb_neq _ 0)) by lia.
  rewrite Hlist. cbn [from_option fst]. rewrite Z.eqb_refl. cbn [negb]. rewrite Hrows, Hdry.
  assert (strict o && bool_decide (errors ≠ []) = false) as ->.
  { destruct Hstrict as [-> | ->]; [done|]. rewrite bool_decide_false by naive_solver. apply andb_false_r. }
  rewrite bool_decide_false by done. by rewrite executeInsert_none.
Qed.

(** The guard of a route asks for no campaign and no owner: supervisors, whose grants are
    of a group, and agents, whose grants are of their own, are refused everywhere. *)
Lemma scoped_role_refused a verb :
  a_role a = supervisor ∨ a_role a = agent →
  verb ∈ [lead_read; lead_edit; lead_create; lead_delete; lead_import; lead_export] →
  requirePermission verb None (Some a) = Some (mkError 403 "forbidden").
Proof.
  intros Hrole Hverb. unfold requirePermission. cbn [default].
  destruct a as [uid tenant role perms jti totp group campaigns]. cbn in Hrole.
  rewrite !elem_of_cons in Hverb.
  destruct Hrole as [-> | ->]; destruct_or! Hverb; subst; try (by apply not_elem_of_nil in Hverb);
    cbn; unfold Can; cbn; rewrite bool_decide_true by done; reflexivity.
Qed.

Theorem leads_refuse_agents a r db :
  a_role a = supervisor ∨ a_role a = agent → request_auth r = Some a →
  ∃ e, handle host lib r db = (LRefused 403 e, db).
Proof.
  intros Hrole Hr. pose proof (λ v, scoped_role_refused a v Hrole) as Hv.
  destruct r; cbn in Hr; subst; cbn [handle];
    try (eexists; unfold get_lead, lead_calls, lookup_leads, list_leads, export_leads, create_lead, bulk_leads, delete_lead,
           lead_guard; rewrite Hv by set_solver; reflexivity).
  - eexists. unfold patch_lead, patch_begin. rewrite Hv by set_solver. reflexivity.
  - eexists. unfold promote_field, isSuperAdmin. cbn. by destruct Hrole as [-> | ->].
Qed.
End shortfalls.

(** Two patches whose transactions overlap both take effect, though both ask for version 5:
    the write has no condition on the version.  The first's custom member is lost. *)
Definition overlap (k1 k2 : string) : option (LeadResponse * LeadResponse) :=
  let begin k := patch_begin Sample.host Sample.lib (Some (Sample.admin_of 1)) 1746100800000 "1" None (Some 5)
    {[ "custom_data" := VJson (JObj [(k, JNum 1)]) ]}%string Sample.db in
  match begin k1, begin k2 with
  | inr p1, inr p2 => let r1 := patch_commit p1 Sample.db in Some (r1.1, (patch_commit p2 r1.2).1)
  | _, _ => None
  end.

Definition version_and_members (r : LeadResponse) : option (Z * list (string * Json)) :=
  match r with LLead 200 l None v => Some (v, json_members (col "customData" l)) | _ => None end.

Theorem patches_overlap :
  (λ '(r1, r2), (version_and_members r1, version_and_members r2)) <$> overlap "size" "weight" =
  Some (Some (6, [("colour", JStr "red"); ("size", JNum 1)]), Some (7, [("colour", JStr "red"); ("weight", JNum 1)]))%string.
Proof. vm_compute. reflexivity. Qed.

(** Two leads changed in the same millisecond but not the same microsecond: the cursor has
    the millisecond, and the second lead is on no page. *)
Theorem lead_pages_skip :
  let l1 := Sample.lead 1 1 10 1 1746100799007900 "Smith" in
  let l2 := Sample.lead 2 1 10 1 1746100799007100 "Jones" in
  LeadPages.follow Sample.host Sample.lib 3 (Some (Sample.admin_of 1)) (Sample.query 1)
    (mkDb {[ 1 := l1; 2 := l2 ]} 3 {[ 10 := (1, "A"%string) ]} ∅ [] []) = Some [l1].
Proof. vm_compute. reflexivity. Qed.

(** The count of a later page leaves out what the earlier pages showed. *)
Theorem count_follows_cursor :
  let q c := mkLeadQuery None None None None None None None None None None None None false c 1 modify_at_desc None true [] in
  let count c := match (list_leads Sample.host Sample.lib (Some (Sample.admin_of 1)) (q c) Sample.db).1 with
                 | LPage _ _ _ next n => (next, fst <$> n)
                 | _ => (None, None)
                 end in
  (count None).2 = Some 2 ∧ (count (count None).1).2 = Some 1.
Proof. split; vm_compute; reflexivity. Qed.

(** An identifier that is no number is not refused but an error of the server. *)
Theorem bad_id_throws lib a raw ifMatch version now b db :
  BigInt raw = None → requirePermission lead_read None (Some a) = None → requirePermission lead_edit None (Some a) = None →
  (get_lead (Some a) raw "" db).1 = LThrown ∧
  (patch_lead Sample.host lib (Some a) now raw ifMatch version b db).1 = LThrown.
Proof.
  intros Hraw Hr He. split.
  - unfold get_lead, lead_guard, with_id. by rewrite Hr, Hraw.
  - unfold patch_lead, patch_begin. by rewrite He, Hraw.
Qed.
