(* ===== verification/Lists.v ===== *)
(** Lists of leads, [api/src/lists] with its worker [api/src/workers/list-ops.ts]: lists and
    their links to campaigns, the reset, purge and clone of a list in batches, its
    statistics with their cache, and the jobs the large resets and purges become.

    The leads are the table of [Leads], in the field [lead_db]; the names of lists that
    requests on leads see are kept equal to the table of lists.  The server ([Server]) is a
    parameter: the order and the search of texts by its collation, the groups of a [GROUP
    BY], what it counts as affected by an [UPDATE] and the words it reserves. *)

From S2P Require Import Prelude Paging Calendar Jcs JsonText JsNumber Rbac Auth Leads.

#[local] Open Scope Z_scope.

(** ** What the language and the server leave open *)

Record Server := mkServer {
  (** [Number(s)] of other notations than digits and beyond 2^53, [None] when it is no integer *)
  other_number : string → option Z;
  (** the collation *)
  text_eq : string → string → bool;
  text_le : string → string → bool;
  text_contains : string → string → bool;
  (** [SELECT status, COUNT ... GROUP BY status] *)
  group_count : list string → list (string * Z);
  (** the count of an [UPDATE] is of the rows matched, or of those changed *)
  found_rows : bool;
  (** the words that cannot be the name of a column *)
  reserved : string → bool;
}.

(** ** Settings, [schema.ts] *)

Record ListSettings := mkSettings {
  max_attempts : option Z;
  recycle_delay_default : option Z;
  override_tz : option (option string);
  callable_status_codes : option (list string);
}.

Definition DEFAULT_LIST_SETTINGS : ListSettings :=
  mkSettings (Some 5) (Some 600) (Some None) (Some ["NEW"; "NA"; "B"; "CALLBK"]%string).

Definition or_else {A} (o d : option A) : option A := match o with Some _ => o | None => d end.

(** [{ ...settings, ...input.settings }] *)
Definition merge_settings (settings input : ListSettings) : ListSettings :=
  mkSettings (or_else (max_attempts input) (max_attempts settings))
    (or_else (recycle_delay_default input) (recycle_delay_default settings))
    (or_else (override_tz input) (override_tz settings))
    (or_else (callable_status_codes input) (callable_status_codes settings)).

Definition opt_member {A} (k : string) (f : A → Json) (o : option A) : list (string * Json) :=
  match o with Some x => [(k, f x)] | None => [] end.

Definition opt_json {A} (f : A → Json) (o : option A) : Json := from_option f JNull o.

Definition settings_json (s : ListSettings) : Json :=
  JObj (opt_member "max_attempts" JNum (max_attempts s) ++
        opt_member "recycle_delay_default" JNum (recycle_delay_default s) ++
        opt_member "override_tz" (opt_json JStr) (override_tz s) ++
        opt_member "callable_status_codes" (λ l, JArr (JStr <$> l)) (callable_status_codes s)).

(** ** The tables *)

Record ListRow := mkListRow {
  ls_id : Z;
  ls_tenantId : Z;
  ls_name : string;
  ls_description : option string;
  ls_active : bool;
  ls_ownerUserId : option Z;
  ls_callerIdOverride : option string;
  ls_callerIdName : option string;
  ls_settings : ListSettings;
  ls_source : option string;
  ls_resetTime : option Z;
  ls_expiration : option Z;
  ls_createdAt : Z;
  ls_updatedAt : Z;
}.

Record CampaignLink := mkLink { cl_priority : Z; cl_active : bool; cl_createdAt : Z }.

Record ListStats := mkStats {
  st_list_id : Z;
  st_tenant_id : Z;
  st_total : Z;
  st_capped : bool;
  st_by_status : list (string * Z);
  st_recyclable : Z;
  st_callable_now : Z;
  st_cached_at : Z;
}.

Inductive ListOp : Set := op_reset | op_purge.

Record ListJob := mkJob {
  jb_op : ListOp;
  jb_tenantId : Z;
  jb_listId : Z;
  jb_actorUserId : Z;
  jb_requestId : string;
  jb_batchSize : nat;
}.

Inductive ProgressStatus : Set := pending | running | done_ | failed.

Record JobProgress := mkProgress {
  jp_status : ProgressStatus;
  jp_processed : Z;
  jp_total : Z;
  jp_pct : Z;
  jp_started_at : option Z;
  jp_finished_at : option Z;
  jp_error : option string;
}.

Record ListDb := mkListDb {
  lead_db : LeadDb;
  list_rows : gmap Z ListRow;
  next_list : Z;
  links : gmap (Z * string * Z) CampaignLink;
  campaigns : gset (Z * string);
  import_lists : gset Z;
  stats_cache : gmap (Z * Z) (ListStats * Z);
  queue : gmap Z (ListJob * nat);
  next_job : Z;
  progress : gmap Z (JobProgress * Z);
}.

(** Requests on leads see the lists by tenant and name. *)
Definition list_names (rows : gmap Z ListRow) : gmap Z (Z * string) := (λ r, (ls_tenantId r, ls_name r)) <$> rows.

Definition with_lead_db (f : LeadDb → LeadDb) (db : ListDb) : ListDb :=
  mkListDb (f (lead_db db)) (list_rows db) (next_list db) (links db) (campaigns db) (import_lists db) (stats_cache db)
    (queue db) (next_job db) (progress db).

Definition with_lists (rows : gmap Z ListRow) (next : Z) (db : ListDb) : ListDb :=
  let d := lead_db db in
  mkListDb (mkDb (leads d) (next_id d) (list_names rows) (lead_users d) (audits d) (events d)) rows next (links db)
    (campaigns db) (import_lists db) (stats_cache db) (queue db) (next_job db) (progress db).

Definition with_links (l : gmap (Z * string * Z) CampaignLink) (db : ListDb) : ListDb :=
  mkListDb (lead_db db) (list_rows db) (next_list db) l (campaigns db) (import_lists db) (stats_cache db)
    (queue db) (next_job db) (progress db).

Definition with_cache (c : gmap (Z * Z) (ListStats * Z)) (db : ListDb) : ListDb :=
  mkListDb (lead_db db) (list_rows db) (next_list db) (links db) (campaigns db) (import_lists db) c
    (queue db) (next_job db) (progress db).

Definition with_jobs (q : gmap Z (ListJob * nat)) (next : Z) (p : gmap Z (JobProgress * Z)) (db : ListDb) : ListDb :=
  mkListDb (lead_db db) (list_rows db) (next_list db) (links db) (campaigns db) (import_lists db) (stats_cache db)
    q next p.

(** [auditList] *)
Definition auditList (action : string) (tenantId actor listId : Z) (before after : list (string * Value)) (db : ListDb)
    : ListDb := with_lead_db (with_audit (mkAudit action tenantId actor (zs listId) before after)) db.

(** ** Responses *)

Definition Body_json : Type := list (string * Value).

Inductive ListResponse :=
  | LsFail (status : Z) (error : string)
  | LsThrown
  | LsPage (data : list Body_json) (total : Z)
  | LsList (status : Z) (body : Body_json)
  | LsNoContent
  | LsLinks (data : list Body_json)
  | LsLink (status : Z) (body : Body_json)
  | LsStats (stats : ListStats)
  | LsSync (affected : Z)
  | LsQueued (job : Z)
  | LsCloned (body : Body_json) (cloned : Z).

Definition opt_value {A} (f : A → Value) (o : option A) : Value := from_option f VNull o.

Definition serializeList (l : ListRow) : Body_json :=
  [("id", VInt (ls_id l)); ("tenant_id", VInt (ls_tenantId l)); ("name", VStr (ls_name l));
   ("description", opt_value VStr (ls_description l)); ("active", VJson (JBool (ls_active l)));
   ("owner_user_id", opt_value VInt (ls_ownerUserId l));
   ("caller_id_override", opt_value VStr (ls_callerIdOverride l));
   ("caller_id_name", opt_value VStr (ls_callerIdName l)); ("settings", VJson (settings_json (ls_settings l)));
   ("source", opt_value VStr (ls_source l)); ("reset_time", opt_value VDate (ls_resetTime l));
   ("expiration", opt_value VDate (ls_expiration l)); ("created_at", VDate (ls_createdAt l));
   ("updated_at", VDate (ls_updatedAt l))]%string.

Definition serializeCampaignLink (k : Z * string * Z) (l : CampaignLink) : Body_json :=
  [("tenant_id", VInt k.1.1); ("campaign_id", VStr k.1.2); ("list_id", VInt k.2); ("priority", VInt (cl_priority l));
   ("active", VJson (JBool (cl_active l))); ("created_at", VDate (cl_createdAt l))]%string.

(** ** Lists *)

Section service.
Variable server : Server.

Definition find_list (id tenantId : Z) (db : ListDb) : option ListRow :=
  r ← list_rows db !! id; if ls_tenantId r =? tenantId then Some r else None.

(** The unique key of tenant and name, for a row of the identifier. *)
Definition name_taken (tenantId id : Z) (name : string) (db : ListDb) : bool :=
  existsb (λ r, (ls_tenantId r =? tenantId) && negb (ls_id r =? id) && text_eq server name (ls_name r))
    (snd <$> map_to_list (list_rows db)).

Definition BIGINT_MAX : Z := 9223372036854775807.

Definition owner_fits (o : option Z) : bool := from_option (λ n, n <=? BIGINT_MAX) true o.

(** The write of a row: refused by the unique key and by a number beyond the column. *)
Definition put_list (r : ListRow) (next : Z) (db : ListDb) : option ListDb :=
  if name_taken (ls_tenantId r) (ls_id r) (ls_name r) db || negb (owner_fits (ls_ownerUserId r)) then None
  else Some (with_lists (<[ ls_id r := r ]> (list_rows db)) next db).

Record ListQuery := mkListQuery {
  lq_active : option bool;
  lq_owner_user_id : option Z;
  lq_page : nat;
  lq_page_size : nat;
  lq_search : option string;
}.

Definition list_query_where (tenantId : Z) (q : ListQuery) (r : ListRow) : bool :=
  (ls_tenantId r =? tenantId) && when (lq_active q) (λ b, Bool.eqb b (ls_active r)) &&
  when (lq_owner_user_id q) (λ o, bool_decide (ls_ownerUserId r = Some o)) &&
  when_text (lq_search q) (λ s, text_contains server s (ls_name r)).

(** [ORDER BY name] *)
Definition by_name (l : list ListRow) : list ListRow := sort_by (λ a b, text_le server (ls_name a) (ls_name b)) l.

Definition listLists (tenantId : Z) (q : ListQuery) (db : ListDb) : list Body_json * Z :=
  let rows := List.filter (list_query_where tenantId q) (snd <$> map_to_list (list_rows db)) in
  let skip := ((lq_page q - 1) * lq_page_size q)%nat in
  (serializeList <$> take (lq_page_size q) (drop skip (by_name rows)), Z.of_nat (length rows)).

Definition getList (tenantId listId : Z) (db : ListDb) : option Body_json :=
  serializeList <$> find_list listId tenantId db.

Record ListInput := mkListInput {
  li_name : string;
  li_description : option string;
  li_active : bool;
  li_owner_user_id : option Z;
  li_caller_id_override : option string;
  li_caller_id_name : option string;
  li_settings : ListSettings;
}.

Definition createList (tenantId actor now : Z) (input : ListInput) (db : ListDb) : ListResponse * ListDb :=
  let id := next_list db in
  let list := mkListRow id tenantId (li_name input) (li_description input) (li_active input) (li_owner_user_id input)
                (li_caller_id_override input) (li_caller_id_name input) (li_settings input) None None None now now in
  match put_list list (id + 1) db with
  | None => (LsThrown, db)
  | Some db1 =>
      (LsList 201 (serializeList list), auditList "list.created" tenantId actor id [] (serializeList list) db1)
  end.

(** A field of a body: absent, [null], or a value. *)
Definition nullable {A} (input : option (option A)) (existing : option A) : option A := default existing input.

Record ListUpdate := mkListUpdate {
  lu_name : option string;
  lu_description : option (option string);
  lu_active : option bool;
  lu_owner_user_id : option (option Z);
  lu_caller_id_override : option (option string);
  lu_caller_id_name : option (option string);
  lu_settings : option ListSettings;
}.

Definition update_row (now : Z) (input : ListUpdate) (l : ListRow) : ListRow :=
  mkListRow (ls_id l) (ls_tenantId l) (default (ls_name l) (lu_name input))
    (nullable (lu_description input) (ls_description l)) (default (ls_active l) (lu_active input))
    (nullable (lu_owner_user_id input) (ls_ownerUserId l))
    (nullable (lu_caller_id_override input) (ls_callerIdOverride l))
    (nullable (lu_caller_id_name input) (ls_callerIdName l))
    (from_option (merge_settings (ls_settings l)) (ls_settings l) (lu_settings input))
    (ls_source l) (ls_resetTime l) (ls_expiration l) (ls_createdAt l) now.

Definition updateList (tenantId actor now listId : Z) (input : ListUpdate) (db : ListDb) : ListResponse * ListDb :=
  match find_list listId tenantId db with
  | None => (LsFail 404 "LIST_NOT_FOUND", db)
  | Some existing =>
      let updated := update_row now input existing in
      match put_list updated (next_list db) db with
      | None => (LsThrown, db)
      | Some db1 =>
          (LsList 200 (serializeList updated),
           auditList "list.updated" tenantId actor listId (serializeList existing) (serializeList updated) db1)
      end
  end.

(** The foreign keys to a list: of leads and of imports they refuse its deletion, of links
    they delete the link. *)
Definition list_referenced (listId : Z) (db : ListDb) : bool :=
  existsb (λ l, l_listId l =? listId) (all_leads (lead_db db)) || bool_decide (listId ∈ import_lists db).

Definition drop_list (listId : Z) (db : ListDb) : ListDb :=
  with_links (filter (λ kl, kl.1.2 ≠ listId) (links db))
    (with_lists (delete listId (list_rows db)) (next_list db) db).

Definition deleteList (tenantId actor listId : Z) (db : ListDb) : ListResponse * ListDb :=
  match find_list listId tenantId db with
  | None => (LsFail 404 "LIST_NOT_FOUND", db)
  | Some existing =>
      if list_referenced listId db then (LsThrown, db)
      else (LsNoContent, auditList "list.deleted" tenantId actor listId (serializeList existing) [] (drop_list listId db))
  end.

(** ** Campaign assignments *)

(** [WHERE tenantId AND listId ORDER BY priority]. *)
Definition listCampaignAssignments (tenantId listId : Z) (db : ListDb) : list Body_json :=
  (λ kl : Z * string * Z * CampaignLink, serializeCampaignLink kl.1 kl.2) <$>
    sort_by (λ a b, cl_priority a.2 <=? cl_priority b.2)
      (List.filter (λ kl, (kl.1.1.1 =? tenantId) && (kl.1.2 =? listId)) (map_to_list (links db))).

(** The upsert; a new link must name a campaign of the tenant. *)
Definition linkCampaign (tenantId actor now listId : Z) (campaignId : string) (priority : Z) (active : bool) (db : ListDb)
    : ListResponse * ListDb :=
  match find_list listId tenantId db with
  | None => (LsFail 404 "LIST_NOT_FOUND", db)
  | Some _ =>
      let key := (tenantId, campaignId, listId) in
      let existing := links db !! key in
      if bool_decide (existing = None) && negb (bool_decide ((tenantId, campaignId) ∈ campaigns db)) then (LsThrown, db)
      else
        let link := mkLink priority active (from_option cl_createdAt now existing) in
        (LsLink 201 (serializeCampaignLink key link),
         auditList "list.campaign.linked" tenantId actor listId []
           [("campaign_id", VStr campaignId); ("priority", VInt priority); ("active", VJson (JBool active))]%string
           (with_links (<[ key := link ]> (links db)) db))
  end.

Definition updateCampaignLink (tenantId actor listId : Z) (campaignId : string) (priority : option Z)
    (active : option bool) (db : ListDb) : ListResponse * ListDb :=
  let key := (tenantId, campaignId, listId) in
  match links db !! key with
  | None => (LsFail 404 "LINK_NOT_FOUND", db)
  | Some existing =>
      let link := mkLink (default (cl_priority existing) priority) (default (cl_active existing) active)
                    (cl_createdAt existing) in
      (LsLink 200 (serializeCampaignLink key link),
       auditList "list.campaign.updated" tenantId actor listId (serializeCampaignLink key existing)
         (serializeCampaignLink key link) (with_links (<[ key := link ]> (links db)) db))
  end.

Definition unlinkCampaign (tenantId actor listId : Z) (campaignId : string) (db : ListDb) : ListResponse * ListDb :=
  let key := (tenantId, campaignId, listId) in
  match links db !! key with
  | None => (LsFail 404 "LINK_NOT_FOUND", db)
  | Some existing =>
      (LsNoContent,
       auditList "list.campaign.unlinked" tenantId actor listId (serializeCampaignLink key existing) []
         (with_links (delete key (links db)) db))
  end.

(** ** Batches *)

Definition active_in (tenantId listId : Z) (l : Lead) : bool :=
  (l_tenantId l =? tenantId) && (l_listId l =? listId) && bool_decide (l_deletedAt l = None).

(** An [UPDATE] of the rows of a batch: what becomes of a row, whether the row changes, and
    the condition of the query that follows it. *)
Record BulkUpdate := mkBulk {
  bu_set : Lead → Lead;
  bu_changes : Lead → bool;
  bu_seen : Lead → bool;
}.

(** [status = 'NEW', called_count = 0, last_called_at = NULL] *)
Definition reset_lead (l : Lead) : Lead :=
  mkLead (l_id l) (l_tenantId l) (l_listId l) "NEW" 0 (l_version l) (l_deletedAt l) (l_entryAt l) (l_modifyAt l)
    (l_createdAt l) (delete "lastCalledAt"%string (l_cols l)).

Definition reset_changes (l : Lead) : bool :=
  negb (String.eqb (l_status l) "NEW" && (l_calledCount l =? 0) &&
        match col "lastCalledAt" l with VNull => true | _ => false end).

(** [status = 'DELETED', deleted_at = now] *)
Definition purge_lead (now : Z) (l : Lead) : Lead :=
  mkLead (l_id l) (l_tenantId l) (l_listId l) "DELETED" (l_calledCount l) (l_version l) (Some (1000 * now))
    (l_entryAt l) (l_modifyAt l) (l_createdAt l) (l_cols l).

Definition purge_changes (now : Z) (l : Lead) : bool := true.

Definition reset_seen (tenantId listId : Z) (l : Lead) : bool :=
  active_in tenantId listId l && text_eq server "NEW" (l_status l).

Definition purge_seen (tenantId listId now : Z) (l : Lead) : bool :=
  (l_tenantId l =? tenantId) && (l_listId l =? listId) && bool_decide (l_deletedAt l = Some (1000 * now)).

(** [ORDER BY id ASC LIMIT size] *)
Definition batch_of (p : Lead → bool) (cursor : Z) (size : nat) (d : LeadDb) : list Lead :=
  take size (by_id (List.filter (λ l, p l && (cursor <? l_id l)) (all_leads d))).

Definition update_rows (f : Lead → Lead) (rows : list Lead) (d : LeadDb) : LeadDb :=
  with_leads (λ t, foldr (λ l t, <[ l_id l := f l ]> t) t rows) d.

(** The count the server answers. *)
Definition affected (u : BulkUpdate) (rows : list Lead) : nat :=
  if found_rows server then length rows else length (List.filter (bu_changes u) rows).

(** [MAX(id)]; the [LIMIT] is of the one row of the aggregate. *)
Definition max_id (p : Lead → bool) (cursor : Z) (d : LeadDb) : option Z :=
  l_id <$> last (by_id (List.filter (λ l, p l && (cursor <? l_id l)) (all_leads d))).

(** [ORDER BY id ASC LIMIT 1 OFFSET n] *)
Definition row_at (p : Lead → bool) (cursor : Z) (n : nat) (d : LeadDb) : option Z :=
  l_id <$> by_id (List.filter (λ l, p l && (cursor <? l_id l)) (all_leads d)) !! n.

Section batches.
Variable tenantId listId : Z.

(** The loop of the requests; [None] when the fuel is out. *)
Fixpoint sync_loop (fuel : nat) (u : BulkUpdate) (size : nat) (cursor affected_ : Z) (d : LeadDb) : option (Z * LeadDb) :=
  match fuel with
  | O => None
  | S n =>
      let rows := batch_of (active_in tenantId listId) cursor size d in
      let d1 := update_rows (bu_set u) rows d in
      let batchAffected := affected u rows in
      let total := affected_ + Z.of_nat batchAffected in
      if (batchAffected <? size)%nat then Some (total, d1)
      else
        let cursor' := default 0 (max_id (bu_seen u) cursor d1) in
        if cursor' =? 0 then Some (total, d1) else sync_loop n u size cursor' total d1
  end.

(** The steps of an attempt at a job, any of which the server or Valkey may refuse; a batch
    is named by the rounds left to the loop. *)
Inductive JobStep :=
  | at_count | at_start | at_batch (n : nat) | at_cursor (n : nat) | at_progress (n : nat)
  | at_audit | at_cache | at_done | at_failed | at_failed_audit.

(** The loop of the worker, up to the first step that fails; what it then tells is the
    count of the last progress written. *)
Fixpoint worker_loop (fuel : nat) (fails : JobStep → bool) (u : BulkUpdate) (size : nat) (cursor processed : Z) (d : LeadDb)
    : option (Z * bool * LeadDb) :=
  match fuel with
  | O => None
  | S n =>
      if fails (at_batch n) then Some (processed, false, d)
      else
        let rows := batch_of (active_in tenantId listId) cursor size d in
        let d1 := update_rows (bu_set u) rows d in
        let batchAffected := affected u rows in
        let total := processed + Z.of_nat batchAffected in
        let cursor' := if (0 <? batchAffected)%nat
                       then default cursor (row_at (bu_seen u) cursor (batchAffected - 1) d1) else cursor in
        if (0 <? batchAffected)%nat && fails (at_cursor n) || fails (at_progress n) then Some (processed, false, d1)
        else if (batchAffected <? size)%nat then Some (total, true, d1)
        else worker_loop n fails u size cursor' total d1
  end.

Definition sync_reset : BulkUpdate := mkBulk reset_lead reset_changes (reset_seen tenantId listId).
Definition worker_reset : BulkUpdate := mkBulk reset_lead reset_changes (active_in tenantId listId).
Definition purge (now : Z) : BulkUpdate := mkBulk (purge_lead now) (purge_changes now) (purge_seen tenantId listId now).
End batches.

Definition BATCH_SIZE : nat := 1000.
Definition SYNC_THRESHOLD : Z := 10000.

(** A round for each lead and one more. *)
Definition loop_fuel (d : LeadDb) : nat := S (length (all_leads d)).

Definition invalidateStatsCache (tenantId listId : Z) (db : ListDb) : ListDb :=
  with_cache (delete (tenantId, listId) (stats_cache db)) db.

Definition sync_run (u : BulkUpdate) (action : string) (size : nat) (tenantId actor listId : Z) (db : ListDb)
    : ListResponse * ListDb :=
  match sync_loop tenantId listId (loop_fuel (lead_db db)) u size 0 0 (lead_db db) with
  | None => (LsThrown, db)
  | Some (n, d) =>
      (LsSync n,
       invalidateStatsCache tenantId listId
         (auditList action tenantId actor listId [] [("affected", VInt n); ("mode", VStr "sync")]%string
            (with_lead_db (λ _, d) db)))
  end.

Definition resetListSync (tenantId actor listId : Z) (db : ListDb) : ListResponse * ListDb :=
  sync_run (sync_reset tenantId listId) "list.reset.completed" BATCH_SIZE tenantId actor listId db.

Definition purgeListSync (tenantId actor now listId : Z) (db : ListDb) : ListResponse * ListDb :=
  sync_run (purge tenantId listId now) "list.purge.completed" BATCH_SIZE tenantId actor listId db.

(** The count, capped above the threshold. *)
Definition countActiveLeads (tenantId listId : Z) (db : ListDb) : Z :=
  Z.min (Z.of_nat (length (List.filter (active_in tenantId listId) (all_leads (lead_db db))))) (SYNC_THRESHOLD + 1).

(** ** Cloning *)

Definition CLONE_COLUMNS : list string :=
  ["tenant_id"; "list_id"; "status"; "phone_e164"; "phone_alt"; "phone_alt2";
   "country_code"; "title"; "first_name"; "middle_initial"; "last_name";
   "address1"; "address2"; "city"; "state"; "postal_code"; "email";
   "date_of_birth"; "gender"; "comments"; "rank"; "owner_user_id";
   "vendor_lead_code"; "source_id"; "custom_data"; "is_business";
   "called_count"; "entry_at"; "modify_at"; "created_at"; "updated_at"]%string.

(** The columns of the client's names that are copied. *)
Definition CLONED : list string :=
  ["phoneE164"; "phoneAlt"; "phoneAlt2"; "countryCode"; "title"; "firstName"; "middleInitial"; "lastName"; "address1";
   "address2"; "city"; "state"; "postalCode"; "email"; "dateOfBirth"; "gender"; "comments"; "rank"; "ownerUserId";
   "vendorLeadCode"; "sourceId"; "customData"; "isBusiness"]%string.

(** The row an [INSERT ... SELECT] makes of a lead, at the server's instant. *)
Definition clone_lead (newListId server_now id : Z) (l : Lead) : Lead :=
  mkLead id (l_tenantId l) newListId "NEW" 0 1 None server_now server_now server_now
    (filter (λ kv, kv.1 ∈ CLONED) (l_cols l)).

Definition insert_lead (f : Z → Lead → Lead) (d : LeadDb) (l : Lead) : LeadDb :=
  mkDb (<[ next_id d := f (next_id d) l ]> (leads d)) (next_id d + 1) (lead_lists d) (lead_users d) (audits d) (events d).

Definition in_source (tenantId listId : Z) (l : Lead) : bool := (l_tenantId l =? tenantId) && (l_listId l =? listId).

Definition clone_where (tenantId listId : Z) (include_deleted : bool) (l : Lead) : bool :=
  in_source tenantId listId l && (include_deleted || bool_decide (l_deletedAt l = None)).

(** The server parses a statement whose columns are no reserved words. *)
Definition statement_parses (columns : list string) : bool := forallb (λ c, negb (reserved server c)) columns.

(** The loop; a refused statement throws, and what was committed stays. *)
Fixpoint clone_loop (fuel size : nat) (tenantId source newListId server_now : Z) (include_deleted : bool)
    (cursor cloned : Z) (d : LeadDb) : option (Z * LeadDb) :=
  match fuel with
  | O => None
  | S n =>
      if negb (statement_parses CLONE_COLUMNS) then None
      else
        let rows := batch_of (clone_where tenantId source include_deleted) cursor size d in
        let d1 := foldl (insert_lead (clone_lead newListId server_now)) d rows in
        let total := cloned + Z.of_nat (length rows) in
        if (length rows <? size)%nat then Some (total, d1)
        else match row_at (in_source tenantId source) cursor (size - 1) d1 with
             | None => Some (total, d1)
             | Some cursor' => clone_loop n size tenantId source newListId server_now include_deleted cursor' total d1
             end
  end.

Definition clone_row (id tenantId now : Z) (name : string) (description : option string) (source : ListRow) : ListRow :=
  mkListRow id tenantId name (or_else description (ls_description source)) (ls_active source) (ls_ownerUserId source)
    (ls_callerIdOverride source) (ls_callerIdName source) (ls_settings source) (ls_source source) None None now now.

Definition cloneList (tenantId actor now server_now sourceListId : Z) (name : string) (description : option string)
    (include_deleted : bool) (db : ListDb) : ListResponse * ListDb :=
  match find_list sourceListId tenantId db with
  | None => (LsFail 404 "LIST_NOT_FOUND", db)
  | Some source =>
      let newListId := next_list db in
      let created := clone_row newListId tenantId now name description source in
      match put_list created (newListId + 1) db with
      | None => (LsThrown, db)
      | Some db1 =>
          let db2 := auditList "list.cloned" tenantId actor newListId []
                       [("source_list_id", VInt sourceListId); ("new_list_id", VInt newListId)]%string db1 in
          match clone_loop (loop_fuel (lead_db db2)) BATCH_SIZE tenantId sourceListId newListId server_now
                  include_deleted 0 0 (lead_db db2) with
          | None => (LsThrown, db2)
          | Some (cloned, d) => (LsCloned (serializeList created) cloned, with_lead_db (λ _, d) db2)
          end
      end
  end.

(** ** Statistics, [stats.ts] *)

Definition CACHE_TTL_SECONDS : Z := 300.
Definition COUNT_CAP : Z := 1000000.

Definition count_leads (p : Lead → bool) (d : LeadDb) : Z := Z.of_nat (length (List.filter p (all_leads d))).

(** [SELECT COUNT FROM (... LIMIT COUNT_CAP + 1)] *)
Definition capped_count (p : Lead → bool) (d : LeadDb) : Z := Z.min (count_leads p d) (COUNT_CAP + 1).

(** [called_count < maxAttempts AND (last_called_at IS NULL OR last_called_at < recycleAt)];
    a comparison with [NULL] selects nothing. *)
Definition recyclable_lead (maxAttempts : option Z) (recycleAt : Z) (l : Lead) : bool :=
  from_option (λ m, l_calledCount l <? m) false maxAttempts &&
  match col "lastCalledAt" l with VNull => true | VDate t => t <? 1000 * recycleAt | _ => false end.

(** [status IN (codes.join(","))]: one value, of all codes. *)
Definition callable_lead (codes : list string) (l : Lead) : bool := text_eq server (join "," codes) (l_status l).

Definition by_status (tenantId listId : Z) (d : LeadDb) : list (string * Z) :=
  take 200 (group_count server (l_status <$> List.filter (active_in tenantId listId) (all_leads d))).

(** [None] when a setting the queries need is missing: a date that is none is refused, as is
    the length of [undefined]. *)
Definition compute_stats (tenantId listId : Z) (s : ListSettings) (now : Z) (d : LeadDb) : option ListStats :=
  match recycle_delay_default s, callable_status_codes s with
  | Some delay, Some codes =>
      let active := active_in tenantId listId in
      let recycleAt := now - 1000 * delay in
      let rawTotal := capped_count active d in
      let capped := COUNT_CAP <? rawTotal in
      let recyclable l := active l && recyclable_lead (max_attempts s) recycleAt l in
      Some (mkStats listId tenantId (if capped then COUNT_CAP else rawTotal) capped (by_status tenantId listId d)
              (Z.min (capped_count recyclable d) COUNT_CAP)
              (match codes with
               | [] => 0
               | _ => Z.min (capped_count (λ l, recyclable l && callable_lead codes l) d) COUNT_CAP
               end) now)
  | _, _ => None
  end.

(** The entry of a key that has not expired. *)
Definition cached {K V} `{Countable K} (now : Z) (k : K) (m : gmap K (V * Z)) : option V :=
  '(v, expires) ← m !! k; if now <? expires then Some v else None.

Definition getListStats (tenantId listId : Z) (s : ListSettings) (now : Z) (db : ListDb) : ListResponse * ListDb :=
  match cached now (tenantId, listId) (stats_cache db) with
  | Some stats => (LsStats stats, db)
  | None =>
      match compute_stats tenantId listId s now (lead_db db) with
      | None => (LsThrown, db)
      | Some stats =>
          (LsStats stats,
           with_cache (<[ (tenantId, listId) := (stats, now + 1000 * CACHE_TTL_SECONDS) ]> (stats_cache db)) db)
      end
  end.

(** ** Jobs, [jobs.ts] and the worker *)

Definition JOB_PROGRESS_TTL : Z := 3600.

Definition setJobProgress (now jobId : Z) (p : JobProgress) (db : ListDb) : ListDb :=
  with_jobs (queue db) (next_job db) (<[ jobId := (p, now + 1000 * JOB_PROGRESS_TTL) ]> (progress db)) db.

Definition getJobProgress (now jobId : Z) (db : ListDb) : option JobProgress := cached now jobId (progress db).

Definition enqueueListOp (now : Z) (data : ListJob) (db : ListDb) : Z * ListDb :=
  let jobId := next_job db in
  (jobId, setJobProgress now jobId (mkProgress pending 0 0 0 None None None)
            (with_jobs (<[ jobId := (data, 0%nat) ]> (queue db)) (jobId + 1) (progress db) db)).

Definition op_name (op : ListOp) : string := match op with op_reset => "reset" | op_purge => "purge" end.

Definition job_update (now : Z) (j : ListJob) : BulkUpdate :=
  match jb_op j with
  | op_reset => worker_reset (jb_tenantId j) (jb_listId j)
  | op_purge => purge (jb_tenantId j) (jb_listId j) now
  end.

(** [total > 0 ? Math.round((processed / total) * 100) : 100] *)
Definition job_pct (processed total : Z) : Z :=
  if 0 <? total then default 0 (BigInt_num (Math_round (nmul (ndiv (num processed) (num total)) (num 100)))) else 100.

(** The handler of an attempt's errors, which has the message of what failed: a progress
    that cannot be written ends it, an audit that cannot is let go. *)
Definition fail_job (fails : JobStep → bool) (errMsg : string) (finished jobId : Z) (j : ListJob) (db : ListDb) : ListDb :=
  if fails at_failed then db
  else
    let db1 := setJobProgress finished jobId (mkProgress failed 0 0 0 None (Some finished) (Some errMsg)) db in
    if fails at_failed_audit then db1
    else auditList ("list." +:+ op_name (jb_op j) +:+ ".failed") (jb_tenantId j) (jb_actorUserId j) (jb_listId j) []
           [("error", VStr errMsg); ("job_id", VStr (zs jobId))]%string db1.

(** One attempt at a job, [processReset] and [processPurge] with the handler of their
    errors: [true] when it is done.  Progress is written after each batch; what is kept of
    it is the last. *)
Definition run_job (fails : JobStep → bool) (errMsg : string) (now finished : Z) (jobId : Z) (j : ListJob) (db : ListDb) : bool * ListDb :=
  let total := Z.min (count_leads (active_in (jb_tenantId j) (jb_listId j)) (lead_db db)) 5000001 in
  let running_at n pct := setJobProgress now jobId (mkProgress running n total pct (Some now) None None) in
  let fail db := (false, fail_job fails errMsg finished jobId j db) in
  if fails at_count || fails at_start then fail db
  else
    match worker_loop (jb_tenantId j) (jb_listId j) (loop_fuel (lead_db db)) fails (job_update now j) (jb_batchSize j) 0 0
            (lead_db db) with
    | Some (n, true, d) =>
        let db0 := running_at n (job_pct n total) (with_lead_db (λ _, d) db) in
        if fails at_audit then fail db0
        else
          let db1 := auditList ("list." +:+ op_name (jb_op j) +:+ ".completed") (jb_tenantId j) (jb_actorUserId j)
                       (jb_listId j) []
                       [("affected", VInt n); ("mode", VStr "async"); ("job_id", VStr (zs jobId));
                        ("request_id", VStr (jb_requestId j))]%string db0 in
          if fails at_cache then fail db1
          else
            let db2 := invalidateStatsCache (jb_tenantId j) (jb_listId j) db1 in
            if fails at_done then fail db2
            else (true, setJobProgress finished jobId (mkProgress done_ n total 100 (Some now) (Some finished) None) db2)
    | Some (n, false, d) => fail (running_at n (if n =? 0 then 0 else job_pct n total) (with_lead_db (λ _, d) db))
    | None => (false, running_at 0 0 db)
    end.

Definition JOB_ATTEMPTS : nat := 3.

(** An attempt at a queued job; one that failed three times is not tried again. *)
Definition process_job (fails : JobStep → bool) (errMsg : string) (now finished jobId : Z) (db : ListDb) : bool * ListDb :=
  match queue db !! jobId with
  | None => (false, db)
  | Some (j, made) =>
      let '(ok, db1) := run_job fails errMsg now finished jobId j db in
      (ok, with_jobs (if ok || (JOB_ATTEMPTS <=? S made)%nat then delete jobId (queue db1)
                      else <[ jobId := (j, S made) ]> (queue db1)) (next_job db1) (progress db1) db1)
  end.

(** ** Routes, [index.ts] *)

(** [Number(s)] of an integer. *)
Definition Number (s : string) : option Z :=
  match BigInt s with
  | Some n => if Z.abs n <=? 9007199254740991 then Some n else other_number server s
  | None => other_number server s
  end.

Definition checkListPerm (auth : option ApiAuth) (perm : Verb) (db : ListDb) (k : ApiAuth → ListResponse * ListDb)
    : ListResponse * ListDb :=
  match auth with
  | None => (LsFail 401 "not_authenticated", db)
  | Some a =>
      if negb (bool_decide (perm ∈ a_perms a)) && negb (hasPermission (a_role a) perm)
      then (LsFail 403 "forbidden", db) else k a
  end.

(** The identifier of a path. *)
Definition with_list_id (raw : string) (db : ListDb) (k : Z → ListResponse * ListDb) : ListResponse * ListDb :=
  match Number raw with
  | Some id => if id <=? 0 then (LsFail 400 "INVALID_ID", db) else k id
  | None => (LsFail 400 "INVALID_ID", db)
  end.

(** A body the schema refuses is [None]. *)
Definition with_body {A} (error : string) (b : option A) (db : ListDb) (k : A → ListResponse * ListDb)
    : ListResponse * ListDb :=
  match b with Some x => k x | None => (LsFail 400 error, db) end.

Definition lists_route (auth : option ApiAuth) (q : option ListQuery) (db : ListDb) : ListResponse * ListDb :=
  checkListPerm auth list_read db (λ a, with_body "INVALID_QUERY" q db (λ q,
    let '(data, total) := listLists (a_tenantId a) q db in (LsPage data total, db))).

Definition create_route (auth : option ApiAuth) (now : Z) (b : option ListInput) (db : ListDb) : ListResponse * ListDb :=
  checkListPerm auth list_write db (λ a, with_body "INVALID_BODY" b db (λ input,
    createList (a_tenantId a) (a_uid a) now input db)).

Definition get_route (auth : option ApiAuth) (raw : string) (db : ListDb) : ListResponse * ListDb :=
  checkListPerm auth list_read db (λ a, with_list_id raw db (λ id,
    match getList (a_tenantId a) id db with
    | None => (LsFail 404 "LIST_NOT_FOUND", db)
    | Some l => (LsList 200 l, db)
    end)).

Definition update_route (auth : option ApiAuth) (now : Z) (raw : string) (b : option ListUpdate) (db : ListDb)
    : ListResponse * ListDb :=
  checkListPerm auth list_write db (λ a, with_list_id raw db (λ id, with_body "INVALID_BODY" b db (λ input,
    updateList (a_tenantId a) (a_uid a) now id input db))).

Definition delete_route (auth : option ApiAuth) (raw : string) (db : ListDb) : ListResponse * ListDb :=
  checkListPerm auth list_delete db (λ a, with_list_id raw db (λ id, deleteList (a_tenantId a) (a_uid a) id db)).

Definition stats_route (auth : option ApiAuth) (now : Z) (raw : string) (db : ListDb) : ListResponse * ListDb :=
  checkListPerm auth list_read db (λ a, with_list_id raw db (λ id,
    match find_list id (a_tenantId a) db with
    | None => (LsFail 404 "LIST_NOT_FOUND", db)
    | Some l => getListStats (a_tenantId a) id (ls_settings l) now db
    end)).

Definition links_route (auth : option ApiAuth) (raw : string) (db : ListDb) : ListResponse * ListDb :=
  checkListPerm auth list_read db (λ a, with_list_id raw db (λ id,
    (LsLinks (listCampaignAssignments (a_tenantId a) id db), db))).

(** The body of a link: campaign, priority and whether it is active. *)
Definition link_route (auth : option ApiAuth) (now : Z) (raw : string) (b : option (string * Z * bool)) (db : ListDb)
    : ListResponse * ListDb :=
  checkListPerm auth list_write db (λ a, with_list_id raw db (λ id, with_body "INVALID_BODY" b db (λ '(c, p, active),
    linkCampaign (a_tenantId a) (a_uid a) now id c p active db))).

Definition relink_route (auth : option ApiAuth) (raw campaignId : string) (b : option (option Z * option bool)) (db : ListDb)
    : ListResponse * ListDb :=
  checkListPerm auth list_write db (λ a, with_list_id raw db (λ id, with_body "INVALID_BODY" b db (λ '(p, active),
    updateCampaignLink (a_tenantId a) (a_uid a) id campaignId p active db))).

Definition unlink_route (auth : option ApiAuth) (raw campaignId : string) (db : ListDb) : ListResponse * ListDb :=
  checkListPerm auth list_write db (λ a, with_list_id raw db (λ id,
    unlinkCampaign (a_tenantId a) (a_uid a) id campaignId db)).

(** The synchronous operation up to the threshold, a job above it. *)
Definition list_op (op : ListOp) (a : ApiAuth) (now id : Z) (requestId : string) (db : ListDb) : ListResponse * ListDb :=
  match find_list id (a_tenantId a) db with
  | None => (LsFail 404 "LIST_NOT_FOUND", db)
  | Some _ =>
      let count := countActiveLeads (a_tenantId a) id db in
      if count <=? SYNC_THRESHOLD then
        match op with
        | op_reset => resetListSync (a_tenantId a) (a_uid a) id db
        | op_purge => purgeListSync (a_tenantId a) (a_uid a) now id db
        end
      else
        let db1 := auditList ("list." +:+ op_name op +:+ ".queued") (a_tenantId a) (a_uid a) id []
                     [("estimated_count", VInt count)]%string db in
        let '(job, db2) := enqueueListOp now (mkJob op (a_tenantId a) id (a_uid a) requestId 1000) db1 in
        (LsQueued job, db2)
  end.

Definition reset_route (auth : option ApiAuth) (now : Z) (raw requestId : string) (b : option unit) (db : ListDb)
    : ListResponse * ListDb :=
  checkListPerm auth list_reset db (λ a, with_list_id raw db (λ id, with_body "INVALID_BODY" b db (λ _,
    list_op op_reset a now id requestId db))).

Definition purge_route (auth : option ApiAuth) (now : Z) (raw requestId : string) (b : option unit) (db : ListDb)
    : ListResponse * ListDb :=
  checkListPerm auth list_purge db (λ a, with_list_id raw db (λ id, with_body "INVALID_BODY" b db (λ _,
    list_op op_purge a now id requestId db))).

(** The body of a clone: name, description and whether deleted leads are copied. *)
Definition clone_route (auth : option ApiAuth) (now server_now : Z) (raw : string)
    (b : option (string * option string * bool)) (db : ListDb) : ListResponse * ListDb :=
  checkListPerm auth list_write db (λ a, with_list_id raw db (λ id, with_body "INVALID_BODY" b db (λ '(name, d, deleted),
    cloneList (a_tenantId a) (a_uid a) now server_now id name d deleted db))).
End service.
