(* ===== verification/ListBatches.v ===== *)
(** The batches of resets, purges and clones of lists: that the loops end, and what they
    leave against doing the work at once. *)

From stdpp Require Import sorting.
From S2P Require Import Prelude Paging Calendar Jcs JsonText Rbac Auth Leads LeadsTheorems Lists.

#[local] Open Scope Z_scope.

(** ** Rows by identifier *)

Definition wf_ids := LeadPages.wf_ids.

Definition positive_ids (d : LeadDb) : Prop := ∀ id l, leads d !! id = Some l → 0 < id.

Lemma id_le_total (a b : Lead) : (l_id a <=? l_id b) = true ∨ (l_id b <=? l_id a) = true.
Proof. lia. Qed.

Lemma id_le_trans (a b c : Lead) : (l_id a <=? l_id b) = true → (l_id b <=? l_id c) = true → (l_id a <=? l_id c) = true.
Proof. lia. Qed.

Lemma by_id_perm l l' :
  l ≡ₚ l' → separates (λ a b, l_id a <=? l_id b) l → by_id l = by_id l'.
Proof.
  intros Hp Hs. apply (StronglySorted_unique_strong (λ a b, (l_id a <=? l_id b) = true)).
  - intros a b Ha Hb. unfold by_id in Ha, Hb. rewrite elem_of_sort_by in Ha, Hb. rewrite <- Hp in Hb. by apply Hs.
  - apply sort_by_sorted; [apply id_le_total|apply id_le_trans].
  - apply sort_by_sorted; [apply id_le_total|apply id_le_trans].
  - unfold by_id. by rewrite !sort_by_perm.
Qed.

Section table.
Variable d : LeadDb.
Hypothesis Hwf : wf_ids d.

Lemma ids_separate p : separates (λ a b, l_id a <=? l_id b) (List.filter p (all_leads d)).
Proof using Hwf.
  apply separates_filter. intros a b Ha Hb H1 H2. apply (LeadPages.elem_of_all_leads d) in Ha, Hb; [|done..].
  assert (l_id a = l_id b) as He by lia. rewrite He in Ha. congruence.
Qed.

(** The rows a condition selects after a cursor, by identifier. *)
Definition pending_rows (p : Lead → bool) (cursor : Z) (d : LeadDb) : list Lead :=
  by_id (List.filter (λ l, p l && (cursor <? l_id l)) (all_leads d)).

Lemma elem_of_pending p c l : l ∈ pending_rows p c d ↔ leads d !! l_id l = Some l ∧ p l = true ∧ c < l_id l.
Proof using Hwf.
  unfold pending_rows, by_id. rewrite elem_of_sort_by, elem_of_filter_list, (LeadPages.elem_of_all_leads d) by done.
  rewrite andb_true_iff, Z.ltb_lt. tauto.
Qed.

Lemma pending_nodup p c : NoDup (pending_rows p c d).
Proof using Hwf. unfold pending_rows, by_id. rewrite sort_by_perm. by apply NoDup_filter_list, LeadPages.all_leads_nodup. Qed.

Lemma pending_sorted p c : StronglySorted (λ a b, (l_id a <=? l_id b) = true) (pending_rows p c d).
Proof using. apply sort_by_sorted; [apply id_le_total|apply id_le_trans]. Qed.

(** The cursor after a batch: of the rows pending, those of the batch are the ones up to it. *)
Lemma batch_cursor p c size r l :
  last (take size (pending_rows p c d)) = Some r → l ∈ pending_rows p c d →
  l ∈ take size (pending_rows p c d) ↔ l_id l <= l_id r.
Proof using Hwf.
  intros Hr Hl. pose proof (pending_sorted p c) as Hs. pose proof (pending_nodup p c) as Hn.
  rewrite <- (take_drop size (pending_rows p c d)) in Hs, Hn, Hl.
  apply last_Some in Hr as [rows Hrows]. rewrite Hrows in Hs, Hn, Hl |- *. split; intros Hin.
  - apply elem_of_app in Hin as [Hin| ->%list_elem_of_singleton]; [|lia].
    apply StronglySorted_app in Hs as (_ & Hs & _).
    eapply StronglySorted_app_1_elem_of in Hs; [|exact Hin|by apply list_elem_of_singleton]. cbn in Hs. lia.
  - apply elem_of_app in Hl as [?|Hl]; [done|]. exfalso.
    assert (r ∈ rows ++ [r]) as Hrin by (apply elem_of_app; right; by apply list_elem_of_singleton).
    eapply StronglySorted_app_1_elem_of in Hs; [|exact Hrin|exact Hl]. cbn in Hs.
    apply NoDup_app in Hn as (_ & Hn & _). apply (Hn r Hrin).
    assert (l_id l = l_id r) as He by lia.
    assert (l ∈ pending_rows p c d) as Hl'%elem_of_pending
      by (rewrite <- (take_drop size (pending_rows p c d)); apply elem_of_app; by right).
    assert (r ∈ pending_rows p c d) as Hr'%elem_of_pending
      by (rewrite <- (take_drop size (pending_rows p c d)); apply elem_of_app; left; by rewrite Hrows).
    destruct Hl' as [Hl' _], Hr' as [Hr' _]. rewrite He, Hr' in Hl'. by injection Hl' as ->.
Qed.

(** The rows after the cursor of a batch are those it left. *)
Lemma pending_drop p c size r :
  last (take size (pending_rows p c d)) = Some r →
  pending_rows p (l_id r) d = drop size (pending_rows p c d).
Proof using Hwf.
  intros Hr. apply (StronglySorted_unique_strong (λ a b, (l_id a <=? l_id b) = true)).
  - intros a b Ha Hb. assert (b ∈ pending_rows p c d) as Hb'
      by (rewrite <- (take_drop size (pending_rows p c d)); apply elem_of_app; by right).
    apply elem_of_pending in Ha as [Ha _], Hb' as [Hb' _]. intros.
    assert (l_id a = l_id b) as He by lia. rewrite He in Ha. congruence.
  - apply pending_sorted.
  - pose proof (pending_sorted p c) as Hs. rewrite <- (take_drop size (pending_rows p c d)) in Hs.
    by apply StronglySorted_app in Hs as (_ & _ & ?).
  - apply NoDup_Permutation.
    + apply pending_nodup.
    + pose proof (pending_nodup p c) as Hn. rewrite <- (take_drop size (pending_rows p c d)) in Hn.
      by apply NoDup_app in Hn as (_ & _ & ?).
    + intros l.
      assert (r ∈ pending_rows p c d) as Hr'.
      { apply last_Some in Hr as [rows Hrows]. rewrite <- (take_drop size (pending_rows p c d)), Hrows.
        apply elem_of_app; left. apply elem_of_app; right. by apply list_elem_of_singleton. }
      apply elem_of_pending in Hr' as (_ & _ & Hc). split; intros Hl.
      * apply elem_of_pending in Hl as (Hl & Hp & Hgt).
        assert (l ∈ pending_rows p c d) as Hin by (apply elem_of_pending; split_and!; [done|done|lia]).
        pose proof (batch_cursor p c size r l Hr Hin) as Hiff.
        rewrite <- (take_drop size (pending_rows p c d)) in Hin. apply elem_of_app in Hin as [Hin|?]; [|done].
        apply Hiff in Hin. lia.
      * assert (l ∈ pending_rows p c d) as Hin
          by (rewrite <- (take_drop size (pending_rows p c d)); apply elem_of_app; by right).
        pose proof (batch_cursor p c size r l Hr Hin) as Hiff.
        apply elem_of_pending in Hin as (Hl' & Hp & _). apply elem_of_pending. split_and!; [done|done|].
        destruct (Z.lt_ge_cases (l_id r) (l_id l)) as [?|Hle]; [done|]. apply Hiff in Hle.
        pose proof (pending_nodup p c) as Hn. rewrite <- (take_drop size (pending_rows p c d)) in Hn.
        apply NoDup_app in Hn as (_ & Hn & _). by destruct (Hn l Hle).
Qed.
End table.

(** ** Updating a batch *)

(** The rows changed where they stand. *)
Definition map_leads (f : Lead → Lead) : LeadDb → LeadDb := with_leads (fmap f).

Definition keeps_id (f : Lead → Lead) : Prop := ∀ l, l_id (f l) = l_id l.

Lemma map_leads_wf f d : keeps_id f → wf_ids d → wf_ids (map_leads f d).
Proof.
  intros Hf Hwf id l. unfold map_leads, with_leads. cbn [leads]. rewrite lookup_fmap, fmap_Some.
  intros (l0 & Hl & ->). rewrite Hf. by apply Hwf.
Qed.

Lemma map_leads_positive f d : positive_ids d → positive_ids (map_leads f d).
Proof.
  intros Hpos id l. unfold map_leads, with_leads. cbn [leads]. rewrite lookup_fmap, fmap_Some.
  intros (l0 & Hl & _). by apply (Hpos id l0).
Qed.

Lemma map_leads_map f g d : map_leads f (map_leads g d) = map_leads (λ l, f (g l)) d.
Proof. unfold map_leads, with_leads. cbn. f_equal. by rewrite <- map_fmap_compose. Qed.

Lemma map_leads_ext f g d : (∀ id l, leads d !! id = Some l → f l = g l) → map_leads f d = map_leads g d.
Proof. intros H. unfold map_leads, with_leads. f_equal. apply map_fmap_ext. intros id l Hl. by apply (H id). Qed.

Lemma all_leads_map f d : all_leads (map_leads f d) ≡ₚ f <$> all_leads d.
Proof.
  unfold all_leads, map_leads, with_leads. cbn [leads]. rewrite map_to_list_fmap, <- !list_fmap_compose. done.
Qed.

Lemma filter_fmap_list {A B} (f : A → B) (p : B → bool) l :
  List.filter p (f <$> l) = f <$> List.filter (λ x, p (f x)) l.
Proof. induction l as [|x l IH]; cbn; [done|]. destruct (p (f x)); cbn; by rewrite <- IH. Qed.

(** Sorting by identifier does not see a change of the other columns. *)
Lemma by_id_map f l : keeps_id f → by_id (f <$> l) = f <$> by_id l.
Proof.
  intros Hf. unfold by_id. induction l as [|x l IH]; [done|]. rewrite fmap_cons. cbn [sort_by foldr].
  unfold sort_by in IH. rewrite IH. clear IH. induction (foldr _ [] l) as [|y m IHm]; [done|].
  cbn. rewrite !Hf. destruct (l_id x <=? l_id y); [done|]. cbn. by rewrite <- IHm.
Qed.

(** The rows pending in a changed table. *)
Lemma pending_map f p c d :
  keeps_id f → wf_ids d →
  pending_rows p c (map_leads f d) = f <$> pending_rows (λ l, p (f l)) c d.
Proof.
  intros Hf Hwf. unfold pending_rows. rewrite <- by_id_map by done.
  rewrite (by_id_perm _ (List.filter (λ l, p l && (c <? l_id l)) (f <$> all_leads d))).
  - rewrite filter_fmap_list. do 2 f_equal. apply List.filter_ext. intros l. by rewrite Hf.
  - apply filter_perm, all_leads_map.
  - by apply ids_separate, map_leads_wf.
Qed.

Lemma pending_ext p q c d :
  wf_ids d → (∀ l, leads d !! l_id l = Some l → c < l_id l → p l = q l) → pending_rows p c d = pending_rows q c d.
Proof.
  intros Hwf H. unfold pending_rows. f_equal. apply List.filter_ext_in. intros l Hl%list_elem_of_In.
  apply LeadPages.elem_of_all_leads in Hl; [|done]. destruct (Z.ltb_spec c (l_id l)); [|by rewrite !andb_false_r].
  by rewrite H.
Qed.

(** A loop of inserts of changed rows is a map over the rows of their identifiers. *)
Lemma update_rows_map f rows d :
  wf_ids d → keeps_id f → NoDup rows → (∀ l, l ∈ rows → leads d !! l_id l = Some l) →
  update_rows f rows d = map_leads (λ l, if bool_decide (l_id l ∈ l_id <$> rows) then f l else l) d.
Proof.
  intros Hwf Hf Hn Hrows. unfold update_rows, map_leads, with_leads. f_equal. apply map_eq. intros i.
  rewrite lookup_fmap. induction rows as [|r rows IH]; cbn [foldr].
  { by destruct (leads d !! i). }
  apply NoDup_cons in Hn as [Hr Hn]. assert (leads d !! l_id r = Some r) as Hlr by (apply Hrows, list_elem_of_here).
  destruct (decide (i = l_id r)) as [->|Hne].
  - rewrite lookup_insert_eq, Hlr. cbn. rewrite bool_decide_true by apply list_elem_of_here. done.
  - rewrite lookup_insert_ne by done. rewrite IH; [|done|intros l Hl; by apply Hrows, list_elem_of_further].
    destruct (leads d !! i) as [l|] eqn:Hl; cbn; [|done]. f_equal.
    rewrite (bool_decide_ext (l_id l ∈ l_id r :: (l_id <$> rows)) (l_id l ∈ l_id <$> rows)); [done|].
    rewrite elem_of_cons. rewrite (Hwf _ _ Hl). naive_solver.
Qed.

(** ** The work of a loop, at once and up to a cursor *)

(** What a bulk update is for: the change of all rows of a condition. *)
Definition update_all (p : Lead → bool) (f : Lead → Lead) : LeadDb → LeadDb := map_leads (λ l, if p l then f l else l).

(** The same of the rows up to a cursor. *)
Definition update_upto (p : Lead → bool) (f : Lead → Lead) (c : Z) : LeadDb → LeadDb :=
  map_leads (λ l, if p l && (l_id l <=? c) then f l else l).

Section loops.
Variable p : Lead → bool.
Variable f : Lead → Lead.
Variable d0 : LeadDb.
Hypothesis Hf : keeps_id f.
Hypothesis Hwf : wf_ids d0.

Lemma keeps_if (b : Lead → bool) : keeps_id (λ l, if b l then f l else l).
Proof using Hf. intros l. destruct (b l); [apply Hf|done]. Qed.

Lemma upto_wf c : wf_ids (update_upto p f c d0).
Proof using Hf Hwf. apply map_leads_wf; [apply keeps_if|done]. Qed.

(** Rows after the cursor are as they were. *)
Lemma pending_upto q c c' :
  c <= c' → pending_rows q c' (update_upto p f c d0) = pending_rows q c' d0.
Proof using Hf Hwf.
  intros Hc. unfold update_upto. rewrite pending_map by (done || apply keeps_if).
  rewrite (pending_ext _ q c' d0); [|done|].
  - rewrite (Forall_fmap_ext_1 _ id); [by rewrite list_fmap_id|]. apply Forall_forall. intros l Hl.
    apply elem_of_pending in Hl as (_ & _ & ?); [|done]. cbn. by rewrite (proj2 (Z.leb_gt (l_id l) c)), andb_false_r by lia.
  - intros l _ Hl. by rewrite (proj2 (Z.leb_gt (l_id l) c)), andb_false_r by lia.
Qed.

Lemma batch_upto c size : batch_of p c size (update_upto p f c d0) = take size (pending_rows p c d0).
Proof using Hf Hwf.
  change (batch_of p c size (update_upto p f c d0)) with (take size (pending_rows p c (update_upto p f c d0))).
  by rewrite pending_upto.
Qed.

(** A batch with the conditions its rows satisfy. *)
Lemma update_batch c (rows : list Lead) (q : Lead → bool) :
  (∀ l, leads d0 !! l_id l = Some l → l ∈ rows ↔ p l = true ∧ c < l_id l ∧ q l = true) → NoDup rows →
  (∀ l, l ∈ rows → leads d0 !! l_id l = Some l) →
  update_rows f rows (update_upto p f c d0) = map_leads (λ l, if p l && ((l_id l <=? c) || q l) then f l else l) d0.
Proof using Hf Hwf.
  intros Hq Hn Hrows. rewrite update_rows_map; [|apply upto_wf|done|done|].
  - unfold update_upto. rewrite map_leads_map. apply map_leads_ext. intros id l Hl.
    assert (leads d0 !! l_id l = Some l) as Hl' by by rewrite (Hwf _ _ Hl). cbn.
    destruct (p l && (l_id l <=? c)) eqn:E.
    + rewrite bool_decide_false.
      * apply andb_prop in E as [-> ->]. done.
      * intros (r & Hr & Hin)%list_elem_of_fmap.
        assert (leads d0 !! l_id r = Some r) as Hr' by by apply Hrows. apply Hq in Hin; [|done].
        rewrite Hf in Hr. lia.
    + case_bool_decide as Hin.
      * apply list_elem_of_fmap in Hin as (r & Hr & Hin). pose proof (Hrows r Hin) as Hr'. rewrite <- Hr, Hl' in Hr'.
        injection Hr' as <-. apply Hq in Hin as (-> & _ & ->); [|done]. by rewrite orb_true_r.
      * destruct (p l && ((l_id l <=? c) || q l)) eqn:E'; [|done]. exfalso. apply Hin, list_elem_of_fmap. exists l. split; [done|].
        apply andb_prop in E' as [Hp Hor]. rewrite Hp in E. cbn in E. rewrite E in Hor. apply Hq; [done|]. split_and!; [done|lia|done].
  - intros l Hin. pose proof (Hrows l Hin) as Hl. apply Hq in Hin as (_ & Hc & _); [|done].
    unfold update_upto, map_leads, with_leads. cbn [leads]. rewrite lookup_fmap, Hl. cbn.
    by rewrite (proj2 (Z.leb_gt (l_id l) c)), andb_false_r by lia.
Qed.

(** A batch short of its size was the last. *)
Lemma last_batch c size :
  (length (take size (pending_rows p c d0)) < size)%nat →
  update_rows f (take size (pending_rows p c d0)) (update_upto p f c d0) = update_all p f d0.
Proof using Hf Hwf.
  intros Hlen. rewrite length_take in Hlen. rewrite firstn_all2 by lia.
  rewrite (update_batch c _ (λ _, true)).
  - apply map_leads_ext. intros id l _. by rewrite orb_true_r, andb_true_r.
  - intros l Hl. rewrite elem_of_pending by done. tauto.
  - by apply pending_nodup.
  - intros l Hl. by apply elem_of_pending in Hl as [? _].
Qed.

(** A batch moves the cursor to its last row. *)
Lemma next_batch c size r :
  last (take size (pending_rows p c d0)) = Some r →
  c < l_id r ∧ update_rows f (take size (pending_rows p c d0)) (update_upto p f c d0) = update_upto p f (l_id r) d0.
Proof using Hf Hwf.
  intros Hr. assert (r ∈ pending_rows p c d0) as Hin.
  { apply last_Some in Hr as [rows Hrows]. rewrite <- (take_drop size (pending_rows p c d0)), Hrows.
    apply elem_of_app; left. apply elem_of_app; right. by apply list_elem_of_singleton. }
  apply elem_of_pending in Hin as (_ & _ & Hc); [|done]. split; [done|].
  rewrite (update_batch c _ (λ l, l_id l <=? l_id r)).
  - apply map_leads_ext. intros id l _.
    replace ((l_id l <=? c) || (l_id l <=? l_id r)) with (l_id l <=? l_id r) by lia. done.
  - intros l Hl. split.
    + intros Hin. assert (l ∈ pending_rows p c d0) as Hp
        by (rewrite <- (take_drop size (pending_rows p c d0)); apply elem_of_app; by left).
      pose proof (proj1 (batch_cursor d0 Hwf p c size r l Hr Hp) Hin). apply elem_of_pending in Hp as (_ & ? & ?); [|done].
      split_and!; [done|done|lia].
    + intros (Hp & Hcl & Hle). apply (batch_cursor d0 Hwf p c size r l Hr); [|lia]. by apply elem_of_pending.
  - pose proof (pending_nodup d0 Hwf p c) as Hn. rewrite <- (take_drop size (pending_rows p c d0)) in Hn.
    by apply NoDup_app in Hn as [? _].
  - intros l Hl. assert (l ∈ pending_rows p c d0) as Hp
      by (rewrite <- (take_drop size (pending_rows p c d0)); apply elem_of_app; by left).
    by apply elem_of_pending in Hp as [? _].
Qed.
End loops.

Lemma update_upto_zero p f d : wf_ids d → positive_ids d → update_upto p f 0 d = d.
Proof.
  intros Hwf Hpos. unfold update_upto. rewrite (map_leads_ext _ id).
  - unfold map_leads, with_leads. rewrite map_fmap_id. by destruct d.
  - intros id l Hl. rewrite (proj2 (Z.leb_gt (l_id l) 0)), andb_false_r; [done|].
    rewrite (Hwf _ _ Hl). by eapply Hpos.
Qed.

(** The rows up to the last of a batch are the batch. *)
Lemma pending_batch p c size d r :
  wf_ids d → last (take size (pending_rows p c d)) = Some r →
  pending_rows (λ l, p l && (l_id l <=? l_id r)) c d = take size (pending_rows p c d).
Proof.
  intros Hwf Hr.
  assert (∀ l, l ∈ take size (pending_rows p c d) → l ∈ pending_rows p c d) as Hin.
  { intros l Hl. rewrite <- (take_drop size (pending_rows p c d)). apply elem_of_app. by left. }
  apply (StronglySorted_unique_strong (λ a b, (l_id a <=? l_id b) = true)).
  - intros a b Ha Hb%Hin. apply elem_of_pending in Ha as [Ha _], Hb as [Hb _]; [|done..]. intros.
    assert (l_id a = l_id b) as He by lia. rewrite He in Ha. congruence.
  - apply pending_sorted.
  - pose proof (pending_sorted d p c) as Hs. rewrite <- (take_drop size (pending_rows p c d)) in Hs.
    by apply StronglySorted_app in Hs as (_ & ? & _).
  - apply NoDup_Permutation.
    + by apply pending_nodup.
    + pose proof (pending_nodup d Hwf p c) as Hn. rewrite <- (take_drop size (pending_rows p c d)) in Hn.
      by apply NoDup_app in Hn as (? & _).
    + intros l. split; intros Hl.
      * apply elem_of_pending in Hl as (Hl & [Hp Hle]%andb_prop & Hc); [|done].
        apply (batch_cursor d Hwf p c size r l Hr); [by apply elem_of_pending|lia].
      * pose proof (Hin l Hl) as Hp. apply (batch_cursor d Hwf p c size r l Hr) in Hl; [|done].
        apply elem_of_pending in Hp as (? & Hp & ?); [|done]. apply elem_of_pending; [done|].
        rewrite Hp. split_and!; [done|cbn; lia|done].
Qed.

Lemma active_in_iff t li l :
  active_in t li l = true ↔ l_tenantId l = t ∧ l_listId l = li ∧ l_deletedAt l = None.
Proof. unfold active_in. rewrite !andb_true_iff, bool_decide_eq_true, !Z.eqb_eq. tauto. Qed.

(** ** The loops *)

Section runs.
Variable server : Server.
Variable t li : Z.

#[local] Abbreviation p := (active_in t li).

(** A cursor query that finds the last row of a full batch. *)
Definition finds_last (u : BulkUpdate) (size : nat) (d0 : LeadDb) : Prop :=
  ∀ c r, last (take size (pending_rows p c d0)) = Some r → length (take size (pending_rows p c d0)) = size →
  pending_rows (bu_seen u) c (update_upto p (bu_set u) (l_id r) d0) !! (size - 1)%nat = Some (bu_set u r).

(** Every row of a batch is counted. *)
Definition counts_rows (u : BulkUpdate) : Prop := ∀ rows, affected server u rows = length rows.

Lemma full_batch_last {A} size (l : list A) :
  (1 ≤ size)%nat → length (take size l) = size → ∃ r, last (take size l) = Some r ∧ l !! (size - 1)%nat = Some r.
Proof.
  intros Hs Hlen. destruct (last (take size l)) as [r|] eqn:Hr.
  - exists r. split; [done|]. rewrite last_lookup, Hlen in Hr.
    rewrite lookup_take_lt in Hr by lia. by replace (size - 1)%nat with (pred size) by lia.
  - apply last_None in Hr. rewrite Hr in Hlen. cbn in Hlen. lia.
Qed.

Section one.
Variable u : BulkUpdate.
Variable size : nat.
Variable d0 : LeadDb.
Hypothesis Hu : keeps_id (bu_set u).
Hypothesis Hwf : wf_ids d0.
Hypothesis Hsize : (1 ≤ size)%nat.

(** The worker's loop, without failures, does the whole work and ends. *)
Lemma worker_loop_all fuel c n :
  counts_rows u → finds_last u size d0 → (length (pending_rows p c d0) < fuel)%nat →
  worker_loop server t li fuel (λ _, false) u size c n (update_upto p (bu_set u) c d0) =
    Some (n + Z.of_nat (length (pending_rows p c d0)), true, update_all p (bu_set u) d0).
Proof using Hu Hwf Hsize.
  intros Hcount Hlast. revert c n. induction fuel as [|fuel IH]; intros c n Hfuel; [lia|]. cbn [worker_loop].
  rewrite batch_upto, Hcount by done. rewrite andb_false_r. cbn [orb]. set (rows := take size (pending_rows p c d0)).
  destruct (Nat.ltb_spec (length rows) size) as [Hlt|Hge].
  - subst rows. rewrite last_batch by done. rewrite length_take in Hlt |- *. do 3 f_equal. lia.
  - assert (length rows = size) as Hlen by (subst rows; rewrite length_take in Hge |- *; lia).
    destruct (full_batch_last size (pending_rows p c d0) Hsize Hlen) as (r & Hr & _).
    destruct (next_batch p (bu_set u) d0 Hu Hwf c size r Hr) as [_ Hd1]. fold rows in Hd1. rewrite Hd1, Hlen.
    rewrite (proj2 (Nat.ltb_lt 0 size)) by lia.
    assert (row_at (bu_seen u) c (size - 1) (update_upto p (bu_set u) (l_id r) d0) = Some (l_id r)) as ->.
    { pose proof (Hlast c r Hr Hlen) as Hl. unfold row_at. unfold pending_rows in Hl. rewrite Hl. cbn. by rewrite Hu. }
    cbv zeta. cbn [default from_option id]. pose proof (pending_drop d0 Hwf p c size r Hr) as Hdrop.
    assert (length (pending_rows p (l_id r) d0) = (length (pending_rows p c d0) - size)%nat) as Hpend
      by (rewrite Hdrop; apply length_drop).
    subst rows. rewrite length_take in Hlen. rewrite IH by lia. do 3 f_equal. lia.
Qed.

(** The worker's loop, whatever fails: it ends, with the whole work or the work on some of
    the rows done. *)
Lemma worker_loop_any fails fuel c n :
  counts_rows u → finds_last u size d0 → (length (pending_rows p c d0) < fuel)%nat →
  ∃ m (ok : bool) d', worker_loop server t li fuel fails u size c n (update_upto p (bu_set u) c d0) = Some (m, ok, d') ∧
    if ok then d' = update_all p (bu_set u) d0
    else ∃ b : Lead → bool, d' = map_leads (λ l, if p l && b l then bu_set u l else l) d0.
Proof using Hu Hwf Hsize.
  intros Hcount Hlast. revert c n. induction fuel as [|fuel IH]; intros c n Hfuel; [lia|]. cbn [worker_loop].
  destruct (fails (at_batch fuel)); [do 3 eexists; split; [reflexivity|]; by exists (λ l, l_id l <=? c)|].
  rewrite batch_upto, Hcount by done. set (rows := take size (pending_rows p c d0)).
  destruct ((0 <? length rows)%nat && fails (at_cursor fuel) || fails (at_progress fuel)).
  { destruct (Nat.ltb_spec (length rows) size) as [Hlt|Hge].
    - subst rows. rewrite last_batch by done. do 3 eexists. split; [reflexivity|].
      exists (λ _, true). apply map_leads_ext. intros. by rewrite andb_true_r.
    - assert (length rows = size) as Hlen by (subst rows; rewrite length_take in Hge |- *; lia).
      destruct (full_batch_last size (pending_rows p c d0) Hsize Hlen) as (r & Hr & _).
      destruct (next_batch p (bu_set u) d0 Hu Hwf c size r Hr) as [_ Hd1]. fold rows in Hd1. rewrite Hd1.
      do 3 eexists. split; [reflexivity|]. by exists (λ l, l_id l <=? l_id r). }
  destruct (Nat.ltb_spec (length rows) size) as [Hlt|Hge].
  - subst rows. rewrite last_batch by done. do 3 eexists. by split.
  - assert (length rows = size) as Hlen by (subst rows; rewrite length_take in Hge |- *; lia).
    destruct (full_batch_last size (pending_rows p c d0) Hsize Hlen) as (r & Hr & _).
    destruct (next_batch p (bu_set u) d0 Hu Hwf c size r Hr) as [_ Hd1]. fold rows in Hd1. rewrite Hd1, Hlen.
    rewrite (proj2 (Nat.ltb_lt 0 size)) by lia.
    assert (row_at (bu_seen u) c (size - 1) (update_upto p (bu_set u) (l_id r) d0) = Some (l_id r)) as ->.
    { pose proof (Hlast c r Hr Hlen) as Hl. unfold row_at. unfold pending_rows in Hl. rewrite Hl. cbn. by rewrite Hu. }
    cbv zeta. cbn [default from_option id]. apply IH. rewrite (pending_drop d0 Hwf p c size r Hr), length_drop.
    subst rows. rewrite length_take in Hlen. lia.
Qed.

(** The loop of a request, the same. *)
Lemma sync_loop_all fuel c n :
  counts_rows u →
  (∀ c r, last (take size (pending_rows p c d0)) = Some r → length (take size (pending_rows p c d0)) = size →
     last (pending_rows (bu_seen u) c (update_upto p (bu_set u) (l_id r) d0)) = Some (bu_set u r)) →
  (∀ l, l ∈ pending_rows p c d0 → 0 < l_id l) → (length (pending_rows p c d0) < fuel)%nat →
  sync_loop server t li fuel u size c n (update_upto p (bu_set u) c d0) =
    Some (n + Z.of_nat (length (pending_rows p c d0)), update_all p (bu_set u) d0).
Proof using Hu Hwf Hsize.
  intros Hcount Hlast. revert c n. induction fuel as [|fuel IH]; intros c n Hpos Hfuel; [lia|]. cbn [sync_loop].
  rewrite batch_upto, Hcount by done. set (rows := take size (pending_rows p c d0)).
  destruct (Nat.ltb_spec (length rows) size) as [Hlt|Hge].
  - subst rows. rewrite last_batch by done. rewrite length_take in Hlt |- *. do 2 f_equal. lia.
  - assert (length rows = size) as Hlen by (subst rows; rewrite length_take in Hge |- *; lia).
    destruct (full_batch_last size (pending_rows p c d0) Hsize Hlen) as (r & Hr & Hrin).
    destruct (next_batch p (bu_set u) d0 Hu Hwf c size r Hr) as [Hc Hd1]. fold rows in Hd1. rewrite Hd1, Hlen.
    assert (max_id (bu_seen u) c (update_upto p (bu_set u) (l_id r) d0) = Some (l_id r)) as ->.
    { pose proof (Hlast c r Hr Hlen) as Hl. unfold max_id. unfold pending_rows in Hl. rewrite Hl. cbn. by rewrite Hu. }
    cbv zeta. cbn [default from_option id].
    assert (0 < l_id r) as Hposr by by eapply Hpos, list_elem_of_lookup_2.
    rewrite (proj2 (Z.eqb_neq (l_id r) 0)) by lia.
    pose proof (pending_drop d0 Hwf p c size r Hr) as Hdrop.
    assert (length (pending_rows p (l_id r) d0) = (length (pending_rows p c d0) - size)%nat) as Hpend
      by (rewrite Hdrop; apply length_drop).
    subst rows. rewrite length_take in Hlen. rewrite IH; [do 2 f_equal; lia| |lia].
    intros l Hl. apply Hpos. rewrite <- (take_drop size (pending_rows p c d0)), <- Hdrop. apply elem_of_app. by right.
Qed.

(** A list shorter than a batch takes one round, whatever the server counts. *)
Lemma sync_loop_short fuel :
  positive_ids d0 → (length (pending_rows p 0 d0) < size)%nat →
  sync_loop server t li (S fuel) u size 0 0 d0 =
    Some (Z.of_nat (affected server u (pending_rows p 0 d0)), update_all p (bu_set u) d0).
Proof using Hu Hwf Hsize.
  intros Hpos Hlen. cbn [sync_loop].
  change (batch_of p 0 size d0) with (take size (pending_rows p 0 d0)).
  assert (length (take size (pending_rows p 0 d0)) < size)%nat as Hb by (rewrite length_take; lia).
  pose proof (last_batch p (bu_set u) d0 Hu Hwf 0 size Hb) as Hall. rewrite update_upto_zero in Hall by done.
  rewrite Hall, firstn_all2 by lia.
  assert ((affected server u (pending_rows p 0 d0) < size)%nat) as Haff.
  { unfold affected. destruct (found_rows server); [done|].
    pose proof (List.filter_length_le (bu_changes u) (pending_rows p 0 d0)). lia. }
  by rewrite (proj2 (Nat.ltb_lt _ _) Haff), Z.add_0_l.
Qed.
End one.

(** *** The cursors of a purge *)

Definition none_deleted_at (now : Z) (d : LeadDb) : Prop :=
  ∀ id l, leads d !! id = Some l → l_tenantId l = t → l_listId l = li → l_deletedAt l ≠ Some (1000 * now).

Lemma purge_keeps_id now : keeps_id (purge_lead now).
Proof. by intros l. Qed.

Lemma purge_counts now : counts_rows (purge t li now).
Proof.
  intros rows. unfold affected. destruct (found_rows server); [done|].
  by rewrite (filter_all (bu_changes (purge t li now)) rows).
Qed.

(** The rows deleted at this instant after the cursor are those of the batch. *)
Lemma purge_seen_batch now size d0 c r :
  wf_ids d0 → none_deleted_at now d0 → last (take size (pending_rows p c d0)) = Some r →
  pending_rows (purge_seen t li now) c (update_upto p (purge_lead now) (l_id r) d0) =
    purge_lead now <$> take size (pending_rows p c d0).
Proof.
  intros Hwf Hnone Hr. unfold update_upto.
  rewrite pending_map by (done || apply keeps_if, purge_keeps_id).
  rewrite (pending_ext _ (λ l, p l && (l_id l <=? l_id r)) c d0); [|done|].
  - rewrite (pending_batch p c size d0 r) by done. apply list_fmap_ext. intros i l Hl%list_elem_of_lookup_2.
    assert (l ∈ pending_rows p c d0) as Hin
      by (rewrite <- (take_drop size (pending_rows p c d0)); apply elem_of_app; by left).
    apply (batch_cursor d0 Hwf p c size r l Hr) in Hl; [|done]. apply elem_of_pending in Hin as (_ & -> & _); [|done].
    by rewrite (proj2 (Z.leb_le _ _)) by lia.
  - intros l Hl Hc. destruct (p l && (l_id l <=? l_id r)) eqn:E.
    + apply andb_prop in E as [(Ht & Hli & _)%active_in_iff _]. unfold purge_seen. cbn.
      by rewrite Ht, Hli, !Z.eqb_refl, bool_decide_true.
    + unfold purge_seen. destruct (Z.eqb_spec (l_tenantId l) t); [|done]. destruct (Z.eqb_spec (l_listId l) li); [|done].
      cbn. apply bool_decide_false. by apply (Hnone (l_id l) l).
Qed.

Lemma purge_finds_last now size d0 :
  wf_ids d0 → none_deleted_at now d0 → (1 ≤ size)%nat → finds_last (purge t li now) size d0.
Proof.
  intros Hwf Hnone Hsize c r Hr Hlen. cbn [bu_seen bu_set purge]. rewrite (purge_seen_batch now size d0 c r) by done.
  destruct (full_batch_last size _ Hsize Hlen) as (r' & Hr' & Hl). rewrite Hr in Hr'. injection Hr' as <-.
  rewrite list_lookup_fmap, lookup_take_lt by lia. by rewrite Hl.
Qed.

Lemma purge_last now size d0 c r :
  wf_ids d0 → none_deleted_at now d0 → last (take size (pending_rows p c d0)) = Some r →
  last (pending_rows (bu_seen (purge t li now)) c (update_upto p (bu_set (purge t li now)) (l_id r) d0)) =
    Some (bu_set (purge t li now) r).
Proof.
  intros Hwf Hnone Hr. cbn [bu_seen bu_set purge]. rewrite (purge_seen_batch now size d0 c r) by done.
  by rewrite fmap_last, Hr.
Qed.

(** *** The cursors of a reset *)

Lemma reset_keeps_id : keeps_id reset_lead.
Proof. by intros l. Qed.

(** A lead stays active when it is reset. *)
Lemma reset_active l : p (reset_lead l) = p l.
Proof. done. Qed.

Lemma reset_finds_last size d0 :
  wf_ids d0 → (1 ≤ size)%nat → finds_last (worker_reset t li) size d0.
Proof.
  intros Hwf Hsize c r Hr Hlen. cbn [bu_seen bu_set worker_reset]. unfold update_upto.
  rewrite pending_map by (done || apply keeps_if, reset_keeps_id).
  rewrite (pending_ext _ p c d0); [|done|intros l _ _; by destruct (p l && _)].
  destruct (full_batch_last size _ Hsize Hlen) as (r' & Hr' & Hl). rewrite Hr in Hr'. injection Hr' as <-.
  rewrite list_lookup_fmap, Hl. cbn.
  apply list_elem_of_lookup_2, elem_of_pending in Hl as (_ & -> & _); [|done]. by rewrite Z.leb_refl.
Qed.

(** The last of the rows by identifier. *)
Lemma last_greatest q c d z :
  wf_ids d → z ∈ pending_rows q c d → (∀ l, l ∈ pending_rows q c d → l_id l <= l_id z) →
  l_id <$> last (pending_rows q c d) = Some (l_id z).
Proof.
  intros Hwf Hz Hmax. destruct (last (pending_rows q c d)) as [y|] eqn:Hy.
  - apply last_Some in Hy as [rows Hy]. pose proof (pending_sorted d q c) as Hs. rewrite Hy in Hs, Hz, Hmax.
    cbn. f_equal. apply Z.le_antisymm; [apply Hmax, elem_of_app; right; by apply list_elem_of_singleton|].
    apply elem_of_app in Hz as [Hz| ->%list_elem_of_singleton]; [|done].
    eapply StronglySorted_app_1_elem_of in Hs; [|exact Hz|by apply list_elem_of_singleton]. cbn in Hs. lia.
  - apply last_None in Hy. rewrite Hy in Hz. by apply not_elem_of_nil in Hz.
Qed.

Lemma greatest_last q c d z :
  wf_ids d → last (pending_rows q c d) = Some z → ∀ l, l ∈ pending_rows q c d → l_id l <= l_id z.
Proof.
  intros Hwf [rows Hz]%last_Some l Hl. pose proof (pending_sorted d q c) as Hs. rewrite Hz in Hs, Hl.
  apply elem_of_app in Hl as [Hl| ->%list_elem_of_singleton]; [|done].
  eapply StronglySorted_app_1_elem_of in Hs; [|exact Hl|by apply list_elem_of_singleton]. cbn in Hs. lia.
Qed.

(** The cursor of the request's reset is the newest lead in status [NEW], wherever it is. *)
Lemma reset_jumps size d0 z fuel :
  wf_ids d0 → positive_ids d0 → (1 ≤ size)%nat → (size < length (pending_rows p 0 d0))%nat →
  last (pending_rows p 0 d0) = Some z → text_eq server "NEW" (l_status z) = true →
  ∃ n, 0 <= n <= Z.of_nat size ∧
    sync_loop server t li (S (S fuel)) (sync_reset server t li) size 0 0 d0 =
      Some (n, update_rows reset_lead (take size (pending_rows p 0 d0)) d0).
Proof.
  intros Hwf Hpos Hsize Hlen Hz Hnew.
  set (rows := take size (pending_rows p 0 d0)).
  assert (affected server (sync_reset server t li) rows ≤ size)%nat as Haff.
  { unfold affected. assert (length rows ≤ size)%nat by (subst rows; rewrite length_take; lia).
    destruct (found_rows server); [done|]. pose proof (List.filter_length_le (bu_changes (sync_reset server t li)) rows). lia. }
  exists (Z.of_nat (affected server (sync_reset server t li) rows)). split; [lia|]. rename Hlen into Hgt.
  assert (length rows = size) as Hlen by (subst rows; rewrite length_take; lia).
  destruct (full_batch_last size (pending_rows p 0 d0) Hsize Hlen) as (r & Hr & Hrin).
  destruct (next_batch p reset_lead d0 reset_keeps_id Hwf 0 size r Hr) as [Hc Hd1].
  fold rows in Hd1. rewrite update_upto_zero in Hd1 by done.
  cbn [sync_loop]. change (batch_of p 0 size d0) with rows. cbn [bu_set bu_seen sync_reset]. rewrite Hd1, Z.add_0_l.
  destruct (Nat.ltb_spec (affected server (sync_reset server t li) rows) size) as [|Hge]; [done|].
  assert (z ∈ pending_rows p 0 d0) as Hzin by (apply last_Some in Hz as [? ->]; apply elem_of_app; right; by apply list_elem_of_singleton).
  pose proof (proj1 (elem_of_pending d0 Hwf p 0 z) Hzin) as (Hzl & Hzp & Hz0).
  assert (l_id r < l_id z) as Hrz.
  { destruct (Z.lt_ge_cases (l_id r) (l_id z)) as [|Hle]; [done|]. exfalso.
    apply (batch_cursor d0 Hwf p 0 size r z Hr Hzin) in Hle.
    pose proof (pending_nodup d0 Hwf p 0) as Hn. rewrite <- (take_drop size (pending_rows p 0 d0)) in Hn.
    apply NoDup_app in Hn as (_ & Hn & _). apply (Hn z Hle).
    rewrite <- (take_drop size (pending_rows p 0 d0)), last_app in Hz.
    destruct (last (drop size (pending_rows p 0 d0))) as [y|] eqn:Hy; [injection Hz as ->|].
    - apply last_Some in Hy as [? ->]. apply elem_of_app. right. by apply list_elem_of_singleton.
    - apply last_None in Hy. apply (f_equal length) in Hy. rewrite length_drop in Hy. cbn in Hy. lia. }
  assert (max_id (reset_seen server t li) 0 (update_upto p reset_lead (l_id r) d0) = Some (l_id z)) as ->.
  { apply last_greatest; [by apply upto_wf|..].
    - apply elem_of_pending; [by apply upto_wf|]. split_and!; [|unfold reset_seen; by rewrite Hzp, Hnew|done].
      unfold update_upto, map_leads, with_leads. cbn [leads]. rewrite lookup_fmap, Hzl. cbn.
      by rewrite (proj2 (Z.leb_gt (l_id z) (l_id r))), andb_false_r by lia.
    - intros l (Hl & [Hp _]%andb_prop & Hl0)%elem_of_pending; [|by apply upto_wf].
      revert Hl Hp Hl0. unfold update_upto, map_leads, with_leads. cbn [leads].
      rewrite lookup_fmap, fmap_Some. intros (l0 & Hl & ->).
      rewrite (keeps_if reset_lead reset_keeps_id (λ x, p x && (l_id x <=? l_id r)) l0) in Hl |- *.
      intros Hp Hl0. apply (greatest_last p 0 d0 z Hwf Hz). apply elem_of_pending; [done|]. split_and!; [done| |done].
      by destruct (p l0 && _). }
  cbn [default from_option id]. rewrite (proj2 (Z.eqb_neq (l_id z) 0)) by lia.
  assert (batch_of p (l_id z) size (update_upto p reset_lead (l_id r) d0) = []) as ->.
  { change (batch_of p (l_id z) size (update_upto p reset_lead (l_id r) d0))
      with (take size (pending_rows p (l_id z) (update_upto p reset_lead (l_id r) d0))).
    rewrite pending_upto by (done || lia). rewrite (elem_of_nil_inv (pending_rows p (l_id z) d0)); [apply take_nil|].
    intros l (Hl & Hp & Hafter)%elem_of_pending; [|done]. assert (l ∈ pending_rows p 0 d0) as Hin
      by (apply elem_of_pending; [done|]; split_and!; [done|done|lia]).
    pose proof (greatest_last p 0 d0 z Hwf Hz l Hin). lia. }
  assert (affected server (sync_reset server t li) [] = 0%nat) as -> by (unfold affected; by destruct (found_rows server)).
  rewrite (proj2 (Nat.ltb_lt 0 size)) by lia. by rewrite Z.add_0_r.
Qed.
End runs.

(** ** Clones *)

Definition below_next (d : LeadDb) : Prop := ∀ id l, leads d !! id = Some l → id < next_id d.

(** Rows inserted with the next identifiers. *)
Section inserts.
Variable f : Z → Lead → Lead.
Hypothesis Hf : ∀ i l, l_id (f i l) = i.

Definition insert_all (rows : list Lead) (d : LeadDb) : LeadDb := foldl (insert_lead f) d rows.

Lemma next_free d : below_next d → leads d !! next_id d = None.
Proof. intros Hb. destruct (leads d !! next_id d) eqn:E; [|done]. apply Hb in E. lia. Qed.

Lemma insert_lead_wf d l : wf_ids d → below_next d → wf_ids (insert_lead f d l) ∧ below_next (insert_lead f d l).
Proof using Hf.
  intros Hwf Hb. split; intros id x; cbn; intros [[<- <-]|[_ Hx]]%lookup_insert_Some.
  - apply Hf.
  - by apply Hwf.
  - lia.
  - apply Hb in Hx. lia.
Qed.

Lemma insert_lead_pending q c d l :
  wf_ids d → below_next d → (∀ i x, q (f i x) = false) → pending_rows q c (insert_lead f d l) = pending_rows q c d.
Proof using Hf.
  intros Hwf Hb Hq. unfold pending_rows. apply by_id_perm.
  - assert (all_leads (insert_lead f d l) ≡ₚ f (next_id d) l :: all_leads d) as Hp.
    { unfold all_leads, insert_lead. cbn [leads]. by rewrite map_to_list_insert by by apply next_free. }
    rewrite (filter_perm _ _ _ Hp). cbn. by rewrite Hq.
  - apply ids_separate. by apply insert_lead_wf.
Qed.

Lemma insert_all_spec rows d :
  wf_ids d → below_next d →
  wf_ids (insert_all rows d) ∧ below_next (insert_all rows d) ∧
  next_id (insert_all rows d) = next_id d + Z.of_nat (length rows) ∧
  (∀ id, id < next_id d → leads (insert_all rows d) !! id = leads d !! id) ∧
  (∀ k l, rows !! k = Some l → leads (insert_all rows d) !! (next_id d + Z.of_nat k) = Some (f (next_id d + Z.of_nat k) l)).
Proof using Hf.
  revert d. induction rows as [|r rows IH]; intros d Hwf Hb.
  { split_and!; [done|done|cbn; lia|done|]. intros k l Hk. by rewrite lookup_nil in Hk. }
  destruct (insert_lead_wf d r Hwf Hb) as [Hwf1 Hb1].
  destruct (IH (insert_lead f d r) Hwf1 Hb1) as (H1 & H2 & H3 & H4 & H5).
  change (insert_all (r :: rows) d) with (insert_all rows (insert_lead f d r)).
  change (next_id (insert_lead f d r)) with (next_id d + 1) in *.
  split_and!; [done|done|rewrite H3; cbn; lia| |].
  - intros id Hid. rewrite H4 by lia. cbn. by rewrite lookup_insert_ne by lia.
  - intros [|k] l Hk.
    + injection Hk as <-. rewrite Z.add_0_r, H4 by lia. cbn. apply lookup_insert_eq.
    + replace (next_id d + Z.of_nat (S k)) with (next_id d + 1 + Z.of_nat k) by lia. by apply H5.
Qed.

Lemma insert_all_pending q c rows d :
  wf_ids d → below_next d → (∀ i x, q (f i x) = false) → pending_rows q c (insert_all rows d) = pending_rows q c d.
Proof using Hf.
  intros Hwf Hb Hq. revert d Hwf Hb. induction rows as [|r rows IH]; intros d Hwf Hb; [done|].
  destruct (insert_lead_wf d r Hwf Hb) as [Hwf1 Hb1].
  change (insert_all (r :: rows) d) with (insert_all rows (insert_lead f d r)).
  by rewrite IH, insert_lead_pending.
Qed.
End inserts.

Section clones.
Variable server : Server.
Variable t source new server_now : Z.
Variable deleted : bool.
Hypothesis Hparses : statement_parses server CLONE_COLUMNS = true.
Hypothesis Hnew : new ≠ source.

#[local] Abbreviation q := (clone_where t source deleted).
#[local] Abbreviation clone := (clone_lead new server_now).

Lemma clone_elsewhere i l : in_source t source (clone i l) = false.
Proof using Hnew. unfold in_source. cbn. rewrite (proj2 (Z.eqb_neq new source)) by done. apply andb_false_r. Qed.

Lemma clone_unselected i l : q (clone i l) = false.
Proof using Hnew. unfold clone_where. by rewrite clone_elsewhere. Qed.

(** When the leads copied are those the cursor counts, each is copied once, in the order
    of their identifiers. *)
Lemma clone_loop_all fuel size c n d :
  wf_ids d → below_next d → (1 ≤ size)%nat →
  (∀ c', pending_rows (in_source t source) c' d = pending_rows q c' d) →
  (length (pending_rows q c d) < fuel)%nat →
  clone_loop server fuel size t source new server_now deleted c n d =
    Some (n + Z.of_nat (length (pending_rows q c d)), insert_all clone (pending_rows q c d) d).
Proof using Hparses Hnew.
  intros Hwf Hb Hsize Hsame. revert c n d Hwf Hb Hsame. induction fuel as [|fuel IH]; intros c n d Hwf Hb Hsame Hfuel; [lia|].
  cbn [clone_loop]. rewrite Hparses. cbn [negb].
  change (batch_of q c size d) with (take size (pending_rows q c d)). set (rows := take size (pending_rows q c d)).
  destruct (insert_all_spec clone (λ i l, eq_refl) rows d Hwf Hb) as (Hwf1 & Hb1 & _).
  pose proof (λ q', insert_all_pending clone (λ i l, eq_refl) q' c rows d Hwf Hb) as Hpend.
  change (foldl (insert_lead clone) d rows) with (insert_all clone rows d). cbv zeta.
  destruct (Nat.ltb_spec (length rows) size) as [Hlt|Hge].
  - subst rows. rewrite length_take in Hlt. by rewrite firstn_all2 by lia.
  - assert (length rows = size) as Hlen by (subst rows; rewrite length_take in Hge |- *; lia).
    destruct (full_batch_last size (pending_rows q c d) Hsize Hlen) as (r & Hr & Hrin). rewrite Hlen.
    assert (row_at (in_source t source) c (size - 1) (insert_all clone rows d) = Some (l_id r)) as ->.
    { change (l_id <$> pending_rows (in_source t source) c (insert_all clone rows d) !! (size - 1)%nat = Some (l_id r)).
      rewrite Hpend by apply clone_elsewhere. by rewrite Hsame, Hrin. }
    assert (pending_rows q (l_id r) (insert_all clone rows d) = drop size (pending_rows q c d)) as Hdrop.
    { rewrite (insert_all_pending clone) by (done || apply clone_unselected). by apply pending_drop. }
    rewrite IH; [|done|done| |rewrite Hdrop, length_drop; subst rows; rewrite length_take in Hlen; lia].
    + rewrite Hdrop. f_equal. f_equal.
      * rewrite length_drop. subst rows. rewrite length_take in Hlen. lia.
      * unfold insert_all. rewrite <- foldl_app. subst rows. by rewrite take_drop.
    + intros c'. rewrite !(insert_all_pending clone) by (done || apply clone_unselected || apply clone_elsewhere). apply Hsame.
Qed.
End clones.
