(* ===== verification/ListTheorems.v ===== *)
(** What holds of lists: purges, resets and clones against doing the work at once, every
    run of the requests on lists and on their leads, and where the routes fall short. *)

From S2P Require Import Prelude Paging Calendar Jcs JsonText Rbac Auth Leads LeadsTheorems Lists ListBatches.

#[local] Open Scope Z_scope.
#[local] Opaque BATCH_SIZE.

(** ** A small state *)

Module ListSample.

Definition server : Server :=
  mkServer (λ _, None) String.eqb String.leb contains (λ l, (λ s, (s, 1)) <$> l) true (λ _, false).

Definition row (id tenant : Z) (name : string) : ListRow :=
  mkListRow id tenant name None true None None None DEFAULT_LIST_SETTINGS None None None 0 0.

(** The leads of [Sample]: list 10 of tenant 1 has two, list 20 of tenant 2 has one. *)
Definition db : ListDb :=
  mkListDb Sample.db {[ 10 := row 10 1 "A"; 20 := row 20 2 "B" ]}%string 21
    {[ (1, "sales", 10) := mkLink 0 true 0 ]}%string {[ (1, "sales") ]}%string ∅ ∅ ∅ 1 ∅.

Lemma positive : positive_ids (lead_db db).
Proof. intros id l Hl. destruct (proj2 Sample.wf id l Hl) as (_ & ? & _). lia. Qed.

Lemma below : below_next (lead_db db).
Proof. intros id l Hl. by destruct (proj2 Sample.wf id l Hl) as (_ & [_ ?] & _). Qed.

Lemma none_deleted now : none_deleted_at 1 10 now (lead_db db).
Proof.
  intros id l Hl _ _. cbn [lead_db db] in Hl. unfold Sample.db in Hl. cbn [leads] in Hl.
  repeat (apply lookup_insert_Some in Hl as [[_ <-]|[_ Hl]]; [done|]).
  by apply lookup_singleton_Some in Hl as [_ <-].
Qed.
End ListSample.

(** ** The operations at once *)

(** What a reset and a purge of a list are for. *)
Definition at_once (op : ListOp) (t li now : Z) : LeadDb → LeadDb :=
  match op with
  | op_reset => update_all (active_in t li) reset_lead
  | op_purge => update_all (active_in t li) (purge_lead now)
  end.

(** The active leads of a list. *)
Definition active_leads (t li : Z) (db : ListDb) : list Lead := pending_rows (active_in t li) 0 (lead_db db).

(** An operation on the leads of a list has done its work: the leads are as after the work
    at once, one audit row with the count more, the statistics forgotten, and nothing else. *)
Definition worked (op : ListOp) (t li now n : Z) (db db' : ListDb) : Prop :=
  leads (lead_db db') = leads (at_once op t li now (lead_db db)) ∧
  n = Z.of_nat (length (active_leads t li db)) ∧
  (∃ row, audits (lead_db db') = audits (lead_db db) ++ [row] ∧ u_tenantId row = t ∧ u_entity row = zs li ∧
          assoc "affected" (u_after row) = Some (VInt n)) ∧
  next_id (lead_db db') = next_id (lead_db db) ∧ lead_lists (lead_db db') = lead_lists (lead_db db) ∧
  list_rows db' = list_rows db ∧ links db' = links db ∧
  stats_cache db' = delete (t, li) (stats_cache db).

Lemma batch_size_pos : (1 ≤ BATCH_SIZE)%nat.
Proof. apply (bool_decide_unpack _). vm_compute. exact I. Qed.

Lemma active_fuel t li db : (length (active_leads t li db) < loop_fuel (lead_db db))%nat.
Proof.
  unfold active_leads, pending_rows, by_id, loop_fuel. rewrite sort_by_perm.
  pose proof (List.filter_length_le (λ l, active_in t li l && (0 <? l_id l)) (all_leads (lead_db db))). lia.
Qed.

Lemma progress_set fin jid p db : getJobProgress fin jid (setJobProgress fin jid p db) = Some p.
Proof.
  unfold getJobProgress, cached, setJobProgress. cbn [with_jobs progress]. rewrite lookup_insert_eq. cbn.
  by rewrite (proj2 (Z.ltb_lt fin _)) by (unfold JOB_PROGRESS_TTL; lia).
Qed.

Lemma progress_audit fin jid action t actor li before after db :
  getJobProgress fin jid (auditList action t actor li before after db) = getJobProgress fin jid db.
Proof. done. Qed.

Section work.
Variable server : Server.
Variable db : ListDb.
Hypothesis Hwf : wf_ids (lead_db db).
Hypothesis Hpos : positive_ids (lead_db db).

(** A request whose loop does the work. *)
Lemma sync_run_worked op action now t actor li u size :
  sync_loop server t li (loop_fuel (lead_db db)) u size 0 0 (lead_db db) =
    Some (Z.of_nat (length (active_leads t li db)), at_once op t li now (lead_db db)) →
  ∃ n db', sync_run server u action size t actor li db = (LsSync n, db') ∧ worked op t li now n db db'.
Proof using.
  intros Hloop. unfold sync_run. rewrite Hloop. do 2 eexists. split; [reflexivity|].
  destruct op; split_and!; try reflexivity; (eexists; split; [reflexivity|done]).
Qed.

(** An attempt at a job whose loop does the work. *)
Lemma run_job_worked op msg now fin jid j :
  jb_op j = op →
  worker_loop server (jb_tenantId j) (jb_listId j) (loop_fuel (lead_db db)) (λ _, false) (job_update now j)
    (jb_batchSize j) 0 0 (lead_db db) =
    Some (Z.of_nat (length (active_leads (jb_tenantId j) (jb_listId j) db)), true,
          at_once op (jb_tenantId j) (jb_listId j) now (lead_db db)) →
  ∃ n db', run_job server (λ _, false) msg now fin jid j db = (true, db') ∧
    worked op (jb_tenantId j) (jb_listId j) now n db db' ∧
    getJobProgress fin jid db' =
      Some (mkProgress done_ n (Z.min (count_leads (active_in (jb_tenantId j) (jb_listId j)) (lead_db db)) 5000001) 100
              (Some now) (Some fin) None).
Proof using.
  intros Hop Hloop. unfold run_job. rewrite Hloop. do 2 eexists. split; [reflexivity|]. split.
  - destruct op; split_and!; try reflexivity; (eexists; split; [reflexivity|done]).
  - by rewrite progress_set.
Qed.

(** C17: A purge does its work, by the request's loop and by the worker's alike: when no lead
    of the list was deleted at that very instant before, both loops end, every active lead
    of the list, and no other lead, is deleted with status DELETED at the instant, the
    count answered and audited is theirs, the cached statistics are dropped, and lists,
    links and other leads stay.  Batches of any size give the same. *)
Theorem purge_complete t li now actor msg fin jid requestId size :
  none_deleted_at t li now (lead_db db) → (1 ≤ size)%nat →
  (∃ n db', purgeListSync server t actor now li db = (LsSync n, db') ∧ worked op_purge t li now n db db') ∧
  (∃ n db', run_job server (λ _, false) msg now fin jid (mkJob op_purge t li actor requestId size) db = (true, db') ∧
     worked op_purge t li now n db db' ∧ (jp_status <$> getJobProgress fin jid db') = Some done_).
Proof using Hwf Hpos.
  intros Hnone Hsize. split.
  - apply sync_run_worked. pose proof (sync_loop_all server t li (purge t li now) BATCH_SIZE (lead_db db) (purge_keeps_id now)
      Hwf batch_size_pos (loop_fuel (lead_db db)) 0 0 (purge_counts server t li now)) as H.
    rewrite update_upto_zero, Z.add_0_l in H by done. apply H.
    + intros c r Hr _. by apply (purge_last t li now BATCH_SIZE).
    + by intros l (_ & _ & ?)%elem_of_pending.
    + apply active_fuel.
  - destruct (run_job_worked op_purge msg now fin jid (mkJob op_purge t li actor requestId size) eq_refl)
      as (n & db' & Hrun & Hwork & Hp); [|exists n, db'; by rewrite Hp].
    pose proof (worker_loop_all server t li (purge t li now) size (lead_db db) (purge_keeps_id now)
      Hwf Hsize (loop_fuel (lead_db db)) 0 0 (purge_counts server t li now)) as H.
    rewrite update_upto_zero, Z.add_0_l in H by done. apply H; [by apply purge_finds_last|apply active_fuel].
Qed.

(** C18: A reset does its work where its cursor is sound: the request's loop for lists of
    fewer than a thousand active leads, whatever the server counts; the worker's loop for
    every list, when the server counts the rows an update finds.  Every active lead of the
    list, and no other, is then NEW with no calls, and the loops end. *)
Theorem reset_complete t li now actor msg fin jid requestId size :
  (1 ≤ size)%nat →
  ((length (active_leads t li db) < BATCH_SIZE)%nat → ∃ n db',
     resetListSync server t actor li db = (LsSync n, db') ∧
     leads (lead_db db') = leads (at_once op_reset t li now (lead_db db)) ∧ n <= Z.of_nat (length (active_leads t li db))) ∧
  (found_rows server = true → ∃ n db',
     run_job server (λ _, false) msg now fin jid (mkJob op_reset t li actor requestId size) db = (true, db') ∧
     worked op_reset t li now n db db' ∧ (jp_status <$> getJobProgress fin jid db') = Some done_).
Proof using Hwf Hpos.
  intros Hsize. split.
  - intros Hshort. unfold resetListSync, sync_run, loop_fuel.
    rewrite (sync_loop_short server t li (sync_reset server t li) BATCH_SIZE (lead_db db) reset_keeps_id Hwf batch_size_pos)
      by done.
    do 2 eexists. split; [reflexivity|]. split; [reflexivity|]. fold (active_leads t li db). unfold affected.
    destruct (found_rows server); [lia|].
    pose proof (List.filter_length_le (bu_changes (sync_reset server t li)) (active_leads t li db)). lia.
  - intros Hfound.
    destruct (run_job_worked op_reset msg now fin jid (mkJob op_reset t li actor requestId size) eq_refl)
      as (n & db' & Hrun & Hwork & Hp); [|exists n, db'; by rewrite Hp].
    pose proof (worker_loop_all server t li (worker_reset t li) size (lead_db db) reset_keeps_id
      Hwf Hsize (loop_fuel (lead_db db)) 0 0) as H.
    rewrite update_upto_zero, Z.add_0_l in H by done. apply H; [|by apply reset_finds_last|apply active_fuel].
    intros rows. unfold affected. by rewrite Hfound.
Qed.

(** The request's reset of a list of more than a thousand active leads whose newest lead is
    NEW resets only the first thousand, and answers that it is done. *)
Theorem reset_stops_early t li actor z :
  (BATCH_SIZE < length (active_leads t li db))%nat → last (active_leads t li db) = Some z →
  text_eq server "NEW" (l_status z) = true →
  ∃ n db', resetListSync server t actor li db = (LsSync n, db') ∧ n <= Z.of_nat BATCH_SIZE ∧
    lead_db db' = with_audit (mkAudit "list.reset.completed" t actor (zs li) [] [("affected", VInt n); ("mode", VStr "sync")]%string)
      (update_rows reset_lead (take BATCH_SIZE (active_leads t li db)) (lead_db db)).
Proof using Hwf Hpos.
  intros Hlen Hz Hnew.
  assert (∃ k, loop_fuel (lead_db db) = S (S k)) as [k Hk].
  { pose proof (active_fuel t li db). pose proof batch_size_pos. exists (loop_fuel (lead_db db) - 2)%nat. lia. }
  destruct (reset_jumps server t li BATCH_SIZE (lead_db db) z k Hwf Hpos batch_size_pos Hlen Hz Hnew) as (n & Hn & Hloop).
  unfold resetListSync, sync_run. rewrite Hk, Hloop. do 2 eexists. split; [reflexivity|]. split; [lia|reflexivity].
Qed.
End work.

(** The two leads of list 10 are purged, in one batch or in batches of one. *)
Lemma purge_complete_witness :
  (∃ db', purgeListSync ListSample.server 1 7 1746100800000 10 ListSample.db = (LsSync 2, db') ∧
     (l_status <$> leads (lead_db db') !! 2) = Some "DELETED"%string ∧
     leads (lead_db db') !! 3 = leads (lead_db ListSample.db) !! 3) ∧
  (∃ db', run_job ListSample.server (λ _, false) EmptyString 1746100800000 1746100801000 1
            (mkJob op_purge 1 10 7 "r" 1) ListSample.db = (true, db')).
Proof.
  destruct (purge_complete ListSample.server ListSample.db Sample.wf_ids ListSample.positive 1 10 1746100800000 7 EmptyString
    1746100801000 1 "r" 1 (ListSample.none_deleted _) (le_n 1)) as [(n & db' & H & Hl & Hn & _) (n2 & db2 & H2 & _)].
  split; [|by exists db2].
  exists db'. assert (n = 2) as -> by (rewrite Hn; vm_compute; reflexivity). split; [exact H|].
  rewrite Hl. split; vm_compute; reflexivity.
Defined.

(** The worker resets the two leads of list 10 in batches of one. *)
Lemma reset_complete_witness :
  (∃ n db', resetListSync ListSample.server 1 7 10 ListSample.db = (LsSync n, db')) ∧
  (∃ db', run_job ListSample.server (λ _, false) EmptyString 1746100800000 1746100801000 1
            (mkJob op_reset 1 10 7 "r" 1) ListSample.db = (true, db') ∧
     leads (lead_db db') = leads (at_once op_reset 1 10 1746100800000 (lead_db ListSample.db))).
Proof.
  destruct (reset_complete ListSample.server ListSample.db Sample.wf_ids ListSample.positive 1 10 1746100800000 7 EmptyString
    1746100801000 1 "r" 1 (le_n 1)) as [Hsync Hjob]. split.
  - destruct Hsync as (n & db' & H & _); [apply (bool_decide_unpack _); vm_compute; exact I|]. by exists n, db'.
  - destruct (Hjob eq_refl) as (n & db' & H & (Hl & _) & _). by exists db'.
Defined.

(** ** Clones *)

Section clones.
Variable server : Server.

(** A clone copies each lead once: when the server parses the statement and either
    deleted leads are copied or the source has none, the clone answers with the new list
    and the number of the source's leads; the leads made have the next identifiers in the
    order of the source's, are NEW with no calls, and have the copied columns of their
    originals; the leads there were stay, and the loop over the batches ends. *)
Theorem clone_copies t actor now server_now src name description deleted db source :
  wf_ids (lead_db db) → below_next (lead_db db) → src < next_list db →
  find_list src t db = Some source →
  is_Some (put_list server (clone_row (next_list db) t now name description source) (next_list db + 1) db) →
  statement_parses server CLONE_COLUMNS = true →
  (deleted = true ∨ ∀ id l, leads (lead_db db) !! id = Some l → in_source t src l = true → l_deletedAt l = None) →
  let originals := pending_rows (in_source t src) 0 (lead_db db) in
  let n := Z.of_nat (length originals) in
  let new := next_list db in
  let first := next_id (lead_db db) in
  ∃ db', cloneList server t actor now server_now src name description deleted db =
      (LsCloned (serializeList (clone_row new t now name description source)) n, db') ∧
    list_rows db' = <[ new := clone_row new t now name description source ]> (list_rows db) ∧
    (∀ id, id < first → leads (lead_db db') !! id = leads (lead_db db) !! id) ∧
    (∀ k l, originals !! k = Some l →
       leads (lead_db db') !! (first + Z.of_nat k) = Some (clone_lead new server_now (first + Z.of_nat k) l)) ∧
    (∀ id, first + n <= id → leads (lead_db db') !! id = None).
Proof.
  intros Hwf Hb Hsrc Hfind [db1 Hput] Hparses Hsame originals n new first.
  unfold cloneList. rewrite Hfind. fold new. change (next_list db) with new in Hput. cbv zeta.
  unfold put_list in Hput |- *. destruct (_ || _); [done|]. injection Hput as <-.
  set (db1 := with_lists _ _ db). set (db2 := auditList _ _ _ _ _ _ db1).
  set (d := lead_db db2). assert (wf_ids d) as Hwfd by exact Hwf. assert (below_next d) as Hbd by exact Hb.
  assert (∀ c, pending_rows (in_source t src) c d = pending_rows (clone_where t src deleted) c d) as Hq.
  { intros c. apply pending_ext; [done|]. intros l Hl _. unfold clone_where.
    destruct (in_source t src l) eqn:E; [|done]. destruct Hsame as [-> |Hsame]; [done|].
    rewrite bool_decide_true by by apply (Hsame (l_id l)). by rewrite orb_true_r. }
  assert (new ≠ src) as Hnew by (subst new; lia).
  change (pending_rows (in_source t src) 0 (lead_db db)) with (pending_rows (in_source t src) 0 d) in originals.
  rewrite (clone_loop_all server t src new server_now deleted Hparses Hnew (loop_fuel d) BATCH_SIZE 0 0 d Hwfd Hbd
    batch_size_pos Hq), <- Hq, Z.add_0_l.
  2:{ unfold loop_fuel, pending_rows, by_id. rewrite sort_by_perm.
      pose proof (List.filter_length_le (λ l, clone_where t src deleted l && (0 <? l_id l)) (all_leads d)). lia. }
  destruct (insert_all_spec (clone_lead new server_now) (λ i l, eq_refl) originals d Hwfd Hbd) as (_ & Hb' & Hn & Hold & Hnew').
  eexists. split; [reflexivity|]. split; [reflexivity|]. split; [exact Hold|]. split; [exact Hnew'|].
  intros id Hid. change (leads (insert_all (clone_lead new server_now) originals d) !! id = None).
  destruct (leads (insert_all _ originals d) !! id) eqn:E; [|done]. apply Hb' in E. rewrite Hn in E.
  change (next_id d) with first in E. lia.
Qed.

(** A server that reserves the name of a column refuses the statement: the request fails
    and leaves a new list with an audit row and no leads. *)
Theorem clone_leaves_list t actor now server_now src name description deleted db source db1 :
  statement_parses server CLONE_COLUMNS = false →
  find_list src t db = Some source →
  put_list server (clone_row (next_list db) t now name description source) (next_list db + 1) db = Some db1 →
  ∃ db', cloneList server t actor now server_now src name description deleted db = (LsThrown, db') ∧
    list_rows db' = <[ next_list db := clone_row (next_list db) t now name description source ]> (list_rows db) ∧
    leads (lead_db db') = leads (lead_db db) ∧ length (audits (lead_db db')) = S (length (audits (lead_db db))).
Proof.
  intros Hparses Hfind Hput. unfold cloneList. rewrite Hfind. cbv zeta. rewrite Hput.
  unfold put_list in Hput. destruct (_ || _); [done|]. injection Hput as <-.
  unfold loop_fuel. cbn [clone_loop]. rewrite Hparses. cbn [negb].
  eexists. split; [reflexivity|]. split; [reflexivity|]. split; [reflexivity|].
  unfold auditList, with_lead_db, with_audit. cbn. by rewrite length_app, Nat.add_1_r.
Qed.
End clones.

(** A clone of list 10 has both its leads, as leads 4 and 5 of list 21. *)
Lemma clone_copies_witness :
  ∃ db', (cloneList ListSample.server 1 7 1746100800000 1746100800000000 10 "A2" None false ListSample.db).2 = db' ∧
    (l_listId <$> leads (lead_db db') !! 4) = Some 21 ∧ (l_listId <$> leads (lead_db db') !! 5) = Some 21 ∧
    leads (lead_db db') !! 1 = leads (lead_db ListSample.db) !! 1.
Proof.
  destruct (clone_copies ListSample.server 1 7 1746100800000 1746100800000000 10 "A2" None false ListSample.db
    (ListSample.row 10 1 "A") Sample.wf_ids ListSample.below eq_refl eq_refl) as (db' & H & _ & Hold & Hnew & _).
  - vm_compute. by eexists.
  - reflexivity.
  - right. intros id l Hl _. cbn [lead_db ListSample.db] in Hl. unfold Sample.db in Hl. cbn [leads] in Hl.
    repeat (apply lookup_insert_Some in Hl as [[_ <-]|[_ Hl]]; [done|]).
    by apply lookup_singleton_Some in Hl as [_ <-].
  - exists db'. split; [by rewrite H|]. split_and!; [| |by apply Hold].
    + assert (leads (lead_db db') !! 4 = Some _) as ->
        by exact (Hnew 0%nat (Sample.lead 1 1 10 5 1746100799007000 "O,Neil") ltac:(vm_compute; reflexivity)). done.
    + assert (leads (lead_db db') !! 5 = Some _) as ->
        by exact (Hnew 1%nat (Sample.lead 2 1 10 1 1746100799007000 "Smith") ltac:(vm_compute; reflexivity)). done.
Defined.

(** The first reserved word among the columns. *)
Lemma rank_unparsed server : reserved server "rank" = true → statement_parses server CLONE_COLUMNS = false.
Proof.
  intros H. unfold statement_parses. apply not_true_iff_false. rewrite forallb_forall. intros Hall.
  specialize (Hall "rank"%string). rewrite H in Hall. cbn in Hall. discriminate Hall.
  repeat first [left; reflexivity|right].
Qed.

(** Deleted leads shift the cursor: with batches of two, of three leads of which the first
    is deleted, the last is copied twice. *)
Definition three_leads : LeadDb :=
  let l id deleted := mkLead id 1 10 "NEW" 0 1 deleted 0 0 0 ∅ in
  mkDb {[ 1 := l 1 (Some 0); 2 := l 2 None; 3 := l 3 None ]} 4 ∅ ∅ [] [].

Theorem clone_copies_twice :
  fst <$> clone_loop ListSample.server 9 2 1 10 11 0 false 0 0 three_leads = Some 3.
Proof. vm_compute. reflexivity. Qed.

(** ** Statistics *)

(** What is shown right after the request's reset or purge is of the table. *)
Theorem stats_after_op server op t li now now' n s db db' :
  worked op t li now n db db' →
  (getListStats server t li s now' db').1 = from_option LsStats LsThrown (compute_stats server t li s now' (lead_db db')).
Proof.
  intros (_ & _ & _ & _ & _ & _ & _ & Hcache). unfold getListStats, cached. rewrite Hcache, lookup_delete_eq. cbn.
  by destruct (compute_stats _ _ _ _ _ _).
Qed.

(** With the default settings no lead is callable, unless its status is the text of all the
    codes. *)
Theorem none_callable server t li now d stats :
  (∀ id l, leads d !! id = Some l → text_eq server "NEW,NA,B,CALLBK" (l_status l) = false) → wf_ids d →
  compute_stats server t li DEFAULT_LIST_SETTINGS now d = Some stats → st_callable_now stats = 0.
Proof.
  intros Hnone Hwf [= <-]. cbn [st_callable_now callable_status_codes].
  unfold capped_count, count_leads. rewrite filter_false; [done|]. intros l Hl%LeadPages.elem_of_all_leads; [|done].
  unfold callable_lead. change (join "," ["NEW"; "NA"; "B"; "CALLBK"]) with "NEW,NA,B,CALLBK"%string.
  rewrite (Hnone _ _ Hl). apply andb_false_r.
Qed.

(** ** Deleting a purged list *)

(** A list that had leads to purge cannot be deleted afterwards: the deleted leads still
    refer to it, and the request ends in an error of the server. *)
Theorem purged_list_stays t li now actor n r db db' :
  wf_ids (lead_db db) → worked op_purge t li now n db db' → active_leads t li db ≠ [] → find_list li t db' = Some r →
  deleteList t actor li db' = (LsThrown, db').
Proof.
  intros Hwf (Hl & _) Hne Hfind. unfold deleteList. rewrite Hfind.
  destruct (active_leads t li db) as [|l rows] eqn:E; [done|]. clear Hne.
  assert (l ∈ active_leads t li db) as (Hin & Hp & _)%elem_of_pending by (rewrite E; apply list_elem_of_here); [|exact Hwf].
  apply active_in_iff in Hp as Hact. destruct Hact as (_ & Hli & _).
  assert (list_referenced li db' = true) as ->; [|done].
  unfold list_referenced. apply orb_true_iff. left. apply existsb_exists. exists (purge_lead now l). split.
  - apply list_elem_of_In, list_elem_of_fmap. exists (l_id l, purge_lead now l). split; [done|].
    apply elem_of_map_to_list. rewrite Hl. unfold at_once, update_all, map_leads, with_leads. cbn [leads].
    rewrite lookup_fmap, Hin. cbn. by rewrite Hp.
  - cbn. by apply Z.eqb_eq.
Qed.

(** ** Jobs that fail *)

(** Of the active leads of a list some are purged, at some instants; nothing else changed. *)
Definition purged_since (t li : Z) (d d' : LeadDb) : Prop :=
  ∀ id, match leads d !! id, leads d' !! id with
        | Some l, Some l' => if active_in t li l then l' = l ∨ ∃ now, l' = purge_lead now l else l' = l
        | None, None => True
        | _, _ => False
        end.

#[export] Instance purged_since_refl t li : Reflexive (purged_since t li).
Proof. intros d id. destruct (leads d !! id) as [l|]; [|done]. destruct (active_in t li l); [by left|done]. Qed.

Lemma purge_inactive t li now l : active_in t li (purge_lead now l) = false.
Proof. unfold active_in. cbn. apply andb_false_r. Qed.

(** Attempts after one another: what the first left active the next may purge. *)
#[export] Instance purged_since_trans t li : Transitive (purged_since t li).
Proof.
  intros d1 d2 d3 H12 H23 id. specialize (H12 id). specialize (H23 id).
  destruct (leads d1 !! id) as [l1|], (leads d2 !! id) as [l2|], (leads d3 !! id) as [l3|]; try done.
  destruct (active_in t li l1) eqn:E1.
  - destruct H12 as [->|[now ->]]; [by rewrite E1 in H23|]. rewrite purge_inactive in H23. subst. right. by exists now.
  - subst. by rewrite E1 in H23.
Qed.

Lemma map_purged t li now (b : Lead → bool) d :
  purged_since t li d (map_leads (λ l, if active_in t li l && b l then purge_lead now l else l) d).
Proof.
  intros id. unfold map_leads, with_leads. cbn [leads]. rewrite lookup_fmap. destruct (leads d !! id) as [l|]; [|done]. cbn.
  destruct (active_in t li l); [|done]. cbn. destruct (b l); [right; by exists now|by left].
Qed.

(** What a purge attempt leaves of the leads, whatever fails. *)
Lemma purge_job_leads server t li actor requestId size fails now db :
  wf_ids (lead_db db) → positive_ids (lead_db db) → none_deleted_at t li now (lead_db db) → (1 ≤ size)%nat →
  ∃ m (ok : bool) d, worker_loop server t li (loop_fuel (lead_db db)) fails
      (job_update now (mkJob op_purge t li actor requestId size)) size 0 0 (lead_db db) = Some (m, ok, d) ∧
    purged_since t li (lead_db db) d ∧ (ok = true → d = update_all (active_in t li) (purge_lead now) (lead_db db)).
Proof.
  intros Hwf Hpos Hnone Hsize.
  destruct (worker_loop_any server t li (purge t li now) size (lead_db db) (purge_keeps_id now) Hwf Hsize fails
    (loop_fuel (lead_db db)) 0 0 (purge_counts server t li now) (purge_finds_last t li now size _ Hwf Hnone Hsize)
    (active_fuel t li db)) as (m & ok & d & Hloop & Hd).
  rewrite update_upto_zero in Hloop by done. exists m, ok, d. split; [exact Hloop|]. destruct ok.
  - subst d. split; [|done]. unfold update_all.
    rewrite <- (map_leads_ext (λ l, if active_in t li l && true then purge_lead now l else l));
      [apply (map_purged t li now (λ _, true))|intros; by rewrite andb_true_r].
  - destruct Hd as [b ->]. split; [apply map_purged|done].
Qed.

Lemma purged_all_inactive t li now d id l :
  leads (update_all (active_in t li) (purge_lead now) d) !! id = Some l → active_in t li l = false.
Proof.
  unfold update_all, map_leads, with_leads. cbn [leads]. rewrite lookup_fmap.
  destruct (leads d !! id) as [x|]; [|done]. intros [= <-].
  destruct (active_in t li x) eqn:E; [apply purge_inactive|exact E].
Qed.

Lemma active_leads_elem t li db l :
  l ∈ active_leads t li db → ∃ id, leads (lead_db db) !! id = Some l ∧ active_in t li l = true.
Proof.
  unfold active_leads, pending_rows, by_id. rewrite elem_of_sort_by, elem_of_filter_list, andb_true_iff.
  unfold all_leads. rewrite list_elem_of_fmap. intros (([id x] & -> & Hx) & Ha & _).
  exists id. split; [by apply elem_of_map_to_list|exact Ha].
Qed.

(** What the handler of errors leaves. *)
Lemma fail_job_leads fails msg fin jid j db :
  leads (lead_db (fail_job fails msg fin jid j db)) = leads (lead_db db).
Proof. unfold fail_job. by repeat case_match. Qed.

Lemma fail_job_tells fails msg fin jid j db :
  (fails at_failed = false → (jp_status <$> getJobProgress fin jid (fail_job fails msg fin jid j db)) = Some failed) ∧
  (fails at_failed = false → fails at_failed_audit = false →
   u_action <$> last (audits (lead_db (fail_job fails msg fin jid j db))) =
     Some ("list." +:+ op_name (jb_op j) +:+ ".failed")).
Proof.
  unfold fail_job. destruct (fails at_failed); [done|]. destruct (fails at_failed_audit); split; try done; intros _.
  - by rewrite progress_set.
  - by rewrite progress_audit, progress_set.
  - intros _. cbn. by rewrite last_snoc.
Qed.

Lemma worker_loop_ok server t li fuel fails u size c n d m ok d' :
  (∀ s, fails s = false) → worker_loop server t li fuel fails u size c n d = Some (m, ok, d') → ok = true.
Proof.
  intros Hno. revert c n d. induction fuel as [|fuel IH]; intros c n d; cbn [worker_loop]; [done|]. cbv zeta.
  rewrite !Hno, andb_false_r. cbn [orb]. destruct (_ <? size)%nat; [by intros [= _ <- _]|apply IH].
Qed.

(** C20: An attempt at a purge job, whichever of its steps the server or Valkey refuses (the
    count, a progress, the update or the cursor query of a batch, the audit, the cache, and
    what the handler of errors writes): it purges active leads of the list and changes no
    other lead, so that attempts made after one another add up to one purge
    ([purged_since] is transitive); it succeeds when nothing is refused; when it succeeds no
    lead of the list is active, the progress says done and the last audit row that it
    completed; when it fails the progress says failed if that can be written, and the last
    audit row too.  Assumed: unique identifiers, none of them below 1, no lead of the list
    deleted at the very instant before, batches of at least one. *)
Theorem purge_attempt server t li actor requestId size fails msg now fin jid db :
  wf_ids (lead_db db) → positive_ids (lead_db db) → none_deleted_at t li now (lead_db db) → (1 ≤ size)%nat →
  ∃ ok db', run_job server fails msg now fin jid (mkJob op_purge t li actor requestId size) db = (ok, db') ∧
    purged_since t li (lead_db db) (lead_db db') ∧
    (ok = true → active_leads t li db' = [] ∧ (jp_status <$> getJobProgress fin jid db') = Some done_ ∧
       u_action <$> last (audits (lead_db db')) = Some "list.purge.completed"%string) ∧
    (ok = false → fails at_failed = false → (jp_status <$> getJobProgress fin jid db') = Some failed ∧
       (fails at_failed_audit = false → u_action <$> last (audits (lead_db db')) = Some "list.purge.failed"%string)) ∧
    ((∀ s, fails s = false) → ok = true).
Proof.
  intros Hwf Hpos Hnone Hsize.
  destruct (purge_job_leads server t li actor requestId size fails now db Hwf Hpos Hnone Hsize)
    as (m & done & d & Hloop & Hpurged & Hall).
  pose proof (fail_job_leads fails msg fin jid (mkJob op_purge t li actor requestId size)) as Hfl.
  pose proof (fail_job_tells fails msg fin jid (mkJob op_purge t li actor requestId size)) as Hft.
  set (fail := fail_job fails msg fin jid (mkJob op_purge t li actor requestId size)) in *.
  assert (Hfail : ∀ db0, purged_since t li (lead_db db) (lead_db db0) → ¬ (∀ s, fails s = false) →
    ∃ ok db', (false, fail db0) = (ok, db') ∧ purged_since t li (lead_db db) (lead_db db') ∧
    (ok = true → active_leads t li db' = [] ∧ (jp_status <$> getJobProgress fin jid db') = Some done_ ∧
       u_action <$> last (audits (lead_db db')) = Some "list.purge.completed"%string) ∧
    (ok = false → fails at_failed = false → (jp_status <$> getJobProgress fin jid db') = Some failed ∧
       (fails at_failed_audit = false → u_action <$> last (audits (lead_db db')) = Some "list.purge.failed"%string)) ∧
    ((∀ s, fails s = false) → ok = true)).
  { intros db0 Hp Hno. destruct (Hft db0) as [H1 H2]. do 2 eexists. split; [reflexivity|]. split_and!; [|done| |by intros ?].
    - intros id. specialize (Hp id). by rewrite Hfl.
    - intros _ Hf. split; [by apply H1|]. intros Ha. by rewrite H2. }
  unfold run_job. cbn [jb_op jb_tenantId jb_listId jb_batchSize]. rewrite Hloop.
  destruct (fails at_count || fails at_start) eqn:E1.
  { apply Hfail; [reflexivity|]. intros Hno. by rewrite !Hno in E1. }
  destruct done; [|apply Hfail; [exact Hpurged|]].
  2:{ intros Hno. by pose proof (worker_loop_ok _ _ _ _ _ _ _ _ _ _ _ _ _ Hno Hloop). }
  destruct (fails at_audit) eqn:E2; [apply Hfail; [exact Hpurged|by intros Hno; rewrite Hno in E2]|].
  destruct (fails at_cache) eqn:E3; [apply Hfail; [exact Hpurged|by intros Hno; rewrite Hno in E3]|].
  destruct (fails at_done) eqn:E4; [apply Hfail; [exact Hpurged|by intros Hno; rewrite Hno in E4]|].
  do 2 eexists. split; [reflexivity|]. split_and!; [exact Hpurged| |done|done].
  intros _. split; [|split].
  - apply elem_of_nil_inv. intros l (id & Hl & Ha)%active_leads_elem.
    change (leads d !! id = Some l) in Hl. rewrite (Hall eq_refl) in Hl.
    by rewrite (purged_all_inactive _ _ _ _ _ _ Hl) in Ha.
  - by rewrite progress_set.
  - cbn. by rewrite last_snoc.
Qed.

(** The update of the second batch of one is refused. *)
Definition second_fails (s : JobStep) : bool := match s with at_batch 2 => true | _ => false end.

(** Then the first lead is purged, and the progress says so. *)
Lemma purge_attempt_witness :
  ∃ db', run_job ListSample.server second_fails "gone" 1746100800000 1746100801000 1
           (mkJob op_purge 1 10 7 "r" 1) ListSample.db = (false, db') ∧
    purged_since 1 10 (lead_db ListSample.db) (lead_db db') ∧ (l_status <$> leads (lead_db db') !! 1) = Some "DELETED"%string ∧
    (l_status <$> leads (lead_db db') !! 2) = Some "NEW"%string.
Proof.
  destruct (purge_attempt ListSample.server 1 10 7 "r" 1 second_fails "gone" 1746100800000 1746100801000 1 ListSample.db
    Sample.wf_ids ListSample.positive (ListSample.none_deleted _) (le_n 1)) as (ok & db' & H & Hp & _).
  pose proof (f_equal fst H) as Hok. vm_compute in Hok. subst ok.
  exists db'. split; [exact H|]. split; [exact Hp|]. pose proof (f_equal snd H) as Hdb. cbn [snd] in Hdb. subst db'.
  split; vm_compute; reflexivity.
Defined.
