(* ===== verification/ListRuns.v ===== *)
(** Every run of the requests on lists and on leads and of the worker's attempts, as
    transitions of one state: its invariant, and that tenants stay apart. *)

From S2P Require Import Prelude Paging Calendar Jcs JsonText Rbac Auth Leads LeadsTheorems Lists ListBatches ListTheorems.

#[local] Open Scope Z_scope.
#[local] Opaque BATCH_SIZE.

(** ** Requests *)

Inductive Request :=
  | Q_lists (auth : option ApiAuth) (q : option ListQuery)
  | Q_create (auth : option ApiAuth) (now : Z) (b : option ListInput)
  | Q_get (auth : option ApiAuth) (raw : string)
  | Q_update (auth : option ApiAuth) (now : Z) (raw : string) (b : option ListUpdate)
  | Q_delete (auth : option ApiAuth) (raw : string)
  | Q_stats (auth : option ApiAuth) (now : Z) (raw : string)
  | Q_links (auth : option ApiAuth) (raw : string)
  | Q_link (auth : option ApiAuth) (now : Z) (raw : string) (b : option (string * Z * bool))
  | Q_relink (auth : option ApiAuth) (raw campaignId : string) (b : option (option Z * option bool))
  | Q_unlink (auth : option ApiAuth) (raw campaignId : string)
  | Q_reset (auth : option ApiAuth) (now : Z) (raw requestId : string) (b : option unit)
  | Q_purge (auth : option ApiAuth) (now : Z) (raw requestId : string) (b : option unit)
  | Q_clone (auth : option ApiAuth) (now server_now : Z) (raw : string) (b : option (string * option string * bool))
  | Q_lead (r : LeadRuns.LeadRequest)
  | Q_attempt (fails : JobStep → bool) (errMsg : string) (now finished jobId : Z).

(** The tenant whose rights a request has; of an attempt, its job's. *)
Definition acting_tenant (r : Request) (db : ListDb) : option Z :=
  match r with
  | Q_lists a _ | Q_create a _ _ | Q_get a _ | Q_update a _ _ _ | Q_delete a _ | Q_stats a _ _ | Q_links a _
  | Q_link a _ _ _ | Q_relink a _ _ _ | Q_unlink a _ _ | Q_reset a _ _ _ _ | Q_purge a _ _ _ _ | Q_clone a _ _ _ _ =>
      a_tenantId <$> a
  | Q_lead r => a_tenantId <$> LeadRuns.request_auth r
  | Q_attempt _ _ _ _ jobId => (λ j, jb_tenantId j.1) <$> queue db !! jobId
  end.

Section system.
Variable server : Server.
Variable host : Host.
Variable lib : Library.

Definition serve (r : Request) (db : ListDb) : ListDb :=
  match r with
  | Q_lists a q => (lists_route server a q db).2
  | Q_create a now b => (create_route server a now b db).2
  | Q_get a raw => (get_route server a raw db).2
  | Q_update a now raw b => (update_route server a now raw b db).2
  | Q_delete a raw => (delete_route server a raw db).2
  | Q_stats a now raw => (stats_route server a now raw db).2
  | Q_links a raw => (links_route server a raw db).2
  | Q_link a now raw b => (link_route server a now raw b db).2
  | Q_relink a raw c b => (relink_route server a raw c b db).2
  | Q_unlink a raw c => (unlink_route server a raw c db).2
  | Q_reset a now raw rid b => (reset_route server a now raw rid b db).2
  | Q_purge a now raw rid b => (purge_route server a now raw rid b db).2
  | Q_clone a now sn raw b => (clone_route server a now sn raw b db).2
  | Q_lead r => with_lead_db (λ d, (LeadRuns.handle host lib r d).2) db
  | Q_attempt fails msg now fin jid => (process_job server fails msg now fin jid db).2
  end.

(** ** The invariant *)

(** What the code relies on of the collation: equality of texts has no order. *)
Definition collation_law : Prop := ∀ a b, text_eq server a b = text_eq server b a.

Definition rows_ok (db : ListDb) : Prop := ∀ id r, list_rows db !! id = Some r → ls_id r = id ∧ id < next_list db.

Definition names_unique (db : ListDb) : Prop :=
  ∀ i j r1 r2, list_rows db !! i = Some r1 → list_rows db !! j = Some r2 → ls_tenantId r1 = ls_tenantId r2 →
  text_eq server (ls_name r1) (ls_name r2) = true → i = j.

Definition links_ok (db : ListDb) : Prop :=
  ∀ t c li x, links db !! (t, c, li) = Some x →
  (t, c) ∈ campaigns db ∧ ∃ r, list_rows db !! li = Some r ∧ ls_tenantId r = t.

Definition wf_lists (db : ListDb) : Prop :=
  LeadRuns.wf_db (lead_db db) ∧ lead_lists (lead_db db) = list_names (list_rows db) ∧ rows_ok db ∧
  (collation_law → names_unique db) ∧ links_ok db.

(** The data of a tenant: its leads, lists, links and cached statistics. *)
Definition same_data (t : Z) (db db' : ListDb) : Prop :=
  (∀ id l, l_tenantId l = t → leads (lead_db db') !! id = Some l ↔ leads (lead_db db) !! id = Some l) ∧
  (∀ id r, ls_tenantId r = t → list_rows db' !! id = Some r ↔ list_rows db !! id = Some r) ∧
  (∀ c li, links db' !! (t, c, li) = links db !! (t, c, li)) ∧
  (∀ li, stats_cache db' !! (t, li) = stats_cache db !! (t, li)).

(** A transition keeps the invariant and the data of other tenants. *)
Definition keeps (tn : option Z) (db db' : ListDb) : Prop :=
  wf_lists db → wf_lists db' ∧ ∀ t, tn ≠ Some t → same_data t db db'.

#[export] Instance same_data_refl t : Reflexive (same_data t).
Proof. by intros db. Qed.

#[export] Instance same_data_trans t : Transitive (same_data t).
Proof.
  intros d1 d2 d3 (H1 & H2 & H3 & H4) (H1' & H2' & H3' & H4'). split_and!.
  - intros id l Hl. by rewrite H1', H1.
  - intros id r Hr. by rewrite H2', H2.
  - intros. by rewrite H3', H3.
  - intros. by rewrite H4', H4.
Qed.

#[export] Instance keeps_refl tn : Reflexive (keeps tn).
Proof. by intros db. Qed.

#[export] Instance keeps_trans tn : Transitive (keeps tn).
Proof.
  intros d1 d2 d3 H12 H23 Hwf. destruct (H12 Hwf) as [Hwf2 Hs2]. destruct (H23 Hwf2) as [Hwf3 Hs3].
  split; [done|]. intros t Ht. etransitivity; [by apply Hs2|by apply Hs3].
Qed.

(** Assumptions on the state before a step. *)
Lemma keeps_intro tn db db' : (wf_lists db → keeps tn db db') → keeps tn db db'.
Proof. intros H Hwf. by apply H. Qed.

(** ** The steps of the operations *)

Lemma keeps_audit tn action t actor li before after db : keeps tn db (auditList action t actor li before after db).
Proof. intros Hwf. split; [exact Hwf|]. by intros t' _. Qed.

Lemma keeps_jobs tn q n p db : keeps tn db (with_jobs q n p db).
Proof. intros Hwf. split; [exact Hwf|]. by intros t' _. Qed.

Lemma keeps_progress tn now jid p db : keeps tn db (setJobProgress now jid p db).
Proof. apply keeps_jobs. Qed.

(** A change of the cache at a key of the tenant. *)
Lemma keeps_cache t li c db :
  (∀ k, k ≠ (t, li) → c !! k = stats_cache db !! k) → keeps (Some t) db (with_cache c db).
Proof.
  intros Hc Hwf. split; [exact Hwf|]. intros t' Ht. split_and!; [done|done|done|]. intros li'. apply Hc. congruence.
Qed.

Lemma keeps_invalidate t li db : keeps (Some t) db (invalidateStatsCache t li db).
Proof. apply (keeps_cache t li). intros k Hk. by apply lookup_delete_ne. Qed.

(** A change of the links at a key of the tenant. *)
Lemma keeps_set_link t c li x r db :
  (t, c) ∈ campaigns db → list_rows db !! li = Some r → ls_tenantId r = t →
  keeps (Some t) db (with_links (<[ (t, c, li) := x ]> (links db)) db).
Proof.
  intros Hc Hr Ht (H1 & H2 & H3 & H4 & H5). split.
  - split_and!; [done|done|done|done|]. intros t' c' li' y Hy. cbn in Hy.
    apply lookup_insert_Some in Hy as [[[= <- <- <-] _]|[_ Hy]]; [|by apply (H5 _ _ _ y)].
    split; [done|]. by exists r.
  - intros t' Ht'. split_and!; [done|done| |done]. intros c' li'. cbn. apply lookup_insert_ne. congruence.
Qed.

Lemma keeps_delete_link t c li db : keeps (Some t) db (with_links (delete (t, c, li) (links db)) db).
Proof.
  intros (H1 & H2 & H3 & H4 & H5). split.
  - split_and!; [done|done|done|done|]. intros t' c' li' y Hy. cbn in Hy.
    apply lookup_delete_Some in Hy as [_ Hy]. by apply (H5 _ _ _ y).
  - intros t' Ht'. split_and!; [done|done| |done]. intros c' li'. cbn. apply lookup_delete_ne. congruence.
Qed.

(** *** Rows of lists *)

Lemma name_free t id name db r :
  wf_lists db → name_taken server t id name db = false → list_rows db !! ls_id r = Some r → ls_tenantId r = t →
  ls_id r ≠ id → text_eq server name (ls_name r) = false.
Proof.
  intros Hwf Hfree Hr Ht Hne. apply not_true_iff_false. intros Heq. apply not_true_iff_false in Hfree. apply Hfree.
  unfold name_taken. apply existsb_exists. exists r. split.
  - apply list_elem_of_In, list_elem_of_fmap. exists (ls_id r, r). split; [done|]. by apply elem_of_map_to_list.
  - by rewrite Ht, Z.eqb_refl, Heq, (proj2 (Z.eqb_neq _ _)).
Qed.

(** A row of the tenant, new or in the place of one of the tenant, written through the
    unique key. *)
Lemma keeps_put_list t r next db db1 :
  ls_tenantId r = t →
  ((ls_id r = next_list db ∧ next = next_list db + 1) ∨
   (next = next_list db ∧ ∃ r0, list_rows db !! ls_id r = Some r0 ∧ ls_tenantId r0 = t)) →
  put_list server r next db = Some db1 → keeps (Some t) db db1.
Proof.
  intros Ht Hplace Hput Hwf0. pose proof Hwf0 as (H1 & H2 & H3 & H4 & H5). unfold put_list in Hput.
  destruct (name_taken server (ls_tenantId r) (ls_id r) (ls_name r) db) eqn:Hfree; cbn [orb] in Hput; [done|].
  destruct (negb _); [done|]. injection Hput as <-.
  assert (∀ r0, list_rows db !! ls_id r = Some r0 → ls_tenantId r0 = t) as Hold.
  { intros r0 Hr0. destruct Hplace as [(Hid & _)|(_ & r1 & Hr1 & Ht1)]; [|congruence].
    rewrite Hid in Hr0. apply H3 in Hr0 as [_ ?]. lia. }
  assert (next_list db <= next ∧ ls_id r < next) as [Hnext Hid].
  { destruct Hplace as [(-> & ->)|(-> & r1 & Hr1 & _)]; [lia|]. apply H3 in Hr1 as [_ ?]. lia. }
  split; [split_and!|].
  - destruct H1 as [Hn Hl]. split; [done|]. intros id l Hx. destruct (Hl id l Hx) as (Hi & Hb & name & Hname).
    unfold LeadRuns.row_wf. cbn. split; [done|]. split; [done|]. rewrite H2 in Hname.
    unfold list_names in Hname |- *. rewrite lookup_fmap in Hname |- *.
    destruct (decide (l_listId l = ls_id r)) as [He|Hne].
    + rewrite He, lookup_insert_eq. rewrite He in Hname. cbn. exists (ls_name r).
      destruct (list_rows db !! ls_id r) as [r0|] eqn:E; [|done]. cbn in Hname. injection Hname as Ht0 _.
      rewrite <- Ht0, (Hold r0) by done. by rewrite Ht.
    + rewrite lookup_insert_ne by done. by exists name.
  - reflexivity.
  - intros id x. cbn. intros [[<- <-]|[_ Hx]]%lookup_insert_Some; [by split|].
    apply H3 in Hx as [? ?]. split; [done|lia].
  - intros Hlaw i j r1 r2. cbn. intros Hi Hj Htt Heq.
    assert (∀ k x, list_rows db !! k = Some x → k ≠ ls_id r → ls_tenantId x = ls_tenantId r →
              text_eq server (ls_name r) (ls_name x) = false) as Hfresh.
    { intros k x Hx Hk Htx. pose proof (H3 k x Hx) as [Hkx _]. apply (name_free (ls_tenantId r) (ls_id r) _ db); try done;
        congruence. }
    apply lookup_insert_Some in Hi as [[<- <-]|[Hi1 Hi]], Hj as [[<- <-]|[Hj1 Hj]].
    + done.
    + rewrite (Hfresh j r2) in Heq by done. done.
    + rewrite Hlaw, (Hfresh i r1) in Heq by done. done.
    + by apply (H4 Hlaw i j r1 r2).
  - intros t' c li x Hx. cbn in Hx |- *. destruct (H5 t' c li x Hx) as [Hc (r0 & Hr0 & Ht0)]. split; [done|].
    destruct (decide (li = ls_id r)) as [->|Hne].
    + exists r. rewrite lookup_insert_eq. split; [done|]. rewrite Ht, <- Ht0. symmetry. by apply Hold.
    + exists r0. by rewrite lookup_insert_ne.
  - intros t' Ht'. split_and!; [done| |done|done]. intros id x Hx. cbn. split.
    + intros [[<- <-]|[_ ?]]%lookup_insert_Some; [congruence|done].
    + intros Hin. apply lookup_insert_Some. right. split; [|done]. intros <-. apply Hold in Hin. congruence.
Qed.

(** The deletion of a list nothing refers to, with its links. *)
Lemma keeps_drop_list t li r db :
  list_rows db !! li = Some r → ls_tenantId r = t → list_referenced li db = false → keeps (Some t) db (drop_list li db).
Proof.
  intros Hr Ht Hfree (H1 & H2 & H3 & H4 & H5). unfold list_referenced in Hfree.
  apply orb_false_iff in Hfree as [Hfree _]. split; [split_and!|].
  - destruct H1 as [Hn Hl]. split; [done|]. intros id l Hx. destruct (Hl id l Hx) as (Hi & Hb & name & Hname).
    split; [done|]. split; [done|]. exists name. cbn. rewrite H2 in Hname. unfold list_names in Hname |- *.
    rewrite lookup_fmap in Hname |- *. rewrite lookup_delete_ne; [done|]. intros Heq.
    apply not_true_iff_false in Hfree. apply Hfree, existsb_exists. exists l. split; [|lia].
    apply list_elem_of_In, LeadPages.elem_of_all_leads; [|by rewrite Hi].
    intros i x Hix. by destruct (Hl i x Hix).
  - reflexivity.
  - intros id x. cbn. intros [_ Hx]%lookup_delete_Some. by apply H3.
  - intros Hlaw i j r1 r2. cbn. intros [_ Hi]%lookup_delete_Some [_ Hj]%lookup_delete_Some. by apply (H4 Hlaw i j r1 r2).
  - intros t' c li' x. cbn. intros [Hx Hne]%map_lookup_filter_Some. cbn in Hne.
    destruct (H5 t' c li' x Hx) as [Hc (r0 & Hr0 & Ht0)]. split; [done|]. exists r0. by rewrite lookup_delete_ne.
  - intros t' Ht'. split_and!; [done| | |done].
    + intros id x Hx. cbn. rewrite lookup_delete_Some. split; [by intros [_ ?]|]. intros Hin. split; [|done]. intros <-. congruence.
    + intros c li'. cbn. destruct (links db !! (t', c, li')) as [x|] eqn:E.
      * apply map_lookup_filter_Some. split; [done|]. cbn. intros ->.
        destruct (H5 _ _ _ _ E) as [_ (r0 & Hr0 & Ht0)]. congruence.
      * apply map_lookup_filter_None. by left.
Qed.

(** *** Rows of leads *)

(** A change of rows of the tenant in their places. *)
Definition bulk_step (t : Z) (d d' : LeadDb) : Prop :=
  next_id d' = next_id d ∧ lead_lists d' = lead_lists d ∧
  (∀ id l', leads d' !! id = Some l' → ∃ l, leads d !! id = Some l ∧ l_id l' = l_id l ∧ l_tenantId l' = l_tenantId l ∧
     l_listId l' = l_listId l ∧ (l_tenantId l ≠ t → l' = l)) ∧
  (∀ id l, leads d !! id = Some l → l_tenantId l ≠ t → leads d' !! id = Some l).

#[export] Instance bulk_step_refl t : Reflexive (bulk_step t).
Proof. intros d. split_and!; [done|done| |done]. intros id l Hl. by exists l. Qed.

#[export] Instance bulk_step_trans t : Transitive (bulk_step t).
Proof.
  intros d1 d2 d3 (H1 & H2 & H3 & H4) (H1' & H2' & H3' & H4'). split_and!; [congruence|congruence| |].
  - intros id l3 Hl3. destruct (H3' id l3 Hl3) as (l2 & Hl2 & Hi2 & Ht2 & Hls2 & Hs2).
    destruct (H3 id l2 Hl2) as (l1 & Hl1 & Hi1 & Ht1 & Hls1 & Hs1).
    exists l1. split_and!; [done|congruence|congruence|congruence|]. intros Hne. rewrite Hs2 by congruence. by apply Hs1.
  - intros id l Hl Hne. apply H4'; [|done]. by apply H4.
Qed.

(** The changes a bulk update makes. *)
Definition keeps_place (f : Lead → Lead) : Prop :=
  ∀ l, l_id (f l) = l_id l ∧ l_tenantId (f l) = l_tenantId l ∧ l_listId (f l) = l_listId l.

Lemma update_rows_step t f rows d :
  keeps_place f → (∀ l, l ∈ rows → leads d !! l_id l = Some l ∧ l_tenantId l = t) → bulk_step t d (update_rows f rows d).
Proof.
  intros Hf Hrows. split_and!; [done|done| |]; unfold update_rows, with_leads; cbn [leads].
  - intros id l'. induction rows as [|r rows IH]; cbn [foldr].
    + intros Hl'. by exists l'.
    + intros [[<- <-]|[_ Hl']]%lookup_insert_Some.
      * destruct (Hrows r) as [Hr Ht]; [apply list_elem_of_here|]. exists r. destruct (Hf r) as (-> & -> & ->).
        split_and!; done.
      * apply IH; [|done]. intros l Hl. by apply Hrows, list_elem_of_further.
  - intros id l Hl Hne. induction rows as [|r rows IH]; cbn [foldr]; [done|].
    rewrite lookup_insert_ne.
    + apply IH. intros x Hx. by apply Hrows, list_elem_of_further.
    + intros <-. destruct (Hrows r) as [Hr Ht]; [apply list_elem_of_here|]. congruence.
Qed.

Lemma bulk_step_wf t d d' : bulk_step t d d' → wf_ids d → wf_ids d'.
Proof. intros (_ & _ & H & _) Hwf id l' Hl'. destruct (H id l' Hl') as (l & Hl & -> & _). by apply Hwf. Qed.

Lemma batch_step t li u c size d :
  keeps_place (bu_set u) → wf_ids d → bulk_step t d (update_rows (bu_set u) (batch_of (active_in t li) c size d) d).
Proof.
  intros Hu Hwf. apply update_rows_step; [done|]. intros l Hl.
  assert (l ∈ pending_rows (active_in t li) c d) as Hp
    by (rewrite <- (take_drop size (pending_rows (active_in t li) c d)); apply elem_of_app; by left).
  apply elem_of_pending in Hp as (Hl' & (Ht & _)%active_in_iff & _); done.
Qed.

Lemma sync_loop_step t li fuel u size c n d m d' :
  keeps_place (bu_set u) → wf_ids d → sync_loop server t li fuel u size c n d = Some (m, d') → bulk_step t d d'.
Proof.
  intros Hu. revert c n d. induction fuel as [|fuel IH]; intros c n d Hwf; cbn [sync_loop]; [done|]. cbv zeta.
  pose proof (batch_step t li u c size d Hu Hwf) as Hs. destruct (_ <? _)%nat; [by intros [= _ <-]|].
  destruct (_ =? 0); [by intros [= _ <-]|]. intros Hrec%IH; [by etransitivity|by apply (bulk_step_wf t d)].
Qed.

Lemma worker_loop_step t li fuel fails u size c n d m ok d' :
  keeps_place (bu_set u) → wf_ids d → worker_loop server t li fuel fails u size c n d = Some (m, ok, d') → bulk_step t d d'.
Proof.
  intros Hu. revert c n d. induction fuel as [|fuel IH]; intros c n d Hwf; cbn [worker_loop]; [done|]. cbv zeta.
  destruct (fails (at_batch fuel)); [by intros [= _ _ <-]|].
  pose proof (batch_step t li u c size d Hu Hwf) as Hs.
  destruct (_ && _ || _); [by intros [= _ _ <-]|]. destruct (_ <? size)%nat; [by intros [= _ _ <-]|].
  intros Hrec%IH; [by etransitivity|by apply (bulk_step_wf t d)].
Qed.

Lemma reset_keeps_place : keeps_place reset_lead.
Proof. done. Qed.

Lemma purge_keeps_place now : keeps_place (purge_lead now).
Proof. done. Qed.

(** A bulk step of the leads of the state. *)
Lemma keeps_bulk t d db : bulk_step t (lead_db db) d → keeps (Some t) db (with_lead_db (λ _, d) db).
Proof.
  intros (Hn & Hls & Hback & Hothers) (H1 & H2 & H3 & H4 & H5). split; [split_and!|]; try done.
  - destruct H1 as [Hn0 Hl]. split; [by rewrite <- Hn in Hn0|]. intros id l' Hl'.
    destruct (Hback id l' Hl') as (l & Hx & Hid & Ht & Hli & _). destruct (Hl id l Hx) as (Hi & Hb & name & Hname).
    unfold LeadRuns.row_wf. cbn. rewrite Hid, Ht, Hli, Hn, Hls. split_and!; [done|lia|lia|by exists name].
  - cbn. by rewrite Hls.
  - intros t' Ht'. split_and!; [|done|done|done]. intros id l Hl. cbn. split.
    + intros Hl'. destruct (Hback id l Hl') as (l0 & Hl0 & _ & Htl & _ & Hsame). rewrite Hsame; [done|congruence].
    + intros Hl'. apply Hothers; [done|congruence].
Qed.

Lemma wf_lists_ids db : wf_lists db → wf_ids (lead_db db).
Proof. intros [[_ H] _] id l Hl. by destruct (H id l Hl). Qed.

(** Leads of the tenant inserted into a list of the tenant. *)
Lemma keeps_insert t new f rows r db :
  (∀ i l, l_id (f i l) = i ∧ l_tenantId (f i l) = l_tenantId l ∧ l_listId (f i l) = new) →
  Forall (λ l, l_tenantId l = t) rows → list_rows db !! new = Some r → ls_tenantId r = t →
  keeps (Some t) db (with_lead_db (λ _, insert_all f rows (lead_db db)) db).
Proof.
  intros Hf Hrows Hr Htr. revert db Hr. induction rows as [|x rows IH]; intros db Hr.
  { intros Hwf. split; [|by intros t' _]. exact Hwf. }
  apply Forall_cons in Hrows as [Hx Hrows].
  transitivity (with_lead_db (λ _, insert_lead f (lead_db db) x) db).
  - intros (H1 & H2 & H3 & H4 & H5). destruct (Hf (next_id (lead_db db)) x) as (Hi & Ht & Hl).
    assert (leads (lead_db db) !! next_id (lead_db db) = None) as Hfree.
    { destruct (leads (lead_db db) !! next_id (lead_db db)) as [l|] eqn:E; [|done].
      destruct (proj2 H1 _ _ E) as (_ & ? & _). lia. }
    split; [split_and!|]; try done.
    + destruct H1 as [Hn Hall]. split; [cbn; lia|]. intros id l. cbn.
      intros [[<- <-]|[_ Hl0]]%lookup_insert_Some; unfold LeadRuns.row_wf; cbn.
      * split_and!; [done|lia|lia|]. exists (ls_name r). unfold list_names in H2. by rewrite H2, Hl, Ht, Hx, lookup_fmap, Hr, <- Htr.
      * destruct (Hall id l Hl0) as (? & ? & ?). split_and!; [done|lia|lia|done].
    + intros t' Ht'. split_and!; [|done|done|done]. intros id l Hl0. cbn. split.
      * intros [[<- <-]|[_ ?]]%lookup_insert_Some; [congruence|done].
      * intros Hin. apply lookup_insert_Some. right. split; [|done]. intros <-. congruence.
  - apply (IH Hrows (with_lead_db (λ _, insert_lead f (lead_db db) x) db) Hr).
Qed.

(** The loop of a clone inserts batches. *)
Lemma clone_loop_keeps t source new sn deleted fuel size c n m d r db :
  list_rows db !! new = Some r → ls_tenantId r = t →
  clone_loop server fuel size t source new sn deleted c n (lead_db db) = Some (m, d) →
  keeps (Some t) db (with_lead_db (λ _, d) db).
Proof.
  intros Hr Ht. revert c n db Hr. induction fuel as [|fuel IH]; intros c n db Hr; cbn [clone_loop]; [done|].
  destruct (negb _); [done|]. cbv zeta. set (rows := batch_of _ _ _ _).
  change (foldl (insert_lead (clone_lead new sn)) (lead_db db) rows) with (insert_all (clone_lead new sn) rows (lead_db db)).
  intros Hloop. apply keeps_intro. intros Hwf0.
  assert (keeps (Some t) db (with_lead_db (λ _, insert_all (clone_lead new sn) rows (lead_db db)) db)) as Hstep.
  { apply (keeps_insert t new _ _ r); [done| |done|done].
    apply Forall_forall. intros l Hl. subst rows.
    assert (l ∈ pending_rows (clone_where t source deleted) c (lead_db db)) as Hp
      by (rewrite <- (take_drop size (pending_rows _ c (lead_db db))); apply elem_of_app; by left).
    apply elem_of_pending in Hp as (_ & [Hp _]%andb_prop & _); [|by apply wf_lists_ids].
    unfold in_source in Hp. apply andb_prop in Hp as [Hp _]. by apply Z.eqb_eq in Hp. }
  destruct (_ <? size)%nat; [injection Hloop as _ <-; exact Hstep|].
  destruct (row_at _ _ _ _) as [c'|]; [|injection Hloop as _ <-; exact Hstep].
  transitivity (with_lead_db (λ _, insert_all (clone_lead new sn) rows (lead_db db)) db); [exact Hstep|].
  eapply (IH c' _ (with_lead_db (λ _, insert_all (clone_lead new sn) rows (lead_db db)) db) Hr). exact Hloop.
Qed.

(** The requests on leads. *)
Lemma keeps_lead r db :
  keeps (a_tenantId <$> LeadRuns.request_auth r) db (with_lead_db (λ d, (LeadRuns.handle host lib r d).2) db).
Proof.
  intros (H1 & H2 & H3 & H4 & H5). destruct (LeadRuns.good_handle host lib r (lead_db db) H1) as (Hwf & (Hls & _) & _).
  split; [split_and!; try done; cbn; by rewrite Hls|].
  intros t Ht. split_and!; [|done|done|done]. intros id l Hl. cbn. by apply (LeadRuns.step_others host lib r (lead_db db) t).
Qed.

(** *** The routes *)

Lemma keeps_guard auth perm db k :
  (∀ a, auth = Some a → keeps (Some (a_tenantId a)) db (k a).2) →
  keeps (a_tenantId <$> auth) db (checkListPerm auth perm db k).2.
Proof. intros Hk. destruct auth as [a|]; cbn; [|reflexivity]. destruct (_ && _); [reflexivity|]. by apply Hk. Qed.

Lemma keeps_list_id tn raw db k : (∀ id, keeps tn db (k id).2) → keeps tn db (with_list_id server raw db k).2.
Proof. intros Hk. unfold with_list_id. destruct (Number server raw) as [id|]; [|reflexivity]. destruct (id <=? 0); [reflexivity|apply Hk]. Qed.

Lemma keeps_body {A} tn error (b : option A) db k : (∀ x, keeps tn db (k x).2) → keeps tn db (with_body error b db k).2.
Proof. intros Hk. destruct b as [x|]; [apply Hk|reflexivity]. Qed.

Lemma find_list_some id t db r : find_list id t db = Some r ↔ list_rows db !! id = Some r ∧ ls_tenantId r = t.
Proof.
  unfold find_list. destruct (list_rows db !! id) as [x|]; cbn; [|naive_solver].
  destruct (Z.eqb_spec (ls_tenantId x) t); naive_solver.
Qed.

Lemma keeps_create t actor now input db : keeps (Some t) db (createList server t actor now input db).2.
Proof.
  unfold createList. cbv zeta. destruct (put_list server _ _ db) as [db1|] eqn:E; [|reflexivity].
  cbn [snd]. transitivity db1; [|apply keeps_audit].
  eapply keeps_put_list; [| |exact E]; [done|]. by left.
Qed.

Lemma keeps_update t actor now id input db : keeps (Some t) db (updateList server t actor now id input db).2.
Proof.
  unfold updateList. destruct (find_list id t db) as [r|] eqn:Hr; [|reflexivity]. apply find_list_some in Hr as [Hr Ht].
  cbv zeta. destruct (put_list server _ _ db) as [db1|] eqn:E; [|reflexivity]. cbn [snd].
  transitivity db1; [|apply keeps_audit]. apply keeps_intro. intros (_ & _ & Hrows & _).
  eapply keeps_put_list; [| |exact E]; [done|]. right. split; [done|]. exists r. cbn. by rewrite (proj1 (Hrows _ _ Hr)).
Qed.

Lemma keeps_delete t actor id db : keeps (Some t) db (deleteList t actor id db).2.
Proof.
  unfold deleteList. destruct (find_list id t db) as [r|] eqn:Hr; [|reflexivity]. apply find_list_some in Hr as [Hr Ht].
  destruct (list_referenced id db) eqn:E; [reflexivity|]. cbn [snd].
  transitivity (drop_list id db); [by apply (keeps_drop_list t id r)|apply keeps_audit].
Qed.

Lemma keeps_link t actor now id c p active db : keeps (Some t) db (linkCampaign t actor now id c p active db).2.
Proof.
  unfold linkCampaign. destruct (find_list id t db) as [r|] eqn:Hr; [|reflexivity]. apply find_list_some in Hr as [Hr Ht].
  cbv zeta. destruct (_ && _) eqn:E; [reflexivity|]. cbn [snd]. apply keeps_intro. intros (_ & _ & _ & _ & Hlinks).
  assert ((t, c) ∈ campaigns db) as Hc.
  { destruct (links db !! (t, c, id)) as [x|] eqn:Hx; [by destruct (Hlinks t c id x Hx)|].
    rewrite bool_decide_true in E by done. by case_bool_decide. }
  etransitivity; [eapply (keeps_set_link t c id); done|apply keeps_audit].
Qed.

Lemma keeps_relink t actor id c p active db : keeps (Some t) db (updateCampaignLink t actor id c p active db).2.
Proof.
  unfold updateCampaignLink. cbv zeta. destruct (links db !! (t, c, id)) as [x|] eqn:Hx; [|reflexivity]. cbn [snd].
  apply keeps_intro. intros (_ & _ & _ & _ & Hlinks). destruct (Hlinks _ _ _ _ Hx) as [Hc (r & Hr & Ht)].
  etransitivity; [eapply (keeps_set_link t c id); done|apply keeps_audit].
Qed.

Lemma keeps_unlink t actor id c db : keeps (Some t) db (unlinkCampaign t actor id c db).2.
Proof.
  unfold unlinkCampaign. cbv zeta. destruct (links db !! (t, c, id)); [|reflexivity]. cbn [snd].
  etransitivity; [apply keeps_delete_link|apply keeps_audit].
Qed.

Lemma keeps_sync u action size t actor id db :
  keeps_place (bu_set u) → keeps (Some t) db (sync_run server u action size t actor id db).2.
Proof.
  intros Hu. apply keeps_intro. intros Hwf. unfold sync_run.
  destruct (sync_loop _ _ _ _ _ _ _ _ _) as [[n d]|] eqn:E; [|reflexivity]. cbn [snd].
  transitivity (with_lead_db (λ _, d) db); [|etransitivity; [apply keeps_audit|apply keeps_invalidate]].
  apply keeps_bulk. eapply sync_loop_step; [exact Hu|by apply wf_lists_ids|exact E].
Qed.

Lemma keeps_op op a now id rid db : keeps (Some (a_tenantId a)) db (list_op server op a now id rid db).2.
Proof.
  unfold list_op. destruct (find_list _ _ _); [|reflexivity]. cbv zeta. destruct (_ <=? _).
  - destruct op; apply keeps_sync; done.
  - cbn. etransitivity; [apply keeps_audit|]. etransitivity; [apply keeps_jobs|apply keeps_progress].
Qed.

Lemma keeps_stats t id s now db : keeps (Some t) db (getListStats server t id s now db).2.
Proof.
  unfold getListStats. destruct (cached _ _ _); [reflexivity|]. destruct (compute_stats _ _ _ _ _ _); [|reflexivity].
  apply (keeps_cache t id). intros k Hk. by apply lookup_insert_ne.
Qed.

Lemma keeps_clone t actor now sn id name d deleted db :
  keeps (Some t) db (cloneList server t actor now sn id name d deleted db).2.
Proof.
  unfold cloneList. destruct (find_list id t db) as [r|]; [|reflexivity]. cbv zeta.
  destruct (put_list server _ _ db) as [db1|] eqn:E; [|reflexivity].
  assert (keeps (Some t) db db1) as H1 by (eapply keeps_put_list; [| |exact E]; [done|by left]).
  assert (list_rows db1 !! next_list db = Some (clone_row (next_list db) t now name d r)) as Hrow.
  { unfold put_list in E. destruct (_ || _); [done|]. injection E as <-. apply lookup_insert_eq. }
  set (db2 := auditList _ _ _ _ _ _ db1).
  assert (keeps (Some t) db db2) as H2 by (etransitivity; [exact H1|apply keeps_audit]).
  destruct (clone_loop _ _ _ _ _ _ _ _ _ _ _) as [[m d']|] eqn:El; [|exact H2]. cbn [snd].
  etransitivity; [exact H2|]. eapply clone_loop_keeps; [exact Hrow|done|exact El].
Qed.

(** An attempt at a job. *)
Lemma keeps_fail_job fails msg fin jid j db :
  keeps (Some (jb_tenantId j)) db (fail_job fails msg fin jid j db).
Proof.
  unfold fail_job. destruct (fails at_failed); [reflexivity|].
  destruct (fails at_failed_audit); [apply keeps_progress|].
  etransitivity; [apply keeps_progress|apply keeps_audit].
Qed.

Lemma keeps_run_job fails msg now fin jid j db :
  wf_lists db → keeps (Some (jb_tenantId j)) db (run_job server fails msg now fin jid j db).2.
Proof.
  intros Hwf. unfold run_job. cbv zeta.
  destruct (fails at_count || fails at_start); [apply keeps_fail_job|].
  destruct (worker_loop _ _ _ _ _ _ _ _ _ _) as [[[n ok] d]|] eqn:El; [|apply keeps_progress].
  assert (keeps (Some (jb_tenantId j)) db (with_lead_db (λ _, d) db)) as Hd.
  { apply keeps_bulk. eapply worker_loop_step; [|by apply wf_lists_ids|exact El]. unfold job_update. by destruct (jb_op j). }
  destruct ok; [|etransitivity; [exact Hd|]; etransitivity; [apply keeps_progress|apply keeps_fail_job]].
  set (db0 := setJobProgress _ _ _ _). assert (keeps (Some (jb_tenantId j)) db db0) as H0
    by (etransitivity; [exact Hd|apply keeps_progress]). clearbody db0.
  etransitivity; [exact H0|].
  destruct (fails at_audit); [apply keeps_fail_job|].
  destruct (fails at_cache); [etransitivity; [apply keeps_audit|apply keeps_fail_job]|].
  etransitivity; [apply keeps_audit|]. etransitivity; [apply keeps_invalidate|].
  destruct (fails at_done); [apply keeps_fail_job|apply keeps_progress].
Qed.

Lemma keeps_attempt fails msg now fin jid j m db :
  queue db !! jid = Some (j, m) → keeps (Some (jb_tenantId j)) db (process_job server fails msg now fin jid db).2.
Proof.
  intros Hj. apply keeps_intro. intros Hwf. unfold process_job. rewrite Hj.
  pose proof (keeps_run_job fails msg now fin jid j db Hwf) as Hr.
  destruct (run_job _ _ _ _ _ _ _ _) as [ok db1]. cbn [snd] in *. etransitivity; [exact Hr|apply keeps_jobs].
Qed.

Lemma keeps_serve r db : keeps (acting_tenant r db) db (serve r db).
Proof.
  destruct r as [a q|a now b|a raw|a now raw b|a raw|a now raw|a raw|a now raw b|a raw c b|a raw c|a now raw rid b
                |a now raw rid b|a now sn raw b|r|fails msg now fin jid]; cbn [serve acting_tenant];
    try (apply keeps_guard; intros a' ->; try (apply keeps_list_id; intros id); try (apply keeps_body; intros x)).
  - by destruct (listLists _ _ _ _).
  - apply keeps_create.
  - by destruct (getList _ _ _).
  - apply keeps_update.
  - apply keeps_delete.
  - destruct (find_list _ _ _); [apply keeps_stats|reflexivity].
  - reflexivity.
  - destruct x as [[c p] active]. apply keeps_link.
  - destruct x as [p active]. apply keeps_relink.
  - apply keeps_unlink.
  - apply keeps_op.
  - apply keeps_op.
  - destruct x as [[name d] deleted]. apply keeps_clone.
  - apply keeps_lead.
  - destruct (queue db !! jid) as [[j m]|] eqn:E; [by apply (keeps_attempt fails msg now fin jid j m)|].
    unfold process_job. rewrite E. reflexivity.
Qed.

(** ** Runs *)

Inductive run (quiet : option Z → Prop) : ListDb → list Request → ListDb → Prop :=
  | run_nil db : run quiet db [] db
  | run_step db r rs db' : quiet (acting_tenant r db) → run quiet (serve r db) rs db' → run quiet db (r :: rs) db'.

Definition others (t : Z) (tn : option Z) : Prop := tn ≠ Some t.

(** C19: Over every run of the requests on lists and leads and of the worker's attempts the
    state stays well formed: leads are in lists of their own tenant and requests on leads
    see the lists there are, names of lists are unique in a tenant, links join a list and
    a campaign of one tenant.  And tenants stay apart: while only others act, a tenant's
    leads, lists, links and cached statistics stay, through resets, purges and clones in
    batches, failed or not. *)
Theorem list_runs quiet db rs db' t :
  wf_lists db → run quiet db rs db' →
  wf_lists db' ∧ ((∀ tn, quiet tn → others t tn) → same_data t db db').
Proof.
  intros Hwf Hrun. induction Hrun as [db|db r rs db' Hq _ IH]; [split; [done|by intros _]|].
  destruct (keeps_serve r db Hwf) as [Hwf1 Hsame]. destruct (IH Hwf1) as [Hwf' Hrest].
  split; [done|]. intros Hothers. etransitivity; [apply Hsame; by apply Hothers|by apply Hrest].
Qed.
End system.

(** Tenant 2 purges its list and clones it: the data of tenant 1 stay. *)
Lemma list_runs_witness :
  let admin2 := Some (Sample.admin_of 2) in
  let purge := Q_purge admin2 1746100800000 "20" "r" (Some ()) in
  let clone := Q_clone admin2 1746100800000 1746100800000000 "20" (Some ("C"%string, None, true)) in
  let serve_ := serve ListSample.server Sample.host Sample.lib in
  let db' := serve_ clone (serve_ purge ListSample.db) in
  wf_lists ListSample.server db' ∧ same_data 1 ListSample.db db' ∧ (ls_name <$> list_rows db' !! 21) = Some "C"%string.
Proof.
  intros admin2 purge clone serve_ db'.
  assert (wf_lists ListSample.server ListSample.db) as Hwf.
  { split_and!; [exact Sample.wf|by vm_compute| | |].
    - intros id r Hr. cbn in Hr. apply lookup_insert_Some in Hr as [[<- <-]|[_ Hr]]; [done|].
      by apply lookup_singleton_Some in Hr as [<- <-].
    - intros _ i j r1 r2 H1 H2 Ht _. cbn in H1, H2.
      apply lookup_insert_Some in H1 as [[<- <-]|[_ H1]], H2 as [[<- <-]|[_ H2]]; try done;
        apply lookup_singleton_Some in H1 as [<- <-] || apply lookup_singleton_Some in H2 as [<- <-]; try done.
      by apply lookup_singleton_Some in H2 as [<- <-].
    - intros t c li x Hx. cbn in Hx. apply lookup_singleton_Some in Hx as [[= <- <- <-] _].
      split; [apply (bool_decide_unpack _); vm_compute; exact I|]. by exists (ListSample.row 10 1 "A"). }
  destruct (list_runs ListSample.server Sample.host Sample.lib (others 1) ListSample.db [purge; clone] db' 1 Hwf) as [Hwf' Hsame].
  - apply run_step; [discriminate|]. apply run_step; [discriminate|]. apply run_nil.
  - split; [exact Hwf'|]. split; [by apply Hsame|]. vm_compute. reflexivity.
Defined.
