(* ===== verification/Dnc.v ===== *)
(** The do-not-call registry: the check before a call ([api/src/dnc/check.ts] over
    [api/src/dnc/bloom.ts]), the bulk import, the single-use bypass tokens and the routes
    ([api/src/routes/dnc/index.ts]).

    The registry is a table of the database and, for each list, a Bloom filter in Valkey
    that the check asks first.  What the filter module promises is the class
    [BloomFilter]; phone numbers are parsed by a library ([parsePhone], the number in
    E.164 form when it is valid).  Instants are in seconds, and texts are
    compared exactly. *)

From S2P Require Import Prelude Rbac Sessions Auth.

#[local] Open Scope Z_scope.

(** ** Bloom filters *)

(** The operations of the filter module, and what it promises: no false negatives. *)
Class BloomFilter (F : Type) := {
  bf_empty : F;
  bf_add : string → F → F;
  bf_exists : string → F → bool;
}.

Class BloomLaws (F : Type) `{BloomFilter F} : Prop := {
  bf_exists_added p f : bf_exists p (bf_add p f) = true;
  bf_exists_kept p q f : bf_exists p f = true → bf_exists p (bf_add q f) = true;
}.

(** The filter without false positives, for concrete runs. *)
Definition exact_filter : BloomFilter (gset string) :=
  {| bf_empty := ∅; bf_add p f := {[p]} ∪ f; bf_exists p f := bool_decide (p ∈ f) |}.

Lemma exact_laws : @BloomLaws (gset string) exact_filter.
Proof.
  split.
  - intros p f. apply bool_decide_eq_true. cbn. set_solver.
  - intros p q f Hp%bool_decide_eq_true. apply bool_decide_eq_true. cbn in *. set_solver.
Qed.

(** ** Sources *)

Inductive DncSource : Set := federal | state_list | internal | litigator.

#[export] Instance DncSource_eq_dec : EqDecision DncSource.
Proof. solve_decision. Defined.

Definition source_name (s : DncSource) : string :=
  match s with
  | federal => "federal"
  | state_list => "state"
  | internal => "internal"
  | litigator => "litigator"
  end.

Definition SOURCES : list DncSource := [federal; state_list; internal; litigator].

Definition source_of_name (name : string) : option DncSource :=
  List.find (λ s, String.eqb (source_name s) name) SOURCES.

#[export] Instance DncSource_countable : Countable DncSource.
Proof.
  refine (inj_countable source_name source_of_name _). by intros [].
Defined.

Definition SOURCE_PRIORITY (s : DncSource) : Z :=
  match s with internal => 4 | litigator => 3 | state_list => 2 | federal => 1 end.

Definition sortSourcesByPriority (sources : list DncSource) : list DncSource :=
  sort_by (λ a b, SOURCE_PRIORITY b <=? SOURCE_PRIORITY a) sources.

Definition bloomKey (source : DncSource) (tenantId : option Z) : string :=
  let tenant := match tenantId with Some t => zs t | None => "undefined"%string end in
  match source with
  | federal => "bf:dnc:federal"
  | litigator => "bf:dnc:litigator"
  | internal => "t:" +:+ tenant +:+ ":dnc:internal:bloom"
  | state_list => "t:" +:+ tenant +:+ ":dnc:state:bloom"
  end.

(** ** The registry *)

(** The primary key of the table. *)
Record DncKey := mkKey {
  k_tenant : Z;
  k_phone : string;
  k_source : DncSource;
  k_state : string;
  k_campaign : string;
}.

#[export] Instance DncKey_eq_dec : EqDecision DncKey.
Proof. solve_decision. Defined.

#[export] Instance DncKey_countable : Countable DncKey.
Proof.
  refine (inj_countable' (λ k, (k_tenant k, k_phone k, k_source k, k_state k, k_campaign k))
            (λ '(t, p, s, st, c), mkKey t p s st c) _). by intros [].
Defined.

Record DncEntry := mkEntry { addedBy : option Z; expiresAt : option Z; notes : option string }.

Definition GLOBAL : string := "__GLOBAL__".
Definition ANY_STATE : string := "__".

Abbreviation Table := (gmap DncKey DncEntry).

(** [expires_at IS NULL OR expires_at > NOW()]. *)
Definition in_force (now : Z) (e : DncEntry) : bool :=
  match expiresAt e with Some x => now <? x | None => true end.

(** A text column of [n] characters; [INSERT IGNORE] cuts what is longer. *)
Definition column (n : nat) (s : string) : string := String.substring 0 n s.

(** [INSERT IGNORE] of a row: one with its key in the table stays as it is. *)
Definition insert_ignore (k : DncKey) (e : DncEntry) (rows : Table) : Table :=
  match rows !! k with Some _ => rows | None => <[k := e]> rows end.

Definition expire (now : Z) (e : DncEntry) : DncEntry := mkEntry (addedBy e) (Some now) (notes e).

(** [UPDATE dnc SET expires_at = NOW() WHERE ...]. *)
Definition expire_where (now : Z) (P : DncKey → bool) (rows : Table) : Table :=
  map_imap (λ k e, Some (if P k then expire now e else e)) rows.

(** The table; the filters by key; the bypass tokens, with the instant they expire. *)
Record Registry (F : Type) := mkRegistry {
  rows : Table;
  filters : gmap string F;
  bypass : gmap string (string * Z);
}.
Arguments mkRegistry {F}.
Arguments rows {F}.
Arguments filters {F}.
Arguments bypass {F}.

(** What fails during a check. *)
Record Faults := mkFaults { valkey_down : bool; bf_fails : string → bool; mysql_down : bool }.

Definition no_faults : Faults := mkFaults false (λ _, false) false.

Record CheckRequest := mkRequest {
  phoneE164 : string;
  tenantId : Z;
  campaignId : option string;
  leadState : option string;
  req_sources : list DncSource;
}.

Record CheckResult := mkCheck {
  isDnc : bool;
  sources : list DncSource;
  bloomFalsePositive : bool;
  reason : option string;
}.

Section check.
Context {F : Type} `{BloomFilter F}.
Variable parsePhone : string → option string.
(** [LIMIT 4] without an order. *)
Variable limit4 : list DncKey → list DncKey.

(** ** Filters *)

(** [BF.EXISTS]; a filter that is not there has no members. *)
Definition bf_query (key phone : string) (st : Registry F) : bool :=
  match filters st !! key with Some f => bf_exists phone f | None => false end.

(** [BF.ADD] creates the filter. *)
Definition bf_insert (key phone : string) (fs : gmap string F) : gmap string F :=
  <[key := bf_add phone (default bf_empty (fs !! key))]> fs.

Definition with_rows (r : Table) (st : Registry F) : Registry F := mkRegistry r (filters st) (bypass st).
Definition with_filters (fs : gmap string F) (st : Registry F) : Registry F := mkRegistry (rows st) fs (bypass st).

Definition bloomAdd (source : DncSource) (tenantId : option Z) (phone : string) (st : Registry F) : Registry F :=
  with_filters (bf_insert (bloomKey source tenantId) phone (filters st)) st.

Definition bloomMadd (source : DncSource) (tenantId : option Z) (phones : list string) (st : Registry F) : Registry F :=
  with_filters (foldl (λ fs p, bf_insert (bloomKey source tenantId) p fs) (filters st) phones) st.

(** A source whose query fails counts as positive, all of them when Valkey is down. *)
Definition bloomMexistsPipeline (fl : Faults) (srcs : list DncSource) (tenantId : Z) (phone : string) (st : Registry F)
    : gmap DncSource bool :=
  if valkey_down fl then foldl (λ m s, <[s := true]> m) ∅ srcs
  else foldl (λ m s,
                let key := bloomKey s (Some tenantId) in
                <[s := bf_fails fl key || bf_query key phone st]> m) ∅ srcs.

(** ** The check *)

(** The [WHERE] clause of [confirmMySQL]. *)
Definition row_matches (now : Z) (phone : string) (tenantId : Z) (campId st : string) (positive : list DncSource)
    (k : DncKey) (e : DncEntry) : bool :=
  String.eqb (k_phone k) phone &&
  ((k_tenant k =? tenantId) || (k_tenant k =? 0)) &&
  bool_decide (k_source k ∈ positive) &&
  match k_source k with
  | federal | litigator => true
  | internal => (k_tenant k =? tenantId) && (String.eqb (k_campaign k) GLOBAL || String.eqb (k_campaign k) campId)
  | state_list => (k_tenant k =? 0) && (String.eqb (k_state k) st || String.eqb (k_state k) ANY_STATE)
  end &&
  in_force now e.

Definition matching_rows (now : Z) (phone : string) (tenantId : Z) (campId st : string) (positive : list DncSource)
    (r : Table) : list DncKey :=
  (map_to_list (filter (λ ke, row_matches now phone tenantId campId st positive ke.1 ke.2 = true) r)).*1.

(** [[...new Set(l)]]: the first of equal elements stays. *)
Fixpoint new_set (l : list DncSource) : list DncSource :=
  match l with
  | [] => []
  | x :: l' => x :: filter (λ y, y ≠ x) (new_set l')
  end.

Definition confirmMySQL (now : Z) (phone : string) (tenantId : Z) (campaignId leadState : option string)
    (positive : list DncSource) (r : Table) : list DncSource :=
  let campId := default GLOBAL campaignId in
  let st := default ANY_STATE leadState in
  new_set (k_source <$> limit4 (matching_rows now phone tenantId campId st positive r)).

Definition dncCheck (fl : Faults) (now : Z) (req : CheckRequest) (st : Registry F) : CheckResult :=
  match parsePhone (phoneE164 req) with
  | None => mkCheck true [] false (Some "malformed"%string)
  | Some phone =>
      let bloomHits := bloomMexistsPipeline fl (req_sources req) (tenantId req) phone st in
      let positiveSources := filter (λ s, bloomHits !! s = Some true) (req_sources req) in
      if bool_decide (positiveSources = []) then mkCheck false [] false None
      else
        let confirmedSources :=
          if mysql_down fl then positiveSources
          else confirmMySQL now phone (tenantId req) (campaignId req) (leadState req) positiveSources (rows st) in
        if bool_decide (confirmedSources = []) then mkCheck false [] true None
        else mkCheck true (sortSourcesByPriority confirmedSources) false None
  end.
End check.

(** ** Bulk import *)

Record BulkRow := mkBulk { br_phone : string; br_notes : option string; br_campaignId : option string; br_state : option string }.

(** A row of the statement, after parsing and defaults. *)
Record BulkValue := mkValue { v_phone : string; v_campaign : string; v_state : string; v_notes : string }.

Definition CHUNK_SIZE : nat := 1000.
Definition MAX_ROWS : nat := 5000.

(** A value as a truthy text. *)
Definition truthy (s : string) : option string := match s with EmptyString => None | _ => Some s end.

Definition quote : ascii := "034"%char.
Definition apostrophe : ascii := "'"%char.
Definition backslash : ascii := "\"%char.
Definition carriage_return : ascii := "013"%char.
Definition newline : ascii := "010"%char.

Definition is_quote (c : ascii) : bool := Ascii.eqb c quote || Ascii.eqb c apostrophe.

(** [c.replace(/^["']|["']$/g, "")]: one quotation mark at either end. *)
Definition strip_quotes (l : list ascii) : list ascii :=
  let l1 := match l with c :: l' => if is_quote c then l' else l | [] => [] end in
  match rev l1 with c :: l' => if is_quote c then rev l' else l1 | [] => [] end.

Definition column_text (c : string) : string :=
  String.string_of_list_ascii (strip_quotes (trim_list (String.list_ascii_of_string c))).

(** [csvText.split(/\r?\n/)]: what stays of a carriage return before the line's end the
    trimming of the line takes away, as it does any other. *)
Definition csv_lines (csvText : string) : list string :=
  filter (λ l, l ≠ EmptyString) (trim <$> split_on newline csvText).

Definition is_header (line : string) : bool := String.prefix "phone" (toLowerCase line).

Definition parse_csv_line (line : string) : option BulkRow :=
  let cols := column_text <$> split_on "," line in
  phone ← cols !! 0%nat ≫= truthy;
  Some (mkBulk phone (cols !! 1%nat ≫= truthy) (cols !! 2%nat ≫= truthy) (cols !! 3%nat ≫= truthy)).

Definition parseCsvRows (csvText : string) : list BulkRow :=
  let lines := csv_lines csvText in
  let body := match lines with l :: ls => if is_header l then ls else lines | [] => [] end in
  omap parse_csv_line body.

(** The successive slices of [n] elements; [fuel] of the list's length is enough. *)
Fixpoint chunks {A} (fuel n : nat) (l : list A) : list (list A) :=
  match fuel, l with
  | S fuel', _ :: _ => take n l :: chunks fuel' n (drop n l)
  | _, _ => []
  end.

Section bulk.
Context {F : Type} `{BloomFilter F}.
Variable parsePhone : string → option string.
(** What the server makes of a statement whose texts do not end where they should: the
    state and the campaign are put between apostrophes as they are, of the notes only
    the apostrophes are doubled. *)
Variable raw_statement : Z → DncSource → list BulkValue → Table → result string Table.

Definition plain_text (s : string) : bool := lacks apostrophe s && lacks backslash s.
Definition plain_value (v : BulkValue) : bool :=
  plain_text (v_state v) && plain_text (v_campaign v) && lacks backslash (v_notes v) && plain_text (v_phone v).

Record BulkOpts := mkBulkOpts {
  bo_tenantId : Z;
  bo_source : DncSource;
  bo_csvText : string;
  bo_addedByUserId : option Z;
  bo_defaultNotes : option string;
  bo_campaignId : option string;
  bo_state : option string;
}.

Definition dbTenantId (o : BulkOpts) : Z := if bool_decide (bo_source o = internal) then bo_tenantId o else 0.

Definition bulk_value (o : BulkOpts) (row : BulkRow) : option BulkValue :=
  phone ← parsePhone (trim (br_phone row));
  Some (mkValue phone (default (default GLOBAL (bo_campaignId o)) (br_campaignId row))
          (default (default ANY_STATE (bo_state o)) (br_state row))
          (default (default EmptyString (bo_defaultNotes o)) (br_notes row))).

Definition bulk_key (o : BulkOpts) (v : BulkValue) : DncKey :=
  mkKey (dbTenantId o) (column 16 (v_phone v)) (bo_source o) (column 2 (v_state v)) (column 32 (v_campaign v)).

Definition bulk_entry (o : BulkOpts) (v : BulkValue) : DncEntry :=
  mkEntry (bo_addedByUserId o) None (Some (column 255 (v_notes v))).

Definition insert_values (o : BulkOpts) (vs : list BulkValue) (r : Table) : result string Table :=
  if forallb plain_value vs then Ok (foldl (λ r v, insert_ignore (bulk_key o v) (bulk_entry o v) r) r vs)
  else raw_statement (dbTenantId o) (bo_source o) vs r.

(** The filter the numbers of a chunk go to. *)
Definition bulk_bloom (o : BulkOpts) (phones : list string) (st : Registry F) : Registry F :=
  match bo_source o with
  | internal => bloomMadd internal (Some (bo_tenantId o)) phones st
  | state_list => bloomMadd state_list (Some (bo_tenantId o)) phones st
  | litigator => bloomMadd litigator None phones st
  | federal => st
  end.

(** The loop: rows added and rejected so far; it stops at a statement that fails. *)
Fixpoint bulk_chunks (o : BulkOpts) (cs : list (list BulkRow)) (added rejected : Z) (st : Registry F)
    : result string (Z * Z) * Registry F :=
  match cs with
  | [] => (Ok (added, rejected), st)
  | chunk :: cs' =>
      let valid := omap (bulk_value o) chunk in
      let rejected' := rejected + Z.of_nat (length chunk - length valid) in
      match valid with
      | [] => bulk_chunks o cs' added rejected' st
      | _ =>
          match insert_values o valid (rows st) with
          | Err msg => (Err msg, st)
          | Ok r =>
              bulk_chunks o cs' (added + Z.of_nat (length valid)) rejected'
                (bulk_bloom o (v_phone <$> valid) (with_rows r st))
          end
      end
  end.

Definition bulkImportDnc (o : BulkOpts) (st : Registry F) : result string (Z * Z) * Registry F :=
  let rawRows := parseCsvRows (bo_csvText o) in
  let kept := take MAX_ROWS rawRows in
  bulk_chunks o (chunks (length kept) CHUNK_SIZE kept) 0 (Z.of_nat (length rawRows - MAX_ROWS)) st.
End bulk.

(** ** Bypass tokens *)

Inductive RedeemResult : Set := redeem_ok | redeem_mismatch | redeem_expired.

Record BypassOpts := mkBypassOpts {
  by_tenantId : Z;
  by_phone : string;
  by_source : string;
  by_userId : Z;
  by_justification : string;
}.

Definition bypassKey (tenantId : Z) (tokenHash : string) : string := "t:" +:+ zs tenantId +:+ ":dnc:bypass:" +:+ tokenHash.

Section bypass.
Context {F : Type}.
Variable sha256Hex : string → string.

Definition bypass_payload (o : BypassOpts) : string :=
  by_phone o +:+ "|" +:+ by_source o +:+ "|" +:+ zs (by_userId o) +:+ "|" +:+ sha256Hex (by_justification o).

Definition with_bypass (b : gmap string (string * Z)) (st : Registry F) : Registry F := mkRegistry (rows st) (filters st) b.

(** A stored value that has not expired. *)
Definition get_bypass (now : Z) (key : string) (st : Registry F) : option string :=
  '(payload, x) ← bypass st !! key;
  if now <? x then Some payload else None.

(** [token] is random; [SET key payload NX EX ttl]. *)
Definition mintBypassToken (now : Z) (token : string) (o : BypassOpts) (ttlSeconds : option Z) (st : Registry F)
    : result string (string * Z) * Registry F :=
  let ttl := Z.min (default 60 ttlSeconds) 300 in
  let key := bypassKey (by_tenantId o) (sha256Hex token) in
  match get_bypass now key st with
  | Some _ => (Err "bypass_token_collision"%string, st)
  | None => (Ok (token, now + ttl), with_bypass (<[key := (bypass_payload o, now + ttl)]> (bypass st)) st)
  end.

(** [redeem_dnc_bypass.v1.lua], atomic: the key is deleted whatever it holds. *)
Definition redeem_dnc_bypass (now : Z) (key expected : string) (st : Registry F) : option string * Registry F :=
  match get_bypass now key st with
  | None => (None, st)
  | Some v => (Some (if String.eqb v expected then "OK" else "MISMATCH")%string, with_bypass (delete key (bypass st)) st)
  end.

Definition redeemBypassToken (now : Z) (token : string) (o : BypassOpts) (st : Registry F) : RedeemResult * Registry F :=
  let key := bypassKey (by_tenantId o) (sha256Hex token) in
  let '(r, st') := redeem_dnc_bypass now key (bypass_payload o) st in
  (match r with
   | None => redeem_expired
   | Some s => if String.eqb s "MISMATCH" then redeem_mismatch else if String.eqb s "OK" then redeem_ok else redeem_expired
   end, st').
End bypass.

(** ** Routes *)

Inductive DncResponse :=
  | DncFail (status : Z) (error : string)
  | Checked (isDnc : bool) (sources : list DncSource) (bloomFalsePositive : bool)
  | Added
  | Imported (added rejected : Z)
  | Removed
  | Minted (token : string) (expiresAt : Z)
  | Redeemed.

(** A guard answers with an error, or lets the request pass. *)
Definition checkPerm (auth : option ApiAuth) (perm : Verb) : option DncResponse :=
  match auth with
  | None => Some (DncFail 401 "not_authenticated")
  | Some a =>
      if negb (bool_decide (perm ∈ a_perms a)) && negb (hasPermission (a_role a) perm)
      then Some (DncFail 403 "permission_denied") else None
  end.

Section routes.
Context {F : Type} `{BloomFilter F}.
Variable parsePhone : string → option string.
Variable limit4 : list DncKey → list DncKey.
Variable raw_statement : Z → DncSource → list BulkValue → Table → result string Table.
Variable sha256Hex : string → string.

#[local] Abbreviation Step := (DncResponse * Registry F)%type.

(** The guard, then the rest of the route for the actor. *)
Definition guarded (auth : option ApiAuth) (perm : Verb) (st : Registry F) (k : ApiAuth → Step) : Step :=
  match checkPerm auth perm, auth with
  | None, Some a => k a
  | Some r, _ => (r, st)
  | None, None => (DncFail 401 "not_authenticated", st)
  end.

Definition with_phone (raw : string) (st : Registry F) (k : string → Step) : Step :=
  match parsePhone raw with Some phone => k phone | None => (DncFail 400 "invalid_phone", st) end.

Definition length_is (n : nat) (s : option string) : bool :=
  match s with Some s => (String.length s =? n)%nat | None => true end.

Definition lookup_sources (q : option string) : list DncSource :=
  match q with
  | None | Some EmptyString => [federal; state_list; internal]
  | Some s => omap source_of_name (split_on "," s)
  end.

(** [GET /api/dnc] *)
Definition get_dnc (fl : Faults) (now : Z) (auth : option ApiAuth) (phone : string) (campaignId leadState srcs : option string)
    (st : Registry F) : Step :=
  guarded auth dnc_read st (λ a,
    if negb (length_is 2 leadState) then (DncFail 400 "invalid_query", st)
    else with_phone phone st (λ p,
      let r := dncCheck parsePhone limit4 fl now (mkRequest p (a_tenantId a) campaignId leadState (lookup_sources srcs)) st in
      (Checked (isDnc r) (sources r) (bloomFalsePositive r), st))).

(** The row of [POST /api/dnc], before the number goes to the filter. *)
Definition add_row (a : ApiAuth) (phone : string) (state campaignId notes : option string) (st : Registry F) : Registry F :=
  with_rows
    (insert_ignore
       (mkKey (a_tenantId a) (column 16 phone) internal (column 2 (default ANY_STATE state))
          (column 32 (default GLOBAL campaignId)))
       (mkEntry (Some (a_uid a)) None (column 255 <$> notes)) (rows st)) st.

Definition post_dnc (auth : option ApiAuth) (phone source : string) (state campaignId notes : option string)
    (st : Registry F) : Step :=
  guarded auth dnc_edit st (λ a,
    if negb (String.eqb source "internal" && length_is 2 state &&
             (String.length (default EmptyString notes) <=? 255)%nat) then (DncFail 400 "invalid_body", st)
    else with_phone phone st (λ p,
      (Added, bloomAdd internal (Some (a_tenantId a)) p (add_row a p state campaignId notes st)))).

Definition route_opts (a : ApiAuth) (source : DncSource) (csvText : string) (campaignId state : option string) : BulkOpts :=
  mkBulkOpts (a_tenantId a) source csvText (Some (a_uid a)) None campaignId state.

(** [POST /api/dnc/bulk] *)
Definition post_bulk (auth : option ApiAuth) (source csv campaignId state : option string) (st : Registry F) : Step :=
  guarded auth dnc_edit st (λ a,
    match source_of_name (default "internal"%string source) with
    | None | Some federal => (DncFail 400 "invalid_source", st)
    | Some s =>
        match csv with
        | None | Some EmptyString => (DncFail 400 "missing_csv", st)
        | Some csvText =>
            match bulkImportDnc parsePhone raw_statement (route_opts a s csvText campaignId state) st with
            | (Ok (added, rejected), st') => (Imported added rejected, st')
            | (Err _, st') => (DncFail 500 "Internal Server Error", st')
            end
        end
    end).

(** [DELETE /api/dnc/:phone] *)
Definition delete_dnc (now : Z) (auth : option ApiAuth) (phone : string) (source : option string) (st : Registry F) : Step :=
  guarded auth dnc_edit st (λ a,
    with_phone phone st (λ p,
      let src := default "internal"%string source in
      let shared := String.eqb src "federal" || String.eqb src "litigator" in
      match (if shared then checkPerm auth dnc_bypass else None) with
      | Some r => (r, st)
      | None =>
          let tenant := if shared then 0 else a_tenantId a in
          (Removed,
           with_rows (expire_where now (λ k, String.eqb (k_phone k) p && (k_tenant k =? tenant) &&
                                             String.eqb (source_name (k_source k)) src) (rows st)) st)
      end)).

Definition bypass_opts (a : ApiAuth) (phone : string) (source : DncSource) (justification : string) : BypassOpts :=
  mkBypassOpts (a_tenantId a) phone (source_name source) (a_uid a) justification.

(** [POST /api/dnc/bypass]; the source has passed the schema. *)
Definition post_bypass (now : Z) (token : string) (auth : option ApiAuth) (phone : string) (source : DncSource)
    (justification : string) (ttlSeconds : option Z) (st : Registry F) : Step :=
  guarded auth dnc_bypass st (λ a,
    if negb (length_in 10 500 justification &&
             match ttlSeconds with Some t => (1 <=? t) && (t <=? 300) | None => true end)
    then (DncFail 400 "invalid_body", st)
    else with_phone phone st (λ p,
      match mintBypassToken sha256Hex now token (bypass_opts a p source justification) ttlSeconds st with
      | (Ok (t, x), st') => (Minted t x, st')
      | (Err _, st') => (DncFail 500 "Internal Server Error", st')
      end)).

(** [POST /api/dnc/bypass/redeem] *)
Definition post_redeem (now : Z) (auth : option ApiAuth) (token phone : string) (source : DncSource)
    (justification : string) (st : Registry F) : Step :=
  guarded auth dnc_bypass st (λ a,
    with_phone phone st (λ p,
      match redeemBypassToken sha256Hex now token (bypass_opts a p source justification) st with
      | (redeem_ok, st') => (Redeemed, st')
      | (redeem_mismatch, st') => (DncFail 403 "mismatch", st')
      | (redeem_expired, st') => (DncFail 410 "expired", st')
      end)).
End routes.
