(* ===== verification/DncSync.v ===== *)
(** The daily sync of the federal do-not-call list, [api/src/dnc/sync]: the lines of a
    delta file, their batches of statements, the lock and the log of runs.

    The FTC's service is a parameter ([SoapClient]), and so is which statements fail.  The
    statements of a run are at one instant, but the lock is given back at a later one. *)

From S2P Require Import Prelude Rbac Sessions Auth Dnc.

#[local] Open Scope Z_scope.

(** ** Delta files *)

Inductive Action : Set := act_add | act_delete.

Record DeltaLine := mkDelta { phone10 : string; date : string; action : Action }.

Definition digit_char (c : ascii) : bool := let n := nat_of_ascii c in (48 <=? n)%nat && (n <=? 57)%nat.

Definition is_char (c d : ascii) : bool := Ascii.eqb c d.

(** [/^(\d{10}) (\d{4}-\d{2}-\d{2}) ([AD])$/], character by character. *)
Definition DELTA_LINE_RE : list (ascii → bool) :=
  replicate 10 digit_char ++ [is_char " "] ++ replicate 4 digit_char ++ [is_char "-"] ++ replicate 2 digit_char ++
  [is_char "-"] ++ replicate 2 digit_char ++ [is_char " "; λ c, is_char "A" c || is_char "D" c].

Fixpoint matches (re : list (ascii → bool)) (l : list ascii) : bool :=
  match re, l with
  | [], [] => true
  | p :: re', c :: l' => p c && matches re' l'
  | _, _ => false
  end.

Definition parseDeltaLine (line : string) : option DeltaLine :=
  let l := String.list_ascii_of_string (trim line) in
  if matches DELTA_LINE_RE l then
    Some (mkDelta (String.string_of_list_ascii (take 10 l)) (String.string_of_list_ascii (take 10 (drop 11 l)))
            (if is_char "A" (List.last l " "%char) then act_add else act_delete))
  else None.

(** ** Applying a file *)

Definition BATCH_SIZE : nat := 5000.
Definition BLOOM_BATCH : nat := 100 * 1000.

(** The statements and commands of a run. *)
Inductive Statement :=
  | processAdd (phones : list string)
  | processDel (phones : list string)
  | processBloomAdds (phones : list string).

Definition federal_key (phone : string) : DncKey := mkKey 0 phone federal ANY_STATE GLOBAL.

Section sync.
Context {F : Type} `{BloomFilter F}.
Variable fails : Statement → bool.

Record Loop := mkLoop {
  addBatch : list string;
  delBatch : list string;
  bloomAdds : list string;
  added : Z;
  removed : Z;
  reg : Registry F;
}.

Definition with_reg (r : Registry F) (l : Loop) : Loop := mkLoop (addBatch l) (delBatch l) (bloomAdds l) (added l) (removed l) r.

(** A statement over no numbers is not sent; one that fails ends the run in the state
    before it. *)
Definition perform (now : Z) (s : Statement) (l : Loop) : result Loop Loop :=
  let phones := match s with processAdd ps | processDel ps | processBloomAdds ps => ps end in
  if bool_decide (phones = []) then Ok l
  else if fails s then Err l
  else
    let n := Z.of_nat (length phones) in
    let st := reg l in
    Ok match s with
       | processAdd ps =>
           mkLoop (addBatch l) (delBatch l) (bloomAdds l) (added l + n) (removed l)
             (with_rows (foldl (λ r p, insert_ignore (federal_key p) (mkEntry None None None) r) (rows st) ps) st)
       | processDel ps =>
           mkLoop (addBatch l) (delBatch l) (bloomAdds l) (added l) (removed l + n)
             (with_rows (expire_where now (λ k, (k_tenant k =? 0) && bool_decide (k_source k = federal) &&
                                                bool_decide (k_phone k ∈ ps)) (rows st)) st)
       | processBloomAdds ps => with_reg (bloomMadd federal None ps st) l
       end.

Definition clear_add (l : Loop) : Loop := mkLoop [] (delBatch l) (bloomAdds l) (added l) (removed l) (reg l).
Definition clear_del (l : Loop) : Loop := mkLoop (addBatch l) [] (bloomAdds l) (added l) (removed l) (reg l).
Definition clear_bloom (l : Loop) : Loop := mkLoop (addBatch l) (delBatch l) [] (added l) (removed l) (reg l).

Definition flush (full : bool) (now : Z) (s : Statement) (clear : Loop → Loop) (l : Loop) : result Loop Loop :=
  if full then clear <$> perform now s l else Ok l.

Definition process_line (now : Z) (line : string) (l : Loop) : result Loop Loop :=
  match parseDeltaLine line with
  | None => Ok l
  | Some d =>
      let e164 := ("+1" +:+ phone10 d)%string in
      match action d with
      | act_add =>
          let l1 := mkLoop (addBatch l ++ [e164]) (delBatch l) (bloomAdds l ++ [e164]) (added l) (removed l) (reg l) in
          l2 ← flush (BATCH_SIZE <=? length (addBatch l1))%nat now (processAdd (addBatch l1)) clear_add l1;
          flush (BLOOM_BATCH <=? length (bloomAdds l2))%nat now (processBloomAdds (bloomAdds l2)) clear_bloom l2
      | act_delete =>
          let l1 := mkLoop (addBatch l) (delBatch l ++ [e164]) (bloomAdds l) (added l) (removed l) (reg l) in
          flush (BATCH_SIZE <=? length (delBatch l1))%nat now (processDel (delBatch l1)) clear_del l1
      end
  end.

Fixpoint process_lines (now : Z) (lines : list string) (l : Loop) : result Loop Loop :=
  match lines with
  | [] => Ok l
  | line :: lines' => l1 ← process_line now line l; process_lines now lines' l1
  end.

(** The loop over the file, then what is left in the batches. *)
Definition apply_file (now : Z) (lines : list string) (st : Registry F) : result Loop Loop :=
  l ← process_lines now lines (mkLoop [] [] [] 0 0 st);
  l1 ← perform now (processAdd (addBatch l)) l;
  l2 ← perform now (processDel (delBatch l1)) l1;
  perform now (processBloomAdds (bloomAdds l2)) l2.

(** ** The run *)

Inductive ChangeFileStatus : Set := RequestCompleted | RequestPending | AlreadyDownloadedToday | NoChanges | StatusError.

#[local] Instance ChangeFileStatus_eq_dec : EqDecision ChangeFileStatus.
Proof. solve_decision. Defined.

Definition status_name (s : ChangeFileStatus) : string :=
  match s with
  | RequestCompleted => "RequestCompleted"
  | RequestPending => "RequestPending"
  | AlreadyDownloadedToday => "AlreadyDownloadedToday"
  | NoChanges => "NoChanges"
  | StatusError => "Error"
  end.

(** The answers of the service: to a login, to each request for the status, to the
    request for the file, with its lines once downloaded, and to a logout. *)
Record SoapClient := mkClient {
  logIn : result string string;
  canGetChangeFile : nat → result string ChangeFileStatus;
  getChangeFile : result string (list string);
  logOut : result string unit;
}.

(** Twenty rounds of half a minute; after them the file is asked for all the same. *)
Fixpoint poll (client : SoapClient) (rounds call : nat) : result string unit :=
  match rounds with
  | O => Ok ()
  | S rounds' =>
      s2 ← canGetChangeFile client call;
      match s2 with
      | RequestCompleted => Ok ()
      | RequestPending => poll client rounds' (S call)
      | _ => Err ("Unexpected status: " +:+ status_name s2)%string
      end
  end.

(** The name of a status that ends the run, or the lines of the file. *)
Definition download (client : SoapClient) : result string (string + list string) :=
  _ ← logIn client;
  status ← canGetChangeFile client 0;
  match status with
  | AlreadyDownloadedToday | NoChanges => Ok (inl (status_name status))
  | RequestPending => _ ← poll client 20 1; inr <$> getChangeFile client
  | _ => inr <$> getChangeFile client
  end.

Record SyncLogRow := mkSyncLog { sl_kind : string; sl_outcome : string; sl_added : Z; sl_removed : Z }.

(** The columns of [dnc_sync_log], and those the statements of the run name. *)
Definition sync_log_columns : list string :=
  ["id"; "source"; "kind"; "outcome"; "added"; "removed"; "error_count"; "file_hash"; "started_at"; "completed_at";
   "duration_ms"; "notes"; "created_at"; "prev_hash"; "row_hash"; "hash_at"]%string.

Definition success_columns : list string :=
  ["source"; "kind"; "outcome"; "added_count"; "removed_count"; "started_at"; "completed_at"]%string.

Definition failure_columns : list string :=
  ["source"; "kind"; "outcome"; "error_message"; "started_at"; "completed_at"]%string.

Record SyncState := mkSync { registry : Registry F; lock : option (string * Z); sync_log : list SyncLogRow }.

(** An unknown column is an error. *)
Definition insert_sync_log (columns : list string) (row : SyncLogRow) (st : SyncState) : result string SyncState :=
  match List.find (λ c, negb (bool_decide (c ∈ sync_log_columns))) columns with
  | Some c => Err ("Unknown column '" +:+ c +:+ "' in 'field list'")%string
  | None => Ok (mkSync (registry st) (lock st) (sync_log st ++ [row]))
  end.

Inductive SyncOutcome :=
  | AlreadyRunning
  | Finished (added removed : Z) (skipped : string)
  | Thrown (message : string).

Definition LOCK_TTL : Z := 3600.

(** What the [try] block throws, or returns. *)
Definition sync_body (now : Z) (client : SoapClient) (dryRun : bool) (seed : list string) (st : SyncState)
    : result string SyncOutcome * SyncState :=
  match (if dryRun then Ok (inr seed) else download client) with
  | Err msg => (Err msg, st)
  | Ok (inl skipped) => (Ok (Finished 0 0 skipped), st)
  | Ok (inr lines) =>
      match apply_file now lines (registry st) with
      | Err l => (Err "statement failed"%string, mkSync (reg l) (lock st) (sync_log st))
      | Ok l =>
          let st1 := mkSync (reg l) (lock st) (sync_log st) in
          match (if dryRun then Ok () else logOut client) with
          | Err msg => (Err msg, st1)
          | Ok _ =>
              match insert_sync_log success_columns (mkSyncLog "delta" "success" (added l) (removed l)) st1 with
              | Err msg => (Err msg, st1)
              | Ok st2 => (Ok (Finished (added l) (removed l) EmptyString), st2)
              end
          end
      end
  end.

Definition holds_lock (now : Z) (st : SyncState) : option string :=
  '(id, x) ← lock st;
  if now <? x then Some id else None.

(** [later] is when the [finally] block runs. *)
Definition runFederalDeltaSync (now later : Z) (lockId : string) (client : SoapClient) (dryRun : bool) (seed : list string)
    (st : SyncState) : SyncOutcome * SyncState :=
  match holds_lock now st with
  | Some _ => (AlreadyRunning, st)
  | None =>
      let st1 := mkSync (registry st) (Some (lockId, now + LOCK_TTL)) (sync_log st) in
      let '(outcome, st2) := sync_body now client dryRun seed st1 in
      let '(answer, st3) :=
        match outcome with
        | Ok r => (r, st2)
        | Err msg =>
            (Thrown msg,
             match insert_sync_log failure_columns (mkSyncLog "delta" "failed" 0 0) st2 with Ok st3 => st3 | Err _ => st2 end)
        end in
      (answer,
       if bool_decide (holds_lock later st3 = Some lockId) then mkSync (registry st3) None (sync_log st3) else st3)
  end.
End sync.
