(* ===== verification/DncTheorems.v ===== *)
(** What holds of the do-not-call registry: the check decides what the registry lists,
    the filters cover the table, what a federal sync does to each number, and how bypass
    tokens are spent. *)

From S2P Require Import Prelude Rbac Sessions Auth Dnc DncSync.

#[local] Open Scope Z_scope.

(** ** The reference: what is listed *)

(** The tenants a row is about. *)
Definition visible (k : DncKey) (t : Z) : Prop :=
  match k_source k with
  | internal => k_tenant k = t
  | state_list => k_tenant k = 0
  | federal | litigator => k_tenant k = t ∨ k_tenant k = 0
  end.

(** The requests of a tenant it is about. *)
Definition concerns (k : DncKey) (req : CheckRequest) : Prop :=
  match k_source k with
  | internal => k_campaign k = GLOBAL ∨ campaignId req = Some (k_campaign k)
  | state_list => k_state k = ANY_STATE ∨ leadState req = Some (k_state k)
  | federal | litigator => True
  end.

Definition listed (now : Z) (req : CheckRequest) (phone : string) (r : Table) (s : DncSource) : Prop :=
  ∃ k e, r !! k = Some e ∧ k_phone k = phone ∧ k_source k = s ∧ in_force now e = true ∧
    visible k (tenantId req) ∧ concerns k req.

Lemma default_text (o : option string) (d s : string) : s = d ∨ s = default d o ↔ s = d ∨ o = Some s.
Proof. destruct o as [x|]; cbn; naive_solver. Qed.

Lemma fold_insert_lookup (f : DncSource → bool) srcs (m : gmap DncSource bool) s :
  foldl (λ m s, <[s := f s]> m) m srcs !! s = if bool_decide (s ∈ srcs) then Some (f s) else m !! s.
Proof.
  revert m. induction srcs as [|x srcs IH]; intros m; [done|]. cbn [foldl]. rewrite IH.
  destruct (decide (s ∈ srcs)) as [Hin|Hin].
  - by rewrite !bool_decide_eq_true_2 by set_solver.
  - rewrite (bool_decide_eq_false_2 (s ∈ srcs)) by done. destruct (decide (s = x)) as [->|Hne].
    + rewrite bool_decide_eq_true_2 by set_solver. by rewrite lookup_insert_eq.
    + rewrite bool_decide_eq_false_2 by set_solver. by rewrite lookup_insert_ne.
Qed.

Section check.
Context {F : Type} `{BloomLaws F}.
Variable parsePhone : string → option string.
Variable limit4 : list DncKey → list DncKey.
Hypothesis limit4_spec : ∀ l, limit4 l ⊆+ l ∧ length (limit4 l) = Nat.min 4 (length l).

#[local] Abbreviation dncCheck := (dncCheck parsePhone limit4).

(** Every row of a list that a tenant sees is in the filter the tenant's checks ask. *)
Definition covered (s : DncSource) (t : Z) (st : Registry F) : Prop :=
  ∀ k e, rows st !! k = Some e → k_source k = s → visible k t →
    bf_query (bloomKey s (Some t)) (k_phone k) st = true.

(** A listed source whose filter covers the table is positive, whatever fails. *)
Lemma pipeline_positive fl srcs t phone st s :
  s ∈ srcs → bf_query (bloomKey s (Some t)) phone st = true →
  bloomMexistsPipeline fl srcs t phone st !! s = Some true.
Proof.
  intros Hin Hq. unfold bloomMexistsPipeline. destruct (valkey_down fl).
  - rewrite (fold_insert_lookup (λ _, true)). by rewrite bool_decide_eq_true_2.
  - rewrite (fold_insert_lookup (λ s, bf_fails fl (bloomKey s (Some t)) || bf_query (bloomKey s (Some t)) phone st)).
    rewrite bool_decide_eq_true_2 by done. by rewrite Hq, orb_true_r.
Qed.

Lemma row_matches_spec now phone req positive k e :
  row_matches now phone (tenantId req) (default GLOBAL (campaignId req)) (default ANY_STATE (leadState req)) positive k e = true ↔
  k_phone k = phone ∧ k_source k ∈ positive ∧ in_force now e = true ∧ visible k (tenantId req) ∧ concerns k req.
Proof.
  unfold row_matches, visible, concerns. rewrite !andb_true_iff, orb_true_iff, bool_decide_eq_true, !Z.eqb_eq, String.eqb_eq.
  destruct (k_source k); rewrite ?andb_true_iff, ?orb_true_iff, ?Z.eqb_eq, ?String.eqb_eq;
    rewrite ?(or_comm (_ = default _ _)), ?default_text; naive_solver.
Qed.

Lemma matching_rows_spec now phone req positive r k :
  k ∈ matching_rows now phone (tenantId req) (default GLOBAL (campaignId req)) (default ANY_STATE (leadState req)) positive r ↔
  ∃ e, r !! k = Some e ∧ k_phone k = phone ∧ k_source k ∈ positive ∧ in_force now e = true ∧
    visible k (tenantId req) ∧ concerns k req.
Proof.
  unfold matching_rows. rewrite list_elem_of_fmap. split.
  - intros ((k' & e) & -> & Hke). apply elem_of_map_to_list, map_lookup_filter_Some in Hke as [Hr Hm%row_matches_spec]. eauto.
  - intros (e & Hr & Hm%row_matches_spec). exists (k, e). split; [done|]. apply elem_of_map_to_list, map_lookup_filter_Some. done.
Qed.

Lemma elem_of_new_set x l : x ∈ new_set l ↔ x ∈ l.
Proof.
  induction l as [|y l IH]; cbn; [done|]. rewrite !elem_of_cons, list_elem_of_filter, IH.
  destruct (decide (x = y)); naive_solver.
Qed.

Lemma NoDup_new_set l : NoDup (new_set l).
Proof.
  induction l as [|y l IH]; cbn; constructor; [|by apply NoDup_filter].
  rewrite list_elem_of_filter. naive_solver.
Qed.

Lemma limit4_nil l : limit4 l = [] ↔ l = [].
Proof.
  destruct (limit4_spec l) as [_ Hlen]. split; intros E.
  - rewrite E in Hlen. destruct l; [done|]. cbn in Hlen. lia.
  - apply nil_length_inv. rewrite Hlen, E. done.
Qed.

(** The sources a confirmation reports. *)
Lemma confirm_sound now phone req positive r s :
  s ∈ confirmMySQL limit4 now phone (tenantId req) (campaignId req) (leadState req) positive r →
  s ∈ positive ∧ listed now req phone r s.
Proof.
  unfold confirmMySQL. rewrite elem_of_new_set, list_elem_of_fmap. intros (k & -> & Hk).
  assert (Hk' := elem_of_submseteq _ _ _ Hk (proj1 (limit4_spec _))).
  apply matching_rows_spec in Hk' as (e & Hr & Hp & Hpos & Hf & Hv & Hc). split; [done|]. exists k, e. auto 10.
Qed.

Lemma confirm_nil now phone req positive r :
  confirmMySQL limit4 now phone (tenantId req) (campaignId req) (leadState req) positive r = [] ↔
  ∀ s, s ∈ positive → ¬ listed now req phone r s.
Proof.
  split.
  - unfold confirmMySQL. intros E s Hs (k & e & Hr & Hp & Hks & Hf & Hv & Hc).
    destruct (limit4 _) as [|k' l] eqn:El; [|done]. apply (proj1 (limit4_nil _)) in El.
    assert (Hk : k ∈ matching_rows now phone (tenantId req) (default GLOBAL (campaignId req)) (default ANY_STATE (leadState req)) positive r).
    { apply matching_rows_spec. exists e. by rewrite Hks. }
    rewrite El in Hk. by apply elem_of_nil in Hk.
  - intros Hn. destruct (confirmMySQL _ _ _ _ _ _ _ _) as [|s l] eqn:E; [done|]. exfalso.
    destruct (confirm_sound now phone req positive r s) as [Hs Hl]; [rewrite E; left|by eapply Hn].
Qed.

Lemma confirm_complete now phone req positive r s :
  (length (matching_rows now phone (tenantId req) (default GLOBAL (campaignId req)) (default ANY_STATE (leadState req)) positive r) <= 4)%nat →
  s ∈ positive → listed now req phone r s →
  s ∈ confirmMySQL limit4 now phone (tenantId req) (campaignId req) (leadState req) positive r.
Proof.
  intros Hlen Hs (k & e & Hr & Hp & Hks & Hf & Hv & Hc). unfold confirmMySQL. apply elem_of_new_set, list_elem_of_fmap.
  exists k. split; [done|].
  destruct (limit4_spec (matching_rows now phone (tenantId req) (default GLOBAL (campaignId req))
    (default ANY_STATE (leadState req)) positive r)) as [Hsub Hl].
  rewrite (submseteq_length_Permutation _ _ Hsub) by lia. apply matching_rows_spec. exists e. by rewrite Hks.
Qed.

Lemma matching_mono now phone t c st p1 p2 r :
  (∀ s, s ∈ p1 → s ∈ p2) → matching_rows now phone t c st p1 r ⊆+ matching_rows now phone t c st p2 r.
Proof.
  intros Hsub. apply fmap_submseteq, map_to_list_submseteq, map_filter_subseteq_ext.
  intros k e _. unfold row_matches. rewrite !andb_true_iff, !bool_decide_eq_true. naive_solver.
Qed.

Lemma sorted_sources l :
  sortSourcesByPriority l ≡ₚ l ∧ StronglySorted (λ a b, SOURCE_PRIORITY b <= SOURCE_PRIORITY a) (sortSourcesByPriority l).
Proof.
  split; [apply sort_by_perm|].
  apply (StronglySorted_mono (λ a b, (SOURCE_PRIORITY b <=? SOURCE_PRIORITY a) = true)); [intros a b; apply Z.leb_le|].
  apply sort_by_sorted; intros *; rewrite !Z.leb_le; lia.
Qed.

(** C25: When the filters the check asks cover the table, the check decides what the
    registry lists.  A number some requested source lists is refused, whatever fails and
    whatever false positives the filters give; while the database answers, any other is
    allowed, and the sources reported are requested ones that list the number, by
    priority and without repetition - all of them, unless more than the four rows the
    query returns match. *)
Theorem dnc_check_decides fl now req st phone :
  parsePhone (phoneE164 req) = Some phone →
  (∀ s, s ∈ req_sources req → covered s (tenantId req) st) →
  let r := dncCheck fl now req st in
  let found s := s ∈ req_sources req ∧ listed now req phone (rows st) s in
  ((∃ s, found s) → isDnc r = true) ∧
  (mysql_down fl = false →
     (isDnc r = true → ∃ s, found s) ∧ (∀ s, s ∈ sources r → found s) ∧
     NoDup (sources r) ∧ StronglySorted (λ a b, SOURCE_PRIORITY b <= SOURCE_PRIORITY a) (sources r) ∧
     ((length (matching_rows now phone (tenantId req) (default GLOBAL (campaignId req)) (default ANY_STATE (leadState req))
                 (req_sources req) (rows st)) <= 4)%nat → ∀ s, found s → s ∈ sources r)).
Proof using All.
  intros Hp Hcov. unfold Dnc.dncCheck. rewrite Hp. cbv zeta.
  set (positive := filter (λ s, _ = Some true) (req_sources req)).
  assert (Hpos : ∀ s, s ∈ req_sources req → listed now req phone (rows st) s → s ∈ positive).
  { intros s Hs (k & e & Hr & <- & Hks & _ & Hv & _). apply list_elem_of_filter. split; [|done].
    apply pipeline_positive; [done|]. by apply (Hcov s Hs k e). }
  assert (Hsub : ∀ s, s ∈ positive → s ∈ req_sources req) by (intros s Hs; by apply list_elem_of_filter in Hs as [_ Hs]).
  clearbody positive. case_bool_decide as Hnil.
  { subst positive. assert (Hno : ∀ s, ¬ (s ∈ req_sources req ∧ listed now req phone (rows st) s)).
    { intros s [Hs Hl]. by apply elem_of_nil with s, Hpos. }
    split; [by intros (s & Hs); destruct (Hno s)|]. intros _. cbn. split_and!; [done|by intros s ?%elem_of_nil| | |].
    - constructor.
    - constructor.
    - intros _ s Hs. by destruct (Hno s). }
  destruct (mysql_down fl) eqn:Hdown.
  { rewrite bool_decide_eq_false_2 by done. by split. }
  set (confirmed := confirmMySQL _ _ _ _ _ _ _ _).
  assert (Hsound : ∀ s, s ∈ confirmed → s ∈ req_sources req ∧ listed now req phone (rows st) s).
  { intros s [Hs Hl]%confirm_sound. auto. }
  case_bool_decide as Hc.
  - assert (Hno := proj1 (confirm_nil _ _ _ _ _) Hc). split.
    + intros (s & Hs & Hl). destruct (Hno s); auto.
    + intros _. cbn. split_and!; [done|by intros s ?%elem_of_nil|constructor|constructor|].
      intros _ s (Hs & Hl). destruct (Hno s); auto.
  - split; [done|]. intros _. cbn [isDnc sources].
    destruct (sorted_sources confirmed) as [Hperm Hsort].
    assert (Hnd : NoDup confirmed) by apply NoDup_new_set. split_and!.
    + intros _. destruct confirmed as [|s l] eqn:E; [done|]. exists s. apply Hsound. left.
    + intros s. rewrite Hperm. apply Hsound.
    + by rewrite Hperm.
    + exact Hsort.
    + intros Hlen s (Hs & Hl). rewrite Hperm. apply confirm_complete; [|by apply Hpos|done].
      etrans; [|exact Hlen]. apply submseteq_length, matching_mono. exact Hsub.
Qed.
End check.

(** ** Filters and the table *)

Lemma column_short n s : (String.length s <= n)%nat → column n s = s.
Proof.
  unfold column. revert s. induction n as [|n IH]; intros [|c s] Hl; cbn in *; [done|lia|done|]. by rewrite IH by lia.
Qed.

Section filters.
Context {F : Type} `{BloomLaws F}.

(** Filters only grow. *)
Definition grows (st st' : Registry F) : Prop := ∀ key p, bf_query key p st = true → bf_query key p st' = true.

(** From [st] to [st'] the rows of a list that a tenant sees stay covered. *)
Definition keeps (s : DncSource) (t : Z) (st st' : Registry F) : Prop :=
  grows st st' ∧ ∀ k e, rows st' !! k = Some e → k_source k = s → visible k t →
    is_Some (rows st !! k) ∨ bf_query (bloomKey s (Some t)) (k_phone k) st' = true.

#[export] Instance grows_preorder : PreOrder grows.
Proof. split; [by intros st key p|]. intros a b c Hab Hbc key p Hq. by apply Hbc, Hab. Qed.

#[export] Instance keeps_preorder s t : PreOrder (keeps s t).
Proof.
  split.
  - intros st. split; [done|]. intros k e Hk _ _. left. by exists e.
  - intros a b c [Gab Hab] [Gbc Hbc]. split; [by etrans|]. intros k e Hk Hs Hv.
    destruct (Hbc k e Hk Hs Hv) as [[e' Hk']|Hq]; [|by right].
    destruct (Hab k e' Hk' Hs Hv) as [|Hq]; [by left|]. right. by apply Gbc.
Qed.

Lemma covered_keeps s t st st' : keeps s t st st' → covered s t st → covered s t st'.
Proof.
  intros [Hg Hk] Hc k e Hr Hs Hv. destruct (Hk k e Hr Hs Hv) as [[e' Hr']|]; [|done].
  by eapply Hg, Hc.
Qed.

Lemma query_inserted key p st : bf_query key p (with_filters (bf_insert key p (filters st)) st) = true.
Proof. unfold bf_query, bf_insert. cbn. rewrite lookup_insert_eq. apply bf_exists_added. Qed.

Lemma grows_insert key p st : grows st (with_filters (bf_insert key p (filters st)) st).
Proof.
  intros key' p'. unfold bf_query, bf_insert. cbn. destruct (decide (key = key')) as [->|Hne].
  - rewrite lookup_insert_eq. destruct (filters st !! key'); [|done]. cbn. apply bf_exists_kept.
  - by rewrite lookup_insert_ne.
Qed.

Lemma bloomMadd_cons source t p ps st :
  bloomMadd source t (p :: ps) st = bloomMadd source t ps (bloomAdd source t p st).
Proof. done. Qed.

Lemma grows_madd source t ps st : grows st (bloomMadd source t ps st).
Proof.
  revert st. induction ps as [|p ps IH]; intros st; [by destruct st|]. rewrite bloomMadd_cons.
  etrans; [apply grows_insert|apply IH].
Qed.

Lemma query_madd source t ps p st : p ∈ ps → bf_query (bloomKey source t) p (bloomMadd source t ps st) = true.
Proof.
  revert st. induction ps as [|q ps IH]; intros st Hp; [by apply elem_of_nil in Hp|]. rewrite bloomMadd_cons.
  apply elem_of_cons in Hp as [->|Hp]; [|by apply IH]. apply grows_madd, query_inserted.
Qed.

Lemma rows_madd source t ps st : rows (bloomMadd source t ps st) = rows st.
Proof. done. Qed.

(** Statements that leave the keys of the table. *)
Lemma keeps_same_keys s t st r :
  (∀ k e, r !! k = Some e → is_Some (rows st !! k)) → keeps s t st (with_rows r st).
Proof. intros Hr. split; [by intros key p|]. intros k e Hk _ _. left. by eapply Hr. Qed.

Lemma expire_where_lookup now P r k :
  expire_where now P r !! k = (λ e, if P k then expire now e else e) <$> r !! k.
Proof. unfold expire_where. rewrite map_lookup_imap. by destruct (r !! k). Qed.

Lemma keeps_expire s t now P st : keeps s t st (with_rows (expire_where now P (rows st)) st).
Proof. apply keeps_same_keys. intros k e. rewrite expire_where_lookup. by destruct (rows st !! k). Qed.

Lemma insert_ignore_lookup k k' e r :
  insert_ignore k e r !! k' = if decide (k = k') then Some (default e (r !! k')) else r !! k'.
Proof.
  unfold insert_ignore. destruct (decide (k = k')) as [->|Hne].
  - destruct (r !! k') as [e'|] eqn:E; cbn; [done|]. apply lookup_insert_eq.
  - destruct (r !! k); [done|]. by apply lookup_insert_ne.
Qed.

(** Rows inserted and their numbers added to the filter that covers them. *)
Lemma keeps_insert_madd s t source tenant (ks : list (DncKey * DncEntry)) st :
  (∀ k e, (k, e) ∈ ks → k_source k = s → visible k t → bloomKey source tenant = bloomKey s (Some t)) →
  keeps s t st (bloomMadd source tenant (k_phone ∘ fst <$> ks)
                  (with_rows (foldl (λ r ke, insert_ignore ke.1 ke.2 r) (rows st) ks) st)).
Proof.
  intros Hkey. split.
  - intros key p Hq. by apply grows_madd.
  - intros k e Hk Hs Hv. rewrite rows_madd in Hk. cbn in Hk.
    assert (Hin : ∀ r, foldl (λ r ke, insert_ignore ke.1 ke.2 r) r ks !! k = Some e →
      is_Some (r !! k) ∨ ∃ e', (k, e') ∈ ks).
    { clear Hk Hkey. induction ks as [|[k' e'] ks IH]; cbn; intros r Hr; [left; by exists e|].
      destruct (IH _ Hr) as [[x Hx]|[e2 H2]]; [|right; exists e2; by right].
      rewrite insert_ignore_lookup in Hx. case_decide as E; [|left; by exists x]. subst k'. right. exists e'. left. }
    destruct (Hin _ Hk) as [|[e' He']]; [by left|]. right. erewrite <- Hkey by done.
    apply query_madd, list_elem_of_fmap. by exists (k, e').
Qed.
End filters.

(** ** Federal syncs *)

(** The numbers a file adds and deletes, in order. *)
Definition line_number (a : Action) (line : string) : option string :=
  d ← parseDeltaLine line;
  match action d, a with
  | act_add, act_add | act_delete, act_delete => Some ("+1" +:+ phone10 d)%string
  | _, _ => None
  end.

Definition adds (lines : list string) : list string := omap (line_number act_add) lines.
Definition dels (lines : list string) : list string := omap (line_number act_delete) lines.

Lemma adds_cons line lines : adds (line :: lines) = adds [line] ++ adds lines.
Proof. unfold adds. cbn. by destruct (line_number act_add line). Qed.

Lemma dels_cons line lines : dels (line :: lines) = dels [line] ++ dels lines.
Proof. unfold dels. cbn. by destruct (line_number act_delete line). Qed.

Section sync.
Context {F : Type} `{BloomLaws F}.
Variable now : Z.

#[local] Abbreviation never := (λ _ : Statement, false).

Definition push_add (p : string) (l : @Loop F) : Loop :=
  mkLoop (addBatch l ++ [p]) (delBatch l) (bloomAdds l ++ [p]) (added l) (removed l) (reg l).
Definition push_del (p : string) (l : @Loop F) : Loop :=
  mkLoop (addBatch l) (delBatch l ++ [p]) (bloomAdds l) (added l) (removed l) (reg l).

(** What each statement does to the loop's state when it does not fail. *)
Definition done_add (l : @Loop F) : Loop :=
  mkLoop (addBatch l) (delBatch l) (bloomAdds l) (added l + Z.of_nat (length (addBatch l))) (removed l)
    (with_rows (foldl (λ r p, insert_ignore (federal_key p) (mkEntry None None None) r) (rows (reg l)) (addBatch l)) (reg l)).

Definition deleted (ps : list string) (k : DncKey) : bool :=
  (k_tenant k =? 0) && bool_decide (k_source k = federal) && bool_decide (k_phone k ∈ ps).

Definition done_del (l : @Loop F) : Loop :=
  mkLoop (addBatch l) (delBatch l) (bloomAdds l) (added l) (removed l + Z.of_nat (length (delBatch l)))
    (with_rows (expire_where now (deleted (delBatch l)) (rows (reg l))) (reg l)).

Definition done_bloom (l : @Loop F) : Loop := with_reg (bloomMadd federal None (bloomAdds l) (reg l)) l.

Lemma with_rows_id (st : Registry F) : with_rows (rows st) st = st.
Proof. by destruct st. Qed.

Lemma expire_none r : expire_where now (deleted []) r = r.
Proof.
  apply map_eq. intros k. rewrite expire_where_lookup. unfold deleted.
  rewrite (bool_decide_eq_false_2 (k_phone k ∈ [])) by apply not_elem_of_nil. rewrite andb_false_r. by destruct (r !! k).
Qed.

Lemma perform_add l : perform never now (processAdd (addBatch l)) l = Ok (done_add l).
Proof.
  unfold perform, done_add. case_bool_decide as E; [|done]. rewrite E. cbn. rewrite with_rows_id, Z.add_0_r.
  destruct l; cbn in *. by subst.
Qed.

Lemma perform_del l : perform never now (processDel (delBatch l)) l = Ok (done_del l).
Proof.
  unfold perform, done_del. case_bool_decide as E; [|done]. rewrite E, expire_none, with_rows_id, Z.add_0_r.
  destruct l; cbn in *. by subst.
Qed.

Lemma perform_bloom l : perform never now (processBloomAdds (bloomAdds l)) l = Ok (done_bloom l).
Proof.
  unfold perform, done_bloom. case_bool_decide as E; [|done]. rewrite E. destruct l as [? ? ? ? ? []]. cbn in *. by subst.
Qed.

(** A loop invariant: of the numbers read so far and the state. *)
Section invariant.
Variable I : list string → list string → @Loop F → Prop.
Hypothesis I_push_add : ∀ A D p l, I A D l → I (A ++ [p]) D (push_add p l).
Hypothesis I_push_del : ∀ A D p l, I A D l → I A (D ++ [p]) (push_del p l).
Hypothesis I_add : ∀ A D l, I A D l → I A D (clear_add (done_add l)).
Hypothesis I_del : ∀ A D l, I A D l → I A D (clear_del (done_del l)).
Hypothesis I_bloom : ∀ A D l, I A D l → I A D (clear_bloom (done_bloom l)).

Lemma flush_keeps A D full s clear l l' :
  perform never now s l = Ok l' → I A D l → I A D (clear l') →
  ∃ l'', flush never full now s clear l = Ok l'' ∧ I A D l''.
Proof. intros E Hl Hl'. unfold flush. destruct full; [|by exists l]. rewrite E. by exists (clear l'). Qed.

Lemma process_line_keeps A D line l :
  I A D l → ∃ l', process_line never now line l = Ok l' ∧ I (A ++ adds [line]) (D ++ dels [line]) l'.
Proof.
  intros Hl. unfold process_line, adds, dels, line_number. cbn [omap list_omap].
  destruct (parseDeltaLine line) as [d|]; cbn [mbind option_bind]; [|rewrite !app_nil_r; by exists l].
  destruct (action d); rewrite app_nil_r; set (p := ("+1" +:+ _)%string); cbv zeta.
  - set (l1 := mkLoop _ _ _ _ _ _). assert (H1 : I (A ++ [p]) D l1) by by apply I_push_add.
    destruct (flush_keeps (A ++ [p]) D (BATCH_SIZE <=? length (addBatch l1))%nat (processAdd (addBatch l1)) clear_add l1
      _ (perform_add l1) H1) as (l2 & -> & H2); [by apply I_add|]. cbn [mbind result_bind].
    apply (flush_keeps _ _ _ _ _ _ _ (perform_bloom l2) H2). by apply I_bloom.
  - set (l1 := mkLoop _ _ _ _ _ _). assert (H1 : I A (D ++ [p]) l1) by by apply I_push_del.
    apply (flush_keeps _ _ _ _ _ _ _ (perform_del l1) H1). by apply I_del.
Qed.

Lemma process_lines_keeps A D lines l :
  I A D l → ∃ l', process_lines never now lines l = Ok l' ∧ I (A ++ adds lines) (D ++ dels lines) l'.
Proof.
  revert A D l. induction lines as [|line lines IH]; intros A D l Hl; cbn [process_lines].
  - exists l. by rewrite !app_nil_r.
  - destruct (process_line_keeps A D line l Hl) as (l1 & -> & H1). cbn [mbind result_bind].
    destruct (IH _ _ _ H1) as (l2 & -> & H2). exists l2. split; [done|].
    by rewrite adds_cons, dels_cons, !(assoc_L _).
Qed.

(** After the file nothing is left to send. *)
Lemma apply_file_keeps lines st :
  I [] [] (mkLoop [] [] [] 0 0 st) →
  ∃ l' l, apply_file never now lines st = Ok l' ∧ I (adds lines) (dels lines) l ∧
    (addBatch l = [] ∧ delBatch l = [] ∧ bloomAdds l = []) ∧
    reg l' = reg l ∧ added l' = added l ∧ removed l' = removed l.
Proof using I_push_add I_push_del I_add I_del I_bloom.
  intros Hinit. unfold apply_file. destruct (process_lines_keeps [] [] lines _ Hinit) as (l & -> & Hl).
  cbn [mbind result_bind]. rewrite perform_add. cbn [mbind result_bind]. rewrite perform_del. cbn [mbind result_bind].
  rewrite perform_bloom. exists (done_bloom (done_del (done_add l))).
  exists (clear_bloom (done_bloom (clear_del (done_del (clear_add (done_add l)))))).
  split_and!; [done| |done..]. by apply I_bloom, I_del, I_add.
Qed.
End invariant.

(** ** What a sync does to each number *)

Definition fed_query (p : string) (st : Registry F) : bool := bf_query (bloomKey federal None) p st.

(** The state against the registry before the run, after the lines that add [A] and
    delete [D]. *)
Record sync_inv (st0 : Registry F) (A D : list string) (l : @Loop F) : Prop := {
  si_add p : p ∈ addBatch l → p ∈ A;
  si_del p : p ∈ delBatch l → p ∈ D;
  si_added p : p ∈ A → is_Some (rows (reg l) !! federal_key p) ∨ p ∈ addBatch l;
  si_deleted p : p ∈ D → is_Some (rows st0 !! federal_key p) →
    p ∈ delBatch l ∨ ∃ e, rows (reg l) !! federal_key p = Some e ∧ in_force now e = false;
  si_old k e0 : rows st0 !! k = Some e0 → ∃ e, rows (reg l) !! k = Some e ∧
    (deleted D k = false → e = e0) ∧ (in_force now e0 = false → in_force now e = false);
  si_new k e : rows st0 !! k = None → rows (reg l) !! k = Some e →
    ∃ p, k = federal_key p ∧ p ∈ A ∧ ((p ∉ D) → in_force now e = true);
  si_grows : grows st0 (reg l);
  si_filter p e : rows (reg l) !! federal_key p = Some e → rows st0 !! federal_key p = None →
    fed_query p (reg l) = true ∨ p ∈ bloomAdds l;
  si_pending p : p ∈ addBatch l → fed_query p (reg l) = true ∨ p ∈ bloomAdds l;
  si_count_add : added l + Z.of_nat (length (addBatch l)) = Z.of_nat (length A);
  si_count_del : removed l + Z.of_nat (length (delBatch l)) = Z.of_nat (length D);
  si_bypass : bypass (reg l) = bypass st0;
}.

Lemma sync_start st : sync_inv st [] [] (mkLoop [] [] [] 0 0 st).
Proof.
  split; cbn; try done; try (intros p Hp; by apply elem_of_nil in Hp).
  - intros k e0 Hk. by exists e0.
  - intros k e Hn Hk. congruence.
  - intros p e Hk Hn. congruence.
Qed.

Lemma deleted_mono D D' k : (∀ p, p ∈ D → p ∈ D') → deleted D' k = false → deleted D k = false.
Proof.
  intros Hsub. unfold deleted. destruct (k_tenant k =? 0), (bool_decide (k_source k = federal)); cbn; [|done..].
  rewrite !bool_decide_eq_false. auto.
Qed.

Lemma sync_push_add st0 A D p l : sync_inv st0 A D l → sync_inv st0 (A ++ [p]) D (push_add p l).
Proof.
  intros Hl. split; cbn; try apply Hl.
  - intros q. rewrite !elem_of_app. intros [Hq|]; [left; by apply Hl|by right].
  - intros q. rewrite !elem_of_app. intros [Hq|Hq]; [|by right; right].
    destruct (si_added _ _ _ _ Hl q Hq); auto.
  - intros k e Hn Hk. destruct (si_new _ _ _ _ Hl k e Hn Hk) as (q & -> & Hq & ?). exists q. split_and!; [done| |done].
    apply elem_of_app. by left.
  - intros q e Hk Hn. destruct (si_filter _ _ _ _ Hl q e Hk Hn); [by left|]. right. apply elem_of_app. by left.
  - intros q. rewrite !elem_of_app. intros [Hq|Hq]; [|by right; right]. destruct (si_pending _ _ _ _ Hl q Hq); auto.
  - rewrite !length_app. cbn. pose proof (si_count_add _ _ _ _ Hl). lia.
Qed.

Lemma sync_push_del st0 A D p l : sync_inv st0 A D l → sync_inv st0 A (D ++ [p]) (push_del p l).
Proof.
  intros Hl. split; cbn; try apply Hl.
  - intros q. rewrite !elem_of_app. intros [Hq|]; [left; by apply Hl|by right].
  - intros q. rewrite !elem_of_app. intros [Hq|Hq] Hs; [|by left; right].
    destruct (si_deleted _ _ _ _ Hl q Hq Hs); auto.
  - intros k e0 Hk. destruct (si_old _ _ _ _ Hl k e0 Hk) as (e & He & Hd & Hf). exists e. split_and!; [done| |done].
    intros Hdel. apply Hd. revert Hdel. apply deleted_mono. intros q Hq. apply elem_of_app. by left.
  - intros k e Hn Hk. destruct (si_new _ _ _ _ Hl k e Hn Hk) as (q & -> & Hq & Hd). exists q. split_and!; [done|done|].
    intros Hnd. apply Hd. intros Hq'. apply Hnd, elem_of_app. by left.
  - rewrite !length_app. cbn. pose proof (si_count_del _ _ _ _ Hl). lia.
Qed.

Lemma fold_added_lookup ps r k :
  foldl (λ r p, insert_ignore (federal_key p) (mkEntry None None None) r) r ps !! k =
  match r !! k with
  | Some e => Some e
  | None => if bool_decide (k ∈ federal_key <$> ps) then Some (mkEntry None None None) else None
  end.
Proof.
  revert r. induction ps as [|p ps IH]; intros r.
  { cbn. rewrite bool_decide_eq_false_2 by apply not_elem_of_nil. by destruct (r !! k). }
  cbn [foldl fmap list_fmap]. rewrite IH, insert_ignore_lookup.
  destruct (decide (federal_key p = k)) as [->|Hne].
  - rewrite (bool_decide_eq_true_2 (k ∈ k :: _)) by left. by destruct (r !! k).
  - destruct (r !! k); [done|]. erewrite bool_decide_ext; [done|]. rewrite elem_of_cons. naive_solver.
Qed.

Lemma sync_add st0 A D l : sync_inv st0 A D l → sync_inv st0 A D (clear_add (done_add l)).
Proof.
  intros Hl. split; cbn [addBatch delBatch bloomAdds added removed reg clear_add done_add with_rows rows filters bypass]; try apply Hl.
  - intros p Hp. by apply elem_of_nil in Hp.
  - intros p Hp. left. rewrite fold_added_lookup. destruct (si_added _ _ _ _ Hl p Hp) as [[e ->]|Hb]; [by exists e|].
    rewrite bool_decide_eq_true_2 by (by apply list_elem_of_fmap_2). by destruct (rows (reg l) !! federal_key p).
  - intros p Hp Hs. destruct (si_deleted _ _ _ _ Hl p Hp Hs) as [|(e & He & Hf)]; [by left|]. right. exists e.
    by rewrite fold_added_lookup, He.
  - intros k e0 Hk. destruct (si_old _ _ _ _ Hl k e0 Hk) as (e & He & ?). exists e. by rewrite fold_added_lookup, He.
  - intros k e Hn. rewrite fold_added_lookup. destruct (rows (reg l) !! k) as [e'|] eqn:E.
    + intros [= <-]. by apply (si_new _ _ _ _ Hl).
    + case_bool_decide as Hin; [|done]. intros [= <-]. apply list_elem_of_fmap in Hin as (p & -> & Hp). exists p.
      split_and!; [done|by apply (si_add _ _ _ _ Hl)|done].
  - intros p e Hk Hn. rewrite fold_added_lookup in Hk. destruct (rows (reg l) !! federal_key p) as [e'|] eqn:E.
    + by apply (si_filter _ _ _ _ Hl p e').
    + case_bool_decide as Hin; [|done]. apply list_elem_of_fmap in Hin as (q & [= ->] & Hq). by apply (si_pending _ _ _ _ Hl).
  - intros p Hp. by apply elem_of_nil in Hp.
  - pose proof (si_count_add _ _ _ _ Hl). cbn. lia.
Qed.

Lemma sync_del st0 A D l : sync_inv st0 A D l → sync_inv st0 A D (clear_del (done_del l)).
Proof.
  intros Hl. assert (Hd : ∀ k, deleted D k = false → deleted (delBatch l) k = false).
  { intros k. apply deleted_mono, Hl. }
  split; cbn [addBatch delBatch bloomAdds added removed reg clear_del done_del with_rows rows filters bypass]; try apply Hl.
  - intros p Hp. by apply elem_of_nil in Hp.
  - intros p Hp. rewrite expire_where_lookup, fmap_is_Some. by apply Hl.
  - intros p Hp Hs. right. destruct (rows st0 !! federal_key p) as [e0|] eqn:E0; [|by destruct Hs].
    destruct (si_old _ _ _ _ Hl _ _ E0) as (e & He & _ & _). rewrite expire_where_lookup, He. eexists. split; [done|].
    destruct (si_deleted _ _ _ _ Hl p Hp) as [Hb|(e' & He' & Hf)]; [by rewrite E0| |].
    + unfold deleted. cbn. rewrite !bool_decide_eq_true_2 by done. cbn. apply Z.ltb_irrefl.
    + rewrite He in He'. injection He' as <-. destruct (deleted (delBatch l) _); [apply Z.ltb_irrefl|done].
  - intros k e0 Hk. destruct (si_old _ _ _ _ Hl k e0 Hk) as (e & He & Hsame & Hf). rewrite expire_where_lookup, He.
    eexists. split_and!; [done| |].
    + intros Hnd. rewrite Hd by done. by apply Hsame.
    + intros Hf0. destruct (deleted (delBatch l) k); [apply Z.ltb_irrefl|by apply Hf].
  - intros k e Hn. rewrite expire_where_lookup. destruct (rows (reg l) !! k) as [e'|] eqn:E; [|done]. intros [= <-].
    destruct (si_new _ _ _ _ Hl k e' Hn E) as (p & -> & Hp & Hin). exists p. split_and!; [done|done|].
    intros Hnd. rewrite Hd; [by apply Hin|]. unfold deleted. by rewrite (bool_decide_eq_false_2 (_ ∈ D)), andb_false_r.
  - intros p e Hk Hn. rewrite expire_where_lookup in Hk. destruct (rows (reg l) !! federal_key p) as [e'|] eqn:E; [|done].
    by apply (si_filter _ _ _ _ Hl p e').
  - pose proof (si_count_del _ _ _ _ Hl). cbn. lia.
Qed.

Lemma sync_bloom st0 A D l : sync_inv st0 A D l → sync_inv st0 A D (clear_bloom (done_bloom l)).
Proof.
  intros Hl. assert (Hq : ∀ p, fed_query p (reg l) = true ∨ p ∈ bloomAdds l → fed_query p (bloomMadd federal None (bloomAdds l) (reg l)) = true).
  { intros p [Hq|Hp]; [by apply grows_madd|by apply query_madd]. }
  split; cbn [addBatch delBatch bloomAdds added removed reg clear_bloom done_bloom with_reg]; rewrite ?rows_madd; try apply Hl.
  - etrans; [apply Hl|apply grows_madd].
  - intros p e Hk Hn. left. by apply Hq, (si_filter _ _ _ _ Hl p e).
  - intros p Hp. left. by apply Hq, Hl.
Qed.

Lemma sync_applied lines st :
  ∃ l' l, apply_file never now lines st = Ok l' ∧ sync_inv st (adds lines) (dels lines) l ∧
    (addBatch l = [] ∧ delBatch l = [] ∧ bloomAdds l = []) ∧
    reg l' = reg l ∧ added l' = added l ∧ removed l' = removed l.
Proof.
  apply (apply_file_keeps (sync_inv st)).
  - intros *. apply sync_push_add.
  - intros *. apply sync_push_del.
  - intros *. apply sync_add.
  - intros *. apply sync_del.
  - intros *. apply sync_bloom.
  - apply sync_start.
Qed.

(** Applying a delta file, when no statement fails, sends every line and does to each
    number what follows, in whatever order and batches its lines come.  A number listed
    before is listed after unless some line deletes it; one never listed is listed if
    some line adds it and none deletes it, and has no row if none adds it.  But a number
    that was listed and removed stays removed even when the file adds it again.  The
    federal filter then holds every number with a new row, and all other rows are as
    they were. *)
Theorem federal_sync_outcome lines st :
  ∃ l, apply_file never now lines st = Ok l ∧
    added l = Z.of_nat (length (adds lines)) ∧ removed l = Z.of_nat (length (dels lines)) ∧
    (∀ p,
       let before := rows st !! federal_key p in
       let after := rows (reg l) !! federal_key p in
       match before with
       | Some e0 =>
           ∃ e, after = Some e ∧
             if in_force now e0 then in_force now e = true ↔ (p ∉ dels lines) else in_force now e = false
       | None =>
           ((p ∉ adds lines) → after = None) ∧
           (p ∈ adds lines → fed_query p (reg l) = true ∧ ∃ e, after = Some e ∧ ((p ∉ dels lines) → in_force now e = true))
       end) ∧
    (∀ k, k_source k ≠ federal ∨ k_tenant k ≠ 0 → rows (reg l) !! k = rows st !! k) ∧
    grows st (reg l) ∧ bypass (reg l) = bypass st.
Proof using Type*.
  destruct (sync_applied lines st) as (l' & l & -> & Hl & (Ea & Ed & Eb) & Er & Eadd & Erem). exists l'.
  pose proof (si_count_add _ _ _ _ Hl) as Hca. pose proof (si_count_del _ _ _ _ Hl) as Hcd.
  rewrite Ea in Hca. rewrite Ed in Hcd. cbn in Hca, Hcd. split_and!; [done|lia|lia| | | |].
  - intros p before after. subst before after. rewrite Er. destruct (rows st !! federal_key p) as [e0|] eqn:E0.
    + destruct (si_old _ _ _ _ Hl _ _ E0) as (e & He & Hsame & Hf). exists e. split; [done|].
      destruct (in_force now e0) eqn:Hf0; [|by apply Hf]. destruct (decide (p ∈ dels lines)) as [Hp|Hp].
      * destruct (si_deleted _ _ _ _ Hl p Hp) as [Hb|(e' & He' & Hf')]; [by rewrite E0|rewrite Ed in Hb; by apply elem_of_nil in Hb|].
        rewrite He in He'. injection He' as <-. rewrite Hf'. naive_solver.
      * rewrite Hsame; [naive_solver|]. unfold deleted. by rewrite (bool_decide_eq_false_2 (_ ∈ _)), andb_false_r.
    + split.
      * intros Hp. destruct (rows (reg l) !! federal_key p) as [e|] eqn:E; [|done].
        destruct (si_new _ _ _ _ Hl _ _ E0 E) as (q & [= ->] & Hq & _). done.
      * intros Hp. destruct (si_added _ _ _ _ Hl p Hp) as [[e He]|Hb]; [|rewrite Ea in Hb; by apply elem_of_nil in Hb].
        split.
        { destruct (si_filter _ _ _ _ Hl p e He E0) as [|Hb]; [done|]. rewrite Eb in Hb. by apply elem_of_nil in Hb. }
        exists e. split; [done|]. destruct (si_new _ _ _ _ Hl _ _ E0 He) as (q & [= ->] & _ & Hf). exact Hf.
  - intros k Hk. rewrite Er. destruct (rows st !! k) as [e0|] eqn:E0.
    + destruct (si_old _ _ _ _ Hl _ _ E0) as (e & -> & Hsame & _). rewrite Hsame; [done|]. unfold deleted.
      destruct Hk as [Hk|Hk]; [by rewrite (bool_decide_eq_false_2 (k_source k = _)), andb_false_r|].
      by rewrite (proj2 (Z.eqb_neq _ _) Hk).
    + destruct (rows (reg l) !! k) as [e|] eqn:E; [|done].
      destruct (si_new _ _ _ _ Hl _ _ E0 E) as (q & -> & _). cbn in Hk. naive_solver.
  - rewrite Er. apply Hl.
  - rewrite Er. apply Hl.
Qed.

Lemma sync_keeps lines st l s t : apply_file never now lines st = Ok l → keeps s t st (reg l).
Proof using Type*.
  intros E. destruct (sync_applied lines st) as (l' & l1 & E' & Hl & (_ & _ & Eb) & Er & _). rewrite E in E'. injection E' as <-.
  rewrite Er. split; [apply Hl|]. intros k e Hk Hs Hv. destruct (rows st !! k) as [e0|] eqn:E0; [left; by exists e0|]. right.
  destruct (si_new _ _ _ _ Hl _ _ E0 Hk) as (p & -> & _). cbn in Hs. subst s.
  destruct (si_filter _ _ _ _ Hl p e Hk E0) as [Hq|Hb]; [exact Hq|]. rewrite Eb in Hb. by apply elem_of_nil in Hb.
Qed.
End sync.

(** ** Runs *)

Lemma source_of_name_some name s : source_of_name name = Some s → name = source_name s.
Proof. unfold source_of_name. by intros [_ ->%String.eqb_eq]%find_some. Qed.


(** The requests that change the registry, and the syncs, when none of their statements
    and of their Valkey commands fails; [post_without_valkey] is about one that does. *)
Inductive DncOp :=
  | OpPost (auth : option ApiAuth) (phone source : string) (state campaignId notes : option string)
  | OpBulk (auth : option ApiAuth) (source csv campaignId state : option string)
  | OpDelete (auth : option ApiAuth) (phone : string) (source : option string)
  | OpMint (token : string) (auth : option ApiAuth) (phone : string) (source : DncSource) (justification : string)
      (ttlSeconds : option Z)
  | OpRedeem (auth : option ApiAuth) (token phone : string) (source : DncSource) (justification : string)
  | OpSync (lines : list string).

Section runs.
Context {F : Type} `{BloomLaws F}.
Variable parsePhone : string → option string.
Variable raw_statement : Z → DncSource → list BulkValue → Table → result string Table.
Variable sha256Hex : string → string.
(** A number in E.164 form has at most fifteen digits. *)
Hypothesis parsePhone_length : ∀ raw p, parsePhone raw = Some p → (String.length p <= 16)%nat.

Definition op_step (now : Z) (op : DncOp) (st : Registry F) : Registry F :=
  match op with
  | OpPost auth phone source state c n => (post_dnc parsePhone auth phone source state c n st).2
  | OpBulk auth source csv c state => (post_bulk parsePhone raw_statement auth source csv c state st).2
  | OpDelete auth phone source => (delete_dnc parsePhone now auth phone source st).2
  | OpMint token auth phone source j ttl => (post_bypass parsePhone sha256Hex now token auth phone source j ttl st).2
  | OpRedeem auth token phone source j => (post_redeem parsePhone sha256Hex now auth token phone source j st).2
  | OpSync lines => match apply_file (λ _, false) now lines st with Ok l | Err l => reg l end
  end.

Definition run_ops (ops : list (Z * DncOp)) (st : Registry F) : Registry F :=
  foldl (λ st op, op_step op.1 op.2 st) st ops.

(** No text of a bulk import ends its literal. *)
Definition quoted (op : DncOp) : Prop :=
  match op with
  | OpBulk (Some a) source (Some csv) c state =>
      ∀ src row v, row ∈ parseCsvRows csv → bulk_value parsePhone (route_opts a src csv c state) row = Some v →
        plain_value v = true
  | _ => True
  end.

(** The tenant that imports a state list. *)
Definition state_importer (op : DncOp) : option Z :=
  match op with
  | OpBulk (Some a) (Some "state"%string) _ _ _ => Some (a_tenantId a)
  | _ => None
  end.

Lemma keeps_same s t st st' : rows st' = rows st → filters st' = filters st → keeps s t st st'.
Proof.
  intros Er Ef. split; [intros key p; unfold bf_query; by rewrite Ef|]. intros k e Hk _ _. left. rewrite <- Er. by exists e.
Qed.

Lemma guarded_keeps s t auth perm st k :
  (∀ a, keeps s t st (k a).2) → keeps s t st (guarded auth perm st k).2.
Proof. intros Hk. unfold guarded. destruct (checkPerm auth perm), auth; cbn; [done..|apply Hk|done]. Qed.

Lemma with_phone_keeps s t raw st k :
  (∀ p, parsePhone raw = Some p → keeps s t st (k p).2) → keeps s t st (with_phone parsePhone raw st k).2.
Proof. intros Hk. unfold with_phone. destruct (parsePhone raw) as [p|]; [by apply Hk|done]. Qed.

Lemma post_keeps s t auth phone source state c n st :
  keeps s t st (post_dnc parsePhone auth phone source state c n st).2.
Proof using Type*.
  apply guarded_keeps. intros a. case_match; [done|]. apply with_phone_keeps. intros p Hp%parsePhone_length. cbn [snd].
  pose proof (keeps_insert_madd s t internal (Some (a_tenantId a))
    [(mkKey (a_tenantId a) (column 16 p) internal (column 2 (default ANY_STATE state)) (column 32 (default GLOBAL c)),
      mkEntry (Some (a_uid a)) None (column 255 <$> n))] st) as Hk. cbn -[column] in Hk.
  rewrite (column_short 16 p Hp) in Hk. unfold add_row. rewrite (column_short 16 p Hp). apply Hk.
  intros k e [= -> ->]%list_elem_of_singleton. cbn. intros <- Hv. by rewrite Hv.
Qed.

Lemma delete_keeps s t now auth phone source st : keeps s t st (delete_dnc parsePhone now auth phone source st).2.
Proof using Type*.
  apply guarded_keeps. intros a. apply with_phone_keeps. intros p _. cbv zeta. match goal with |- context [if ?b then checkPerm ?a ?v else None] => destruct (if b then checkPerm a v else None) end; [done|]. apply keeps_expire.
Qed.

Lemma mint_keeps s t now token auth phone source j ttl st :
  keeps s t st (post_bypass parsePhone sha256Hex now token auth phone source j ttl st).2.
Proof using Type*.
  apply guarded_keeps. intros a. case_match; [done|]. apply with_phone_keeps. intros p _. unfold mintBypassToken.
  destruct (get_bypass _ _ _); [done|by apply keeps_same].
Qed.

Lemma redeem_keeps s t now auth token phone source j st :
  keeps s t st (post_redeem parsePhone sha256Hex now auth token phone source j st).2.
Proof using Type*.
  apply guarded_keeps. intros a. apply with_phone_keeps. intros p _. unfold redeemBypassToken, redeem_dnc_bypass.
  destruct (get_bypass _ _ _) as [v|]; [|done]. destruct (String.eqb v _); by apply keeps_same.
Qed.

(** A chunk of a bulk import; only the importing tenant's filter gets the numbers. *)
Lemma chunk_keeps s t o vs st :
  (∀ v, v ∈ vs → (String.length (v_phone v) <= 16)%nat) → bo_source o ≠ federal →
  (s = state_list → bo_source o = state_list → bo_tenantId o = t) →
  keeps s t st (bulk_bloom o (v_phone <$> vs)
    (with_rows (foldl (λ r v, insert_ignore (bulk_key o v) (bulk_entry o v) r) (rows st) vs) st)).
Proof using Type*.
  intros Hlen Hsrc Hst. set (tenant := match bo_source o with litigator => None | _ => Some (bo_tenantId o) end).
  pose proof (keeps_insert_madd s t (bo_source o) tenant ((λ v, (bulk_key o v, bulk_entry o v)) <$> vs) st) as Hk.
  rewrite foldl_fmap in Hk. cbn [fst snd] in Hk.
  assert (Hph : k_phone ∘ fst <$> ((λ v, (bulk_key o v, bulk_entry o v)) <$> vs) = v_phone <$> vs).
  { rewrite <- list_fmap_compose. apply list_fmap_ext. intros i v Hv. cbn. apply column_short, Hlen.
    by eapply list_elem_of_lookup_2. }
  rewrite Hph in Hk. unfold bulk_bloom. subst tenant. destruct (bo_source o) eqn:Es; [done|apply Hk..];
    intros k e (v & [= -> ->] & _)%list_elem_of_fmap Hks Hv; unfold visible, bulk_key, dbTenantId in *; cbn in *;
    rewrite Es in *; subst s; cbn in *.
  - by rewrite Hst.
  - rewrite bool_decide_eq_true_2 in Hv by done. by rewrite Hv.
  - done.
Qed.

Lemma bulk_chunks_keeps s t o cs n m st :
  (∀ c row v, c ∈ cs → row ∈ c → bulk_value parsePhone o row = Some v → plain_value v = true) → bo_source o ≠ federal →
  (s = state_list → bo_source o = state_list → bo_tenantId o = t) →
  keeps s t st (bulk_chunks parsePhone raw_statement o cs n m st).2.
Proof using Type*.
  intros Hplain Hsrc Hst. revert n m st. induction cs as [|c cs IH]; intros n m st; [done|]. cbn [bulk_chunks].
  assert (Hv : ∀ v, v ∈ omap (bulk_value parsePhone o) c → plain_value v = true ∧ (String.length (v_phone v) <= 16)%nat).
  { intros v (row & Hrow & Hv)%list_elem_of_omap. split; [by eapply (Hplain c row v); [left| |]|].
    unfold bulk_value in Hv. destruct (parsePhone _) as [p|] eqn:Hp; [|done]. injection Hv as <-. by eapply parsePhone_length. }
  assert (IH' : ∀ n m st, keeps s t st (bulk_chunks parsePhone raw_statement o cs n m st).2).
  { apply IH. intros c' row v Hc'. apply Hplain. by right. }
  destruct (omap (bulk_value parsePhone o) c) as [|v0 vs0] eqn:E; [apply IH'|]. rewrite <- E in *. clear E.
  unfold insert_values. rewrite (proj2 (forallb_forall _ _)) by (intros v Hin%list_elem_of_In; by apply Hv).
  etrans; [|apply IH']. apply chunk_keeps; [|done..]. intros v Hin. by apply Hv.
Qed.

Lemma in_chunks {A} fuel n (l : list A) c x : c ∈ chunks fuel n l → x ∈ c → x ∈ l.
Proof.
  revert l. induction fuel as [|fuel IH]; intros l Hc Hx; [by apply elem_of_nil in Hc|].
  destruct l as [|y l]; [by apply elem_of_nil in Hc|]. cbn [chunks] in Hc. apply elem_of_cons in Hc as [->|Hc].
  - eapply elem_of_submseteq; [exact Hx|]. apply sublist_submseteq, sublist_take.
  - eapply elem_of_submseteq; [by apply IH|]. apply sublist_submseteq, sublist_drop.
Qed.

Lemma bulk_keeps s t auth source csv c state st :
  quoted (OpBulk auth source csv c state) →
  (s = state_list → ∀ t', state_importer (OpBulk auth source csv c state) = Some t' → t' = t) →
  keeps s t st (post_bulk parsePhone raw_statement auth source csv c state st).2.
Proof using Type*.
  intros Hq Hst. unfold post_bulk, guarded. destruct (checkPerm auth dnc_edit), auth as [a|]; try done. cbn in Hq.
  destruct (source_of_name _) as [src|] eqn:Es; [|done].
  assert (Hk : ∀ csvText, csv = Some csvText → src ≠ federal →
    keeps s t st (bulkImportDnc parsePhone raw_statement (route_opts a src csvText c state) st).2).
  { intros csvText -> Hsrc. unfold bulkImportDnc. apply bulk_chunks_keeps; [|done|].
    - intros ch row v Hch Hrow. apply Hq. eapply elem_of_submseteq; [exact (in_chunks _ _ _ _ _ Hch Hrow)|].
      apply sublist_submseteq, sublist_take.
    - cbn. intros -> ->. apply Hst; [done|]. cbn. destruct source as [source|]; [|done]. apply source_of_name_some in Es. cbn in Es. by subst source. }
  destruct src; [done| | |]; (destruct csv as [[|ch csvText]|]; [done| |done]);
    (specialize (Hk _ eq_refl); destruct (bulkImportDnc _ _ _ _) as [[[n m]|] st']; by apply Hk).
Qed.

Definition empty_registry : Registry F := mkRegistry ∅ ∅ ∅.

Lemma run_covered ops s t :
  Forall (λ op, quoted op.2) ops →
  (s = state_list → ∀ op t', op ∈ ops → state_importer op.2 = Some t' → t' = t) →
  covered s t (run_ops ops empty_registry).
Proof using Type*.
  intros Hq Hst. assert (Hk : ∀ st, keeps s t st (run_ops ops st)).
  { induction ops as [|[now op] ops IH]; intros st; [done|]. apply Forall_cons in Hq as [Hop Hq]. cbn [run_ops foldl].
    etrans; [|apply IH; [done|]]; [|intros E op' t' Hin; apply Hst; [done|by right]]. cbn [fst snd] in *. destruct op; cbn [op_step].
    - apply post_keeps.
    - apply bulk_keeps; [done|]. intros E t'. apply (Hst E (now, OpBulk auth source csv campaignId state)). left.
    - apply delete_keeps.
    - apply mint_keeps.
    - apply redeem_keeps.
    - destruct (sync_applied now lines st) as (l & _ & E & _). rewrite E. by eapply sync_keeps. }
  eapply covered_keeps; [apply Hk|]. intros k e Hr. cbn in Hr. by rewrite lookup_empty in Hr.
Qed.

(** C26: In every run of requests and syncs from an empty registry, whatever their instants
    and order, when their statements and Valkey commands all succeed and no text of a bulk
    import ends its literal: every federal, litigator and internal row is in the filter
    that the checks of each tenant it is about ask; so is every state row for a tenant
    that alone imports state lists. *)
Theorem registry_covered ops s t :
  Forall (λ op, quoted op.2) ops →
  (s = state_list → ∀ op t', op ∈ ops → state_importer op.2 = Some t' → t' = t) →
  covered s t (run_ops ops empty_registry).
Proof using Type*. apply run_covered. Qed.
End runs.

(** ** Where the registry is missed *)

Section missed.
Context {F : Type} `{BloomLaws F}.
Variable parsePhone : string → option string.
Variable limit4 : list DncKey → list DncKey.

(** A number that is in none of the filters a check asks is allowed, whatever the table
    says, when Valkey answers. *)
Lemma unfiltered_allowed fl now req st phone :
  parsePhone (phoneE164 req) = Some phone → valkey_down fl = false → (∀ key, bf_fails fl key = false) →
  (∀ s, s ∈ req_sources req → bf_query (bloomKey s (Some (tenantId req))) phone st = false) →
  dncCheck parsePhone limit4 fl now req st = mkCheck false [] false None.
Proof.
  intros Hp Hv Hb Hq. unfold dncCheck. rewrite Hp. cbv zeta. rewrite bool_decide_eq_true_2; [done|].
  destruct (filter _ _) as [|s l] eqn:E; [done|]. exfalso.
  assert (Hs : s ∈ s :: l) by left. rewrite <- E in Hs. apply list_elem_of_filter in Hs as [Hs Hin]. revert Hs.
  unfold bloomMexistsPipeline. rewrite Hv.
  rewrite (fold_insert_lookup (λ s, bf_fails fl (bloomKey s (Some (tenantId req))) ||
    bf_query (bloomKey s (Some (tenantId req))) phone st)).
  by rewrite bool_decide_eq_true_2, Hb, Hq by done.
Qed.

(** The route stores the row and then adds the number to the filter: when Valkey fails in
    between, the route answers with an error, the number has its row, and every check
    allows it, until something else puts the number in a filter. *)
Theorem post_without_valkey fl now req a phone state c n st :
  parsePhone (phoneE164 req) = Some phone → valkey_down fl = false → (∀ key, bf_fails fl key = false) →
  (∀ s, s ∈ req_sources req → bf_query (bloomKey s (Some (tenantId req))) phone st = false) →
  let st' := add_row a phone state c n st in
  (∃ k, is_Some (rows st' !! k) ∧ k_tenant k = a_tenantId a ∧ k_phone k = column 16 phone ∧ k_source k = internal) ∧
  dncCheck parsePhone limit4 fl now req st' = mkCheck false [] false None.
Proof.
  intros Hp Hv Hb Hq st'. split; [|by apply (unfiltered_allowed fl now req st' phone)].
  exists (mkKey (a_tenantId a) (column 16 phone) internal (column 2 (default ANY_STATE state))
    (column 32 (default GLOBAL c))).
  split; [|by split_and!]. unfold st', add_row. cbn [rows with_rows].
  rewrite insert_ignore_lookup, decide_True by done. by eexists.
Qed.
End missed.

Lemma bloomKey_state_inj t t' : bloomKey state_list (Some t) = bloomKey state_list (Some t') → t = t'.
Proof. unfold bloomKey. autorewrite with strs. intros [= E]. by apply app_suffix_inj in E as [E%(inj zs) _]. Qed.

Section state_lists.
Context {F : Type} `{BloomLaws F}.
Variable parsePhone : string → option string.
Variable limit4 : list DncKey → list DncKey.
Variable raw_statement : Z → DncSource → list BulkValue → Table → result string Table.

Lemma madd_other source t ps key p (st : Registry F) :
  key ≠ bloomKey source t → bf_query key p (bloomMadd source t ps st) = bf_query key p st.
Proof.
  intros Hne. revert st. induction ps as [|q ps IH]; intros st; [done|]. rewrite bloomMadd_cons, IH.
  unfold bf_query, bloomAdd, bf_insert. cbn. by rewrite lookup_insert_ne.
Qed.

(** A bulk import of a state list adds to one filter. *)
Lemma bulk_chunks_other o cs n m st t p :
  bo_source o = state_list → t ≠ bo_tenantId o →
  bf_query (bloomKey state_list (Some t)) p (bulk_chunks parsePhone raw_statement o cs n m st).2 =
  bf_query (bloomKey state_list (Some t)) p st.
Proof.
  intros Es Hne. revert n m st. induction cs as [|c cs IH]; intros n m st; [done|]. cbn [bulk_chunks].
  destruct (omap _ c) as [|v vs] eqn:E; [apply IH|]. rewrite <- E. destruct (insert_values _ _ _ _) as [r|]; [|done].
  rewrite IH. unfold bulk_bloom. rewrite Es, madd_other; [done|]. by intros ?%bloomKey_state_inj.
Qed.

Lemma fold_values_lookup o vs r k :
  foldl (λ r v, insert_ignore (bulk_key o v) (bulk_entry o v) r) r vs !! k =
  match r !! k with
  | Some e => Some e
  | None => bulk_entry o <$> List.find (λ v, bool_decide (bulk_key o v = k)) vs
  end.
Proof.
  revert r. induction vs as [|v vs IH]; intros r; [cbn; by destruct (r !! k)|]. cbn [foldl List.find]. rewrite IH, insert_ignore_lookup.
  destruct (decide (bulk_key o v = k)) as [->|Hne].
  - rewrite bool_decide_eq_true_2 by done. by destruct (r !! k).
  - rewrite (bool_decide_eq_false_2 (bulk_key o v = k)) by done. done.
Qed.

(** Rows of the table stay; after an import that succeeds, every number of the file has a
    row, which never expires if it is new. *)
Lemma bulk_chunks_rows o cs n m st r' st' :
  (∀ c row v, c ∈ cs → row ∈ c → bulk_value parsePhone o row = Some v → plain_value v = true) →
  bulk_chunks parsePhone raw_statement o cs n m st = (Ok r', st') →
  (∀ k e, rows st !! k = Some e → rows st' !! k = Some e) ∧
  (∀ c row v, c ∈ cs → row ∈ c → bulk_value parsePhone o row = Some v →
     ∃ e, rows st' !! bulk_key o v = Some e ∧ (rows st !! bulk_key o v = None → expiresAt e = None)).
Proof.
  intros Hplain. revert n m st. induction cs as [|c cs IH]; intros n m st; cbn [bulk_chunks].
  { intros [= <- <-]. split; [done|]. intros c row v Hc. by apply elem_of_nil in Hc. }
  assert (Hall : forallb plain_value (omap (bulk_value parsePhone o) c) = true).
  { apply forallb_forall. intros v (row & Hrow & Hv)%list_elem_of_In%list_elem_of_omap. eapply Hplain; [left|done|done]. }
  assert (IH' : ∀ n m st, bulk_chunks parsePhone raw_statement o cs n m st = (Ok r', st') →
    (∀ k e, rows st !! k = Some e → rows st' !! k = Some e) ∧
    (∀ c row v, c ∈ cs → row ∈ c → bulk_value parsePhone o row = Some v →
       ∃ e, rows st' !! bulk_key o v = Some e ∧ (rows st !! bulk_key o v = None → expiresAt e = None))).
  { intros *. apply IH. intros c' row v Hc. apply Hplain. by right. }
  destruct (omap _ c) as [|v0 vs] eqn:Ev.
  - intros [Hkeep Hrows]%IH'. split; [done|]. intros c' row v [->|Hc]%elem_of_cons Hrow Hv; [|by eapply Hrows].
    assert (Hin : v ∈ omap (bulk_value parsePhone o) c) by (apply list_elem_of_omap; eauto). rewrite Ev in Hin.
    by apply elem_of_nil in Hin.
  - rewrite <- Ev in *. unfold insert_values. rewrite Hall.
    set (r := foldl _ _ _). intros E. destruct (IH' _ _ _ E) as [Hkeep Hrows]. clear E IH IH'.
    assert (Er : rows (bulk_bloom o (v_phone <$> omap (bulk_value parsePhone o) c) (with_rows r st)) = r).
    { unfold bulk_bloom. by destruct (bo_source o). }
    rewrite Er in *. split; [intros k e Hk; apply Hkeep; subst r; by rewrite fold_values_lookup, Hk|].
    intros c' row v [->|Hc]%elem_of_cons Hrow Hv.
    + assert (Hin : v ∈ omap (bulk_value parsePhone o) c) by (apply list_elem_of_omap; eauto).
      assert (Hr : ∃ e, r !! bulk_key o v = Some e ∧ (rows st !! bulk_key o v = None → expiresAt e = None)).
      { subst r. rewrite fold_values_lookup. destruct (rows st !! bulk_key o v) as [e|]; [by exists e|].
        destruct (List.find _ _) as [v'|] eqn:Ef; [by exists (bulk_entry o v')|]. exfalso.
        apply list_elem_of_In, (find_none _ _ Ef v) in Hin. by rewrite bool_decide_eq_true_2 in Hin. }
      destruct Hr as (e & He & Hx). exists e. auto.
    + destruct (Hrows c' row v Hc Hrow Hv) as (e & He & Hx). exists e. split; [done|]. intros Hn.
      destruct (r !! bulk_key o v) as [e1|] eqn:E1; [|by apply Hx]. rewrite (Hkeep _ _ E1) in He. injection He as <-.
      subst r. rewrite fold_values_lookup, Hn in E1. destruct (List.find _ _); [|done]. by injection E1 as <-.
Qed.

Lemma chunks_all {A} fuel n (l : list A) x :
  (0 < n)%nat → (length l <= fuel)%nat → x ∈ l → ∃ c, c ∈ chunks fuel n l ∧ x ∈ c.
Proof.
  intros Hn. revert l. induction fuel as [|fuel IH]; intros l Hl Hx.
  { destruct l; [by apply elem_of_nil in Hx|cbn in Hl; lia]. }
  destruct l as [|y l]; [by apply elem_of_nil in Hx|]. cbn [chunks]. rewrite <- (take_drop n (y :: l)) in Hx.
  apply elem_of_app in Hx as [Hx|Hx]; [eexists; split; [left|done]|].
  destruct (IH (drop n (y :: l))) as (c & Hc & Hxc); [rewrite length_drop; cbn in *; lia|done|].
  exists c. split; [by right|done].
Qed.

Lemma chunk_size_pos : (0 < CHUNK_SIZE)%nat.
Proof. apply Nat.lt_0_succ. Qed.

#[local] Opaque MAX_ROWS CHUNK_SIZE.

Lemma bulk_import_rows o st r' st' row v :
  bulkImportDnc parsePhone raw_statement o st = (Ok r', st') →
  (∀ row v, row ∈ parseCsvRows (bo_csvText o) → bulk_value parsePhone o row = Some v → plain_value v = true) →
  row ∈ take MAX_ROWS (parseCsvRows (bo_csvText o)) → bulk_value parsePhone o row = Some v →
  ∃ e, rows st' !! bulk_key o v = Some e ∧ (rows st !! bulk_key o v = None → expiresAt e = None).
Proof.
  intros Himp Hplain Hrow Hv. unfold bulkImportDnc in Himp. apply bulk_chunks_rows in Himp as [_ Hrows].
  - destruct (chunks_all _ CHUNK_SIZE _ row chunk_size_pos (le_n _) Hrow) as (ch & Hch & Hin). by eapply Hrows.
  - intros ch row' v' Hch Hrow'. apply Hplain. eapply elem_of_submseteq; [exact (in_chunks _ _ _ _ _ Hch Hrow')|].
    apply sublist_submseteq, sublist_take.
Qed.

(** A state list is stored for every tenant, but its numbers go to the filter of the
    tenant that imports it alone.  After an import that succeeds, a number of the list
    that was in no row before is listed for a request of any tenant from the state; yet
    the check of another tenant, whose filter did not have it, allows the call. *)
Theorem state_list_one_tenant fl now a csv c st n m st' row v req :
  bulkImportDnc parsePhone raw_statement (route_opts a state_list csv c None) st = (Ok (n, m), st') →
  (∀ row v, row ∈ parseCsvRows csv → bulk_value parsePhone (route_opts a state_list csv c None) row = Some v → plain_value v = true) →
  row ∈ take MAX_ROWS (parseCsvRows csv) → bulk_value parsePhone (route_opts a state_list csv c None) row = Some v →
  (String.length (v_phone v) <= 16)%nat → (String.length (v_state v) <= 2)%nat →
  rows st !! bulk_key (route_opts a state_list csv c None) v = None →
  tenantId req ≠ a_tenantId a → req_sources req = [state_list] → leadState req = Some (v_state v) →
  parsePhone (phoneE164 req) = Some (v_phone v) →
  bf_query (bloomKey state_list (Some (tenantId req))) (v_phone v) st = false →
  valkey_down fl = false → (∀ key, bf_fails fl key = false) →
  listed now req (v_phone v) (rows st') state_list ∧ isDnc (dncCheck parsePhone limit4 fl now req st') = false.
Proof.
  intros Himp Hplain Hrow Hv Hp16 Hs2 Hnew Hne Hsrc Hstate Hphone Hq Hvd Hbf. split.
  - destruct (bulk_import_rows _ _ _ _ row v Himp Hplain Hrow Hv) as (e & He & Hx).
    exists (bulk_key (route_opts a state_list csv c None) v), e. split_and!; [done| |done| |done|].
    + cbn. by apply column_short.
    + unfold in_force. by rewrite Hx.
    + right. cbn. by rewrite column_short.
  - rewrite unfiltered_allowed with (phone := v_phone v); [done..|]. rewrite Hsrc. intros s ->%list_elem_of_singleton.
    replace st' with (bulkImportDnc parsePhone raw_statement (route_opts a state_list csv c None) st).2 by by rewrite Himp.
    unfold bulkImportDnc. rewrite bulk_chunks_other; [exact Hq|done|exact Hne].
Qed.
End state_lists.

(** ** Removed numbers, bypass tokens and the run of a sync *)

Section requests.
Context {F : Type} `{BloomLaws F}.
Variable parsePhone : string → option string.
Variable sha256Hex : string → string.

(** A number removed from a list cannot be put back: adding it answers [Added], but
    the row that expired keeps its key, [INSERT IGNORE] leaves it as it is, and every
    request sees the same lists as before. *)
Theorem removed_number_stays_callable now a raw p state campaign notes e st :
  parsePhone raw = Some p → checkPerm (Some a) dnc_edit = None → length_is 2 state = true →
  (String.length (default EmptyString notes) <= 255)%nat →
  rows st !! mkKey (a_tenantId a) (column 16 p) internal (column 2 (default ANY_STATE state))
    (column 32 (default GLOBAL campaign)) = Some e → in_force now e = false →
  let '(resp, st') := post_dnc parsePhone (Some a) raw "internal" state campaign notes st in
  resp = Added ∧ rows st' = rows st ∧
  ∀ later req s, now <= later → ¬ (∃ e', rows st' !! mkKey (a_tenantId a) (column 16 p) internal
    (column 2 (default ANY_STATE state)) (column 32 (default GLOBAL campaign)) = Some e' ∧ in_force later e' = true) ∧
    (listed later req p (rows st') s ↔ listed later req p (rows st) s).
Proof using F H parsePhone.
  clear sha256Hex. intros Hp Hperm Hstate Hnotes He Hf. unfold post_dnc, guarded. rewrite Hperm, Hstate.
  rewrite (proj2 (Nat.leb_le _ _) Hnotes). cbn [andb negb String.eqb]. cbn -[column]. unfold with_phone. rewrite Hp.
  assert (Er : rows (add_row a p state campaign notes st) = rows st).
  { unfold add_row, insert_ignore. cbn [rows with_rows]. by rewrite He. }
  cbn [fst snd]. split_and!; [done|exact Er|]. intros later req s Hl. change (rows (bloomAdd _ _ _ ?st)) with (rows st).
  rewrite Er. split; [|done]. intros (e' & He' & Hf'). rewrite He in He'. injection He' as <-.
  unfold in_force in *. destruct (expiresAt e) as [x|]; [|done]. apply Z.ltb_ge in Hf. apply Z.ltb_lt in Hf'. lia.
Qed.

(** The payload determines what a token was minted for. *)
Lemma bypass_payload_inj o o' :
  lacks "|" (by_phone o) = true → lacks "|" (by_phone o') = true →
  lacks "|" (by_source o) = true → lacks "|" (by_source o') = true →
  bypass_payload sha256Hex o = bypass_payload sha256Hex o' →
  by_phone o = by_phone o' ∧ by_source o = by_source o' ∧ by_userId o = by_userId o' ∧
  sha256Hex (by_justification o) = sha256Hex (by_justification o').
Proof.
  intros Hp Hp' Hs Hs'. unfold bypass_payload. change ("|" +:+ ?s) with (String "|" s).
  intros [-> [-> [->%(inj zs) ->]%app_sep_inj]%app_sep_inj]%app_sep_inj; try done; by apply zs_lacks.
Qed.

(** A bypass token is good once.  The token minted is redeemed by the same request
    for the same number, source and justification before it expires, and by no request
    that differs; whichever request is tried first, the token is spent: every later
    attempt, whatever it names, is answered [expired]. *)
Theorem bypass_once now token o ttl (st : Registry F) t x (st' : Registry F) :
  mintBypassToken sha256Hex now token o ttl st = (Ok (t, x), st') →
  lacks "|" (by_phone o) = true → lacks "|" (by_source o) = true →
  t = token ∧ x = now + Z.min (default 60 ttl) 300 ∧
  ∀ at_ o', by_tenantId o' = by_tenantId o → lacks "|" (by_phone o') = true → lacks "|" (by_source o') = true →
    let '(r, st1) := redeemBypassToken sha256Hex at_ token o' st' in
    (r = redeem_ok → at_ < x ∧ by_phone o' = by_phone o ∧ by_source o' = by_source o ∧ by_userId o' = by_userId o ∧
       sha256Hex (by_justification o') = sha256Hex (by_justification o)) ∧
    (at_ < x → o' = o → r = redeem_ok) ∧
    (x <= at_ → r = redeem_expired) ∧
    (at_ < x → ∀ at' o'', by_tenantId o'' = by_tenantId o → (redeemBypassToken sha256Hex at' token o'' st1).1 = redeem_expired).
Proof using F sha256Hex.
  clear parsePhone. unfold mintBypassToken. set (key := bypassKey _ _). destruct (get_bypass now key st); [done|]. intros [= <- <- <-] Hp Hs.
  split_and!; [done..|]. intros at_ o' Et Hp' Hs'. unfold redeemBypassToken. rewrite Et. fold key. unfold redeem_dnc_bypass.
  set (x := now + _).
  assert (Hget : ∀ t, get_bypass t key (with_bypass (<[key := (bypass_payload sha256Hex o, x)]> (bypass st)) st) =
    if t <? x then Some (bypass_payload sha256Hex o) else None).
  { intros t'. unfold get_bypass, with_bypass. cbn [bypass]. by rewrite lookup_insert_eq. }
  rewrite Hget. destruct (Z.ltb_spec at_ x) as [Hl|Hl].
  - assert (Hspent : ∀ at' o'', by_tenantId o'' = by_tenantId o →
      (redeemBypassToken sha256Hex at' token o'' (with_bypass (delete key (bypass (with_bypass
        (<[key := (bypass_payload sha256Hex o, x)]> (bypass st)) st))) (with_bypass
        (<[key := (bypass_payload sha256Hex o, x)]> (bypass st)) st))).1 = redeem_expired).
    { intros at' o'' Et'. unfold redeemBypassToken, redeem_dnc_bypass. rewrite Et'. fold key. unfold get_bypass.
      cbn [bypass with_bypass]. by rewrite lookup_delete_eq. }
    destruct (String.eqb_spec (bypass_payload sha256Hex o) (bypass_payload sha256Hex o')) as [E|Hne]; cbn [fst snd].
    + split_and!; [|done|lia|intros _; exact Hspent]. intros _. split; [done|].
      apply bypass_payload_inj in E as (-> & -> & -> & ->); done.
    + split_and!; [done|by intros _ ->|lia|intros _; exact Hspent].
  - split_and!; [done|lia|done|lia].
Qed.
End requests.

Section sync_run.
Context {F : Type} `{BloomFilter F}.
Variable fails : Statement → bool.

(** Neither statement for the log is accepted: the table has no such column. *)
Lemma log_rejected (row : SyncLogRow) (st : @SyncState F) :
  insert_sync_log success_columns row st = Err "Unknown column 'added_count' in 'field list'"%string ∧
  insert_sync_log failure_columns row st = Err "Unknown column 'error_message' in 'field list'"%string.
Proof. done. Qed.

Lemma sync_body_spec now client dryRun seed (st : @SyncState F) :
  let '(outcome, st') := sync_body fails now client dryRun seed st in
  sync_log st' = sync_log st ∧ lock st' = lock st ∧
  match outcome with
  | Ok r => ∃ s, r = Finished 0 0 s ∧ registry st' = registry st ∧ dryRun = false ∧ download client = Ok (inl s)
  | Err msg =>
      ∀ lines l, (if dryRun then Ok (inr seed) else download client) = Ok (inr lines) →
        apply_file fails now lines (registry st) = Ok l → registry st' = reg l
  end.
Proof.
  unfold sync_body. destruct (if dryRun then _ else _) as [[s|lines]|msg] eqn:E.
  - destruct dryRun; [done|]. split_and!; [done|done|]. by exists s.
  - destruct (apply_file _ _ _ _) as [l|l] eqn:El.
    + destruct (if dryRun then Ok () else logOut client) as [u|]; [rewrite (proj1 (log_rejected _ _))|];
        (split_and!; [done|done|]); intros lines' l' [= <-]; rewrite El; by intros [= <-].
    + split_and!; [done|done|]. intros lines' l' [= <-]. by rewrite El.
  - by split_and!.
Qed.

(** No run of the federal sync is ever recorded, and none that applies a file ever
    reports success: the statements for the log name columns that [dnc_sync_log] does
    not have, so the run throws after the file has been applied.  A run answers
    [AlreadyRunning], and does nothing, exactly while another holds the lock; otherwise it
    gives the lock back unless it has outlived it. *)
Theorem sync_never_reports now later lockId client dryRun seed (st : @SyncState F) :
  let '(answer, st') := runFederalDeltaSync fails now later lockId client dryRun seed st in
  sync_log st' = sync_log st ∧
  (answer = AlreadyRunning ↔ is_Some (holds_lock now st)) ∧ (answer = AlreadyRunning → st' = st) ∧
  (answer ≠ AlreadyRunning → later < now + LOCK_TTL → lock st' = None) ∧
  (∀ n m s, answer = Finished n m s → n = 0 ∧ m = 0 ∧ registry st' = registry st ∧ dryRun = false ∧ download client = Ok (inl s)) ∧
  (∀ lines l, (if dryRun then Ok (inr seed) else download client) = Ok (inr lines) → apply_file fails now lines (registry st) = Ok l →
     holds_lock now st = None → (∃ msg, answer = Thrown msg) ∧ registry st' = reg l).
Proof.
  unfold runFederalDeltaSync. destruct (holds_lock now st) as [id|] eqn:Eh.
  { split_and!; try done; by eexists. }
  set (st1 := mkSync _ _ _). pose proof (sync_body_spec now client dryRun seed st1) as Hb.
  destruct (sync_body _ _ _ _ _ _) as [outcome st2]. destruct Hb as (Hlog & Hlock & Hb). cbn [registry lock sync_log st1] in *.
  assert (Hlater : later < now + LOCK_TTL → holds_lock later st2 = Some lockId).
  { intros Hl. unfold holds_lock. rewrite Hlock. cbn. by rewrite (proj2 (Z.ltb_lt _ _) Hl). }
  assert (Hrel : ∀ st3 : @SyncState F, st3 = st2 → later < now + LOCK_TTL →
    lock (if bool_decide (holds_lock later st3 = Some lockId) then mkSync (registry st3) None (sync_log st3) else st3) = None).
  { intros st3 -> Hl. by rewrite bool_decide_eq_true_2 by by apply Hlater. }
  assert (Hreg : ∀ st3 : @SyncState F,
    registry (if bool_decide (holds_lock later st3 = Some lockId) then mkSync (registry st3) None (sync_log st3) else st3) = registry st3 ∧
    sync_log (if bool_decide (holds_lock later st3 = Some lockId) then mkSync (registry st3) None (sync_log st3) else st3) = sync_log st3).
  { intros st3. by destruct (bool_decide _). }
  destruct outcome as [r|msg].
  - destruct Hb as (s & -> & Hr & -> & Hd). destruct (Hreg st2) as [Er Es]. split_and!.
    + by rewrite Es.
    + split; [done|]. by intros [? ?].
    + done.
    + intros _. by apply Hrel.
    + intros n m s' [= <- <- <-]. by rewrite Er.
    + intros lines l E. rewrite Hd in E. discriminate.
  - rewrite (proj2 (log_rejected _ _)). destruct (Hreg st2) as [Er Es]. split_and!.
    + by rewrite Es.
    + split; [done|]. by intros [? ?].
    + done.
    + intros _. by apply Hrel.
    + done.
    + intros lines l E El _. split; [by eexists|]. rewrite Er. by eapply Hb.
Qed.
End sync_run.

(** ** Concrete registries *)

#[local] Existing Instances exact_filter exact_laws.

Definition us_phone (raw : string) : option string := if (String.length raw =? 12)%nat then Some raw else None.

Lemma us_phone_length raw p : us_phone raw = Some p → (String.length p <= 16)%nat.
Proof. unfold us_phone. case_match eqn:E; [|done]. apply Nat.eqb_eq in E. intros [= <-]. lia. Qed.

Definition reject_statement (_ : Z) (_ : DncSource) (_ : list BulkValue) (_ : Table) : result string Table :=
  Err "syntax error"%string.

Lemma take4_spec (l : list DncKey) : take 4 l ⊆+ l ∧ length (take 4 l) = Nat.min 4 (length l).
Proof. split; [apply sublist_submseteq, sublist_take|apply length_take]. Qed.

Definition clerk (tenant : Z) : ApiAuth := mkApiAuth 5 tenant admin (permissionsFor admin) "jti" true None AllCampaigns.

Definition ann : string := "+12025550101".
Definition bob : string := "+12025550102".

(** Tenant 1 lists [ann]; the federal file lists [bob]. *)
Definition demo_ops : list (Z * DncOp) :=
  [(10, OpPost (Some (clerk 1)) ann "internal" None None None);
   (20, OpSync ["2025550102 2026-01-05 A"%string])].

#[local] Abbreviation demo_run := (run_ops (F := gset string) us_phone reject_statement id).

Definition demo_registry : Registry (gset string) := demo_run demo_ops empty_registry.

Lemma registry_covered_witness : covered federal 7 demo_registry ∧ bf_query (bloomKey federal (Some 7)) bob demo_registry = true.
Proof.
  split.
  - refine (registry_covered us_phone reject_statement id us_phone_length demo_ops federal 7 _ _).
    + repeat constructor.
    + discriminate.
  - vm_compute. reflexivity.
Defined.

Definition demo_request (phone : string) (tenant : Z) : CheckRequest := mkRequest phone tenant None None [federal; internal].

Lemma demo_covered s t : s ≠ state_list → covered s t demo_registry.
Proof.
  intros Hs. apply (run_covered us_phone reject_statement id us_phone_length demo_ops s t).
  - repeat constructor.
  - done.
Qed.

Lemma dnc_check_decides_witness :
  isDnc (dncCheck us_phone (take 4) no_faults 30 (demo_request bob 7) demo_registry) = true ∧
  isDnc (dncCheck us_phone (take 4) (mkFaults true (λ _, false) true) 30 (demo_request bob 7) demo_registry) = true.
Proof.
  split.
  - refine (proj1 (dnc_check_decides us_phone (take 4) take4_spec no_faults 30 (demo_request bob 7) demo_registry bob _ _) _).
    + reflexivity.
    + intros s Hs. apply demo_covered. intros ->. revert Hs. apply (bool_decide_unpack _). vm_compute. exact I.
    + exists federal. split; [left|]. exists (federal_key bob), (mkEntry None None None).
      split_and!; [vm_compute; reflexivity|reflexivity|reflexivity|reflexivity|right; reflexivity|exact I].
  - vm_compute. reflexivity.
Defined.

(** [ann] listed, [bob] listed and removed: the file of the next day deletes [ann] and adds
    [bob] again. *)
Definition stale_registry : Registry (gset string) :=
  mkRegistry {[ federal_key ann := mkEntry None None None; federal_key bob := mkEntry None (Some 10) None ]} ∅ ∅.

Definition next_day : list string := ["2025550101 2026-01-06 D"; "2025550102 2026-01-06 A"]%string.

Lemma federal_sync_outcome_witness :
  ∃ l, apply_file (λ _, false) 20 next_day stale_registry = Ok l ∧ removed l = 1 ∧
    ∃ e, rows (reg l) !! federal_key bob = Some e ∧ in_force 20 e = false.
Proof.
  destruct (federal_sync_outcome 20 next_day stale_registry) as (l & E & _ & Hr & Hp & _).
  exists l. split; [exact E|]. split; [rewrite Hr; reflexivity|]. specialize (Hp bob).
  replace (rows stale_registry !! federal_key bob) with (Some (mkEntry None (Some 10) None)) in Hp by (vm_compute; reflexivity).
  exact Hp.
Defined.

Definition texas_row : BulkRow := mkBulk ann None None (Some "TX"%string).
Definition texas_value : BulkValue := mkValue ann GLOBAL "TX" "".
Definition texas_csv : string := "+12025550101,,,TX".

Lemma texas_rows : parseCsvRows texas_csv = [texas_row].
Proof. vm_compute. reflexivity. Qed.

Definition texas_request : CheckRequest := mkRequest ann 2 None (Some "TX"%string) [state_list].
Definition texas_import := bulkImportDnc us_phone reject_statement (route_opts (clerk 1) state_list texas_csv None None) (empty_registry (F := gset string)).

Lemma texas_imported :
  bulkImportDnc us_phone reject_statement (route_opts (clerk 1) state_list texas_csv None None) empty_registry =
  (Ok (1, 0), texas_import.2).
Proof.
  change (texas_import = (Ok (1, 0), texas_import.2)).
  assert (E : texas_import.1 = Ok (1, 0)) by (vm_compute; reflexivity).
  destruct texas_import as [r st]. cbn in E. by subst.
Qed.

Lemma state_list_one_tenant_witness :
  isDnc (dncCheck us_phone (take 4) no_faults 30 texas_request texas_import.2) = false.
Proof.
  refine (proj2 (state_list_one_tenant us_phone (take 4) reject_statement no_faults 30 (clerk 1) texas_csv None
    empty_registry 1 0 texas_import.2 texas_row texas_value texas_request texas_imported _ _ _ _ _ _ _ _ _ _ _ _ _)).
  - rewrite texas_rows. intros row v ->%list_elem_of_singleton. vm_compute. by intros [= <-].
  - rewrite texas_rows. left.
  - reflexivity.
  - cbn. lia.
  - cbn. lia.
  - reflexivity.
  - discriminate.
  - reflexivity.
  - reflexivity.
  - reflexivity.
  - reflexivity.
  - reflexivity.
  - reflexivity.
Defined.

Definition removed_registry : Registry (gset string) :=
  mkRegistry {[ mkKey 1 ann internal ANY_STATE GLOBAL := mkEntry None (Some 10) None ]} ∅ ∅.

Lemma removed_number_stays_callable_witness :
  rows (post_dnc us_phone (Some (clerk 1)) ann "internal" None None None removed_registry).2 = rows removed_registry.
Proof.
  pose proof (removed_number_stays_callable us_phone 20 (clerk 1) ann ann None None None (mkEntry None (Some 10) None)
    removed_registry) as H.
  destruct (post_dnc _ _ _ _ _ _ _ _) as [resp st'].
  apply H; [reflexivity|vm_compute; reflexivity|reflexivity|cbn; lia|vm_compute; reflexivity|reflexivity].
Defined.

Definition ann_bypass : BypassOpts := mkBypassOpts 1 ann "federal" 5 "called us back".

Lemma bypass_once_witness :
  let '(r, st) := redeemBypassToken id 30 "token" ann_bypass
                    (mintBypassToken id 0 "token" ann_bypass None (empty_registry (F := gset string))).2 in
  r = redeem_ok ∧ (redeemBypassToken id 31 "token" ann_bypass st).1 = redeem_expired.
Proof.
  destruct (bypass_once id 0 "token" ann_bypass None (empty_registry (F := gset string)) "token" 60
    (mintBypassToken id 0 "token" ann_bypass None empty_registry).2) as (_ & _ & H); [reflexivity|reflexivity|reflexivity|].
  specialize (H 30 ann_bypass eq_refl eq_refl eq_refl). destruct (redeemBypassToken _ _ _ _ _) as [r st].
  destruct H as (_ & Hok & _ & Hspent). split; [apply Hok; [lia|reflexivity]|apply Hspent; [lia|reflexivity]].
Defined.
