(* ===== verification/ImportMapping.v ===== *)
(** What a lead import does with the file's text before any lead exists: its encoding
    and delimiter ([pipeline/encoding-detect.ts]), and the mapping of its columns to the
    fields of a lead.  The mapping is written twice, for the workers
    ([workers/src/jobs/lead-import/mapping.ts], at the top level here) and for the
    preview route ([api/src/import/mapping], with the prefix [api]).

    The text of a field is ASCII.  The date library is a parameter: [date_parse text
    format] is the instant it reads, [Ok None] an invalid date and [Err] what it throws
    for a format it does not take.  Doubles are integers; [to_double] and
    [print_double] round and print those beyond 2^53, [reprint_float] is
    [String(parseFloat(v))], [None] for [NaN]. *)

From S2P Require Import Prelude Calendar Jcs.

#[local] Open Scope Z_scope.

(** ** Encoding *)

Inductive SupportedEncoding : Set := utf_8 | utf_16le | utf_16be | windows_1252.

#[export] Instance SupportedEncoding_eq_dec : EqDecision SupportedEncoding.
Proof. solve_decision. Defined.

(** [s.includes(w)]. *)
Definition includes (w s : string) : bool :=
  match String.index 0 w s with Some _ => true | None => false end.

(** The name the detector gives, in lower case. *)
Definition encoding_of_name (norm : string) : option SupportedEncoding :=
  if String.eqb norm "utf-8" || String.eqb norm "ascii" || String.eqb norm "iso-8859-1" then Some utf_8
  else if String.eqb norm "utf-16le" || String.eqb norm "utf-16 le" then Some utf_16le
  else if String.eqb norm "utf-16be" || String.eqb norm "utf-16 be" then Some utf_16be
  else if String.eqb norm "windows-1252" || String.eqb norm "iso-8859-1" || includes "1252" norm then Some windows_1252
  else None.

(** The sample is the first 32 KB of the file; [chardet] is the detector.  [Err] is the
    [UnsupportedEncodingError], with the name detected. *)
Definition detectEncoding (chardet : list Z → option string) (buf : list Z) : result string SupportedEncoding :=
  match buf with
  | 255 :: 254 :: _ => Ok utf_16le
  | 254 :: 255 :: _ => Ok utf_16be
  | 239 :: 187 :: 191 :: _ => Ok utf_8
  | _ =>
      match chardet buf with
      | None | Some EmptyString => Ok utf_8
      | Some detected => of_option detected (encoding_of_name (toLowerCase detected))
      end
  end.

(** The decoder [createEncodingTransform] puts in front of the parser, if any. *)
Definition createEncodingTransform (encoding : SupportedEncoding) : option string :=
  match encoding with
  | utf_8 => None
  | utf_16le => Some "utf-16le"
  | utf_16be => Some "utf-16be"
  | windows_1252 => Some "windows-1252"
  end%string.

(** ** Delimiter *)

Definition comma : ascii := ","%char.
Definition semicolon : ascii := ";"%char.
Definition tab : ascii := "009"%char.

Fixpoint count_char (c : ascii) (s : string) : nat :=
  match s with
  | EmptyString => 0
  | String d s' => (if Ascii.eqb c d then 1 else 0) + count_char c s'
  end.

Definition detectDelimiter (sample : string) : ascii :=
  let first4k := String.substring 0 4096 sample in
  let tabs := count_char tab first4k in
  let commas := count_char comma first4k in
  let semis := count_char semicolon first4k in
  if (commas <? tabs)%nat && (semis <? tabs)%nat then tab
  else if (commas <? semis)%nat then semicolon
  else comma.

(** [DelimiterSnifferTransform]: what it has read, until it has told the delimiter. *)
Record Sniffer := mkSniffer { sniffed : bool; firstChunk : string }.

Definition sniffer_init : Sniffer := mkSniffer false "".

(** A chunk passes through; with it goes the delimiter when [_onDetected] is called. *)
Definition sniff_transform (chunk : string) (st : Sniffer) : Sniffer * string * option ascii :=
  if sniffed st then (st, chunk, None)
  else
    let text := firstChunk st +:+ chunk in
    if (512 <=? String.length text)%nat then (mkSniffer true text, chunk, Some (detectDelimiter text))
    else (mkSniffer false text, chunk, None).

Definition sniff_flush (st : Sniffer) : option ascii :=
  if sniffed st then None else Some (detectDelimiter (firstChunk st)).

(** A whole stream: what passes through, and the calls of [_onDetected]. *)
Fixpoint sniff_stream (chunks : list string) (st : Sniffer) : list string * list ascii :=
  match chunks with
  | [] => ([], option_list (sniff_flush st))
  | c :: chunks' =>
      let '(st', out, told) := sniff_transform c st in
      let '(outs, tolds) := sniff_stream chunks' st' in
      (out :: outs, option_list told ++ tolds)
  end.

(** ** Column mappings *)

Record MappingRow := mkMapping { source : string; target : string; transform : option string }.

#[export] Instance MappingRow_eq_dec : EqDecision MappingRow.
Proof. solve_decision. Defined.

(** The [options] no stage reads are left out. *)
Record ColumnMapping := mkColumnMapping { rows : list MappingRow }.

(** An object of strings. *)
Abbreviation Fields := (gmap string string).

Definition field (k : string) (m : Fields) : string := default EmptyString (m !! k).

(** [validateMapping] of a JSON value. *)
Definition get (k : string) (l : list (string * Json)) : option Json :=
  snd <$> List.find (λ p, String.eqb p.1 k) l.

(** [typeof v !== "object" || v === null] refuses; an array is an object with none of the keys. *)
Definition as_object (v : Json) : option (list (string * Json)) :=
  match v with JObj l => Some l | JArr _ => Some [] | _ => None end.

Definition as_string (v : option Json) : option string :=
  match v with Some (JStr s) => Some s | _ => None end.

Definition validate_row (r : Json) : result string MappingRow :=
  row ← of_option "Each mapping row must be an object"%string (as_object r);
  s ← of_option "mapping row.source must be a string"%string (as_string (get "source" row));
  t ← of_option "mapping row.target must be a string"%string (as_string (get "target" row));
  Ok (mkMapping s t (as_string (get "transform" row))).

Fixpoint validate_rows (l : list Json) : result string (list MappingRow) :=
  match l with
  | [] => Ok []
  | r :: l' => row ← validate_row r; rest ← validate_rows l'; Ok (row :: rest)
  end.

Definition validateMapping (m : Json) : result string ColumnMapping :=
  obj ← of_option "Column mapping must be a JSON object"%string (as_object m);
  match get "version" obj with
  | Some (JNum 1) =>
      match get "rows" obj with
      | Some (JArr l) => rs ← validate_rows l; Ok (mkColumnMapping rs)
      | _ => Err "Column mapping.rows must be an array"%string
      end
  | _ => Err "Column mapping version must be 1"%string
  end.

(** ** Numbers in text *)

Definition is_digit (c : ascii) : bool := let n := nat_of_ascii c in (48 <=? n)%nat && (n <=? 57)%nat.

(** The digits a list starts with, as a number. *)
Fixpoint digits_from (acc : Z) (l : list ascii) : Z :=
  match l with
  | c :: l' => if is_digit c then digits_from (10 * acc + (Z.of_nat (nat_of_ascii c) - 48)) l' else acc
  | [] => acc
  end.

Definition leading_number (l : list ascii) : option Z :=
  match l with c :: _ => if is_digit c then Some (digits_from 0 l) else None | [] => None end.

Section numbers.
Variable to_double : Z → Z.
Variable print_double : Z → string.

Definition MAX_EXACT : Z := 9007199254740992.

Definition double (n : Z) : Z := if Z.abs n <=? MAX_EXACT then n else to_double n.

(** [parseInt(s, 10)]; [None] is [NaN]. *)
Definition parseInt (s : string) : option Z :=
  double <$>
    match trim_left (String.list_ascii_of_string s) with
    | "-"%char :: l => Z.opp <$> leading_number l
    | "+"%char :: l => leading_number l
    | l => leading_number l
    end.

(** [String(n)]. *)
Definition number_text (n : Z) : string := if Z.abs n <=? MAX_EXACT then zs n else print_double n.
End numbers.

(** ** Transforms *)

(** [d.toISOString().split("T")[0]]. *)
Definition iso_day (t : Z) : string := default EmptyString (head (split_on "T" (toISOString t))).

(** [pair.indexOf("=")] splits a pair of a [map:] transform. *)
Definition pair_of (p : string) : option (string * string) :=
  i ← String.index 0 "=" p; Some (String.substring 0 i p, String.substring (S i) (String.length p) p).

Fixpoint map_value (v : string) (pairs : list string) : string :=
  match pairs with
  | [] => v
  | p :: pairs' =>
      match pair_of p with
      | None => map_value v pairs'
      | Some (k, val) => if String.eqb v k then val else map_value v pairs'
      end
  end.

(** [t.slice(n)]. *)
Definition slice_from (n : nat) (t : string) : string := String.substring n (String.length t) t.

(** The workers' [splitTransforms] cuts at every comma. *)
Definition split_step (st : list string * string) (ch : ascii) : list string * string :=
  let '(parts, cur) := st in
  if Ascii.eqb ch comma then (parts ++ [trim cur], EmptyString) else (parts, cur +:+ char ch).

(** [if (cur.trim()) parts.push(cur.trim())]. *)
Definition last_part (cur : string) : list string :=
  match trim cur with EmptyString => [] | c => [c] end.

Definition splitTransforms (s : string) : list string :=
  let '(parts, cur) := foldl split_step ([], EmptyString) (String.list_ascii_of_string s) in
  parts ++ last_part cur.

Section transforms.
Variable to_double : Z → Z.
Variable print_double : Z → string.
Variable reprint_float : string → option string.
Variable date_parse : string → string → result string (option Z).

(** One transform of a chain; an unknown one does nothing. *)
Definition apply_transform (t : string) (allFields : Fields) (v : string) : result string string :=
  if String.eqb t "trim" then Ok (trim v)
  else if String.eqb t "lower" then Ok (toLowerCase v)
  else if String.eqb t "upper" then Ok (toUpperCase v)
  else if String.eqb t "nullify_blank" then Ok (if String.eqb (trim v) EmptyString then EmptyString else v)
  else if String.eqb t "parseInt" then Ok (from_option (number_text print_double) v (parseInt to_double v))
  else if String.eqb t "parseFloat" then Ok (default v (reprint_float v))
  else if String.eqb t "phone" then Ok (trim v)
  else if String.prefix "date:" t then
    parsed ← date_parse (trim v) (slice_from 5 t);
    Ok (from_option iso_day v parsed)
  else if String.prefix "map:" t then Ok (map_value v (split_on ";" (slice_from 4 t)))
  else if String.prefix "concat:" t then Ok (v +:+ field (slice_from 7 t) allFields)
  else Ok v.

Fixpoint apply_chain (ts : list string) (allFields : Fields) (v : string) : result string string :=
  match ts with
  | [] => Ok v
  | t :: ts' => v' ← apply_transform t allFields v; apply_chain ts' allFields v'
  end.

(** The split is an argument: the two copies of the code differ in it. *)
Definition transform_value (split : string → list string) (value : string) (transformStr : option string)
    (allFields : Fields) : result string string :=
  match transformStr with
  | None | Some EmptyString => Ok value
  | Some t => apply_chain (split t) allFields value
  end.

Definition applyTransforms : string → option string → Fields → result string string :=
  transform_value splitTransforms.

(** ** Mapping a record *)

(** The header's names, as they are and in lower case; a later column takes over a name. *)
Definition source_index (headerRow : list string) : gmap string nat :=
  foldl (λ m (p : nat * string), <[toLowerCase p.2 := p.1]> (<[p.2 := p.1]> m)) ∅ (imap (λ i h, (i, h)) headerRow).

Definition find_source (index : gmap string nat) (name : string) : option nat :=
  match index !! name with Some i => Some i | None => index !! toLowerCase name end.

Definition raw_by_target (index : gmap string nat) (record : list string) (rs : list MappingRow) : Fields :=
  foldl (λ m row,
           match find_source index (source row) with
           | None => m
           | Some i => <[target row := default EmptyString (record !! i)]> m
           end) ∅ rs.

Definition map_fields (value : MappingRow → result string string) (rs : list MappingRow) : result string Fields :=
  foldl (λ acc row, m ← acc; v ← value row; Ok (<[target row := v]> m)) (Ok ∅) rs.

Definition applyMapping (record headerRow : list string) (mapping : ColumnMapping) : result string Fields :=
  let rawByTarget := raw_by_target (source_index headerRow) record (rows mapping) in
  map_fields (λ row, applyTransforms (field (target row) rawByTarget) (transform row) rawByTarget) (rows mapping).

(** [ApplyMappingTransform._applyPositional]: no transform is applied. *)
Definition applyPositional (record : list string) (mapping : ColumnMapping) : Fields :=
  foldl (λ m (p : nat * MappingRow), <[target p.2 := default EmptyString (record !! p.1)]> m) ∅
    (imap (λ i r, (i, r)) (rows mapping)).
End transforms.

Definition row_of (s t f : string) : MappingRow := mkMapping s t (Some f).

Definition default_rows (dob : string) : list MappingRow :=
  [row_of "phone_number" "phone_e164" "phone"; row_of "first_name" "first_name" "trim";
   row_of "last_name" "last_name" "trim"; row_of "state" "state" "trim,upper";
   row_of "postal_code" "postal_code" "trim"; row_of "vendor_lead_code" "vendor_lead_code" "trim";
   row_of "source_id" "source_id" "trim"; row_of "address1" "address1" "trim";
   row_of "address2" "address2" "trim"; row_of "city" "city" "trim"; row_of "email" "email" "lower";
   row_of "gender" "gender" "upper"; row_of "date_of_birth" "date_of_birth" dob;
   row_of "comments" "comments" "trim"].

Definition VICIDIAL_DEFAULT_MAPPING : list MappingRow := default_rows "date:MM/dd/yyyy".

(** ** The preview route's copy

    Its functions have the same names; here they have the prefix [api]. *)

(** After a colon no comma cuts any more. *)
Definition api_split_step (st : list string * string * bool) (ch : ascii) : list string * string * bool :=
  let '(parts, cur, nested) := st in
  if Ascii.eqb ch comma && negb nested then (parts ++ [trim cur], EmptyString, nested)
  else (parts, cur +:+ char ch, nested || Ascii.eqb ch ":").

Definition api_splitTransforms (s : string) : list string :=
  let '(parts, cur, _) := foldl api_split_step ([], EmptyString, false) (String.list_ascii_of_string s) in
  parts ++ last_part cur.

Section transforms.
Variable to_double : Z → Z.
Variable print_double : Z → string.
Variable reprint_float : string → option string.
Variable date_parse : string → string → result string (option Z).

Definition api_applyTransforms : string → option string → Fields → result string string :=
  transform_value to_double print_double reprint_float date_parse api_splitTransforms.

Definition api_source_index (headerRow : list string) : gmap string nat :=
  foldl (λ m (p : nat * string), <[p.2 := p.1]> (<[toLowerCase p.2 := p.1]> m)) ∅ (imap (λ i h, (i, h)) headerRow).

Definition api_applyMapping (record headerRow : list string) (mapping : ColumnMapping) : result string Fields :=
  let rawByTarget := raw_by_target (api_source_index headerRow) record (rows mapping) in
  map_fields (λ row, api_applyTransforms (field (target row) rawByTarget) (transform row) rawByTarget) (rows mapping).

Definition applyPositionalMapping (record : list string) (mapping : ColumnMapping) : result string Fields :=
  map_fields (λ p, api_applyTransforms (source p) (transform p) ∅)
    (imap (λ i r, mkMapping (default EmptyString (record !! i)) (target r) (transform r)) (rows mapping)).
End transforms.

Definition api_VICIDIAL_DEFAULT_MAPPING : list MappingRow := default_rows "date:MM/DD/YYYY".

(** ** Detecting the columns *)

(** [\b(w1|w2|...)\b] without regard to case, the alternatives written out; those that
    only match where a shorter one does are left out. *)
Definition word_char (c : ascii) : bool :=
  let n := nat_of_ascii c in
  is_digit c || ((65 <=? n)%nat && (n <=? 90)%nat) || ((97 <=? n)%nat && (n <=? 122)%nat) || (n =? 95)%nat.

(** Whether a word starts here, the character before being a word character or not. *)
Definition ends_here (rest : string) : bool :=
  match rest with String c _ => negb (word_char c) | EmptyString => true end.

Definition word_here (w rest : string) : bool :=
  String.prefix w rest && ends_here (slice_from (String.length w) rest).

Fixpoint word_in (after_word : bool) (w s : string) : bool :=
  match s with
  | EmptyString => false
  | String c s' => (negb after_word && word_here w s) || word_in (word_char c) w s'
  end.

Definition has_word (ws : list string) (header : string) : bool :=
  existsb (λ w, word_in false w (toLowerCase header)) ws.

(** [a[_ ]?b]. *)
Definition opt_sep (a b : string) : list string := [a +:+ b; a +:+ "_" +:+ b; a +:+ " " +:+ b].

Definition AUTO_DETECT_RULES : list (string * list string) :=
  [("phone_e164"%string, ["phone"; "mobile"; "cell"; "tel"; "telephone"]%string ++ opt_sep "primary" "phone");
   ("phone_alt"%string, opt_sep "alt" "phone" ++ opt_sep "secondary" "phone" ++ opt_sep "phone" "2");
   ("first_name"%string, opt_sep "first" "name" ++ ["fname"]%string ++ opt_sep "given" "name");
   ("last_name"%string, opt_sep "last" "name" ++ ["lname"; "surname"]%string ++ opt_sep "family" "name");
   ("email"%string, ["email"]%string);
   ("state"%string, ["state"]%string);
   ("postal_code"%string, ["zip"]%string ++ opt_sep "postal" "code" ++ ["postcode"]%string);
   ("date_of_birth"%string, ["dob"]%string ++ opt_sep "birth" "date" ++
                     (opt_sep "date" "of" ≫= λ d, opt_sep d "birth"));
   ("first_name"%string, ["first"]%string);
   ("last_name"%string, ["last"]%string);
   ("address1"%string, ["address"; "address_"; "address1"; "address_1"; "address 1"; "addr"; "street"]%string);
   ("city"%string, ["city"]%string);
   ("country_code"%string, ["country"]%string ++ opt_sep "country" "code");
   ("gender"%string, ["gender"]%string);
   ("comments"%string, ["comment"; "comments"; "note"; "notes"; "memo"]%string);
   ("vendor_lead_code"%string, (opt_sep "vendor" "lead" ≫= λ d, opt_sep d "code") ++ ["vlc"]%string ++ opt_sep "lead" "id")].

(** Confidence in tenths. *)
Record AutoDetectResult := mkDetect { d_target : string; d_confidence : Z }.

(** [target.replace(/_/g, " ")]. *)
Definition spaced (t : string) : string := string_map (λ c, if Ascii.eqb c "_" then " "%char else c) t.

Fixpoint first_rule (rules : list (string * list string)) (trimmed : string) : option AutoDetectResult :=
  match rules with
  | [] => None
  | (t, ws) :: rules' =>
      if String.eqb (toLowerCase trimmed) (toLowerCase (spaced t)) then Some (mkDetect t 10)
      else if has_word ws trimmed then Some (mkDetect t 9)
      else first_rule rules' trimmed
  end.

Definition autoDetectColumn (header : string) : option AutoDetectResult :=
  first_rule AUTO_DETECT_RULES (trim header).

Definition transform_for (t : string) : string :=
  if String.eqb t "phone_e164" || String.eqb t "phone_alt" then "phone"
  else if String.eqb t "email" then "lower"
  else if String.eqb t "state" then "trim,upper"
  else "trim".

(** The rows and [autoDetect]; a target once used is not used again. *)
Definition detect_step (st : list MappingRow * gmap string AutoDetectResult * gset string) (header : string)
    : list MappingRow * gmap string AutoDetectResult * gset string :=
  let '(rs, auto, used) := st in
  match autoDetectColumn header with
  | Some d =>
      if bool_decide (d_target d ∈ used) then st
      else (rs ++ [mkMapping header (d_target d) (Some (transform_for (d_target d)))],
            <[header := d]> auto, {[ d_target d ]} ∪ used)
  | None => st
  end.

Definition autoDetectMapping (headers : list string) : list MappingRow * gmap string AutoDetectResult :=
  (foldl detect_step ([], ∅, ∅) headers).1.
