(* ===== verification/ImportPipeline.v ===== *)
(** The stages of a lead import, [workers/src/jobs/lead-import/pipeline] (the copy in
    [api/src/import/pipeline] differs in import paths only).

    A stage is a Node [Transform] over objects: [step] is [_transform], [flush] is
    [_flush], and both give the new state with what the stage does, in order: rows
    pushed, row errors reported, an [error] emitted.  A stage whose [_transform] throws
    or emits an error stays as it is; whoever pipes the stages ends the stream.

    The phone library and the date library are parameters; the do-not-call table, its
    filters and their failures are those of [Dnc]. *)

From S2P Require Import Prelude Calendar Jcs Tcpa Rbac Sessions Auth Dnc ImportMapping.

#[local] Open Scope Z_scope.

(** ** Streams *)

Inductive Event (E R : Type) :=
  | Push (r : R)
  | RowErrors (es : list E)
  | Fault (msg : string).
Arguments Push {E R} _.
Arguments RowErrors {E R} _.
Arguments Fault {E R} _.

Record Stage (S I E R : Type) := mkStage {
  step : S → I → S * list (Event E R);
  flush : S → S * list (Event E R);
}.
Arguments mkStage {S I E R}.
Arguments step {S I E R}.
Arguments flush {S I E R}.

(** The rows of a whole stream through a stage, one after the other, then the end. *)
Fixpoint feed {S I E R} (st : Stage S I E R) (s : S) (l : list I) : S * list (Event E R) :=
  match l with
  | [] => (s, [])
  | x :: l' => let '(s', ev) := step st s x in let '(s'', evs) := feed st s' l' in (s'', ev ++ evs)
  end.

Definition run_stage {S I E R} (st : Stage S I E R) (s : S) (l : list I) : list (Event E R) :=
  let '(s', evs) := feed st s l in evs ++ (flush st s').2.

Definition pushed {E R} (evs : list (Event E R)) : list R :=
  omap (λ e, match e with Push r => Some r | _ => None end) evs.

Definition reported {E R} (evs : list (Event E R)) : list E :=
  evs ≫= λ e, match e with RowErrors es => es | _ => [] end.

Definition faults {E R} (evs : list (Event E R)) : list string :=
  omap (λ e, match e with Fault m => Some m | _ => None end) evs.

(** ** Errors *)

Definition ERROR_CODES : list string :=
  ["INVALID_PHONE"; "MISSING_REQUIRED_FIELD"; "FIELD_COUNT_MISMATCH"; "CUSTOM_DATA_SCHEMA_FAIL";
   "INVALID_STATE"; "INVALID_DATE"; "DUPLICATE_IN_FILE"; "DUPLICATE_IN_LIST"; "DUPLICATE_IN_TENANT";
   "DNC_BLOCKED"; "DNC_WARN"; "NO_TIMEZONE"; "TZ_BLOCKED_WARN"; "MAX_RECORD_SIZE_EXCEEDED";
   "HEADER_MISMATCH"; "UNSUPPORTED_ENCODING"; "MAX_ERRORS_EXCEEDED"; "DB_TRANSIENT"]%string.

(** [c] between double quotes. *)
Definition quoted (c : string) : string := char quote +:+ c +:+ char quote.

Definition assertValidErrorCode (code : string) : result string string :=
  if bool_decide (code ∈ ERROR_CODES) then Ok code
  else Err ("D02 invariant violation: unknown error code " +:+ quoted code).

Record Info := mkInfo { lines : Z; records : Z }.

Record RowError := mkRowError {
  e_code : string;
  e_message : string;
  e_info : Info;
  e_raw : list string;
}.

(** ** Rows *)

Inductive Gender : Set := gender_M | gender_F | gender_U.

Record NormalizedLead := mkLead {
  l_phoneE164 : string;
  l_phoneAlt : option string;
  l_phoneAlt2 : option string;
  l_firstName : option string;
  l_lastName : option string;
  l_middleInitial : option string;
  l_title : option string;
  l_address1 : option string;
  l_address2 : option string;
  l_city : option string;
  l_state : option string;
  l_postalCode : option string;
  l_countryCode : string;
  l_email : option string;
  l_dateOfBirth : option string;
  l_gender : Gender;
  l_comments : option string;
  l_rank : Z;
  l_ownerUserId : option Z;
  l_vendorLeadCode : option string;
  l_sourceId : option string;
  l_status : string;
  l_tzBlocked : bool;
  l_dncBlocked : bool;
  l_customData : Fields;
}.

(** The two assignments of the scrub. *)
Definition mark_dnc (l : NormalizedLead) : NormalizedLead :=
  mkLead (l_phoneE164 l) (l_phoneAlt l) (l_phoneAlt2 l) (l_firstName l) (l_lastName l) (l_middleInitial l)
    (l_title l) (l_address1 l) (l_address2 l) (l_city l) (l_state l) (l_postalCode l) (l_countryCode l)
    (l_email l) (l_dateOfBirth l) (l_gender l) (l_comments l) (l_rank l) (l_ownerUserId l)
    (l_vendorLeadCode l) (l_sourceId l) "DNC" (l_tzBlocked l) true (l_customData l).

Definition block_tz (l : NormalizedLead) : NormalizedLead :=
  mkLead (l_phoneE164 l) (l_phoneAlt l) (l_phoneAlt2 l) (l_firstName l) (l_lastName l) (l_middleInitial l)
    (l_title l) (l_address1 l) (l_address2 l) (l_city l) (l_state l) (l_postalCode l) (l_countryCode l)
    (l_email l) (l_dateOfBirth l) (l_gender l) (l_comments l) (l_rank l) (l_ownerUserId l)
    (l_vendorLeadCode l) (l_sourceId l) (l_status l) true (l_dncBlocked l) (l_customData l).

Record RawCsvRow := mkRaw { r_record : list string; r_info : Info; r_isHeader : bool }.
Record MappedRow := mkMapped { m_mapped : Fields; m_raw : list string; m_info : Info }.

Record NormalizedRow := mkNormalized {
  n_lead : option NormalizedLead;
  n_raw : list string;
  n_info : Info;
  n_errors : list RowError;
}.

Record ValidRow := mkValid { v_lead : NormalizedLead; v_raw : list string; v_info : Info }.

(** ** Reading records *)

(** The parser's records, one by one: how many came, and whether the header has. *)
Record CsvReader := mkReader { internalRowIdx : Z; initialized : bool }.

Definition csv_record (hasHeader : bool) (skipRows : Z) (st : CsvReader) (item : list string * Info)
    : CsvReader * list (Event RowError RawCsvRow) :=
  let idx := internalRowIdx st + 1 in
  if idx <=? skipRows then (mkReader idx (initialized st), [])
  else if hasHeader && negb (initialized st) then (mkReader idx true, [Push (mkRaw item.1 item.2 true)])
  else (mkReader idx true, [Push (mkRaw item.1 item.2 false)]).

Definition csv_stage (hasHeader : bool) (skipRows : Z) : Stage CsvReader (list string * Info) RowError RawCsvRow :=
  mkStage (csv_record hasHeader skipRows) (λ s, (s, [])).

(** ** Applying the mapping *)

Section mapping.
Variable to_double : Z → Z.
Variable print_double : Z → string.
Variable reprint_float : string → option string.
Variable date_parse : string → string → result string (option Z).

(** The state is the header once it has passed. *)
Definition apply_mapping_transform (mapping : ColumnMapping) (hasHeader : bool) (header : option (list string))
    (row : RawCsvRow) : option (list string) * list (Event RowError MappedRow) :=
  if r_isHeader row then (Some (r_record row), [])
  else
    let mapped :=
      if hasHeader then
        applyMapping to_double print_double reprint_float date_parse (r_record row) (default [] header) mapping
      else Ok (applyPositional (r_record row) mapping) in
    (header, match mapped with
             | Ok m => [Push (mkMapped m (r_record row) (r_info row))]
             | Err e => [Fault e]
             end).

Definition apply_mapping_stage (mapping : ColumnMapping) (hasHeader : bool)
    : Stage (option (list string)) RawCsvRow RowError MappedRow :=
  mkStage (apply_mapping_transform mapping hasHeader) (λ s, (s, [])).
End mapping.

(** ** Normalising and validating *)

Definition US_STATES : list string :=
  ["AL"; "AK"; "AZ"; "AR"; "CA"; "CO"; "CT"; "DE"; "FL"; "GA"; "HI"; "ID"; "IL"; "IN"; "IA";
   "KS"; "KY"; "LA"; "ME"; "MD"; "MA"; "MI"; "MN"; "MS"; "MO"; "MT"; "NE"; "NV"; "NH"; "NJ";
   "NM"; "NY"; "NC"; "ND"; "OH"; "OK"; "OR"; "PA"; "RI"; "SC"; "SD"; "TN"; "TX"; "UT"; "VT";
   "VA"; "WA"; "WV"; "WI"; "WY"; "DC"; "PR"; "VI"; "GU"; "AS"; "MP"]%string.

(** What the phone library makes of a text: it throws, finds nothing, or finds a number. *)
Inductive PhoneParse : Set :=
  | phone_throws
  | no_phone
  | found_phone (valid : bool) (number : string).

(** [s.slice(0, n)]. *)
Definition cut (n : nat) (s : string) : string := String.substring 0 n s.

(** [mapped[k]?.trim() || undefined], and with a [slice] before the test. *)
Definition trimmed (k : string) (m : Fields) : option string := m !! k ≫= λ v, truthy (trim v).
Definition trimmed_to (n : nat) (k : string) (m : Fields) : option string := m !! k ≫= λ v, truthy (cut n (trim v)).

(** [/^\d{4}-\d{2}-\d{2}$/]. *)
Definition iso_shape (s : string) : bool :=
  match String.list_ascii_of_string s with
  | [y1; y2; y3; y4; s1; m1; m2; s2; d1; d2] =>
      forallb is_digit [y1; y2; y3; y4; m1; m2; d1; d2] && Ascii.eqb s1 "-" && Ascii.eqb s2 "-"
  | _ => false
  end.

Definition DOB_FORMATS : list string := ["MM/dd/yyyy"; "M/d/yyyy"; "dd-MM-yyyy"; "yyyy/MM/dd"]%string.

Definition read_gender (v : option string) : Gender :=
  match v with
  | None => gender_U
  | Some g =>
      let raw := trim (toUpperCase g) in
      if String.eqb raw "M" || String.eqb raw "MALE" then gender_M
      else if String.eqb raw "F" || String.eqb raw "FEMALE" then gender_F
      else gender_U
  end.

Definition CUSTOM : string := "custom.".

Definition custom_data (m : Fields) : Fields :=
  list_to_map (omap (λ kv, if String.prefix CUSTOM kv.1 then Some (slice_from 7 kv.1, kv.2) else None) (map_to_list m)).

Record NormalizeOptions := mkNormalizeOptions { defaultCountry : option string; defaultStatus : option string }.

Section normalize.
Variable to_double : Z → Z.
Variable parse_phone : string → string → PhoneParse.
Variable date_parse : string → string → result string (option Z).
Variable opts : NormalizeOptions.

Definition country : string := default "US"%string (defaultCountry opts).

(** The required number; [Err] is the code and message of the error. *)
Definition main_phone (rawPhone : string) : result (string * string) string :=
  if String.eqb (trim rawPhone) EmptyString
  then Err ("MISSING_REQUIRED_FIELD", "phone_e164 is required")%string
  else match parse_phone rawPhone country with
       | found_phone true number => Ok number
       | _ => Err ("INVALID_PHONE"%string, "E.164 parse failed: " +:+ quoted rawPhone)
       end.

(** An alternative number the library refuses is kept as it was written. *)
Definition alt_phone (k : string) (m : Fields) : option string :=
  raw ← m !! k;
  if String.eqb (trim raw) EmptyString then None
  else Some match parse_phone raw country with found_phone true number => number | _ => raw end.

(** The state code and, where it is not one, the error. *)
Definition read_state (m : Fields) : option string * list (string * string) :=
  match m !! "state"%string ≫= λ v, truthy (trim (toUpperCase v)) with
  | None => (None, [])
  | Some st =>
      if bool_decide (st ∈ US_STATES) then (Some st, [])
      else (None, [("INVALID_STATE"%string, quoted st +:+ " is not a valid US state code")])
  end.

(** The first format the date library takes the text in. *)
Fixpoint parse_formats (text : string) (formats : list string) : result string (option Z) :=
  match formats with
  | [] => Ok None
  | f :: formats' =>
      d ← date_parse text f;
      match d with Some t => Ok (Some t) | None => parse_formats text formats' end
  end.

Definition read_dob (m : Fields) : result string (option string * list (string * string)) :=
  match m !! "date_of_birth"%string with
  | None => Ok (None, [])
  | Some rawDob =>
      let text := trim rawDob in
      if String.eqb text EmptyString then Ok (None, [])
      else if iso_shape text then Ok (Some text, [])
      else
        parsed ← parse_formats text DOB_FORMATS;
        Ok match parsed with
           | Some t => (Some (iso_day t), [])
           | None => (None, [("INVALID_DATE"%string, "Cannot parse date_of_birth: " +:+ quoted rawDob)])
           end
  end.

Definition read_rank (m : Fields) : Z :=
  match m !! "rank"%string ≫= truthy with
  | Some raw => default 0 (parseInt to_double raw)
  | None => 0
  end.

(** [mapped.country_code?.trim().toUpperCase().slice(0, 2) || defaultCountry || "US"]. *)
Definition read_country (m : Fields) : string :=
  match m !! "country_code"%string ≫= λ v, truthy (cut 2 (toUpperCase (trim v))) with
  | Some c => c
  | None => default "US"%string (defaultCountry opts ≫= truthy)
  end.

Definition build_lead (m : Fields) (phone : string) (state dob : option string) : NormalizedLead :=
  mkLead phone (alt_phone "phone_alt" m) (alt_phone "phone_alt2" m)
    (trimmed "first_name" m) (trimmed "last_name" m) (trimmed_to 4 "middle_initial" m) (trimmed_to 8 "title" m)
    (trimmed_to 128 "address1" m) (trimmed_to 128 "address2" m) (trimmed_to 64 "city" m) state
    (trimmed_to 16 "postal_code" m) (read_country m)
    (m !! "email"%string ≫= λ v, truthy (cut 128 (toLowerCase (trim v)))) dob
    (read_gender (m !! "gender"%string)) (trimmed "comments" m) (read_rank m) None
    (trimmed_to 64 "vendor_lead_code" m) (trimmed_to 64 "source_id" m)
    (default "NEW"%string (defaultStatus opts)) false false (custom_data m).

Definition normalize_row (row : MappedRow) : result string NormalizedRow :=
  let m := m_mapped row in
  let makeError (e : string * string) := mkRowError e.1 e.2 (m_info row) (m_raw row) in
  match main_phone (field "phone_e164" m) with
  | Err e => Ok (mkNormalized None (m_raw row) (m_info row) [makeError e])
  | Ok phone =>
      let '(state, e1) := read_state m in
      '(dob, e2) ← read_dob m;
      let errors := makeError <$> (e1 ++ e2) in
      Ok (mkNormalized (if bool_decide (errors = []) then Some (build_lead m phone state dob) else None)
            (m_raw row) (m_info row) errors)
  end.

Definition normalize_stage : Stage unit MappedRow RowError NormalizedRow :=
  mkStage (λ s row, (s, match normalize_row row with Ok r => [Push r] | Err e => [Fault e] end)) (λ s, (s, [])).
End normalize.

(** ** Duplicates in the file *)

Definition duplicate_error (prevLine : Z) (phone : string) (row : NormalizedRow) : RowError :=
  mkRowError "DUPLICATE_IN_FILE"
    ("Phone " +:+ phone +:+ " already on line " +:+ zs prevLine +:+ " of this file") (n_info row) (n_raw row).

(** [_seen] maps a number to the line it was first on. *)
Definition dedup_transform (seen : gmap string Z) (row : NormalizedRow) : gmap string Z * list (Event RowError ValidRow) :=
  match n_lead row with
  | None => (seen, [RowErrors (n_errors row)])
  | Some lead =>
      let phone := l_phoneE164 lead in
      match seen !! phone with
      | Some prevLine => (seen, [RowErrors [duplicate_error prevLine phone row]])
      | None => (<[phone := lines (n_info row)]> seen, [Push (mkValid lead (n_raw row) (n_info row))])
      end
  end.

Definition dedup_stage : Stage (gmap string Z) NormalizedRow RowError ValidRow :=
  mkStage dedup_transform (λ s, (s, [])).

(** ** The do-not-call and time zone scrub *)

Inductive ImportPolicy : Set := policy_skip | policy_mark | policy_proceed.

#[export] Instance ImportPolicy_eq_dec : EqDecision ImportPolicy.
Proof. solve_decision. Defined.

Definition DNC_BATCH_SIZE : nat := 100.

Record DncHit := mkHit { h_isDnc : bool; h_sources : list DncSource }.

Definition no_hit : DncHit := mkHit false [].

(** A row of [phone_codes], in the order the server scans the table. *)
Record PhoneCode := mkPhoneCode {
  pc_area : string;
  pc_exchange : string;
  pc_state : option string;
  pc_iana : string;
  pc_confidence : string;
}.

Record ScrubOptions := mkScrubOptions {
  so_tenantId : Z;
  dncPolicy : ImportPolicy;
  tzPolicy : ImportPolicy;
}.

(** What fails while a buffer is scrubbed: the do-not-call part ([valkey_down] also when
    there is no client), and the two time zone queries. *)
Record ScrubFaults := mkScrubFaults { dnc_faults : Faults; npa_fails : bool; state_fails : bool }.

Section scrub.
Context {F : Type} `{BloomFilter F}.
(** [LIMIT n] without an order. *)
Variable select_limit : nat → list DncKey → list DncKey.

Definition scrub_keys (tenantId : Z) : list string :=
  ["bf:dnc:federal"%string; "t:" +:+ zs tenantId +:+ ":dnc:state:bloom"; "t:" +:+ zs tenantId +:+ ":dnc:internal:bloom"].

(** A query that fails counts as a hit. *)
Definition any_positive (fl : Faults) (tenantId : Z) (reg : Registry F) (phone : string) : bool :=
  existsb (λ key, bf_fails fl key || bf_query key phone reg) (scrub_keys tenantId).

Definition bloomPositives (fl : Faults) (tenantId : Z) (reg : Registry F) (phones : list string) : list string :=
  if valkey_down fl then phones else List.filter (any_positive fl tenantId reg) phones.

(** The [WHERE] clause of the query that confirms. *)
Definition import_matches (now tenantId : Z) (phones : list string) (k : DncKey) (e : DncEntry) : bool :=
  bool_decide (k_phone k ∈ phones) && ((k_tenant k =? tenantId) || (k_tenant k =? 0)) && in_force now e.

Definition import_rows (now tenantId : Z) (phones : list string) (r : Table) : list DncKey :=
  (map_to_list (filter (λ ke, import_matches now tenantId phones ke.1 ke.2 = true) r)).*1.

(** [entry.isDnc = true; if (!entry.sources.includes(row.source)) entry.sources.push(row.source)]. *)
Definition confirm_row (m : gmap string DncHit) (k : DncKey) : gmap string DncHit :=
  match m !! k_phone k with
  | Some h =>
      <[k_phone k := mkHit true (if bool_decide (k_source k ∈ h_sources h) then h_sources h
                                 else h_sources h ++ [k_source k])]> m
  | None => m
  end.

Definition clean (phones : list string) : gmap string DncHit := foldl (λ m p, <[p := no_hit]> m) ∅ phones.

Definition checkDnc (fl : Faults) (now tenantId : Z) (phones : list string) (reg : Registry F)
    : result string (gmap string DncHit) :=
  let result := clean phones in
  let positives := bloomPositives fl tenantId reg phones in
  if bool_decide (positives = []) then Ok result
  else if mysql_down fl then Err "DB_TRANSIENT: DNC MySQL check failed"%string
  else Ok (foldl confirm_row result
             (select_limit (4 * length positives) (import_rows now tenantId positives (Dnc.rows reg)))).

(** ** Time zones *)

Definition digits_of (phone : string) : list ascii := List.filter is_digit (String.list_ascii_of_string phone).

(** [digits.slice(-a, -b)] of at least [a] digits. *)
Definition digits_slice (a b : nat) (digits : list ascii) : string :=
  String.string_of_list_ascii (take (a - b) (drop (length digits - a) digits)).

Definition resolveTimezone (fl : ScrubFaults) (codes : list PhoneCode) (phone : string) (state : option string)
    : Confidence * option string :=
  let digits := digits_of phone in
  if (length digits <? 10)%nat then (NONE, None)
  else if npa_fails fl then (NONE, None)
  else
    match List.find (λ c, String.eqb (pc_area c) (digits_slice 10 7 digits) &&
                          String.eqb (pc_exchange c) (digits_slice 7 4 digits)) codes with
    | Some row => (if String.eqb (pc_confidence row) "NXX" then NXX else NPA, Some (pc_iana row))
    | None =>
        match state ≫= truthy with
        | None => (NONE, None)
        | Some st =>
            if state_fails fl then (NONE, None)
            else
              match List.find (λ c, bool_decide (pc_state c = Some st) && String.eqb (pc_confidence c) "NPA") codes with
              | Some row => (STATE_DEFAULT, Some (pc_iana row))
              | None => (NONE, None)
              end
        end
    end.

Definition tz_known (fl : ScrubFaults) (codes : list PhoneCode) (lead : NormalizedLead) : bool :=
  match (resolveTimezone fl codes (l_phoneE164 lead) (l_state lead)).1 with NONE => false | _ => true end.

(** ** A row of a buffer *)

Definition row_error (code message : string) (row : ValidRow) : Event RowError ValidRow :=
  RowErrors [mkRowError code message (v_info row) (v_raw row)].

Definition with_lead (row : ValidRow) (l : NormalizedLead) : ValidRow := mkValid l (v_raw row) (v_info row).

Definition hit_names (h : DncHit) : string := join ", " (source_name <$> h_sources h).

(** The do-not-call part: what is reported, and the row when it goes on. *)
Definition scrub_dnc (o : ScrubOptions) (h : DncHit) (row : ValidRow) : list (Event RowError ValidRow) * option ValidRow :=
  if h_isDnc h then
    match dncPolicy o with
    | policy_skip => ([row_error "DNC_BLOCKED" (hit_names h +:+ " DNC") row], None)
    | policy_mark =>
        ([row_error "DNC_WARN" ("DNC match (mark mode): " +:+ hit_names h) row], Some (with_lead row (mark_dnc (v_lead row))))
    | policy_proceed => ([row_error "DNC_WARN" ("DNC match (proceed mode): " +:+ hit_names h) row], Some row)
    end
  else ([], Some row).

Definition scrub_tz (o : ScrubOptions) (known : bool) (row : ValidRow) : list (Event RowError ValidRow) * option ValidRow :=
  if known then ([], Some row)
  else
    match tzPolicy o with
    | policy_skip => ([row_error "NO_TIMEZONE" "D03 returned NONE confidence; tz_policy=skip" row], None)
    | policy_mark =>
        ([row_error "TZ_BLOCKED_WARN" "No timezone resolved; tz_blocked=true" row],
         Some (with_lead row (block_tz (v_lead row))))
    | policy_proceed => ([], Some row)
    end.

Definition scrub_row (o : ScrubOptions) (fl : ScrubFaults) (codes : list PhoneCode) (hits : gmap string DncHit)
    (row : ValidRow) : list (Event RowError ValidRow) :=
  let hit := default no_hit (hits !! l_phoneE164 (v_lead row)) in
  let '(evs, next) := scrub_dnc o hit row in
  evs ++ match next with
         | None => []
         | Some row' =>
             let '(evs', next') := scrub_tz o (tz_known fl codes (v_lead row')) row' in
             evs' ++ match next' with Some row'' => [Push row''] | None => [] end
         end.

(** ** The stage *)

(** An error of the check other than [DB_TRANSIENT] counts every number as clean. *)
Definition _flushBuffer (o : ScrubOptions) (fl : ScrubFaults) (now : Z) (reg : Registry F) (codes : list PhoneCode)
    (batch : list ValidRow) : list (Event RowError ValidRow) :=
  if bool_decide (length batch = 0%nat) then []
  else
    let phones := (λ r, l_phoneE164 (v_lead r)) <$> batch in
    match checkDnc (dnc_faults fl) now (so_tenantId o) phones reg with
    | Err msg =>
        if String.prefix "DB_TRANSIENT" msg then [Fault msg]
        else batch ≫= scrub_row o fl codes (clean phones)
    | Ok hits => batch ≫= scrub_row o fl codes hits
    end.

Definition scrub_stage (o : ScrubOptions) (fl : ScrubFaults) (now : Z) (reg : Registry F) (codes : list PhoneCode)
    : Stage (list ValidRow) ValidRow RowError ValidRow :=
  mkStage
    (λ buffer row,
       let buffer' := buffer ++ [row] in
       if (DNC_BATCH_SIZE <=? length buffer')%nat then ([], _flushBuffer o fl now reg codes buffer')
       else (buffer', []))
    (λ buffer, ([], _flushBuffer o fl now reg codes buffer)).
End scrub.

(** ** Batches *)

Definition BATCH_SIZE : nat := 500.

Record Batch := mkBatch { batch_rows : list ValidRow; batchIndex : Z }.

(** [_buffer] and [_batchIndex]. *)
Record Batcher := mkBatcher { b_buffer : list ValidRow; b_index : Z }.

Definition batcher_init : Batcher := mkBatcher [] 0.

Definition batcher_stage (batchSize : nat) : Stage Batcher ValidRow RowError Batch :=
  mkStage
    (λ st row,
       let buffer := b_buffer st ++ [row] in
       if (batchSize <=? length buffer)%nat
       then (mkBatcher (drop batchSize buffer) (b_index st + 1), [Push (mkBatch (take batchSize buffer) (b_index st))])
       else (mkBatcher buffer (b_index st), []))
    (λ st,
       if bool_decide (length (b_buffer st) = 0%nat) then (st, [])
       else (mkBatcher [] (b_index st + 1), [Push (mkBatch (b_buffer st) (b_index st))])).

(** ** Writing to the database *)

Inductive SqlValue : Type :=
  | VInt (n : Z)
  | VText (s : string)
  | VNull
  | VJson (m : Fields).

Definition opt_value (s : option string) : SqlValue := from_option VText VNull s.

Record WriterOptions := mkWriterOptions {
  w_tenantId : Z;
  w_listId : Z;
  w_ownerUserId : Z;
  resumeFromBatch : option Z;
}.

Definition gender_name (g : Gender) : string :=
  match g with gender_M => "M" | gender_F => "F" | gender_U => "U" end.

(** [lead.ownerUserId ? BigInt(lead.ownerUserId) : this._opts.ownerUserId]. *)
Definition owner_value (o : WriterOptions) (l : NormalizedLead) : Z :=
  match l_ownerUserId l with Some n => if n =? 0 then w_ownerUserId o else n | None => w_ownerUserId o end.

Definition lead_values (o : WriterOptions) (nowStr : string) (l : NormalizedLead) : list SqlValue :=
  [VInt (w_tenantId o); VInt (w_listId o); VText (l_status l); opt_value (l_vendorLeadCode l);
   opt_value (l_sourceId l); VText (l_phoneE164 l); opt_value (l_phoneAlt l); opt_value (l_phoneAlt2 l);
   VText (l_countryCode l); opt_value (l_title l); opt_value (l_firstName l); opt_value (l_middleInitial l);
   opt_value (l_lastName l); opt_value (l_address1 l); opt_value (l_address2 l); opt_value (l_city l);
   opt_value (l_state l); opt_value (l_postalCode l); opt_value (l_email l); opt_value (l_dateOfBirth l);
   VText (gender_name (l_gender l)); opt_value (l_comments l); VInt (l_rank l); VInt (owner_value o l);
   VJson (l_customData l); VInt (if l_tzBlocked l then 1 else 0); VInt 1; VText nowStr; VText nowStr].

Definition INSERT_COLUMNS : list string :=
  ["tenant_id"; "list_id"; "status"; "vendor_lead_code"; "source_id"; "phone_e164"; "phone_alt"; "phone_alt2";
   "country_code"; "title"; "first_name"; "middle_initial"; "last_name"; "address1"; "address2"; "city"; "state";
   "postal_code"; "email"; "date_of_birth"; "gender"; "comments"; "rank"; "owner_user_id"; "custom_data";
   "tz_blocked"; "version"; "entry_at"; "modify_at"]%string.

Definition ROW_PLACEHOLDERS : string := "(?, ?, ?, ?, ?, ?, ?, ?, ?, ?, ?, ?, ?, ?, ?, ?, ?, ?, ?, ?, ?, ?, ?, ?, ?, ?, ?, ?, ?, ?)".

Record ImportProgress := mkProgress {
  p_processed : Z;
  p_total : option Z;
  p_inserted : Z;
  p_skipped : Z;
  p_errored : Z;
  p_batchIndex : Z;
}.

Record Writer := mkWriter {
  _processed : Z;
  _inserted : Z;
  _skipped : Z;
  _errored : Z;
  _totalEstimate : option Z;
}.

Definition writer_init : Writer := mkWriter 0 0 0 0 None.

Section writer.
(** The server runs a statement whose rows have the columns' number of places and a
    value for each, and answers how many rows it inserted. *)
Variable execute : list (list SqlValue) → result string Z.
Variable onBatchComplete : Z → Z → Z → result string unit.
Variable onProgress : ImportProgress → result string unit.

Definition sql_insert (columns : list string) (places : string) (values : list (list SqlValue)) : result string Z :=
  if (count_char "?" places =? length columns)%nat &&
     forallb (λ vs, (length vs =? count_char "?" places)%nat) values
  then execute values
  else Err "Column count doesn't match value count at row 1"%string.

(** What a statement that inserted [n] of the rows adds to the counts. *)
Definition count_batch (rows n : Z) (st : Writer) : Writer :=
  mkWriter (_processed st + rows) (_inserted st + n) (_skipped st + (rows - n)) (_errored st) (_totalEstimate st).

Definition progress_of (st : Writer) (batchIndex : Z) : ImportProgress :=
  mkProgress (_processed st) (_totalEstimate st) (_inserted st) (_skipped st) (_errored st) batchIndex.

(** [_write]; [Err] is what its callback gets. *)
Definition db_write (o : WriterOptions) (nowStr : string) (st : Writer) (b : Batch) : Writer * result string unit :=
  let rows := batch_rows b in
  let size := Z.of_nat (length rows) in
  if from_option (λ r, batchIndex b <? r) false (resumeFromBatch o)
  then (mkWriter (_processed st + size) (_inserted st) (_skipped st) (_errored st) (_totalEstimate st), Ok tt)
  else if bool_decide (length rows = 0%nat) then (st, Ok tt)
  else
    match sql_insert INSERT_COLUMNS ROW_PLACEHOLDERS (lead_values o nowStr ∘ v_lead <$> rows) with
    | Err e => (st, Err e)
    | Ok insertedCount =>
        let st' := count_batch size insertedCount st in
        (st', _ ← onBatchComplete (batchIndex b) insertedCount (size - insertedCount);
              onProgress (progress_of st' (batchIndex b)))
    end.
End writer.

Definition incrementErrored (n : Z) (st : Writer) : Writer :=
  mkWriter (_processed st) (_inserted st) (_skipped st) (_errored st + n) (_totalEstimate st).

Definition setTotalEstimate (total : Z) (st : Writer) : Writer :=
  mkWriter (_processed st) (_inserted st) (_skipped st) (_errored st) (Some total).

(** ** The error list *)

Definition MAX_ERRORS : Z := 10000.

Record Collector := mkCollector {
  _errors : list RowError;
  _errorCount : Z;
  _exceeded : bool;
  _byCode : gmap string Z;
}.

Definition collector_init : Collector := mkCollector [] 0 false ∅.

Definition count_code (code : string) (m : gmap string Z) : gmap string Z := <[code := default 0 (m !! code) + 1]> m.

(** One error of the loop of [addErrors]; [Ok false] leaves the loop. *)
Definition add_error (err : RowError) (st : Collector) : Collector * result string bool :=
  if bool_decide (e_code err ∈ ERROR_CODES) then
    let st' := mkCollector (_errors st ++ [err]) (_errorCount st + 1) (_exceeded st) (count_code (e_code err) (_byCode st)) in
    if MAX_ERRORS <=? _errorCount st' then
      (mkCollector
         (_errors st' ++
            [mkRowError "MAX_ERRORS_EXCEEDED" ("Error cap of " +:+ zs MAX_ERRORS +:+ " reached; import aborted")
               (e_info err) []])
         (_errorCount st') true (<["MAX_ERRORS_EXCEEDED"%string := 1]> (_byCode st')), Ok false)
    else (st', Ok true)
  else (st, Err ("D02 invariant: unknown error code " +:+ quoted (e_code err))).

Fixpoint add_loop (errors : list RowError) (st : Collector) : Collector * result string bool :=
  match errors with
  | [] => (st, Ok true)
  | err :: errors' =>
      match add_error err st with
      | (st', Ok true) => add_loop errors' st'
      | stop => stop
      end
  end.

Definition addErrors (errors : list RowError) (st : Collector) : Collector * result string bool :=
  if _exceeded st then (st, Ok false) else add_loop errors st.

(** A row of [import_errors]. *)
Record ErrorRow := mkErrorRow {
  er_tenantId : Z;
  er_importId : string;
  er_info : Info;
  er_code : string;
  er_msg : string;
  er_raw : option string;
}.

(** [JSON.stringify] of a list of strings. *)
Definition json_strings (l : list string) : string := "[" +:+ join "," (json_stringify <$> l) +:+ "]".

Definition error_row (tenantId : Z) (importId : string) (err : RowError) : ErrorRow :=
  mkErrorRow tenantId importId (e_info err) (e_code err) (cut 512 (e_message err))
    (match e_raw err with [] => None | l => Some (cut 4096 (json_strings l)) end).

Definition CSV_HEADERS : list string := ["_source_line"; "_source_record"; "_error_code"; "_error_message"]%string.

(** [flush]: the file's header and rows, unless there is no error, and the rows inserted. *)
Record Flushed := mkFlushed { csv_header : list string; csv_rows : list (list string); inserted : list ErrorRow }.

Definition csv_row (err : RowError) : list string :=
  [zs (lines (e_info err)); zs (records (e_info err)); e_code err; e_message err] ++ e_raw err.

Definition flush_errors (tenantId : Z) (importId : string) (persistRawErrors : bool) (originalHeaders : list string)
    (st : Collector) : option Flushed :=
  match _errors st with
  | [] => None
  | errs =>
      Some (mkFlushed (CSV_HEADERS ++ originalHeaders) (csv_row <$> errs)
              (if persistRawErrors then error_row tenantId importId <$> take (Z.to_nat MAX_ERRORS) errs else []))
  end.
