(* ===== verification/ImportTheorems.v ===== *)
(** What holds of a lead import: how columns are found and mapped, what a normalised
    lead looks like, which rows are duplicates, what the scrub lets through, how rows
    are batched and errors collected, and that no row is lost on the way. *)

From S2P Require Import Prelude Calendar Jcs Tcpa Rbac Sessions Auth Dnc ImportMapping ImportPipeline.

#[local] Open Scope Z_scope.

(** ** Streams *)

Create Rewrite HintDb events.

Lemma pushed_app {E R} (a b : list (Event E R)) : pushed (a ++ b) = pushed a ++ pushed b.
Proof. apply omap_app. Qed.

Lemma reported_app {E R} (a b : list (Event E R)) : reported (a ++ b) = reported a ++ reported b.
Proof. apply bind_app. Qed.

Lemma faults_app {E R} (a b : list (Event E R)) : faults (a ++ b) = faults a ++ faults b.
Proof. apply omap_app. Qed.

#[local] Hint Rewrite @pushed_app @reported_app @faults_app : events.

Lemma feed_cons {S I E R} (st : Stage S I E R) s x l :
  feed st s (x :: l) =
    ((feed st (step st s x).1 l).1, (step st s x).2 ++ (feed st (step st s x).1 l).2).
Proof. cbn. by destruct (step st s x), (feed _ _ l). Qed.

Lemma run_stage_cons {S I E R} (st : Stage S I E R) s x l :
  run_stage st s (x :: l) = (step st s x).2 ++ run_stage st (step st s x).1 l.
Proof.
  unfold run_stage. rewrite feed_cons. destruct (feed st (step st s x).1 l) as [s' evs]. cbn.
  by rewrite app_assoc.
Qed.

Lemma find_app {A} (f : A → bool) l1 l2 :
  List.find f (l1 ++ l2) = match List.find f l1 with Some x => Some x | None => List.find f l2 end.
Proof. induction l1 as [|x l1 IH]; cbn; [done|]. by destruct (f x). Qed.

(** ** Duplicates in the file *)

Module Dedup.

Definition has_phone (p : string) (row : NormalizedRow) : bool :=
  match n_lead row with Some l => String.eqb (l_phoneE164 l) p | None => false end.

(** What becomes of a row, given the rows before it: duplicates are those with a lead
    of the same number among them, and the error names the line of the first. *)
Definition fate (earlier : list NormalizedRow) (row : NormalizedRow) : Event RowError ValidRow :=
  match n_lead row with
  | None => RowErrors (n_errors row)
  | Some l =>
      match List.find (has_phone (l_phoneE164 l)) earlier with
      | Some first => RowErrors [duplicate_error (lines (n_info first)) (l_phoneE164 l) row]
      | None => Push (mkValid l (n_raw row) (n_info row))
      end
  end.

Definition phone_of (r : ValidRow) : string := l_phoneE164 (v_lead r).

Lemma seen_step seen earlier row :
  (∀ p, seen !! p = lines ∘ n_info <$> List.find (has_phone p) earlier) →
  (dedup_transform seen row).2 = [fate earlier row] ∧
  (∀ p, (dedup_transform seen row).1 !! p = lines ∘ n_info <$> List.find (has_phone p) (earlier ++ [row])).
Proof.
  intros Hs. unfold dedup_transform, fate. destruct (n_lead row) as [l|] eqn:Hl.
  - pose proof (Hs (l_phoneE164 l)) as Hp. destruct (List.find _ earlier) as [f|] eqn:Hf; rewrite Hp; cbn [fmap option_fmap option_map fst snd].
    + split; [done|]. intros p. rewrite find_app. rewrite Hs. destruct (List.find (has_phone p) earlier) eqn:E; [done|].
      cbn. unfold has_phone at 1. rewrite Hl. destruct (String.eqb_spec (l_phoneE164 l) p) as [<-|_]; [congruence|done].
    + split; [done|]. intros p. rewrite find_app. cbn. unfold has_phone at 2. rewrite Hl.
      destruct (String.eqb_spec (l_phoneE164 l) p) as [<-|Hne].
      * by rewrite lookup_insert_eq, Hf.
      * rewrite lookup_insert_ne, Hs by done. by destruct (List.find (has_phone p) earlier).
  - split; [done|]. intros p. rewrite find_app, Hs. cbn. unfold has_phone at 3. rewrite Hl.
    by destruct (List.find _ earlier).
Qed.

Lemma feed_fates rs : ∀ seen earlier,
  (∀ p, seen !! p = lines ∘ n_info <$> List.find (has_phone p) earlier) →
  run_stage dedup_stage seen rs = imap (λ i row, fate (earlier ++ take i rs) row) rs.
Proof.
  induction rs as [|row rs IH]; intros seen earlier Hs; [done|].
  rewrite run_stage_cons. destruct (seen_step seen earlier row Hs) as [He Hs'].
  cbn [step dedup_stage]. rewrite He, (IH _ _ Hs'). cbn. rewrite app_nil_r. f_equal.
  apply imap_ext. intros i x _. cbn. by rewrite <- app_assoc.
Qed.

Lemma pushed_fresh rs : ∀ seen,
  NoDup (phone_of <$> pushed (run_stage dedup_stage seen rs)) ∧
  Forall (λ r, seen !! phone_of r = None) (pushed (run_stage dedup_stage seen rs)).
Proof.
  induction rs as [|row rs IH]; intros seen; [by split; constructor|].
  rewrite run_stage_cons, pushed_app. cbn [step dedup_stage]. unfold dedup_transform.
  destruct (n_lead row) as [l|]; [|apply IH].
  destruct (seen !! l_phoneE164 l) as [ln|] eqn:Hp; [apply IH|]. cbn [fst snd].
  destruct (IH (<[l_phoneE164 l := lines (n_info row)]> seen)) as [Hnd Hf].
  rewrite Forall_forall in Hf. cbn. split.
  - constructor; [|done]. intros (r & Hr & Hin)%list_elem_of_fmap.
    specialize (Hf r Hin). rewrite <- Hr in Hf. unfold phone_of in Hf. cbn in Hf. by rewrite lookup_insert_eq in Hf.
  - constructor; [done|]. apply Forall_forall. intros r Hin. specialize (Hf r Hin).
    by apply lookup_insert_None in Hf as [? _].
Qed.

(** The duplicate check of a file is the same as looking, for each row, through all
    the rows before it: a row without a lead reports its errors, a row whose number an
    earlier lead has reports the line of the first of them, and any other goes on.  So
    no number goes on twice. *)
Theorem dedup_outcome (rs : list NormalizedRow) :
  run_stage dedup_stage ∅ rs = imap (λ i row, fate (take i rs) row) rs ∧
  NoDup (phone_of <$> pushed (run_stage dedup_stage ∅ rs)).
Proof. split; [by apply (feed_fates rs ∅ [])|apply pushed_fresh]. Qed.

End Dedup.

(** ** Batches *)

Module Batches.

(** What a stream of batches must be: the rows in order, every batch but the last of
    full size, the last not empty, and consecutive indices. *)
Record well_batched (n : nat) (from : Z) (rs : list ValidRow) (bs : list Batch) : Prop := {
  wb_rows : mjoin (batch_rows <$> bs) = rs;
  wb_index : batchIndex <$> bs = seqZ from (Z.of_nat (length bs));
  wb_size i b : bs !! i = Some b →
    (length (batch_rows b) = n ∨ S i = length bs ∧ (0 < length (batch_rows b) < n)%nat);
}.

Lemma well_batched_cons n from b rs bs :
  length (batch_rows b) = n → batchIndex b = from →
  well_batched n (from + 1) rs bs → well_batched n from (batch_rows b ++ rs) (b :: bs).
Proof.
  intros Hn Hi [Hr Hx Hs]. split.
  - transitivity (batch_rows b ++ mjoin (batch_rows <$> bs)); [done|by rewrite Hr].
  - cbn [fmap list_fmap length]. rewrite Hi, Hx. rewrite (seqZ_cons from) by lia.
    rewrite Nat2Z.inj_succ. by rewrite Z.pred_succ.
  - intros [|i] b'; cbn.
    + intros [= <-]. auto.
    + intros H%Hs. destruct H as [|[]]; [auto|right]. split; [lia|done].
Qed.

Lemma batcher_rows n rs : ∀ buf from,
  (0 < n)%nat → (length buf < n)%nat →
  well_batched n from (buf ++ rs) (pushed (run_stage (batcher_stage n) (mkBatcher buf from) rs)).
Proof.
  induction rs as [|row rs IH]; intros buf from Hn Hb.
  - unfold run_stage. cbn [feed flush batcher_stage b_buffer b_index app]. rewrite app_nil_r.
    destruct buf as [|x buf]; [by split; cbn|].
    rewrite bool_decide_false by done. split; cbn.
    + by rewrite app_nil_r.
    + done.
    + intros [|i] b; cbn; [|done]. intros [= <-]. cbn. right. cbn in Hb. lia.
  - rewrite run_stage_cons, pushed_app. cbn [step batcher_stage b_buffer b_index].
    destruct (Nat.leb_spec n (length (buf ++ [row]))) as [Hle|Hlt].
    + assert (length (buf ++ [row]) = n) as Hlen by (rewrite length_app in *; cbn in *; lia).
      cbn [fst snd pushed omap list_omap app]. replace (buf ++ row :: rs) with ((buf ++ [row]) ++ rs) by by rewrite <- app_assoc.
      rewrite drop_ge, take_ge by lia.
      apply (well_batched_cons n from (mkBatch (buf ++ [row]) from)); [done..|].
      by apply (IH [] (from + 1)); cbn.
    + cbn [fst snd pushed omap list_omap app]. rewrite (cons_middle row), app_assoc. by apply IH.
Qed.

Lemma batches_rows n rs :
  (0 < n)%nat → mjoin (batch_rows <$> pushed (run_stage (batcher_stage n) batcher_init rs)) = rs.
Proof. intros Hn. by destruct (batcher_rows n rs [] 0 Hn Hn). Qed.

End Batches.

(** ** The scrub *)

Module Scrub.

(** What a whole stream satisfies when every buffer does. *)
Lemma scrub_buffers {F} `{BloomFilter F} sel o fl now (reg : Registry F) codes
    (R : list ValidRow → list (Event RowError ValidRow) → Prop) :
  (∀ a x b y, R a x → R b y → R (a ++ b) (x ++ y)) →
  (∀ batch, R batch (_flushBuffer sel o fl now reg codes batch)) →
  ∀ rs buf, R (buf ++ rs) (run_stage (scrub_stage sel o fl now reg codes) buf rs).
Proof.
  intros Happ Hflush. induction rs as [|row rs IH]; intros buf.
  - unfold run_stage. cbn. rewrite app_nil_r. apply Hflush.
  - rewrite run_stage_cons, (cons_middle row), app_assoc. cbn [step scrub_stage].
    destruct (DNC_BATCH_SIZE <=? length (buf ++ [row]))%nat; cbn [fst snd].
    + apply Happ; [apply Hflush|apply (IH [])].
    + apply (IH (buf ++ [row])).
Qed.

(** *** No row is lost *)

Definition BLOCKING : list string := ["DNC_BLOCKED"; "NO_TIMEZONE"]%string.

Definition blocked (es : list RowError) : list RowError := filter (λ e, e_code e ∈ BLOCKING) es.

(** The rows that went on and the rows that were refused, by their place in the file. *)
Definition accounted (rs : list ValidRow) (evs : list (Event RowError ValidRow)) : Prop :=
  (v_info <$> pushed evs) ++ (e_info <$> blocked (reported evs)) ≡ₚ v_info <$> rs.

Lemma accounted_app a x b y : accounted a x → accounted b y → accounted (a ++ b) (x ++ y).
Proof.
  unfold accounted, blocked. intros Ha Hb.
  rewrite pushed_app, reported_app, filter_app, !fmap_app, <- Ha, <- Hb. solve_Permutation.
Qed.

Lemma accounted_row o fl codes hits row : accounted [row] (scrub_row o fl codes hits row).
Proof.
  unfold scrub_row, scrub_dnc, scrub_tz.
  destruct (h_isDnc _), (dncPolicy o); cbn -[tz_known];
    repeat match goal with |- context [if tz_known ?f ?c ?l then _ else _] => destruct (tz_known f c l) end;
    destruct (tzPolicy o); vm_compute; reflexivity.
Qed.

Lemma accounted_rows o fl codes hits rs : accounted rs (rs ≫= scrub_row o fl codes hits).
Proof.
  induction rs as [|r rs IH]; [apply Permutation_refl|]. change (r :: rs) with ([r] ++ rs). rewrite bind_app.
  apply accounted_app; [|done]. cbn. rewrite app_nil_r. apply accounted_row.
Qed.

Lemma flush_accounts {F} `{BloomFilter F} sel o fl now (reg : Registry F) codes batch :
  mysql_down (dnc_faults fl) = false → accounted batch (_flushBuffer sel o fl now reg codes batch).
Proof.
  intros Hup. unfold _flushBuffer. case_bool_decide as Hb; [destruct batch; [apply Permutation_refl|done]|].
  unfold checkDnc. case_bool_decide; [apply accounted_rows|]. rewrite Hup. apply accounted_rows.
Qed.

(** *** What is refused *)

Section table.
Context {F : Type}.
Variables (now : Z) (reg : Registry F).

(** A row of the table the scrub of a tenant may see, for a number. *)
Definition visible (tenantId : Z) (p : string) (k : DncKey) : Prop :=
  k_phone k = p ∧ (k_tenant k = tenantId ∨ k_tenant k = 0) ∧
  ∃ e, Dnc.rows reg !! k = Some e ∧ in_force now e = true.

Lemma import_rows_spec tenantId ps k :
  k ∈ import_rows now tenantId ps (Dnc.rows reg) ↔ k_phone k ∈ ps ∧ visible tenantId (k_phone k) k.
Proof.
  unfold import_rows, visible. rewrite list_elem_of_fmap. split.
  - intros ((k' & e) & -> & Hin). apply elem_of_map_to_list, map_lookup_filter_Some in Hin as [Hk Hm].
    unfold import_matches in Hm. cbn in *. rewrite !andb_true_iff, bool_decide_eq_true, orb_true_iff, !Z.eqb_eq in Hm.
    destruct Hm as [[??]?]. eauto 8.
  - intros (Hp & _ & Ht & e & Hk & He). exists (k, e). split; [done|].
    apply elem_of_map_to_list, map_lookup_filter_Some. split; [done|]. unfold import_matches. cbn.
    by rewrite !andb_true_iff, bool_decide_eq_true, orb_true_iff, !Z.eqb_eq.
Qed.

Lemma import_rows_nodup tenantId ps : NoDup (import_rows now tenantId ps (Dnc.rows reg)).
Proof. apply NoDup_fst_map_to_list. Qed.

(** Up to four rows a number, the limit of four for each cuts nothing. *)
Lemma import_rows_length tenantId ps :
  (∀ p, length (import_rows now tenantId [p] (Dnc.rows reg)) ≤ 4)%nat →
  (length (import_rows now tenantId ps (Dnc.rows reg)) ≤ 4 * length ps)%nat.
Proof.
  intros H4. induction ps as [|p ps IH].
  - destruct (import_rows now tenantId [] (Dnc.rows reg)) as [|k l] eqn:E; [cbn; lia|].
    assert (k ∈ import_rows now tenantId [] (Dnc.rows reg)) as Hk by (rewrite E; apply list_elem_of_here).
    apply import_rows_spec in Hk as [[]%not_elem_of_nil _].
  - set (l := import_rows now tenantId (p :: ps) (Dnc.rows reg)).
    assert (l ⊆+ import_rows now tenantId [p] (Dnc.rows reg) ++ import_rows now tenantId ps (Dnc.rows reg)) as Hs.
    { apply NoDup_submseteq; [apply import_rows_nodup|]. intros k [Hp Hv]%import_rows_spec.
      rewrite elem_of_app, !import_rows_spec. set_solver. }
    apply submseteq_length in Hs. rewrite length_app in Hs. specialize (H4 p). cbn [length]. lia.
Qed.

End table.

Lemma clean_lookup ps p : clean ps !! p = if bool_decide (p ∈ ps) then Some no_hit else None.
Proof.
  unfold clean. assert (∀ m : gmap string DncHit,
    foldl (λ m p, <[p := no_hit]> m) m ps !! p = if bool_decide (p ∈ ps) then Some no_hit else m !! p) as Hc.
  { induction ps as [|q ps IH]; intros m; [done|]. cbn. rewrite IH.
    destruct (decide (p = q)) as [->|Hne].
    - rewrite lookup_insert_eq. rewrite (bool_decide_true (q ∈ q :: ps)) by set_solver. by case_bool_decide.
    - rewrite lookup_insert_ne by done. by rewrite (bool_decide_ext (p ∈ q :: ps) (p ∈ ps)) by set_solver. }
  by rewrite Hc.
Qed.

(** What the rows found do to the result of one number. *)
Lemma confirm_lookup ks p : ∀ m h, m !! p = Some h →
  ∃ h', foldl confirm_row m ks !! p = Some h' ∧
    (h_isDnc h' = true ↔ h_isDnc h = true ∨ ∃ k, k ∈ ks ∧ k_phone k = p).
Proof.
  induction ks as [|k ks IH]; intros m h Hm.
  - exists h. split; [done|]. split; [auto|]. intros [?|(k & Hk & _)]; [done|]. by apply not_elem_of_nil in Hk.
  - cbn. destruct (decide (k_phone k = p)) as [<-|Hne].
    + destruct (IH (confirm_row m k) (mkHit true (if bool_decide (k_source k ∈ h_sources h) then h_sources h
        else h_sources h ++ [k_source k]))) as (h' & Hl & Hi).
      { unfold confirm_row. by rewrite Hm, lookup_insert_eq. }
      exists h'. split; [done|]. rewrite Hi. cbn. split; [|by left].
      intros _. right. exists k. split; [apply list_elem_of_here|done].
    + destruct (IH (confirm_row m k) h) as (h' & Hl & Hi).
      { unfold confirm_row. destruct (m !! k_phone k); [|done]. by rewrite lookup_insert_ne. }
      exists h'. split; [done|]. rewrite Hi. split; (intros [?|(k' & Hk & Hp)]; [by left|right]); exists k'.
      * split; [by apply list_elem_of_further|done].
      * apply elem_of_cons in Hk as [->|?]; [congruence|done].
Qed.

Lemma elem_of_pushed_bind {A E R} (f : A → list (Event E R)) l r :
  r ∈ pushed (l ≫= f) ↔ ∃ x, x ∈ l ∧ r ∈ pushed (f x).
Proof.
  unfold pushed. setoid_rewrite list_elem_of_omap. setoid_rewrite list_elem_of_bind. naive_solver.
Qed.

Lemma elem_of_reported_bind {A E R} (f : A → list (Event E R)) l e :
  e ∈ reported (l ≫= f) ↔ ∃ x, x ∈ l ∧ e ∈ reported (f x).
Proof.
  unfold reported. setoid_rewrite list_elem_of_bind. setoid_rewrite list_elem_of_bind. naive_solver.
Qed.

Definition hit_of (hits : gmap string DncHit) (row : ValidRow) : DncHit :=
  default no_hit (hits !! Dedup.phone_of row).

(** What goes on under the policy [skip] is not listed, and keeps its number. *)
Lemma scrub_row_pushed o fl codes hits row r :
  dncPolicy o = policy_skip → r ∈ pushed (scrub_row o fl codes hits row) →
  Dedup.phone_of r = Dedup.phone_of row ∧ h_isDnc (hit_of hits row) = false.
Proof.
  intros Hp. unfold scrub_row, scrub_dnc. rewrite Hp. fold (Dedup.phone_of row). fold (hit_of hits row).
  destruct (h_isDnc (hit_of hits row)); [by intros ?%not_elem_of_nil|]. unfold scrub_tz.
  destruct (tz_known _ _ _), (tzPolicy o); cbn; intros Hr;
    try (apply list_elem_of_singleton in Hr as ->; done); by apply not_elem_of_nil in Hr.
Qed.

Lemma scrub_row_blocked o fl codes hits row e :
  e ∈ reported (scrub_row o fl codes hits row) → e_code e = "DNC_BLOCKED"%string →
  h_isDnc (hit_of hits row) = true ∧ v_info row = e_info e.
Proof.
  unfold scrub_row, scrub_dnc. fold (Dedup.phone_of row). fold (hit_of hits row). unfold scrub_tz.
  destruct (h_isDnc (hit_of hits row)), (dncPolicy o); cbn -[tz_known];
    repeat match goal with |- context [if tz_known ?f ?c ?l then _ else _] => destruct (tz_known f c l) end;
    destruct (tzPolicy o); cbn; rewrite ?elem_of_cons, ?elem_of_nil; intros Hin He;
    destruct_or?; try done; subst; done.
Qed.

Section decides.
Context {F : Type} `{BloomFilter F}.
Variable sel : nat → list DncKey → list DncKey.
Hypothesis sel_sub : ∀ n l k, k ∈ sel n l → k ∈ l.
Hypothesis sel_all : ∀ n l k, (length l ≤ n)%nat → k ∈ l → k ∈ sel n l.
Variables (o : ScrubOptions) (fl : ScrubFaults) (now : Z) (reg : Registry F) (codes : list PhoneCode).

#[local] Abbreviation tenant := (so_tenantId o).
#[local] Abbreviation faults := (dnc_faults fl).

Lemma positive_in ps p :
  p ∈ bloomPositives faults tenant reg ps ↔
  p ∈ ps ∧ (valkey_down faults = true ∨ any_positive faults tenant reg p = true).
Proof using.
  clear sel_sub sel_all. unfold bloomPositives. destruct (valkey_down faults); [naive_solver|].
  rewrite !list_elem_of_In, filter_In. naive_solver.
Qed.

(** What the check says of a number, when it says something. *)
Lemma checkDnc_isDnc ps hits p :
  checkDnc sel faults now tenant ps reg = Ok hits → p ∈ ps →
  (∀ p, length (import_rows now tenant [p] (Dnc.rows reg)) ≤ 4)%nat →
  (h_isDnc (default no_hit (hits !! p)) = true ↔
   p ∈ bloomPositives faults tenant reg ps ∧ ∃ k, visible now reg tenant p k).
Proof using sel_sub sel_all.
  intros Hc Hp H4. unfold checkDnc in Hc.
  assert (clean ps !! p = Some no_hit) as Hcl by by rewrite clean_lookup, bool_decide_true.
  case_bool_decide as Hpos.
  { injection Hc as <-. rewrite Hcl, Hpos. cbn. split; [done|]. by intros [?%not_elem_of_nil _]. }
  destruct (mysql_down faults); [done|]. injection Hc as <-.
  match goal with |- context [foldl confirm_row _ ?l] => destruct (confirm_lookup l p _ _ Hcl) as (h & -> & Hi) end.
  cbn. rewrite Hi. cbn. split.
  - intros [[=]|(k & Hk & <-)]. apply sel_sub, import_rows_spec in Hk as [Hk Hv]. eauto.
  - intros (Hb & k & Hv). right. exists k. pose proof Hv as (<- & _). split; [|done].
    apply sel_all; [by apply import_rows_length|]. by apply import_rows_spec.
Qed.

(** Every list the scrub asks a filter for is in it. *)
Definition filters_cover : Prop :=
  ∀ p k, visible now reg tenant p k → k_source k ≠ litigator →
    bf_query (bloomKey (k_source k) (Some tenant)) p reg = true.

Lemma cover_positive p k :
  filters_cover → visible now reg tenant p k → k_source k ≠ litigator → any_positive faults tenant reg p = true.
Proof using.
  clear sel_sub sel_all. intros Hc Hv Hs. specialize (Hc p k Hv Hs). unfold any_positive. apply existsb_exists.
  exists (bloomKey (k_source k) (Some tenant)). rewrite Hc, orb_true_r. split; [|done].
  unfold scrub_keys. destruct (k_source k); cbn; auto.
Qed.

(** The rows that go on and the rows refused, of one buffer or of a stream. *)
Definition decided (rs : list ValidRow) (evs : list (Event RowError ValidRow)) : Prop :=
  (∀ r k, r ∈ pushed evs → visible now reg tenant (Dedup.phone_of r) k → k_source k = litigator) ∧
  (∀ e, e ∈ reported evs → e_code e = "DNC_BLOCKED"%string →
     ∃ row k, row ∈ rs ∧ v_info row = e_info e ∧ visible now reg tenant (Dedup.phone_of row) k).

Lemma flush_decided batch :
  dncPolicy o = policy_skip → filters_cover →
  (∀ p, length (import_rows now tenant [p] (Dnc.rows reg)) ≤ 4)%nat →
  decided batch (_flushBuffer sel o fl now reg codes batch).
Proof using sel_sub sel_all.
  intros Hskip Hcov H4. unfold _flushBuffer.
  case_bool_decide as Hb; [by split; intros ?; intros; cbn in *; set_solver|].
  destruct (checkDnc _ _ _ _ _ _) as [hits|msg] eqn:Hc.
  - assert (∀ row, row ∈ batch → Dedup.phone_of row ∈ (λ r, l_phoneE164 (v_lead r)) <$> batch) as Hph.
    { intros row Hrow. apply list_elem_of_fmap. by exists row. }
    split.
    + intros r k (row & Hrow & Hr)%elem_of_pushed_bind Hv.
      destruct (scrub_row_pushed _ _ _ _ _ _ Hskip Hr) as [Hpr Hno]. rewrite Hpr in Hv.
      destruct (decide (k_source k = litigator)) as [|Hs]; [done|].
      apply not_true_iff_false in Hno. contradict Hno. unfold hit_of.
      apply (checkDnc_isDnc _ _ _ Hc (Hph row Hrow) H4). split; [|by exists k].
      apply positive_in. split; [by apply Hph|]. right. by apply (cover_positive _ k).
    + intros e (row & Hrow & He)%elem_of_reported_bind Hcode.
      destruct (scrub_row_blocked _ _ _ _ _ _ He Hcode) as [Hd Hi].
      apply (checkDnc_isDnc _ _ _ Hc (Hph row Hrow) H4) in Hd as (_ & k & Hv). by exists row, k.
  - assert (msg = "DB_TRANSIENT: DNC MySQL check failed"%string) as ->.
    { unfold checkDnc in Hc. case_bool_decide; [done|]. destruct (mysql_down faults); congruence. }
    cbn. split; intros ?; intros; cbn in *; set_solver.
Qed.

End decides.

(** A number listed under four or fewer rows the tenant sees. *)
Definition rows_bounded {F} (now : Z) (reg : Registry F) (tenantId : Z) : Prop :=
  ∀ p, (length (import_rows now tenantId [p] (Dnc.rows reg)) ≤ 4)%nat.

(** C32: Under the policy [skip], for one pattern of failures of Valkey and the database,
    the same for the whole stream: if the filters hold the numbers of the rows in force
    on the lists but the litigators' ([filters_cover]) and no number has more than four
    such rows ([rows_bounded]), a lead that goes on is on no federal, state or internal list the tenant sees
    (it may be on the litigators' list, which the scrub does not ask), and a lead is
    refused as listed only if a row in force lists it. *)
Theorem scrub_blocks_listed {F} `{BloomFilter F} sel o fl now (reg : Registry F) codes rs :
  (∀ n l k, k ∈ sel n l → k ∈ l) →
  (∀ n l k, (length l ≤ n)%nat → k ∈ l → k ∈ sel n l) →
  dncPolicy o = policy_skip → filters_cover o now reg → rows_bounded now reg (so_tenantId o) →
  decided o now reg rs (run_stage (scrub_stage sel o fl now reg codes) [] rs).
Proof.
  intros Hsub Hall Hskip Hcov H4. apply (scrub_buffers sel o fl now reg codes (decided o now reg)) with (buf := []).
  - intros a x b y [Ha1 Ha2] [Hb1 Hb2]. unfold decided. rewrite pushed_app, reported_app.
    setoid_rewrite elem_of_app. split.
    + intros r k [Hr|Hr]; eauto.
    + intros e [He|He] Hc; [destruct (Ha2 e He Hc) as (row & k & ?)|destruct (Hb2 e He Hc) as (row & k & ?)];
        exists row, k; naive_solver.
  - intros batch. by apply flush_decided.
Qed.

End Scrub.

(** ** Delimiters *)

(** The sniffer tells one delimiter, once, and passes every chunk on. *)
Lemma sniff_once chunks : ∀ st,
  (sniff_stream chunks st).1 = chunks ∧ length (sniff_stream chunks st).2 = (if sniffed st then 0 else 1)%nat.
Proof.
  induction chunks as [|c chunks IH]; intros st; cbn [sniff_stream].
  - unfold sniff_flush. by destruct (sniffed st).
  - unfold sniff_transform. destruct (sniffed st) eqn:Hs.
    + destruct (IH st) as [H1 H2]. rewrite Hs in H2. destruct (sniff_stream chunks st) as [o t]. cbn in *. by subst.
    + destruct (512 <=? _)%nat.
      * destruct (IH (mkSniffer true (firstChunk st +:+ c))) as [H1 H2].
        destruct (sniff_stream chunks _) as [o t]. cbn in *. subst. by rewrite H2.
      * destruct (IH (mkSniffer false (firstChunk st +:+ c))) as [H1 H2].
        destruct (sniff_stream chunks _) as [o t]. cbn in *. by subst.
Qed.

(** The delimiter told is one of the three, and none of the three is more frequent. *)
Lemma detectDelimiter_most sample c :
  c ∈ [tab; comma; semicolon] →
  (count_char c (String.substring 0 4096 sample) <=
   count_char (detectDelimiter sample) (String.substring 0 4096 sample))%nat.
Proof.
  unfold detectDelimiter. set (s := String.substring 0 4096 sample). intros Hc.
  destruct (Nat.ltb_spec (count_char comma s) (count_char tab s)), (Nat.ltb_spec (count_char semicolon s) (count_char tab s)),
    (Nat.ltb_spec (count_char comma s) (count_char semicolon s)); cbn [andb];
    rewrite !elem_of_cons, elem_of_nil in Hc; destruct_or! Hc; subst; lia || done.
Qed.

(** ** Slices of text *)

Lemma substring_long m s : (String.length s <= m)%nat → String.substring 0 m s = s.
Proof.
  revert m. induction s as [|c s IH]; intros [|m] Hm; cbn in *; [done..|lia|]. f_equal. apply IH. lia.
Qed.

Lemma slice_from_app a b : slice_from (String.length a) (a +:+ b) = b.
Proof.
  unfold slice_from. rewrite length_string_app.
  assert (∀ m, (String.length b <= m)%nat → String.substring (String.length a) m (a +:+ b) = b) as Hs.
  { intros m Hm. induction a as [|c a IH]; [by apply substring_long|]. autorewrite with strs. apply IH. }
  apply Hs. lia.
Qed.

Lemma prefix_app a s : String.prefix a s = true ↔ ∃ b, s = a +:+ b.
Proof.
  split.
  - revert s. induction a as [|c a IH]; intros s; [by exists s|]. destruct s as [|d s]; cbn; [done|].
    destruct (ascii_dec c d) as [->|]; [|done]. intros [b ->]%IH. exists b. by autorewrite with strs.
  - intros [b ->]. induction a as [|c a IH]; [by destruct b|]. autorewrite with strs. cbn.
    destruct (ascii_dec c c); [done|congruence].
Qed.

Lemma length_cut n s : (String.length (cut n s) <= n)%nat.
Proof.
  unfold cut. revert n. induction s as [|c s IH]; intros [|n]; cbn; [lia..|]. specialize (IH n). lia.
Qed.

(** ** Normalised rows *)

Module Normalized.

Section normalized.
Variable to_double : Z → Z.
Variable parse_phone : string → string → PhoneParse.
Variable date_parse : string → string → result string (option Z).
Variable opts : NormalizeOptions.

#[local] Abbreviation normalize_row := (normalize_row to_double parse_phone date_parse opts).

Definition fits (n : nat) (s : option string) : Prop := from_option (λ v, String.length v <= n)%nat True s.

(** The text columns that are cut to their width; [first_name], [last_name], [phone_alt],
    [phone_alt2] and [status] are not. *)
Definition texts_fit (l : NormalizedLead) : Prop :=
  fits 4 (l_middleInitial l) ∧ fits 8 (l_title l) ∧ fits 128 (l_address1 l) ∧ fits 128 (l_address2 l) ∧
  fits 64 (l_city l) ∧ fits 16 (l_postalCode l) ∧ fits 128 (l_email l) ∧
  fits 64 (l_vendorLeadCode l) ∧ fits 64 (l_sourceId l).

(** A date of birth is what the file says when it has the shape of an ISO date, and
    otherwise the day of an instant the date library read. *)
Definition dob_ok (m : Fields) (d : option string) : Prop :=
  match d with
  | None => True
  | Some s => iso_shape s = true ∧ m !! "date_of_birth"%string ≫= (λ v, Some (trim v)) = Some s ∨ ∃ t, s = iso_day t
  end.

Record lead_ok (m : Fields) (l : NormalizedLead) : Prop := {
  ok_phone : parse_phone (field "phone_e164" m) (country opts) = found_phone true (l_phoneE164 l);
  ok_state : from_option (λ s, s ∈ US_STATES) True (l_state l);
  ok_texts : texts_fit l;
  ok_dob : dob_ok m (l_dateOfBirth l);
  ok_status : l_status l = default "NEW"%string (defaultStatus opts);
  ok_flags : l_tzBlocked l = false ∧ l_dncBlocked l = false;
  ok_custom k : l_customData l !! k = m !! (CUSTOM +:+ k);
}.

Definition ROW_CODES : list string := ["MISSING_REQUIRED_FIELD"; "INVALID_PHONE"; "INVALID_STATE"; "INVALID_DATE"]%string.

Lemma custom_data_lookup m k : custom_data m !! k = m !! (CUSTOM +:+ k).
Proof using.
  assert (∀ v, (k, v) ∈ omap (λ kv, if String.prefix CUSTOM kv.1 then Some (slice_from 7 kv.1, kv.2) else None)
    (map_to_list m) ↔ m !! (CUSTOM +:+ k) = Some v) as Hin.
  { intros v. rewrite list_elem_of_omap. split.
    - intros ((k' & v') & Hk & He). apply elem_of_map_to_list in Hk. cbn [fst snd] in He.
      destruct (String.prefix CUSTOM k') eqn:Hp; [|done]. apply prefix_app in Hp as [b ->].
      change 7%nat with (String.length CUSTOM) in He. rewrite slice_from_app in He. by injection He as -> ->.
    - intros Hk. exists (CUSTOM +:+ k, v). split; [by apply elem_of_map_to_list|]. cbn [fst snd].
      rewrite (proj2 (prefix_app _ _)) by (by exists k). change 7%nat with (String.length CUSTOM).
      by rewrite slice_from_app. }
  unfold custom_data. destruct (m !! (CUSTOM +:+ k)) as [v|] eqn:Hm.
  - apply elem_of_list_to_map_1'; [|by apply Hin]. intros v' Hv'%Hin. congruence.
  - apply not_elem_of_list_to_map_1. intros ((k' & v) & -> & Hv)%list_elem_of_fmap. apply Hin in Hv. cbn in *. congruence.
Qed.

Lemma truthy_fits n (f : string → string) (o : option string) :
  (∀ v, String.length (f v) <= n)%nat → fits n (o ≫= λ v, truthy (f v)).
Proof using.
  intros Hf. destruct o as [v|]; [|done]. cbn. specialize (Hf v). by destruct (f v).
Qed.

Lemma texts_fit_build m p st dob : texts_fit (build_lead to_double parse_phone opts m p st dob).
Proof using.
  unfold texts_fit, trimmed_to. cbn. split_and!; apply truthy_fits; intros v; apply length_cut.
Qed.

Lemma read_state_ok m :
  from_option (λ s, s ∈ US_STATES) True (read_state m).1 ∧ Forall (λ e, e.1 ∈ ROW_CODES) (read_state m).2.
Proof using.
  unfold read_state. destruct (_ ≫= _) as [st|]; [|done]. case_bool_decide; [done|].
  split; [done|]. repeat constructor.
Qed.

Lemma read_dob_ok m d es :
  read_dob date_parse m = Ok (d, es) → dob_ok m d ∧ Forall (λ e, e.1 ∈ ROW_CODES) es.
Proof using.
  unfold read_dob, dob_ok. destruct (m !! "date_of_birth"%string) as [raw|]; [|by intros [= <- <-]].
  destruct (String.eqb _ _); [by intros [= <- <-]|]. destruct (iso_shape (trim raw)) eqn:Hs.
  { intros [= <- <-]. split; [by left|done]. }
  intros H. apply bind_ok in H as ([t|] & _ & H); injection H as <- <-.
  - split; [right; by exists t|done].
  - split; [done|]. repeat constructor.
Qed.

Lemma normalized_row_fields row r :
  normalize_row row = Ok r →
  n_info r = m_info row ∧ n_raw r = m_raw row ∧
  (n_lead r = None ↔ n_errors r ≠ []) ∧
  Forall (λ e, e_code e ∈ ROW_CODES ∧ e_info e = m_info row ∧ e_raw e = m_raw row) (n_errors r) ∧
  ∀ l, n_lead r = Some l → lead_ok (m_mapped row) l.
Proof using.
  unfold ImportPipeline.normalize_row, main_phone. set (m := m_mapped row).
  destruct (String.eqb _ _).
  { intros [= <-]. cbn. split_and!; [done|done|by split|by repeat constructor|done]. }
  destruct (parse_phone (field "phone_e164" m) (country opts)) as [| |[] phone] eqn:Hphone;
    try (intros [= <-]; cbn; split_and!; [done|done|by split|by repeat constructor|done]).
  pose proof (read_state_ok m) as [Hst He1]. destruct (read_state m) as [st e1].
  intros H. apply bind_ok in H as ([dob e2] & [Hdob He2]%read_dob_ok & H). injection H as <-. cbn [n_lead n_errors n_info n_raw].
  split_and!; [done|done|..].
  - by case_bool_decide.
  - apply Forall_fmap, Forall_app_2; eapply Forall_impl; eauto; cbn; auto.
  - intros l Hl. case_bool_decide; [|done]. injection Hl as <-.
    split; try done; [apply texts_fit_build|apply custom_data_lookup].
Qed.

(** C33: What normalising gives: the row has a lead exactly when it has no error; its
    errors carry the row's place and text and one of four codes; and a lead has the
    number the phone library found valid, a state of the list, the nine texts that are
    cut no longer than they are cut to, the chosen status, no block, and the row's custom
    fields under their names.  Names and alternative numbers are not cut to their columns
    ([names_not_cut]). *)
Theorem normalized_row_ok row r :
  normalize_row row = Ok r →
  n_info r = m_info row ∧ n_raw r = m_raw row ∧
  (n_lead r = None ↔ n_errors r ≠ []) ∧
  Forall (λ e, e_code e ∈ ROW_CODES ∧ e_info e = m_info row ∧ e_raw e = m_raw row) (n_errors r) ∧
  ∀ l, n_lead r = Some l → lead_ok (m_mapped row) l.
Proof using. apply normalized_row_fields. Qed.

(** A first or a last name goes on as it is, only trimmed, though the columns have 64
    characters. *)
Theorem names_not_cut m p st dob v :
  trim v ≠ EmptyString →
  (m !! "first_name"%string = Some v →
   l_firstName (build_lead to_double parse_phone opts m p st dob) = Some (trim v)) ∧
  (m !! "last_name"%string = Some v →
   l_lastName (build_lead to_double parse_phone opts m p st dob) = Some (trim v)).
Proof using.
  intros Hv. unfold build_lead, trimmed. cbn.
  split; intros ->; cbn; unfold truthy; by destruct (trim v).
Qed.

End normalized.
End Normalized.

(** ** The error list *)

Module Errors.

Definition cap : nat := Z.to_nat MAX_ERRORS.

Lemma cap_value : Z.of_nat cap = MAX_ERRORS.
Proof. unfold cap. by rewrite Z2Nat.id. Qed.

#[local] Opaque cap MAX_ERRORS.

Definition MARKER : string := "MAX_ERRORS_EXCEEDED".

Definition cap_marker (e : RowError) : RowError :=
  mkRowError MARKER ("Error cap of " +:+ zs MAX_ERRORS +:+ " reached; import aborted") (e_info e) [].

Definition with_code (c : string) (es : list RowError) : Z :=
  Z.of_nat (length (filter (λ e, e_code e = c) es)).

(** The collector after the errors [es]: the first ten thousand of them, then the
    marker, and their number by code. *)
Record collected (es : list RowError) (st : Collector) : Prop := {
  c_errors : _errors st = take cap es ++ option_list (cap_marker <$> es !! Nat.pred cap);
  c_count : _errorCount st = Z.of_nat (length (take cap es));
  c_exceeded : _exceeded st = true ↔ (cap <= length es)%nat;
  c_codes c : c ≠ MARKER → default 0 (_byCode st !! c) = with_code c (take cap es);
}.

Lemma cap_pos : (0 < cap)%nat.
Proof. pose proof cap_value as H. #[local] Transparent MAX_ERRORS. unfold MAX_ERRORS in H. lia. Qed.

#[local] Opaque MAX_ERRORS.

(** Past the cap nothing changes. *)
Lemma collected_full es b st : collected es st → (cap <= length es)%nat → collected (es ++ b) st.
Proof.
  intros [He Hn Hx Hc] Hl. pose proof cap_pos.
  assert (take cap (es ++ b) = take cap es) as Ht by by rewrite take_app_le.
  split; rewrite ?Ht; auto.
  - by rewrite lookup_app_l by lia.
  - rewrite length_app, Hx. lia.
Qed.

Lemma count_code_lookup c d m : default 0 (count_code d m !! c) = default 0 (m !! c) + (if String.eqb d c then 1 else 0).
Proof.
  unfold count_code. destruct (String.eqb_spec d c) as [->|Hne].
  - by rewrite lookup_insert_eq.
  - rewrite lookup_insert_ne by done. lia.
Qed.

Lemma with_code_snoc c es e : with_code c (es ++ [e]) = with_code c es + (if String.eqb (e_code e) c then 1 else 0).
Proof.
  unfold with_code. rewrite filter_app, length_app, filter_cons.
  destruct (String.eqb_spec (e_code e) c); [rewrite decide_True by done|rewrite decide_False by done]; cbn; lia.
Qed.

(** One error below the cap; the answer tells whether it was the last one taken. *)
Lemma add_error_collected es e st :
  collected es st → (length es < cap)%nat → e_code e ∈ ERROR_CODES →
  ∃ st', add_error e st = (st', Ok (bool_decide (S (length es) < cap)%nat)) ∧ collected (es ++ [e]) st'.
Proof.
  intros [He Hn Hx Hc] Hl Hcode. pose proof cap_value as Hcap. pose proof cap_pos.
  assert (_exceeded st = false) as Hx0 by (destruct (_exceeded st); [exfalso; apply proj1 in Hx; lia|done]).
  rewrite take_ge in He, Hn, Hc by lia. rewrite lookup_ge_None_2 in He by lia. cbn in He. rewrite app_nil_r in He.
  assert (take cap (es ++ [e]) = es ++ [e]) as Ht by (apply take_ge; rewrite length_app; cbn; lia).
  assert (length (es ++ [e]) = S (length es)) as Hlen by (rewrite length_app; cbn; lia).
  unfold add_error. rewrite bool_decide_true by done. cbn [_errorCount _errors _exceeded _byCode]. rewrite Hn, He.
  destruct (Z.leb_spec MAX_ERRORS (Z.of_nat (length es) + 1)) as [Hle|Hlt].
  - rewrite bool_decide_false by lia. eexists. split; [done|]. split; cbn [_errorCount _errors _exceeded _byCode].
    + rewrite Ht. f_equal. rewrite lookup_app_r by lia. replace (Nat.pred cap - length es)%nat with 0%nat by lia. done.
    + rewrite Ht, Hlen. lia.
    + rewrite Hlen. split; [lia|done].
    + intros c Hne. rewrite lookup_insert_ne by done. rewrite Ht, count_code_lookup, with_code_snoc, Hc by done. done.
  - rewrite bool_decide_true by lia. eexists. split; [done|]. split; cbn [_errorCount _errors _exceeded _byCode].
    + rewrite Ht, lookup_ge_None_2 by lia. cbn. by rewrite app_nil_r.
    + rewrite Ht, Hlen. lia.
    + rewrite Hlen, Hx0. split; [done|lia].
    + intros c Hne. rewrite Ht, count_code_lookup, with_code_snoc, Hc by done. done.
Qed.

Lemma add_loop_collected b : ∀ es st,
  collected es st → (length es < cap)%nat → Forall (λ e, e_code e ∈ ERROR_CODES) b →
  collected (es ++ b) (add_loop b st).1.
Proof.
  induction b as [|e b IH]; intros es st Hc Hl Hb; [by rewrite app_nil_r|].
  inversion Hb; subst. destruct (add_error_collected es e st) as (st' & Ha & Hc'); [done..|].
  cbn [add_loop]. rewrite Ha, (cons_middle e), app_assoc.
  assert (length (es ++ [e]) = S (length es)) as Hlen by (rewrite length_app; cbn; lia).
  case_bool_decide as Hlt; [apply IH; [done|lia|done]|].
  apply collected_full; [done|lia].
Qed.

Lemma addErrors_collected es b st :
  collected es st → Forall (λ e, e_code e ∈ ERROR_CODES) b → collected (es ++ b) (addErrors b st).1.
Proof.
  intros Hc Hb. unfold addErrors. pose proof (c_exceeded _ _ Hc) as Hx. destruct (_exceeded st).
  - apply collected_full; [done|by apply Hx].
  - apply add_loop_collected; [done| |done]. apply Nat.nle_gt. intros ?%Hx. done.
Qed.

Definition add_all (bs : list (list RowError)) (st : Collector) : Collector := foldl (λ st b, (addErrors b st).1) st bs.

(** Reports of errors of the known codes, in any number of calls: the collector has
    the first ten thousand errors in their order, followed by one marker once there are
    that many, its count is theirs, it has stopped exactly then, and what it counts for
    a code is the number of kept errors with it. *)
Theorem errors_collected (bs : list (list RowError)) :
  Forall (Forall (λ e, e_code e ∈ ERROR_CODES)) bs → collected (mjoin bs) (add_all bs collector_init).
Proof.
  intros Hbs. unfold add_all. change (mjoin bs) with ([] ++ mjoin bs).
  assert (collected [] collector_init) as H0.
  { pose proof cap_pos. unfold collector_init.
    split; cbn [_errors _errorCount _exceeded _byCode length]; rewrite ?take_nil; try done; split; [done|lia]. }
  revert H0. generalize (@nil RowError) as es, collector_init as st.
  induction Hbs as [|b bs Hb Hbs IH]; intros es st Hc; [by rewrite app_nil_r|].
  cbn [foldl]. change (mjoin (b :: bs)) with (b ++ mjoin bs). rewrite app_assoc. apply IH. by apply addErrors_collected.
Qed.

End Errors.

(** ** Columns and their mapping *)

Module Columns.

Lemma lower_lower c : lower (lower c) = lower c.
Proof. destruct c as [[] [] [] [] [] [] [] []]; reflexivity. Qed.

Lemma toLowerCase_idem s : toLowerCase (toLowerCase s) = toLowerCase s.
Proof.
  unfold toLowerCase, string_map. rewrite String.list_ascii_of_string_of_list_ascii, map_map. f_equal.
  apply map_ext, lower_lower.
Qed.

(** The column a name stands for: the first whose name is the same but for case. *)
Definition column_of (header : list string) (name : string) : option nat :=
  fst <$> list_find (λ h, toLowerCase h = toLowerCase name) header.

Lemma lower_inj header i j h h' :
  NoDup (toLowerCase <$> header) → header !! i = Some h → header !! j = Some h' →
  toLowerCase h = toLowerCase h' → i = j.
Proof.
  intros Hnd Hi Hj He. apply (NoDup_lookup _ i j (toLowerCase h) Hnd); rewrite list_lookup_fmap.
  - by rewrite Hi.
  - by rewrite Hj, He.
Qed.

Lemma source_index_snoc header h :
  source_index (header ++ [h]) = <[toLowerCase h := length header]> (<[h := length header]> (source_index header)).
Proof. unfold source_index. rewrite imap_app, foldl_app. cbn. by rewrite Nat.add_0_r. Qed.

Lemma source_index_lookup header name i :
  NoDup (toLowerCase <$> header) →
  (source_index header !! name = Some i ↔ ∃ h, header !! i = Some h ∧ (h = name ∨ toLowerCase h = name)).
Proof.
  induction header as [|h header IH] using rev_ind; intros Hnd.
  - change (source_index []) with (∅ : gmap string nat). rewrite lookup_empty. split; [done|]. by intros (h & ? & _).
  - rewrite source_index_snoc. pose proof Hnd as Hnd'. rewrite fmap_app in Hnd'. apply NoDup_app in Hnd' as (Hnd1 & _ & _).
    assert (∀ i h', (header ++ [h]) !! i = Some h' → toLowerCase h' = toLowerCase h → i = length header) as Huniq.
    { intros i' h' Hi He. apply (lower_inj (header ++ [h]) i' (length header) h' h Hnd Hi); [by rewrite list_lookup_middle|done]. }
    destruct (decide (h = name ∨ toLowerCase h = name)) as [Hn|Hn].
    + assert (<[toLowerCase h := length header]> (<[h := length header]> (source_index header)) !! name = Some (length header)) as ->.
      { destruct Hn as [->|<-]; [|by rewrite lookup_insert_eq].
        destruct (decide (toLowerCase name = name)) as [->|]; [by rewrite lookup_insert_eq|].
        by rewrite lookup_insert_ne, lookup_insert_eq. }
      split.
      * intros [= <-]. exists h. split; [by rewrite list_lookup_middle|done].
      * intros (h' & Hi & Hn'). f_equal. symmetry. apply (Huniq i h' Hi).
        destruct Hn as [->|<-], Hn' as [->|<-]; rewrite ?toLowerCase_idem; auto.
    + rewrite !lookup_insert_ne, IH by (done || intuition). split; intros (h' & Hi & Hn').
      * exists h'. split; [by apply lookup_app_l_Some|done].
      * exists h'. split; [|done]. apply lookup_app_Some in Hi as [Hi|[_ Hi]]; [done|].
        apply list_lookup_singleton_Some in Hi as [_ ->]. done.
Qed.

Lemma find_source_column header name :
  NoDup (toLowerCase <$> header) → find_source (source_index header) name = column_of header name.
Proof.
  intros Hnd. unfold column_of.
  assert (∀ i, find_source (source_index header) name = Some i ↔
               ∃ h, header !! i = Some h ∧ toLowerCase h = toLowerCase name) as Hs.
  { intros i. unfold find_source. destruct (source_index header !! name) as [j|] eqn:Ej.
    - apply source_index_lookup in Ej as (h & Hj & Hn); [|done].
      assert (toLowerCase h = toLowerCase name) as Hl by (destruct Hn as [->| <-]; [done|by rewrite toLowerCase_idem]).
      split; [intros [= <-]; by exists h|]. intros (h' & Hi & Hl'). f_equal. eapply lower_inj; [done..|]. congruence.
    - rewrite source_index_lookup by done. split; intros (h & Hi & Hl); exists h; (split; [done|]).
      + destruct Hl as [->|Hl]; [by rewrite toLowerCase_idem|done].
      + by right. }
  destruct (list_find _ header) as [[i h]|] eqn:Ef; cbn.
  - apply list_find_Some in Ef as (Hi & Hl & _). apply Hs. by exists h.
  - destruct (find_source _ name) as [i|] eqn:Es; [|done]. destruct (proj1 (Hs i) eq_refl) as (h & Hi & Hl).
    apply list_find_None in Ef. rewrite Forall_forall in Ef. exfalso. apply (Ef h); [by apply list_elem_of_lookup_2 in Hi|done].
Qed.

(** The text a row of the mapping reads. *)
Definition cell (header record : list string) (row : MappingRow) : option string :=
  (λ i, default EmptyString (record !! i)) <$> column_of header (source row).

Definition raw_step (index : gmap string nat) (record : list string) (m : Fields) (row : MappingRow) : Fields :=
  match find_source index (source row) with
  | None => m
  | Some i => <[target row := default EmptyString (record !! i)]> m
  end.

Lemma raw_other index record rs t : ∀ m, t ∉ target <$> rs → foldl (raw_step index record) m rs !! t = m !! t.
Proof.
  induction rs as [|r rs IH]; intros m Ht; [done|]. cbn in *. rewrite IH by set_solver.
  unfold raw_step. destruct (find_source _ _); [|done]. rewrite lookup_insert_ne by set_solver. done.
Qed.

Lemma raw_by_target_lookup header record rs row :
  NoDup (toLowerCase <$> header) → NoDup (target <$> rs) → row ∈ rs →
  raw_by_target (source_index header) record rs !! target row = cell header record row.
Proof.
  intros Hh. unfold cell. rewrite <- (find_source_column header) by done.
  change (raw_by_target (source_index header) record rs) with (foldl (raw_step (source_index header) record) ∅ rs).
  generalize (lookup_empty (A := string) (target row) : (∅ : Fields) !! target row = None).
  generalize (∅ : Fields) as m. induction rs as [|r rs IH]; intros m Hm Hnd Hin; [by apply not_elem_of_nil in Hin|].
  cbn in *. apply NoDup_cons in Hnd as [Hr Hnd]. apply elem_of_cons in Hin as [->|Hin].
  - rewrite raw_other by done. unfold raw_step. destruct (find_source _ _); cbn; [by rewrite lookup_insert_eq|exact Hm].
  - apply IH; [|done..]. unfold raw_step. destruct (find_source _ (source r)); [|exact Hm].
    rewrite lookup_insert_ne; [exact Hm|]. intros He. apply Hr. rewrite He. by apply list_elem_of_fmap_2.
Qed.

Lemma map_fields_err (value : MappingRow → result string string) rs e :
  foldl (λ acc row, m ← acc; v ← value row; Ok (<[target row := v]> m)) (Err e) rs = @Err string Fields e.
Proof. by induction rs. Qed.

Lemma map_fields_from (value : MappingRow → result string string) rs : ∀ m m' : Fields,
  NoDup (target <$> rs) →
  foldl (λ acc row, m ← acc; v ← value row; Ok (<[target row := v]> m)) (Ok m) rs = Ok m' →
  (∀ row, row ∈ rs → ∃ v, value row = Ok v ∧ m' !! target row = Some v) ∧
  (∀ t, t ∉ target <$> rs → m' !! t = m !! t).
Proof.
  induction rs as [|r rs IH]; intros m m' Hnd H.
  - injection H as ->. split; [|done]. by intros row ?%not_elem_of_nil.
  - cbn in Hnd. apply NoDup_cons in Hnd as [Hr Hnd]. cbn [foldl] in H.
    change (mbind (λ m, v ← value r; Ok (<[target r := v]> m)) (Ok m)) with (v ← value r; Ok (<[target r := v]> m)) in H.
    destruct (value r) as [v|e] eqn:Ev; [|cbn [mbind result_bind] in H; by rewrite map_fields_err in H].
    destruct (IH _ _ Hnd H) as [Hin Hout]. split.
    + intros row [->|Hrow]%elem_of_cons; [|by apply Hin]. exists v. split; [done|].
      by rewrite Hout, lookup_insert_eq.
    + intros t Ht. cbn in Ht. rewrite Hout by set_solver. rewrite lookup_insert_ne by set_solver. done.
Qed.

Section mapping.
Variable to_double : Z → Z.
Variable print_double : Z → string.
Variable reprint_float : string → option string.
Variable date_parse : string → string → result string (option Z).

#[local] Abbreviation applyMapping := (applyMapping to_double print_double reprint_float date_parse).
#[local] Abbreviation applyTransforms := (applyTransforms to_double print_double reprint_float date_parse).

(** A mapping whose targets are distinct, of a header whose names differ by more
    than their case: every target of the mapping and no other field is set, to the text
    of the first column with the row's source name but for case (nothing when there is
    no such column or the record is short), passed through the row's transforms; a
    [concat:] reads other fields as they were before any transform. *)
Theorem mapping_reads_columns record header mapping m :
  NoDup (target <$> rows mapping) → NoDup (toLowerCase <$> header) →
  applyMapping record header mapping = Ok m →
  dom m = list_to_set (target <$> rows mapping) ∧
  ∃ raw : Fields,
    (∀ row, row ∈ rows mapping → raw !! target row = cell header record row) ∧
    ∀ row, row ∈ rows mapping → ∃ v, m !! target row = Some v ∧
      applyTransforms (default EmptyString (cell header record row)) (transform row) raw = Ok v.
Proof.
  intros Hnd Hh Hm. unfold ImportMapping.applyMapping, map_fields in Hm.
  destruct (map_fields_from _ _ _ _ Hnd Hm) as [Hin Hout]. split.
  - apply set_eq. intros t. rewrite elem_of_dom, elem_of_list_to_set. split.
    + intros [v Hv]. destruct (decide (t ∈ target <$> rows mapping)) as [|Ht]; [done|].
      rewrite (Hout t Ht) in Hv. done.
    + intros (row & -> & Hrow)%list_elem_of_fmap. destruct (Hin row Hrow) as (v & _ & ->). by eexists.
  - eexists. split; [intros row Hrow; by apply raw_by_target_lookup|].
    intros row Hrow. destruct (Hin row Hrow) as (v & Hv & Hl). exists v. split; [done|].
    rewrite <- Hv. unfold field. by rewrite raw_by_target_lookup.
Qed.

(** *** The two copies *)

Lemma source_indexes_agree header : api_source_index header = source_index header.
Proof.
  unfold api_source_index, source_index. generalize (imap (λ i h, (i, h)) header) as l.
  generalize (∅ : gmap string nat) as m. intros m l. revert m.
  induction l as [|[i h] l IH]; intros m; [done|]. cbn [foldl fst snd]. rewrite IH. f_equal.
  destruct (decide (toLowerCase h = h)) as [Hl|]; [by rewrite Hl|]. by apply insert_insert_ne.
Qed.

Lemma list_ascii_app s t :
  String.list_ascii_of_string (s +:+ t) = (String.list_ascii_of_string s ++ String.list_ascii_of_string t)%list.
Proof. induction s as [|c s IH]; [done|]. rewrite string_app_cons. cbn. by rewrite IH. Qed.

(** No comma after the first colon. *)
Definition colon_last (t : string) : Prop := ∃ a b, t = a +:+ b ∧ lacks ":" a = true ∧ lacks comma b = true.

Lemma api_split_before a : ∀ parts cur, lacks ":" a = true →
  foldl api_split_step (parts, cur, false) (String.list_ascii_of_string a) =
    (foldl split_step (parts, cur) (String.list_ascii_of_string a), false).
Proof.
  induction a as [|c a IH]; intros parts cur; [done|]. rewrite lacks_cons, andb_true_iff.
  intros [Hc Ha]. cbn [String.list_ascii_of_string foldl]. rewrite Ascii.eqb_sym in Hc.
  unfold api_split_step at 2, split_step at 2. apply negb_true_iff in Hc. rewrite Hc, andb_true_r.
  destruct (Ascii.eqb c comma); by apply IH.
Qed.

Lemma split_after b : ∀ parts cur nested, lacks comma b = true →
  (foldl api_split_step (parts, cur, nested) (String.list_ascii_of_string b)).1 = (parts, cur +:+ b) ∧
  foldl split_step (parts, cur) (String.list_ascii_of_string b) = (parts, cur +:+ b).
Proof.
  induction b as [|c b IH]; intros parts cur nested; [by autorewrite with strs|]. rewrite lacks_cons, andb_true_iff.
  intros [Hc Hb]. cbn [String.list_ascii_of_string foldl]. rewrite Ascii.eqb_sym in Hc.
  unfold api_split_step at 2, split_step at 2. apply negb_true_iff in Hc. rewrite Hc. cbn [andb].
  destruct (IH parts (cur +:+ char c) (nested || Ascii.eqb c ":") Hb) as [-> ->].
  unfold char. by autorewrite with strs.
Qed.

Lemma splits_agree t : colon_last t → api_splitTransforms t = splitTransforms t.
Proof.
  intros (a & b & -> & Ha & Hb). unfold api_splitTransforms, splitTransforms.
  rewrite list_ascii_app, !foldl_app, api_split_before by done.
  destruct (foldl split_step ([], EmptyString) (String.list_ascii_of_string a)) as [parts cur].
  destruct (split_after b parts cur false Hb) as [Hapi ->].
  destruct (foldl api_split_step _ _) as [st nested]. cbn in Hapi. by rewrite Hapi.
Qed.

Lemma map_fields_ext (f g : MappingRow → result string string) rs :
  (∀ row, row ∈ rs → f row = g row) → map_fields f rs = map_fields g rs.
Proof.
  unfold map_fields. generalize (Ok ∅ : result string Fields) as acc. induction rs as [|r rs IH]; intros acc H; [done|].
  cbn. rewrite (H r) by apply list_elem_of_here. apply IH. intros row Hrow. apply H. by apply list_elem_of_further.
Qed.

(** The preview of a mapping is what the import does: on mappings none of whose
    transforms has a comma after its first colon, the two copies of [applyMapping]
    agree on every record and header, errors included. *)
Theorem preview_agrees record header mapping :
  (∀ row t, row ∈ rows mapping → transform row = Some t → colon_last t) →
  api_applyMapping to_double print_double reprint_float date_parse record header mapping =
    applyMapping record header mapping.
Proof.
  intros Ht. unfold api_applyMapping, ImportMapping.applyMapping. rewrite source_indexes_agree.
  apply map_fields_ext. intros row Hrow. unfold api_applyTransforms, ImportMapping.applyTransforms, transform_value.
  destruct (transform row) as [[|c t]|] eqn:E; [done| |done]. by rewrite (splits_agree _ (Ht _ _ Hrow E)).
Qed.

End mapping.
End Columns.

(** ** Where the code falls short *)

(** The statement of [db-writer.ts] has one place more than it has columns, so that no
    batch is ever inserted. *)
Lemma insert_never_runs execute done progress o nowStr st b :
  batch_rows b ≠ [] → from_option (λ r, batchIndex b <? r) false (resumeFromBatch o) = false →
  db_write execute done progress o nowStr st b = (st, Err "Column count doesn't match value count at row 1"%string).
Proof.
  intros Hb Hr. unfold db_write. rewrite Hr, bool_decide_false by (by destruct (batch_rows b)). done.
Qed.

(** A column called "Alt Phone" is taken for the number to call, one called
    [phone_number] is not found. *)
Lemma alt_phone_is_main :
  autoDetectColumn "Alt Phone" = Some (mkDetect "phone_e164" 9) ∧ autoDetectColumn "phone_number" = None.
Proof. split; reflexivity. Qed.

(** ISO 8859-1 is read as UTF-8, although a later test gives it to the decoder. *)
Lemma latin1_read_as_utf8 chardet rest :
  chardet (74 :: rest) = Some "ISO-8859-1"%string → detectEncoding chardet (74 :: rest) = Ok utf_8.
Proof. intros Hc. unfold detectEncoding. by rewrite Hc. Qed.

(** A transform after a [map:] is applied by the import and swallowed by the preview. *)
Lemma preview_swallows :
  splitTransforms "map:M=male,trim" = ["map:M=male"; "trim"]%string ∧
  api_splitTransforms "map:M=male,trim" = ["map:M=male,trim"]%string.
Proof. split; reflexivity. Qed.

(** A date that is none passes when it has the shape of one. *)
Lemma any_iso_shape_accepted date_parse :
  read_dob date_parse {["date_of_birth" := "2024-99-99"]}%string = Ok (Some "2024-99-99"%string, []).
Proof. reflexivity. Qed.

Lemma flush_errors_some tenantId importId persist headers st :
  _errors st ≠ [] →
  flush_errors tenantId importId persist headers st =
    Some (mkFlushed (CSV_HEADERS ++ headers) (csv_row <$> _errors st)
            (if persist then error_row tenantId importId <$> take Errors.cap (_errors st) else [])).
Proof. unfold flush_errors. by destruct (_errors st). Qed.

(** The marker at the cap is in the file of errors but never in the table. *)
Lemma marker_not_persisted es st tenantId importId headers f :
  Errors.collected es st → (Errors.cap <= length es)%nat →
  flush_errors tenantId importId true headers st = Some f →
  length (csv_rows f) = S Errors.cap ∧ inserted f = error_row tenantId importId <$> take Errors.cap es.
Proof.
  intros [He _ _ _] Hl. pose proof Errors.cap_pos as Hpos.
  destruct (es !! Nat.pred Errors.cap) as [e|] eqn:Ee; [|apply lookup_ge_None in Ee; lia].
  change (option_list _) with [Errors.cap_marker e] in He.
  rewrite flush_errors_some by (rewrite He; by intros [_ ?]%app_nil).
  intros [= <-]. rewrite He. split.
  - cbn [csv_rows]. rewrite length_fmap, length_app, length_take_le by done. cbn. lia.
  - cbn [inserted]. rewrite take_app_length'; [done|]. by rewrite length_take_le.
Qed.

(** ** Concrete imports *)

#[local] Existing Instance exact_filter.

Definition parse_us (raw country : string) : PhoneParse :=
  if (String.length raw =? 12)%nat then found_phone true raw else no_phone.

Definition no_date (text format : string) : result string (option Z) := Ok None.

Definition us_options : NormalizeOptions := mkNormalizeOptions None None.

Definition file_row (line : Z) (phone state : string) : MappedRow :=
  mkMapped {["phone_e164" := phone; "state" := state; "custom.color" := "red"]}%string [phone; state] (mkInfo line line).

Definition listed_key (source : DncSource) (p : string) : DncKey := mkKey 0 p source "__" GLOBAL.

Definition import_registry (source : DncSource) : Registry (gset string) :=
  mkRegistry {[listed_key source "+13105550100" := mkEntry None None None]}
    {[bloomKey source (Some 7) := {["+13105550100"%string]}]} ∅.

Definition skip_options : ScrubOptions := mkScrubOptions 7 policy_skip policy_mark.
Definition all_up : ScrubFaults := mkScrubFaults no_faults false false.

Definition listed_row : ValidRow :=
  mkValid (build_lead id parse_us us_options ∅ "+13105550100" None None) [] (mkInfo 5 5).

(** The scrub of one row with the listed number. *)
Definition scrub_listed (source : DncSource) : list (Event RowError ValidRow) :=
  run_stage (scrub_stage take skip_options all_up 0 (import_registry source) []) [] [listed_row].

(** Leads on the litigators' list alone go through, although the check before a call
    refuses them. *)
Lemma litigators_imported :
  length (pushed (scrub_listed litigator)) = 1%nat ∧ pushed (scrub_listed federal) = [] ∧
  isDnc (dncCheck Some (take 4) no_faults 0 (Dnc.mkRequest "+13105550100" 7 None None SOURCES) (import_registry litigator)) = true.
Proof. vm_compute. auto. Qed.

(** ** Witnesses *)

Lemma take_elem {A} n (l : list A) k : k ∈ take n l → k ∈ l.
Proof. intros Hk. rewrite <- (take_drop n l). apply elem_of_app. by left. Qed.

Lemma take_elem_all {A} n (l : list A) k : (length l ≤ n)%nat → k ∈ l → k ∈ take n l.
Proof. intros Hl. by rewrite take_ge. Qed.

Lemma import_registry_bounded source : Scrub.rows_bounded 0 (import_registry source) 7.
Proof.
  intros p. unfold import_rows. rewrite length_fmap, length_map_to_list.
  etrans; [apply map_subseteq_size, map_filter_subseteq|]. cbn [Dnc.rows import_registry].
  rewrite map_size_singleton. lia.
Qed.

Lemma import_registry_cover source : Scrub.filters_cover skip_options 0 (import_registry source).
Proof.
  intros p k (<- & _ & e & Hk & _) _. cbn [Dnc.rows import_registry] in Hk.
  apply lookup_singleton_Some in Hk as [<- _]. unfold bf_query. cbn [filters import_registry listed_key k_source k_phone so_tenantId skip_options].
  rewrite lookup_singleton_eq. cbn. apply bool_decide_eq_true. set_solver.
Qed.

Lemma scrub_blocks_listed_witness :
  dncPolicy skip_options = policy_skip ∧
  Scrub.decided skip_options 0 (import_registry federal) [listed_row]
    (run_stage (scrub_stage take skip_options all_up 0 (import_registry federal) []) [] [listed_row]).
Proof.
  split; [done|]. apply (Scrub.scrub_blocks_listed take skip_options all_up 0 (import_registry federal) [] [listed_row]).
  - intros n l k. apply take_elem.
  - intros n l k. apply take_elem_all.
  - done.
  - apply import_registry_cover.
  - apply import_registry_bounded.
Defined.

Lemma normalized_row_ok_witness :
  ∃ r, normalize_row id parse_us no_date us_options (file_row 2 "+12125550100" "ny") = Ok r ∧
    ∀ l, n_lead r = Some l → Normalized.lead_ok parse_us us_options (m_mapped (file_row 2 "+12125550100" "ny")) l.
Proof.
  eexists. split; [reflexivity|].
  apply (Normalized.normalized_row_ok id parse_us no_date us_options (file_row 2 "+12125550100" "ny")). reflexivity.
Defined.

Definition phone_error : RowError := mkRowError "INVALID_PHONE" "E.164 parse failed" (mkInfo 4 4) ["12"%string].

Lemma errors_collected_witness :
  Errors.collected (mjoin [[phone_error]; []; [phone_error]]) (Errors.add_all [[phone_error]; []; [phone_error]] collector_init).
Proof.
  apply Errors.errors_collected. assert (e_code phone_error ∈ ERROR_CODES) by repeat constructor.
  by repeat constructor.
Defined.

Definition two_columns : ColumnMapping :=
  mkColumnMapping [row_of "Phone" "phone_e164" "phone"; row_of "GENDER" "gender" "trim,map:m=M;f=F"].

Lemma mapping_reads_columns_witness :
  ∃ m, applyMapping id zs Some no_date ["+1 212"; " m "]%string ["phone"; "Gender"]%string two_columns = Ok m ∧
    dom m = list_to_set (target <$> rows two_columns) ∧
    ∃ raw : Fields,
      (∀ row, row ∈ rows two_columns → raw !! target row = Columns.cell ["phone"; "Gender"]%string ["+1 212"; " m "]%string row) ∧
      ∀ row, row ∈ rows two_columns → ∃ v, m !! target row = Some v ∧
        applyTransforms id zs Some no_date
          (default EmptyString (Columns.cell ["phone"; "Gender"]%string ["+1 212"; " m "]%string row)) (transform row) raw = Ok v.
Proof.
  eexists. split; [reflexivity|]. apply Columns.mapping_reads_columns.
  - apply (bool_decide_unpack _). vm_compute. exact I.
  - apply (bool_decide_unpack _). vm_compute. exact I.
  - reflexivity.
Defined.

Lemma preview_agrees_witness :
  api_applyMapping id zs Some no_date ["+1 212"; " m "]%string ["phone"; "Gender"]%string two_columns =
    applyMapping id zs Some no_date ["+1 212"; " m "]%string ["phone"; "Gender"]%string two_columns.
Proof.
  apply Columns.preview_agrees. intros row t [->|[->|[]%not_elem_of_nil]%elem_of_cons]%elem_of_cons [= <-].
  - exists "phone"%string, EmptyString. repeat split.
  - exists "trim,"%string, "map:m=M;f=F"%string. repeat split.
Defined.
