(* ===== verification/ImportApi.v ===== *)
(** The import routes ([api/src/import]) and the job that a created import queues
    ([workers/src/jobs/lead-import/worker.ts], whose processor is a stub): uploads and
    their paths, the table of imports, its pages, the stream of events, the preview of a
    mapping; and what holds of every run of them.

    The CSV parser and the schemas of request bodies are parameters or arguments; import
    identifiers are arguments, and a run takes fresh ones.  Instants are microseconds,
    the database's precision. *)

From S2P Require Import Prelude Calendar Jcs Tcpa Rbac Sessions Auth Dnc ImportMapping ImportPipeline.

#[local] Open Scope Z_scope.

(** ** Paths *)

Definition safe_char (c : ascii) : bool :=
  let n := nat_of_ascii c in
  is_digit c || ((65 <=? n)%nat && (n <=? 90)%nat) || ((97 <=? n)%nat && (n <=? 122)%nat) ||
  (n =? 46)%nat || (n =? 95)%nat || (n =? 45)%nat.

(** [filename.replace(/[^a-zA-Z0-9._-]/g, "_").slice(0, 128)]. *)
Definition safeFilename (filename : string) : string :=
  cut 128 (string_map (λ c, if safe_char c then c else "_"%char) filename).

(** [join(UPLOAD_DIR, ...)] of a normal directory name. *)
Definition localPath (dir importId filename : string) : string :=
  dir +:+ "/" +:+ importId +:+ "_" +:+ safeFilename filename.

(** The bucket, when [USE_S3] is set. *)
Definition sourceKey (dir : string) (bucket : option string) (importId filename : string) : string :=
  match bucket with
  | Some b => "s3://" +:+ b +:+ "/imports/" +:+ importId +:+ "/" +:+ safeFilename filename
  | None => localPath dir importId filename
  end.

(** What a text has before and after its last [c]. *)
Fixpoint split_last (c : ascii) (l : list ascii) : option (list ascii * list ascii) :=
  match l with
  | [] => None
  | d :: l' =>
      match split_last c l' with
      | Some (a, b) => Some (d :: a, b)
      | None => if Ascii.eqb c d then Some ([], l') else None
      end
  end.

Definition ERRORS_CSV : string := ".errors.csv".

(** [sourceKey.replace(/\.[^.]+$/, ".errors.csv")]. *)
Definition replace_extension (key : string) : string :=
  match split_last "." (String.list_ascii_of_string key) with
  | Some (a, _ :: _) => String.string_of_list_ascii a +:+ ERRORS_CSV
  | _ => key
  end.

(** [key.replace(/^s3:\/\/[^/]+\//, "")] after the scheme: the bucket has a character. *)
Fixpoint after_slash (l : list ascii) : option (list ascii) :=
  match l with [] => None | c :: l' => if Ascii.eqb c "/" then Some l' else after_slash l' end.

Definition strip_bucket (key : string) : string :=
  match String.list_ascii_of_string (slice_from 5 key) with
  | c :: l => if Ascii.eqb c "/" then key else from_option String.string_of_list_ascii key (after_slash l)
  | [] => key
  end.

(** [key.replace(/\.csv$/, ".errors.csv")]. *)
Definition replace_csv (key : string) : string :=
  let n := (String.length key - 4)%nat in
  if String.eqb (slice_from n key) ".csv" then cut n key +:+ ERRORS_CSV else key.

Definition errorsFilePath (key : string) : string :=
  if String.prefix "s3://" key then "/tmp/vici2-errors/" +:+ replace_csv (strip_bucket key)
  else replace_extension key.

(** ** Uploads *)

Inductive UploadError : Set := FILE_TOO_LARGE.

(** [uploadLocalStream]: the sizes of the chunks written, and how it ends. *)
Fixpoint upload_chunks (maxBytes bytesWritten : Z) (chunks : list Z) : list Z * result UploadError Z :=
  match chunks with
  | [] => ([], Ok bytesWritten)
  | c :: chunks' =>
      let n := bytesWritten + c in
      if maxBytes <? n then ([], Err FILE_TOO_LARGE)
      else let '(written, r) := upload_chunks maxBytes n chunks' in (c :: written, r)
  end.

Definition uploadLocalStream (maxBytes : Z) (chunks : list Z) : list Z * result UploadError Z :=
  upload_chunks maxBytes 0 chunks.

(** ** State *)

Inductive ImportStatus : Set := import_queued | import_running | import_done | import_failed | import_cancelled.

#[export] Instance ImportStatus_eq_dec : EqDecision ImportStatus.
Proof. solve_decision. Defined.

(** The part of the upload's [meta] the pipeline's options come from. *)
Record ImportMeta := mkMeta {
  mt_name : option string;
  mt_dnc_policy : ImportPolicy;
  mt_tz_policy : ImportPolicy;
  mt_default_country : string;
  mt_default_status : string;
}.

Record ImportRow := mkImport {
  i_id : string;
  i_tenantId : Z;
  i_listId : Z;
  i_ownerUserId : Z;
  i_status : ImportStatus;
  i_sourceKey : string;
  i_errorsKey : option string;
  i_fileBytes : Z;
  i_total : option Z;
  i_processed : Z;
  i_inserted : Z;
  i_skipped : Z;
  i_errored : Z;
  i_meta : ImportMeta;
  i_startedAt : option Z;
  i_completedAt : option Z;
  i_failedReason : option string;
  i_createdAt : Z;
}.

Record ImportJob := mkJob { j_importId : string; j_tenantId : Z; j_listId : Z; j_ownerUserId : Z }.

(** A list belongs to a tenant and may have a mapping saved. *)
Record ListRow := mkList { ls_tenantId : Z; ls_mapping : option Json }.

Record ImportState := mkState {
  lists : gmap Z ListRow;
  imports : list ImportRow;
  uploads : gset string;
  jobs : list ImportJob;
}.

Definition with_imports (f : list ImportRow → list ImportRow) (st : ImportState) : ImportState :=
  mkState (lists st) (f (imports st)) (uploads st) (jobs st).

Definition find_import (id : string) (tenantId : Z) (st : ImportState) : option ImportRow :=
  List.find (λ r, String.eqb (i_id r) id && (i_tenantId r =? tenantId)) (imports st).

(** ** Responses *)

Record ImportItem := mkItem {
  it_id : string;
  it_status : ImportStatus;
  it_name : option string;
  it_counts : Z * Z * Z * Z;
  it_createdAt : Z;
  it_hasErrors : bool;
}.

Record PreviewResult := mkPreview {
  pv_headers : list string;
  pv_rows : list (list string);
  pv_auto : gmap string AutoDetectResult;
  pv_mapped : list Fields;
}.

Inductive SseEvent : Set := sse_progress | sse_heartbeat | sse_done | sse_failed | sse_cancelled.

Inductive ImportResponse :=
  | Refused (status : Z) (error : string)
  | Accepted (importId : string)
  | ImportPage (items : list ImportItem) (next_cursor : option string) (has_more : bool)
  | ImportShown (row : ImportRow)
  | ErrorsFile (path : string)
  | EventStream (events : list SseEvent) (ended : bool)
  | Previewed (p : PreviewResult).

(** The guards of every route. *)
Definition import_guard (auth : option ApiAuth) (k : ApiAuth → ImportResponse * ImportState) (st : ImportState)
    : ImportResponse * ImportState :=
  match requirePermission lead_import None auth, auth with
  | Some e, _ => (Refused (statusCode e) (code e), st)
  | None, Some a => k a
  | None, None => (Refused 401 "not_authenticated", st)
  end.

(** ** Creating an import *)

(** The [meta] field as it comes: no JSON, JSON the schema refuses, or its values. *)
Inductive MetaPart := meta_bad_json | meta_invalid | meta_ok (m : ImportMeta).

Inductive Part :=
  | FilePart (fieldname : string) (filename : option string) (chunks : list Z)
  | FieldPart (fieldname : string) (value : MetaPart).

(** What the loop over the parts has: the file's name and stream, and the [meta]. *)
Record Parts := mkParts { pt_file : option (list Z); pt_filename : string; pt_meta : option MetaPart }.

Fixpoint read_parts (ps : list Part) (acc : Parts) : result unit Parts :=
  match ps with
  | [] => Ok acc
  | FilePart field filename chunks :: ps' =>
      read_parts ps' (if String.eqb field "file"
                      then mkParts (Some chunks) (default "upload.csv"%string filename) (pt_meta acc) else acc)
  | FieldPart field value :: ps' =>
      if String.eqb field "meta" then
        match value with
        | meta_bad_json => Err tt
        | _ => read_parts ps' (mkParts (pt_file acc) (pt_filename acc) (Some value))
        end
      else read_parts ps' acc
  end.

(** The schema's values for an upload without [meta]. *)
Definition default_meta : ImportMeta := mkMeta None policy_skip policy_mark "US" "NEW".

Definition unsafe_filename (filename : string) : bool :=
  negb (lacks "/" filename) || negb (lacks "\" filename) || includes ".." filename.

Definition extension (filename : string) : string :=
  default EmptyString (last (split_on "." (toLowerCase filename))).

Definition EXTENSIONS : list string := ["csv"; "tsv"; "txt"]%string.

Record CreateConfig := mkConfig { upload_dir : string; s3_bucket : option string; maxUploadBytes : Z }.

(** A file the upload opens is on disk, whatever comes of it; the queue may be down. *)
Definition post_import (cfg : CreateConfig) (queue_down : bool) (now : Z) (importId : string) (auth : option ApiAuth)
    (listId : Z) (parts : list Part) (st : ImportState) : ImportResponse * ImportState :=
  import_guard auth (λ a,
    if negb (from_option (λ l, ls_tenantId l =? a_tenantId a) false (lists st !! listId))
    then (Refused 404 "LIST_NOT_FOUND", st)
    else
      match read_parts parts (mkParts None "upload.csv" None) with
      | Err _ => (Refused 400 "INVALID_META", st)
      | Ok p =>
          match pt_file p with
          | None => (Refused 400 "MISSING_FILE", st)
          | Some chunks =>
              match default (meta_ok default_meta) (pt_meta p) with
              | meta_ok meta =>
                  if unsafe_filename (pt_filename p) then (Refused 400 "INVALID_FILENAME", st)
                  else if negb (bool_decide (extension (pt_filename p) ∈ EXTENSIONS))
                  then (Refused 400 "UNSUPPORTED_FORMAT", st)
                  else
                    let key := sourceKey (upload_dir cfg) (s3_bucket cfg) importId (pt_filename p) in
                    let st1 := mkState (lists st) (imports st) ({[ key ]} ∪ uploads st) (jobs st) in
                    match (uploadLocalStream (maxUploadBytes cfg) chunks).2 with
                    | Err FILE_TOO_LARGE => (Refused 413 "FILE_TOO_LARGE", st1)
                    | Ok fileBytes =>
                        let row := mkImport importId (a_tenantId a) listId (a_uid a) import_queued key None fileBytes
                                     None 0 0 0 0 meta None None None now in
                        let st2 := with_imports (λ l, l ++ [row]) st1 in
                        if queue_down then (Refused 500 "Internal Server Error", st2)
                        else (Accepted importId,
                              mkState (lists st2) (imports st2) (uploads st2)
                                (jobs st2 ++ [mkJob importId (a_tenantId a) listId (a_uid a)]))
                    end
              | _ => (Refused 400 "INVALID_META", st)
              end
          end
      end) st.

(** ** Reading imports *)

Record ListQuery := mkQuery { q_cursor : option string; q_limit : nat; q_listId : option Z; q_status : option ImportStatus }.

Definition item_of (r : ImportRow) : ImportItem :=
  mkItem (i_id r) (i_status r) (mt_name (i_meta r)) (i_processed r, i_inserted r, i_skipped r, i_errored r)
    (i_createdAt r) (from_option (λ k, negb (String.eqb k EmptyString)) false (i_errorsKey r)).

(** The conditions of the query; a cursor nothing has compares with [NULL]. *)
Definition import_selected (tenantId : Z) (q : ListQuery) (all : list ImportRow) (r : ImportRow) : bool :=
  (i_tenantId r =? tenantId) &&
  match q_cursor q ≫= truthy with
  | None => true
  | Some c =>
      match List.find (λ r', String.eqb (i_id r') c) all with
      | Some r' => i_createdAt r <? i_createdAt r'
      | None => false
      end
  end &&
  from_option (λ l, i_listId r =? l) true (q_listId q) &&
  from_option (λ s, bool_decide (i_status r = s)) true (q_status q).

(** [ORDER BY created_at DESC]. *)
Definition newest_first (l : list ImportRow) : list ImportRow := sort_by (λ a b, i_createdAt b <=? i_createdAt a) l.

Definition query_imports (tenantId : Z) (q : ListQuery) (all : list ImportRow) : list ImportRow :=
  take (S (q_limit q)) (newest_first (List.filter (import_selected tenantId q all) all)).

(** A page: its items and the cursor of the next. *)
Definition import_page (tenantId : Z) (q : ListQuery) (all : list ImportRow) : list ImportRow * option string * bool :=
  let rows := query_imports tenantId q all in
  let hasMore := (q_limit q <? length rows)%nat in
  let items := take (q_limit q) rows in
  (items, if hasMore then i_id <$> last items else None, hasMore).

Definition list_imports (auth : option ApiAuth) (q : ListQuery) (st : ImportState) : ImportResponse * ImportState :=
  import_guard auth (λ a,
    if bool_decide (1 ≤ q_limit q ≤ 100)%nat then
      let '(items, next, more) := import_page (a_tenantId a) q (imports st) in
      (ImportPage (item_of <$> items) next more, st)
    else (Refused 400 "INVALID_QUERY", st)) st.

Definition get_import (auth : option ApiAuth) (id : string) (st : ImportState) : ImportResponse * ImportState :=
  import_guard auth (λ a,
    match find_import id (a_tenantId a) st with
    | Some r => (ImportShown r, st)
    | None => (Refused 404 "NOT_FOUND", st)
    end) st.

Definition get_errors_csv (auth : option ApiAuth) (id : string) (st : ImportState) : ImportResponse * ImportState :=
  import_guard auth (λ a,
    match find_import id (a_tenantId a) st with
    | None => (Refused 404 "NOT_FOUND", st)
    | Some r =>
        match i_errorsKey r ≫= truthy with
        | None => (Refused 404 "NO_ERRORS", st)
        | Some key =>
            if i_errored r =? 0 then (Refused 404 "NO_ERRORS", st)
            else
              let path := errorsFilePath key in
              if bool_decide (path ∈ uploads st) then (ErrorsFile path, st)
              else (Refused 404 "ERRORS_FILE_NOT_FOUND", st)
        end
    end) st.

Definition cancel_import (auth : option ApiAuth) (id : string) (st : ImportState) : ImportResponse * ImportState :=
  import_guard auth (λ _, (Refused 501 "NOT_IMPLEMENTED", st)) st.

(** The events sent at once; a finished import ends the stream. *)
Definition get_events (auth : option ApiAuth) (id : string) (st : ImportState) : ImportResponse * ImportState :=
  import_guard auth (λ a,
    match find_import id (a_tenantId a) st with
    | None => (Refused 404 "NOT_FOUND", st)
    | Some r =>
        (match i_status r with
         | import_done => EventStream [sse_done] true
         | import_failed => EventStream [sse_failed] true
         | import_cancelled => EventStream [sse_cancelled] true
         | _ => EventStream [sse_progress; sse_heartbeat] false
         end, st)
    end) st.

(** A poll of the open stream: the events it sends and whether it ends it. *)
Definition poll_events (tenantId : Z) (id : string) (st : ImportState) : list SseEvent * bool :=
  match find_import id tenantId st with
  | None => ([], false)
  | Some r =>
      match i_status r with
      | import_done => ([sse_done], true)
      | import_failed => ([sse_failed], true)
      | _ => ([], false)
      end
  end.

(** ** Previewing a mapping *)

Definition PREVIEW_ROW_LIMIT : nat := 100.

Inductive MappingInput :=
  | vicidial_default
  | inherit
  | mapping_object (m : Json)
  | no_mapping.

Record PreviewRequest := mkPreviewRequest {
  p_source_key : option string;
  p_mapping : MappingInput;
  p_delimiter : option string;
  p_header_row : option bool;
}.

Section preview.
Variable to_double : Z → Z.
Variable print_double : Z → string.
Variable reprint_float : string → option string.
Variable date_parse : string → string → result string (option Z).
(** The records the parser makes of the file at a path, none when it cannot be read. *)
Variable csv_records : string → string → list (list string).

(** The header, and the first hundred records after it. *)
Definition collect (hasHeader : bool) (records : list (list string)) : option (list string) * list (list string) :=
  if hasHeader then (head records, take PREVIEW_ROW_LIMIT (tail records)) else (None, take PREVIEW_ROW_LIMIT records).

(** The mapping to apply, if there is one, and what was detected. *)
Definition resolve_mapping (input : MappingInput) (saved : option Json) (headers : list string)
    : result string (option ColumnMapping * gmap string AutoDetectResult) :=
  match input with
  | vicidial_default => Ok (Some (mkColumnMapping api_VICIDIAL_DEFAULT_MAPPING), ∅)
  | inherit =>
      match saved with
      | Some j => m ← validateMapping j; Ok (Some m, ∅)
      | None => Ok (None, ∅)
      end
  | mapping_object j => m ← validateMapping j; Ok (Some m, ∅)
  | no_mapping => let '(rs, auto) := autoDetectMapping headers in Ok (Some (mkColumnMapping rs), auto)
  end.

Fixpoint map_all (f : list string → result string Fields) (l : list (list string)) : result string (list Fields) :=
  match l with
  | [] => Ok []
  | x :: l' => y ← f x; ys ← map_all f l'; Ok (y :: ys)
  end.

Definition preview_file (path : string) (req : PreviewRequest) (saved : option Json) : result string PreviewResult :=
  let delimiter := match p_delimiter req ≫= truthy with
                   | Some d => if String.eqb d "auto" then ","%string else d
                   | None => ","%string
                   end in
  let '(header, rawRows) := collect (default true (p_header_row req)) (csv_records path delimiter) in
  let headers := default [] header in
  '(mapping, auto) ← resolve_mapping (p_mapping req) saved headers;
  mapped ← match mapping with
           | Some m => map_all (λ r, api_applyMapping to_double print_double reprint_float date_parse r headers m) rawRows
           | None => Ok ((λ _, ∅) <$> rawRows)
           end;
  Ok (mkPreview headers rawRows auto mapped).

(** A mapping that is none, or a format the date library refuses, is an internal error. *)
Definition post_preview (auth : option ApiAuth) (listId : Z) (req : PreviewRequest) (st : ImportState)
    : ImportResponse * ImportState :=
  import_guard auth (λ a,
    match lists st !! listId with
    | None => (Refused 404 "LIST_NOT_FOUND", st)
    | Some l =>
        if negb (ls_tenantId l =? a_tenantId a) then (Refused 404 "LIST_NOT_FOUND", st)
        else
          match p_source_key req ≫= truthy with
          | None => (Refused 400 "MISSING_SOURCE_KEY", st)
          | Some key =>
              if String.prefix "s3://" key then (Refused 400 "S3_NOT_SUPPORTED", st)
              else match preview_file key req (ls_mapping l) with
                   | Ok p => (Previewed p, st)
                   | Err _ => (Refused 500 "Internal Server Error", st)
                   end
          end
    end) st.
End preview.

(** ** The job *)

Definition update_import (id : string) (f : ImportRow → ImportRow) : list ImportRow → list ImportRow :=
  map (λ r, if String.eqb (i_id r) id then f r else r).

Definition start_row (now : Z) (r : ImportRow) : ImportRow :=
  if bool_decide (i_status r = import_queued) then
    mkImport (i_id r) (i_tenantId r) (i_listId r) (i_ownerUserId r) import_running (i_sourceKey r) (i_errorsKey r)
      (i_fileBytes r) (i_total r) (i_processed r) (i_inserted r) (i_skipped r) (i_errored r) (i_meta r)
      (Some now) (i_completedAt r) (i_failedReason r) (i_createdAt r)
  else r.

Definition fail_row (reason : string) (r : ImportRow) : ImportRow :=
  mkImport (i_id r) (i_tenantId r) (i_listId r) (i_ownerUserId r) import_failed (i_sourceKey r) (i_errorsKey r)
    (i_fileBytes r) (i_total r) (i_processed r) (i_inserted r) (i_skipped r) (i_errored r) (i_meta r)
    (i_startedAt r) (i_completedAt r) (Some reason) (i_createdAt r).

(** The worker's [active] event. *)
Definition job_active (now : Z) (id : string) : ImportState → ImportState :=
  with_imports (update_import id (start_row now)).

Definition DEFAULT_ATTEMPTS : Z := 3.

(** The worker's [failed] event, with the error's message when it has one. *)
Definition job_failed (attemptsMade : Z) (attempts : option Z) (message : option string) (id : string)
    (st : ImportState) : ImportState :=
  let reason := from_option (cut 255) "unknown"%string message in
  if default DEFAULT_ATTEMPTS attempts <=? attemptsMade then with_imports (update_import id (fail_row reason)) st else st.

(** [processor]: the stub reports progress and returns; [completed] logs it. *)
Definition job_completed (st : ImportState) : ImportState := st.
