(* ===== verification/ImportApiTheorems.v ===== *)
(** What holds of the import routes and of the job: following the pages of the imports
    ends and shows each once, and, over every run, how an import lives and who sees it. *)

From stdpp Require Import sorting.
From S2P Require Import Prelude Paging Calendar Jcs Tcpa Rbac Sessions Auth Dnc ImportMapping ImportPipeline ImportApi.

#[local] Open Scope Z_scope.

(** ** Pages *)

Module Pages.

#[local] Abbreviation newer := (λ a b : ImportRow, i_createdAt b <? i_createdAt a).
#[local] Abbreviation not_older := (λ a b : ImportRow, i_createdAt b <=? i_createdAt a).

(** Distinct creation instants order the rows. *)
Definition distinct_times (l : list ImportRow) : Prop := NoDup (i_createdAt <$> l).

Lemma distinct_inj l a b : distinct_times l → a ∈ l → b ∈ l → i_createdAt a = i_createdAt b → a = b.
Proof.
  intros Hd [i Ha]%list_elem_of_lookup [j Hb]%list_elem_of_lookup He.
  assert (i = j) as ->; [|congruence]. apply (NoDup_lookup _ i j (i_createdAt a) Hd); rewrite list_lookup_fmap.
  - by rewrite Ha.
  - by rewrite Hb, He.
Qed.

Lemma not_older_total a b : not_older a b = true ∨ not_older b a = true.
Proof. cbn. lia. Qed.

Lemma not_older_trans a b c : not_older a b = true → not_older b c = true → not_older a c = true.
Proof. cbn. lia. Qed.

Lemma distinct_separates l : distinct_times l → separates not_older l.
Proof. intros Hd a b Ha Hb H1 H2. apply (distinct_inj l); [done..|]. cbn in H1, H2. lia. Qed.

Lemma distinct_nodup l : distinct_times l → NoDup l.
Proof. apply NoDup_fmap_1. Qed.

Lemma newest_first_elem l x : x ∈ newest_first l ↔ x ∈ l.
Proof. apply elem_of_sort_by. Qed.

Lemma newest_first_filter p l :
  distinct_times l → newest_first (List.filter p l) = List.filter p (newest_first l).
Proof. intros Hd. apply sort_by_filter; [apply not_older_total|apply not_older_trans|by apply distinct_separates]. Qed.

(** What is older than a row of a sorted list is what comes after it. *)
Lemma older_suffix l l1 r l2 :
  distinct_times l → newest_first l = l1 ++ r :: l2 →
  List.filter (λ x, i_createdAt x <? i_createdAt r) (newest_first l) = l2.
Proof.
  intros Hd He. apply (after_suffix not_older not_older_total not_older_trans _ l1 r);
    [by apply distinct_nodup|by apply distinct_separates|done|]. intros x _. cbn. lia.
Qed.

(** Following [next_cursor] from a cursor; [None] when the fuel is out. *)
Fixpoint follow (fuel : nat) (tenantId : Z) (q : ListQuery) (all : list ImportRow) : option (list ImportRow) :=
  match fuel with
  | O => None
  | S fuel' =>
      let '(items, next, _) := import_page tenantId q all in
      match next with
      | None => Some items
      | Some c => app items <$> follow fuel' tenantId (mkQuery (Some c) (q_limit q) (q_listId q) (q_status q)) all
      end
  end.

(** The rows the query asks for, whatever the cursor. *)
Definition asked (tenantId : Z) (q : ListQuery) (all : list ImportRow) : list ImportRow :=
  List.filter (import_selected tenantId (mkQuery None (q_limit q) (q_listId q) (q_status q)) all) all.

Definition wf_imports (all : list ImportRow) : Prop :=
  NoDup (i_id <$> all) ∧ Forall (λ r, i_id r ≠ EmptyString) all ∧ distinct_times all.

Lemma find_id all r : NoDup (i_id <$> all) → r ∈ all → List.find (λ r', String.eqb (i_id r') (i_id r)) all = Some r.
Proof.
  induction all as [|x all IH]; intros Hnd Hr; [by apply not_elem_of_nil in Hr|].
  cbn in Hnd. apply NoDup_cons in Hnd as [Hx Hnd]. cbn. apply elem_of_cons in Hr as [->|Hr].
  - by rewrite String.eqb_refl.
  - destruct (String.eqb_spec (i_id x) (i_id r)) as [He|]; [|by apply IH].
    exfalso. apply Hx. rewrite He. by apply list_elem_of_fmap_2.
Qed.

(** With the cursor of a row, the selected rows are the asked ones older than it. *)
Lemma selected_after tenantId q all r :
  wf_imports all → r ∈ all →
  List.filter (import_selected tenantId (mkQuery (Some (i_id r)) (q_limit q) (q_listId q) (q_status q)) all) all =
  List.filter (λ x, i_createdAt x <? i_createdAt r) (asked tenantId q all).
Proof.
  intros (Hnd & Hne & _) Hr. unfold asked. rewrite filter_filter_and. apply List.filter_ext. intros x.
  unfold import_selected. cbn [q_cursor q_listId q_status]. rewrite Forall_forall in Hne. specialize (Hne r Hr).
  pose proof (find_id all r Hnd Hr) as Hf. destruct (i_id r) as [|c id] eqn:Hid; [done|]. cbn [mbind option_bind truthy].
  rewrite Hf. cbn. destruct (i_tenantId x =? tenantId), (i_createdAt x <? i_createdAt r); done.
Qed.

Lemma asked_distinct tenantId q all : distinct_times all → distinct_times (asked tenantId q all).
Proof.
  unfold distinct_times, asked. generalize (import_selected tenantId (mkQuery None (q_limit q) (q_listId q) (q_status q)) all) as p.
  intros p. induction all as [|x l IH]; cbn; [done|]. intros [Hx Hnd]%NoDup_cons. destruct (p x); [|by apply IH].
  cbn. apply NoDup_cons. split; [|by apply IH]. intros (y & Hy & [Hin _]%elem_of_filter_list)%list_elem_of_fmap.
  apply Hx. rewrite Hy. by apply list_elem_of_fmap_2.
Qed.

(** The rest of the pages, when what the query selects is the end [l] of the rows asked for. *)
Lemma follow_suffix tenantId all : ∀ fuel q pre l,
  wf_imports all → (1 ≤ q_limit q)%nat → (length l < fuel)%nat →
  newest_first (asked tenantId q all) = pre ++ l →
  newest_first (List.filter (import_selected tenantId q all) all) = l →
  follow fuel tenantId q all = Some l.
Proof.
  induction fuel as [|fuel IH]; intros q pre l Hwf Hlim Hl Hpre Hsel; [lia|].
  cbn [follow]. unfold import_page, query_imports. rewrite Hsel. rewrite length_take, take_take.
  replace (q_limit q `min` S (q_limit q))%nat with (q_limit q) by lia.
  destruct (Nat.ltb_spec (q_limit q) (S (q_limit q) `min` length l)) as [Hlt|Hge].
  2:{ by rewrite take_ge by lia. }
  destruct (last (take (q_limit q) l)) as [r|] eqn:Hlast.
  2:{ apply last_None in Hlast. apply (f_equal length) in Hlast. rewrite length_take in Hlast. cbn in Hlast. lia. }
  apply last_Some in Hlast as [l1 Hl1]. cbn [fmap option_fmap option_map].
  assert (newest_first (asked tenantId q all) = (pre ++ l1) ++ r :: drop (q_limit q) l) as Hsplit.
  { rewrite Hpre, <- (take_drop (q_limit q) l) at 1. rewrite Hl1. by rewrite <- !app_assoc. }
  assert (r ∈ asked tenantId q all) as Hr by (rewrite <- newest_first_elem, Hsplit; set_solver).
  pose proof Hwf as (_ & _ & Hd).
  rewrite (IH (mkQuery (Some (i_id r)) (q_limit q) (q_listId q) (q_status q)) ((pre ++ l1) ++ [r]) (drop (q_limit q) l)).
  - cbn. by rewrite take_drop.
  - done.
  - done.
  - rewrite length_drop. lia.
  - rewrite <- app_assoc. exact Hsplit.
  - rewrite selected_after; [|done|by apply elem_of_filter_list in Hr as [? _]].
    rewrite newest_first_filter by by apply asked_distinct.
    by apply (older_suffix _ (pre ++ l1)); [apply asked_distinct|].
Qed.

(** Reading the imports page by page ends: when no two were created at the same
    instant, following the cursors from the first page takes at most one page more than
    there are imports and shows the tenant's imports of the list and status asked for,
    newest first, each exactly once. *)
Theorem import_pages_end tenantId (q : ListQuery) (all : list ImportRow) :
  wf_imports all → (1 ≤ q_limit q)%nat → q_cursor q = None →
  follow (S (length all)) tenantId q all = Some (newest_first (asked tenantId q all)).
Proof.
  intros Hwf Hlim Hc. apply (follow_suffix tenantId all _ q [] (newest_first (asked tenantId q all))); [done|done| |done|].
  - unfold newest_first. rewrite sort_by_perm. unfold asked. pose proof (List.filter_length_le
      (import_selected tenantId (mkQuery None (q_limit q) (q_listId q) (q_status q)) all) all). lia.
  - destruct q as [c n lid s]. cbn in Hc. by rewrite Hc.
Qed.

End Pages.

(** ** Runs *)

Module Life.

Inductive ImportOp :=
  | OpPost (cfg : CreateConfig) (queue_down : bool) (now : Z) (importId : string) (auth : option ApiAuth)
      (listId : Z) (parts : list Part)
  | OpActive (now : Z) (id : string)
  | OpFailed (attemptsMade : Z) (attempts : option Z) (message : option string) (id : string)
  | OpCompleted.

Definition op_step (op : ImportOp) (st : ImportState) : ImportState :=
  match op with
  | OpPost cfg down now id auth listId parts => (post_import cfg down now id auth listId parts st).2
  | OpActive now id => job_active now id st
  | OpFailed made attempts message id => job_failed made attempts message id st
  | OpCompleted => job_completed st
  end.

(** A created import has a new identifier. *)
Definition fresh (op : ImportOp) (st : ImportState) : Prop :=
  match op with OpPost _ _ _ id _ _ _ => id ≠ EmptyString ∧ id ∉ i_id <$> imports st | _ => True end.

Inductive run : ImportState → ImportState → Prop :=
  | run_refl st : run st st
  | run_step st op st' : fresh op st → run (op_step op st) st' → run st st'.

(** The moves of a status. *)
Definition may_become (s s' : ImportStatus) : Prop :=
  s' = s ∨ s = import_queued ∧ s' = import_running ∨ s' = import_failed.

(** A row later in its life: what it was created with stays. *)
Record later (r r' : ImportRow) : Prop := {
  lt_id : i_id r' = i_id r;
  lt_owner : (i_tenantId r', i_listId r', i_ownerUserId r') = (i_tenantId r, i_listId r, i_ownerUserId r);
  lt_file : (i_sourceKey r', i_errorsKey r', i_fileBytes r') = (i_sourceKey r, i_errorsKey r, i_fileBytes r);
  lt_counts : (i_total r', i_processed r', i_inserted r', i_skipped r', i_errored r') =
    (i_total r, i_processed r, i_inserted r, i_skipped r, i_errored r);
  lt_created : (i_meta r', i_completedAt r', i_createdAt r') = (i_meta r, i_completedAt r, i_createdAt r);
  lt_started : is_Some (i_startedAt r) → i_startedAt r' = i_startedAt r;
  lt_status : may_become (i_status r) (i_status r');
}.

#[export] Instance later_refl : Reflexive later.
Proof. intros r. split; try done. by left. Qed.

#[export] Instance later_trans : Transitive later.
Proof.
  intros a b c Hab Hbc. destruct Hab, Hbc. split; try congruence.
  - intros Ha. rewrite lt_started1; [by apply lt_started0|]. by rewrite lt_started0.
  - unfold may_become in *. intuition congruence.
Qed.

(** The state of the imports. *)
Record wf (st : ImportState) : Prop := {
  wf_ids : NoDup (i_id <$> imports st) ∧ Forall (λ r, i_id r ≠ EmptyString) (imports st);
  wf_list : Forall (λ r, ∃ l, lists st !! i_listId r = Some l ∧ ls_tenantId l = i_tenantId r) (imports st);
  wf_queued : Forall (λ r, i_status r = import_queued → i_startedAt r = None) (imports st);
  wf_open : Forall (λ r, i_status r ≠ import_done ∧ i_status r ≠ import_cancelled) (imports st);
  wf_jobs : Forall (λ j, ∃ r, r ∈ imports st ∧ i_id r = j_importId j ∧ i_tenantId r = j_tenantId j ∧
                              i_listId r = j_listId j ∧ i_ownerUserId r = j_ownerUserId j) (jobs st);
  wf_job_ids : NoDup (j_importId <$> jobs st);
}.

(** What an operation leaves of the table: every row where it was, later in its life,
    and then the rows added. *)
Definition grows (a b : list ImportRow) : Prop := ∃ new, Forall2 later a (take (length a) b) ∧ b = take (length a) b ++ new.

#[export] Instance grows_refl : Reflexive grows.
Proof.
  intros a. exists []. rewrite take_ge, app_nil_r by done. split; [|done]. apply Forall_Forall2_diag. apply Forall_true. reflexivity.
Qed.

#[export] Instance grows_trans : Transitive grows.
Proof.
  intros a b c (n1 & H1 & E1) (n2 & H2 & E2).
  assert (length a ≤ length b)%nat as Hab.
  { apply Forall2_length in H1. rewrite length_take in H1. lia. }
  assert (length b ≤ length c)%nat as Hbc.
  { apply Forall2_length in H2. rewrite length_take in H2. lia. }
  exists (drop (length a) c). split; [|by rewrite take_drop].
  transitivity (take (length a) b); [exact H1|].
  replace (take (length a) c) with (take (length a) (take (length b) c)) by (rewrite take_take; f_equal; lia).
  by apply Forall2_take.
Qed.

Lemma update_later id f l : Forall (λ r, later r (f r)) l → Forall2 later l (update_import id f l).
Proof.
  intros Hf. unfold update_import. apply Forall2_fmap_r, Forall_Forall2_diag. eapply Forall_impl; [exact Hf|].
  intros r Hr. cbn. destruct (String.eqb (i_id r) id); [done|reflexivity].
Qed.

Lemma later_grows a b : Forall2 later a b → grows a b.
Proof.
  intros H. exists []. apply Forall2_length in H as Hl. rewrite take_ge, app_nil_r by lia. done.
Qed.

Lemma start_later now r : (i_status r = import_queued → i_startedAt r = None) → later r (start_row now r).
Proof.
  intros Hq. unfold start_row. case_bool_decide as Hs; [|reflexivity]. split; try done.
  - intros Hn. rewrite Hq in Hn by done. by apply is_Some_None in Hn.
  - right; left. done.
Qed.

Lemma fail_later reason r : later r (fail_row reason r).
Proof. split; try done. by right; right. Qed.

(** Rows later in their life keep the state well formed. *)
Lemma wf_later st l' :
  wf st → Forall2 later (imports st) l' →
  Forall (λ r, i_status r = import_queued → i_startedAt r = None) l' →
  wf (with_imports (λ _, l') st).
Proof.
  intros [[Hids Hne] Hlist _ Hopen Hjobs Hjid] HF Hq.
  assert (i_id <$> l' = i_id <$> imports st) as Hid.
  { clear -HF. induction HF as [|r r' l l' [] _ IH]; cbn; [done|]. by rewrite IH, lt_id0. }
  assert (∀ (P : ImportRow → Prop), (∀ r r', later r r' → P r → P r') → Forall P (imports st) → Forall P l') as Hmap.
  { intros P HP. clear -HF HP. induction HF; intros H'; inversion H'; subst; constructor; eauto. }
  split; cbn [with_imports imports lists jobs].
  - rewrite Hid. split; [done|]. eapply Hmap; [|exact Hne]. intros r r' []. by rewrite lt_id0.
  - eapply Hmap; [|exact Hlist]. intros r r' [] (ls & Hl & Ht). exists ls. injection lt_owner0 as -> -> _. done.
  - done.
  - eapply Hmap; [|exact Hopen]. intros r r' [] [H1 H2]. unfold may_become in *. intuition congruence.
  - eapply Forall_impl; [exact Hjobs|]. intros j (r & Hr & H1 & H2 & H3 & H4). apply list_elem_of_lookup in Hr as [i Hi].
    destruct (Forall2_lookup_l _ _ _ _ _ HF Hi) as (r' & Hi' & []). exists r'. split; [by apply list_elem_of_lookup_2 in Hi'|].
    injection lt_owner0 as -> -> ->. by rewrite lt_id0.
  - done.
Qed.
Lemma update_queued id f l :
  (∀ r, (i_status r = import_queued → i_startedAt r = None) →
        i_status (f r) = import_queued → i_startedAt (f r) = None) →
  Forall (λ r, i_status r = import_queued → i_startedAt r = None) l →
  Forall (λ r, i_status r = import_queued → i_startedAt r = None) (update_import id f l).
Proof.
  intros Hf Hl. unfold update_import. apply Forall_fmap. eapply Forall_impl; [exact Hl|].
  intros r Hr. cbn. destruct (String.eqb (i_id r) id); [by apply Hf|done].
Qed.

(** What creating an import does to the table: nothing, or a new row of the actor's. *)
Lemma post_cases cfg down now id auth listId parts st :
  let st' := (post_import cfg down now id auth listId parts st).2 in
  lists st' = lists st ∧
  ((imports st' = imports st ∧ jobs st' = jobs st) ∨
   ∃ r, imports st' = imports st ++ [r] ∧ i_id r = id ∧ i_status r = import_queued ∧ i_startedAt r = None ∧
     (∃ l, lists st !! i_listId r = Some l ∧ ls_tenantId l = i_tenantId r) ∧
     (jobs st' = jobs st ∨ jobs st' = jobs st ++ [mkJob id (i_tenantId r) (i_listId r) (i_ownerUserId r)])).
Proof.
  cbn zeta. unfold post_import, import_guard. destruct (requirePermission _ _ _) as [e|]; [by split; [|left]|].
  destruct auth as [a|]; [|by split; [|left]].
  destruct (lists st !! listId) as [l|] eqn:El; [|by split; [|left]]. cbn [from_option].
  destruct (Z.eqb_spec (ls_tenantId l) (a_tenantId a)) as [Ht|]; [|by split; [|left]]. cbn [negb].
  destruct (read_parts _ _) as [p|]; [|by split; [|left]]. destruct (pt_file p) as [chunks|]; [|by split; [|left]].
  destruct (default _ _) as [| |meta]; [by split; [|left]..|].
  destruct (unsafe_filename _); [by split; [|left]|]. case_bool_decide; [|by split; [|left]]. cbn [negb].
  destruct (uploadLocalStream _ _).2 as [n|[]]; [|by split; [|left]].
  set (row := mkImport _ _ _ _ _ _ _ _ _ _ _ _ _ _ _ _ _ _).
  destruct down; cbn; (split; [done|]); right; exists row; cbn; eauto 10.
Qed.

Lemma step_wf op st : wf st → fresh op st → wf (op_step op st) ∧ grows (imports st) (imports (op_step op st)).
Proof.
  intros Hwf Hfr. destruct op as [cfg down now id auth listId parts|now id|made attempts message id|]; cbn [op_step fresh] in *.
  - destruct (post_cases cfg down now id auth listId parts st) as [Hl [[Hi Hj]|(r & Hi & Hid & Hst & Hsa & Hls & Hj)]].
    + destruct Hwf. split; [|rewrite Hi; reflexivity]. split; rewrite ?Hi, ?Hl, ?Hj; done.
    + destruct Hfr as [Hne Hni], Hwf as [[Hids Hnes] Hlist Hq Hopen Hjobs Hjid]. split.
      * assert (∀ j, (∃ r', r' ∈ imports st ∧ i_id r' = j_importId j ∧ i_tenantId r' = j_tenantId j ∧
            i_listId r' = j_listId j ∧ i_ownerUserId r' = j_ownerUserId j) →
          ∃ r', r' ∈ imports st ++ [r] ∧ i_id r' = j_importId j ∧ i_tenantId r' = j_tenantId j ∧
            i_listId r' = j_listId j ∧ i_ownerUserId r' = j_ownerUserId j) as Hold.
        { intros j (r' & Hr & ?). exists r'. rewrite elem_of_app. auto. }
        split; rewrite ?Hi, ?Hl.
        -- rewrite fmap_app. cbn. rewrite Hid. split; [|apply Forall_app_2; [done|]; constructor; [congruence|done]].
           apply NoDup_app. split; [done|]. split; [|apply NoDup_singleton].
           intros x Hx ->%list_elem_of_singleton. done.
        -- apply Forall_app_2; [done|]. by constructor.
        -- apply Forall_app_2; [done|]. by constructor.
        -- apply Forall_app_2; [done|]. constructor; [|done]. by rewrite Hst.
        -- destruct Hj as [->| ->]; [|apply Forall_app_2]; try (eapply Forall_impl; [exact Hjobs|exact Hold]).
           constructor; [|done]. exists r. cbn. rewrite elem_of_app, list_elem_of_singleton. auto 10.
        -- destruct Hj as [->| ->]; [done|]. rewrite fmap_app. apply NoDup_app. split; [done|]. split; [|apply NoDup_singleton].
           intros x (j & -> & Hjin)%list_elem_of_fmap Hx%list_elem_of_singleton. cbn in Hx.
           rewrite Forall_forall in Hjobs. destruct (Hjobs j Hjin) as (r' & Hr' & Hid' & _). apply Hni.
           rewrite <- Hx, <- Hid'. by apply list_elem_of_fmap_2.
      * exists [r]. rewrite Hi, take_app_length. split; [|done]. apply Forall_Forall2_diag, Forall_true. reflexivity.
  - assert (Forall2 later (imports st) (update_import id (start_row now) (imports st))) as HF.
    { apply update_later. eapply Forall_impl; [exact (wf_queued _ Hwf)|]. intros r Hr. by apply start_later. }
    split; [|by apply later_grows]. apply (wf_later st _ Hwf HF). apply update_queued; [|apply (wf_queued _ Hwf)].
    intros r Hr. unfold start_row. case_bool_decide; [done|]. done.
  - unfold job_failed. destruct (_ <=? _); [|by split].
    assert (Forall2 later (imports st) (update_import id (fail_row (from_option (cut 255) "unknown"%string message)) (imports st))) as HF.
    { apply update_later, Forall_true. intros r. apply fail_later. }
    split; [|by apply later_grows]. apply (wf_later st _ Hwf HF). apply update_queued; [done|apply (wf_queued _ Hwf)].
  - by split.
Qed.

Lemma import_run_wf st st' : run st st' → wf st → wf st' ∧ grows (imports st) (imports st').
Proof.
  induction 1 as [|st op st' Hfr _ IH]; intros Hwf; [done|].
  destruct (step_wf op st Hwf Hfr) as [Hwf' Hg]. destruct (IH Hwf') as [Hwf'' Hg']. split; [done|]. by etrans.
Qed.

(** In every run of uploads and job events with fresh identifiers the imports stay
    well formed: identifiers are unique, each import is into a list of its tenant, each
    job is of one import with its tenant, list and owner and no import has two.  An
    import is never deleted, keeps what it was created with, and its status only goes
    from queued to running and to failed: no import ever completes, and none of its
    counts ever moves. *)
Theorem import_lifecycle st st' :
  wf st → run st st' →
  wf st' ∧ grows (imports st) (imports st') ∧
  Forall (λ r, i_status r ≠ import_done ∧ i_status r ≠ import_cancelled) (imports st').
Proof. intros Hwf Hr. destruct (import_run_wf st st' Hr Hwf) as [Hwf' Hg]. split_and!; [done..|apply (wf_open _ Hwf')]. Qed.

End Life.

(** ** Uploads *)

(** An upload of chunks within the limit is written whole; beyond it the upload ends
    with an error, and never more than the limit is written. *)
Lemma upload_bounded maxBytes chunks :
  0 <= maxBytes → Forall (λ c, 0 <= c) chunks →
  let '(written, r) := uploadLocalStream maxBytes chunks in
  foldr Z.add 0 written <= maxBytes ∧
  (foldr Z.add 0 chunks <= maxBytes → written = chunks ∧ r = Ok (foldr Z.add 0 chunks)) ∧
  (maxBytes < foldr Z.add 0 chunks → r = Err FILE_TOO_LARGE).
Proof.
  intros Hm Hc. unfold uploadLocalStream.
  assert (∀ n, n <= maxBytes → let '(written, r) := upload_chunks maxBytes n chunks in
    n + foldr Z.add 0 written <= maxBytes ∧
    (n + foldr Z.add 0 chunks <= maxBytes → written = chunks ∧ r = Ok (n + foldr Z.add 0 chunks)) ∧
    (maxBytes < n + foldr Z.add 0 chunks → r = Err FILE_TOO_LARGE)) as Hgen.
  { induction Hc as [|c chunks Hc Hcs IH]; intros n Hn; cbn [upload_chunks foldr].
    - rewrite Z.add_0_r. split_and!; [lia|done|lia].
    - assert (0 <= foldr Z.add 0 chunks) as Hpos by (clear -Hcs; induction Hcs; cbn; lia).
      destruct (Z.ltb_spec maxBytes (n + c)) as [Hlt|Hge]; cbn [foldr]; [split_and!; [lia|lia|done]|].
      specialize (IH (n + c) Hge). destruct (upload_chunks maxBytes (n + c) chunks) as [w r]. cbn [foldr].
      destruct IH as (H1 & H2 & H3). split_and!; [lia| |intros; apply H3; lia].
      intros Hle. destruct H2 as [-> ->]; [lia|]. split; [done|]. f_equal. lia. }
  specialize (Hgen 0 Hm). destruct (upload_chunks maxBytes 0 chunks) as [w r].
  destruct Hgen as (H1 & H2 & H3). split_and!; auto.
Qed.

(** ** Where the code falls short *)

Lemma split_last_lacks c l : string_forallb (λ d, negb (Ascii.eqb c d)) (String.string_of_list_ascii l) = true → split_last c l = None.
Proof.
  induction l as [|d l IH]; cbn; [done|]. rewrite andb_true_iff, negb_true_iff. intros [-> Hl]. by rewrite IH.
Qed.

(** A file called just "csv" passes as one, and where no directory has a dot its list of
    errors has the path of the upload itself. *)
Lemma errors_overwrite_source dir importId :
  lacks "." dir = true → lacks "." importId = true → String.prefix "s3://" (localPath dir importId "csv") = false →
  extension "csv" ∈ EXTENSIONS ∧ errorsFilePath (localPath dir importId "csv") = localPath dir importId "csv".
Proof.
  intros Hd Hi Hs. split; [by left|]. unfold errorsFilePath. rewrite Hs. unfold replace_extension.
  rewrite split_last_lacks; [done|]. rewrite String.string_of_list_ascii_of_string. fold (lacks ".").
  unfold localPath. rewrite !lacks_app, Hd, Hi. done.
Qed.

Definition importer (tenant : Z) : ApiAuth := mkApiAuth 5 tenant admin (permissionsFor admin) "jti" true None AllCampaigns.

Definition small_state : ImportState := mkState {[ 3 := mkList 7 None ]} [] ∅ [].

(** The preview opens whatever path of the server the request names; that an upload
    made the file, or that it belongs to the tenant, is not asked. *)
Lemma preview_reads_any_path to_double print_double reprint date_parse (file : list (list string)) :
  (post_preview to_double print_double reprint date_parse (λ path _, if String.eqb path "/etc/passwd" then file else [])
     (Some (importer 7)) 3 (mkPreviewRequest (Some "/etc/passwd"%string) inherit None (Some false)) small_state).1 =
  Previewed (mkPreview [] (take PREVIEW_ROW_LIMIT file) ∅ ((λ _, ∅) <$> take PREVIEW_ROW_LIMIT file)).
Proof. reflexivity. Qed.

Definition import_at (id : string) (created : Z) (s : ImportStatus) : ImportRow :=
  mkImport id 7 3 5 s "/tmp/f.csv" None 10 None 0 0 0 0 default_meta None None None created.

(** Two imports created at the same instant: pages of one row show the first only. *)
Lemma pages_skip_ties :
  i_id <$> default [] (Pages.follow 3 7 (mkQuery None 1 None None)
    [import_at "a" 100 import_queued; import_at "b" 100 import_queued]) = ["a"]%string.
Proof. reflexivity. Qed.

(** A stream opened on an import that is then cancelled is never ended by a poll. *)
Lemma cancelled_stream_stays id :
  poll_events 7 id (mkState ∅ [import_at id 100 import_cancelled] ∅ []) = ([], false).
Proof. unfold poll_events, find_import. cbn. by rewrite String.eqb_refl. Qed.

(** When the queue is down the upload fails but its import stays queued, without a job. *)
Definition csv_upload : list Part := [FilePart "file" (Some "leads.csv"%string) [10; 20]].
Definition local_config : CreateConfig := mkConfig "/tmp/vici2-imports" None 1000.

Lemma queue_down_orphans :
  let '(resp, st) := post_import local_config true 100 "01A" (Some (importer 7)) 3 csv_upload small_state in
  resp = Refused 500 "Internal Server Error" ∧ i_status <$> imports st = [import_queued] ∧ jobs st = [].
Proof. vm_compute. auto. Qed.

(** ** Witnesses *)

Definition three_imports : list ImportRow :=
  [import_at "a" 100 import_failed; import_at "b" 300 import_queued; import_at "c" 200 import_running].

Lemma import_pages_end_witness :
  i_id <$> default [] (Pages.follow 4 7 (mkQuery None 1 None None) three_imports) = ["b"; "c"; "a"]%string ∧
  Pages.follow (S (length three_imports)) 7 (mkQuery None 1 None None) three_imports =
    Some (newest_first (Pages.asked 7 (mkQuery None 1 None None) three_imports)).
Proof.
  split; [reflexivity|]. apply Pages.import_pages_end; [|done|done]. split_and!.
  - apply (bool_decide_unpack _). vm_compute. exact I.
  - by repeat constructor.
  - apply (bool_decide_unpack _). vm_compute. exact I.
Defined.

Lemma small_state_wf : Life.wf small_state.
Proof. split; cbn; repeat constructor. Qed.

Definition failed_upload : ImportState :=
  Life.op_step (Life.OpFailed 3 None (Some "boom"%string) "01A")
    (Life.op_step (Life.OpActive 200 "01A")
      (Life.op_step (Life.OpPost local_config false 100 "01A" (Some (importer 7)) 3 csv_upload) small_state)).

Lemma failed_upload_run : Life.run small_state failed_upload.
Proof.
  eapply (Life.run_step _ (Life.OpPost local_config false 100 "01A" (Some (importer 7)) 3 csv_upload)).
  { split; [done|]. by intros ?%not_elem_of_nil. }
  eapply (Life.run_step _ (Life.OpActive 200 "01A")); [exact I|].
  eapply (Life.run_step _ (Life.OpFailed 3 None (Some "boom"%string) "01A")); [exact I|]. apply Life.run_refl.
Qed.

Lemma import_lifecycle_witness :
  (i_status <$> imports failed_upload) = [import_failed] ∧ length (jobs failed_upload) = 1%nat ∧
  Life.wf failed_upload ∧ Life.grows (imports small_state) (imports failed_upload) ∧
  Forall (λ r, i_status r ≠ import_done ∧ i_status r ≠ import_cancelled) (imports failed_upload).
Proof.
  split; [vm_compute; reflexivity|]. split; [vm_compute; reflexivity|].
  apply (Life.import_lifecycle small_state); [exact small_state_wf|exact failed_upload_run].
Defined.
