(* ===== verification/Ivr.v ===== *)
(** The IVR tree validator, [api/src/services/ivr/IvrValidator.ts], with the
    node types of [shared/types/src/ivr.ts].

    Ids are [bigint]s ([Z]); the JavaScript [Map]s keyed by id are [gmap Z].
    [validateIvrGraph] is the whole function: the closure checks while the
    adjacency map is filled, the sentinel-edge checks and the coloured
    depth-first search.  The search cuts every branch at depth 4, so fuel 5 is
    enough ([validate_has_fuel]). *)

From S2P Require Import Prelude.

Inductive IvrNodeType : Set :=
  | collect | lang_select | terminal_ingroup | terminal_hangup | terminal_voicemail
  | terminal_transfer | terminal_callback.

#[export] Instance IvrNodeType_eq_dec : EqDecision IvrNodeType.
Proof. solve_decision. Defined.

Definition TERMINAL_NODE_TYPES : list IvrNodeType :=
  [terminal_ingroup; terminal_hangup; terminal_voicemail; terminal_transfer; terminal_callback].

Record ValidatorNode : Set := mkNode { id : Z; nodeType : IvrNodeType }.

Record ValidatorEdge : Set := mkEdge {
  fromNodeId : Z;
  onInput : string;
  toNodeId : option Z;
}.

Record IvrGraph : Set := mkGraph {
  entryNodeId : option Z;
  nodes : list ValidatorNode;
  edges : list ValidatorEdge;
}.

Definition PHASE1_MAX_DEPTH : nat := 3.

(** The messages of [IvrValidationError], with their data. *)
Inductive IvrValidationError : Set :=
  | NoNodes
  | NoEntry
  | EntryNotFound (n : Z)
  | UnknownFrom (n : Z)
  | UnknownTo (n : Z)
  | MissingTimeout (n : Z) (t : IvrNodeType)
  | MissingInvalidMax (n : Z) (t : IvrNodeType)
  | TerminalHasEdges (n : Z) (t : IvrNodeType)
  | DepthExceeded (d : nat)
  | Cycle (from to : Z)
  | OutOfFuel. (* of the model only; never returned by [validateIvrGraph] *)

(** [for (const x of l) body(x)] where the body may throw. *)
Fixpoint for_each {S A E} (f : S → A → result E S) (s : S) (l : list A) : result E S :=
  match l with
  | [] => Ok s
  | x :: l' => s' ← f s x; for_each f s' l'
  end.

Definition build_nodeMap (ns : list ValidatorNode) : gmap Z ValidatorNode :=
  foldl (λ m n, <[id n := n]> m) ∅ ns.

Definition empty_adjacency (ns : list ValidatorNode) : gmap Z (list ValidatorEdge) :=
  foldl (λ m n, <[id n := []]> m) ∅ ns.

(** The body of the loop over the edges. *)
Definition add_edge (nodeMap : gmap Z ValidatorNode) (adj : gmap Z (list ValidatorEdge))
    (e : ValidatorEdge) : result IvrValidationError (gmap Z (list ValidatorEdge)) :=
  match nodeMap !! fromNodeId e with
  | None => Err (UnknownFrom (fromNodeId e))
  | Some _ =>
      match toNodeId e with
      | Some t =>
          match nodeMap !! t with
          | None => Err (UnknownTo t)
          | Some _ => Ok (alter (λ l, l ++ [e]) (fromNodeId e) adj)
          end
      | None => Ok (alter (λ l, l ++ [e]) (fromNodeId e) adj)
      end
  end.

Definition outgoing (adj : gmap Z (list ValidatorEdge)) (n : Z) : list ValidatorEdge :=
  default [] (adj !! n).

Definition check_node (adj : gmap Z (list ValidatorEdge)) (_ : unit) (node : ValidatorNode)
    : result IvrValidationError unit :=
  let out := outgoing adj (id node) in
  let inputs := onInput <$> out in
  if negb (bool_decide (nodeType node ∈ TERMINAL_NODE_TYPES)) then
    if negb (bool_decide ("__TIMEOUT__" ∈ inputs)) then Err (MissingTimeout (id node) (nodeType node))
    else if negb (bool_decide ("__INVALID_MAX__" ∈ inputs)) then
      Err (MissingInvalidMax (id node) (nodeType node))
    else Ok ()
  else if bool_decide (0 < length out) then Err (TerminalHasEdges (id node) (nodeType node))
  else Ok ().

Inductive color : Set := WHITE | GRAY | BLACK.

#[export] Instance color_eq_dec : EqDecision color.
Proof. solve_decision. Defined.

Record dfs_state : Set := mkDfs { colors : gmap Z color; maxDepth : nat }.

Definition paint (n : Z) (c : color) (s : dfs_state) : dfs_state :=
  mkDfs (<[n := c]> (colors s)) (maxDepth s).

Definition enter (n : Z) (depth : nat) (s : dfs_state) : dfs_state :=
  mkDfs (<[n := GRAY]> (colors s)) (Nat.max (maxDepth s) depth).

(** The body of the loop over a node's outgoing edges; [rec] is the recursive
    call [dfs(edge.toNodeId, depth + 1)]. *)
Definition dfs_edge (rec : Z → dfs_state → result IvrValidationError dfs_state) (n : Z)
    (s : dfs_state) (e : ValidatorEdge) : result IvrValidationError dfs_state :=
  match toNodeId e with
  | None => Ok s
  | Some t =>
      match colors s !! t with
      | Some GRAY => Err (Cycle n t)
      | Some WHITE => rec t s
      | _ => Ok s
      end
  end.

Fixpoint dfs (fuel : nat) (adj : gmap Z (list ValidatorEdge)) (depth : nat) (n : Z)
    (s : dfs_state) : result IvrValidationError dfs_state :=
  match fuel with
  | O => Err OutOfFuel
  | S fuel' =>
      let s1 := enter n depth s in
      if bool_decide (PHASE1_MAX_DEPTH < depth) then Err (DepthExceeded depth)
      else
        s2 ← for_each (dfs_edge (dfs fuel' adj (S depth)) n) s1 (outgoing adj n);
        Ok (paint n BLACK s2)
  end.

Definition all_white (ns : list ValidatorNode) : dfs_state :=
  mkDfs (foldl (λ m n, <[id n := WHITE]> m) ∅ ns) 0.

Definition dfs_fuel : nat := PHASE1_MAX_DEPTH + 2.

Definition validateIvrGraph (g : IvrGraph) : result IvrValidationError nat :=
  match nodes g with
  | [] => Err NoNodes
  | _ =>
      match entryNodeId g with
      | None | Some 0%Z => Err NoEntry
      | Some entry =>
          let nodeMap := build_nodeMap (nodes g) in
          match nodeMap !! entry with
          | None => Err (EntryNotFound entry)
          | Some _ =>
              adj ← for_each (add_edge nodeMap) (empty_adjacency (nodes g)) (edges g);
              _ ← for_each (check_node adj) () (nodes g);
              s ← dfs dfs_fuel adj 0 entry (all_white (nodes g));
              Ok (maxDepth s)
          end
      end
  end.

(** ** Loops and maps *)

Lemma for_each_ind {S A E} (P : S → Prop) (f : S → A → result E S) l s s' :
  (∀ s x s', x ∈ l → P s → f s x = Ok s' → P s') →
  P s → for_each f s l = Ok s' → P s'.
Proof.
  revert s. induction l as [|x l IH]; intros s Hf Hs; cbn; [by intros [= <-]|].
  intros (s1 & H1 & H2)%bind_ok. eapply (IH s1); [|by eapply Hf; [left| |]|done].
  intros ??? Hx. apply Hf. by right.
Qed.

Lemma keyed_lookup {V} (f : ValidatorNode → V) ns (m : gmap Z V) i :
  is_Some (foldl (λ m n, <[id n := f n]> m) m ns !! i) ↔ is_Some (m !! i) ∨ i ∈ id <$> ns.
Proof.
  revert m. induction ns as [|n ns IH]; intros m; cbn; [set_solver|].
  rewrite IH, elem_of_cons, lookup_insert_is_Some'. naive_solver.
Qed.

Lemma const_lookup {V} (c v : V) (ns : list ValidatorNode) (m : gmap Z V) i :
  (∀ j w, m !! j = Some w → w = c) →
  foldl (λ m n, <[id n := c]> m) m ns !! i = Some v → v = c.
Proof.
  revert m. induction ns as [|n ns IH]; intros m Hm; cbn; [apply Hm|].
  apply IH. intros j w. rewrite lookup_insert. case_decide; [by intros [= <-]|apply Hm].
Qed.

(** ** The graph relation *)

Definition step (g : IvrGraph) (n t : Z) : Prop :=
  ∃ e, e ∈ edges g ∧ fromNodeId e = n ∧ toNodeId e = Some t.

Definition adj_step (adj : gmap Z (list ValidatorEdge)) (n t : Z) : Prop :=
  ∃ e, e ∈ outgoing adj n ∧ toNodeId e = Some t.

Definition node_ids (g : IvrGraph) : list Z := id <$> nodes g.

Definition edge_closed (ids : list Z) (e : ValidatorEdge) : Prop :=
  fromNodeId e ∈ ids ∧ ∀ t, toNodeId e = Some t → t ∈ ids.

Definition out_edges (g : IvrGraph) (n : Z) : list ValidatorEdge :=
  filter (λ e, fromNodeId e = n) (edges g).

(** What the static checks ask of a node. *)
Definition node_ok (out : list ValidatorEdge) (t : IvrNodeType) : Prop :=
  if bool_decide (t ∈ TERMINAL_NODE_TYPES) then out = []
  else "__TIMEOUT__"%string ∈ onInput <$> out ∧ "__INVALID_MAX__"%string ∈ onInput <$> out.

Lemma check_node_ok adj u n :
  check_node adj u n = Ok () ↔ node_ok (outgoing adj (id n)) (nodeType n).
Proof.
  unfold check_node, node_ok.
  destruct (bool_decide (nodeType n ∈ TERMINAL_NODE_TYPES)); cbn [negb].
  - destruct (outgoing adj (id n)); cbn; by split.
  - do 2 (case_bool_decide; cbn; [|naive_solver]). naive_solver.
Qed.

Lemma check_nodes_ok adj ns :
  for_each (check_node adj) () ns = Ok () ↔
  ∀ n, n ∈ ns → node_ok (outgoing adj (id n)) (nodeType n).
Proof.
  induction ns as [|n ns IH]; cbn; [set_solver|].
  rewrite bind_ok. setoid_rewrite elem_of_cons. split.
  - intros ([] & H1 & H2) m [->|Hm]; [by apply (check_node_ok adj ())|by apply IH].
  - intros H. exists (). split; [apply check_node_ok; auto|apply IH; auto].
Qed.

Lemma add_edge_ok nm adj e adj' :
  add_edge nm adj e = Ok adj' ↔
  is_Some (nm !! fromNodeId e) ∧ (∀ t, toNodeId e = Some t → is_Some (nm !! t)) ∧
  adj' = alter (λ l, l ++ [e]) (fromNodeId e) adj.
Proof.
  unfold add_edge. destruct (nm !! fromNodeId e); [|by split; [|intros ([] & _)]].
  destruct (toNodeId e) as [t|].
  - destruct (nm !! t) eqn:E.
    + split; [intros [= <-]; split_and!; naive_solver|naive_solver].
    + split; [done|]. intros (_ & H & _). destruct (H t eq_refl); congruence.
  - split; [intros [= <-]; split_and!; naive_solver|naive_solver].
Qed.

(** After the edge loop, a node's entry holds its edges in source order. *)
Lemma add_edges_spec nm es adj adj' :
  for_each (add_edge nm) adj es = Ok adj' →
  (∀ e, e ∈ es → is_Some (nm !! fromNodeId e) ∧ ∀ t, toNodeId e = Some t → is_Some (nm !! t)) ∧
  ∀ n, adj' !! n = (λ l, l ++ filter (λ e, fromNodeId e = n) es) <$> adj !! n.
Proof.
  revert adj. induction es as [|e es IH]; intros adj; cbn [for_each].
  - intros [= <-]. split; [set_solver|]. intros n. destruct (adj !! n); cbn; [|done].
    by rewrite app_nil_r.
  - intros (a1 & (H1 & H2 & ->)%add_edge_ok & H3)%bind_ok.
    apply IH in H3 as [Hc Hl]. split; [intros e'; rewrite elem_of_cons; naive_solver|].
    intros n. rewrite Hl, lookup_alter. rewrite filter_cons.
    case_decide as Hn; [rewrite Hn|]; destruct (adj !! n); cbn; try done.
    f_equal. by rewrite <- app_assoc.
Qed.

Lemma add_edges_complete nm es adj :
  (∀ e, e ∈ es → is_Some (nm !! fromNodeId e) ∧ ∀ t, toNodeId e = Some t → is_Some (nm !! t)) →
  ∃ adj', for_each (add_edge nm) adj es = Ok adj'.
Proof.
  revert adj. induction es as [|e es IH]; intros adj H; cbn; [eauto|].
  destruct (H e ltac:(by left)) as [H1 H2].
  rewrite (proj2 (add_edge_ok nm adj e _) (conj H1 (conj H2 eq_refl))). apply IH.
  intros e' He'. apply H. by right.
Qed.

(** ** The search: soundness

    [Topo R l]: [l] lists finished nodes, newest first, each of whose successors
    finished before it. *)
Inductive Topo (R : Z → Z → Prop) : list Z → Prop :=
  | Topo_nil : Topo R []
  | Topo_cons n l : n ∉ l → (∀ t, R n t → t ∈ l) → Topo R l → Topo R (n :: l).

Lemma Topo_step R l n t : Topo R l → n ∈ l → R n t → t ∈ l.
Proof.
  induction 1 as [|x l Hx Hc HT IH]; [by inversion 1|].
  intros [->|Hn]%elem_of_cons Hs; right; auto.
Qed.

Lemma Topo_closed R l n t : Topo R l → n ∈ l → tc R n t → t ∈ l.
Proof. intros HT Hn. induction 1; eauto using Topo_step. Qed.

Lemma Topo_acyclic R l n : Topo R l → n ∈ l → ¬ tc R n n.
Proof.
  induction 1 as [|x l Hx Hc HT IH]; [by inversion 1|].
  intros [->|Hn]%elem_of_cons Htc; [|by apply IH].
  apply Hx. inversion Htc as [? ? Hs|? m ? Hs Htc']; subst; [by apply Hc|].
  eapply Topo_closed; [done| |done]. by apply Hc.
Qed.

(** Colours only change from white to black. *)
Definition extends (s s' : dfs_state) : Prop :=
  ∀ m, colors s' !! m = colors s !! m ∨
       colors s !! m = Some WHITE ∧ colors s' !! m = Some BLACK.

Definition sees (s : dfs_state) (l : list Z) : Prop :=
  ∀ m, colors s !! m = Some BLACK ↔ m ∈ l.

Definition covers (adj : gmap Z (list ValidatorEdge)) (s : dfs_state) : Prop :=
  ∀ n t, adj_step adj n t → is_Some (colors s !! t).

Lemma extends_refl s : extends s s.
Proof. by left. Qed.

Lemma extends_trans s1 s2 s3 : extends s1 s2 → extends s2 s3 → extends s1 s3.
Proof. intros H1 H2 m. destruct (H1 m) as [|[]], (H2 m) as [|[]]; unfold extends; naive_solver congruence. Qed.

Lemma extends_dom s s' m : extends s s' → is_Some (colors s !! m) → is_Some (colors s' !! m).
Proof. intros H [c Hc]. destruct (H m) as [->|[_ ->]]; eauto. Qed.

Lemma extends_gray s s' m :
  extends s s' → (colors s' !! m = Some GRAY ↔ colors s !! m = Some GRAY).
Proof. intros H. destruct (H m) as [->|[-> ->]]; naive_solver. Qed.

Lemma extends_black s s' m :
  extends s s' → colors s !! m = Some BLACK → colors s' !! m = Some BLACK.
Proof. intros H. destruct (H m) as [->|[-> ->]]; naive_solver. Qed.

(** Entering a white node, searching from it and blackening it is an extension. *)
Lemma extends_visit n d s s2 :
  colors s !! n = Some WHITE → extends (enter n d s) s2 → extends s (paint n BLACK s2).
Proof.
  intros Hw He m. cbn. rewrite lookup_insert. case_decide as Hm; [subst; by right|].
  destruct (He m) as [H|[H1 H2]]; cbn in *; rewrite lookup_insert_ne in * by done; auto.
Qed.

Lemma covers_extends adj s s' : covers adj s → extends s s' → covers adj s'.
Proof. intros Hc He n t Hs. eapply extends_dom; eauto. Qed.

Lemma covers_enter adj n d s : covers adj s → covers adj (enter n d s).
Proof.
  intros Hc m t Hs. cbn. rewrite lookup_insert_is_Some'. right. by eapply Hc.
Qed.

Definition searched (adj : gmap Z (list ValidatorEdge)) (s s' : dfs_state) (ts : list Z) : Prop :=
  extends s s' ∧ ∃ l', sees s' l' ∧ Topo (adj_step adj) l' ∧ ∀ t, t ∈ ts → t ∈ l'.

Definition targets (es : list ValidatorEdge) : list Z := omap toNodeId es.

Lemma dfs_edges_sound adj rec n es s s' l :
  (∀ t s s' l, covers adj s → colors s !! t = Some WHITE → sees s l → Topo (adj_step adj) l →
     rec t s = Ok s' → searched adj s s' [t]) →
  (∀ e, e ∈ es → e ∈ outgoing adj n) →
  covers adj s → sees s l → Topo (adj_step adj) l →
  for_each (dfs_edge rec n) s es = Ok s' → searched adj s s' (targets es).
Proof.
  intros Hrec. revert s l. induction es as [|e es IH]; intros s l Hes Hc Hs HT; cbn [for_each].
  - intros [= <-]. split; [apply extends_refl|]. exists l. split_and!; [done..|set_solver].
  - intros (s1 & He & Hl)%bind_ok. unfold targets; cbn.
    assert (H1 : searched adj s s1 (option_list (toNodeId e))).
    { unfold dfs_edge in He. destruct (toNodeId e) as [t|] eqn:Ht; cbn.
      - destruct (Hc n t) as [c Hct]; [exists e; split; [apply Hes; by left|done]|].
        rewrite Hct in He. destruct c; [by eapply Hrec|done|].
        injection He as <-. split; [apply extends_refl|]. exists l. split_and!; [done..|].
        intros t' ->%list_elem_of_singleton. by apply Hs.
      - injection He as <-. split; [apply extends_refl|]. exists l. split_and!; [done..|set_solver]. }
    destruct H1 as (He1 & l1 & Hs1 & HT1 & Hin1).
    destruct (IH s1 l1) as (He2 & l2 & Hs2 & HT2 & Hin2); [|by eapply covers_extends|done..|].
    { intros e' He'. apply Hes. by right. }
    split; [by eapply extends_trans|]. exists l2. split_and!; [done..|].
    intros t Ht. destruct (toNodeId e) as [t'|]; [|by apply Hin2].
    apply elem_of_cons in Ht as [->|Ht]; [|by apply Hin2].
    apply Hs2. eapply extends_black, Hs1; [done|]. apply Hin1; cbn. set_solver.
Qed.

Lemma dfs_sound adj fuel depth n s s' l :
  covers adj s → colors s !! n = Some WHITE → sees s l → Topo (adj_step adj) l →
  dfs fuel adj depth n s = Ok s' → searched adj s s' [n].
Proof.
  revert depth n s s' l. induction fuel as [|fuel IH]; intros depth n s s' l Hc Hw Hs HT; cbn; [done|].
  case_bool_decide; [done|]. intros (s2 & Hl & [= <-])%bind_ok.
  assert (Hs1 : sees (enter n depth s) l).
  { intros m. cbn. rewrite lookup_insert. case_decide; [|apply Hs].
    subst. split; [done|]. intros Hm%Hs. congruence. }
  eapply dfs_edges_sound in Hl as (He & l2 & Hs2 & HT2 & Hin);
    [|intros; by eapply IH|done|by apply covers_enter|done..].
  assert (Hn : colors s2 !! n = Some GRAY).
  { apply (extends_gray _ _ _ He). cbn. by rewrite lookup_insert_eq. }
  split; [by eapply extends_visit|]. exists (n :: l2). split_and!.
  - intros m. cbn. rewrite lookup_insert, elem_of_cons. pose proof (Hs2 m).
    case_decide; naive_solver.
  - constructor; [intros Hn2%Hs2; congruence| |done].
    intros t (e & Hout & Ht). apply Hin. unfold targets. apply list_elem_of_omap. eauto.
  - set_solver.
Qed.

(** ** The search: depth, fuel and completeness *)

(** Every path from [n] has at most [k] edges. *)
Fixpoint height_le (R : Z → Z → Prop) (k : nat) (n : Z) : Prop :=
  match k with
  | O => ∀ t, ¬ R n t
  | S k' => ∀ t, R n t → height_le R k' t
  end.

Lemma height_acyclic R k n : height_le R k n → ¬ tc R n n.
Proof.
  assert (Hstep : ∀ k n t, height_le R k n → tc R n t → ∃ k', k' < k ∧ height_le R k' t).
  { clear k n. intros k n t Hk Htc. revert k Hk.
    induction Htc as [n t Hs|n m t Hs _ IH]; intros [|k] Hk; try (by destruct (Hk _ Hs)).
    - exists k. split; [lia|by apply Hk].
    - destruct (IH k (Hk _ Hs)) as (k' & ? & ?). exists k'. split; [lia|done]. }
  revert n. induction (lt_wf k) as [k _ IH]. intros n Hk Htc.
  destruct (Hstep k n n Hk Htc) as (k' & Hlt & Hk'). by apply (IH k' Hlt n).
Qed.

Lemma height_rtc R k n t : height_le R k n → rtc R n t → ∃ k', height_le R k' t.
Proof.
  intros Hk Hr. revert k Hk. induction Hr as [n|n m t Hs _ IH]; intros k Hk; [eauto|].
  destruct k as [|k]; [by destruct (Hk _ Hs)|]. by apply (IH k), Hk.
Qed.

Lemma dfs_edges_complete adj rec n es s :
  (∀ t s, adj_step adj n t → covers adj s → colors s !! t = Some WHITE →
     (∀ m, rtc (adj_step adj) t m → colors s !! m ≠ Some GRAY) →
     ∃ s', rec t s = Ok s' ∧ extends s s') →
  (∀ e, e ∈ es → e ∈ outgoing adj n) →
  covers adj s → (∀ m, tc (adj_step adj) n m → colors s !! m ≠ Some GRAY) →
  ∃ s', for_each (dfs_edge rec n) s es = Ok s' ∧ extends s s'.
Proof.
  intros Hrec Hes. revert s Hes. induction es as [|e es IH]; intros s Hes Hc Hg; cbn [for_each].
  { exists s. split; [done|apply extends_refl]. }
  assert (∃ s1, dfs_edge rec n s e = Ok s1 ∧ extends s s1) as (s1 & -> & He1).
  { unfold dfs_edge. destruct (toNodeId e) as [t|] eqn:Ht; [|eauto using extends_refl].
    assert (Hst : adj_step adj n t) by (exists e; split; [apply Hes; by left|done]).
    destruct (Hc n t Hst) as [[] Hct]; rewrite Hct; [|by destruct (Hg t (tc_once _ _ _ Hst))|eauto using extends_refl].
    apply Hrec; [done..|]. intros m Hm. apply Hg. eapply tc_rtc_r; [by apply tc_once|done]. }
  destruct (IH s1) as (s2 & Hl & He2); [intros; apply Hes; by right|by eapply covers_extends| |].
  { intros m Hm. rewrite (extends_gray _ _ _ He1). by apply Hg. }
  exists s2. split; [exact Hl|by eapply extends_trans].
Qed.

Lemma dfs_complete adj fuel depth k n s :
  k < fuel → depth + k ≤ PHASE1_MAX_DEPTH → height_le (adj_step adj) k n → covers adj s →
  colors s !! n = Some WHITE → (∀ m, rtc (adj_step adj) n m → colors s !! m ≠ Some GRAY) →
  ∃ s', dfs fuel adj depth n s = Ok s' ∧ extends s s'.
Proof.
  revert depth k n s. induction fuel as [|fuel IH]; intros depth k n s Hf Hd Hh Hc Hw Hg; [lia|].
  cbn. rewrite bool_decide_eq_false_2 by lia.
  destruct (dfs_edges_complete adj (dfs fuel adj (S depth)) n (outgoing adj n) (enter n depth s))
    as (s2 & -> & He).
  - intros t s0 Ht Hc0 Hw0 Hg0. destruct k as [|k]; [by destruct (Hh t)|].
    apply (IH _ k); try done; [lia..|by apply Hh].
  - done.
  - by apply covers_enter.
  - intros m Hm. cbn. rewrite lookup_insert. case_decide as Hnm.
    + subst. by destruct (height_acyclic _ _ _ Hh Hm).
    + apply Hg. by apply tc_rtc.
  - cbn. eexists. split; [done|by eapply extends_visit].
Qed.

Lemma for_each_err {S A E} (f : S → A → result E S) l s e :
  for_each f s l = Err e → ∃ s x, x ∈ l ∧ f s x = Err e.
Proof.
  revert s. induction l as [|x l IH]; intros s; cbn; [done|].
  destruct (f s x) as [s'|e'] eqn:Hf; cbn.
  - intros (s1 & y & ? & ?)%IH. exists s1, y. split; [by right|done].
  - intros [= <-]. exists s, x. split; [by left|done].
Qed.

Lemma dfs_has_fuel adj fuel depth n s :
  PHASE1_MAX_DEPTH + 2 ≤ fuel + depth → 0 < fuel → dfs fuel adj depth n s ≠ Err OutOfFuel.
Proof.
  revert depth n s. induction fuel as [|fuel IH]; intros depth n s Hf Hp; [lia|]. cbn.
  case_bool_decide; [done|]. destruct (for_each _ _ _) as [s2|e] eqn:Hl; cbn; [done|].
  intros [= ->]. apply for_each_err in Hl as (s0 & x & _ & He). revert He. unfold dfs_edge.
  destruct (toNodeId x) as [t|]; [|done]. destruct (colors s0 !! t) as [[]|]; [|done..].
  apply IH; unfold PHASE1_MAX_DEPTH in *; lia.
Qed.

(** The depth the search records is the length of a path from the root. *)
Lemma dfs_depth adj root fuel depth n s s' :
  let good s := maxDepth s ≤ PHASE1_MAX_DEPTH ∧ ∃ m, nsteps (adj_step adj) (maxDepth s) root m in
  nsteps (adj_step adj) depth root n → good s → dfs fuel adj depth n s = Ok s' → good s'.
Proof.
  intros good. revert depth n s s'. induction fuel as [|fuel IH]; intros depth n s s' Hn Hg; cbn; [done|].
  case_bool_decide as Hd; [done|]. intros (s2 & Hl & [= <-])%bind_ok.
  cut (good s2); [by unfold good; cbn|]. revert Hl. apply for_each_ind.
  - intros s0 e s1 He H0. unfold dfs_edge. destruct (toNodeId e) as [t|] eqn:Ht; [|by intros [= <-]].
    destruct (colors s0 !! t) as [[]|]; [|done|by intros [= <-]..].
    apply IH; [|done]. eapply nsteps_r; [done|]. by exists e.
  - unfold good; cbn. destruct Hg as [H1 [m H2]]. split; [lia|].
    destruct (Nat.max_spec (maxDepth s) depth) as [[_ ->]|[_ ->]]; eauto.
Qed.

(** ** The validator *)

(** What an accepted graph promises, beyond the search. *)
Record well_formed (g : IvrGraph) (entry : Z) : Prop := {
  wf_entry : entryNodeId g = Some entry ∧ entry ≠ 0%Z ∧ entry ∈ node_ids g;
  wf_closed : ∀ e, e ∈ edges g → edge_closed (node_ids g) e;
  wf_nodes : ∀ n, n ∈ nodes g → node_ok (out_edges g (id n)) (nodeType n);
}.

Lemma nodeMap_ids g i : is_Some (build_nodeMap (nodes g) !! i) ↔ i ∈ node_ids g.
Proof.
  unfold build_nodeMap. rewrite (keyed_lookup (λ n, n)), lookup_empty. split; [|auto].
  by intros [[]%is_Some_None|].
Qed.

Lemma all_white_lookup ns i :
  (colors (all_white ns) !! i = Some WHITE ↔ i ∈ id <$> ns) ∧
  (∀ c, colors (all_white ns) !! i = Some c → c = WHITE).
Proof.
  assert (Hw : ∀ c, colors (all_white ns) !! i = Some c → c = WHITE).
  { intros c. apply const_lookup. intros j w. by rewrite lookup_empty. }
  split; [|done]. cbn in *.
  pose proof (keyed_lookup (λ _, WHITE) ns ∅ i) as Hk. rewrite lookup_empty in Hk. split.
  - intros Hi. destruct Hk as [[[]%is_Some_None|] _]; eauto.
  - intros Hi. destruct (proj2 Hk (or_intror Hi)) as [c Hc]. by rewrite Hc, (Hw _ Hc).
Qed.

(** The map the edge loop fills is the graph. *)
Lemma adjacency_spec g adj :
  for_each (add_edge (build_nodeMap (nodes g))) (empty_adjacency (nodes g)) (edges g) = Ok adj →
  (∀ e, e ∈ edges g → edge_closed (node_ids g) e) ∧ ∀ n, outgoing adj n = out_edges g n.
Proof.
  intros (Hc & Hl)%add_edges_spec.
  assert (Hcl : ∀ e, e ∈ edges g → edge_closed (node_ids g) e).
  { intros e (Hf & Ht)%Hc. split; [by apply nodeMap_ids|].
    intros t H%Ht. by apply nodeMap_ids. }
  split; [done|]. intros n. unfold outgoing, out_edges. rewrite Hl.
  pose proof (keyed_lookup (λ _, [] : list ValidatorEdge) (nodes g) ∅ n) as Hk.
  unfold empty_adjacency. destruct (foldl _ _ _ !! n) as [l|] eqn:E.
  - apply const_lookup in E as ->; [done|]. intros j w. by rewrite lookup_empty.
  - cbn. destruct (filter _ _) as [|e l] eqn:Hf; [done|].
    assert (e ∈ filter (λ e, fromNodeId e = n) (edges g)) as [<- He]%list_elem_of_filter
      by (rewrite Hf; by left).
    destruct (proj2 Hk (or_intror (proj1 (Hcl e He)))) as [? [=]].
Qed.

Lemma adjacency_step g adj n t :
  (∀ n, outgoing adj n = out_edges g n) → (adj_step adj n t ↔ step g n t).
Proof.
  intros Ho. unfold adj_step, step. rewrite Ho. unfold out_edges.
  setoid_rewrite list_elem_of_filter. naive_solver.
Qed.

Lemma validate_unfold g d :
  validateIvrGraph g = Ok d ↔
  ∃ entry adj s, entryNodeId g = Some entry ∧ entry ≠ 0%Z ∧ entry ∈ node_ids g ∧
    for_each (add_edge (build_nodeMap (nodes g))) (empty_adjacency (nodes g)) (edges g) = Ok adj ∧
    for_each (check_node adj) () (nodes g) = Ok () ∧
    dfs dfs_fuel adj 0 entry (all_white (nodes g)) = Ok s ∧ maxDepth s = d.
Proof.
  unfold validateIvrGraph. split.
  - destruct (nodes g) as [|n0 ns] eqn:Hns; [done|]. rewrite <- Hns.
    destruct (entryNodeId g) as [entry|] eqn:Hen; [|done].
    destruct (decide (entry = 0%Z)) as [->|H0]; [done|].
    destruct entry; try done;
      (destruct (build_nodeMap (nodes g) !! _) eqn:Hnm; [|done];
       intros (adj & Ha & ([] & Hc & (s & Hd & [= <-])%bind_ok)%bind_ok)%bind_ok;
       do 3 eexists; split_and!; try done; apply nodeMap_ids; eauto).
  - intros (entry & adj & s & -> & H0 & Hi & Ha & Hc & Hd & <-).
    destruct (nodes g) as [|n0 ns] eqn:Hns; [unfold node_ids in Hi; rewrite Hns in Hi; by inversion Hi|].
    rewrite <- Hns in *. apply nodeMap_ids in Hi as [nd Hnd].
    unfold mbind, result_bind. destruct entry; try done; by rewrite Hnd, Ha, Hc, Hd.
Qed.

Lemma validate_well_formed g d :
  validateIvrGraph g = Ok d → ∃ entry, entryNodeId g = Some entry ∧ well_formed g entry.
Proof.
  intros (entry & adj & s & He & H0 & Hi & Ha & Hc & _)%validate_unfold.
  apply adjacency_spec in Ha as [Hcl Ho]. exists entry. split; [done|]. split; [done..|].
  intros n Hn. rewrite <- Ho. by apply (proj1 (check_nodes_ok adj (nodes g))).
Qed.

(** C21: An accepted IVR graph is well formed (its entry is a node, every edge
    joins nodes of the graph, every collecting node has its timeout and
    invalid-input edges and no terminal node has an edge) and no node a caller
    can reach lies on a cycle; the depth returned is the length of a real path
    from the entry and at most 3. *)
Theorem validate_sound g d :
  validateIvrGraph g = Ok d →
  ∃ entry, well_formed g entry ∧
    (∀ n, rtc (step g) entry n → ¬ tc (step g) n n) ∧
    d ≤ PHASE1_MAX_DEPTH ∧ ∃ n, nsteps (step g) d entry n.
Proof.
  intros (entry & adj & s & He & H0 & Hi & Ha & Hc & Hd & <-)%validate_unfold.
  apply adjacency_spec in Ha as [Hcl Ho].
  assert (HR : ∀ n t, adj_step adj n t ↔ step g n t) by (intros; by apply adjacency_step).
  exists entry. split; [|split].
  - split; [done..|]. intros n Hn. rewrite <- Ho. by apply (proj1 (check_nodes_ok adj (nodes g))).
  - pose proof Hd as Hs. apply (dfs_sound _ _ _ _ _ _ []) in Hs as (_ & l & _ & HT & Hin).
    + assert (HT' : Topo (step g) l).
      { clear Hin. induction HT; constructor; [done| |done]. intros t ?%HR. auto. }
      intros n Hr. apply (Topo_acyclic _ l); [done|]. specialize (Hin entry ltac:(set_solver)).
      apply rtc_tc in Hr as [<-|Hr]; [done|by eapply Topo_closed].
    + intros n t (e & Hout & Ht). rewrite Ho in Hout. apply list_elem_of_filter in Hout as [_ Hin].
      apply Hcl in Hin as [_ Hin]. apply Hin, (proj1 (all_white_lookup (nodes g) t)) in Ht. eauto.
    + by apply all_white_lookup.
    + intros m. split; [|by intros ?%not_elem_of_nil]. by intros ?%all_white_lookup.
    + constructor.
  - assert (Hn : ∀ k a b, nsteps (adj_step adj) k a b → nsteps (step g) k a b).
    { induction 1; econstructor; [by apply HR|done]. }
    destruct (dfs_depth adj entry dfs_fuel 0 entry (all_white (nodes g)) s) as [? [m Hm]];
      [constructor|split; [cbn; lia|exists entry; constructor]|done|]. eauto.
Qed.

(** Witness data: a root with two digits and the sentinel edges, three leaves. *)
Definition small_ivr : IvrGraph :=
  mkGraph (Some 1%Z)
    [mkNode 1 collect; mkNode 2 terminal_ingroup; mkNode 3 terminal_voicemail; mkNode 4 terminal_hangup]
    [mkEdge 1 "1" (Some 2%Z); mkEdge 1 "2" (Some 3%Z); mkEdge 1 "__TIMEOUT__" (Some 4%Z);
     mkEdge 1 "__INVALID_MAX__" None].

Lemma validate_sound_witness :
  ∃ entry, well_formed small_ivr entry ∧
    (∀ n, rtc (step small_ivr) entry n → ¬ tc (step small_ivr) n n) ∧
    1 ≤ PHASE1_MAX_DEPTH ∧ ∃ n, nsteps (step small_ivr) 1 entry n.
Proof. apply (validate_sound small_ivr 1). vm_compute. reflexivity. Defined.

(** The validator rejects no good graph and always answers: it never runs
    out of steps, and a well-formed graph all of whose paths from the entry have
    at most 3 edges is accepted. *)
Theorem validate_complete g entry :
  validateIvrGraph g ≠ Err OutOfFuel ∧
  (well_formed g entry → height_le (step g) PHASE1_MAX_DEPTH entry →
   ∃ d, validateIvrGraph g = Ok d).
Proof.
  split.
  - unfold validateIvrGraph. destruct (nodes g) as [|n0 ns] eqn:Hns; [done|]. rewrite <- Hns.
    destruct (entryNodeId g) as [[|p|p]|]; try done; (destruct (build_nodeMap _ !! _); [|done]);
      unfold mbind, result_bind;
      (destruct (for_each (add_edge _) _ _) as [adj|e] eqn:Ha;
        [|intros [= ->]; apply for_each_err in Ha as (? & x & _ & Hx); unfold add_edge in Hx;
          repeat case_match; done]);
      (destruct (for_each (check_node _) _ _) as [[]|e] eqn:Hc;
        [|intros [= ->]; apply for_each_err in Hc as (? & x & _ & Hx); unfold check_node in Hx;
          repeat case_match; done]);
      (destruct (dfs _ _ _ _ _) as [s|e] eqn:Hd; [done|]);
      intros [= ->]; revert Hd; apply dfs_has_fuel; unfold dfs_fuel; lia.
  - intros [(He & H0 & Hi) Hcl Hn] Hh.
    destruct (add_edges_complete (build_nodeMap (nodes g)) (edges g) (empty_adjacency (nodes g)))
      as [adj Ha].
    { intros e He'. destruct (Hcl e He') as [Hf Ht]. split; [by apply nodeMap_ids|].
      intros t ?%Ht. by apply nodeMap_ids. }
    pose proof (adjacency_spec _ _ Ha) as [_ Ho].
    assert (HR : ∀ n t, adj_step adj n t ↔ step g n t) by (intros; by apply adjacency_step).
    assert (Hh' : ∀ k n, height_le (step g) k n → height_le (adj_step adj) k n).
    { intros k. induction k as [|k IH]; intros n Hk t Ht%HR; [by eapply Hk|by apply IH, Hk]. }
    destruct (dfs_complete adj dfs_fuel 0 PHASE1_MAX_DEPTH entry (all_white (nodes g))) as (s & Hd & _).
    + unfold dfs_fuel; lia.
    + done.
    + by apply Hh'.
    + intros n t (e & Hout & Ht). rewrite Ho in Hout. apply list_elem_of_filter in Hout as [_ Hin].
      apply Hcl in Hin as [_ Hin]. apply Hin, (proj1 (all_white_lookup (nodes g) t)) in Ht. eauto.
    + by apply all_white_lookup.
    + intros m _ Hm. by apply all_white_lookup in Hm.
    + exists (maxDepth s). apply validate_unfold. exists entry, adj, s. split_and!; try done.
      apply check_nodes_ok. intros nd Hnd. rewrite Ho. by apply Hn.
Qed.

Lemma small_ivr_well_formed : well_formed small_ivr 1.
Proof.
  destruct (validate_well_formed small_ivr 1) as (entry & He & Hwf); [by vm_compute|].
  by injection He as <-.
Qed.

Lemma validate_complete_witness : ∃ d, validateIvrGraph small_ivr = Ok d.
Proof.
  apply (validate_complete small_ivr 1); [exact small_ivr_well_formed|].
  intros t (e & He & Hf & Ht). apply list_elem_of_In in He. cbn in He.
  repeat destruct He as [<-|He]; cbn in *; try done; injection Ht as <-; intros t' (e' & He' & Hf' & Ht');
    apply list_elem_of_In in He'; cbn in He'; repeat destruct He' as [<-|He']; cbn in *; done.
Defined.

(** A graph whose entry first reaches the end of a chain: node 1 lists the
    nodes of the chain 2 -> 3 -> ... -> 8 last to first, so each is already
    black when its predecessor is searched. *)
Definition sentinels (n : Z) : list ValidatorEdge :=
  [mkEdge n "__TIMEOUT__" None; mkEdge n "__INVALID_MAX__" None].

Definition deep_ivr : IvrGraph :=
  mkGraph (Some 1%Z)
    ((λ i, mkNode i collect) <$> [1; 2; 3; 4; 5; 6; 7; 8]%Z)
    (((λ t, mkEdge 1 (zs t) (Some t)) <$> [8; 7; 6; 5; 4; 3; 2]%Z) ++
     ((λ i, mkEdge i "1" (Some (i + 1)%Z)) <$> [2; 3; 4; 5; 6; 7]%Z) ++
     concat (sentinels <$> [1; 2; 3; 4; 5; 6; 7; 8]%Z)).

Lemma deep_step i t :
  existsb (λ e, (fromNodeId e =? i)%Z && bool_decide (toNodeId e = Some t)) (edges deep_ivr) = true →
  step deep_ivr i t.
Proof.
  intros (e & He & [Hf Ht%bool_decide_eq_true]%andb_true_iff)%existsb_exists.
  exists e. split_and!; [by apply list_elem_of_In|by apply Z.eqb_eq|done].
Qed.

(** The depth cap is not what the validator's header says: a graph with a
    path of 7 edges from its entry is accepted, with recorded depth 1, because
    the search does not revisit a black node at a greater depth. *)
Theorem depth_cap_missed :
  ∃ g entry n, validateIvrGraph g = Ok 1 ∧ well_formed g entry ∧
    nsteps (step g) 7 entry n ∧ PHASE1_MAX_DEPTH < 7.
Proof.
  assert (Hv : validateIvrGraph deep_ivr = Ok 1) by (vm_compute; reflexivity).
  exists deep_ivr, 1%Z, 8%Z. split_and!; [done| | |unfold PHASE1_MAX_DEPTH; lia].
  - apply validate_well_formed in Hv as (entry & He & Hwf). by injection He as <-.
  - assert (Hch : ∀ k i, (0 < i)%Z → (i + Z.of_nat k ≤ 8)%Z → nsteps (step deep_ivr) k i (i + Z.of_nat k)%Z).
    { induction k as [|k IH]; intros i Hp Hi; [rewrite Z.add_0_r; constructor|].
      apply (nsteps_l _ _ _ (i + 1)%Z).
      - apply deep_step. assert (i ∈ [1; 2; 3; 4; 5; 6; 7]%Z) as Hin.
        { assert (i = 1 ∨ i = 2 ∨ i = 3 ∨ i = 4 ∨ i = 5 ∨ i = 6 ∨ i = 7)%Z by lia. set_solver. }
        apply list_elem_of_In in Hin. repeat destruct Hin as [<-|Hin]; by vm_compute.
      - replace (i + Z.of_nat (S k))%Z with (i + 1 + Z.of_nat k)%Z by lia. apply IH; lia. }
    by apply (Hch 7 1%Z).
Qed.
