(* ===== verification/IvrXml.v ===== *)
(** The dialplan of an IVR, [api/src/services/ivr/XmlBuilder.ts]: the texts of the two files
    that the renderer writes.

    A document is a list of extensions, each a name, conditions and their actions; printing
    gives the text.  What an attribute holds is what the code puts there, escaped where the
    code escapes it. *)

From S2P Require Import Prelude Ivr.

(** ** Documents *)

Record DialAction := mkAction { ac_indent : nat; ac_application : string; ac_data : string }.

(** An action, or a condition within a condition, which has actions alone. *)
Inductive DialItem :=
  | one_action (a : DialAction)
  | inner_condition (indent : nat) (field expression : string) (actions : list DialAction).

(** [co_break]: whether the condition says [break="on-true"]. *)
Record DialCondition := mkCondition {
  co_indent : nat;
  co_field : string;
  co_expression : string;
  co_break : bool;
  co_items : list DialItem;
}.

Record Extension := mkExtension {
  ex_indent : nat;
  ex_comment : option string;
  ex_name : string;
  ex_conditions : list DialCondition;
}.

Definition dquote : ascii := "034".
Definition newline : ascii := "010".

Fixpoint spaces (n : nat) : string := match n with O => EmptyString | S m => String " " (spaces m) end.

Definition line (indent : nat) (s : string) : string := spaces indent +:+ s +:+ String newline EmptyString.

Definition attr (name value : string) : string :=
  name +:+ "=" +:+ String dquote (value +:+ String dquote EmptyString).

Definition concat_strings (l : list string) : string := String.concat EmptyString l.

Definition print_action (a : DialAction) : string :=
  line (ac_indent a) ("<action " +:+ attr "application" (ac_application a) +:+ " " +:+ attr "data" (ac_data a) +:+ "/>").

Definition open_condition (indent : nat) (field expression : string) (break : bool) : string :=
  line indent ("<condition " +:+ attr "field" field +:+ " " +:+ attr "expression" expression +:+
               (if break then " " +:+ attr "break" "on-true" else EmptyString) +:+ ">").

Definition print_item (i : DialItem) : string :=
  match i with
  | one_action a => print_action a
  | inner_condition indent field expression actions =>
      open_condition indent field expression true +:+ concat_strings (print_action <$> actions) +:+ line indent "</condition>"
  end.

Definition print_condition (c : DialCondition) : string :=
  open_condition (co_indent c) (co_field c) (co_expression c) (co_break c) +:+
  concat_strings (print_item <$> co_items c) +:+ line (co_indent c) "</condition>".

Definition print_extension (x : Extension) : string :=
  match ex_comment x with
  | Some comment => String newline EmptyString +:+ line (ex_indent x) ("<!-- " +:+ comment +:+ " -->")
  | None => EmptyString
  end +:+
  line (ex_indent x) ("<extension " +:+ attr "name" (ex_name x) +:+ " " +:+ attr "continue" "false" +:+ ">") +:+
  concat_strings (print_condition <$> ex_conditions x) +:+ line (ex_indent x) "</extension>".

(** The document around the extensions of a context. *)
Definition print_document (comment context : string) (xs : list Extension) : string :=
  line 0 ("<?xml " +:+ attr "version" "1.0" +:+ " " +:+ attr "encoding" "UTF-8" +:+ "?>") +:+
  line 0 "<!-- Generated by I02 IvrRenderer — DO NOT EDIT MANUALLY -->" +:+
  line 0 ("<!-- " +:+ comment +:+ " -->") +:+ line 0 "<include>" +:+ line 2 ("<context " +:+ attr "name" context +:+ ">") +:+
  concat_strings (print_extension <$> xs) +:+ line 2 "</context>" +:+ line 0 "</include>".

(** ** What is built *)

Record PromptVariant := mkPromptVariant { lang : string; localPath : string }.

Record BuilderNode := mkBuilderNode {
  b_id : Z;
  b_nodeType : IvrNodeType;
  b_name : string;
  b_collectMin : Z;
  b_collectMax : Z;
  b_collectTerminators : string;
  b_timeoutMs : Z;
  b_invalidMax : Z;
  b_actionTarget : option string;
  b_prompts : list PromptVariant;
}.

Record BuilderEdge := mkBuilderEdge {
  b_fromNodeId : Z;
  b_onInput : string;
  b_toNodeId : option Z;
  b_label : option string;
  b_sortOrder : Z;
}.

Record BuilderIvr := mkBuilderIvr { b_ivrId : Z; b_entryNodeId : Z; b_nodes : list BuilderNode; b_edges : list BuilderEdge }.

Record BuilderDid := mkBuilderDid {
  d_e164 : string;
  d_e164Digits : string;
  d_defaultLang : string;
  d_ivrTimeoutSec : Z;
  d_recordingDisclosureAudio : option string;
}.

Definition FS_IVR_SYS : string := "/var/lib/freeswitch/sounds/ivr/sys".

(** [s.replace(/c/g, by)] *)
Fixpoint replace_char (c : ascii) (by_ : string) (s : string) : string :=
  match s with
  | EmptyString => EmptyString
  | String d s' => if Ascii.eqb d c then by_ +:+ replace_char c by_ s' else String d (replace_char c by_ s')
  end.

Definition escXml (s : string) : string :=
  replace_char dquote "&quot;" (replace_char ">" "&gt;" (replace_char "<" "&lt;" (replace_char "&" "&amp;" s))).

Definition nodeExtName (ivrId nodeId : Z) : string := "ivr_" +:+ zs ivrId +:+ "_n" +:+ zs nodeId.

Definition node_type_name (t : IvrNodeType) : string :=
  match t with
  | collect => "collect"
  | lang_select => "lang_select"
  | terminal_ingroup => "terminal_ingroup"
  | terminal_hangup => "terminal_hangup"
  | terminal_voicemail => "terminal_voicemail"
  | terminal_transfer => "terminal_transfer"
  | terminal_callback => "terminal_callback"
  end.

Definition playback (indent : nat) (path : string) : DialAction := mkAction indent "playback" path.

Definition is_english (p : PromptVariant) : bool := String.eqb (lang p) "en".

Definition promptConditions (node : BuilderNode) : list DialItem :=
  match b_prompts node with
  | [] => [one_action (playback 4 (FS_IVR_SYS +:+ "/sys_invalid.wav"))]
  | prompts =>
      let nonEnPrompts := List.filter (λ p, negb (is_english p)) prompts in
      let fallbackPath := from_option localPath (FS_IVR_SYS +:+ "/sys_invalid.wav") (List.find is_english prompts) in
      ((λ p, inner_condition 4 "${vici2_ivr_lang}" ("^" +:+ escXml (lang p) +:+ "$") [playback 6 (escXml (localPath p))]) <$> nonEnPrompts) ++
      match nonEnPrompts with
      | _ :: _ => [inner_condition 4 "${vici2_ivr_lang}" "^.*$" [playback 6 (escXml fallbackPath)]]
      | [] => [one_action (playback 4 (escXml fallbackPath))]
      end
  end.

Definition set_var (indent : nat) (assignment : string) : DialAction := mkAction indent "set" assignment.
Definition to_default (extension : string) : string := extension +:+ " XML default".
Definition transfer (indent : nat) (extension : string) : DialAction := mkAction indent "transfer" (to_default extension).
Definition execute_extension (indent : nat) (extension : string) : DialAction :=
  mkAction indent "execute_extension" (to_default extension).

(** The actions on entering a node. *)
Definition visit (nodeId : Z) : list DialItem :=
  [one_action (set_var 6 ("vici2_ivr_node_id=" +:+ zs nodeId));
   one_action (set_var 6 ("vici2_ivr_path=${vici2_ivr_path}:" +:+ zs nodeId))].

Definition node_comment (kind : string) (node : BuilderNode) : string :=
  "=== " +:+ kind +:+ " " +:+ zs (b_id node) +:+ ": " +:+ escXml (b_name node) +:+ " (" +:+ node_type_name (b_nodeType node) +:+ ") ===".

Definition buildCollectExtension (ivrId : Z) (node : BuilderNode) : Extension :=
  let extName := nodeExtName ivrId (b_id node) in
  mkExtension 2 (Some (node_comment "Node" node)) extName
    [mkCondition 4 "destination_number" ("^" +:+ extName +:+ "$") false
       (visit (b_id node) ++ promptConditions node ++
        [one_action (mkAction 6 "read" (zs (b_collectMin node) +:+ " " +:+ zs (b_collectMax node) +:+ " '' ivr_digit_" +:+
                       zs (b_id node) +:+ " " +:+ zs (b_timeoutMs node) +:+ " " +:+ b_collectTerminators node));
         one_action (execute_extension 6 (extName +:+ "_branch"))])].

(** A target that is there and not 0. *)
Definition truthy_id (o : option Z) : option Z := match o with Some 0%Z => None | _ => o end.

Definition digit_field (nodeId : Z) : string := "${ivr_digit_" +:+ zs nodeId +:+ "}".

(** The conditions of one edge. *)
Definition edge_condition (ivrId : Z) (node : BuilderNode) (edge : BuilderEdge) : list DialCondition :=
  if String.eqb (b_onInput edge) "__TIMEOUT__" then []
  else if String.eqb (b_onInput edge) "__INVALID_MAX__" then []
  else
    let target := nodeExtName ivrId (default (b_id node) (truthy_id (b_toNodeId edge))) in
    [mkCondition 4 (digit_field (b_id node)) ("^" +:+ escXml (b_onInput edge) +:+ "$") true
       (one_action <$>
        [set_var 6 ("vici2_ivr_digits=${vici2_ivr_digits}:" +:+ escXml (b_onInput edge))] ++
        (if bool_decide (b_nodeType node = lang_select)
         then [set_var 6 ("vici2_ivr_lang=" +:+ escXml (if String.eqb (b_onInput edge) "1" then "en" else "es"))] else []) ++
        [transfer 6 target])].

Definition sort_edges (edges : list BuilderEdge) : list BuilderEdge := sort_by (λ a b, (b_sortOrder a <=? b_sortOrder b)%Z) edges.

Definition buildBranchExtension (ivrId : Z) (node : BuilderNode) (edges : list BuilderEdge) : Extension :=
  let extName := nodeExtName ivrId (b_id node) in
  let sorted := sort_edges edges in
  let timeout := e ← List.find (λ e, String.eqb (b_onInput e) "__TIMEOUT__") sorted; truthy_id (b_toNodeId e) in
  mkExtension 2 (Some ("=== Branch dispatcher for node " +:+ zs (b_id node) +:+ " ===")) (extName +:+ "_branch")
    ((sorted ≫= edge_condition ivrId node) ++
     match timeout with
     | Some t => [mkCondition 4 (digit_field (b_id node)) "^$" true [one_action (transfer 6 (nodeExtName ivrId t))]]
     | None => []
     end ++
     [mkCondition 4 (digit_field (b_id node)) "^.*$" true
        [one_action (set_var 6 "ivr_invalid_count=${expr(${ivr_invalid_count}+1)}");
         one_action (execute_extension 6 (extName +:+ "_invalid_check"))]]).

Definition buildInvalidCheckExtension (ivrId : Z) (node : BuilderNode) (edges : list BuilderEdge) : Extension :=
  let extName := nodeExtName ivrId (b_id node) in
  let invalidMaxEdge := e ← List.find (λ e, String.eqb (b_onInput e) "__INVALID_MAX__") edges; truthy_id (b_toNodeId e) in
  let maxTarget := from_option (nodeExtName ivrId) (FS_IVR_SYS +:+ "/sys_goodbye.wav") invalidMaxEdge in
  mkExtension 2 (Some ("=== Invalid count check for node " +:+ zs (b_id node) +:+ " ===")) (extName +:+ "_invalid_check")
    [mkCondition 4 "${ivr_invalid_count}" ("^([" +:+ zs (b_invalidMax node) +:+ "-9]|[1-9][0-9]+)$") true
       [one_action (set_var 6 "ivr_invalid_count=0"); one_action (transfer 6 maxTarget)];
     mkCondition 4 "${ivr_invalid_count}" "^.*$" true [one_action (transfer 6 extName)]].

(** [escXml(node.actionTarget ?? "")] *)
Definition target_text (node : BuilderNode) : string := escXml (default EmptyString (b_actionTarget node)).

Definition hangup (indent : nat) : DialAction := mkAction indent "hangup" "NORMAL_CLEARING".

Definition terminal_actions (node : BuilderNode) : list DialAction :=
  match b_nodeType node with
  | terminal_ingroup =>
      [set_var 6 ("vici2_ivr_exit_node=" +:+ zs (b_id node)); set_var 6 "vici2_ivr_exit_action=route_to_ingroup";
       set_var 6 ("vici2_ivr_exit_target=" +:+ target_text node); transfer 6 ("ingroup_" +:+ target_text node)]
  | terminal_hangup =>
      [playback 6 (match b_actionTarget node with
                   | None | Some EmptyString => FS_IVR_SYS +:+ "/sys_goodbye.wav"
                   | Some t => escXml t
                   end); hangup 6]
  | terminal_voicemail => [transfer 6 ("voicemail_" +:+ target_text node)]
  | terminal_transfer =>
      [set_var 6 "hangup_after_bridge=true"; mkAction 6 "bridge" ("sofia/gateway/${default_gateway}/" +:+ target_text node)]
  | terminal_callback =>
      [mkAction 6 "play_and_get_digits" ("1 1 1 8000 # " +:+ FS_IVR_SYS +:+ "/sys_callback_offer.wav " +:+ FS_IVR_SYS +:+
         "/sys_invalid.wav VICI2_CB_OPT \d 1000 ^1$");
       execute_extension 6 ("ivr_callback_dispatch_" +:+ zs (b_id node))]
  | _ => [hangup 6]
  end.

Definition buildTerminalExtension (ivrId : Z) (node : BuilderNode) : Extension :=
  let extName := nodeExtName ivrId (b_id node) in
  mkExtension 2 (Some (node_comment "Terminal node" node)) extName
    [mkCondition 4 "destination_number" ("^" +:+ extName +:+ "$") false (visit (b_id node) ++ (one_action <$> terminal_actions node))].

Definition buildCallbackDispatchExtension (node : BuilderNode) : Extension :=
  mkExtension 2 (Some ("=== Callback dispatch for node " +:+ zs (b_id node) +:+ " ===")) ("ivr_callback_dispatch_" +:+ zs (b_id node))
    [mkCondition 4 "${VICI2_CB_OPT}" "^1$" true
       (one_action <$>
        [set_var 6 ("vici2_callback_ingroup=" +:+ target_text node);
         mkAction 6 "api" "bgapi uuid_broadcast ${uuid} execute::curl http://api:3000/internal/ivr/callback_accept/${uuid}";
         playback 6 (FS_IVR_SYS +:+ "/sys_callback_confirmed.wav"); hangup 6]);
     mkCondition 4 "${VICI2_CB_OPT}" "^.*$" true [one_action (transfer 6 ("ingroup_" +:+ target_text node))]].

(** The edges that leave a node, in their order. *)
Definition node_edges (ivr : BuilderIvr) (node : BuilderNode) : list BuilderEdge :=
  List.filter (λ e, (b_fromNodeId e =? b_id node)%Z) (b_edges ivr).

Definition node_extensions (ivr : BuilderIvr) (node : BuilderNode) : list Extension :=
  if bool_decide (b_nodeType node ∈ TERMINAL_NODE_TYPES) then
    buildTerminalExtension (b_ivrId ivr) node ::
    (if bool_decide (b_nodeType node = terminal_callback) then [buildCallbackDispatchExtension node] else [])
  else
    [buildCollectExtension (b_ivrId ivr) node; buildBranchExtension (b_ivrId ivr) node (node_edges ivr node);
     buildInvalidCheckExtension (b_ivrId ivr) node (node_edges ivr node)].

Definition default_extensions (ivr : BuilderIvr) : list Extension := b_nodes ivr ≫= node_extensions ivr.

Definition buildDefaultContextXml (ivr : BuilderIvr) : string :=
  print_document ("IVR ID: " +:+ zs (b_ivrId ivr)) "default" (default_extensions ivr).

Definition public_extension (did : BuilderDid) (ivr : BuilderIvr) : Extension :=
  let digits := d_e164Digits did in
  mkExtension 4 None ("did_" +:+ digits)
    [mkCondition 6 "destination_number" ("^\+?" +:+ digits +:+ "$") false
       (one_action <$>
        [set_var 8 "vici2_tenant_id=${domain_name}"; set_var 8 "vici2_role=inbound";
         set_var 8 ("vici2_did_e164=" +:+ escXml (d_e164 did)); set_var 8 ("vici2_ivr_id=" +:+ zs (b_ivrId ivr));
         set_var 8 ("vici2_ivr_lang=" +:+ escXml (d_defaultLang did)); set_var 8 "vici2_ivr_path="; set_var 8 "vici2_ivr_digits=";
         set_var 8 "ivr_invalid_count=0"; mkAction 8 "sched_transfer" ("+" +:+ zs (d_ivrTimeoutSec did) +:+ " hangup XML default")] ++
        match d_recordingDisclosureAudio did with
        | None | Some EmptyString => []
        | Some audio => [playback 4 (escXml audio)]
        end ++
        [transfer 8 (nodeExtName (b_ivrId ivr) (b_entryNodeId ivr))])].

Definition buildPublicContextXml (did : BuilderDid) (ivr : BuilderIvr) : string :=
  print_document ("DID: " +:+ d_e164 did +:+ " → IVR " +:+ zs (b_ivrId ivr)) "public" [public_extension did ivr].
