(* ===== verification/IvrDialplan.v ===== *)
(** The dialplan that an IVR is rendered to, [IvrXml], against the graph that was validated:
    texts are escaped, names are distinct, a call goes along the graph's edges.

    What FreeSWITCH does with a dialplan is its documented behaviour: the conditions of an
    extension in their order, the first that matches; matching is a parameter ([Matcher]),
    known for the expressions that the builder writes. *)

From Stdlib Require Import DecimalString.
From Stdlib Require DecimalFacts DecimalN.
From S2P Require Import Prelude Ivr IvrXml Paging.

(** ** Escaping *)

(** What a character becomes. *)
Definition esc_char (c : ascii) : string :=
  if Ascii.eqb c "&" then "&amp;" else if Ascii.eqb c "<" then "&lt;" else if Ascii.eqb c ">" then "&gt;"
  else if Ascii.eqb c dquote then "&quot;" else char c.

Lemma replace_char_app c r s t : replace_char c r (s +:+ t) = replace_char c r s +:+ replace_char c r t.
Proof.
  induction s as [|d s IH]; [done|]. rewrite string_app_cons. cbn [replace_char].
  destruct (Ascii.eqb d c); rewrite IH; by autorewrite with strs.
Qed.

Lemma escXml_app s t : escXml (s +:+ t) = escXml s +:+ escXml t.
Proof. unfold escXml. by rewrite !replace_char_app. Qed.

Lemma escXml_char c : escXml (char c) = esc_char c.
Proof.
  unfold escXml, esc_char, char. cbn [replace_char].
  destruct (Ascii.eqb_spec c "&") as [->|H1]; [reflexivity|].
  cbn [replace_char]. destruct (Ascii.eqb_spec c "<") as [->|H2]; [reflexivity|].
  cbn [replace_char]. destruct (Ascii.eqb_spec c ">") as [->|H3]; [reflexivity|].
  cbn [replace_char]. by destruct (Ascii.eqb_spec c dquote) as [->|H4].
Qed.

Lemma escXml_cons c s : escXml (String c s) = esc_char c +:+ escXml s.
Proof. by rewrite <- escXml_char, <- escXml_app. Qed.

(** The characters that entities stand for, and what a reader of XML makes of a value. *)
Definition entity (name : string) : option ascii :=
  if String.eqb name "amp" then Some "&"%char else if String.eqb name "lt" then Some "<"%char
  else if String.eqb name "gt" then Some ">"%char else if String.eqb name "quot" then Some dquote else None.

Fixpoint read_xml (name : option string) (s : string) : option string :=
  match s with
  | EmptyString => match name with None => Some EmptyString | Some _ => None end
  | String c s' =>
      match name with
      | None => if Ascii.eqb c "&" then read_xml (Some EmptyString) s' else String c <$> read_xml None s'
      | Some n => if Ascii.eqb c ";" then d ← entity n; String d <$> read_xml None s' else read_xml (Some (n +:+ char c)) s'
      end
  end.

(** No character that ends a value or opens a tag. *)
Definition xml_text (s : string) : bool := lacks "<" s && lacks dquote s.

Lemma xml_text_app s t : xml_text (s +:+ t) = xml_text s && xml_text t.
Proof. unfold xml_text. rewrite !lacks_app. destruct (lacks "<" s), (lacks dquote s), (lacks "<" t), (lacks dquote t); done. Qed.

Lemma esc_char_text c : xml_text (esc_char c) = true.
Proof.
  unfold esc_char. do 4 (match goal with |- context [Ascii.eqb c ?d] => destruct (Ascii.eqb_spec c d) as [|?H]; [done|] end).
  unfold xml_text, lacks, char. cbn [string_forallb].
  destruct (Ascii.eqb_spec "<" c) as [<-|]; [done|]. by destruct (Ascii.eqb_spec dquote c) as [<-|].
Qed.

Lemma escXml_text s : xml_text (escXml s) = true.
Proof. induction s as [|c s IH]; [done|]. by rewrite escXml_cons, xml_text_app, esc_char_text, IH. Qed.

Lemma read_esc_char c s : read_xml None (esc_char c +:+ s) = String c <$> read_xml None s.
Proof.
  unfold esc_char. destruct (Ascii.eqb_spec c "&") as [->|H1]; [done|]. destruct (Ascii.eqb_spec c "<") as [->|H2]; [done|].
  destruct (Ascii.eqb_spec c ">") as [->|H3]; [done|]. destruct (Ascii.eqb_spec c dquote) as [->|H4]; [done|].
  unfold char. autorewrite with strs. cbn [read_xml]. by destruct (Ascii.eqb_spec c "&").
Qed.

(** Escaping keeps every text, and lets none end the value it is put into: what a reader of XML makes of
    [escXml(s)] is [s], and neither a quote nor [<] is in it. *)
Theorem escape_roundtrip s : read_xml None (escXml s) = Some s ∧ xml_text (escXml s) = true.
Proof.
  split; [|apply escXml_text]. induction s as [|c s IH]; [done|]. by rewrite escXml_cons, read_esc_char, IH.
Qed.

(** ** Names *)

Definition actions_of (i : DialItem) : list DialAction :=
  match i with one_action a => [a] | inner_condition _ _ _ l => l end.

Definition extension_actions (x : Extension) : list DialAction := ex_conditions x ≫= λ c, co_items c ≫= actions_of.

(** Where an action sends a call. *)
Definition jump (a : DialAction) (extension : string) : Prop :=
  (ac_application a = "transfer" ∨ ac_application a = "execute_extension") ∧ ac_data a = to_default extension.

Definition jumps (x : Extension) (extension : string) : Prop := ∃ a, a ∈ extension_actions x ∧ jump a extension.

Lemma to_default_inj s t : to_default s = to_default t → s = t.
Proof. unfold to_default. intros H. by apply app_suffix_inj in H as [-> _]. Qed.

Inductive ext_kind := on_entering | on_branching | on_invalid | on_callback.

#[export] Instance ext_kind_eq_dec : EqDecision ext_kind.
Proof. solve_decision. Defined.

Definition name_of (k : ext_kind) (ivrId nodeId : Z) : string :=
  match k with
  | on_entering => nodeExtName ivrId nodeId
  | on_branching => nodeExtName ivrId nodeId +:+ "_branch"
  | on_invalid => nodeExtName ivrId nodeId +:+ "_invalid_check"
  | on_callback => "ivr_callback_dispatch_" +:+ zs nodeId
  end.

Lemma lacks_underscore n : lacks "_" (zs n) = true.
Proof. by apply zs_lacks. Qed.

(** A number and what follows it after an underscore, or nothing. *)
Lemma number_then_inj n m s t :
  (s = EmptyString ∨ ∃ s', s = String "_" s') → (t = EmptyString ∨ ∃ t', t = String "_" t') →
  zs n +:+ s = zs m +:+ t → n = m ∧ s = t.
Proof.
  pose proof (lacks_underscore n) as Hn. pose proof (lacks_underscore m) as Hm.
  intros [->|[s' ->]] [->|[t' ->]]; rewrite ?string_app_nil_r; intros H.
  - split; [by apply (inj zs)|done].
  - rewrite H, lacks_app in Hn. cbn in Hn. by rewrite andb_false_r in Hn.
  - rewrite <- H, lacks_app in Hm. cbn in Hm. by rewrite andb_false_r in Hm.
  - apply app_sep_inj in H as [H1 H2]; [|done..]. apply (inj zs) in H1. by subst.
Qed.

Definition kind_suffix (k : ext_kind) : string :=
  match k with on_branching => "_branch" | on_invalid => "_invalid_check" | _ => EmptyString end.

Lemma name_of_node k ivrId n :
  k ≠ on_callback → name_of k ivrId n = "ivr_" +:+ (zs ivrId +:+ String "_" ("n" +:+ (zs n +:+ kind_suffix k))).
Proof. destruct k; [..|done]; intros _; unfold name_of, nodeExtName; autorewrite with strs; by rewrite ?string_app_nil_r. Qed.

Lemma ivr_prefix s t : "ivr_" +:+ s = "ivr_" +:+ t → s = t.
Proof. intros H. by injection H. Qed.

Lemma kind_suffix_shape k : kind_suffix k = EmptyString ∨ ∃ s, kind_suffix k = String "_" s.
Proof. destruct k; cbn; eauto. Qed.

(** Names tell the node, and the extensions of a node. *)
Lemma name_of_inj k l ivrId n m : name_of k ivrId n = name_of l ivrId m → k = l ∧ n = m.
Proof.
  assert (Hcb : ∀ k m n, k ≠ on_callback → name_of k ivrId n ≠ name_of on_callback ivrId m).
  { clear. intros k m n Hk. rewrite name_of_node by done. cbn [name_of].
    intros H%(ivr_prefix _ ("callback_dispatch_" +:+ zs m)). pose proof (zs_chars ivrId) as Hd.
    pose proof (zs_nonempty ivrId). destruct (zs ivrId) as [|c s]; [done|].
    autorewrite with strs in H. injection H as -> _. done. }
  destruct (decide (k = on_callback)) as [->|Hk], (decide (l = on_callback)) as [->|Hl].
  - cbn [name_of]. intros H. split; [done|]. apply (inj zs). by injection H.
  - by intros H%eq_sym%Hcb.
  - by intros H%Hcb.
  - rewrite !name_of_node by done. intros H%ivr_prefix.
    apply app_sep_inj in H as [_ H]; [|apply lacks_underscore..]. injection H as H.
    apply number_then_inj in H as [-> H]; [|apply kind_suffix_shape..]. split; [|done].
    destruct k, l; done.
Qed.

(** What the names of a node's extensions are. *)
Definition node_kinds (node : BuilderNode) : list ext_kind :=
  if bool_decide (b_nodeType node ∈ TERMINAL_NODE_TYPES) then
    on_entering :: (if bool_decide (b_nodeType node = terminal_callback) then [on_callback] else [])
  else [on_entering; on_branching; on_invalid].

Lemma node_extension_names ivr node :
  ex_name <$> node_extensions ivr node = (λ k, name_of k (b_ivrId ivr) (b_id node)) <$> node_kinds node.
Proof.
  unfold node_extensions, node_kinds. case_bool_decide; [|done]. by case_bool_decide.
Qed.

Lemma elem_of_names ivr s :
  s ∈ ex_name <$> default_extensions ivr ↔
  ∃ node k, node ∈ b_nodes ivr ∧ k ∈ node_kinds node ∧ s = name_of k (b_ivrId ivr) (b_id node).
Proof.
  unfold default_extensions. rewrite list_elem_of_fmap. setoid_rewrite list_elem_of_bind. split.
  - intros (x & -> & node & Hx & Hn).
    assert (ex_name x ∈ ex_name <$> node_extensions ivr node) as Hs by (apply list_elem_of_fmap; eauto).
    rewrite node_extension_names in Hs. apply list_elem_of_fmap in Hs as (k & -> & Hk). eauto.
  - intros (node & k & Hn & Hk & ->).
    assert (name_of k (b_ivrId ivr) (b_id node) ∈ ex_name <$> node_extensions ivr node) as Hs
      by (rewrite node_extension_names; apply list_elem_of_fmap; eauto).
    apply list_elem_of_fmap in Hs as (x & -> & Hx). eauto 6.
Qed.

Lemma node_kinds_distinct node : NoDup (node_kinds node).
Proof. unfold node_kinds. repeat case_bool_decide; repeat constructor; set_solver. Qed.

Lemma entering_kind node : on_entering ∈ node_kinds node.
Proof. unfold node_kinds. case_bool_decide; by left. Qed.

Lemma extension_names ivr : NoDup (b_id <$> b_nodes ivr) → NoDup (ex_name <$> default_extensions ivr).
Proof.
  intros Hnd. unfold default_extensions.
  assert (ex_name <$> (b_nodes ivr ≫= node_extensions ivr) =
          b_nodes ivr ≫= λ node, (λ k, name_of k (b_ivrId ivr) (b_id node)) <$> node_kinds node) as ->.
  { clear Hnd. induction (b_nodes ivr) as [|node ns IH]; [done|].
    cbn [mbind list_bind]. by rewrite fmap_app, IH, node_extension_names. }
  apply NoDup_bind.
  - intros n1 n2 s H1 H2 (k1 & -> & _)%list_elem_of_fmap (k2 & E & _)%list_elem_of_fmap.
    apply name_of_inj in E as [_ E]. apply list_elem_of_lookup in H1 as [i Hi], H2 as [j Hj].
    assert (i = j) as ->; [|congruence]. eapply (NoDup_lookup _ _ _ (b_id n1) Hnd); rewrite list_lookup_fmap.
    + by rewrite Hi.
    + by rewrite Hj, E.
  - intros node _. apply NoDup_fmap_2_strong; [|apply node_kinds_distinct].
    intros k l _ _ H. by apply name_of_inj in H as [-> _].
  - by apply NoDup_fmap_1 in Hnd.
Qed.

(** ** Jumps *)

Definition leads (t : string) (l : list DialAction) : Prop := Exists (λ a, jump a t) l.
Definition item_leads (t : string) (i : DialItem) : Prop := leads t (actions_of i).
Definition condition_leads (t : string) (c : DialCondition) : Prop := Exists (item_leads t) (co_items c).

Lemma Exists_bind {A B} (P : B → Prop) (f : A → list B) l : Exists P (l ≫= f) ↔ Exists (λ a, Exists P (f a)) l.
Proof.
  induction l as [|a l IH]; [by rewrite !Exists_nil|]. cbn [mbind list_bind]. by rewrite Exists_app, Exists_cons, IH.
Qed.

Lemma Exists_equiv {A} (P Q : A → Prop) l : (∀ a, P a ↔ Q a) → Exists P l ↔ Exists Q l.
Proof. intros H. rewrite !Exists_exists. by setoid_rewrite H. Qed.

Lemma jumps_conditions x t : jumps x t ↔ Exists (condition_leads t) (ex_conditions x).
Proof.
  unfold jumps, extension_actions. rewrite <- Exists_exists, Exists_bind. apply Exists_equiv. intros c.
  unfold condition_leads. by rewrite Exists_bind.
Qed.

Lemma jump_transfer n x t : jump (transfer n x) t ↔ t = x.
Proof.
  unfold jump. cbn. split; [by intros [_ H%to_default_inj]|]. intros ->. auto.
Qed.

Lemma jump_execute n x t : jump (execute_extension n x) t ↔ t = x.
Proof. unfold jump. cbn. split; [by intros [_ H%to_default_inj]|]. intros ->. auto. Qed.

Lemma jump_set n x t : jump (set_var n x) t ↔ False.
Proof. unfold jump. cbn. by split; [intros [[]]|]. Qed.

Lemma jump_playback n x t : jump (playback n x) t ↔ False.
Proof. unfold jump. cbn. by split; [intros [[]]|]. Qed.

Lemma jump_other n app x t : app ≠ "transfer" → app ≠ "execute_extension" → jump (mkAction n app x) t ↔ False.
Proof. unfold jump. cbn. intros H1 H2. by split; [intros [[] _]|]. Qed.

Lemma item_leads_one t a : item_leads t (one_action a) ↔ jump a t.
Proof. unfold item_leads, leads. cbn. rewrite Exists_cons, Exists_nil. tauto. Qed.

Lemma items_leads t l : Exists (item_leads t) (one_action <$> l) ↔ leads t l.
Proof. rewrite Exists_fmap. apply Exists_equiv. apply item_leads_one. Qed.

Create HintDb jumps.
#[local] Hint Rewrite @Exists_cons @Exists_nil @Exists_app item_leads_one items_leads jump_transfer jump_execute jump_set jump_playback
  using done : jumps.
#[local] Hint Rewrite jump_other using done : jumps.

Lemma visit_leads t n : Exists (item_leads t) (visit n) ↔ False.
Proof. unfold visit. autorewrite with jumps. tauto. Qed.

Lemma prompts_lead t node : Exists (item_leads t) (promptConditions node) ↔ False.
Proof.
  unfold promptConditions. destruct (b_prompts node) as [|p ps]; [autorewrite with jumps; tauto|].
  rewrite Exists_app, Exists_fmap.
  assert (∀ l, Exists (item_leads t ∘ (λ p, inner_condition 4 "${vici2_ivr_lang}" ("^" +:+ escXml (lang p) +:+ "$")
     [playback 6 (escXml (localPath p))])) l ↔ False) as ->.
  { intros l. split; [|done]. intros (q & _ & Hq)%Exists_exists. revert Hq. unfold compose, item_leads, leads.
    cbn [actions_of]. autorewrite with jumps. tauto. }
  destruct (List.filter _ _); unfold item_leads, leads; cbn [actions_of]; autorewrite with jumps; cbn; autorewrite with jumps; tauto.
Qed.

Lemma collect_jumps i node t : jumps (buildCollectExtension i node) t ↔ t = name_of on_branching i (b_id node).
Proof.
  rewrite jumps_conditions. cbn [buildCollectExtension ex_conditions]. rewrite Exists_cons, Exists_nil.
  unfold condition_leads at 1. cbn [co_items]. rewrite !Exists_app, visit_leads, prompts_lead.
  autorewrite with jumps. cbn [name_of]. tauto.
Qed.

(** The inputs that are not keys. *)
Definition sentinel (s : string) : bool := String.eqb s "__TIMEOUT__" || String.eqb s "__INVALID_MAX__".

(** The target of the edge for an input, in an order. *)
Definition target_on (input : string) (edges : list BuilderEdge) : option Z :=
  e ← List.find (λ e, String.eqb (b_onInput e) input) edges; truthy_id (b_toNodeId e).

(** Where an edge for a key leads. *)
Definition key_target (node : BuilderNode) (e : BuilderEdge) : Z := default (b_id node) (truthy_id (b_toNodeId e)).

Lemma edge_condition_leads i node e t :
  Exists (condition_leads t) (edge_condition i node e) ↔
  sentinel (b_onInput e) = false ∧ t = nodeExtName i (key_target node e).
Proof.
  unfold edge_condition, sentinel. destruct (String.eqb (b_onInput e) "__TIMEOUT__"); cbn [orb]; [by rewrite Exists_nil; split; [|intros []]|].
  destruct (String.eqb (b_onInput e) "__INVALID_MAX__"); [by rewrite Exists_nil; split; [|intros []]|].
  rewrite Exists_cons, Exists_nil. unfold condition_leads. cbn [co_items]. rewrite items_leads. unfold leads.
  rewrite !Exists_app. case_bool_decide; autorewrite with jumps; unfold key_target; tauto.
Qed.

Lemma branch_jumps i node edges t :
  jumps (buildBranchExtension i node edges) t ↔
  (∃ e, e ∈ edges ∧ sentinel (b_onInput e) = false ∧ t = nodeExtName i (key_target node e)) ∨
  (∃ n, target_on "__TIMEOUT__" (sort_edges edges) = Some n ∧ t = nodeExtName i n) ∨
  t = name_of on_invalid i (b_id node).
Proof.
  rewrite jumps_conditions. cbn [buildBranchExtension ex_conditions]. rewrite !Exists_app, Exists_cons, Exists_nil, Exists_bind.
  assert (Exists (λ e, Exists (condition_leads t) (edge_condition i node e)) (sort_edges edges) ↔
          ∃ e, e ∈ edges ∧ sentinel (b_onInput e) = false ∧ t = nodeExtName i (key_target node e)) as ->.
  { rewrite Exists_exists. unfold sort_edges. setoid_rewrite elem_of_sort_by. by setoid_rewrite edge_condition_leads. }
  unfold condition_leads at 2. cbn [co_items]. autorewrite with jumps. fold (target_on "__TIMEOUT__" (sort_edges edges)).
  destruct (target_on "__TIMEOUT__" (sort_edges edges)) as [n|].
  - rewrite Exists_cons, Exists_nil. unfold condition_leads. cbn [co_items]. autorewrite with jumps. cbn [name_of]. naive_solver.
  - rewrite Exists_nil. cbn [name_of]. naive_solver.
Qed.

(** Where too many wrong inputs lead. *)
Definition invalid_target (i : Z) (edges : list BuilderEdge) : string :=
  from_option (nodeExtName i) (FS_IVR_SYS +:+ "/sys_goodbye.wav") (target_on "__INVALID_MAX__" edges).

Lemma invalid_jumps i node edges t :
  jumps (buildInvalidCheckExtension i node edges) t ↔ t = invalid_target i edges ∨ t = nodeExtName i (b_id node).
Proof.
  rewrite jumps_conditions. cbn [buildInvalidCheckExtension ex_conditions]. rewrite !Exists_cons, Exists_nil.
  unfold condition_leads. cbn [co_items]. autorewrite with jumps. unfold invalid_target, target_on. naive_solver.
Qed.

(** Where a terminal node leads. *)
Definition terminal_exit (node : BuilderNode) : option string :=
  match b_nodeType node with
  | terminal_ingroup => Some ("ingroup_" +:+ target_text node)
  | terminal_voicemail => Some ("voicemail_" +:+ target_text node)
  | terminal_callback => Some (name_of on_callback 0 (b_id node))
  | _ => None
  end.

Lemma terminal_jumps i node t : jumps (buildTerminalExtension i node) t ↔ terminal_exit node = Some t.
Proof.
  rewrite jumps_conditions. cbn [buildTerminalExtension ex_conditions]. rewrite Exists_cons, Exists_nil.
  unfold condition_leads. cbn [co_items]. rewrite Exists_app, visit_leads, items_leads.
  unfold leads, terminal_actions, terminal_exit, hangup. destruct (b_nodeType node); autorewrite with jumps; naive_solver.
Qed.

Lemma callback_jumps node t : jumps (buildCallbackDispatchExtension node) t ↔ t = "ingroup_" +:+ target_text node.
Proof.
  rewrite jumps_conditions. cbn [buildCallbackDispatchExtension ex_conditions]. rewrite !Exists_cons, Exists_nil.
  unfold condition_leads. cbn [co_items]. rewrite items_leads. unfold leads, hangup. autorewrite with jumps. tauto.
Qed.

(** ** The dialplan and the graph *)

(** The graph that is validated, of an IVR that is built. *)
Definition graph_of (ivr : BuilderIvr) : IvrGraph :=
  mkGraph (Some (b_entryNodeId ivr)) ((λ n, mkNode (b_id n) (b_nodeType n)) <$> b_nodes ivr)
    ((λ e, mkEdge (b_fromNodeId e) (b_onInput e) (b_toNodeId e)) <$> b_edges ivr).

Lemma graph_ids ivr : node_ids (graph_of ivr) = b_id <$> b_nodes ivr.
Proof. unfold node_ids. cbn [graph_of nodes]. by rewrite <- list_fmap_compose. Qed.

Lemma elem_of_node_edges ivr node e : e ∈ node_edges ivr node ↔ e ∈ b_edges ivr ∧ b_fromNodeId e = b_id node.
Proof. unfold node_edges. by rewrite elem_of_filter_list, Z.eqb_eq. Qed.

Lemma truthy_id_some o n : truthy_id o = Some n ↔ o = Some n ∧ n ≠ 0%Z.
Proof. destruct o as [[]|]; cbn; naive_solver. Qed.

Lemma target_on_some input edges n :
  target_on input edges = Some n → ∃ e, e ∈ edges ∧ b_onInput e = input ∧ b_toNodeId e = Some n.
Proof.
  unfold target_on. intros (e & [He Hi]%List.find_some & [Ht _]%truthy_id_some)%bind_Some.
  exists e. split; [by apply list_elem_of_In|]. by apply String.eqb_eq in Hi.
Qed.

Lemma graph_edge ivr e n :
  e ∈ b_edges ivr → b_toNodeId e = Some n → step (graph_of ivr) (b_fromNodeId e) n.
Proof. intros He Hn. eexists. split; [cbn; apply list_elem_of_fmap_2, He|done]. Qed.

(** A target of an edge is a node. *)
Lemma target_known ivr d e n :
  validateIvrGraph (graph_of ivr) = Ok d → e ∈ b_edges ivr → b_toNodeId e = Some n →
  ∃ node, node ∈ b_nodes ivr ∧ b_id node = n.
Proof.
  intros (? & _ & [_ Hc _])%validate_well_formed He Hn.
  destruct (Hc _ (list_elem_of_fmap_2 (λ e, mkEdge (b_fromNodeId e) (b_onInput e) (b_toNodeId e)) _ _ He)) as [_ Ht].
  specialize (Ht n Hn). rewrite graph_ids in Ht. apply list_elem_of_fmap in Ht as (node & -> & Hnode). eauto.
Qed.

Lemma entering_name ivr node : node ∈ b_nodes ivr → nodeExtName (b_ivrId ivr) (b_id node) ∈ ex_name <$> default_extensions ivr.
Proof. intros Hn. apply elem_of_names. exists node, on_entering. split_and!; [done|apply entering_kind|done]. Qed.

Lemma kind_name ivr node k :
  node ∈ b_nodes ivr → k ∈ node_kinds node → name_of k (b_ivrId ivr) (b_id node) ∈ ex_name <$> default_extensions ivr.
Proof. intros Hn Hk. apply elem_of_names. eauto. Qed.

Lemma key_target_known ivr d node e :
  validateIvrGraph (graph_of ivr) = Ok d → node ∈ b_nodes ivr → e ∈ node_edges ivr node →
  ∃ node', node' ∈ b_nodes ivr ∧ b_id node' = key_target node e.
Proof.
  intros Hv Hn [He _]%elem_of_node_edges. unfold key_target. destruct (truthy_id (b_toNodeId e)) as [n|] eqn:Ht; cbn.
  - apply truthy_id_some in Ht as [Ht _]. by eapply target_known.
  - eauto.
Qed.

(** An extension is one of a node's. *)
Lemma extension_cases ivr x :
  x ∈ default_extensions ivr →
  ∃ node, node ∈ b_nodes ivr ∧
    (b_nodeType node ∉ TERMINAL_NODE_TYPES ∧
       (x = buildCollectExtension (b_ivrId ivr) node ∨
        x = buildBranchExtension (b_ivrId ivr) node (node_edges ivr node) ∨
        x = buildInvalidCheckExtension (b_ivrId ivr) node (node_edges ivr node)) ∨
     b_nodeType node ∈ TERMINAL_NODE_TYPES ∧
       (x = buildTerminalExtension (b_ivrId ivr) node ∨
        b_nodeType node = terminal_callback ∧ x = buildCallbackDispatchExtension node)).
Proof.
  unfold default_extensions. intros (node & Hx & Hn)%list_elem_of_bind. exists node. split; [done|].
  unfold node_extensions in Hx. case_bool_decide as Ht.
  - right. split; [done|]. apply elem_of_cons in Hx as [->|Hx]; [by left|]. right. case_bool_decide; set_solver.
  - left. split; [done|]. set_solver.
Qed.

(** What leaves the IVR: in-groups, voicemail boxes, and the text after too many wrong inputs
    when no edge says where to. *)
Definition leaves_ivr (ivr : BuilderIvr) (t : string) : Prop :=
  (∃ node, node ∈ b_nodes ivr ∧ (t = "ingroup_" +:+ target_text node ∨ t = "voicemail_" +:+ target_text node)) ∨
  (∃ node, node ∈ b_nodes ivr ∧ b_nodeType node ∉ TERMINAL_NODE_TYPES ∧
     target_on "__INVALID_MAX__" (node_edges ivr node) = None ∧ t = FS_IVR_SYS +:+ "/sys_goodbye.wav").

(** C37: The dialplan of an IVR with distinct nodes whose graph validates: its extensions have distinct names,
    and the data of each transfer or execution names one of them, an in-group or a voicemail box - or, in a node whose
    edge for too many wrong inputs has no target, the path of a sound file ([goodbye_is_an_extension]). *)
Theorem dialplan_closed ivr d :
  validateIvrGraph (graph_of ivr) = Ok d → NoDup (b_id <$> b_nodes ivr) →
  NoDup (ex_name <$> default_extensions ivr) ∧
  ∀ x t, x ∈ default_extensions ivr → jumps x t → t ∈ ex_name <$> default_extensions ivr ∨ leaves_ivr ivr t.
Proof.
  intros Hv Hnd. split; [by apply extension_names|]. intros x t Hx Hj.
  apply extension_cases in Hx as (node & Hn & [(Hk & [->|[->| ->]])|(Hk & [->|(Hc & ->)])]).
  - apply collect_jumps in Hj as ->. left. apply kind_name; [done|]. unfold node_kinds. rewrite bool_decide_eq_false_2 by done. set_solver.
  - apply branch_jumps in Hj as [(e & He & _ & ->)|[(n & Hn' & ->)| ->]]; left.
    + destruct (key_target_known ivr d node e) as (node' & Hnode' & <-); [done..|]. by apply entering_name.
    + apply target_on_some in Hn' as (e & He & _ & Ht). unfold sort_edges in He. apply elem_of_sort_by, elem_of_node_edges in He as [He _].
      destruct (target_known ivr d e n) as (node' & Hnode' & <-); [done..|]. by apply entering_name.
    + apply kind_name; [done|]. unfold node_kinds. rewrite bool_decide_eq_false_2 by done. set_solver.
  - apply invalid_jumps in Hj as [->| ->]; [|left; by apply entering_name]. unfold invalid_target.
    destruct (target_on _ _) as [n|] eqn:Ht; cbn [from_option].
    + apply target_on_some in Ht as (e & He & _ & Ht). apply elem_of_node_edges in He as [He _].
      destruct (target_known ivr d e n) as (node' & Hnode' & <-); [done..|]. left. by apply entering_name.
    + right. right. exists node. done.
  - apply terminal_jumps in Hj. unfold terminal_exit in Hj. destruct (b_nodeType node) eqn:Hty; simplify_eq.
    + right. left. eauto.
    + right. left. eauto.
    + left. apply (kind_name ivr node on_callback); [done|]. unfold node_kinds. rewrite Hty. rewrite !bool_decide_eq_true_2; set_solver.
  - apply callback_jumps in Hj as ->. right. left. eauto.
Qed.

(** ** Moving along the edges *)

Definition edge_key (e : BuilderEdge) : Z * string := (b_fromNodeId e, b_onInput e).

Lemma find_first {A} (p : A → bool) l a :
  a ∈ l → p a = true → (∀ b, b ∈ l → p b = true → b = a) → List.find p l = Some a.
Proof.
  intros Ha Hp Hu. destruct (List.find p l) as [b|] eqn:Hf.
  - apply List.find_some in Hf as [Hb Hpb]. apply list_elem_of_In in Hb. by rewrite (Hu b).
  - apply list_elem_of_In in Ha. pose proof (List.find_none _ _ Hf a Ha). congruence.
Qed.

(** The one edge of a node for an input, in whatever order. *)
Lemma one_edge_on edges e l :
  NoDup (edge_key <$> edges) → e ∈ edges → (∀ e', e' ∈ l ↔ e' ∈ edges ∧ b_fromNodeId e' = b_fromNodeId e) →
  List.find (λ e', String.eqb (b_onInput e') (b_onInput e)) l = Some e.
Proof.
  intros Hnd He Hl. apply find_first; [by apply Hl|apply String.eqb_refl|].
  intros e' [He' Hf]%Hl Hi%String.eqb_eq. apply list_elem_of_lookup in He as [i Hie], He' as [j Hje].
  assert (i = j) as ->; [|congruence]. eapply (NoDup_lookup _ _ _ (edge_key e) Hnd); rewrite list_lookup_fmap.
  - by rewrite Hie.
  - rewrite Hje. cbn. unfold edge_key. by rewrite Hf, Hi.
Qed.

Lemma node_names_inj i n m : nodeExtName i n = nodeExtName i m → n = m.
Proof. intros H. by apply (name_of_inj on_entering on_entering i) in H as [_ ?]. Qed.

Lemma not_a_node k i n m : nodeExtName i n = name_of k i m → k = on_entering.
Proof. intros H. by apply (name_of_inj on_entering) in H as [<- _]. Qed.

Lemma target_on_one edges e l n :
  NoDup (edge_key <$> edges) → e ∈ edges → (∀ e', e' ∈ l ↔ e' ∈ edges ∧ b_fromNodeId e' = b_fromNodeId e) →
  b_toNodeId e = Some n → n ≠ 0%Z → target_on (b_onInput e) l = Some n.
Proof.
  intros Hnd He Hl Hn H0. unfold target_on. rewrite (one_edge_on edges e l) by done. cbn. by apply truthy_id_some.
Qed.

Lemma goodbye_is_no_node i n : FS_IVR_SYS +:+ "/sys_goodbye.wav" ≠ nodeExtName i n.
Proof. unfold nodeExtName. by intros [=]. Qed.

(** C35: For an IVR whose graph validates, with one edge for each input of a node and no node 0: the nodes whose
    extensions the branch and the check of wrong inputs of a node name are exactly those that an edge of the node leads
    to, and the node itself.  Which extension FreeSWITCH finds first is another matter ([later_nodes_unreached]). *)
Theorem dialplan_moves ivr d node n :
  validateIvrGraph (graph_of ivr) = Ok d → NoDup (edge_key <$> b_edges ivr) → 0%Z ∉ b_id <$> b_nodes ivr →
  node ∈ b_nodes ivr →
  (jumps (buildBranchExtension (b_ivrId ivr) node (node_edges ivr node)) (nodeExtName (b_ivrId ivr) n) ∨
   jumps (buildInvalidCheckExtension (b_ivrId ivr) node (node_edges ivr node)) (nodeExtName (b_ivrId ivr) n)) ↔
  n = b_id node ∨ step (graph_of ivr) (b_id node) n.
Proof.
  intros Hv Hnd H0 Hn. rewrite branch_jumps, invalid_jumps.
  assert (Hstep : ∀ e m, e ∈ node_edges ivr node → b_toNodeId e = Some m → step (graph_of ivr) (b_id node) m).
  { intros e m [He Hf]%elem_of_node_edges Ht. rewrite <- Hf. by apply graph_edge. }
  split.
  - intros [[(e & He & _ & E%node_names_inj)|[(m & Hm & ->%node_names_inj)|E%not_a_node]]|[E|E%node_names_inj]]; [..|by left].
    + subst n. unfold key_target. destruct (truthy_id (b_toNodeId e)) as [m|] eqn:Ht; [|by left].
      apply truthy_id_some in Ht as [Ht _]. right. by eapply Hstep.
    + apply target_on_some in Hm as (e & He & _ & Ht). unfold sort_edges in He. apply elem_of_sort_by in He.
      right. by eapply Hstep.
    + done.
    + unfold invalid_target in E. destruct (target_on _ _) as [m|] eqn:Hm; cbn in E.
      * apply node_names_inj in E as ->. apply target_on_some in Hm as (e & He & _ & Ht). right. by eapply Hstep.
      * by apply eq_sym, goodbye_is_no_node in E.
  - intros [->|(e' & He' & Hf & Ht)]; [by right; right|].
    cbn in He'. apply list_elem_of_fmap in He' as (e & -> & He). cbn in Hf, Ht.
    assert (Hne : n ≠ 0%Z).
    { intros ->. destruct (target_known ivr d e 0) as (node' & Hn' & H'); [done..|]. apply H0. rewrite <- H'.
      by apply list_elem_of_fmap_2. }
    assert (Hen : e ∈ node_edges ivr node) by (by apply elem_of_node_edges).
    assert (Hl : ∀ e', e' ∈ node_edges ivr node ↔ e' ∈ b_edges ivr ∧ b_fromNodeId e' = b_fromNodeId e).
    { intros e'. by rewrite elem_of_node_edges, Hf. }
    destruct (decide (b_onInput e = "__INVALID_MAX__")) as [Hi|Hi].
    + right. left. unfold invalid_target. rewrite <- Hi, (target_on_one (b_edges ivr) e _ n); done.
    + left. destruct (decide (b_onInput e = "__TIMEOUT__")) as [Ht'|Ht'].
      * right. left. exists n. split; [|done]. rewrite <- Ht'. apply (target_on_one (b_edges ivr)); [done..| |done|done].
        intros e'. unfold sort_edges. by rewrite elem_of_sort_by, Hl.
      * left. exists e. split_and!; [done| |].
        -- unfold sentinel. by rewrite (proj2 (String.eqb_neq _ _) Ht'), (proj2 (String.eqb_neq _ _) Hi).
        -- unfold key_target. by rewrite (proj2 (truthy_id_some _ n)).
Qed.

(** ** Regular expressions

    Those of the check of wrong inputs, matched by derivatives. *)

Inductive rx :=
  | rx_none
  | rx_empty
  | rx_class (a b : ascii)
  | rx_seq (r s : rx)
  | rx_alt (r s : rx)
  | rx_star (r : rx).

Definition in_class (a b c : ascii) : bool := ((N_of_ascii a <=? N_of_ascii c) && (N_of_ascii c <=? N_of_ascii b))%N.

Fixpoint nullable (r : rx) : bool :=
  match r with
  | rx_none | rx_class _ _ => false
  | rx_empty | rx_star _ => true
  | rx_seq r s => nullable r && nullable s
  | rx_alt r s => nullable r || nullable s
  end.

Fixpoint derive (c : ascii) (r : rx) : rx :=
  match r with
  | rx_none | rx_empty => rx_none
  | rx_class a b => if in_class a b c then rx_empty else rx_none
  | rx_seq r s => if nullable r then rx_alt (rx_seq (derive c r) s) (derive c s) else rx_seq (derive c r) s
  | rx_alt r s => rx_alt (derive c r) (derive c s)
  | rx_star r => rx_seq (derive c r) (rx_star r)
  end.

Fixpoint rx_match (r : rx) (s : string) : bool :=
  match s with EmptyString => nullable r | String c s' => rx_match (derive c r) s' end.

(** [[m-9]|[1-9][0-9]+], and as it is written. *)
Definition counter (m : ascii) : rx :=
  rx_alt (rx_class m "9") (rx_seq (rx_class "1" "9") (rx_seq (rx_class "0" "9") (rx_star (rx_class "0" "9")))).

Definition counter_text (m : Z) : string := "^([" +:+ zs m +:+ "-9]|[1-9][0-9]+)$".

Lemma match_none s : rx_match rx_none s = false.
Proof. by induction s as [|c s IH]. Qed.

Lemma match_alt r t s : rx_match (rx_alt r t) s = rx_match r s || rx_match t s.
Proof. revert r t. induction s as [|c s IH]; intros r t; [done|]. apply IH. Qed.

Lemma match_none_seq t s : rx_match (rx_seq rx_none t) s = false.
Proof. revert t. induction s as [|c s IH]; intros t; [done|]. apply IH. Qed.

Lemma match_empty_seq t s : rx_match (rx_seq rx_empty t) s = rx_match t s.
Proof.
  destruct s as [|c s]; [done|]. cbn [rx_match derive nullable]. by rewrite match_alt, match_none_seq.
Qed.

Lemma match_empty s : rx_match rx_empty s = String.eqb s EmptyString.
Proof. destruct s as [|c s]; [done|]. cbn. apply match_none. Qed.

Lemma match_class_seq a b t c s : rx_match (rx_seq (rx_class a b) t) (String c s) = in_class a b c && rx_match t s.
Proof. cbn [rx_match derive nullable]. destruct (in_class a b c); [apply match_empty_seq|apply match_none_seq]. Qed.

Lemma match_class_star a b s : rx_match (rx_star (rx_class a b)) s = string_forallb (in_class a b) s.
Proof.
  induction s as [|c s IH]; [done|]. cbn [rx_match derive string_forallb].
  destruct (in_class a b c); [by rewrite match_empty_seq, IH|apply match_none_seq].
Qed.

Lemma match_class a b s : rx_match (rx_class a b) s = match s with String c EmptyString => in_class a b c | _ => false end.
Proof.
  destruct s as [|c s]; [done|]. cbn. destruct (in_class a b c); [rewrite match_empty|rewrite match_none]; by destruct s.
Qed.

Lemma match_counter m c d s :
  rx_match (counter m) (String c (String d s)) =
  in_class "1" "9" c && (in_class "0" "9" d && string_forallb (in_class "0" "9") s).
Proof.
  unfold counter. by rewrite match_alt, match_class, match_class_seq, match_class_seq, match_class_star.
Qed.

Lemma nzhead_no_zero u v : Decimal.nzhead u ≠ Decimal.D0 v.
Proof. induction u as [|u IH|u IH|u IH|u IH|u IH|u IH|u IH|u IH|u IH|u IH]; cbn; congruence. Qed.

Lemma no_leading_zero n u : (0 < n)%N → N.to_uint n ≠ Decimal.D0 u.
Proof.
  intros Hn H. assert (Hu : Decimal.unorm (N.to_uint n) = N.to_uint n)
    by (rewrite <- DecimalN.Unsigned.to_of, DecimalN.Unsigned.of_to; done).
  rewrite H, DecimalFacts.unorm_D0 in Hu.
  destruct (Decimal.uint_eq_dec (Decimal.nzhead u) Decimal.Nil) as [Hz|Hz].
  - apply DecimalFacts.unorm_0 in Hz. rewrite Hz in Hu. injection Hu as <-.
    pose proof (DecimalN.Unsigned.of_to n) as Hon. rewrite H in Hon. cbn in Hon. lia.
  - rewrite DecimalFacts.unorm_nzhead in Hu by done. by apply nzhead_no_zero in Hu.
Qed.

Lemma uint_digits d : string_forallb (in_class "0" "9") (NilEmpty.string_of_uint d) = true.
Proof. induction d as [|d IH|d IH|d IH|d IH|d IH|d IH|d IH|d IH|d IH|d IH]; [done|..]; exact IH. Qed.

(** A number from 10 on is written with two digits at least, the first not a zero. *)
Lemma zs_digits k :
  (10 <= k)%Z → ∃ c d s, zs k = String c (String d s) ∧ in_class "1" "9" c = true ∧ in_class "0" "9" d = true ∧
    string_forallb (in_class "0" "9") s = true.
Proof.
  intros Hk. destruct k as [|p|p]; [lia| |lia].
  assert (Hz : ∀ u, N.to_uint (N.pos p) ≠ Decimal.D0 u) by (intros u; apply no_leading_zero; lia).
  pose proof (DecimalN.Unsigned.of_to (N.pos p)) as Hof. unfold zs. cbn [Z.to_int NilZero.string_of_int].
  cbn [N.to_uint] in Hz, Hof.
  assert (∀ c v, NilZero.string_of_uint (Pos.to_uint p) = String c (NilEmpty.string_of_uint v) → v ≠ Decimal.Nil →
     in_class "1" "9" c = true → ∃ c' d s, NilZero.string_of_uint (Pos.to_uint p) = String c' (String d s) ∧
       in_class "1" "9" c' = true ∧ in_class "0" "9" d = true ∧ string_forallb (in_class "0" "9") s = true) as Hshape.
  { intros c v -> Hv Hc. pose proof (uint_digits v) as Hd.
    destruct (NilEmpty.string_of_uint v) as [|d s] eqn:Hs; [destruct v; done|].
    apply andb_true_iff in Hd as [Hd1 Hd2]. by exists c, d, s. }
  destruct (Pos.to_uint p) as [|v|v|v|v|v|v|v|v|v|v] eqn:Hu;
    [cbn in Hof; lia|by destruct (Hz v)|..];
    (eapply (Hshape _ v); [reflexivity| |reflexivity]; intros ->; cbn in Hof; lia).
Qed.

Definition digit_ascii (m : Z) : ascii := ascii_of_nat (Z.to_nat (48 + m)).

Lemma small_counts :
  forallb (λ m, forallb (λ k, Bool.eqb (rx_match (counter (digit_ascii m)) (zs k)) (m <=? k)%Z) (seqZ 0 10)) (seqZ 1 9) = true.
Proof. vm_compute. reflexivity. Qed.

(** The check of wrong inputs takes a count from [invalidMax] on. *)
Lemma counter_reached m k :
  (1 <= m <= 9)%Z → (0 <= k)%Z → rx_match (counter (digit_ascii m)) (zs k) = (m <=? k)%Z.
Proof.
  intros Hm Hk. destruct (decide (10 <= k)%Z) as [Hb|Hs].
  - destruct (zs_digits k Hb) as (c & d & s & -> & Hc & Hd & Hs). rewrite match_counter, Hc, Hd, Hs. cbn. lia.
  - apply eqb_prop. pose proof small_counts as H. rewrite forallb_forall in H.
    specialize (H m ltac:(apply list_elem_of_In, elem_of_seqZ; lia)). cbn beta in H. rewrite forallb_forall in H.
    apply H. apply list_elem_of_In, elem_of_seqZ. lia.
Qed.

(** ** A call in the dialplan *)

(** Characters that stand for themselves in an expression and in XML. *)
Definition plain_char (c : ascii) : bool :=
  let n := N_of_ascii c in
  ((48 <=? n) && (n <=? 57) || (65 <=? n) && (n <=? 90) || (97 <=? n) && (n <=? 122) || (n =? 95) || (n =? 45) || (n =? 35))%N.

Definition plain (s : string) : bool := string_forallb plain_char s.

(** Matching, of the expressions the builder writes, against texts of letters, digits, [_], [-] and [#]. *)
Class Matcher := {
  matches : string → string → bool;
  matches_plain l s : plain l = true → plain s = true → matches ("^" +:+ l +:+ "$") s = String.eqb l s;
  matches_any s : plain s = true → matches "^.*$" s = true;
  matches_counter m s : (1 <= m <= 9)%Z → plain s = true → matches (counter_text m) s = rx_match (counter (digit_ascii m)) s;
}.

Section call.
Context `{Matcher}.

(** The condition of an extension that applies, for what the fields hold. *)
Definition applies (fields : string → string) (c : DialCondition) : bool := matches (co_expression c) (fields (co_field c)).

Definition first_condition (fields : string → string) (x : Extension) : option DialCondition :=
  List.find (applies fields) (ex_conditions x).

(** The extension that a call is given: the first with a condition that applies. *)
Definition hunt (fields : string → string) (xs : list Extension) : option Extension :=
  List.find (λ x, existsb (applies fields) (ex_conditions x)) xs.

(** Where the keys that were pressed lead. *)
Definition branch_target (i : Z) (node : BuilderNode) (edges : list BuilderEdge) (keys : string) : string :=
  match List.find (λ e, String.eqb (b_onInput e) keys) edges with
  | Some e => nodeExtName i (key_target node e)
  | None =>
      match keys, target_on "__TIMEOUT__" edges with
      | EmptyString, Some n => nodeExtName i n
      | _, _ => name_of on_invalid i (b_id node)
      end
  end.

(** An edge for keys that mean themselves. *)
Definition keyed (e : BuilderEdge) : Prop :=
  sentinel (b_onInput e) = true ∨ plain (b_onInput e) = true ∧ b_onInput e ≠ EmptyString.

(** What a telephone sends, read up to its terminator. *)
Definition dialled (s : string) : bool := string_forallb (λ c, in_class "0" "9" c || Ascii.eqb c "#") s.

Lemma plain_escaped s : plain s = true → escXml s = s.
Proof.
  induction s as [|c s IH]; [done|]. unfold plain in *. cbn [string_forallb]. intros [Hc Hs]%andb_true_iff.
  rewrite escXml_cons, (IH Hs). unfold esc_char.
  do 4 (match goal with |- context [Ascii.eqb c ?d] => destruct (Ascii.eqb_spec c d) as [->|?] end; [by vm_compute in Hc|]). done.
Qed.

Lemma dialled_plain s : dialled s = true → plain s = true.
Proof.
  apply string_forallb_impl. intros c. unfold in_class, plain_char. rewrite orb_true_iff. intros [Hc|Hc%Ascii.eqb_eq].
  - change (N_of_ascii "0") with 48%N in Hc. change (N_of_ascii "9") with 57%N in Hc. by rewrite Hc.
  - by subst c.
Qed.

Lemma dialled_sentinel s : dialled s = true → sentinel s = false.
Proof.
  unfold sentinel. destruct (String.eqb_spec s "__TIMEOUT__") as [->|]; [done|].
  by destruct (String.eqb_spec s "__INVALID_MAX__") as [->|].
Qed.

Lemma find_in_app {A} (p : A → bool) l l' :
  List.find p (l ++ l') = match List.find p l with Some a => Some a | None => List.find p l' end.
Proof. induction l as [|a l IH]; [done|]. cbn. by destruct (p a). Qed.

(** The conditions of the keys, against what was pressed. *)
Lemma key_conditions fields i node edges keys :
  Forall keyed edges → dialled keys = true → fields (digit_field (b_id node)) = keys →
  List.find (applies fields) (edges ≫= edge_condition i node) =
  e ← List.find (λ e, String.eqb (b_onInput e) keys) edges; head (edge_condition i node e).
Proof.
  intros Hk Hd Hf. pose proof (dialled_sentinel _ Hd) as Hs. induction edges as [|e edges IH]; [done|].
  apply Forall_cons in Hk as [He Hk]. cbn [mbind list_bind List.find]. rewrite find_in_app, IH by done.
  destruct (sentinel (b_onInput e)) eqn:Hse.
  - assert (edge_condition i node e = []) as ->.
    { unfold edge_condition. apply orb_true_iff in Hse as [->|Hse]; [done|]. rewrite Hse. by destruct (String.eqb (b_onInput e) "__TIMEOUT__"). }
    destruct (String.eqb_spec (b_onInput e) keys) as [<-|]; [congruence|done].
  - destruct He as [He|[He _]]; [congruence|]. pose proof Hse as [Ht Hi]%orb_false_iff.
    assert (∃ c, edge_condition i node e = [c] ∧ applies fields c = String.eqb (b_onInput e) keys) as (c & Hc & Ha).
    { unfold edge_condition. rewrite Ht, Hi. eexists. split; [reflexivity|]. unfold applies. cbn [co_expression co_field].
      by rewrite Hf, plain_escaped, matches_plain by (done || by apply dialled_plain). }
    rewrite Hc. cbn [List.find]. rewrite Ha. destruct (String.eqb (b_onInput e) keys); [|done]. cbn. by rewrite Hc.
Qed.

Lemma find_sorted (p : BuilderEdge → bool) edges :
  (∀ a b, a ∈ edges → b ∈ edges → p a = true → p b = true → a = b) →
  List.find p (sort_edges edges) = List.find p edges.
Proof.
  intros Hu. unfold sort_edges. destruct (List.find p edges) as [e|] eqn:He.
  - apply List.find_some in He as [He Hp]. apply list_elem_of_In in He. apply find_first; [by apply elem_of_sort_by|done|].
    intros b Hb%elem_of_sort_by Hpb. by apply Hu.
  - destruct (List.find p (sort_by _ edges)) as [e|] eqn:Hs; [|done]. apply List.find_some in Hs as [Hs Hp].
    apply list_elem_of_In, elem_of_sort_by, list_elem_of_In in Hs. pose proof (List.find_none _ _ He e Hs). congruence.
Qed.

Lemma one_input edges s a b :
  NoDup (b_onInput <$> edges) → a ∈ edges → b ∈ edges → String.eqb (b_onInput a) s = true → String.eqb (b_onInput b) s = true →
  a = b.
Proof.
  intros Hnd [i Ha]%list_elem_of_lookup [j Hb]%list_elem_of_lookup Ea%String.eqb_eq Eb%String.eqb_eq.
  assert (i = j) as ->; [|congruence]. eapply (NoDup_lookup _ _ _ s Hnd); rewrite list_lookup_fmap.
  - rewrite Ha. cbn. by rewrite Ea.
  - rewrite Hb. cbn. by rewrite Eb.
Qed.

Lemma no_empty_edge edges : Forall keyed edges → List.find (λ e, String.eqb (b_onInput e) EmptyString) edges = None.
Proof.
  intros Hk. destruct (List.find _ edges) as [e|] eqn:He; [|done]. apply List.find_some in He as [He Hi%String.eqb_eq].
  apply list_elem_of_In in He. rewrite Forall_forall in Hk. destruct (Hk e He) as [Hs|[_ Hne]]; [|done]. by rewrite Hi in Hs.
Qed.

Lemma branch_condition i node edges fields keys :
  Forall keyed edges → NoDup (b_onInput <$> edges) → dialled keys = true → fields (digit_field (b_id node)) = keys →
  ∃ c, first_condition fields (buildBranchExtension i node edges) = Some c ∧
    ∀ t, condition_leads t c ↔ t = branch_target i node edges keys.
Proof.
  intros Hk Hnd Hd Hf. unfold first_condition. cbn [buildBranchExtension ex_conditions].
  assert (Hk' : Forall keyed (sort_edges edges)).
  { apply Forall_forall. intros e. unfold sort_edges. rewrite elem_of_sort_by. by apply Forall_forall. }
  rewrite find_in_app, (key_conditions fields i node (sort_edges edges) keys) by done.
  fold (target_on "__TIMEOUT__" (sort_edges edges)). unfold target_on.
  rewrite !find_sorted by (intros; by eapply one_input). fold (target_on "__TIMEOUT__" edges). unfold branch_target.
  destruct (List.find (λ e, String.eqb (b_onInput e) keys) edges) as [e|] eqn:He.
  - apply List.find_some in He as [_ He%String.eqb_eq]. pose proof (dialled_sentinel _ Hd) as Hs. rewrite <- He in Hs.
    pose proof (edge_condition_leads i node e) as Hl. pose proof Hs as [Ht Hi]%orb_false_iff. cbn [mbind option_bind].
    unfold edge_condition in Hl |- *. rewrite Ht, Hi in Hl |- *. cbn [head]. eexists. split; [reflexivity|].
    intros t. specialize (Hl t). rewrite Exists_cons, Exists_nil in Hl. tauto.
  - cbn [mbind option_bind]. rewrite find_in_app.
    assert (Hany : ∀ a b, applies fields (mkCondition a (digit_field (b_id node)) "^.*$" b
      [one_action (set_var 6 "ivr_invalid_count=${expr(${ivr_invalid_count}+1)}");
       one_action (execute_extension 6 (nodeExtName i (b_id node) +:+ "_invalid_check"))]) = true).
    { intros a b. unfold applies. cbn [co_expression co_field]. rewrite Hf. by apply matches_any, dialled_plain. }
    assert (Hlast : ∀ t, condition_leads t (mkCondition 4 (digit_field (b_id node)) "^.*$" true
      [one_action (set_var 6 "ivr_invalid_count=${expr(${ivr_invalid_count}+1)}");
       one_action (execute_extension 6 (nodeExtName i (b_id node) +:+ "_invalid_check"))]) ↔ t = name_of on_invalid i (b_id node)).
    { intros t. unfold condition_leads. cbn [co_items]. autorewrite with jumps. cbn [name_of]. tauto. }
    destruct (target_on "__TIMEOUT__" edges) as [n|] eqn:Hn.
    + assert (applies fields (mkCondition 4 (digit_field (b_id node)) "^$" true [one_action (transfer 6 (nodeExtName i n))])
              = String.eqb EmptyString keys) as Ha.
      { unfold applies. cbn [co_expression co_field]. rewrite Hf. by apply (matches_plain EmptyString), dialled_plain. }
      cbn [List.find]. rewrite Ha. destruct keys as [|k keys]; cbn [String.eqb].
      * eexists. split; [reflexivity|]. intros t. unfold condition_leads. cbn [co_items]. autorewrite with jumps. tauto.
      * rewrite Hany. by eexists.
    + cbn [List.find]. rewrite Hany. eexists. split; [reflexivity|]. intros t. rewrite Hlast. by destruct keys.
Qed.

Lemma zs_plain k : plain (zs k) = true.
Proof.
  eapply string_forallb_impl, zs_chars. intros c. unfold decimal_char, plain_char. rewrite !orb_true_iff. tauto.
Qed.

Lemma invalid_condition i node edges fields count :
  (1 <= b_invalidMax node <= 9)%Z → (0 <= count)%Z → fields "${ivr_invalid_count}"%string = zs count →
  ∃ c, first_condition fields (buildInvalidCheckExtension i node edges) = Some c ∧
    ∀ t, condition_leads t c ↔
      t = if (b_invalidMax node <=? count)%Z then invalid_target i edges else nodeExtName i (b_id node).
Proof.
  intros Hm Hc Hf. unfold first_condition. cbn [buildInvalidCheckExtension ex_conditions List.find].
  unfold applies at 1. cbn [co_expression co_field]. fold (counter_text (b_invalidMax node)).
  rewrite Hf, matches_counter, counter_reached by (done || apply zs_plain). destruct (b_invalidMax node <=? count)%Z.
  - eexists. split; [reflexivity|]. intros t. unfold condition_leads. cbn [co_items]. autorewrite with jumps.
    unfold invalid_target, target_on. tauto.
  - unfold applies. cbn [co_expression co_field]. rewrite Hf, matches_any by apply zs_plain.
    eexists. split; [reflexivity|]. intros t. unfold condition_leads. cbn [co_items]. autorewrite with jumps. tauto.
Qed.

End call.

(** C36: Within the branch and the check of wrong inputs of a node, the first condition that matches decides as the edges
    say: a key leads to the node of its edge, no key to that of the timeout, and other keys to the check of wrong inputs, which leads
    back to the node until the count reaches [invalidMax], and then to the node for that.  For edges whose inputs are letters
    and digits or the two sentinels, one for each input; a star is no literal ([star_is_no_literal]), and a call is given the
    branch of the first menu whatever its destination ([later_nodes_unreached]). *)
Theorem branch_decides `{Matcher} i node edges fields keys count :
  Forall keyed edges → NoDup (b_onInput <$> edges) → (1 <= b_invalidMax node <= 9)%Z → (0 <= count)%Z →
  dialled keys = true → fields (digit_field (b_id node)) = keys → fields "${ivr_invalid_count}"%string = zs count →
  (∃ c, first_condition fields (buildBranchExtension i node edges) = Some c ∧
     ∀ t, condition_leads t c ↔ t = branch_target i node edges keys) ∧
  (∃ c, first_condition fields (buildInvalidCheckExtension i node edges) = Some c ∧
     ∀ t, condition_leads t c ↔
       t = if (b_invalidMax node <=? count)%Z then invalid_target i edges else nodeExtName i (b_id node)).
Proof. intros. split; [by apply branch_condition|by apply invalid_condition]. Qed.

(** A matcher: texts that stand for themselves, anything, and the nine checks of a count. *)
Definition text_matches (expression s : string) : bool :=
  if String.eqb expression "^.*$" then true
  else match List.find (λ m, String.eqb expression (counter_text m)) (seqZ 1 9) with
       | Some m => rx_match (counter (digit_ascii m)) s
       | None => String.eqb expression ("^" +:+ s +:+ "$")
       end.

Lemma anchored_inj l s : "^" +:+ l +:+ "$" = "^" +:+ s +:+ "$" → l = s.
Proof. intros H. assert (l +:+ "$" = s +:+ "$") as H' by (by injection H). by apply app_suffix_inj in H' as [-> _]. Qed.

Lemma not_plain l r : plain l = true → plain r = false → String.eqb ("^" +:+ l +:+ "$") ("^" +:+ r +:+ "$") = false.
Proof. intros Hl Hr. apply String.eqb_neq. intros ->%anchored_inj. congruence. Qed.

Lemma text_matches_plain l s : plain l = true → plain s = true → text_matches ("^" +:+ l +:+ "$") s = String.eqb l s.
Proof.
  intros Hl _. unfold text_matches. change "^.*$"%string with ("^" +:+ ".*" +:+ "$").
  rewrite not_plain by done. destruct (List.find _ _) as [m|] eqn:Hm.
  - apply List.find_some in Hm as [_ Hm]. unfold counter_text in Hm.
    assert ("^([" +:+ zs m +:+ "-9]|[1-9][0-9]+)$" = "^" +:+ ("([" +:+ zs m +:+ "-9]|[1-9][0-9]+)") +:+ "$") as E
      by (autorewrite with strs; reflexivity).
    rewrite E, not_plain in Hm; done.
  - destruct (String.eqb_spec l s) as [->|Hn]; [apply String.eqb_refl|]. apply String.eqb_neq. by intros ?%anchored_inj.
Qed.

Lemma text_matches_counter m s : (1 <= m <= 9)%Z → plain s = true → text_matches (counter_text m) s = rx_match (counter (digit_ascii m)) s.
Proof.
  intros Hm _. assert (m ∈ seqZ 1 9) as Hin by (apply elem_of_seqZ; lia). vm_compute in Hin.
  repeat (apply elem_of_cons in Hin as [->|Hin]; [reflexivity|]). by apply not_elem_of_nil in Hin.
Qed.

#[export] Instance text_matcher : Matcher :=
  {| matches := text_matches; matches_plain := text_matches_plain; matches_any := λ _ _, eq_refl;
     matches_counter := text_matches_counter |}.

(** ** Values *)

Definition item_values (i : DialItem) : list string :=
  match i with
  | one_action a => [ac_application a; ac_data a]
  | inner_condition _ field expression l => field :: expression :: (l ≫= λ a, [ac_application a; ac_data a])
  end.

Definition condition_values (c : DialCondition) : list string :=
  co_field c :: co_expression c :: (co_items c ≫= item_values).

(** Everything that is printed between quotes. *)
Definition extension_values (x : Extension) : list string := ex_name x :: (ex_conditions x ≫= condition_values).

Abbreviation texts l := (Forall (λ v, xml_text v = true) l).

Lemma zs_text n : xml_text (zs n) = true.
Proof. unfold xml_text. by rewrite !zs_lacks. Qed.

Lemma Forall_bind_iff {A B} (P : B → Prop) (f : A → list B) l : Forall P (l ≫= f) ↔ Forall (λ a, Forall P (f a)) l.
Proof. induction l as [|a l IH]; [by rewrite !Forall_nil|]. cbn [mbind list_bind]. by rewrite Forall_app, Forall_cons, IH. Qed.

Ltac text_ok :=
  unfold nodeExtName, digit_field, node_comment, to_default, target_text;
  rewrite ?xml_text_app, ?zs_text, ?escXml_text; try done.

Lemma visit_texts n : Forall (λ i, texts (item_values i)) (visit n).
Proof. unfold visit. repeat constructor; cbn [ac_data ac_application set_var]; text_ok. Qed.

Lemma actions_texts l : (∀ a, a ∈ l → xml_text (ac_application a) = true ∧ xml_text (ac_data a) = true) →
  Forall (λ i, texts (item_values i)) (one_action <$> l).
Proof. intros H. apply Forall_fmap, Forall_forall. intros a [H1 H2]%H. by repeat constructor. Qed.

Lemma prompts_texts node : Forall (λ i, texts (item_values i)) (promptConditions node).
Proof.
  unfold promptConditions. destruct (b_prompts node) as [|p ps]; [by repeat constructor|].
  apply Forall_app. split.
  - apply Forall_fmap, Forall_forall. intros q _. unfold compose. cbn [item_values playback ac_application ac_data mbind list_bind].
    repeat constructor; text_ok.
  - destruct (List.filter _ _); (repeat constructor; cbn [ac_data playback]; text_ok).
Qed.

Definition conditions_texts (x : Extension) : Prop := Forall (λ c, texts (condition_values c)) (ex_conditions x).

Lemma condition_texts n field expression b items :
  xml_text field = true → xml_text expression = true → Forall (λ i, texts (item_values i)) items →
  texts (condition_values (mkCondition n field expression b items)).
Proof.
  intros Hf He Hi. unfold condition_values. cbn [co_field co_expression co_items].
  apply Forall_cons_2; [done|]. apply Forall_cons_2; [done|]. by apply Forall_bind_iff.
Qed.

Lemma collect_texts i node : xml_text (b_collectTerminators node) = true → conditions_texts (buildCollectExtension i node).
Proof.
  intros Ht. unfold conditions_texts. cbn [buildCollectExtension ex_conditions]. apply Forall_singleton.
  apply condition_texts; [done|by text_ok|]. apply Forall_app. split; [apply visit_texts|]. apply Forall_app. split; [apply prompts_texts|].
  repeat constructor; cbn [ac_data execute_extension]; text_ok.
Qed.

Ltac actions_ok :=
  apply actions_texts; apply Forall_forall; repeat (apply Forall_cons_2; [split; [done|cbn [ac_data set_var playback transfer execute_extension hangup]; text_ok]|]);
  apply Forall_nil_2.

Lemma branch_texts i node edges : conditions_texts (buildBranchExtension i node edges).
Proof.
  unfold conditions_texts. cbn [buildBranchExtension ex_conditions]. rewrite !Forall_app. split_and!.
  - apply Forall_bind_iff, Forall_forall. intros e _. unfold edge_condition.
    destruct (String.eqb (b_onInput e) "__TIMEOUT__"); [apply Forall_nil_2|].
    destruct (String.eqb (b_onInput e) "__INVALID_MAX__"); [apply Forall_nil_2|]. apply Forall_singleton.
    apply condition_texts; [by text_ok|by text_ok|]. case_bool_decide; actions_ok.
  - destruct (_ ≫= _); [|apply Forall_nil_2]. apply Forall_singleton, condition_texts; [by text_ok|done|].
    apply (actions_texts [_]). intros a ->%list_elem_of_singleton. split; [done|]. cbn [ac_data transfer]. by text_ok.
  - apply Forall_singleton, condition_texts; [by text_ok|done|]. apply (actions_texts [_; _]). apply Forall_forall.
    repeat constructor; cbn [ac_data execute_extension set_var]; text_ok.
Qed.

Lemma invalid_texts i node edges : conditions_texts (buildInvalidCheckExtension i node edges).
Proof.
  unfold conditions_texts. cbn [buildInvalidCheckExtension ex_conditions].
  apply Forall_cons_2; [|apply Forall_cons_2; [|apply Forall_nil_2]]; (apply condition_texts; [done|by text_ok|]).
  - apply (actions_texts [_; _]), Forall_forall. repeat constructor; cbn [ac_data transfer set_var]; try done. unfold to_default.
    rewrite xml_text_app. destruct (_ ≫= _); cbn [from_option]; text_ok.
  - apply (actions_texts [_]), Forall_forall. repeat constructor; cbn [ac_data transfer]; text_ok.
Qed.

Lemma terminal_texts i node : conditions_texts (buildTerminalExtension i node).
Proof.
  unfold conditions_texts. cbn [buildTerminalExtension ex_conditions]. apply Forall_singleton.
  apply condition_texts; [done|by text_ok|]. apply Forall_app. split; [apply visit_texts|].
  unfold terminal_actions. destruct (b_nodeType node); try actions_ok.
  destruct (b_actionTarget node) as [[|c s]|]; actions_ok.
Qed.

Lemma callback_texts node : conditions_texts (buildCallbackDispatchExtension node).
Proof.
  unfold conditions_texts. cbn [buildCallbackDispatchExtension ex_conditions].
  apply Forall_cons_2; [|apply Forall_cons_2; [|apply Forall_nil_2]]; (apply condition_texts; [done|by text_ok|]); [actions_ok|].
  apply (actions_texts [_]), Forall_forall. repeat constructor; cbn [ac_data transfer]; text_ok.
Qed.

(** C38: Nothing else that the administrator types ends a value of the dialplan: if the terminators of the nodes have neither a
    quote nor [<], so has every name, field, expression and datum of every extension, whatever the names, prompts,
    languages, inputs and targets. *)
Theorem values_escaped ivr :
  (∀ node, node ∈ b_nodes ivr → xml_text (b_collectTerminators node) = true) →
  ∀ x v, x ∈ default_extensions ivr → v ∈ extension_values x → xml_text v = true.
Proof.
  intros Ht x v Hx Hv. apply elem_of_cons in Hv as [->|Hv].
  - assert (ex_name x ∈ ex_name <$> default_extensions ivr) as (node & k & _ & _ & ->)%elem_of_names by (by apply list_elem_of_fmap_2).
    destruct k; cbn [name_of]; text_ok.
  - assert (conditions_texts x) as Hc.
    { apply extension_cases in Hx as (node & Hn & [(_ & [->|[->| ->]])|(_ & [->|(_ & ->)])]).
      - by apply collect_texts, Ht.
      - apply branch_texts.
      - apply invalid_texts.
      - apply terminal_texts.
      - apply callback_texts. }
    unfold conditions_texts in Hc. rewrite <- Forall_bind_iff in Hc. revert v Hv. by apply Forall_forall.
Qed.

(** ** An IVR of two menus *)

Definition menu (n : Z) (name : string) : BuilderNode := mkBuilderNode n collect name 1 1 "none" 5000 3 None [].
Definition exit_node (n : Z) (t : IvrNodeType) (target : string) : BuilderNode :=
  mkBuilderNode n t "exit" 1 1 "none" 5000 3 (Some target) [].
Definition key_edge (from : Z) (input : string) (to : Z) (order : Z) : BuilderEdge := mkBuilderEdge from input (Some to) None order.

Definition two_menus : BuilderIvr :=
  mkBuilderIvr 7 1
    [menu 1 "main"; menu 2 "second"; exit_node 3 terminal_ingroup "SALES"; exit_node 4 terminal_hangup ""]
    [key_edge 1 "1" 2 0; key_edge 1 "2" 3 1; key_edge 1 "__TIMEOUT__" 4 2; key_edge 1 "__INVALID_MAX__" 4 3;
     key_edge 2 "1" 3 0; key_edge 2 "__TIMEOUT__" 4 1; mkBuilderEdge 2 "__INVALID_MAX__" None None 2].

Lemma dialplan_closed_witness :
  validateIvrGraph (graph_of two_menus) = Ok 2 ∧
  NoDup (ex_name <$> default_extensions two_menus) ∧
  ∀ x t, x ∈ default_extensions two_menus → jumps x t → t ∈ ex_name <$> default_extensions two_menus ∨ leaves_ivr two_menus t.
Proof.
  split; [vm_compute; reflexivity|]. apply (dialplan_closed two_menus 2); [vm_compute; reflexivity|].
  apply (bool_decide_unpack _). vm_compute. exact I.
Defined.

Lemma dialplan_moves_witness :
  (jumps (buildBranchExtension 7 (menu 1 "main") (node_edges two_menus (menu 1 "main"))) (nodeExtName 7 2) ∨
   jumps (buildInvalidCheckExtension 7 (menu 1 "main") (node_edges two_menus (menu 1 "main"))) (nodeExtName 7 2)) ↔
  2%Z = 1%Z ∨ step (graph_of two_menus) 1 2.
Proof.
  apply (dialplan_moves two_menus 2 (menu 1 "main") 2).
  - vm_compute. reflexivity.
  - apply (bool_decide_unpack _). vm_compute. exact I.
  - apply (bool_decide_unpack _). vm_compute. exact I.
  - by left.
Defined.

(** A call in the first menu that pressed 2, for the third time wrong. *)
Definition at_first_menu (field : string) : string :=
  if String.eqb field (digit_field 1) then "2" else if String.eqb field "${ivr_invalid_count}" then "3" else "ivr_7_n2".

Lemma branch_decides_witness :
  (∃ c, first_condition at_first_menu (buildBranchExtension 7 (menu 1 "main") (node_edges two_menus (menu 1 "main"))) = Some c ∧
     ∀ t, condition_leads t c ↔ t = "ivr_7_n3"%string) ∧
  (∃ c, first_condition at_first_menu (buildInvalidCheckExtension 7 (menu 1 "main") (node_edges two_menus (menu 1 "main"))) = Some c ∧
     ∀ t, condition_leads t c ↔ t = "ivr_7_n4"%string).
Proof.
  apply (branch_decides 7 (menu 1 "main") (node_edges two_menus (menu 1 "main")) at_first_menu "2" 3).
  - repeat (apply Forall_cons_2); try apply Forall_nil_2; first [by left|right; by split].
  - apply (bool_decide_unpack _). vm_compute. exact I.
  - done.
  - done.
  - reflexivity.
  - reflexivity.
  - reflexivity.
Defined.
