(* ===== verification/IvrStore.v ===== *)
(** The tables of the IVRs, the files of the dialplan and the renderer,
    [api/src/services/ivr/IvrRenderer.ts].

    A world is the tables, the files in the two directories of the dialplan, what was uploaded
    and how often FreeSWITCH was told to reload.  The server ([IvrServer]) is a parameter: the
    collation, the order in which it gives rows, whether an edge of a node to itself keeps it
    from being deleted, paths.  Of a request it depends ([IvrEnv]) on the instant, on which
    files can be written or removed, and on Redis. *)

From S2P Require Import Prelude StateError JsNumber Zod Ivr IvrXml.

#[local] Open Scope Z_scope.

(** ** Tables *)

Record IvrRow := mkIvrRow {
  i_id : Z;
  i_tenantId : Z;
  i_name : string;
  i_description : option string;
  i_entryNodeId : option Z;
  i_active : bool;
  i_maxDepthValidated : Z;
  i_createdAt : Z;
  i_updatedAt : Z;
}.

Record NodeRow := mkNodeRow {
  n_id : Z;
  n_tenantId : Z;
  n_ivrId : Z;
  n_name : string;
  n_nodeType : IvrNodeType;
  n_collectMin : Z;
  n_collectMax : Z;
  n_collectTerminators : string;
  n_timeoutMs : Z;
  n_interDigitMs : Z;
  n_invalidMax : Z;
  n_actionTarget : option string;
  n_positionX : Z;
  n_positionY : Z;
  n_createdAt : Z;
  n_updatedAt : Z;
}.

Record EdgeRow := mkEdgeRow {
  e_id : Z;
  e_tenantId : Z;
  e_ivrId : Z;
  e_fromNodeId : Z;
  e_onInput : string;
  e_toNodeId : option Z;
  e_label : option string;
  e_sortOrder : Z;
}.

Record PromptRow := mkPromptRow {
  p_id : Z;
  p_tenantId : Z;
  p_nodeId : Z;
  p_lang : string;
  p_fileUri : string;
  p_fileSizeBytes : Z;
  p_durationMs : Z;
}.

Record DidRow := mkDidRow {
  did_tenantId : Z;
  did_e164 : string;
  did_routeKind : string;
  did_routeTarget : string;
  did_active : bool;
  did_defaultLang : string;
  did_ivrTimeoutSec : Z;
}.

Record TraversalRow := mkTraversal {
  t_tenantId : Z;
  t_ivrId : Z;
  t_node_id : Z;
  t_outcome : string;
  t_digit : option string;
  t_duration_ms : Z;
  t_session_uuid : string;
  t_entered_at : Z;
  t_lang : string;
}.

Record NextIds := mkNextIds { next_ivr : Z; next_node : Z; next_edge : Z; next_prompt : Z }.

Record IvrDb := mkIvrDb {
  ivr_rows : gmap Z IvrRow;
  node_rows : gmap Z NodeRow;
  edge_rows : gmap Z EdgeRow;
  prompt_rows : gmap Z PromptRow;
  did_rows : gmap Z DidRow;
  traversal_log : list TraversalRow;
  next_ids : NextIds;
}.

(** Where an uploaded prompt goes. *)
Inductive Upload := to_bucket (key : string) | to_disk (path : string).

Record IvrWorld := mkIvrWorld {
  iw_db : IvrDb;
  default_files : gmap string string;
  public_files : gmap string string;
  uploads : list Upload;
  reloads : nat;
}.

Definition with_ivr_rows (f : gmap Z IvrRow → gmap Z IvrRow) (db : IvrDb) : IvrDb :=
  mkIvrDb (f (ivr_rows db)) (node_rows db) (edge_rows db) (prompt_rows db) (did_rows db) (traversal_log db) (next_ids db).
Definition with_node_rows (f : gmap Z NodeRow → gmap Z NodeRow) (db : IvrDb) : IvrDb :=
  mkIvrDb (ivr_rows db) (f (node_rows db)) (edge_rows db) (prompt_rows db) (did_rows db) (traversal_log db) (next_ids db).
Definition with_edge_rows (f : gmap Z EdgeRow → gmap Z EdgeRow) (db : IvrDb) : IvrDb :=
  mkIvrDb (ivr_rows db) (node_rows db) (f (edge_rows db)) (prompt_rows db) (did_rows db) (traversal_log db) (next_ids db).
Definition with_prompt_rows (f : gmap Z PromptRow → gmap Z PromptRow) (db : IvrDb) : IvrDb :=
  mkIvrDb (ivr_rows db) (node_rows db) (edge_rows db) (f (prompt_rows db)) (did_rows db) (traversal_log db) (next_ids db).
Definition with_did_rows (f : gmap Z DidRow → gmap Z DidRow) (db : IvrDb) : IvrDb :=
  mkIvrDb (ivr_rows db) (node_rows db) (edge_rows db) (prompt_rows db) (f (did_rows db)) (traversal_log db) (next_ids db).
Definition with_next_ids (n : NextIds) (db : IvrDb) : IvrDb :=
  mkIvrDb (ivr_rows db) (node_rows db) (edge_rows db) (prompt_rows db) (did_rows db) (traversal_log db) n.

Definition on_tables (f : IvrDb → IvrDb) (w : IvrWorld) : IvrWorld :=
  mkIvrWorld (f (iw_db w)) (default_files w) (public_files w) (uploads w) (reloads w).
Definition on_default_files (f : gmap string string → gmap string string) (w : IvrWorld) : IvrWorld :=
  mkIvrWorld (iw_db w) (f (default_files w)) (public_files w) (uploads w) (reloads w).
Definition on_public_files (f : gmap string string → gmap string string) (w : IvrWorld) : IvrWorld :=
  mkIvrWorld (iw_db w) (default_files w) (f (public_files w)) (uploads w) (reloads w).
Definition add_upload (u : Upload) (w : IvrWorld) : IvrWorld :=
  mkIvrWorld (iw_db w) (default_files w) (public_files w) (uploads w ++ [u]) (reloads w).
Definition count_reload (w : IvrWorld) : IvrWorld :=
  mkIvrWorld (iw_db w) (default_files w) (public_files w) (uploads w) (S (reloads w)).

Record IvrServer := mkIvrServer {
  sort_key : string → string;
  order_ivrs : list IvrRow → list IvrRow;
  order_nodes : list NodeRow → list NodeRow;
  order_edges : list EdgeRow → list EdgeRow;
  order_prompts : list PromptRow → list PromptRow;
  order_dids : list DidRow → list DidRow;
  self_loop_blocks : bool;
  fits : Z → string → bool;
  path_join : list string → string;
  sounds_dir : string;
  date_text : string → option Z;
  value_text : BodyValue → string;
  number_value : BodyValue → Num;
  internal_secret : option string;
}.

Record IvrEnv := mkIvrEnv {
  env_now : Z;
  can_write : string → bool;
  can_unlink : string → bool;
  redis_ok : bool;
}.

(** The codes of [PromptUploadError]. *)
Inductive UploadCode := too_large | invalid_type | too_long | conversion_failed | upload_failed.

Inductive IvrError :=
  | Invalid (e : IvrValidationError)
  | UploadError (code : UploadCode)
  | Thrown.

Definition IvrOp (A : Type) : Type := SE IvrWorld IvrError A.

(** ** The renderer *)

Section renderer.
Variables (server : IvrServer) (env : IvrEnv).

Abbreviation rows m := (snd <$> map_to_list m).

Definition nodes_of (ivrId : Z) (db : IvrDb) : list NodeRow :=
  order_nodes server (List.filter (λ n, n_ivrId n =? ivrId) (rows (node_rows db))).

Definition prompts_of (nodeId : Z) (db : IvrDb) : list PromptRow :=
  order_prompts server (List.filter (λ p, p_nodeId p =? nodeId) (rows (prompt_rows db))).

Definition edges_from (nodeId : Z) (db : IvrDb) : list EdgeRow :=
  order_edges server (List.filter (λ e, e_fromNodeId e =? nodeId) (rows (edge_rows db))).

(** Those that name the IVR, whose nodes they join or not. *)
Definition loadEdges (ivrId : Z) (db : IvrDb) : list EdgeRow :=
  order_edges server (List.filter (λ e, e_ivrId e =? ivrId) (rows (edge_rows db))).

Definition loadIvr (ivrId : Z) : IvrOp IvrRow := found ← asks (λ w, ivr_rows (iw_db w) !! ivrId); require found Thrown.

(** [e164.replace(/^\+/, "")] *)
Definition e164_digits (e164 : string) : string := match e164 with String "+" s => s | _ => e164 end.

Definition routed_to (tenantId ivrId : Z) (d : DidRow) : bool :=
  (did_tenantId d =? tenantId) && String.eqb (did_routeKind d) "ivr" &&
  String.eqb (sort_key server (did_routeTarget d)) (sort_key server (zs ivrId)).

(** The audio of the disclosure is not among the columns that are read. *)
Definition toBuilderDid (d : DidRow) : BuilderDid :=
  mkBuilderDid (did_e164 d) (e164_digits (did_e164 d)) (did_defaultLang d) (did_ivrTimeoutSec d) None.

Definition loadDids (ivrId tenantId : Z) (db : IvrDb) : list BuilderDid :=
  toBuilderDid <$> order_dids server (List.filter (routed_to tenantId ivrId) (rows (did_rows db))).

Definition localPromptPath (tenantId ivrId nodeId : Z) (lang : string) : string :=
  path_join server [sounds_dir server; "t" +:+ zs tenantId; zs ivrId; zs nodeId +:+ "_" +:+ lang +:+ ".wav"].

Definition toBuilderNode (ivr : IvrRow) (db : IvrDb) (n : NodeRow) : BuilderNode :=
  mkBuilderNode (n_id n) (n_nodeType n) (n_name n) (n_collectMin n) (n_collectMax n) (n_collectTerminators n)
    (n_timeoutMs n) (n_invalidMax n) (n_actionTarget n)
    ((λ p, mkPromptVariant (p_lang p) (localPromptPath (i_tenantId ivr) (i_id ivr) (n_id n) (p_lang p))) <$> prompts_of (n_id n) db).

Definition toBuilderEdge (e : EdgeRow) : BuilderEdge :=
  mkBuilderEdge (e_fromNodeId e) (e_onInput e) (e_toNodeId e) (e_label e) (e_sortOrder e).

Definition toBuilderIvr (ivr : IvrRow) (entry : Z) (db : IvrDb) : BuilderIvr :=
  mkBuilderIvr (i_id ivr) entry (toBuilderNode ivr db <$> nodes_of (i_id ivr) db) (toBuilderEdge <$> loadEdges (i_id ivr) db).

(** What is validated. *)
Definition row_graph (ivr : IvrRow) (db : IvrDb) : IvrGraph :=
  mkGraph (i_entryNodeId ivr) ((λ n, mkNode (n_id n) (n_nodeType n)) <$> nodes_of (i_id ivr) db)
    ((λ e, mkEdge (e_fromNodeId e) (e_onInput e) (e_toNodeId e)) <$> loadEdges (i_id ivr) db).

Definition default_name (ivrId : Z) : string := "70_ivr_" +:+ zs ivrId +:+ ".xml".
Definition public_name (did : BuilderDid) : string := "10_did_" +:+ d_e164Digits did +:+ ".xml".

(** A file is there whole, or as it was. *)
Definition writeXmlAtomic (on_files : (gmap string string → gmap string string) → IvrWorld → IvrWorld) (name content : string)
    : IvrOp unit :=
  _ ← check (can_write env name) Thrown;
  update (on_files <[ name := content ]>).

Fixpoint write_dids (ivr : BuilderIvr) (dids : list BuilderDid) : IvrOp unit :=
  match dids with
  | [] => mret ()
  | did :: rest =>
      _ ← writeXmlAtomic on_public_files (public_name did) (buildPublicContextXml did ivr);
      write_dids ivr rest
  end.

Definition reloadXml : IvrOp unit :=
  _ ← check (redis_ok env) Thrown;
  update count_reload.

Definition set_depth (depth : nat) (ivr : IvrRow) : IvrRow :=
  mkIvrRow (i_id ivr) (i_tenantId ivr) (i_name ivr) (i_description ivr) (i_entryNodeId ivr) (i_active ivr) (Z.of_nat depth)
    (i_createdAt ivr) (env_now env).

Definition validated_depth (g : IvrGraph) : IvrOp nat :=
  match validateIvrGraph g with Ok d => mret d | Err e => raise (Invalid e) end.

Definition render (ivrId : Z) : IvrOp unit :=
  ivr ← loadIvr ivrId;
  graph ← asks (λ w, row_graph ivr (iw_db w));
  depth ← validated_depth graph;
  _ ← update (on_tables (with_ivr_rows <[ ivrId := set_depth depth ivr ]>));
  match truthy_id (i_entryNodeId ivr) with
  | None => mret ()
  | Some entry =>
      built ← asks (λ w, toBuilderIvr ivr entry (iw_db w));
      _ ← writeXmlAtomic on_default_files (default_name ivrId) (buildDefaultContextXml built);
      dids ← asks (λ w, loadDids ivrId (i_tenantId ivr) (iw_db w));
      _ ← write_dids built dids;
      reloadXml
  end.

(** [fs.unlink(name).catch(() => undefined)] *)
Definition unlink (on_files : (gmap string string → gmap string string) → IvrWorld → IvrWorld) (name : string) (w : IvrWorld) : IvrWorld :=
  if can_unlink env name then on_files (delete name) w else w.

Definition remove (ivrId tenantId : Z) : IvrOp unit :=
  _ ← update (unlink on_default_files (default_name ivrId));
  dids ← asks (λ w, loadDids ivrId tenantId (iw_db w));
  _ ← update (λ w, fold_left (λ w did, unlink on_public_files (public_name did) w) dids w);
  reloadXml.

(** ** What the routes call *)

(** Whatever is thrown is dropped, [.catch(() => undefined)]. *)
Definition dropping (m : IvrOp unit) : IvrOp unit := λ w, (Ok (), (m w).2).

(** Of what rendering throws, only an invalid graph is thrown on. *)
Definition triggerRender (ivrId : Z) : IvrOp unit := λ w,
  match render ivrId w with
  | (Err (Invalid e), w') => (Err (Invalid e), w')
  | (_, w') => (Ok (), w')
  end.

Definition triggerRemove (ivrId tenantId : Z) : IvrOp unit := dropping (remove ivrId tenantId).

End renderer.
