(* ===== verification/IvrAdmin.v ===== *)
(** The administration of IVRs, [api/src/routes/admin/ivr.ts]: schemas, routes and analytics,
    with the upload of prompts, [api/src/services/ivr/PromptUploader.ts].

    A request is answered in a world ([IvrStore]) that it may change; an exception keeps what
    was done before it.  The upload's programs ([PromptTools]) are part of the request. *)

From Stdlib Require Import SpecFloat.
From S2P Require Import Prelude StateError JsNumber Zod Calendar Rbac Auth Ivr IvrXml IvrStore.

#[local] Open Scope Z_scope.

(** ** Schemas *)

Record IvrInput := mkIvrInput { ii_name : string; ii_description : option string }.

(** [None] is [undefined]. *)
Record IvrPatch := mkIvrPatch {
  ip_name : option string;
  ip_description : option (option string);
  ip_active : option bool;
}.

Record NodeInput := mkNodeInput {
  ni_name : string;
  ni_nodeType : IvrNodeType;
  ni_collectMin : Z;
  ni_collectMax : Z;
  ni_collectTerminators : string;
  ni_timeoutMs : Z;
  ni_interDigitMs : Z;
  ni_invalidMax : Z;
  ni_actionTarget : option string;
  ni_positionX : Z;
  ni_positionY : Z;
  ni_isEntryNode : bool;
}.

Record NodePatch := mkNodePatch {
  np_name : option string;
  np_nodeType : option IvrNodeType;
  np_collectMin : option Z;
  np_collectMax : option Z;
  np_collectTerminators : option string;
  np_timeoutMs : option Z;
  np_interDigitMs : option Z;
  np_invalidMax : option Z;
  np_actionTarget : option (option string);
  np_positionX : option Z;
  np_positionY : option Z;
  np_isEntryNode : option bool;
}.

Record EdgeInput := mkEdgeInput {
  ei_onInput : string;
  ei_toNodeId : option Z;
  ei_label : option string;
  ei_sortOrder : Z;
}.

Record EdgePatch := mkEdgePatch {
  ep_onInput : option string;
  ep_toNodeId : option (option Z);
  ep_label : option (option string);
  ep_sortOrder : option Z;
}.

Definition name_text : BodyValue → option string := read_text (z_string 1 128 any_text).
Definition description_text : BodyValue → option (option string) := or_null (read_text (z_string 0 2000 any_text)).

Definition IvrCreateSchema (body : option Body) : option IvrInput :=
  b ← body;
  name ← needed "name" (z_string 1 128 any_text) text_of b;
  description ← member_or "description" description_text None b;
  Some (mkIvrInput name description).

Definition IvrUpdateSchema (body : option Body) : option IvrPatch :=
  b ← body;
  name ← member_opt "name" name_text b;
  description ← member_opt "description" description_text b;
  active ← member_opt "active" read_bool b;
  Some (mkIvrPatch name description active).

Definition NODE_TYPES : list IvrNodeType :=
  [collect; lang_select; terminal_ingroup; terminal_hangup; terminal_voicemail; terminal_transfer; terminal_callback].

Definition NodeTypeEnum (v : BodyValue) : option IvrNodeType :=
  s ← read_text (z_enum (node_type_name <$> NODE_TYPES)) v; List.find (λ t, String.eqb (node_type_name t) s) NODE_TYPES.

Definition int_between (lo hi : Z) (v : BodyValue) : option Z :=
  n ← read_integer v; if (lo <=? n) && (n <=? hi) then Some n else None.

Definition needed_member {A} (name : string) (read : BodyValue → option A) (b : Body) : option A := b !! name ≫= read.

Definition terminators_text : BodyValue → option string := read_text (z_string 0 8 any_text).
Definition target_member : BodyValue → option (option string) := or_null (read_text (z_string 0 128 any_text)).

Definition NodeCreateSchema (body : option Body) : option NodeInput :=
  b ← body;
  name ← needed_member "name" name_text b;
  nodeType ← needed_member "nodeType" NodeTypeEnum b;
  collectMin ← member_or "collectMin" (int_between 1 9) 1 b;
  collectMax ← member_or "collectMax" (int_between 1 9) 1 b;
  terminators ← member_or "collectTerminators" terminators_text "none"%string b;
  timeoutMs ← member_or "timeoutMs" (int_between 500 30000) 5000 b;
  interDigitMs ← member_or "interDigitMs" (int_between 100 10000) 3000 b;
  invalidMax ← member_or "invalidMax" (int_between 1 9) 3 b;
  actionTarget ← member_or "actionTarget" target_member None b;
  positionX ← member_or "positionX" read_integer 0 b;
  positionY ← member_or "positionY" read_integer 0 b;
  isEntryNode ← member_or "isEntryNode" read_bool false b;
  Some (mkNodeInput name nodeType collectMin collectMax terminators timeoutMs interDigitMs invalidMax actionTarget
          positionX positionY isEntryNode).

(** [NodeCreateSchema.partial()]: what is missing stays so. *)
Definition NodeUpdateSchema (body : option Body) : option NodePatch :=
  b ← body;
  name ← member_opt "name" name_text b;
  nodeType ← member_opt "nodeType" NodeTypeEnum b;
  collectMin ← member_opt "collectMin" (int_between 1 9) b;
  collectMax ← member_opt "collectMax" (int_between 1 9) b;
  terminators ← member_opt "collectTerminators" terminators_text b;
  timeoutMs ← member_opt "timeoutMs" (int_between 500 30000) b;
  interDigitMs ← member_opt "interDigitMs" (int_between 100 10000) b;
  invalidMax ← member_opt "invalidMax" (int_between 1 9) b;
  actionTarget ← member_opt "actionTarget" target_member b;
  positionX ← member_opt "positionX" read_integer b;
  positionY ← member_opt "positionY" read_integer b;
  isEntryNode ← member_opt "isEntryNode" read_bool b;
  Some (mkNodePatch name nodeType collectMin collectMax terminators timeoutMs interDigitMs invalidMax actionTarget
          positionX positionY isEntryNode).

Definition input_text : BodyValue → option string := read_text (z_string 1 16 any_text).
Definition label_member : BodyValue → option (option string) := or_null (read_text (z_string 0 64 any_text)).

Definition EdgeCreateSchema (body : option Body) : option EdgeInput :=
  b ← body;
  onInput ← needed_member "onInput" input_text b;
  toNodeId ← member_or "toNodeId" (or_null coerce_bigint) None b;
  label ← member_or "label" label_member None b;
  sortOrder ← member_or "sortOrder" (int_between 0 255) 0 b;
  Some (mkEdgeInput onInput toNodeId label sortOrder).

Definition EdgeUpdateSchema (body : option Body) : option EdgePatch :=
  b ← body;
  onInput ← member_opt "onInput" input_text b;
  toNodeId ← member_opt "toNodeId" (or_null coerce_bigint) b;
  label ← member_opt "label" label_member b;
  sortOrder ← member_opt "sortOrder" (int_between 0 255) b;
  Some (mkEdgePatch onInput toNodeId label sortOrder).

(** ** Replies *)

Record IvrDto := mkIvrDto {
  iv_id : string;
  iv_tenantId : string;
  iv_name : string;
  iv_description : option string;
  iv_entryNodeId : option string;
  iv_active : bool;
  iv_maxDepthValidated : Z;
  iv_createdAt : string;
  iv_updatedAt : string;
}.

Record EdgeDto := mkEdgeDto {
  ed_id : string;
  ed_tenantId : string;
  ed_ivrId : string;
  ed_fromNodeId : string;
  ed_onInput : string;
  ed_toNodeId : option string;
  ed_label : option string;
  ed_sortOrder : Z;
}.

Record PromptDto := mkPromptDto {
  pr_id : string;
  pr_tenantId : string;
  pr_nodeId : string;
  pr_lang : string;
  pr_fileUri : string;
  pr_fileSizeBytes : Z;
  pr_durationMs : Z;
}.

(** The row of a node with its identifiers as texts, its edges and prompts. *)
Record NodeDto := mkNodeDto {
  nd_id : string;
  nd_tenantId : string;
  nd_ivrId : string;
  nd_row : NodeRow;
  nd_edges : list EdgeDto;
  nd_prompts : list PromptDto;
}.

Definition serializeIvr (i : IvrRow) : IvrDto :=
  mkIvrDto (zs (i_id i)) (zs (i_tenantId i)) (i_name i) (i_description i) (zs <$> truthy_id (i_entryNodeId i)) (i_active i)
    (i_maxDepthValidated i) (toISOString (i_createdAt i)) (toISOString (i_updatedAt i)).

Definition serializeEdge (e : EdgeRow) : EdgeDto :=
  mkEdgeDto (zs (e_id e)) (zs (e_tenantId e)) (zs (e_ivrId e)) (zs (e_fromNodeId e)) (e_onInput e)
    (zs <$> truthy_id (e_toNodeId e)) (e_label e) (e_sortOrder e).

Definition serializePrompt (p : PromptRow) : PromptDto :=
  mkPromptDto (zs (p_id p)) (zs (p_tenantId p)) (zs (p_nodeId p)) (p_lang p) (p_fileUri p) (p_fileSizeBytes p) (p_durationMs p).

Definition serializeNode (n : NodeRow) (edges : list EdgeRow) (prompts : list PromptRow) : NodeDto :=
  mkNodeDto (zs (n_id n)) (zs (n_tenantId n)) (zs (n_ivrId n)) n (serializeEdge <$> edges) (serializePrompt <$> prompts).

Record NodeStat := mkNodeStat {
  ns_entryCount : Z;
  ns_dropOffCount : Z;
  ns_digitDist : gmap string Z;
  ns_timeoutCount : Z;
  ns_totalMs : Z;
}.

Record NodeReport := mkNodeReport {
  nr_nodeId : string;
  nr_name : string;
  nr_entryCount : Z;
  nr_dropOffCount : Z;
  nr_dropOffRate : Num;
  nr_digitDistribution : gmap string Z;
  nr_timeoutCount : Z;
  nr_avgDurationMs : Num;
}.

Inductive IvrReply :=
  | IvFail (status : Z) (code : string)
  | IvThrown
  | IvList (l : list (IvrDto * nat))
  | IvOne (status : Z) (ivr : IvrDto)
  | IvDetail (ivr : IvrDto) (nodes : list NodeDto)
  | IvNode (status : Z) (node : NodeDto)
  | IvEdge (status : Z) (edge : EdgeDto)
  | IvPrompt (uri : string) (durationMs : Num) (sizeBytes : Z)
  | IvStats (sessionCount : Z) (completionRate : Num) (nodes : list NodeReport)
  | IvOk
  | IvNoContent.

Definition not_found : IvrReply := IvFail 404 "not_found".
Definition validation_error : IvrReply := IvFail 400 "validation_error".

(** [BigInt(s)]; the library refuses what a column of 64 bits does not hold. *)
Definition id_of (raw : string) : IvrOp Z :=
  n ← require (BigInt raw) Thrown;
  _ ← check ((-9223372036854775808 <=? n) && (n <=? 9223372036854775807)) Thrown;
  mret n.

(** [BigInt(s)] alone; [render] gets what no row has when the library refuses it. *)
Definition rendered_id (raw : string) : IvrOp Z := require (BigInt raw) Thrown.

(** ** The upload of prompts *)

Definition MAX_FILE_BYTES : Z := 10 * 1024 * 1024.
Definition MAX_DURATION_SEC : Z := 120.
Definition ALLOWED_MIMES : list string := ["audio/wav"; "audio/x-wav"; "audio/mpeg"; "audio/mp3"; "audio/wave"]%string.

(** What the programs and stores do: whether temporary files can be written, whether [ffmpeg] converts,
    the number [ffprobe] prints ([None] when it fails), the size of what was converted; whether there are
    keys for S3, its client, and whether the file can be stored. *)
Record PromptTools := mkPromptTools {
  tmp_ok : bool;
  ffmpeg_ok : bool;
  ffprobe : option Num;
  converted_size : Z;
  s3_keys : bool;
  s3_client : bool;
  store_ok : bool;
}.

Record PromptForm := mkPromptForm { pf_lang : option string; pf_file : option (option string * Z) }.

Section routes.
Variables (server : IvrServer) (env : IvrEnv).

Abbreviation rows m := (snd <$> map_to_list m).

Definition normalizedMime (mime : string) : string := toLowerCase (trim (default EmptyString (head (split_on ";" mime)))).

Definition uploadToS3 (tools : PromptTools) (key : string) : IvrOp unit :=
  if negb (s3_keys tools) then
    _ ← check (store_ok tools) Thrown;
    update (add_upload (to_disk (path_join server (sounds_dir server :: tail (split_on "/" key)))))
  else
    _ ← check (s3_client tools) (UploadError upload_failed);
    _ ← check (store_ok tools) Thrown;
    update (add_upload (to_bucket key)).

Definition same_prompt (nodeId : Z) (lang : string) (p : PromptRow) : bool :=
  (p_nodeId p =? nodeId) && String.eqb (sort_key server (p_lang p)) (sort_key server lang).

(** The row of the node and the language, whoever's it is, or a new one. *)
Definition upsert_prompt (tenantId nodeId : Z) (lang uri : string) (size duration : Z) : IvrOp unit :=
  found ← asks (λ w, List.find (same_prompt nodeId lang) (rows (prompt_rows (iw_db w))));
  match found with
  | Some p =>
      update (on_tables (with_prompt_rows
        <[ p_id p := mkPromptRow (p_id p) (p_tenantId p) (p_nodeId p) (p_lang p) uri size duration ]>))
  | None =>
      known ← asks (λ w, bool_decide (is_Some (node_rows (iw_db w) !! nodeId)));
      _ ← check (known && fits server 5 lang) Thrown;
      update (on_tables (λ db,
        let n := next_ids db in
        with_next_ids (mkNextIds (next_ivr n) (next_node n) (next_edge n) (next_prompt n + 1))
          (with_prompt_rows <[ next_prompt n := mkPromptRow (next_prompt n) tenantId nodeId lang uri size duration ]> db)))
  end.

Definition uploadPrompt (tools : PromptTools) (tenantId ivrId nodeId : Z) (lang : string) (mime : string) (size : Z)
    : IvrOp (string * Num * Z) :=
  _ ← check (size <=? MAX_FILE_BYTES) (UploadError too_large);
  _ ← check (bool_decide (normalizedMime mime ∈ ALLOWED_MIMES)) (UploadError invalid_type);
  _ ← check (tmp_ok tools) Thrown;
  _ ← check (ffmpeg_ok tools) (UploadError conversion_failed);
  seconds ← require (ffprobe tools) Thrown;
  _ ← check (negb (bool_decide (seconds = NaN)) && negb (nltb (num MAX_DURATION_SEC) seconds)) (UploadError too_long);
  let duration := Math_round (nmul seconds (num 1000)) in
  let key := "ivr/" +:+ zs tenantId +:+ "/" +:+ zs ivrId +:+ "/" +:+ zs nodeId +:+ "_" +:+ lang +:+ ".wav" in
  let uri := "s3://vici2-media/" +:+ key in
  _ ← uploadToS3 tools key;
  ms ← require (BigInt_num duration) Thrown;
  _ ← check (0 <=? ms) Thrown;
  _ ← upsert_prompt tenantId nodeId lang uri (converted_size tools) ms;
  mret (uri, duration, converted_size tools).

(** ** IVRs *)

Definition find_ivr (tenantId ivrId : Z) (db : IvrDb) : option IvrRow :=
  i ← ivr_rows db !! ivrId; if i_tenantId i =? tenantId then Some i else None.

Definition earlier (a b : IvrRow) : bool := i_createdAt a <=? i_createdAt b.

Definition get_ivrs (tenantId : Z) : IvrOp IvrReply :=
  asks (λ w, IvList ((λ i, (serializeIvr i, length (nodes_of server (i_id i) (iw_db w)))) <$>
    sort_by earlier (order_ivrs server (List.filter (λ i, i_tenantId i =? tenantId) (rows (ivr_rows (iw_db w))))))).

Definition same_name (tenantId : Z) (name : string) (i : IvrRow) : bool :=
  (i_tenantId i =? tenantId) && String.eqb (sort_key server (i_name i)) (sort_key server name).

Definition post_ivr (tenantId : Z) (body : option Body) : IvrOp IvrReply :=
  match IvrCreateSchema body with
  | None => mret validation_error
  | Some d =>
      taken ← asks (λ w, existsb (same_name tenantId (ii_name d)) (rows (ivr_rows (iw_db w))));
      _ ← check (negb taken) Thrown;
      id ← asks (λ w, next_ivr (next_ids (iw_db w)));
      let ivr := mkIvrRow id tenantId (ii_name d) (ii_description d) None true 0 (env_now env) (env_now env) in
      _ ← update (on_tables (λ db,
            let n := next_ids db in
            with_next_ids (mkNextIds (id + 1) (next_node n) (next_edge n) (next_prompt n)) (with_ivr_rows <[ id := ivr ]> db)));
      mret (IvOne 201 (serializeIvr ivr))
  end.

(** The reply keeps the rows of the edges beside the texts, whose [bigint]s no reply can hold. *)
Definition writes_edges (edges : list EdgeRow) (reply : IvrReply) : IvrOp IvrReply :=
  _ ← check (bool_decide (edges = [])) Thrown;
  mret reply.

Definition node_detail (n : NodeRow) (db : IvrDb) : NodeDto :=
  serializeNode n (edges_from server (n_id n) db) (prompts_of server (n_id n) db).

Definition get_ivr (tenantId : Z) (rawIvr : string) : IvrOp IvrReply :=
  ivrId ← id_of rawIvr;
  found ← asks (λ w, find_ivr tenantId ivrId (iw_db w));
  match found with
  | None => mret not_found
  | Some ivr =>
      nodes ← asks (λ w, nodes_of server ivrId (iw_db w));
      edges ← asks (λ w, nodes ≫= λ n, edges_from server (n_id n) (iw_db w));
      details ← asks (λ w, (λ n, node_detail n (iw_db w)) <$> nodes);
      writes_edges edges (IvDetail (serializeIvr ivr) details)
  end.

Definition patched_ivr (d : IvrPatch) (i : IvrRow) : IvrRow :=
  mkIvrRow (i_id i) (i_tenantId i) (default (i_name i) (ip_name d)) (default (i_description i) (ip_description d)) (i_entryNodeId i)
    (default (i_active i) (ip_active d)) (i_maxDepthValidated i) (i_createdAt i) (env_now env).

(** Another IVR of the tenant has the name. *)
Definition name_taken (i : IvrRow) (db : IvrDb) : bool :=
  existsb (λ j, negb (i_id j =? i_id i) && same_name (i_tenantId i) (i_name i) j) (rows (ivr_rows db)).

Definition render_dropping (ivrId : Z) : IvrOp unit := dropping (triggerRender server env ivrId).

(** [BigInt(raw)] before what it is called for, whose exceptions are dropped. *)
Definition put_ivr (tenantId : Z) (rawIvr : string) (body : option Body) : IvrOp IvrReply :=
  match IvrUpdateSchema body with
  | None => mret validation_error
  | Some d =>
      ivrId ← id_of rawIvr;
      found ← asks (λ w, find_ivr tenantId ivrId (iw_db w));
      match found with
      | None => mret not_found
      | Some ivr =>
          let updated := patched_ivr d ivr in
          taken ← asks (λ w, name_taken updated (iw_db w));
          _ ← check (negb taken) Thrown;
          _ ← update (on_tables (with_ivr_rows <[ ivrId := updated ]>));
          _ ← (if i_active updated then render_dropping ivrId else triggerRemove server env ivrId tenantId);
          mret (IvOne 200 (serializeIvr updated))
      end
  end.

Definition delete_ivr (tenantId : Z) (rawIvr : string) : IvrOp IvrReply :=
  ivrId ← id_of rawIvr;
  found ← asks (λ w, find_ivr tenantId ivrId (iw_db w));
  match found with
  | None => mret not_found
  | Some ivr =>
      _ ← update (on_tables (with_ivr_rows <[ ivrId := patched_ivr (mkIvrPatch None None (Some false)) ivr ]>));
      _ ← triggerRemove server env ivrId tenantId;
      mret IvNoContent
  end.

(** ** Nodes *)

Definition int32 (n : Z) : bool := (-2147483648 <=? n) && (n <=? 2147483647).

Definition with_entry (entry : option Z) (i : IvrRow) : IvrRow :=
  mkIvrRow (i_id i) (i_tenantId i) (i_name i) (i_description i) entry (i_active i) (i_maxDepthValidated i) (i_createdAt i) (env_now env).

Definition post_node (tenantId : Z) (rawIvr : string) (body : option Body) : IvrOp IvrReply :=
  match NodeCreateSchema body with
  | None => mret validation_error
  | Some d =>
      ivrId ← id_of rawIvr;
      found ← asks (λ w, find_ivr tenantId ivrId (iw_db w));
      match found with
      | None => mret not_found
      | Some ivr =>
          _ ← check (int32 (ni_positionX d) && int32 (ni_positionY d)) Thrown;
          id ← asks (λ w, next_node (next_ids (iw_db w)));
          let node := mkNodeRow id tenantId ivrId (ni_name d) (ni_nodeType d) (ni_collectMin d) (ni_collectMax d)
                        (ni_collectTerminators d) (ni_timeoutMs d) (ni_interDigitMs d) (ni_invalidMax d) (ni_actionTarget d)
                        (ni_positionX d) (ni_positionY d) (env_now env) (env_now env) in
          _ ← update (on_tables (λ db,
                let n := next_ids db in
                with_next_ids (mkNextIds (next_ivr n) (id + 1) (next_edge n) (next_prompt n)) (with_node_rows <[ id := node ]> db)));
          _ ← (if ni_isEntryNode d || bool_decide (truthy_id (i_entryNodeId ivr) = None)
               then update (on_tables (with_ivr_rows <[ ivrId := with_entry (Some id) ivr ]>)) else mret ());
          _ ← render_dropping ivrId;
          mret (IvNode 201 (serializeNode node [] []))
      end
  end.

(** Neither [interDigitMs] nor [isEntryNode] is written. *)
Definition patched_node (d : NodePatch) (n : NodeRow) : NodeRow :=
  mkNodeRow (n_id n) (n_tenantId n) (n_ivrId n) (default (n_name n) (np_name d)) (default (n_nodeType n) (np_nodeType d))
    (default (n_collectMin n) (np_collectMin d)) (default (n_collectMax n) (np_collectMax d))
    (default (n_collectTerminators n) (np_collectTerminators d)) (default (n_timeoutMs n) (np_timeoutMs d)) (n_interDigitMs n)
    (default (n_invalidMax n) (np_invalidMax d)) (default (n_actionTarget n) (np_actionTarget d))
    (default (n_positionX n) (np_positionX d)) (default (n_positionY n) (np_positionY d)) (n_createdAt n) (env_now env).

Definition find_node (tenantId ivrId nodeId : Z) (db : IvrDb) : option NodeRow :=
  n ← node_rows db !! nodeId; if (n_tenantId n =? tenantId) && (n_ivrId n =? ivrId) then Some n else None.

Definition put_node (tenantId : Z) (rawIvr rawNode : string) (body : option Body) : IvrOp IvrReply :=
  match NodeUpdateSchema body with
  | None => mret validation_error
  | Some d =>
      nodeId ← id_of rawNode;
      ivrId ← id_of rawIvr;
      found ← asks (λ w, find_node tenantId ivrId nodeId (iw_db w));
      match found with
      | None => mret not_found
      | Some node =>
          let updated := patched_node d node in
          _ ← check (int32 (n_positionX updated) && int32 (n_positionY updated)) Thrown;
          _ ← update (on_tables (with_node_rows <[ nodeId := updated ]>));
          edges ← asks (λ w, edges_from server nodeId (iw_db w));
          reply ← asks (λ w, IvNode 200 (node_detail updated (iw_db w)));
          _ ← render_dropping ivrId;
          writes_edges edges reply
      end
  end.

(** An edge that leads to the node keeps it, one that leaves it goes with it. *)
Definition keeps_node (nodeId : Z) (e : EdgeRow) : bool :=
  bool_decide (e_toNodeId e = Some nodeId) && (negb (e_fromNodeId e =? nodeId) || self_loop_blocks server).

Definition drop_node (nodeId : Z) (db : IvrDb) : IvrDb :=
  with_node_rows (delete nodeId)
    (with_edge_rows (filter (λ '(_, e), e_fromNodeId e ≠ nodeId))
      (with_prompt_rows (filter (λ '(_, p), p_nodeId p ≠ nodeId)) db)).

Definition delete_node (tenantId : Z) (rawIvr rawNode : string) : IvrOp IvrReply :=
  nodeId ← id_of rawNode;
  ivrId ← id_of rawIvr;
  found ← asks (λ w, find_node tenantId ivrId nodeId (iw_db w));
  match found with
  | None => mret not_found
  | Some _ =>
      kept ← asks (λ w, existsb (keeps_node nodeId) (rows (edge_rows (iw_db w))));
      _ ← check (negb kept) Thrown;
      _ ← update (on_tables (drop_node nodeId));
      ivr ← asks (λ w, ivr_rows (iw_db w) !! ivrId);
      _ ← match ivr with
          | Some i => if bool_decide (i_entryNodeId i = Some nodeId)
                      then update (on_tables (with_ivr_rows <[ ivrId := with_entry None i ]>)) else mret ()
          | None => mret ()
          end;
      _ ← render_dropping ivrId;
      mret IvNoContent
  end.

(** ** Edges *)

(** The keys of an edge: its nodes exist, and no other edge of the node has the input. *)
Definition edge_fits (e : EdgeRow) (db : IvrDb) : bool :=
  bool_decide (is_Some (node_rows db !! e_fromNodeId e)) &&
  from_option (λ n, bool_decide (is_Some (node_rows db !! n))) true (e_toNodeId e) &&
  negb (existsb (λ f, negb (e_id f =? e_id e) && (e_fromNodeId f =? e_fromNodeId e) &&
                      String.eqb (sort_key server (e_onInput f)) (sort_key server (e_onInput e))) (rows (edge_rows db))).

(** Neither the IVR nor the node is looked up for the tenant. *)
Definition post_edge (tenantId : Z) (rawIvr rawNode : string) (body : option Body) : IvrOp IvrReply :=
  match EdgeCreateSchema body with
  | None => mret validation_error
  | Some d =>
      ivrId ← id_of rawIvr;
      nodeId ← id_of rawNode;
      id ← asks (λ w, next_edge (next_ids (iw_db w)));
      let edge := mkEdgeRow id tenantId ivrId nodeId (ei_onInput d) (ei_toNodeId d) (ei_label d) (ei_sortOrder d) in
      fit ← asks (λ w, edge_fits edge (iw_db w));
      _ ← check fit Thrown;
      _ ← update (on_tables (λ db,
            let n := next_ids db in
            with_next_ids (mkNextIds (next_ivr n) (next_node n) (id + 1) (next_prompt n)) (with_edge_rows <[ id := edge ]> db)));
      _ ← render_dropping ivrId;
      mret (IvEdge 201 (serializeEdge edge))
  end.

Definition patched_edge (d : EdgePatch) (e : EdgeRow) : EdgeRow :=
  mkEdgeRow (e_id e) (e_tenantId e) (e_ivrId e) (e_fromNodeId e) (default (e_onInput e) (ep_onInput d))
    (default (e_toNodeId e) (ep_toNodeId d)) (default (e_label e) (ep_label d)) (default (e_sortOrder e) (ep_sortOrder d)).

Definition find_edge (tenantId edgeId : Z) (db : IvrDb) : option EdgeRow :=
  e ← edge_rows db !! edgeId; if e_tenantId e =? tenantId then Some e else None.

(** The edge is the tenant's, of whatever IVR; the IVR of the path is rendered. *)
Definition put_edge (tenantId : Z) (rawIvr rawEdge : string) (body : option Body) : IvrOp IvrReply :=
  match EdgeUpdateSchema body with
  | None => mret validation_error
  | Some d =>
      edgeId ← id_of rawEdge;
      found ← asks (λ w, find_edge tenantId edgeId (iw_db w));
      match found with
      | None => mret not_found
      | Some edge =>
          let updated := patched_edge d edge in
          fit ← asks (λ w, edge_fits updated (iw_db w));
          _ ← check fit Thrown;
          _ ← update (on_tables (with_edge_rows <[ edgeId := updated ]>));
          ivrId ← rendered_id rawIvr;
          _ ← render_dropping ivrId;
          mret (IvEdge 200 (serializeEdge updated))
      end
  end.

Definition delete_edge (tenantId : Z) (rawIvr rawEdge : string) : IvrOp IvrReply :=
  edgeId ← id_of rawEdge;
  found ← asks (λ w, find_edge tenantId edgeId (iw_db w));
  match found with
  | None => mret not_found
  | Some _ =>
      _ ← update (on_tables (with_edge_rows (delete edgeId)));
      ivrId ← rendered_id rawIvr;
      _ ← render_dropping ivrId;
      mret IvNoContent
  end.

(** ** Prompts *)

Definition upload_status (c : UploadCode) : IvrReply :=
  match c with
  | too_large => IvFail 413 "too_large"
  | invalid_type => IvFail 415 "invalid_type"
  | too_long => IvFail 422 "too_long"
  | conversion_failed => IvFail 422 "conversion_failed"
  | upload_failed => IvFail 502 "upload_failed"
  end.

(** A [PromptUploadError] is a reply. *)
Definition answering_uploads (m : IvrOp IvrReply) : IvrOp IvrReply := λ w,
  match m w with
  | (Err (UploadError c), w') => (Ok (upload_status c), w')
  | r => r
  end.

(** A request without a body throws; the dialplan is not rendered. *)
Definition post_prompt (tools : PromptTools) (tenantId : Z) (rawIvr rawNode : string) (form : option PromptForm) : IvrOp IvrReply :=
  f ← require form Thrown;
  match pf_file f with
  | None => mret (IvFail 400 "missing_file")
  | Some (mime, size) =>
      answering_uploads (
        ivrId ← require (BigInt rawIvr) Thrown;
        nodeId ← require (BigInt rawNode) Thrown;
        r ← uploadPrompt tools tenantId ivrId nodeId (default "en"%string (pf_lang f)) (default "audio/wav"%string mime) size;
        mret (IvPrompt r.1.1 r.1.2 r.2))
  end.

Definition delete_prompt (tenantId : Z) (rawPrompt : string) : IvrOp IvrReply :=
  promptId ← id_of rawPrompt;
  found ← asks (λ w, prompt_rows (iw_db w) !! promptId);
  match found with
  | Some p =>
      if p_tenantId p =? tenantId
      then _ ← update (on_tables (with_prompt_rows (delete promptId))); mret IvNoContent
      else mret not_found
  | None => mret not_found
  end.

(** ** Analytics *)

Definition in_window (tenantId ivrId from to : Z) (r : TraversalRow) : bool :=
  (t_tenantId r =? tenantId) && (t_ivrId r =? ivrId) && (from <=? t_entered_at r) && (t_entered_at r <? to).

Definition no_stat : NodeStat := mkNodeStat 0 0 ∅ 0 0.

Definition count_row (r : TraversalRow) (s : NodeStat) : NodeStat :=
  mkNodeStat (ns_entryCount s + 1)
    (ns_dropOffCount s + if String.eqb (t_outcome r) "hangup" then 1 else 0)
    (match t_digit r with
     | None | Some EmptyString => ns_digitDist s
     | Some d => if String.eqb (t_outcome r) "digit" then <[ d := default 0 (ns_digitDist s !! d) + 1 ]> (ns_digitDist s)
                 else ns_digitDist s
     end)
    (ns_timeoutCount s + if String.eqb (t_outcome r) "timeout" then 1 else 0)
    (ns_totalMs s + t_duration_ms r).

(** A [Map] in the order of its first keys. *)
Fixpoint tally (r : TraversalRow) (l : list (Z * NodeStat)) : list (Z * NodeStat) :=
  match l with
  | [] => [(t_node_id r, count_row r no_stat)]
  | (n, s) :: l' => if n =? t_node_id r then (n, count_row r s) :: l' else (n, s) :: tally r l'
  end.

Definition node_stats (log : list TraversalRow) : list (Z * NodeStat) := fold_left (λ l r, tally r l) log [].

Definition rate (part whole : Z) : Num := if 0 <? whole then ndiv (num part) (num whole) else num 0.

Definition report (names : gmap Z string) (s : Z * NodeStat) : NodeReport :=
  let '(n, st) := s in
  mkNodeReport (zs n) (default (zs n) (names !! n)) (ns_entryCount st) (ns_dropOffCount st)
    (rate (ns_dropOffCount st) (ns_entryCount st)) (ns_digitDist st) (ns_timeoutCount st)
    (if 0 <? ns_entryCount st then Math_round (ndiv (num (ns_totalMs st)) (num (ns_entryCount st))) else num 0).

Definition analytics (names : gmap Z string) (log : list TraversalRow) : IvrReply :=
  let sessionCount := Z.of_nat (length (remove_dups (t_session_uuid <$> log))) in
  let terminalCount := Z.of_nat (length (List.filter (λ r, String.eqb (t_outcome r) "terminal") log)) in
  IvStats sessionCount (rate terminalCount sessionCount) (report names <$> node_stats log).

(** A date of the query, or another; a text that is no date throws. *)
Definition date_or (text : option string) (otherwise : Z) : IvrOp Z :=
  match text with
  | None | Some EmptyString => mret otherwise
  | Some s => require (date_text server s) Thrown
  end.

Definition get_analytics (tenantId : Z) (rawIvr : string) (fromText toText : option string) : IvrOp IvrReply :=
  from ← date_or fromText (env_now env - 30 * 24 * 3600 * 1000);
  to ← date_or toText (env_now env);
  ivrId ← id_of rawIvr;
  log ← asks (λ w, List.filter (in_window tenantId ivrId from to) (traversal_log (iw_db w)));
  names ← asks (λ w, n_name <$> filter (λ '(_, n), n_ivrId n = ivrId ∧ n_tenantId n = tenantId) (node_rows (iw_db w)));
  mret (analytics names log).

(** ** Numbers *)

(** The value of [ivrId] when it is truthy, with its text. *)
Definition target_value (v : option BodyValue) : option (BodyValue * string) :=
  match v with
  | None | Some BNull | Some (BBool false) | Some (BText EmptyString) => None
  | Some (BText s) => Some (BText s, s)
  | Some (BNum x) => if truthy x then Some (BNum x, value_text server (BNum x)) else None
  | Some w => Some (w, value_text server w)
  end.

Definition with_route (kind target : string) (d : DidRow) : DidRow :=
  mkDidRow (did_tenantId d) (did_e164 d) kind target (did_active d) (did_defaultLang d) (did_ivrTimeoutSec d).

(** Whether the IVR exists is not looked up; the number is changed before its identifier is read. *)
Definition put_did (tenantId : Z) (rawDid : string) (body : option Body) : IvrOp IvrReply :=
  b ← require body Thrown;
  let target := target_value (b !! "ivrId"%string) in
  didId ← id_of rawDid;
  found ← asks (λ w, did_rows (iw_db w) !! didId);
  match found with
  | None => mret not_found
  | Some did =>
      if negb (did_tenantId did =? tenantId) then mret not_found
      else
        _ ← check (from_option (λ t : BodyValue * string, fits server 64 t.2) true target) Thrown;
        _ ← update (on_tables (with_did_rows <[ didId :=
              from_option (λ t : BodyValue * string, with_route "ivr" t.2 did) (with_route "ingroup" EmptyString did) target ]>));
        _ ← match target with
            | Some (v, _) => ivrId ← require (coerce_bigint v) Thrown; render_dropping ivrId
            | None => mret ()
            end;
        mret IvOk
  end.

(** ** Every request *)

Inductive IvrCall :=
  | call_ivrs
  | call_create_ivr (body : option Body)
  | call_ivr (ivrId : string)
  | call_update_ivr (ivrId : string) (body : option Body)
  | call_delete_ivr (ivrId : string)
  | call_create_node (ivrId : string) (body : option Body)
  | call_update_node (ivrId nodeId : string) (body : option Body)
  | call_delete_node (ivrId nodeId : string)
  | call_create_edge (ivrId nodeId : string) (body : option Body)
  | call_update_edge (ivrId edgeId : string) (body : option Body)
  | call_delete_edge (ivrId edgeId : string)
  | call_upload_prompt (tools : PromptTools) (ivrId nodeId : string) (form : option PromptForm)
  | call_delete_prompt (promptId : string)
  | call_analytics (ivrId : string) (from to : option string)
  | call_assign_did (didId : string) (body : option Body).

Definition ivr_verb (c : IvrCall) : Verb :=
  match c with
  | call_ivrs | call_ivr _ | call_analytics _ _ _ => user_read
  | call_delete_ivr _ => user_create
  | _ => user_edit
  end.

Definition ivr_handler (tenantId : Z) (c : IvrCall) : IvrOp IvrReply :=
  match c with
  | call_ivrs => get_ivrs tenantId
  | call_create_ivr b => post_ivr tenantId b
  | call_ivr i => get_ivr tenantId i
  | call_update_ivr i b => put_ivr tenantId i b
  | call_delete_ivr i => delete_ivr tenantId i
  | call_create_node i b => post_node tenantId i b
  | call_update_node i n b => put_node tenantId i n b
  | call_delete_node i n => delete_node tenantId i n
  | call_create_edge i n b => post_edge tenantId i n b
  | call_update_edge i e b => put_edge tenantId i e b
  | call_delete_edge i e => delete_edge tenantId i e
  | call_upload_prompt tools i n f => post_prompt tools tenantId i n f
  | call_delete_prompt p => delete_prompt tenantId p
  | call_analytics i from to => get_analytics tenantId i from to
  | call_assign_did d b => put_did tenantId d b
  end.

Definition serve_ivr (auth : option ApiAuth) (c : IvrCall) (w : IvrWorld) : IvrReply * IvrWorld :=
  match requirePermission (ivr_verb c) None auth, auth with
  | Some e, _ => (IvFail (statusCode e) (code e), w)
  | None, None => (IvFail 401 "not_authenticated", w)
  | None, Some a =>
      match ivr_handler (a_tenantId a) c w with
      | (Ok r, w') => (r, w')
      | (Err _, w') => (IvThrown, w')
      end
  end.

(** ** The log of calls, [api/src/routes/internal/ivr-hooks.ts] *)

Record TraversalInput := mkTraversalInput {
  ti_session_uuid : string;
  ti_ivr_id : Z;
  ti_tenant_id : Z;
  ti_lang : string;
  ti_path : list string;
  ti_digits : list string;
  ti_final_outcome : string;
  ti_total_duration_ms : Z;
}.

Definition texts_member (v : BodyValue) : option (list string) :=
  match admit_value (z_strings None) v with Some (VTexts l) => Some l | _ => None end.

Definition TraversalLogSchema (body : option Body) : option TraversalInput :=
  b ← body;
  session ← needed_member "session_uuid" (read_text (z_string 1 40 any_text)) b;
  ivr ← needed_member "ivr_id" coerce_bigint b;
  tenant ← member_or "tenant_id" coerce_bigint 1 b;
  lang ← member_or "lang" (read_text (z_string 0 5 any_text)) "en"%string b;
  path ← needed_member "path" texts_member b;
  digits ← needed_member "digits" texts_member b;
  outcome ← needed_member "final_outcome" (read_text (z_string 0 16 any_text)) b;
  total ← needed_member "total_duration_ms" (λ v, n ← BigInt_num (number_value server v); if 0 <=? n then Some n else None) b;
  Some (mkTraversalInput session ivr tenant lang path digits outcome total).

Definition final_outcomes : list string := ["terminal"; "hangup"; "timeout"]%string.

(** The row of a node, the last one with how the call ended. *)
Definition log_row (d : TraversalInput) (idx : nat) (nodeId : Z) : TraversalRow :=
  let is_last := Nat.eqb idx (length (ti_path d) - 1) in
  mkTraversal (ti_tenant_id d) (ti_ivr_id d) nodeId
    (if is_last then if bool_decide (ti_final_outcome d ∈ final_outcomes) then ti_final_outcome d else "digit" else "digit")%string
    (ti_digits d !! idx) (if is_last then ti_total_duration_ms d else 0) (ti_session_uuid d) (env_now env) (ti_lang d).

Definition log_rows (d : TraversalInput) : option (list TraversalRow) :=
  ids ← mapM BigInt (ti_path d); Some (imap (log_row d) ids).

Definition int64 (n : Z) : bool := (-9223372036854775808 <=? n) && (n <=? 9223372036854775807).

Definition row_fits (r : TraversalRow) : bool :=
  int64 (t_tenantId r) && int64 (t_ivrId r) && int64 (t_node_id r) && from_option (fits server 8) true (t_digit r) &&
  (t_duration_ms r <=? 4294967295).

Definition append_log (l : list TraversalRow) (db : IvrDb) : IvrDb :=
  mkIvrDb (ivr_rows db) (node_rows db) (edge_rows db) (prompt_rows db) (did_rows db) (traversal_log db ++ l) (next_ids db).

Definition has_secret (secret : option string) : bool :=
  match internal_secret server with
  | None | Some EmptyString => false
  | Some expected => bool_decide (secret = Some expected)
  end.

(** The number of rows that were written, with the reply. *)
Definition post_traversal (secret : option string) (body : option Body) : IvrOp (IvrReply * nat) :=
  if negb (has_secret secret) then mret (IvFail 403 "forbidden", 0%nat)
  else
    match TraversalLogSchema body with
    | None => mret (validation_error, 0%nat)
    | Some d =>
        rows ← require (log_rows d) Thrown;
        _ ← check (forallb row_fits rows) Thrown;
        _ ← update (on_tables (append_log rows));
        mret (IvOk, length rows)
    end.

End routes.

(** A request of an administrator, or of the bridge to FreeSWITCH. *)
Inductive IvrEvent :=
  | ivr_request (env : IvrEnv) (auth : option ApiAuth) (c : IvrCall)
  | ivr_hook (env : IvrEnv) (secret : option string) (body : option Body).

Definition ivr_event (server : IvrServer) (e : IvrEvent) (w : IvrWorld) : IvrWorld :=
  match e with
  | ivr_request env auth c => (serve_ivr server env auth c w).2
  | ivr_hook env secret body => (post_traversal server env secret body w).2
  end.

Definition run_ivrs (server : IvrServer) (es : list IvrEvent) (w : IvrWorld) : IvrWorld :=
  fold_left (λ w e, ivr_event server e w) es w.
