(* ===== verification/IvrTheorems.v ===== *)
(** What holds of the administration of IVRs: what every run of its requests keeps of the
    tables and of the files of the dialplan, and what rendering writes. *)

From S2P Require Import Prelude Paging StateError JsNumber Zod Calendar Rbac Auth Ivr IvrXml IvrDialplan IvrStore IvrAdmin.

#[local] Open Scope Z_scope.

(** The database gives the rows that it finds, in some order. *)
Class IvrLaws (server : IvrServer) : Prop := {
  nodes_perm l : order_nodes server l ≡ₚ l;
  edges_perm l : order_edges server l ≡ₚ l;
}.

(** ** What is kept *)

Section kept.
Variable server : IvrServer.

Record tables_ok (db : IvrDb) : Prop := {
  ok_ivr k i : ivr_rows db !! k = Some i → i_id i = k ∧ k < next_ivr (next_ids db);
  ok_node k n : node_rows db !! k = Some n → n_id n = k ∧ 0 < k < next_node (next_ids db) ∧ 1 <= n_invalidMax n <= 9;
  ok_owner k n : node_rows db !! k = Some n → ∃ i, ivr_rows db !! n_ivrId n = Some i ∧ i_tenantId i = n_tenantId n;
  ok_edge k e : edge_rows db !! k = Some e → e_id e = k ∧ k < next_edge (next_ids db);
  ok_ends k e : edge_rows db !! k = Some e →
    is_Some (node_rows db !! e_fromNodeId e) ∧ ∀ t, e_toNodeId e = Some t → is_Some (node_rows db !! t);
  ok_inputs k l e f : edge_rows db !! k = Some e → edge_rows db !! l = Some f →
    e_fromNodeId e = e_fromNodeId f → sort_key server (e_onInput e) = sort_key server (e_onInput f) → k = l;
  ok_entry k i n : ivr_rows db !! k = Some i → i_entryNodeId i = Some n →
    ∃ node, node_rows db !! n = Some node ∧ n_ivrId node = k;
  ok_prompt k p : prompt_rows db !! k = Some p → is_Some (node_rows db !! p_nodeId p);
  ok_next : 0 < next_node (next_ids db);
}.

(** An IVR that is fit to be a dialplan. *)
Record sound_ivr (b : BuilderIvr) : Prop := {
  sound_graph : ∃ d, validateIvrGraph (graph_of b) = Ok d;
  sound_ids : NoDup (b_id <$> b_nodes b);
  sound_keys : NoDup (edge_key <$> b_edges b);
  sound_zero : 0 ∉ b_id <$> b_nodes b;
  sound_max node : node ∈ b_nodes b → 1 <= b_invalidMax node <= 9;
}.

Record files_ok (w : IvrWorld) : Prop := {
  ok_default name text : default_files w !! name = Some text →
    ∃ b, sound_ivr b ∧ name = default_name (b_ivrId b) ∧ text = buildDefaultContextXml b;
  ok_public name text : public_files w !! name = Some text →
    ∃ did b, sound_ivr b ∧ name = public_name did ∧ text = buildPublicContextXml did b;
}.

Definition world_ok (w : IvrWorld) : Prop := tables_ok (iw_db w) ∧ files_ok w.

(** The row of an IVR, but for what rendering writes. *)
Definition same_ivr (i j : IvrRow) : Prop :=
  i_id i = i_id j ∧ i_tenantId i = i_tenantId j ∧ i_name i = i_name j ∧ i_description i = i_description j ∧
  i_entryNodeId i = i_entryNodeId j ∧ i_active i = i_active j ∧ i_createdAt i = i_createdAt j.

(** What a request of a tenant keeps of the others'. *)
Record keeps_others (tenant : Z) (db db' : IvrDb) : Prop := {
  keeps_ivr k i : ivr_rows db !! k = Some i → i_tenantId i ≠ tenant → ∃ j, ivr_rows db' !! k = Some j ∧ same_ivr i j;
  keeps_nodes k n : node_rows db !! k = Some n → n_tenantId n ≠ tenant → node_rows db' !! k = Some n;
  keeps_dids k d : did_rows db !! k = Some d → did_tenantId d ≠ tenant → did_rows db' !! k = Some d;
  keeps_log : traversal_log db' = traversal_log db;
}.

Definition ivr_step (tenant : Z) (w w' : IvrWorld) : Prop :=
  world_ok w → world_ok w' ∧ keeps_others tenant (iw_db w) (iw_db w').

Lemma same_ivr_refl i : same_ivr i i.
Proof. done. Qed.

Lemma same_ivr_trans i j k : same_ivr i j → same_ivr j k → same_ivr i k.
Proof. unfold same_ivr. intros (? & ? & ? & ? & ? & ? & ?) (? & ? & ? & ? & ? & ? & ?). split_and!; congruence. Qed.

Lemma keeps_refl tenant db : keeps_others tenant db db.
Proof. split; eauto using same_ivr_refl. Qed.

Lemma keeps_trans tenant db1 db2 db3 : keeps_others tenant db1 db2 → keeps_others tenant db2 db3 → keeps_others tenant db1 db3.
Proof.
  intros [I1 N1 D1 L1] [I2 N2 D2 L2]. split; [| |by eauto|congruence].
  - intros k i Hi Ht. destruct (I1 k i Hi Ht) as (j & Hj & Hs). pose proof Hs as (_ & Htj & _).
    destruct (I2 k j Hj) as (j' & Hj' & Hs'); [congruence|]. exists j'. split; [done|by eapply same_ivr_trans].
  - intros k n Hn Ht. eauto.
Qed.

#[export] Instance ivr_step_preorder tenant : PreOrder (ivr_step tenant).
Proof.
  split; [intros w; split; [done|apply keeps_refl]|]. intros w1 w2 w3 H1 H2 Hw.
  destruct (H1 Hw) as [Hw2 K1], (H2 Hw2) as [Hw3 K2]. split; [done|by eapply keeps_trans].
Qed.

(** A change of the tables alone. *)
Lemma tables_step tenant f w :
  (tables_ok (iw_db w) → tables_ok (f (iw_db w)) ∧ keeps_others tenant (iw_db w) (f (iw_db w))) →
  ivr_step tenant w (on_tables f w).
Proof. intros Hf [Ht [Hd Hp]]. destruct (Hf Ht). by split; [split|]. Qed.

(** ** Rows that replace rows *)

(** An IVR's row is changed, but not its number and tenant. *)
Lemma ivr_ok db k i j :
  ivr_rows db !! k = Some i → i_id j = i_id i → i_tenantId j = i_tenantId i →
  (∀ n, i_entryNodeId j = Some n → ∃ node, node_rows db !! n = Some node ∧ n_ivrId node = k) →
  tables_ok db → tables_ok (with_ivr_rows <[k := j]> db).
Proof.
  intros Hi Hid Ht He [I N O E D U En P Z]. split; try done; cbn.
  - intros l m. rewrite lookup_insert. case_decide; [intros [= <-]; subst; rewrite Hid; by apply I|apply I].
  - intros l n Hn. destruct (O l n Hn) as (m & Hm & Hmt). rewrite lookup_insert. case_decide; [|by eauto].
    subst k. rewrite Hi in Hm. injection Hm as ->. exists j. split; [done|congruence].
  - intros l m n. rewrite lookup_insert. case_decide; [intros [= <-]; subst; apply He|apply En].
Qed.

Lemma ivr_keeps tenant db k i j :
  ivr_rows db !! k = Some i → i_tenantId i = tenant ∨ same_ivr i j →
  keeps_others tenant db (with_ivr_rows <[k := j]> db).
Proof.
  intros Hi Hj. split; try done. cbn. intros l m Hm Ht. rewrite lookup_insert. case_decide; [|eauto using same_ivr_refl].
  subst l. rewrite Hi in Hm. injection Hm as ->. destruct Hj as [|Hj]; [done|eauto].
Qed.

Lemma find_ivr_some tenant k i db : find_ivr tenant k db = Some i → ivr_rows db !! k = Some i ∧ i_tenantId i = tenant.
Proof. unfold find_ivr. intros (j & Hj & H)%bind_Some. case_match eqn:E; simplify_eq. apply Z.eqb_eq in E. done. Qed.

Lemma find_node_some tenant ivr k n db :
  find_node tenant ivr k db = Some n → node_rows db !! k = Some n ∧ n_tenantId n = tenant ∧ n_ivrId n = ivr.
Proof.
  unfold find_node. intros (m & Hm & H)%bind_Some. case_match eqn:E; simplify_eq. apply andb_true_iff in E as [?%Z.eqb_eq ?%Z.eqb_eq].
  done.
Qed.

Lemma find_edge_some tenant k e db : find_edge tenant k db = Some e → edge_rows db !! k = Some e ∧ e_tenantId e = tenant.
Proof. unfold find_edge. intros (j & Hj & H)%bind_Some. case_match eqn:E; simplify_eq. apply Z.eqb_eq in E. done. Qed.

(** A node's row is changed, but not its number, tenant and IVR. *)
Lemma node_ok db k n m :
  node_rows db !! k = Some n → n_id m = n_id n → n_tenantId m = n_tenantId n → n_ivrId m = n_ivrId n → 1 <= n_invalidMax m <= 9 →
  tables_ok db → tables_ok (with_node_rows <[k := m]> db).
Proof.
  intros Hn Hid Ht Hv Hmax [I N O E D U En P Z].
  assert (Hdom : ∀ l, is_Some (node_rows db !! l) → is_Some (<[k := m]> (node_rows db) !! l)).
  { intros l Hl. apply lookup_insert_is_Some'. by right. }
  split; try done; cbn.
  - intros l o. rewrite lookup_insert. case_decide; [intros [= <-]; subst|apply N]. rewrite Hid. destruct (N _ n Hn) as (? & ? & _). split_and!; lia.
  - intros l o. rewrite lookup_insert. case_decide; [intros [= <-]; subst|apply O]. rewrite Hv, Ht. by eapply O.
  - intros l e He. destruct (D l e He). eauto.
  - intros l i o Hi Ho. destruct (En l i o Hi Ho) as (x & Hx & Hxv). rewrite lookup_insert. case_decide; [|eauto].
    subst. exists m. split; [done|]. congruence.
  - intros l p Hp. eauto.
Qed.

Lemma node_keeps tenant db k n m :
  node_rows db !! k = Some n → n_tenantId n = tenant → keeps_others tenant db (with_node_rows <[k := m]> db).
Proof.
  intros Hn Ht. split; try done; [cbn; eauto using same_ivr_refl|]. cbn. intros l o Ho Hto. rewrite lookup_insert_ne; [done|]. congruence.
Qed.

(** An edge's row is put where it fits. *)
Lemma edge_fits_ok e db :
  edge_fits server e db = true →
  is_Some (node_rows db !! e_fromNodeId e) ∧ (∀ t, e_toNodeId e = Some t → is_Some (node_rows db !! t)) ∧
  ∀ k f, edge_rows db !! k = Some f → e_id f ≠ e_id e → e_fromNodeId f = e_fromNodeId e →
    sort_key server (e_onInput f) ≠ sort_key server (e_onInput e).
Proof.
  unfold edge_fits. rewrite !andb_true_iff, bool_decide_eq_true, negb_true_iff. intros [[Hf Ht] Hu]. split_and!; [done| |].
  - intros t Hto. rewrite Hto in Ht. by apply bool_decide_eq_true in Ht.
  - intros k f Hk Hid Hfrom Hs. assert (existsb (λ f, negb (e_id f =? e_id e) && (e_fromNodeId f =? e_fromNodeId e) &&
      String.eqb (sort_key server (e_onInput f)) (sort_key server (e_onInput e))) (snd <$> map_to_list (edge_rows db)) = true); [|congruence].
    apply existsb_exists. exists f. split.
    + apply list_elem_of_In, list_elem_of_fmap. exists (k, f). split; [done|by apply elem_of_map_to_list].
    + rewrite !andb_true_iff, negb_true_iff, Z.eqb_neq, Z.eqb_eq, String.eqb_eq. done.
Qed.

Lemma edge_ok db e :
  e_id e < next_edge (next_ids db) → edge_fits server e db = true →
  tables_ok db → tables_ok (with_edge_rows <[e_id e := e]> db).
Proof.
  intros Hid (Hf & Ht & Hu)%edge_fits_ok [I N O E D U En P Z]. split; try done; cbn.
  - intros k f. rewrite lookup_insert. case_decide; [intros [= <-]; subst; done|apply E].
  - intros k f. rewrite lookup_insert. case_decide; [intros [= <-]; done|apply D].
  - intros k l f g. rewrite !lookup_insert. destruct (decide (e_id e = k)) as [<-|Hk], (decide (e_id e = l)) as [<-|Hl].
    + done.
    + intros [= <-] Hg Hfrom Hs. destruct (Hu l g Hg); [|done..]. by destruct (E l g Hg) as [-> _].
    + intros Hg [= <-] Hfrom Hs. destruct (Hu k f Hg); [|done..]. by destruct (E k f Hg) as [-> _].
    + apply U.
Qed.

Lemma edge_keeps tenant db f : keeps_others tenant db (with_edge_rows f db).
Proof. split; cbn; eauto using same_ivr_refl. Qed.

Lemma prompt_keeps tenant db f : keeps_others tenant db (with_prompt_rows f db).
Proof. split; cbn; eauto using same_ivr_refl. Qed.

(** Edges and prompts that go away. *)
Lemma fewer_edges_ok db f : f (edge_rows db) ⊆ edge_rows db → tables_ok db → tables_ok (with_edge_rows f db).
Proof.
  intros Hm [I N O E D U En P Z].
  assert (∀ k e, f (edge_rows db) !! k = Some e → edge_rows db !! k = Some e) as Hs by (intros; by eapply lookup_weaken).
  split; try done; cbn; eauto.
Qed.

Lemma fewer_prompts_ok db f : f (prompt_rows db) ⊆ prompt_rows db → tables_ok db → tables_ok (with_prompt_rows f db).
Proof. intros Hm [I N O E D U En P Z]. split; try done. cbn. intros k p Hp. eapply P. by eapply lookup_weaken. Qed.

(** An IVR loses its entry, when that is the node. *)
Definition without_entry (env : IvrEnv) (nodeId : Z) (i : IvrRow) : IvrRow :=
  if bool_decide (i_entryNodeId i = Some nodeId) then with_entry env None i else i.

Definition cleared (env : IvrEnv) (ivrId nodeId : Z) : IvrDb → IvrDb := with_ivr_rows (alter (without_entry env nodeId) ivrId).

Lemma without_entry_same env nodeId i :
  i_id (without_entry env nodeId i) = i_id i ∧ i_tenantId (without_entry env nodeId i) = i_tenantId i ∧
  (∀ n, i_entryNodeId (without_entry env nodeId i) = Some n → i_entryNodeId i = Some n ∧ n ≠ nodeId).
Proof. unfold without_entry. case_bool_decide; cbn; split_and!; naive_solver. Qed.

Lemma nothing_keeps nodeId db :
  existsb (keeps_node server nodeId) (snd <$> map_to_list (edge_rows db)) = false →
  ∀ k e, edge_rows db !! k = Some e → e_fromNodeId e ≠ nodeId → e_toNodeId e ≠ Some nodeId.
Proof.
  intros Hk k e He Hf Hto.
  assert (existsb (keeps_node server nodeId) (snd <$> map_to_list (edge_rows db)) = true); [|congruence].
  apply existsb_exists. exists e. split.
  - apply list_elem_of_In, list_elem_of_fmap. exists (k, e). split; [done|by apply elem_of_map_to_list].
  - unfold keeps_node. by rewrite bool_decide_eq_true_2, (proj2 (Z.eqb_neq _ _) Hf).
Qed.

Lemma dropped_ok env db tenant ivrId nodeId n :
  find_node tenant ivrId nodeId db = Some n →
  existsb (keeps_node server nodeId) (snd <$> map_to_list (edge_rows db)) = false →
  tables_ok db → tables_ok (cleared env ivrId nodeId (drop_node nodeId db)).
Proof.
  intros (Hn & Ht & Hv)%find_node_some Hk0 [I N O E D U En P Z]. pose proof (nothing_keeps nodeId db Hk0) as Hk.
  assert (Hrow : ∀ k i, alter (without_entry env nodeId) ivrId (ivr_rows db) !! k = Some i →
            ∃ j, ivr_rows db !! k = Some j ∧ (i = j ∧ k ≠ ivrId ∨ i = without_entry env nodeId j)).
  { intros k i. rewrite lookup_alter. case_decide as Hki.
    - rewrite fmap_Some. intros (j & Hj & ->). exists j. subst. split; [done|by right].
    - intros Hi. exists i. split; [done|]. left. split; [done|congruence]. }
  split; cbn.
  - intros k i (j & Hj & [[-> _]| ->])%Hrow; [by apply I|]. destruct (without_entry_same env nodeId j) as (-> & _). by apply I.
  - intros k m [_ Hm]%lookup_delete_Some. by apply N.
  - intros k m [_ Hm]%lookup_delete_Some. destruct (O k m Hm) as (i & Hi & Hit). rewrite lookup_alter. case_decide as Hki; [|eauto].
    rewrite Hki, Hi. cbn. eexists. split; [done|]. by destruct (without_entry_same env nodeId i) as (_ & -> & _).
  - intros k e [He _]%map_lookup_filter_Some. by apply E.
  - intros k e [He Hf]%map_lookup_filter_Some. destruct (D k e He) as [Hs Hto]. split.
    + by rewrite lookup_delete_ne.
    + intros t Het. rewrite lookup_delete_ne; [by apply Hto|]. intros ->. by apply (Hk k e).
  - intros k l e f [He _]%map_lookup_filter_Some [Hf _]%map_lookup_filter_Some. by apply U.
  - intros k i m (j & Hj & [[-> Hne]| ->])%Hrow Hm.
    + destruct (En k j m Hj Hm) as (x & Hx & Hxk). exists x. rewrite lookup_delete_ne; [done|]. intros ->. congruence.
    + apply (without_entry_same env nodeId j) in Hm as [Hm Hne].
      destruct (En k j m Hj Hm) as (x & Hx & Hxk). exists x. by rewrite lookup_delete_ne.
  - intros k p [Hp Hpn]%map_lookup_filter_Some. rewrite lookup_delete_ne by done. by eapply P.
  - done.
Qed.

Lemma dropped_keeps env db tenant ivrId nodeId n :
  find_node tenant ivrId nodeId db = Some n → tables_ok db →
  keeps_others tenant db (cleared env ivrId nodeId (drop_node nodeId db)).
Proof.
  intros (Hn & Ht & Hv)%find_node_some Hok. destruct (ok_owner _ Hok _ _ Hn) as (i & Hi & Hit). split; try done; cbn.
  - intros k j Hj Hne. rewrite lookup_alter_ne; [eauto using same_ivr_refl|]. intros ->. congruence.
  - intros k m Hm Hne. rewrite lookup_delete_ne; [done|]. congruence.
Qed.

(** ** Rendering *)

Context `{!IvrLaws server}.

Lemma elem_of_table {A} (m : gmap Z A) a : a ∈ (snd <$> map_to_list m) ↔ ∃ k, m !! k = Some a.
Proof.
  rewrite list_elem_of_fmap. split.
  - intros ([k b] & -> & H). exists k. by apply elem_of_map_to_list.
  - intros [k H]. exists (k, a). split; [done|by apply elem_of_map_to_list].
Qed.

Lemma elem_of_nodes ivrId db n : n ∈ nodes_of server ivrId db ↔ n_ivrId n = ivrId ∧ ∃ k, node_rows db !! k = Some n.
Proof. unfold nodes_of. rewrite nodes_perm, elem_of_filter_list, elem_of_table, Z.eqb_eq. tauto. Qed.

Lemma elem_of_edges ivrId db e : e ∈ loadEdges server ivrId db ↔ e_ivrId e = ivrId ∧ ∃ k, edge_rows db !! k = Some e.
Proof. unfold loadEdges. rewrite edges_perm, elem_of_filter_list, elem_of_table, Z.eqb_eq. tauto. Qed.

(** Rows of a table differ in what tells their numbers. *)
Lemma rows_distinct {A B} (m : gmap Z A) (f : A → B) :
  (∀ k l a b, m !! k = Some a → m !! l = Some b → f a = f b → k = l) → NoDup (f <$> (snd <$> map_to_list m)).
Proof.
  intros Hf. rewrite <- list_fmap_compose. apply NoDup_fmap_2_strong; [|apply NoDup_map_to_list].
  intros [k a] [l b] Ha%elem_of_map_to_list Hb%elem_of_map_to_list H. cbn in *.
  assert (k = l) as -> by (by eapply Hf). congruence.
Qed.

Lemma fmap_filter_distinct {A B} (f : A → B) (p : A → bool) l : NoDup (f <$> l) → NoDup (f <$> List.filter p l).
Proof.
  induction l as [|a l IH]; [done|]. rewrite fmap_cons. intros [Ha Hl]%NoDup_cons. cbn [List.filter].
  destruct (p a); [|by apply IH]. rewrite fmap_cons. apply NoDup_cons. split; [|by apply IH].
  intros (b & Hb & Hin)%list_elem_of_fmap. apply Ha. rewrite Hb. apply list_elem_of_fmap_2. by apply elem_of_filter_list in Hin as [? _].
Qed.

Lemma graph_of_built ivr entry db :
  i_entryNodeId ivr = Some entry → graph_of (toBuilderIvr server ivr entry db) = row_graph server ivr db.
Proof.
  intros He. unfold graph_of, row_graph. cbn [toBuilderIvr b_entryNodeId b_nodes b_edges].
  by rewrite He, <- !list_fmap_compose.
Qed.

(** What is built of rows whose graph validates is fit to be a dialplan. *)
Lemma built_sound ivr entry db d :
  tables_ok db → i_entryNodeId ivr = Some entry → validateIvrGraph (row_graph server ivr db) = Ok d →
  sound_ivr (toBuilderIvr server ivr entry db).
Proof.
  intros Hok He Hv. split.
  - exists d. by rewrite graph_of_built.
  - cbn [toBuilderIvr b_nodes]. rewrite <- list_fmap_compose. unfold nodes_of. rewrite nodes_perm. apply fmap_filter_distinct.
    apply (rows_distinct _ n_id). intros k l a b Ha Hb Hab. destruct (ok_node _ Hok k a Ha) as [<- _], (ok_node _ Hok l b Hb) as [<- _]. done.
  - cbn [toBuilderIvr b_edges]. rewrite <- list_fmap_compose. unfold loadEdges. rewrite edges_perm. apply fmap_filter_distinct.
    apply rows_distinct. intros k l a b Ha Hb [= Hf Hi]. eapply (ok_inputs _ Hok k l); [done..|]. by rewrite Hi.
  - cbn [toBuilderIvr b_nodes]. rewrite <- list_fmap_compose. intros (n & Hn0 & (_ & k & Hk)%elem_of_nodes)%list_elem_of_fmap.
    cbn in Hn0. destruct (ok_node _ Hok k n Hk) as (Hid & Hpos & _). lia.
  - cbn [toBuilderIvr b_nodes]. intros node (n & -> & (_ & k & Hk)%elem_of_nodes)%list_elem_of_fmap.
    destruct (ok_node _ Hok k n Hk) as (_ & _ & Hmax). done.
Qed.

(** ** Operations *)

Section operations.
Variables (env : IvrEnv) (tenant : Z).
#[local] Abbreviation moved := (moves (ivr_step tenant)).

Ltac steps := repeat first [moves_step | intros ?].

Lemma moves_given {A} (m : IvrOp A) w : (world_ok w → moved m w) → moved m w.
Proof.
  unfold moves, ivr_step. intros H. apply post_given. intros Hok. eapply post_mono; [by apply H|]. intros r w' Hs. by apply Hs.
Qed.

Lemma default_step b w :
  sound_ivr b → ivr_step tenant w (on_default_files <[default_name (b_ivrId b) := buildDefaultContextXml b]> w).
Proof.
  intros Hb [Ht [Hd Hp]]. split; [|apply keeps_refl]. split; [done|]. split; [|done]. cbn.
  intros name text [[<- <-]|[_ H]]%lookup_insert_Some; [by exists b|by apply Hd].
Qed.

Lemma public_step b did w :
  sound_ivr b → ivr_step tenant w (on_public_files <[public_name did := buildPublicContextXml did b]> w).
Proof.
  intros Hb [Ht [Hd Hp]]. split; [|apply keeps_refl]. split; [done|]. split; [done|]. cbn.
  intros name text [[<- <-]|[_ H]]%lookup_insert_Some; [by exists did, b|by apply Hp].
Qed.

Lemma write_moves on_files name content w :
  (∀ w', ivr_step tenant w' (on_files <[name := content]> w')) → moved (writeXmlAtomic env on_files name content) w.
Proof. intros Hf. unfold writeXmlAtomic. moves_step. by apply moves_update. Qed.

Lemma write_dids_moves b dids w : sound_ivr b → moved (write_dids env b dids) w.
Proof.
  intros Hb. revert w. induction dids as [|did dids IH]; intros w; cbn [write_dids]; [steps|].
  moves_step; [apply write_moves; intros w'; by apply public_step|]. intros _ w' _. apply IH.
Qed.

Lemma reload_moves w : moved (reloadXml env) w.
Proof. unfold reloadXml. moves_step. apply moves_update. intros [Ht [Hd Hp]]. by split; [|apply keeps_refl]. Qed.

Lemma depth_step ivrId ivr d w :
  ivr_rows (iw_db w) !! ivrId = Some ivr → ivr_step tenant w (on_tables (with_ivr_rows <[ivrId := set_depth env d ivr]>) w).
Proof.
  intros Hi. apply tables_step. intros Hok. split.
  - eapply ivr_ok; [exact Hi|done..| |done]. intros n Hn. by eapply ok_entry.
  - eapply ivr_keeps; [exact Hi|by right].
Qed.

Lemma render_moves ivrId w : moved (render server env ivrId) w.
Proof.
  apply moves_given. intros [Hok _]. unfold render, loadIvr.
  apply moves_assoc. do 2 moves_step. rename a into ivr, H into Hivr. moves_step.
  unfold validated_depth. destruct (validateIvrGraph (row_graph server ivr (iw_db w))) as [d|e] eqn:Hv; [|apply moves_raise_then; apply _].
  apply moves_ret_then, moves_then; [apply _|by apply depth_step|].
  destruct (truthy_id (i_entryNodeId ivr)) as [entry|] eqn:He; [|steps]. apply truthy_id_some in He as [He _]. moves_step.
  assert (Hb : sound_ivr (toBuilderIvr server ivr entry (iw_db w))) by (by eapply built_sound).
  destruct (ok_ivr _ Hok _ _ Hivr) as [Hid _]. moves_step.
  - apply write_moves. intros w'. rewrite <- Hid. by apply (default_step (toBuilderIvr server ivr entry (iw_db w))).
  - intros _ w1 _. moves_step. moves_step; [by apply write_dids_moves|]. intros _ w2 _. apply reload_moves.
Qed.

Lemma trigger_moves ivrId w : moved (render_dropping server env ivrId) w.
Proof.
  apply (moves_as (ivr_step tenant) (render server env ivrId)); [|apply render_moves].
  unfold render_dropping, dropping, triggerRender. cbn. by destruct (render server env ivrId w) as [[|[]] w'].
Qed.

(** Files that are removed. *)
Lemma unlink_default_step name w : ivr_step tenant w (unlink env on_default_files name w).
Proof.
  unfold unlink. destruct (can_unlink env name); [|done]. intros [Ht [Hd Hp]]. split; [|apply keeps_refl].
  split; [done|]. split; [|done]. cbn. intros n t [_ H]%lookup_delete_Some. by apply Hd.
Qed.

Lemma unlink_public_step name w : ivr_step tenant w (unlink env on_public_files name w).
Proof.
  unfold unlink. destruct (can_unlink env name); [|done]. intros [Ht [Hd Hp]]. split; [|apply keeps_refl].
  split; [done|]. split; [done|]. cbn. intros n t [_ H]%lookup_delete_Some. by apply Hp.
Qed.

Lemma removed_moves ivrId t w : moved (triggerRemove server env ivrId t) w.
Proof.
  apply (moves_as (ivr_step tenant) (remove server env ivrId t)); [done|]. unfold remove.
  apply moves_then; [apply _|apply unlink_default_step|]. moves_step. apply moves_then; [apply _| |apply reload_moves].
  generalize (unlink env on_default_files (default_name ivrId) w) as w1. intros w1.
  generalize (loadDids server ivrId t (iw_db w1)) as dids. intros dids. revert w1.
  induction dids as [|did dids IH]; intros w1; cbn [fold_left]; [done|]. etrans; [apply unlink_public_step|]. apply IH.
Qed.

Lemma id_moves raw w : moved (id_of raw) w.
Proof. unfold id_of. steps. Qed.

(** What the requests insert. *)
Lemma bump_ok n db :
  next_ivr (next_ids db) <= next_ivr n → next_node (next_ids db) <= next_node n → next_edge (next_ids db) <= next_edge n →
  tables_ok db → tables_ok (with_next_ids n db).
Proof.
  intros Hi Hn He [I N O E D U En P Z]. split; try done; cbn; [| | |lia].
  - intros k i H. destruct (I k i H). split; [done|lia].
  - intros k m H. destruct (N k m H) as (? & ? & ?). split_and!; [done|lia..].
  - intros k e H. destruct (E k e H). split; [done|lia].
Qed.

Lemma keeps_bump n db db' : keeps_others tenant db db' → keeps_others tenant db (with_next_ids n db').
Proof. by intros [I N D L]. Qed.

Lemma new_ivr_ok db i :
  i_id i < next_ivr (next_ids db) → ivr_rows db !! i_id i = None → i_entryNodeId i = None →
  tables_ok db → tables_ok (with_ivr_rows <[i_id i := i]> db).
Proof.
  intros Hid Hnew He [I N O E D U En P Z]. split; try done; cbn.
  - intros k j [[<- <-]|[_ H]]%lookup_insert_Some; [done|by apply I].
  - intros k m H. destruct (O k m H) as (j & Hj & Hjt). exists j. rewrite lookup_insert_ne; [done|]. congruence.
  - intros k j m [[<- <-]|[_ H]]%lookup_insert_Some; [congruence|by apply En].
Qed.

Lemma fresh_ivr db : tables_ok db → ivr_rows db !! next_ivr (next_ids db) = None.
Proof. intros Hok. apply eq_None_not_Some. intros [i Hi]. destruct (ok_ivr _ Hok _ _ Hi). lia. Qed.

Lemma fresh_node db : tables_ok db → node_rows db !! next_node (next_ids db) = None.
Proof. intros Hok. apply eq_None_not_Some. intros [i Hi]. destruct (ok_node _ Hok _ _ Hi) as (_ & ? & _). lia. Qed.

Lemma new_node_ok db n i :
  0 < n_id n < next_node (next_ids db) → node_rows db !! n_id n = None → 1 <= n_invalidMax n <= 9 →
  ivr_rows db !! n_ivrId n = Some i → i_tenantId i = n_tenantId n →
  tables_ok db → tables_ok (with_node_rows <[n_id n := n]> db).
Proof.
  intros Hid Hnew Hmax Hi Hit [I N O E D U En P Z].
  assert (Hdom : ∀ l, is_Some (node_rows db !! l) → is_Some (<[n_id n := n]> (node_rows db) !! l)).
  { intros l Hl. apply lookup_insert_is_Some'. by right. }
  split; try done; cbn.
  - intros k m [[<- <-]|[_ H]]%lookup_insert_Some; [done|by apply N].
  - intros k m [[<- <-]|[_ H]]%lookup_insert_Some; [by exists i|by eapply O].
  - intros k e He. destruct (D k e He). eauto.
  - intros k j m Hj Hm. destruct (En k j m Hj Hm) as (x & Hx & Hxk). exists x. rewrite lookup_insert_ne; [done|]. congruence.
  - intros k p Hp. eauto.
Qed.

Lemma new_node_keeps db n : node_rows db !! n_id n = None → keeps_others tenant db (with_node_rows <[n_id n := n]> db).
Proof.
  intros Hnew. split; try done; cbn; [eauto using same_ivr_refl|]. intros k m Hm _. rewrite lookup_insert_ne; [done|]. congruence.
Qed.

Lemma prompt_ok db k p : is_Some (node_rows db !! p_nodeId p) → tables_ok db → tables_ok (with_prompt_rows <[k := p]> db).
Proof.
  intros Hp [I N O E D U En P Z]. split; try done. cbn. intros l q [[<- <-]|[_ H]]%lookup_insert_Some; [done|by eapply P].
Qed.

Lemma did_keeps db k d d' :
  did_rows db !! k = Some d → did_tenantId d = tenant → keeps_others tenant db (with_did_rows <[k := d']> db).
Proof.
  intros Hd Ht. split; try done; cbn; [eauto using same_ivr_refl|]. intros l e He Hne. rewrite lookup_insert_ne; [done|]. congruence.
Qed.

Lemma did_ok db f : tables_ok db → tables_ok (with_did_rows f db).
Proof. by intros [I N O E D U En P Z]. Qed.

Lemma rendered_moves raw w : moved (rendered_id raw) w.
Proof. unfold rendered_id. steps. Qed.

(** ** Requests *)

Ltac reads := moves_step; intros ?.

Lemma get_ivrs_moves w : moved (get_ivrs server tenant) w.
Proof. apply moves_stays; [apply _|]. by apply post_asks. Qed.

Lemma post_ivr_moves body w : moved (post_ivr server env tenant body) w.
Proof.
  unfold post_ivr. destruct (IvrCreateSchema body) as [d|]; [|steps]. do 3 moves_step.
  apply moves_then; [apply _| |steps]. apply tables_step. intros Hok.
  set (i := mkIvrRow _ _ _ _ _ _ _ _ _). set (n := mkNextIds _ _ _ _). split.
  - apply (new_ivr_ok (with_next_ids n (iw_db w)) i); [cbn; lia|exact (fresh_ivr _ Hok)|done|]. apply bump_ok; [cbn; lia..|done].
  - apply keeps_bump. split; try done. cbn. intros k j Hj _. exists j. split; [|done].
    rewrite lookup_insert_ne; [done|]. intros E. rewrite <- E, fresh_ivr in Hj; done.
Qed.

Lemma writes_moves edges reply w : moved (writes_edges edges reply) w.
Proof. unfold writes_edges. steps. Qed.

Lemma get_ivr_moves raw w : moved (get_ivr server tenant raw) w.
Proof.
  unfold get_ivr. moves_step; [apply id_moves|]. intros ivrId w' _. moves_step. destruct (find_ivr _ _ _); [|steps].
  do 3 moves_step. apply writes_moves.
Qed.

Lemma patched_step ivrId d i w :
  find_ivr tenant ivrId (iw_db w) = Some i → ivr_step tenant w (on_tables (with_ivr_rows <[ivrId := patched_ivr env d i]>) w).
Proof.
  intros [Hi Ht]%find_ivr_some. apply tables_step. intros Hok. split.
  - eapply ivr_ok; [exact Hi|done..| |done]. intros n Hn. by eapply ok_entry.
  - eapply ivr_keeps; [exact Hi|by left].
Qed.

Lemma put_ivr_moves raw body w : moved (put_ivr server env tenant raw body) w.
Proof.
  unfold put_ivr. destruct (IvrUpdateSchema body) as [d|]; [|steps]. moves_step; [apply id_moves|]. intros ivrId w' _. moves_step.
  destruct (find_ivr tenant ivrId (iw_db w')) as [i|] eqn:Hi; [|steps]. do 2 moves_step.
  apply moves_then; [apply _|by apply patched_step|]. moves_step; [|steps].
  destruct (i_active _); [apply trigger_moves|apply removed_moves].
Qed.

Lemma delete_ivr_moves raw w : moved (delete_ivr server env tenant raw) w.
Proof.
  unfold delete_ivr. moves_step; [apply id_moves|]. intros ivrId w' _. moves_step.
  destruct (find_ivr tenant ivrId (iw_db w')) as [i|] eqn:Hi; [|steps].
  apply moves_then; [apply _|by apply patched_step|]. moves_step; [apply removed_moves|]. steps.
Qed.

Lemma int_between_spec lo hi v n : int_between lo hi v = Some n → lo <= n <= hi.
Proof. unfold int_between. intros (m & _ & H)%bind_Some. case_match eqn:E; simplify_eq. lia. Qed.

Lemma member_or_spec {A} name (read : BodyValue → option A) fallback b a :
  member_or name read fallback b = Some a → a = fallback ∨ ∃ v, read v = Some a.
Proof. unfold member_or. destruct (b !! name); [eauto|]. intros [= ->]. by left. Qed.

Lemma member_opt_spec {A} name (read : BodyValue → option A) b a :
  member_opt name read b = Some (Some a) → ∃ v, read v = Some a.
Proof. unfold member_opt. destruct (b !! name) as [v|]; [|done]. rewrite fmap_Some. intros (c & Hc & [= ->]). eauto. Qed.

Lemma created_max body d : NodeCreateSchema body = Some d → 1 <= ni_invalidMax d <= 9.
Proof.
  unfold NodeCreateSchema. intros H. repeat (apply bind_Some in H as (? & ? & H)). injection H as <-. cbn.
  match goal with Hm : member_or "invalidMax" _ _ _ = Some ?x |- _ => apply member_or_spec in Hm as [->|[v Hv%int_between_spec]]; lia end.
Qed.

Lemma patched_max body d n : NodeUpdateSchema body = Some d → 1 <= n_invalidMax n <= 9 → 1 <= n_invalidMax (patched_node env d n) <= 9.
Proof.
  unfold NodeUpdateSchema. intros H Hn. repeat (apply bind_Some in H as (? & ? & H)). injection H as <-. cbn.
  match goal with Hm : member_opt "invalidMax" _ _ = Some ?x |- _ => destruct x as [m|]; [|done];
    apply member_opt_spec in Hm as [v Hv%int_between_spec]; done end.
Qed.

Lemma post_node_moves raw body w : moved (post_node server env tenant raw body) w.
Proof.
  unfold post_node. destruct (NodeCreateSchema body) as [d|] eqn:Hd; [|steps]. moves_step; [apply id_moves|]. intros ivrId w' _.
  moves_step. destruct (find_ivr tenant ivrId (iw_db w')) as [i|] eqn:Hi; [|steps]. apply find_ivr_some in Hi as [Hi Ht].
  do 2 moves_step. set (node := mkNodeRow _ _ _ _ _ _ _ _ _ _ _ _ _ _ _ _).
  apply moves_given. intros [Hok _]. pose proof (ok_next _ Hok) as Hz.
  apply moves_then; [apply _| |].
  - apply tables_step. intros _. set (n := mkNextIds _ _ _ _). split.
    + apply (new_node_ok (with_next_ids n (iw_db w')) node i); cbn; [lia|exact (fresh_node _ Hok)|by eapply created_max|done..|].
      apply bump_ok; [cbn; lia..|done].
    + apply keeps_bump, (new_node_keeps (iw_db w') node). by apply fresh_node.
  - moves_step; [|intros _ w2 _; moves_step; [apply trigger_moves|]; steps].
    destruct (_ || _); [|steps]. apply moves_update, tables_step. intros Hok'. split.
    + eapply ivr_ok; [exact Hi|done..| |done]. intros m [= <-]. exists node. split; [|done]. cbn. by rewrite lookup_insert_eq.
    + eapply ivr_keeps; [exact Hi|by left].
Qed.

Lemma put_node_moves rawIvr raw body w : moved (put_node server env tenant rawIvr raw body) w.
Proof.
  unfold put_node. destruct (NodeUpdateSchema body) as [d|] eqn:Hd; [|steps]. moves_step; [apply id_moves|]. intros nodeId w0 _.
  moves_step; [apply id_moves|]. intros ivrId w' _. moves_step.
  destruct (find_node tenant ivrId nodeId (iw_db w')) as [n|] eqn:Hn; [|steps]. apply find_node_some in Hn as (Hn & Ht & Hv).
  moves_step. apply moves_then; [apply _| |].
  - apply tables_step. intros Hok. destruct (ok_node _ Hok _ _ Hn) as (_ & _ & Hmax). split.
    + eapply node_ok; [exact Hn|done..|by eapply patched_max|done].
    + by eapply node_keeps.
  - do 2 moves_step. moves_step; [apply trigger_moves|]. intros _ w2 _. apply writes_moves.
Qed.

Lemma cleared_match ivrId nodeId w :
  (match ivr_rows (iw_db w) !! ivrId with
   | Some i => if bool_decide (i_entryNodeId i = Some nodeId)
               then on_tables (with_ivr_rows <[ ivrId := with_entry env None i ]>) w else w
   | None => w
   end) = on_tables (cleared env ivrId nodeId) w.
Proof.
  destruct w as [db d p u r]. unfold on_tables, cleared, with_ivr_rows. cbn. destruct (ivr_rows db !! ivrId) as [i|] eqn:Hi.
  - case_bool_decide as He.
    + do 2 f_equal. apply map_eq. intros k. rewrite lookup_insert, lookup_alter. case_decide as Hk; [|done]. subst k. rewrite Hi.
      cbn. unfold without_entry. by rewrite bool_decide_eq_true_2.
    + assert (alter (without_entry env nodeId) ivrId (ivr_rows db) = ivr_rows db) as ->; [|by destruct db].
      apply map_eq. intros k. rewrite lookup_alter. case_decide as Hk; [|done]. subst k. rewrite Hi. cbn.
      unfold without_entry. by rewrite bool_decide_eq_false_2.
  - assert (alter (without_entry env nodeId) ivrId (ivr_rows db) = ivr_rows db) as ->; [|by destruct db].
    apply map_eq. intros k. rewrite lookup_alter. case_decide as Hk; [|done]. subst k. by rewrite Hi.
Qed.

Lemma delete_node_moves rawIvr raw w : moved (delete_node server env tenant rawIvr raw) w.
Proof.
  unfold delete_node. moves_step; [apply id_moves|]. intros nodeId w0 _. moves_step; [apply id_moves|]. intros ivrId w' _. moves_step.
  destruct (find_node tenant ivrId nodeId (iw_db w')) as [n|] eqn:Hn; [|steps]. do 2 moves_step.
  set (k := λ _ : unit, _ ≫= _).
  assert (Hk : ivr_step tenant w' (on_tables (cleared env ivrId nodeId) (on_tables (drop_node nodeId) w')) →
            moved (u ← update (on_tables (drop_node nodeId)); k u) w').
  { intros Hs.
    assert (Hend : moved (_ ← update (λ w, on_tables (cleared env ivrId nodeId) (on_tables (drop_node nodeId) w));
                          _ ← render_dropping server env ivrId; mret IvNoContent) w').
    { apply moves_then; [apply _|exact Hs|]. moves_step; [apply trigger_moves|]. steps. }
    eapply moves_as; [|exact Hend]. subst k. unfold update, asks, mbind, SE_bind. cbn beta iota.
    rewrite <- (cleared_match ivrId nodeId (on_tables (drop_node nodeId) w')).
    destruct (ivr_rows (iw_db (on_tables (drop_node nodeId) w')) !! ivrId) as [i|]; [|done].
    by destruct (bool_decide (i_entryNodeId i = Some nodeId)). }
  apply Hk. rename H into Hkept. apply negb_true_iff in Hkept. intros [Hok [Hd Hp]]. split; [split; [|by split]|].
  - by eapply dropped_ok.
  - by eapply dropped_keeps.
Qed.

Lemma post_edge_moves rawIvr raw body w : moved (post_edge server env tenant rawIvr raw body) w.
Proof.
  unfold post_edge. destruct (EdgeCreateSchema body) as [d|]; [|steps]. moves_step; [apply id_moves|]. intros ivrId w0 _.
  moves_step; [apply id_moves|]. intros nodeId w' _. do 3 moves_step. set (edge := mkEdgeRow _ _ _ _ _ _ _ _).
  apply moves_then; [apply _| |moves_step; [apply trigger_moves|]; steps]. apply tables_step. intros Hok. set (n := mkNextIds _ _ _ _). split.
  - apply (edge_ok (with_next_ids n (iw_db w')) edge); [cbn; lia|done|]. apply bump_ok; [cbn; lia..|done].
  - apply keeps_bump, edge_keeps.
Qed.

Lemma put_edge_moves rawIvr raw body w : moved (put_edge server env tenant rawIvr raw body) w.
Proof.
  unfold put_edge. destruct (EdgeUpdateSchema body) as [d|]; [|steps]. moves_step; [apply id_moves|]. intros edgeId w' _. moves_step.
  destruct (find_edge tenant edgeId (iw_db w')) as [e|] eqn:He; [|steps]. apply find_edge_some in He as [He _]. do 2 moves_step.
  apply moves_then; [apply _| |].
  - apply tables_step. intros Hok. destruct (ok_edge _ Hok _ _ He) as [Hid Hlt]. split; [|apply edge_keeps].
    rewrite <- Hid. apply (edge_ok (iw_db w') (patched_edge d e)); [cbn; lia|done|done].
  - moves_step; [apply rendered_moves|]. intros ivrId w1 _. moves_step; [apply trigger_moves|]. steps.
Qed.

Lemma delete_edge_moves rawIvr raw w : moved (delete_edge server env tenant rawIvr raw) w.
Proof.
  unfold delete_edge. moves_step; [apply id_moves|]. intros edgeId w' _. moves_step.
  destruct (find_edge tenant edgeId (iw_db w')); [|steps]. apply moves_then; [apply _| |].
  - apply tables_step. intros Hok. split; [|apply edge_keeps]. apply fewer_edges_ok; [apply delete_subseteq|done].
  - moves_step; [apply rendered_moves|]. intros ivrId w1 _. moves_step; [apply trigger_moves|]. steps.
Qed.

Lemma upload_step u w : ivr_step tenant w (add_upload u w).
Proof. intros [Ht [Hd Hp]]. by split; [|apply keeps_refl]. Qed.

Lemma upload_moves tools key w : moved (uploadToS3 server tools key) w.
Proof.
  unfold uploadToS3. destruct (negb (s3_keys tools)); repeat moves_step; apply moves_update, upload_step.
Qed.

Lemma upsert_moves nodeId lang uri size ms w : moved (upsert_prompt server tenant nodeId lang uri size ms) w.
Proof.
  unfold upsert_prompt. moves_step. destruct (List.find _ _) as [p|] eqn:Hp.
  - apply List.find_some in Hp as [Hp _]. apply list_elem_of_In, elem_of_table in Hp as [k Hk].
    apply moves_update, tables_step. intros Hok. split; [|apply prompt_keeps]. apply prompt_ok; [|done]. cbn. by eapply ok_prompt.
  - do 2 moves_step. apply andb_true_iff in H as [Hn%bool_decide_eq_true _]. apply moves_update, tables_step. intros Hok.
    set (n := mkNextIds _ _ _ _). split; [|apply keeps_bump, prompt_keeps].
    apply (bump_ok n (with_prompt_rows _ (iw_db w))); [cbn; lia..|]. by apply prompt_ok.
Qed.

Lemma uploadPrompt_moves tools ivrId nodeId lang mime size w :
  moved (uploadPrompt server tools tenant ivrId nodeId lang mime size) w.
Proof.
  unfold uploadPrompt. do 6 moves_step. moves_step; [apply upload_moves|]. intros _ w' _. do 2 moves_step.
  moves_step; [apply upsert_moves|]. steps.
Qed.

Lemma uploads_moves (m : IvrOp IvrReply) w : moved m w → moved (answering_uploads m) w.
Proof. apply moves_as. unfold answering_uploads. by destruct (m w) as [[|[]] w']. Qed.

Lemma post_prompt_moves tools rawIvr raw form w : moved (post_prompt server tools tenant rawIvr raw form) w.
Proof.
  unfold post_prompt. moves_step. destruct (pf_file a) as [[mime size]|]; [|steps]. apply uploads_moves.
  do 2 moves_step. moves_step; [apply uploadPrompt_moves|]. steps.
Qed.

Lemma delete_prompt_moves raw w : moved (delete_prompt tenant raw) w.
Proof.
  unfold delete_prompt. moves_step; [apply id_moves|]. intros k w' _. moves_step.
  destruct (prompt_rows (iw_db w') !! k) as [p|]; [|steps]. destruct (p_tenantId p =? tenant); [|steps].
  apply moves_then; [apply _| |steps]. apply tables_step. intros Hok. split; [|apply prompt_keeps].
  apply fewer_prompts_ok; [apply delete_subseteq|done].
Qed.

Lemma date_moves text otherwise w : moved (date_or server text otherwise) w.
Proof. unfold date_or. destruct text as [[|]|]; steps. Qed.

Lemma analytics_moves raw from to w : moved (get_analytics server env tenant raw from to) w.
Proof.
  unfold get_analytics. moves_step; [apply date_moves|]. intros ? ? _. moves_step; [apply date_moves|]. intros ? ? _.
  moves_step; [apply id_moves|]. intros ? ? _. steps.
Qed.

Lemma put_did_moves raw body w : moved (put_did server env tenant raw body) w.
Proof.
  unfold put_did. moves_step. moves_step; [apply id_moves|]. intros k w' _. moves_step.
  destruct (did_rows (iw_db w') !! k) as [d|] eqn:Hd; [|steps]. destruct (did_tenantId d =? tenant) eqn:Ht; cbn [negb]; [|steps].
  apply Z.eqb_eq in Ht. moves_step. apply moves_then; [apply _| |].
  - apply tables_step. intros Hok. split; [by apply did_ok|by eapply did_keeps].
  - moves_step; [|steps]. destruct (target_value server (a !! "ivrId"%string)) as [[v t]|]; [|steps].
    moves_step. apply trigger_moves.
Qed.

Lemma ivr_handler_moves c w : moved (ivr_handler server env tenant c) w.
Proof.
  destruct c; cbn [ivr_handler]; first
    [ apply get_ivrs_moves | apply post_ivr_moves | apply get_ivr_moves | apply put_ivr_moves | apply delete_ivr_moves
    | apply post_node_moves | apply put_node_moves | apply delete_node_moves | apply post_edge_moves | apply put_edge_moves
    | apply delete_edge_moves | apply post_prompt_moves | apply delete_prompt_moves | apply analytics_moves | apply put_did_moves ].
Qed.

End operations.

Lemma serve_step env auth c w :
  (serve_ivr server env auth c w).2 = w ∨ ∃ a, auth = Some a ∧ ivr_step (a_tenantId a) w (serve_ivr server env auth c w).2.
Proof.
  unfold serve_ivr. destruct (requirePermission (ivr_verb c) None auth); [by left|]. destruct auth as [a|]; [|by left].
  right. exists a. split; [done|]. pose proof (ivr_handler_moves env (a_tenantId a) c w) as Hm.
  destruct (ivr_handler server env (a_tenantId a) c w) as [r w'] eqn:E. pose proof (moves_elim _ _ _ _ _ Hm E). by destruct r.
Qed.

Lemma hook_ok env secret body w : world_ok w → world_ok (post_traversal server env secret body w).2.
Proof.
  intros Hw. assert (Hm : moves (λ w w', world_ok w → world_ok w') (post_traversal server env secret body) w).
  { unfold post_traversal. assert (PreOrder (λ w w' : IvrWorld, world_ok w → world_ok w')) by (split; red; auto).
    destruct (negb _); [by apply moves_ret|]. destruct (TraversalLogSchema server body) as [d|]; [|by apply moves_ret].
    do 2 moves_step. apply moves_then; [done| |by apply moves_ret]. intros [[I N O E D U En P Z] [Hd Hp]]. by split; [split|split]. }
  destruct (post_traversal server env secret body w) as [r w'] eqn:E. exact (moves_elim _ _ _ _ _ Hm E Hw).
Qed.

Lemma event_ok e w : world_ok w → world_ok (ivr_event server e w).
Proof.
  intros Hw. destruct e as [env auth c|env secret body]; cbn [ivr_event]; [|by apply hook_ok].
  destruct (serve_step env auth c w) as [->|(a & _ & Hs)]; [done|]. by apply Hs.
Qed.

(** C39: Over every run of requests the tables keep their keys - nodes belong to IVRs of their tenant, edges join nodes that
    exist, a node has one edge for an input, an entry is a node of its IVR - and every file of the dialplan is the dialplan
    of an IVR that validated, with nodes of distinct numbers and one edge for an input. *)
Theorem ivr_runs es w : world_ok w → world_ok (run_ivrs server es w).
Proof.
  unfold run_ivrs. revert w. induction es as [|e es IH]; intros w Hw; cbn [fold_left]; [done|]. by apply IH, event_ok.
Qed.

(** C40: A request changes none of another tenant's IVRs, but for the depth and the instant that rendering writes, and none of
    its nodes and numbers.  Edges, prompts and files are not said to stay: see [foreign_edge] and [foreign_prompt]. *)
Theorem other_tenants_keep env auth c w a :
  world_ok w → auth = Some a →
  (∀ k i, ivr_rows (iw_db w) !! k = Some i → i_tenantId i ≠ a_tenantId a →
     ∃ j, ivr_rows (iw_db (serve_ivr server env auth c w).2) !! k = Some j ∧ same_ivr i j) ∧
  (∀ k n, node_rows (iw_db w) !! k = Some n → n_tenantId n ≠ a_tenantId a →
     node_rows (iw_db (serve_ivr server env auth c w).2) !! k = Some n) ∧
  (∀ k d, did_rows (iw_db w) !! k = Some d → did_tenantId d ≠ a_tenantId a →
     did_rows (iw_db (serve_ivr server env auth c w).2) !! k = Some d).
Proof.
  intros Hw Ha. destruct (serve_step env auth c w) as [->|(b & Hb & Hs)]; [split_and!; eauto using same_ivr_refl|].
  rewrite Ha in Hb. injection Hb as <-. destruct (Hs Hw) as [_ [I N D L]]. split_and!; eauto.
Qed.

(** ** What rendering writes *)

Definition written_dids (b : BuilderIvr) (dids : list BuilderDid) (m : gmap string string) : gmap string string :=
  fold_left (λ m did, <[public_name did := buildPublicContextXml did b]> m) dids m.

Lemma write_dids_result env b dids w :
  (∀ name, can_write env name = true) →
  write_dids env b dids w = (Ok (), on_public_files (written_dids b dids) w).
Proof.
  intros Hw. revert w. induction dids as [|did dids IH]; intros w; cbn [write_dids]; [by destruct w|].
  unfold writeXmlAtomic, check. rewrite Hw. unfold mbind, SE_bind, mret, SE_ret, update. cbn beta iota. by rewrite IH.
Qed.

(** The world with an IVR rendered. *)
Definition rendered (env : IvrEnv) (ivr : IvrRow) (d : nat) (entry : Z) (w : IvrWorld) : IvrWorld :=
  let b := toBuilderIvr server ivr entry (iw_db w) in
  mkIvrWorld (with_ivr_rows <[i_id ivr := set_depth env d ivr]> (iw_db w))
    (<[default_name (i_id ivr) := buildDefaultContextXml b]> (default_files w))
    (written_dids b (loadDids server (i_id ivr) (i_tenantId ivr) (iw_db w)) (public_files w)) (uploads w) (S (reloads w)).

Lemma validated_entry g d : validateIvrGraph g = Ok d → ∃ entry, truthy_id (entryNodeId g) = Some entry.
Proof.
  intros (entry & He & [(_ & H0 & _) _ _])%validate_well_formed. exists entry. by apply truthy_id_some.
Qed.

(** Rendering writes the dialplan or nothing: an IVR that is not there or whose graph is invalid leaves tables and files
    as they are; otherwise, when files can be written and Redis answers, the file of the IVR is its dialplan, that of each
    number routed to it the entry to it, and the depth is kept. *)
Theorem render_writes env ivrId w :
  world_ok w → (∀ name, can_write env name = true) → redis_ok env = true →
  render server env ivrId w =
  match ivr_rows (iw_db w) !! ivrId with
  | None => (Err Thrown, w)
  | Some ivr =>
      match validateIvrGraph (row_graph server ivr (iw_db w)), truthy_id (i_entryNodeId ivr) with
      | Ok d, Some entry => (Ok (), rendered env ivr d entry w)
      | Err e, _ => (Err (Invalid e), w)
      | Ok _, None => (Ok (), w)
      end
  end.
Proof.
  intros [Hok _] Hw Hr. unfold render, loadIvr, asks, require, mbind, SE_bind. cbn beta iota.
  destruct (ivr_rows (iw_db w) !! ivrId) as [ivr|] eqn:Hi; [|done]. unfold mret, SE_ret. cbn beta iota.
  unfold validated_depth. destruct (validateIvrGraph _) as [d|e] eqn:Hv; [|done].
  destruct (validated_entry _ _ Hv) as [entry He]. cbn [row_graph entryNodeId] in He. rewrite He.
  destruct (ok_ivr _ Hok _ _ Hi) as [Hid _]. unfold mret, SE_ret, update. cbn beta iota.
  unfold writeXmlAtomic, check. rewrite Hw. unfold mbind, SE_bind, mret, SE_ret, update. cbn beta iota.
  rewrite write_dids_result by done. unfold reloadXml, check. rewrite Hr. unfold rendered. by rewrite Hid.
Qed.

(** ** What is removed *)

Lemma unlinked env on_files name w : can_unlink env name = true → unlink env on_files name w = on_files (delete name) w.
Proof. unfold unlink. by intros ->. Qed.

Definition without_dids (dids : list BuilderDid) (m : gmap string string) : gmap string string :=
  fold_left (λ m did, delete (public_name did) m) dids m.

Lemma unlinked_dids env dids w :
  (∀ name, can_unlink env name = true) →
  fold_left (λ w did, unlink env on_public_files (public_name did) w) dids w = on_public_files (without_dids dids) w.
Proof.
  intros Hu. revert w. induction dids as [|did dids IH]; intros w; cbn [fold_left]; [by destruct w|]. by rewrite unlinked, IH.
Qed.

Lemma without_did dids did m : did ∈ dids → without_dids dids m !! public_name did = None.
Proof.
  unfold without_dids. revert m. induction dids as [|x dids IH]; intros m; [by intros ?%not_elem_of_nil|]. cbn [fold_left].
  intros [->|Hin]%elem_of_cons; [|by apply IH]. clear IH. revert m.
  assert (∀ m : gmap string string, m !! public_name x = None → fold_left (λ m did, delete (public_name did) m) dids m !! public_name x = None) as Hk.
  { induction dids as [|y dids IH]; intros m Hm; [done|]. cbn [fold_left]. apply IH. rewrite lookup_delete. by case_decide. }
  intros m. apply Hk. apply lookup_delete_eq.
Qed.

(** An IVR that is deleted is inactive, and its dialplan is gone, with that of the numbers routed to it. *)
Theorem deleted_is_gone env tenant raw ivrId ivr w w' :
  (∀ name, can_unlink env name = true) → id_of raw w = (Ok ivrId, w) → find_ivr tenant ivrId (iw_db w) = Some ivr →
  delete_ivr server env tenant raw w = (Ok IvNoContent, w') →
  i_active <$> ivr_rows (iw_db w') !! ivrId = Some false ∧ default_files w' !! default_name ivrId = None ∧
  ∀ did, did ∈ loadDids server ivrId tenant (iw_db w) → public_files w' !! public_name did = None.
Proof.
  intros Hu Hid Hf. unfold delete_ivr, mbind at 1, SE_bind at 1. rewrite Hid. unfold asks, mbind, SE_bind. cbn beta iota. rewrite Hf.
  unfold update, triggerRemove, dropping, mret, SE_ret. cbn beta iota. intros [= <-].
  set (w1 := on_tables _ w). unfold remove, update, asks, mbind, SE_bind. cbn beta iota.
  rewrite unlinked, unlinked_dids by done.
  assert (∀ w2, iw_db (reloadXml env w2).2 = iw_db w2 ∧ default_files (reloadXml env w2).2 = default_files w2 ∧
                public_files (reloadXml env w2).2 = public_files w2) as Hrel.
  { intros w2. unfold reloadXml, check. by destruct (redis_ok env). }
  match goal with |- context [reloadXml env ?x] => destruct (Hrel x) as (-> & -> & ->) end. cbn. split_and!.
  - rewrite lookup_insert_eq. done.
  - apply lookup_delete_eq.
  - intros did Hd. by apply without_did.
Qed.

End kept.

(** ** Analytics *)

Definition rows_of (n : Z) (log : list TraversalRow) : list TraversalRow := List.filter (λ r, t_node_id r =? n) log.

Definition tallied (log : list TraversalRow) (l : list (Z * NodeStat)) : Prop :=
  NoDup l.*1 ∧ ∀ n s, (n, s) ∈ l ↔ rows_of n log ≠ [] ∧ s = fold_left (λ s r, count_row r s) (rows_of n log) no_stat.

Lemma tally_keys r l n : n ∈ (tally r l).*1 ↔ n ∈ l.*1 ∨ n = t_node_id r.
Proof.
  induction l as [|[m s] l IH]; cbn [tally]; [cbn; set_solver|]. destruct (Z.eqb_spec m (t_node_id r)) as [->|Hm]; cbn; set_solver.
Qed.

Lemma tally_distinct r l : NoDup l.*1 → NoDup (tally r l).*1.
Proof.
  induction l as [|[m s] l IH]; cbn [tally]; [by repeat constructor; intros ?%not_elem_of_nil|].
  rewrite fmap_cons. intros [Hm Hl]%NoDup_cons. destruct (Z.eqb_spec m (t_node_id r)) as [->|Hne]; rewrite fmap_cons; apply NoDup_cons; [done|].
  split; [|by apply IH]. rewrite tally_keys. cbn in *. intros [H|H]; [done|]. congruence.
Qed.

Lemma tally_elem r l n s :
  NoDup l.*1 →
  (n, s) ∈ tally r l ↔
  if n =? t_node_id r then s = count_row r (default no_stat (snd <$> List.find (λ p, p.1 =? n) l)) else (n, s) ∈ l.
Proof.
  induction l as [|[m u] l IH]; cbn [tally].
  - intros _. rewrite list_elem_of_singleton. destruct (Z.eqb_spec n (t_node_id r)) as [->|Hn]; cbn; [naive_solver|]. set_solver.
  - rewrite fmap_cons. intros [Hm Hl]%NoDup_cons. cbn in Hm.
    destruct (Z.eqb_spec m (t_node_id r)) as [->|Hne].
    + rewrite elem_of_cons. destruct (Z.eqb_spec n (t_node_id r)) as [->|Hn].
      * cbn [List.find fst]. rewrite Z.eqb_refl. cbn. split; [|intros ->; by left]. intros [[= ->]|H]; [done|].
        exfalso. apply Hm. apply (list_elem_of_fmap_2 fst) in H. done.
      * rewrite elem_of_cons. naive_solver.
    + rewrite elem_of_cons, IH by done. destruct (Z.eqb_spec n (t_node_id r)) as [->|Hn].
      * cbn [List.find fst]. rewrite (proj2 (Z.eqb_neq m (t_node_id r)) Hne). naive_solver.
      * rewrite elem_of_cons. done.
Qed.

Lemma rows_of_snoc n log r : rows_of n (log ++ [r]) = if n =? t_node_id r then rows_of n log ++ [r] else rows_of n log.
Proof.
  unfold rows_of. rewrite List.filter_app. cbn. rewrite Z.eqb_sym. destruct (n =? t_node_id r); [done|apply app_nil_r].
Qed.

Lemma find_key (l : list (Z * NodeStat)) n s : NoDup l.*1 → (n, s) ∈ l → List.find (λ p, p.1 =? n) l = Some (n, s).
Proof.
  intros Hnd Hin. induction l as [|[m u] l IH]; [by apply not_elem_of_nil in Hin|]. rewrite fmap_cons in Hnd. apply NoDup_cons in Hnd as [Hm Hl].
  cbn [List.find fst]. apply elem_of_cons in Hin as [[= <- <-]|Hin]; [by rewrite Z.eqb_refl|].
  destruct (Z.eqb_spec m n) as [->|]; [|by apply IH]. exfalso. apply Hm. apply (list_elem_of_fmap_2 fst) in Hin. done.
Qed.

Lemma stats_tallied log : tallied log (node_stats log).
Proof.
  unfold node_stats. induction log as [|r log [Hnd Hl]] using rev_ind; [split; [constructor|]; cbn; set_solver|].
  rewrite fold_left_app. cbn [fold_left]. set (l := fold_left _ log []) in *. split; [by apply tally_distinct|].
  intros n s. rewrite tally_elem, rows_of_snoc by done. destruct (Z.eqb_spec n (t_node_id r)) as [->|Hn]; [|apply Hl].
  rewrite fold_left_app. cbn [fold_left].
  assert (default no_stat (snd <$> List.find (λ p, p.1 =? t_node_id r) l) =
          fold_left (λ s r, count_row r s) (rows_of (t_node_id r) log) no_stat) as ->.
  { destruct (List.find _ l) as [[m u]|] eqn:Hf; cbn.
    - apply List.find_some in Hf as [Hin Hm%Z.eqb_eq]. cbn in Hm. subst m. apply list_elem_of_In, Hl in Hin as [_ ->]. done.
    - destruct (decide (rows_of (t_node_id r) log = [])) as [->|Hne]; [done|].
      assert ((t_node_id r, fold_left (λ s r, count_row r s) (rows_of (t_node_id r) log) no_stat) ∈ l) as Hin by (by apply Hl).
      rewrite (find_key _ _ _ Hnd Hin) in Hf. done. }
  split; [intros ->; split; [by intros []%app_nil|done]|by intros [_ ->]].
Qed.

Lemma counted log s0 :
  let s := fold_left (λ s r, count_row r s) log s0 in
  ns_entryCount s = ns_entryCount s0 + Z.of_nat (length log) ∧
  ns_dropOffCount s = ns_dropOffCount s0 + Z.of_nat (length (List.filter (λ r, String.eqb (t_outcome r) "hangup") log)) ∧
  ns_timeoutCount s = ns_timeoutCount s0 + Z.of_nat (length (List.filter (λ r, String.eqb (t_outcome r) "timeout") log)).
Proof.
  cbn zeta. revert s0. induction log as [|r log IH]; intros s0; cbn [fold_left length List.filter]; [lia|].
  destruct (IH (count_row r s0)) as (-> & -> & ->). cbn [count_row ns_entryCount ns_dropOffCount ns_timeoutCount].
  destruct (String.eqb (t_outcome r) "hangup"), (String.eqb (t_outcome r) "timeout"); cbn [length]; lia.
Qed.

(** The analytics have one entry for each node that was visited, which counts its visits, and of these those that ended
    the call and those that timed out. *)
Theorem analytics_counts log :
  NoDup (node_stats log).*1 ∧
  (∀ n, n ∈ (node_stats log).*1 ↔ rows_of n log ≠ []) ∧
  ∀ n s, (n, s) ∈ node_stats log →
    ns_entryCount s = Z.of_nat (length (rows_of n log)) ∧
    ns_dropOffCount s = Z.of_nat (length (List.filter (λ r, String.eqb (t_outcome r) "hangup") (rows_of n log))) ∧
    ns_timeoutCount s = Z.of_nat (length (List.filter (λ r, String.eqb (t_outcome r) "timeout") (rows_of n log))).
Proof.
  destruct (stats_tallied log) as [Hnd Hl]. split_and!; [done| |].
  - intros n. rewrite list_elem_of_fmap. split.
    + by intros ([m s] & -> & [H _]%Hl).
    + intros Hn. eexists (n, _). split; [done|]. by apply Hl.
  - intros n s [_ ->]%Hl. destruct (counted (rows_of n log) no_stat) as (-> & -> & ->). by cbn.
Qed.

(** ** The log *)

Definition is_terminal (r : TraversalRow) : bool := String.eqb (t_outcome r) "terminal".

Lemma log_rows_session env d l : log_rows env d = Some l → Forall (λ r, t_session_uuid r = ti_session_uuid d) l.
Proof.
  unfold log_rows. rewrite bind_Some. intros (ids & _ & [= <-]). apply Forall_forall.
  intros r (i & n & -> & _)%elem_of_lookup_imap. done.
Qed.

Lemma log_rows_terminal env d l : log_rows env d = Some l → (length (List.filter is_terminal l) ≤ 1)%nat.
Proof.
  unfold log_rows. rewrite bind_Some. intros (ids & Hids & [= <-]). apply length_mapM in Hids.
  assert (∀ (ids : list Z) (k : nat), (length (List.filter is_terminal (imap (λ i, log_row env d (k + i)) ids)) ≤
            if decide (k ≤ length (ti_path d) - 1)%nat then 1 else 0)%nat) as Hk.
  { clear. intros ids. induction ids as [|n ids IH]; intros k; [cbn; case_decide; lia|].
    rewrite imap_cons. specialize (IH (S k)).
    assert (imap ((λ i, log_row env d (k + i)) ∘ S) ids = imap (λ i, log_row env d (S k + i)) ids) as ->
      by (apply imap_ext; intros i ? _; unfold compose; by rewrite Nat.add_succ_r).
    cbn [List.filter]. rewrite Nat.add_0_r. unfold is_terminal at 1. cbn [log_row t_outcome].
    destruct (Nat.eqb_spec k (length (ti_path d) - 1)) as [->|Hne].
    - rewrite decide_False in IH by lia. rewrite decide_True by lia. case_match; cbn [length]; lia.
    - change (String.eqb "digit" "terminal") with false. cbv iota. revert IH. repeat case_decide; lia. }
  specialize (Hk ids 0%nat). change (imap (λ i, log_row env d (0 + i)) ids) with (imap (log_row env d) ids) in Hk. case_decide; lia.
Qed.

Lemma mapM_first {A B} (f : A → option B) a l : mapM f (a :: l) = b ← f a; bs ← mapM f l; Some (b :: bs).
Proof. done. Qed.

Lemma mapM_terminal {A} (f : A → option (list TraversalRow)) posts ls :
  (∀ d l, f d = Some l → (length (List.filter is_terminal l) ≤ 1)%nat) →
  mapM f posts = Some ls → (length (List.filter is_terminal (mjoin ls)) ≤ length (List.filter (λ l, existsb is_terminal l) ls))%nat.
Proof.
  intros Hf. revert ls. induction posts as [|d posts IH]; intros ls; [by intros [= <-]|]. rewrite mapM_first.
  intros (l & Hl & (ls' & Hls & [= <-])%bind_Some)%bind_Some. specialize (IH _ Hls). change (mjoin (l :: ls')) with (l ++ mjoin ls'). cbn [List.filter].
  rewrite List.filter_app, length_app. pose proof (Hf _ _ Hl). destruct (existsb is_terminal l) eqn:E; cbn [length]; [lia|].
  assert (List.filter is_terminal l = []) as ->; [|done]. apply filter_false. intros r Hr.
  destruct (is_terminal r) eqn:Ht; [|done]. assert (existsb is_terminal l = true); [|congruence].
  apply existsb_exists. exists r. split; [by apply list_elem_of_In|done].
Qed.

(** The sessions of calls that were logged once each: no more of them ended in a terminal node than there are. *)
Theorem completions_bounded env posts ls :
  NoDup (ti_session_uuid <$> posts) → mapM (log_rows env) posts = Some ls →
  (length (List.filter is_terminal (mjoin ls)) ≤ length (remove_dups (t_session_uuid <$> mjoin ls)))%nat.
Proof.
  intros Hnd Hls. etrans; [eapply mapM_terminal; [|exact Hls]; intros; by eapply log_rows_terminal|].
  revert ls Hls. induction posts as [|d posts IH]; intros ls; [by intros [= <-]|]. rewrite mapM_first.
  intros (l & Hl & (ls' & Hls & [= <-])%bind_Some)%bind_Some. rewrite fmap_cons in Hnd. apply NoDup_cons in Hnd as [Hd Hnd].
  specialize (IH Hnd _ Hls). apply log_rows_session in Hl. change (mjoin (l :: ls')) with (l ++ mjoin ls'). cbn [List.filter].
  assert (Hout : ti_session_uuid d ∉ t_session_uuid <$> mjoin ls').
  { intros (r & Hr & Hin)%list_elem_of_fmap. apply Hd. rewrite Hr. clear -Hls Hin. revert ls' Hls Hin.
    induction posts as [|e posts IH]; intros ls'; [by intros [= <-] ?%not_elem_of_nil|]. rewrite mapM_first.
    intros (l & Hl & (ls & Hls & [= <-])%bind_Some)%bind_Some. change (mjoin (l :: ls)) with (l ++ mjoin ls). rewrite elem_of_app, fmap_cons, elem_of_cons.
    intros [Hin|Hin]; [left|right; by eapply IH]. apply log_rows_session in Hl. rewrite Forall_forall in Hl. by apply Hl. }
  destruct l as [|r l]; cbn [existsb]; [done|]. apply Forall_cons in Hl as [Hr Hl].
  assert (S (length (remove_dups (t_session_uuid <$> mjoin ls'))) ≤
          length (remove_dups (t_session_uuid <$> ((r :: l) ++ mjoin ls'))))%nat as Hlen.
  { change (S (length (remove_dups (t_session_uuid <$> mjoin ls')))) with
      (length (ti_session_uuid d :: remove_dups (t_session_uuid <$> mjoin ls'))).
    apply submseteq_length, NoDup_submseteq.
    - apply NoDup_cons. split; [by rewrite elem_of_remove_dups|apply NoDup_remove_dups].
    - intros s. rewrite elem_of_cons, !elem_of_remove_dups, fmap_app, elem_of_app. intros [->|Hs]; [|by right].
      left. rewrite fmap_cons, Hr. by left. }
  cbn [app] in *. destruct (is_terminal r || existsb is_terminal l); cbn [length]; lia.
Qed.
