(* ===== verification/IvrShortfalls.v ===== *)
(** What the dialplan of IVRs and their routes do that they should not, and the witnesses of
    [IvrTheorems]. *)

From S2P Require Import Prelude Paging StateError JsNumber Zod Rbac Auth Ivr IvrXml IvrDialplan IvrStore IvrAdmin IvrTheorems.

(** ** The dialplan *)

Section dialplan.
Context `{Matcher}.

(** The branch of a node applies to every call, whatever its destination. *)
Lemma branch_applies fields i node edges :
  plain (fields (digit_field (b_id node))) = true →
  existsb (applies fields) (ex_conditions (buildBranchExtension i node edges)) = true.
Proof.
  intros Hp. cbn [buildBranchExtension ex_conditions]. rewrite !existsb_app. cbn [existsb].
  unfold applies at 3. cbn [co_expression co_field]. rewrite (matches_any _ Hp), !orb_true_r. done.
Qed.

Lemma node_name_plain i n : plain (nodeExtName i n) = true.
Proof.
  unfold nodeExtName, plain. rewrite !string_forallb_app. fold (plain (zs i)) (plain (zs n)). by rewrite !zs_plain.
Qed.

Lemma entering_applies fields i node :
  plain (fields "destination_number"%string) = true →
  existsb (applies fields) (ex_conditions (buildCollectExtension i node)) =
  String.eqb (nodeExtName i (b_id node)) (fields "destination_number"%string).
Proof.
  intros Hp. cbn [buildCollectExtension ex_conditions existsb]. unfold applies. cbn [co_expression co_field].
  by rewrite (matches_plain _ _ (node_name_plain i (b_id node)) Hp), orb_false_r.
Qed.

Lemma hunted_before fields (xs ys : list Extension) b x :
  existsb (applies fields) (ex_conditions b) = true → hunt fields (xs ++ b :: ys) = Some x → x ∈ xs ++ [b].
Proof.
  intros Hb. unfold hunt. rewrite find_in_app. destruct (List.find _ xs) as [y|] eqn:Hf.
  - intros [= <-]. apply List.find_some in Hf as [Hf _]. apply elem_of_app. left. by apply list_elem_of_In.
  - cbn [List.find]. rewrite Hb. intros [= <-]. apply elem_of_app. right. by left.
Qed.

(** A branch has no condition on the destination: a call is never given the extension of a node after
    the first one that collects keys. *)
Theorem later_nodes_unreached ivr pre c post node fields x :
  b_nodes ivr = pre ++ c :: post → NoDup (b_id <$> b_nodes ivr) → b_nodeType c ∉ TERMINAL_NODE_TYPES →
  plain (fields (digit_field (b_id c))) = true → node ∈ post →
  hunt fields (default_extensions ivr) = Some x → ex_name x ≠ nodeExtName (b_ivrId ivr) (b_id node).
Proof.
  intros Hns Hnd Hc Hp Hn Hh Hx. unfold default_extensions in Hh. rewrite Hns in Hh, Hnd.
  rewrite bind_app in Hh. cbn [mbind list_bind] in Hh. unfold node_extensions at 2 in Hh.
  rewrite bool_decide_eq_false_2 in Hh by done. cbn [app] in Hh.
  assert (Hsplit : ∀ (l : list Extension) a b r, l ++ a :: b :: r = (l ++ [a]) ++ b :: r) by (intros; by rewrite <- app_assoc).
  rewrite Hsplit in Hh. apply hunted_before in Hh; [|by apply branch_applies].
  rewrite fmap_app, fmap_cons in Hnd. apply NoDup_app in Hnd as (_ & Hpre & [Hcn _]%NoDup_cons).
  assert (∃ m k, (m = c ∨ m ∈ pre) ∧ ex_name x = name_of k (b_ivrId ivr) (b_id m)) as (m & k & Hm & E).
  { rewrite <- app_assoc in Hh. apply elem_of_app in Hh as [(m & Hx' & Hm)%list_elem_of_bind|Hh].
    - assert (ex_name x ∈ ex_name <$> node_extensions ivr m) as Hs by (by apply list_elem_of_fmap_2).
      rewrite node_extension_names in Hs. apply list_elem_of_fmap in Hs as (k & -> & _). eauto.
    - apply elem_of_cons in Hh as [->| ->%list_elem_of_singleton].
      + exists c, on_entering. auto.
      + exists c, on_branching. auto. }
  rewrite E in Hx. apply (name_of_inj _ on_entering) in Hx as [_ Hid].
  assert (b_id node ∈ b_id <$> post) as Hin by (by apply list_elem_of_fmap_2).
  destruct Hm as [->|Hm]; [congruence|]. apply (Hpre (b_id m)); [by apply list_elem_of_fmap_2|]. rewrite Hid. by right.
Qed.

(** A caller who presses 1 for the second menu is sent there for ever: the branch of the first menu takes the call. *)
Theorem pressed_key_loops fields :
  fields (digit_field 1) = "1"%string → fields "destination_number"%string = nodeExtName 7 2 →
  ∃ x c, hunt fields (default_extensions two_menus) = Some x ∧ ex_name x = name_of on_branching 7 1 ∧
    first_condition fields x = Some c ∧ ∀ t, condition_leads t c ↔ t = nodeExtName 7 2.
Proof.
  intros Hk Hd. set (b := buildBranchExtension 7 (menu 1 "main") (node_edges two_menus (menu 1 "main"))).
  destruct (branch_condition 7 (menu 1 "main") (node_edges two_menus (menu 1 "main")) fields "1") as (c & Hc & Hl).
  { repeat (apply Forall_cons_2); try apply Forall_nil_2; first [by left|right; by split]. }
  { apply (bool_decide_unpack _). vm_compute. exact I. }
  { done. }
  { exact Hk. }
  exists b, c. split_and!; [|done|exact Hc|exact Hl].
  unfold hunt.
  change (default_extensions two_menus) with
    (buildCollectExtension 7 (menu 1 "main") :: b :: drop 2 (default_extensions two_menus)).
  cbn [List.find]. rewrite entering_applies, Hd by (rewrite Hd; apply node_name_plain).
  replace (String.eqb (nodeExtName 7 (b_id (menu 1 "main"))) (nodeExtName 7 2)) with false by reflexivity.
  subst b. rewrite branch_applies; [done|]. cbn [b_id menu]. by rewrite Hk.
Qed.

End dialplan.

(** The second menu is never the extension that is found. *)
Lemma second_menu_unreached `{Matcher} fields x :
  plain (fields (digit_field 1)) = true → hunt fields (default_extensions two_menus) = Some x → ex_name x ≠ nodeExtName 7 2.
Proof.
  intros Hp. apply (later_nodes_unreached two_menus [] (menu 1 "main")
    [menu 2 "second"; exit_node 3 terminal_ingroup "SALES"; exit_node 4 terminal_hangup ""] (menu 2 "second")); [done| | |done|by left].
  - apply (bool_decide_unpack _). vm_compute. exact I.
  - apply (bool_decide_unpack _). vm_compute. exact I.
Qed.

(** ** Values that are not escaped *)

Definition quoted_terminators : BuilderNode :=
  mkBuilderNode 1 collect "main" 1 1 (String "#" (String dquote ">")) 5000 3 None [].

(** The terminators of a node go into the file as they are, and end the value. *)
Example terminators_end_the_value :
  ∃ a, a ∈ extension_actions (buildCollectExtension 7 quoted_terminators) ∧ ac_application a = "read"%string ∧
    xml_text (ac_data a) = false.
Proof. eexists. split; [right; right; right; left|split]; vm_compute; reflexivity. Qed.

(** A name with two hyphens ends the comment it is put into. *)
Example names_end_the_comment :
  ex_comment (buildCollectExtension 7 (menu 1 "Sales -- main")) = Some "=== Node 1: Sales -- main (collect) ==="%string.
Proof. reflexivity. Qed.

(** The star is a key of the telephone, but not in the expression of its edge. *)
Example star_is_no_literal :
  co_expression <$> ex_conditions (buildBranchExtension 7 (menu 1 "main") [key_edge 1 "*" 2 0]) = ["^*$"; "^.*$"]%string.
Proof. reflexivity. Qed.

(** Without a target for too many wrong inputs the call is transferred to the path of a file. *)
Example goodbye_is_an_extension :
  jumps (buildInvalidCheckExtension 7 (menu 2 "second") (node_edges two_menus (menu 2 "second")))
    "/var/lib/freeswitch/sounds/ivr/sys/sys_goodbye.wav" ∧
  "/var/lib/freeswitch/sounds/ivr/sys/sys_goodbye.wav"%string ∉ ex_name <$> default_extensions two_menus.
Proof.
  split; [apply invalid_jumps; left; reflexivity|]. apply (bool_decide_unpack _). vm_compute. exact I.
Qed.

(** Every key but 1 chooses Spanish. *)
Example other_keys_are_spanish :
  String.eqb "3" "1" = false ∧
  (∃ a, a ∈ extension_actions (buildBranchExtension 7 (mkBuilderNode 1 lang_select "language" 1 1 "none" 5000 3 None [])
           [key_edge 1 "3" 2 0]) ∧ ac_data a = "vici2_ivr_lang=es"%string).
Proof. split; [done|]. eexists. split; [right; left|]; reflexivity. Qed.

(** ** A server, and two tenants *)

#[local] Open Scope Z_scope.

Definition plain_server : IvrServer :=
  mkIvrServer (λ s, s) (λ l, l) (λ l, l) (λ l, l) (λ l, l) (λ l, l) true (λ n s, Nat.leb (String.length s) (Z.to_nat n)) (String.concat "/") "/sounds/ivr" (λ _, None)
    (λ _, "other"%string) (λ v, match v with BNum x => x | _ => NaN end) (Some "secret"%string).

#[export] Instance plain_laws : IvrLaws plain_server.
Proof. by split. Qed.

Definition works : IvrEnv := mkIvrEnv 1746100799000 (λ _, true) (λ _, true) true.

Definition admin_of (tenant : Z) : option ApiAuth :=
  Some (mkApiAuth (10 + tenant) tenant admin (permsAsSet admin) "j" true None AllCampaigns).

Definition json (l : list (string * BodyValue)) : option Body := Some (list_to_map l).

Definition asked (tenant : Z) (c : IvrCall) : IvrEvent := ivr_request works (admin_of tenant) c.

Definition no_rows : IvrDb :=
  mkIvrDb ∅ ∅ ∅ ∅
    {[ 1 := mkDidRow 1 "+15551230000" "ingroup" "" true "en" 300; 2 := mkDidRow 1 "+15551239999" "ingroup" "" false "en" 300 ]}
    [] (mkNextIds 1 1 1 1).

Definition new_world : IvrWorld := mkIvrWorld no_rows ∅ ∅ [] 0.

Definition new_node (name : string) (t : IvrNodeType) : option Body :=
  json [("name", BText name); ("nodeType", BText (node_type_name t))]%string.

Definition new_edge (input to : string) : option Body := json [("onInput", BText input); ("toNodeId", BText to)]%string.

(** The first tenant makes an IVR of one menu, and routes its numbers to it. *)
Definition first_steps : list IvrEvent :=
  [asked 1 (call_create_ivr (json [("name", BText "Main")]%string));
   asked 1 (call_create_node "1" (new_node "menu" collect));
   asked 1 (call_create_node "1" (new_node "sales" terminal_ingroup));
   asked 1 (call_create_node "1" (new_node "bye" terminal_hangup));
   asked 1 (call_create_edge "1" "1" (new_edge "1" "2"));
   asked 1 (call_create_edge "1" "1" (new_edge "__TIMEOUT__" "3"));
   asked 1 (call_create_edge "1" "1" (new_edge "__INVALID_MAX__" "3"));
   asked 1 (call_assign_did "1" (json [("ivrId", BText "1")]%string));
   asked 1 (call_assign_did "2" (json [("ivrId", BText "1")]%string))].

Definition served_world : IvrWorld := run_ivrs plain_server first_steps new_world.

Lemma new_world_ok : world_ok plain_server new_world.
Proof. split; split; cbn; try (intros *; rewrite lookup_empty; done); done. Qed.

Definition file_of (w : IvrWorld) : option string := default_files w !! "70_ivr_1.xml"%string.

Example first_files :
  bool_decide (is_Some (file_of served_world)) = true ∧
  bool_decide (is_Some (public_files served_world !! "10_did_15551230000.xml"%string)) = true ∧
  reloads served_world = 3%nat.
Proof. vm_compute. done. Qed.

Lemma ivr_runs_witness : world_ok plain_server new_world ∧ world_ok plain_server (run_ivrs plain_server first_steps new_world).
Proof. split; [apply new_world_ok|]. exact (ivr_runs plain_server first_steps new_world new_world_ok). Defined.

Lemma served_world_ok : world_ok plain_server served_world.
Proof. unfold served_world, run_ivrs, first_steps. cbn [fold_left]. do 9 (apply event_ok; [apply _|]). apply new_world_ok. Qed.

Definition after (e : IvrEvent) (w : IvrWorld) : IvrWorld := ivr_event plain_server e w.

Definition reply_of (tenant : Z) (c : IvrCall) (w : IvrWorld) : IvrReply := (serve_ivr plain_server works (admin_of tenant) c w).1.

Definition reply_status (r : IvrReply) : Z :=
  match r with
  | IvFail s _ | IvOne s _ | IvNode s _ | IvEdge s _ => s
  | IvThrown => 500
  | IvNoContent => 204
  | _ => 200
  end.

(** ** Tenants *)

(** An edge may be added to the node of another tenant, whose dialplan is then rendered with it, and
    who cannot take it away: it is not an edge of theirs. *)
Theorem foreign_edge :
  let add := call_create_edge "1" "1" (new_edge "9" "3") in
  let w := after (asked 2 add) served_world in
  reply_status (reply_of 2 add served_world) = 201 ∧
  bool_decide (file_of w = file_of served_world) = false ∧ bool_decide (is_Some (file_of w)) = true ∧
  reply_status (reply_of 1 (call_delete_edge "1" "4") w) = 404 ∧
  reply_status (reply_of 2 (call_delete_edge "1" "4") w) = 204.
Proof. vm_compute. by split_and!. Qed.

Definition good_tools : PromptTools := mkPromptTools true true (Some (num 3)) 48000 false false true.
Definition some_audio (lang : string) : option PromptForm := Some (mkPromptForm (Some lang) (Some (Some "audio/wav"%string, 90000))).

Definition prompted_world : IvrWorld := after (asked 1 (call_upload_prompt good_tools "1" "1" (some_audio "en"))) served_world.

(** A prompt may be uploaded for the node of another tenant, whose prompt then names the file. *)
Theorem foreign_prompt :
  let w := after (asked 2 (call_upload_prompt good_tools "1" "1" (some_audio "en"))) prompted_world in
  (λ p, (p_tenantId p, p_fileUri p)) <$> prompt_rows (iw_db prompted_world) !! 1 = Some (1, "s3://vici2-media/ivr/1/1/1_en.wav"%string) ∧
  (λ p, (p_tenantId p, p_fileUri p)) <$> prompt_rows (iw_db w) !! 1 = Some (1, "s3://vici2-media/ivr/2/1/1_en.wav"%string).
Proof. vm_compute. by split. Qed.

(** ** Files *)

(** A prompt that is uploaded is not played until something else renders the IVR; and the file that is
    played then is not the one that was written. *)
Theorem prompts_unplayed :
  file_of prompted_world = file_of served_world ∧
  uploads prompted_world = [to_disk "/sounds/ivr/1/1/1_en.wav"%string] ∧
  localPromptPath plain_server 1 1 1 "en" = "/sounds/ivr/t1/1/1_en.wav"%string.
Proof. vm_compute. by split_and!. Qed.

(** An IVR that is deleted comes back with the next change of its nodes, inactive as it is. *)
Theorem deleted_comes_back :
  let w := after (asked 1 (call_delete_ivr "1")) served_world in
  let w' := after (asked 1 (call_create_node "1" (new_node "later" terminal_hangup))) w in
  file_of w = None ∧ bool_decide (is_Some (file_of w')) = true ∧
  i_active <$> ivr_rows (iw_db w') !! 1 = Some false.
Proof. vm_compute. by split_and!. Qed.

(** A number that is no longer routed to the IVR keeps its file; one that is not active has one. *)
Theorem routes_left :
  let w := after (asked 1 (call_assign_did "1" (json []))) served_world in
  did_routeKind <$> did_rows (iw_db w) !! 1 = Some "ingroup"%string ∧
  bool_decide (is_Some (public_files w !! "10_did_15551230000.xml"%string)) = true ∧
  did_active <$> did_rows (iw_db w) !! 2 = Some false ∧
  bool_decide (is_Some (public_files w !! "10_did_15551239999.xml"%string)) = true.
Proof. vm_compute. by split_and!. Qed.

(** ** Replies *)

(** An IVR whose nodes have edges cannot be shown, nor a change of such a node answered, which is made all the same. *)
Theorem edges_unanswered :
  let rename := call_update_node "1" "1" (json [("name", BText "start")]%string) in
  reply_status (reply_of 1 (call_ivr "1") served_world) = 500 ∧
  reply_status (reply_of 1 rename served_world) = 500 ∧
  n_name <$> node_rows (iw_db (after (asked 1 rename) served_world)) !! 1 = Some "start"%string.
Proof. vm_compute. by split_and!. Qed.

(** The times between digits and the entry are read from the body and not written. *)
Theorem members_unwritten d n env :
  n_interDigitMs (patched_node env d n) = n_interDigitMs n ∧
  patched_node env d n =
    patched_node env (mkNodePatch (np_name d) (np_nodeType d) (np_collectMin d) (np_collectMax d) (np_collectTerminators d)
      (np_timeoutMs d) None (np_invalidMax d) (np_actionTarget d) (np_positionX d) (np_positionY d) None) n.
Proof. done. Qed.

(** A number is routed to what is no IVR, and then the request fails. *)
Theorem any_target :
  let call := call_assign_did "1" (json [("ivrId", BText "main menu")]%string) in
  reply_status (reply_of 1 call served_world) = 500 ∧
  (λ d, (did_routeKind d, did_routeTarget d)) <$> did_rows (iw_db (after (asked 1 call) served_world)) !! 1 =
    Some ("ivr", "main menu")%string.
Proof. vm_compute. by split. Qed.

(** Every visit but the last is logged as one that ended with a key. *)
Theorem visits_logged_as_keys env d i n :
  (i < length (ti_path d) - 1)%nat → t_outcome (log_row env d i n) = "digit"%string ∧ t_duration_ms (log_row env d i n) = 0.
Proof. intros Hi. unfold log_row. cbn. destruct (Nat.eqb_spec i (length (ti_path d) - 1)); [lia|done]. Qed.

(** ** Witnesses *)

(** The edge of the second tenant, once more. *)
Lemma other_tenants_keep_witness :
  ∃ j, ivr_rows (iw_db (serve_ivr plain_server works (admin_of 2) (call_create_edge "1" "1" (new_edge "9" "3")) served_world).2) !! 1 = Some j ∧
    i_tenantId j = 1.
Proof.
  assert (bool_decide (is_Some (ivr_rows (iw_db served_world) !! 1)) = true) as [i Hi]%bool_decide_eq_true by (vm_compute; reflexivity).
  assert (i_tenantId <$> ivr_rows (iw_db served_world) !! 1 = Some 1) as Ht by (vm_compute; reflexivity).
  rewrite Hi in Ht. injection Ht as Ht.
  destruct (other_tenants_keep plain_server works (admin_of 2) (call_create_edge "1" "1" (new_edge "9" "3")) served_world
              (mkApiAuth 12 2 admin (permsAsSet admin) "j" true None AllCampaigns) served_world_ok eq_refl) as (Hk & _).
  destruct (Hk 1 i Hi) as (j & Hj & _ & Hjt & _); [by rewrite Ht|]. exists j. split; [exact Hj|congruence].
Defined.

Definition nasty : string := String dquote "/><action application='hangup".

(** A menu whose key, target and name would each add an action. *)
Definition nasty_ivr : BuilderIvr :=
  mkBuilderIvr 7 1 [menu 1 nasty; exit_node 2 terminal_transfer nasty] [key_edge 1 nasty 2 0].

Lemma values_escaped_witness :
  xml_text nasty = false ∧
  ∀ x v, x ∈ default_extensions nasty_ivr → v ∈ extension_values x → xml_text v = true.
Proof.
  split; [reflexivity|]. apply (values_escaped nasty_ivr). apply Forall_forall. apply (bool_decide_unpack _). vm_compute. exact I.
Defined.
