(* ===== verification/Merkle.v ===== *)
(** The Merkle tree of the audit attestations, [shared/lib/merkle.ts].

    A [Buffer] is a [list Z] of bytes; row hashes are the 64-digit hexadecimal
    strings the source passes around, decoded by [Buffer.from(s, 'hex')].
    SHA-256 is Node's: the interface [Sha256] is what the code relies on.
    [reduce] and [reduceWithProof] recurse on a list that gets shorter; their
    fuel is the number of nodes, and running out of it ([None]) is proved not to
    happen ([inclusion_proofs_verify]). *)

From S2P Require Import Prelude.

Abbreviation Buffer := (list Z).

(** ** Hexadecimal *)

Definition hex_value (c : ascii) : option Z :=
  let n := Z.of_N (N_of_ascii c) in
  if ((48 <=? n) && (n <=? 57))%Z then Some (n - 48)%Z
  else if ((97 <=? n) && (n <=? 102))%Z then Some (n - 87)%Z
  else if ((65 <=? n) && (n <=? 70))%Z then Some (n - 55)%Z
  else None.

(** [Buffer.from(s, 'hex')] stops at the first pair that is not two digits. *)
Fixpoint from_hex (s : string) : Buffer :=
  match s with
  | String c (String d s') =>
      match hex_value c, hex_value d with
      | Some a, Some b => (16 * a + b)%Z :: from_hex s'
      | _, _ => []
      end
  | _ => []
  end.

Definition hex_digit (n : Z) : ascii :=
  ascii_of_N (Z.to_N (if (n <? 10)%Z then 48 + n else 87 + n)%Z).

(** [buf.toString('hex')] *)
Fixpoint to_hex (b : Buffer) : string :=
  match b with
  | [] => EmptyString
  | x :: b' => String (hex_digit (x / 16)) (String (hex_digit (x mod 16)) (to_hex b'))
  end.

Definition is_byte (x : Z) : Prop := (0 <= x < 256)%Z.

Lemma hex_value_digit n : (0 <= n < 16)%Z → hex_value (hex_digit n) = Some n.
Proof.
  intros Hn. assert (n ∈ seqZ 0 16) as Hin by (apply elem_of_seqZ; lia).
  apply list_elem_of_In in Hin. cbn in Hin.
  repeat destruct Hin as [<-|Hin]; reflexivity || done.
Qed.

Lemma from_to_hex b : Forall is_byte b → from_hex (to_hex b) = b.
Proof.
  induction 1 as [|x b Hx _ IH]; [done|]. cbn [to_hex from_hex]. unfold is_byte in Hx.
  rewrite !hex_value_digit, IH by lia. f_equal. lia.
Qed.

(** ** The hash function *)

Class Sha256 := {
  sha256 : Buffer → Buffer;
  sha256_length b : length (sha256 b) = 32;
  sha256_bytes b : Forall is_byte (sha256 b);
}.

Section merkle.
Context `{Sha256}.
#[local] Open Scope nat_scope.
#[local] Infix "mod" := Nat.modulo.

Definition leafHash (rowHashHex : string) : Buffer := sha256 (0%Z :: from_hex rowHashHex).

Definition internalHash (left right : Buffer) : Buffer := sha256 (1%Z :: left ++ right).

Definition EMPTY_ROOT : Buffer := sha256 [0%Z].

(** [nodes.length % 2 === 0 ? [...nodes] : [...nodes, last]] *)
Definition pad (nodes : list Buffer) : list Buffer :=
  if length nodes mod 2 =? 0 then nodes
  else match last nodes with Some x => nodes ++ [x] | None => nodes end.

(** The loop [for (let i = 0; i < level.length; i += 2)]. *)
Fixpoint pair_up (level : list Buffer) : list Buffer :=
  match level with
  | l :: r :: rest => internalHash l r :: pair_up rest
  | _ => []
  end.

Fixpoint reduce (fuel : nat) (nodes : list Buffer) : option Buffer :=
  match fuel with
  | O => None
  | S fuel' =>
      match nodes with
      | [first] => Some first
      | _ => reduce fuel' (pair_up (pad nodes))
      end
  end.

Fixpoint reduceWithProof (fuel : nat) (nodes : list Buffer) (targetIdx : nat)
    (path : list Buffer) : option (Buffer * list Buffer) :=
  match fuel with
  | O => None
  | S fuel' =>
      match nodes with
      | [first] => Some (first, path)
      | _ =>
          let padded := pad nodes in
          let next := pair_up padded in
          let siblingIdx := if targetIdx mod 2 =? 0 then targetIdx + 1 else targetIdx - 1 in
          let path' := match padded !! siblingIdx with
                       | Some sibling => path ++ [sibling]
                       | None => path
                       end in
          reduceWithProof fuel' next (targetIdx / 2) path'
      end
  end.

Definition buildMerkleRoot (rowHashes : list string) : option Buffer :=
  match rowHashes with
  | [] => Some EMPTY_ROOT
  | _ => reduce (length rowHashes) (leafHash <$> rowHashes)
  end.

Record InclusionProof : Set := mkProof {
  leafIndex : nat;
  treeSize : nat;
  path : list Buffer;
}.

Inductive RangeError : Set :=
  | EmptyTree
  | OutOfRange (leafIndex : Z)
  | StackOverflow. (* of the model only *)

Definition buildWithProof (rowHashes : list string) (leafIndex : Z)
    : result RangeError (Buffer * InclusionProof) :=
  if bool_decide (length rowHashes = 0) then Err EmptyTree
  else if (leafIndex <? 0)%Z || (Z.of_nat (length rowHashes) <=? leafIndex)%Z
  then Err (OutOfRange leafIndex)
  else
    let i := Z.to_nat leafIndex in
    match reduceWithProof (length rowHashes) (leafHash <$> rowHashes) i [] with
    | Some (root, path) => Ok (root, mkProof i (length rowHashes) path)
    | None => Err StackOverflow
    end.

(** The loop of [verifyInclusion]; [sz] is computed and never read. *)
Fixpoint walk (current : Buffer) (idx sz : nat) (path : list Buffer) : Buffer :=
  match path with
  | [] => current
  | sibling :: path' =>
      walk (if idx mod 2 =? 0 then internalHash current sibling else internalHash sibling current)
        (idx / 2) ((sz + 1) / 2) path'
  end.

Definition verifyInclusion (rowHash : string) (proof : InclusionProof) (root : Buffer) : bool :=
  bool_decide (walk (leafHash rowHash) (leafIndex proof) (treeSize proof) (path proof) = root).

Definition proofToHex (proof : InclusionProof) : nat * nat * list string :=
  (leafIndex proof, treeSize proof, to_hex <$> path proof).

(** ** One level *)

Abbreviation next nodes := (pair_up (pad nodes)).

Lemma pad_app nodes : ∃ extra, pad nodes = nodes ++ extra.
Proof.
  unfold pad. destruct (_ =? _); [exists []; by rewrite app_nil_r|].
  destruct (last nodes); [by eexists|exists []; by rewrite app_nil_r].
Qed.

Lemma length_pad nodes : length (pad nodes) = 2 * ((length nodes + 1) / 2).
Proof.
  unfold pad. destruct (Nat.eqb_spec (length nodes mod 2) 0); [lia|].
  destruct (last nodes) as [x|] eqn:E; [rewrite length_app; cbn [length]; lia|].
  apply last_None in E as ->. done.
Qed.

Lemma pad_lookup nodes i : i < length nodes → pad nodes !! i = nodes !! i.
Proof. intros Hi. destruct (pad_app nodes) as [extra ->]. by apply lookup_app_l. Qed.

Lemma pad_inj n1 n2 : length n1 = length n2 → pad n1 = pad n2 → n1 = n2.
Proof.
  intros Hl Hp. destruct (pad_app n1) as [e1 H1], (pad_app n2) as [e2 H2].
  rewrite H1, H2 in Hp. by apply app_inj_1 in Hp as [-> _].
Qed.

Lemma pair_up_ind (P : list Buffer → Prop) :
  P [] → (∀ x, P [x]) → (∀ l r rest, P rest → P (l :: r :: rest)) → ∀ level, P level.
Proof.
  intros H0 H1 H2 level. enough (P level ∧ ∀ x, P (x :: level)) as [? _] by done.
  induction level as [|x level [IH1 IH2]]; split; auto.
Qed.

Lemma length_pair_up level : length (pair_up level) = length level / 2.
Proof.
  induction level as [|x|l r rest IH] using pair_up_ind; [done..|].
  cbn [pair_up length]. rewrite IH. lia.
Qed.

Lemma pair_up_lookup level k l r :
  level !! (2 * k) = Some l → level !! (2 * k + 1) = Some r →
  pair_up level !! k = Some (internalHash l r).
Proof.
  revert k. induction level as [|x|a b rest IH] using pair_up_ind; intros k Hl Hr;
    [done|by destruct k|].
  destruct k as [|k]; [by injection Hl as ->; injection Hr as ->|].
  cbn [pair_up lookup]. apply IH; [rewrite <- Hl|rewrite <- Hr];
    replace (2 * S k) with (S (S (2 * k))) by lia; done.
Qed.

Lemma length_next nodes : length (next nodes) = (length nodes + 1) / 2.
Proof. rewrite length_pair_up, length_pad. lia. Qed.

(** A node's parent is the hash of it and its sibling, on the side its index's
    parity says. *)
Lemma next_lookup nodes i x :
  nodes !! i = Some x →
  ∃ s, pad nodes !! (if i mod 2 =? 0 then i + 1 else i - 1) = Some s ∧
    next nodes !! (i / 2) =
      Some (if i mod 2 =? 0 then internalHash x s else internalHash s x).
Proof.
  intros Hx. assert (Hi := lookup_lt_Some _ _ _ Hx). pose proof (length_pad nodes) as Hl.
  rewrite <- (pad_lookup _ _ Hi) in Hx.
  destruct (Nat.eqb_spec (i mod 2) 0) as [He|He].
  - destruct (lookup_lt_is_Some_2 (pad nodes) (i + 1)) as [s Hs]; [lia|].
    exists s. split; [done|]. apply pair_up_lookup; [|rewrite <- Hs]; [rewrite <- Hx|]; f_equal; lia.
  - destruct (lookup_lt_is_Some_2 (pad nodes) (i - 1)) as [s Hs]; [lia|].
    exists s. split; [done|]. apply pair_up_lookup; [rewrite <- Hs|rewrite <- Hx]; f_equal; lia.
Qed.

Lemma reduce_step fuel nodes :
  length nodes ≠ 1 → reduce (S fuel) nodes = reduce fuel (next nodes).
Proof. by destruct nodes as [|x [|y nodes]]. Qed.

Lemma reduceWithProof_step fuel nodes i acc :
  length nodes ≠ 1 →
  reduceWithProof (S fuel) nodes i acc =
    reduceWithProof fuel (next nodes) (i / 2)
      match pad nodes !! (if i mod 2 =? 0 then i + 1 else i - 1) with
      | Some sibling => acc ++ [sibling]
      | None => acc
      end.
Proof. by destruct nodes as [|x [|y nodes]]. Qed.

Lemma halve_bounds n k :
  2 ≤ n → (n + 1) / 2 ≤ 2 ^ k < 2 * ((n + 1) / 2) → n ≤ 2 ^ S k < 2 * n.
Proof.
  intros Hn Hk. rewrite Nat.pow_succ_r'. destruct k as [|k]; [change (2 ^ 0) with 1 in *; lia|].
  rewrite Nat.pow_succ_r' in *. lia.
Qed.

(** The proof built for a node walks back to the root, at logarithmic length. *)
Lemma reduceWithProof_spec fuel nodes i acc x :
  length nodes ≤ fuel → nodes !! i = Some x →
  ∃ root p, reduce fuel nodes = Some root ∧
    reduceWithProof fuel nodes i acc = Some (root, acc ++ p) ∧
    (∀ sz, walk x i sz p = root) ∧ length nodes ≤ 2 ^ length p < 2 * length nodes.
Proof.
  revert nodes i acc x. induction fuel as [|fuel IH]; intros nodes i acc x Hf Hx;
    [by destruct nodes; cbn in *; lia || done|].
  assert (Hi := lookup_lt_Some _ _ _ Hx).
  destruct (decide (length nodes = 1)) as [H1|H1].
  - destruct nodes as [|y [|]]; try done. destruct i; [|done]. injection Hx as ->.
    exists x, []. cbn. rewrite app_nil_r. split_and!; [done..|lia|lia].
  - rewrite reduce_step, reduceWithProof_step by done.
    destruct (next_lookup _ _ _ Hx) as (s & -> & Hn).
    destruct (IH (next nodes) (i / 2) (acc ++ [s]) _ ltac:(rewrite length_next; lia) Hn)
      as (root & p & Hr & Hp & Hw & Hb).
    rewrite length_next in Hb. apply halve_bounds in Hb; [|lia].
    exists root, (s :: p). rewrite Hr, Hp, <- app_assoc. cbn [walk length].
    split_and!; try done; apply Hb.
Qed.

Lemma reduce_total fuel nodes : length nodes ≤ fuel → nodes ≠ [] → is_Some (reduce fuel nodes).
Proof.
  intros Hf Hne. destruct nodes as [|x nodes]; [done|].
  destruct (reduceWithProof_spec fuel (x :: nodes) 0 [] x Hf eq_refl) as (root & ? & -> & _). eauto.
Qed.

(** C8: Inclusion proofs work: for every non-empty list of row hashes and every
    index in range, [buildWithProof] returns the root [buildMerkleRoot] returns
    and a proof naming that index and size, with a path of [ceil(log2 n)]
    hashes, which [verifyInclusion] accepts for the row hash at the index. *)
Theorem inclusion_proofs_verify (hs : list string) i h :
  hs !! i = Some h →
  ∃ root pf, buildMerkleRoot hs = Some root ∧ buildWithProof hs (Z.of_nat i) = Ok (root, pf) ∧
    leafIndex pf = i ∧ treeSize pf = length hs ∧
    length hs ≤ 2 ^ length (path pf) < 2 * length hs ∧
    verifyInclusion h pf root = true.
Proof.
  intros Hh. assert (Hi := lookup_lt_Some _ _ _ Hh).
  destruct (reduceWithProof_spec (length hs) (leafHash <$> hs) i [] (leafHash h))
    as (root & p & Hr & Hp & Hw & Hb); [by rewrite length_fmap|by rewrite list_lookup_fmap, Hh|].
  rewrite length_fmap in Hb. exists root, (mkProof i (length hs) p).
  unfold buildMerkleRoot, buildWithProof, verifyInclusion. cbn [leafIndex treeSize path].
  rewrite bool_decide_eq_false_2 by lia.
  destruct (Z.ltb_spec (Z.of_nat i) 0); [lia|]. destruct (Z.leb_spec (Z.of_nat (length hs)) (Z.of_nat i)); [lia|].
  cbn [orb]. rewrite Nat2Z.id, Hp, Hw. cbn [app].
  split_and!; [by destruct hs|done..|lia|lia|by apply bool_decide_eq_true].
Qed.

(** ** What is hashed

    The byte strings given to SHA-256 while a level, a tree, or a proof is
    hashed.  A statement "unless SHA-256 collides" is about these finitely many
    inputs. *)

Fixpoint level_inputs (level : list Buffer) : list Buffer :=
  match level with
  | l :: r :: rest => (1%Z :: l ++ r) :: level_inputs rest
  | _ => []
  end.

Fixpoint reduce_inputs (fuel : nat) (nodes : list Buffer) : list Buffer :=
  match fuel with
  | O => []
  | S fuel' =>
      match nodes with
      | [_] => []
      | _ => level_inputs (pad nodes) ++ reduce_inputs fuel' (next nodes)
      end
  end.

Definition leaf_inputs (hs : list string) : list Buffer := (λ h, 0%Z :: from_hex h) <$> hs.

Definition tree_inputs (hs : list string) : list Buffer :=
  leaf_inputs hs ++ reduce_inputs (length hs) (leafHash <$> hs).

Fixpoint walk_inputs (current : Buffer) (idx : nat) (path : list Buffer) : list Buffer :=
  match path with
  | [] => []
  | s :: path' =>
      let input := 1%Z :: (if idx mod 2 =? 0 then current ++ s else s ++ current) in
      input :: walk_inputs (sha256 input) (idx / 2) path'
  end.

Definition collision_free (l : list Buffer) : Prop :=
  ∀ x y, x ∈ l → y ∈ l → sha256 x = sha256 y → x = y.

Lemma collision_free_sub l l' : collision_free l' → (∀ x, x ∈ l → x ∈ l') → collision_free l.
Proof. intros H' Hs x y Hx Hy. apply H'; auto. Qed.

Definition len32 (b : Buffer) : Prop := length b = 32.

Lemma pad_len32 nodes : Forall len32 nodes → Forall len32 (pad nodes).
Proof.
  intros HF. unfold pad. destruct (_ =? _); [done|]. destruct (last nodes) as [x|] eqn:E; [|done].
  apply Forall_app. split; [done|]. constructor; [|done].
  apply last_Some in E as [l ->]. by apply Forall_app in HF as [_ HF]; inversion HF.
Qed.

Lemma pair_up_len32 level : Forall len32 (pair_up level).
Proof.
  induction level as [|x|l r rest IH] using pair_up_ind; [constructor..|].
  constructor; [apply sha256_length|done].
Qed.

Lemma leaves_len32 hs : Forall len32 (leafHash <$> hs).
Proof. apply Forall_fmap, Forall_true. intros h. apply sha256_length. Qed.

Lemma pair_up_inj l1 l2 :
  Forall len32 l1 → Forall len32 l2 → length l1 = length l2 → length l1 mod 2 = 0 →
  collision_free (level_inputs l1 ++ level_inputs l2) → pair_up l1 = pair_up l2 → l1 = l2.
Proof.
  revert l2. induction l1 as [|x|a b l1 IH] using pair_up_ind; intros l2 HF1 HF2 Hl He Hc Hp;
    [by destruct l2|done|].
  destruct l2 as [|a' [|b' l2]]; try done. cbn in Hl.
  rewrite !Forall_cons in HF1, HF2. destruct HF1 as (Ha & Hb & HF1), HF2 as (Ha' & Hb' & HF2).
  injection Hp as Hab Hp. cbn [level_inputs] in Hc.
  apply Hc in Hab; [|set_solver..]. injection Hab as Hab.
  apply app_inj_1 in Hab as [-> ->]; [|unfold len32 in *; congruence].
  do 2 f_equal. apply IH; [done|done|lia|cbn [length] in He; lia| |done].
  eapply collision_free_sub; [done|]. set_solver.
Qed.

Lemma reduce_inputs_step fuel nodes :
  length nodes ≠ 1 →
  reduce_inputs (S fuel) nodes = level_inputs (pad nodes) ++ reduce_inputs fuel (next nodes).
Proof. by destruct nodes as [|x [|y nodes]]. Qed.

Lemma reduce_inj fuel n1 n2 r :
  Forall len32 n1 → Forall len32 n2 → length n1 = length n2 →
  collision_free (reduce_inputs fuel n1 ++ reduce_inputs fuel n2) →
  reduce fuel n1 = Some r → reduce fuel n2 = Some r → n1 = n2.
Proof.
  revert n1 n2. induction fuel as [|fuel IH]; intros n1 n2 HF1 HF2 Hl Hc H1 H2; [done|].
  destruct (decide (length n1 = 1)) as [E|E].
  - destruct n1 as [|x [|]], n2 as [|y [|]]; try done. cbn in *. congruence.
  - rewrite reduce_step in H1, H2 by congruence. rewrite !reduce_inputs_step in Hc by congruence.
    assert (next n1 = next n2) as Hn.
    { apply IH; auto using pair_up_len32; [rewrite !length_next; congruence|].
      eapply collision_free_sub; [done|]. set_solver. }
    apply pad_inj; [done|]. apply pair_up_inj; auto using pad_len32.
    + rewrite !length_pad. congruence.
    + rewrite length_pad. lia.
    + eapply collision_free_sub; [done|]. set_solver.
Qed.

Lemma leaves_inj hs1 hs2 :
  collision_free (leaf_inputs hs1 ++ leaf_inputs hs2) → length hs1 = length hs2 →
  leafHash <$> hs1 = leafHash <$> hs2 → from_hex <$> hs1 = from_hex <$> hs2.
Proof.
  revert hs2. induction hs1 as [|h1 hs1 IH]; intros [|h2 hs2] Hc Hl Hh; try done.
  injection Hh as Hh Hhs. injection Hl as Hl. unfold leafHash in Hh.
  apply Hc in Hh; [|cbn; set_solver..]. injection Hh as Hh. cbn. f_equal; [done|].
  apply IH; [|done..]. eapply collision_free_sub; [done|]. cbn. set_solver.
Qed.

(** ** Binding without the number of rows

    [height ins k x] says that [x] is the hash of a subtree of [k] levels above
    the leaves, hashed from inputs in [ins].  Leaves and inner nodes are hashed
    with different first bytes, so a node has one height. *)

Lemma pad_cons2 a b rest : pad (a :: b :: rest) = a :: b :: pad rest.
Proof.
  unfold pad. cbn [length]. replace (S (S (length rest)) mod 2) with (length rest mod 2) by lia.
  destruct (Nat.eqb_spec (length rest mod 2) 0); [done|].
  destruct rest as [|c rest]; [done|].
  change (last (a :: b :: c :: rest)) with (last (c :: rest)). by destruct (last (c :: rest)).
Qed.

Inductive height (ins : list Buffer) : nat → Buffer → Prop :=
  | height_leaf y : (0%Z :: y) ∈ ins → height ins 0 (sha256 (0%Z :: y))
  | height_node k l r :
      (1%Z :: l ++ r) ∈ ins → height ins k l → height ins k r → len32 l → len32 r →
      height ins (S k) (sha256 (1%Z :: l ++ r)).

Lemma height_unique ins j k x : collision_free ins → height ins j x → height ins k x → j = k.
Proof.
  intros Hc Hj. enough (∀ k x', height ins k x' → x = x' → j = k) by eauto.
  induction Hj as [y Hy|j l r Hi Hl IHl Hr IHr Hl32 Hr32];
    intros k' x' [y' Hy'|k2 l' r' Hi' Hl' Hr' Hl32' Hr32'] Heq;
    [done|by apply Hc in Heq|by apply Hc in Heq|].
  apply Hc in Heq; [|done..]. injection Heq as Heq.
  apply app_inj_1 in Heq as [-> ->]; [|unfold len32 in *; congruence].
  f_equal. eapply IHl; [exact Hl'|done].
Qed.

Lemma height_len32 ins k x : height ins k x → len32 x.
Proof. inversion 1; apply sha256_length. Qed.

Lemma next_height ins k nodes :
  (∀ y, y ∈ level_inputs (pad nodes) → y ∈ ins) →
  Forall (height ins k) nodes → Forall (height ins (S k)) (next nodes).
Proof.
  induction nodes as [|x|a b rest IH] using pair_up_ind; intros Hs HF; [constructor| |].
  - apply Forall_inv in HF. constructor; [|constructor]. pose proof (height_len32 _ _ _ HF).
    apply height_node; [apply Hs; by left|done..].
  - rewrite pad_cons2 in *. rewrite !Forall_cons in HF. destruct HF as (Ha & Hb & HF).
    cbn [pair_up level_inputs] in *. constructor.
    + apply height_node; [apply Hs; by left|done..| |]; by eapply height_len32.
    + apply IH; [|done]. intros y Hy. apply Hs. by right.
Qed.

Lemma next_nodup ins nodes :
  collision_free ins → (∀ y, y ∈ level_inputs (pad nodes) → y ∈ ins) → Forall len32 nodes →
  NoDup nodes → NoDup (next nodes) ∧
  (∀ l r, sha256 (1%Z :: l ++ r) ∈ next nodes → (1%Z :: l ++ r) ∈ ins → len32 l → l ∈ nodes).
Proof.
  intros Hc. induction nodes as [|x|a b rest IH] using pair_up_ind; intros Hs H32 Hnd.
  - split; [constructor|by inversion 1].
  - apply Forall_inv in H32. split; [apply NoDup_singleton|].
    intros l r Hin%list_elem_of_singleton Hi Hl. unfold internalHash in Hin.
    apply Hc in Hin; [|done|apply Hs; by left]. injection Hin as Hin.
    apply app_inj_1 in Hin as [-> _]; [by left|unfold len32 in *; congruence].
  - rewrite pad_cons2 in *. cbn [pair_up level_inputs] in *.
    rewrite !Forall_cons in H32. destruct H32 as (Ha & Hb & H32).
    rewrite !NoDup_cons in Hnd. destruct Hnd as (Hna & Hnb & Hnd).
    destruct IH as [IHn IHl]; [intros y Hy; apply Hs; by right|done..|].
    assert (Hin0 : (1%Z :: a ++ b) ∈ ins) by (apply Hs; by left). split.
    + constructor; [|done]. intros Hin. apply IHl in Hin; [|done..]. set_solver.
    + intros l r [Hin|Hin]%elem_of_cons Hi Hl; [|by do 2 right; eapply IHl].
      unfold internalHash in Hin. apply Hc in Hin; [|done..]. injection Hin as Hin.
      apply app_inj_1 in Hin as [-> _]; [by left|unfold len32 in *; congruence].
Qed.

Lemma pad_inj_nodup n1 n2 : NoDup n1 → NoDup n2 → pad n1 = pad n2 → n1 = n2.
Proof.
  assert (Hne : ∀ x a b rest, NoDup (a :: b :: rest) → pad [x] ≠ a :: b :: pad rest).
  { intros x a b rest (Hn & _)%NoDup_cons [= <- <- _]. by destruct Hn; left. }
  revert n2. induction n1 as [|x|a b n1 IH] using pair_up_ind; intros n2 H1 H2 Hp.
  - destruct n2 as [|y [|a b]]; [done..|]. by rewrite pad_cons2 in Hp.
  - destruct n2 as [|y [|b n2]]; [done|by injection Hp as ->|].
    rewrite pad_cons2 in Hp. by apply Hne in Hp.
  - destruct n2 as [|a' [|b' n2]]; rewrite ?pad_cons2 in Hp; [done|by symmetry in Hp; apply Hne in Hp|].
    injection Hp as -> -> Hp. do 2 f_equal.
    apply NoDup_cons in H1 as [_ H1], H2 as [_ H2].
    apply NoDup_cons in H1 as [_ H1], H2 as [_ H2]. auto.
Qed.

Lemma reduce_height ins fuel k nodes r :
  reduce fuel nodes = Some r → (∀ y, y ∈ reduce_inputs fuel nodes → y ∈ ins) →
  Forall (height ins k) nodes →
  ∃ j, k ≤ j ∧ height ins j r ∧ (length nodes ≠ 1 → k < j).
Proof.
  revert k nodes. induction fuel as [|fuel IH]; intros k nodes Hr Hs HF; [done|].
  destruct (decide (length nodes = 1)) as [E|E].
  - destruct nodes as [|x [|]]; try done. injection Hr as ->. exists k.
    split; [lia|]. split; [by apply Forall_inv in HF|done].
  - rewrite reduce_step in Hr by done. rewrite reduce_inputs_step in Hs by done.
    destruct (IH (S k) (next nodes) Hr) as (j & Hj & Hh & _).
    + intros y Hy. apply Hs. set_solver.
    + apply next_height; [|done]. intros y Hy. apply Hs. set_solver.
    + exists j. split; [lia|]. split; [done|lia].
Qed.

Lemma reduce_inj_nodup ins f1 f2 k n1 n2 r :
  collision_free ins → Forall (height ins k) n1 → Forall (height ins k) n2 →
  NoDup n1 → NoDup n2 →
  (∀ y, y ∈ reduce_inputs f1 n1 → y ∈ ins) → (∀ y, y ∈ reduce_inputs f2 n2 → y ∈ ins) →
  reduce f1 n1 = Some r → reduce f2 n2 = Some r → n1 = n2.
Proof.
  intros Hc. revert f2 k n1 n2. induction f1 as [|f1 IH]; intros f2 k n1 n2 HF1 HF2 Hd1 Hd2 Hs1 Hs2 H1 H2; [done|].
  destruct (reduce_height _ _ _ _ _ H1 Hs1 HF1) as (j1 & _ & Hj1 & Hl1).
  destruct (reduce_height _ _ _ _ _ H2 Hs2 HF2) as (j2 & _ & Hj2 & Hl2).
  assert (j1 = j2) as -> by (by eapply height_unique).
  destruct (decide (length n1 = 1)) as [E1|E1], (decide (length n2 = 1)) as [E2|E2].
  - destruct f2; [done|]. destruct n1 as [|x [|]], n2 as [|y [|]]; try done. cbn in *. congruence.
  - destruct n1 as [|x [|]]; try done. injection H1 as ->. inversion HF1 as [|? ? Hk]; subst.
    pose proof (height_unique _ _ _ _ Hc Hk Hj1). lia.
  - destruct f2; [done|]. destruct n2 as [|x [|]]; try done. injection H2 as ->.
    inversion HF2 as [|? ? Hk]; subst. pose proof (height_unique _ _ _ _ Hc Hk Hj1). lia.
  - destruct f2 as [|f2]; [done|].
    rewrite reduce_step in H1, H2 by done. rewrite reduce_inputs_step in Hs1, Hs2 by done.
    assert (H32 : ∀ n, Forall (height ins k) n → Forall len32 n)
      by (intros n Hn; apply (Forall_impl _ _ _ Hn); intros x; apply height_len32).
    assert (Hi1 : ∀ y, y ∈ level_inputs (pad n1) → y ∈ ins) by (intros; apply Hs1; set_solver).
    assert (Hi2 : ∀ y, y ∈ level_inputs (pad n2) → y ∈ ins) by (intros; apply Hs2; set_solver).
    assert (Hn : next n1 = next n2).
    { eapply (IH f2 (S k)); [by apply next_height..| | | | |exact H1|exact H2].
      - eapply next_nodup; eauto.
      - eapply next_nodup; eauto.
      - intros y Hy. apply Hs1. set_solver.
      - intros y Hy. apply Hs2. set_solver. }
    assert (Hl := f_equal length Hn). rewrite !length_next in Hl.
    apply pad_inj_nodup; [done..|]. apply pair_up_inj; auto using pad_len32.
    + rewrite !length_pad. lia.
    + rewrite length_pad. lia.
    + eapply collision_free_sub; [done|]. set_solver.
Qed.

Lemma leaf_height ins hs :
  (∀ y, y ∈ leaf_inputs hs → y ∈ ins) → Forall (height ins 0) (leafHash <$> hs).
Proof.
  intros Hs. apply Forall_fmap, Forall_forall. intros h Hh. constructor.
  apply Hs, list_elem_of_fmap. eauto.
Qed.

Lemma leaf_nodup hs :
  collision_free (leaf_inputs hs) → NoDup (from_hex <$> hs) → NoDup (leafHash <$> hs).
Proof.
  induction hs as [|h hs IH]; intros Hc; [constructor|]. cbn [fmap list_fmap].
  intros (Hn & Hnd)%NoDup_cons. constructor.
  - intros (h' & Hh & Hin)%list_elem_of_fmap. unfold leafHash in Hh.
    apply Hc in Hh; [|by left|right; apply list_elem_of_fmap; eauto].
    injection Hh as Hh. apply Hn, list_elem_of_fmap. eauto.
  - apply IH; [|done]. eapply collision_free_sub; [done|]. intros x Hx. by right.
Qed.

Definition nonempty_hashes (hs : list string) : Prop := Forall (λ h, from_hex h ≠ []) hs.

(** A root shared by two lists of distinct row hashes. *)
Lemma root_binds_distinct hs1 hs2 r :
  nonempty_hashes hs1 → nonempty_hashes hs2 →
  NoDup (from_hex <$> hs1) → NoDup (from_hex <$> hs2) →
  collision_free ([0%Z] :: tree_inputs hs1 ++ tree_inputs hs2) →
  buildMerkleRoot hs1 = Some r → buildMerkleRoot hs2 = Some r →
  from_hex <$> hs1 = from_hex <$> hs2.
Proof.
  set (ins := _ :: _ ++ _). intros Hne1 Hne2 Hd1 Hd2 Hc H1 H2.
  assert (Hempty : ∀ hs, hs ≠ [] → nonempty_hashes hs → (∀ y, y ∈ tree_inputs hs → y ∈ ins) →
    buildMerkleRoot hs ≠ Some EMPTY_ROOT).
  { intros hs Hne Hh Hs Hr. assert (Hr' : reduce (length hs) (leafHash <$> hs) = Some EMPTY_ROOT)
      by (by destruct hs).
    apply (reduce_height ins _ 0) in Hr' as (j & Hj & Hhj & Hl);
      [|intros y Hy; apply Hs; unfold tree_inputs; set_solver
       |apply leaf_height; intros y Hy; apply Hs; unfold tree_inputs; set_solver].
    assert (j = 0) as ->.
    { eapply height_unique; [exact Hc|exact Hhj|]. constructor. by left. }
    destruct hs as [|h [|h' hs]]; [done| |cbn [fmap list_fmap length] in Hl; lia].
    injection Hr as Hr. apply Hc in Hr; [|apply Hs; by left|by left].
    inversion Hh as [|? ? Hhh]; subst. injection Hr as Hr. done. }
  destruct hs1 as [|x1 hs1], hs2 as [|x2 hs2]; [done| | |].
  { injection H1 as <-. exfalso. eapply (Hempty (x2 :: hs2)); try done. unfold ins. set_solver. }
  { injection H2 as <-. exfalso. eapply (Hempty (x1 :: hs1)); try done. unfold ins. set_solver. }
  unfold tree_inputs in ins. apply leaves_inj.
  - eapply collision_free_sub; [done|]. unfold ins. set_solver.
  - assert (Hl : leafHash <$> x1 :: hs1 = leafHash <$> x2 :: hs2); [|apply (f_equal length) in Hl; by rewrite !length_fmap in Hl].
    eapply (reduce_inj_nodup ins _ _ 0); [exact Hc| | | | | | |exact H1|exact H2];
      [apply leaf_height|apply leaf_height|apply leaf_nodup|apply leaf_nodup| |]; try done;
      try (intros y Hy; unfold ins; set_solver);
      (eapply collision_free_sub; [exact Hc|]; unfold ins; set_solver).
  - eapply (reduce_inj_nodup ins _ _ 0); [exact Hc| | | | | | |exact H1|exact H2];
      [apply leaf_height|apply leaf_height|apply leaf_nodup|apply leaf_nodup| |]; try done;
      try (intros y Hy; unfold ins; set_solver);
      (eapply collision_free_sub; [exact Hc|]; unfold ins; set_solver).
Qed.

(** The Merkle root binds the rows: two lists of non-empty row hashes with the
    same root are the same list, if each has no duplicates (the rows of a day have
    none) or if they have the same length, unless SHA-256 collides on the inputs
    hashed to compute the two roots. *)
Theorem merkle_root_binding (hs1 hs2 : list string) r :
  nonempty_hashes hs1 → nonempty_hashes hs2 →
  length hs1 = length hs2 ∨ NoDup (from_hex <$> hs1) ∧ NoDup (from_hex <$> hs2) →
  collision_free ([0%Z] :: tree_inputs hs1 ++ tree_inputs hs2) →
  buildMerkleRoot hs1 = Some r → buildMerkleRoot hs2 = Some r →
  from_hex <$> hs1 = from_hex <$> hs2.
Proof.
  intros Hne1 Hne2 [Hl|[Hd1 Hd2]] Hc H1 H2; [|by eapply root_binds_distinct].
  destruct hs1 as [|x1 hs1], hs2 as [|x2 hs2]; try done.
  unfold buildMerkleRoot in H1, H2. rewrite <- Hl in H2. unfold tree_inputs in Hc.
  rewrite <- Hl in Hc. apply leaves_inj; [|done|].
  - eapply collision_free_sub; [done|]. set_solver.
  - eapply reduce_inj; [apply leaves_len32..| |  |exact H1|exact H2].
    + by rewrite !length_fmap.
    + eapply collision_free_sub; [done|]. set_solver.
Qed.

(** ** Accepted proofs *)

(** Every node of the tree, level by level. *)
Fixpoint tree_nodes (fuel : nat) (nodes : list Buffer) : list Buffer :=
  match fuel with
  | O => nodes
  | S fuel' =>
      match nodes with
      | [_] => nodes
      | _ => nodes ++ tree_nodes fuel' (next nodes)
      end
  end.

Lemma tree_nodes_step fuel nodes :
  length nodes ≠ 1 → tree_nodes (S fuel) nodes = nodes ++ tree_nodes fuel (next nodes).
Proof. by destruct nodes as [|x [|y nodes]]. Qed.

Lemma tree_nodes_base fuel nodes v : v ∈ nodes → v ∈ tree_nodes fuel nodes.
Proof. intros Hv. destruct fuel, nodes as [|x [|]]; cbn; set_solver. Qed.

Lemma pad_elem nodes v : v ∈ pad nodes → v ∈ nodes.
Proof.
  unfold pad. destruct (_ =? _); [done|]. destruct (last nodes) as [y|] eqn:E; [|done].
  apply last_Some in E as [l ->]. set_solver.
Qed.

Lemma pair_up_origin level v :
  v ∈ pair_up level →
  ∃ l r, v = sha256 (1%Z :: l ++ r) ∧ (1%Z :: l ++ r) ∈ level_inputs level ∧ l ∈ level ∧ r ∈ level.
Proof.
  induction level as [|x|a b rest IH] using pair_up_ind; [by inversion 1..|].
  cbn [pair_up level_inputs]. intros [->|(l & r & -> & Hi & Hl & Hr)%IH]%elem_of_cons.
  - exists a, b. set_solver.
  - exists l, r. set_solver.
Qed.

Lemma reduce_in_tree fuel nodes r : reduce fuel nodes = Some r → r ∈ tree_nodes fuel nodes.
Proof.
  revert nodes. induction fuel as [|fuel IH]; intros nodes Hr; [done|].
  destruct (decide (length nodes = 1)) as [E|E].
  - destruct nodes as [|x [|]]; try done. injection Hr as ->. by left.
  - rewrite reduce_step in Hr by done. rewrite tree_nodes_step by done. set_solver.
Qed.

(** A node is a leaf, or the hash of two nodes. *)
Lemma tree_nodes_origin fuel nodes v :
  v ∈ tree_nodes fuel nodes →
  v ∈ nodes ∨ ∃ l r, v = sha256 (1%Z :: l ++ r) ∧ (1%Z :: l ++ r) ∈ reduce_inputs fuel nodes ∧
    l ∈ tree_nodes fuel nodes ∧ r ∈ tree_nodes fuel nodes.
Proof.
  revert nodes. induction fuel as [|fuel IH]; intros nodes Hv; [by left|].
  destruct (decide (length nodes = 1)) as [E|E]; [destruct nodes as [|x [|]]; by auto|].
  rewrite tree_nodes_step, reduce_inputs_step in * by done.
  apply elem_of_app in Hv as [Hv|Hv]; [by left|]. right.
  apply IH in Hv as [(l & r & -> & Hi & Hl & Hr)%pair_up_origin|(l & r & -> & Hi & Hl & Hr)];
    exists l, r; set_solver by eauto using pad_elem.
Qed.

Lemma tree_nodes_len32 fuel nodes v : Forall len32 nodes → v ∈ tree_nodes fuel nodes → len32 v.
Proof.
  intros HF [Hv|(l & r & -> & _)]%tree_nodes_origin; [by eapply Forall_forall in HF|apply sha256_length].
Qed.

Lemma leaf_not_internal (ins : list Buffer) hs l r :
  collision_free ins → (∀ x, x ∈ leaf_inputs hs → x ∈ ins) → (1%Z :: l ++ r) ∈ ins →
  sha256 (1%Z :: l ++ r) ∉ leafHash <$> hs.
Proof.
  intros Hc Hsub Hin (h & Hh & Hhs)%list_elem_of_fmap. apply Hc in Hh; [done|done|].
  apply Hsub, list_elem_of_fmap. eauto.
Qed.

Lemma walk_sound hs ins x i sz p :
  let T := tree_nodes (length hs) (leafHash <$> hs) in
  collision_free ins → (∀ y, y ∈ tree_inputs hs → y ∈ ins) →
  (∀ y, y ∈ walk_inputs x i p → y ∈ ins) → len32 x → walk x i sz p ∈ T → x ∈ T.
Proof.
  intros T Hc Ht. revert x i sz. induction p as [|s p IH]; intros x i sz Hw Hx Hin; [done|].
  cbn [walk walk_inputs] in *. set (e := i mod 2 =? 0) in *.
  assert (Hchild : sha256 (1%Z :: (if e then x ++ s else s ++ x)) ∈ T).
  { eapply (IH _ (i / 2) ((sz + 1) / 2)); [|apply sha256_length|].
    - intros y Hy. apply Hw. by right.
    - unfold internalHash in Hin. by destruct e. }
  assert (Hself : (1%Z :: (if e then x ++ s else s ++ x)) ∈ ins) by (apply Hw; by left).
  apply tree_nodes_origin in Hchild as [Hleaf|(l & r & Heq & Hi & Hl & Hr)].
  - exfalso. destruct e; (eapply leaf_not_internal; [exact Hc| |exact Hself|exact Hleaf]);
      intros y Hy; apply Ht; unfold tree_inputs; set_solver.
  - apply Hc in Heq; [|done|apply Ht; unfold tree_inputs; set_solver].
    injection Heq as Heq.
    pose proof (tree_nodes_len32 _ _ _ (leaves_len32 hs) Hl) as Hl32.
    pose proof (tree_nodes_len32 _ _ _ (leaves_len32 hs) Hr) as Hr32. unfold len32 in *.
    destruct e; [apply app_inj_1 in Heq as [-> _]|apply app_inj_2 in Heq as [_ ->]]; try done; congruence.
Qed.

(** C9: An accepted inclusion proof is about a row of the day: if
    [verifyInclusion] accepts a row hash against the root of a non-empty list,
    whatever index, size and path the proof claims, then the row hash is in the
    list, unless SHA-256 collides on the inputs hashed by the two sides. *)
Theorem inclusion_sound hs h pf root :
  hs ≠ [] → buildMerkleRoot hs = Some root → verifyInclusion h pf root = true →
  collision_free ((0%Z :: from_hex h) :: tree_inputs hs ++
                  walk_inputs (leafHash h) (leafIndex pf) (path pf)) →
  ∃ h', h' ∈ hs ∧ from_hex h' = from_hex h.
Proof.
  intros Hne Hroot Hv Hc. apply bool_decide_eq_true in Hv.
  assert (Hr : reduce (length hs) (leafHash <$> hs) = Some root) by (by destruct hs).
  assert (Hin : leafHash h ∈ tree_nodes (length hs) (leafHash <$> hs)).
  { eapply (walk_sound hs _ _ (leafIndex pf) (treeSize pf) (path pf) Hc); [set_solver..| |].
    - apply sha256_length.
    - rewrite Hv. by apply reduce_in_tree. }
  apply tree_nodes_origin in Hin as [(h' & Heq & Hh')%list_elem_of_fmap|(l & r & Heq & Hi & _)].
  - exists h'. split; [done|]. unfold leafHash in Heq.
    apply Hc in Heq; [congruence|by left|]. right. apply elem_of_app. left.
    unfold tree_inputs, leaf_inputs. apply elem_of_app. left. apply list_elem_of_fmap. eauto.
  - exfalso. apply (Hc (0%Z :: from_hex h)) in Heq; [done|by left|].
    right. unfold tree_inputs. set_solver.
Qed.

Lemma root_bytes hs r : buildMerkleRoot hs = Some r → Forall is_byte r.
Proof.
  destruct hs as [|h hs]; [intros [= <-]; apply sha256_bytes|].
  intros Hr%reduce_in_tree. apply tree_nodes_origin in Hr as [Hr|(l & r' & -> & _)];
    [|apply sha256_bytes].
  apply list_elem_of_fmap in Hr as (h' & -> & _). apply sha256_bytes.
Qed.

Lemma to_hex_inj b b' : Forall is_byte b → Forall is_byte b' → to_hex b = to_hex b' → b = b'.
Proof. intros Hb Hb' He. by rewrite <- (from_to_hex b), <- (from_to_hex b'), He. Qed.

(** ** What the root and a proof do not bind *)

Lemma reduce_fuel f1 f2 nodes :
  length nodes ≤ f1 → length nodes ≤ f2 → nodes ≠ [] → reduce f1 nodes = reduce f2 nodes.
Proof.
  revert f2 nodes. induction f1 as [|f1 IH]; intros f2 nodes H1 H2 Hne;
    [by destruct nodes; cbn in *; lia || done|].
  destruct f2 as [|f2]; [by destruct nodes; cbn in *; lia || done|].
  destruct (decide (length nodes = 1)) as [E|E]; [by destruct nodes as [|x [|]]|].
  assert (length nodes ≠ 0) by (by destruct nodes).
  rewrite !reduce_step by done. apply IH; rewrite ?length_next; [lia..|].
  intros Hn. apply (f_equal length) in Hn. rewrite length_next in Hn. cbn [length] in Hn. lia.
Qed.

(** The root does not bind the number of rows: adding a copy of the last row
    to a list of odd length (at least 3) leaves the root unchanged, because the
    last node of an odd level is paired with itself (RFC 6962 promotes it). *)
Theorem merkle_root_duplicate_last hs x :
  hs ≠ [] → length hs mod 2 = 0 →
  buildMerkleRoot (hs ++ [x]) = buildMerkleRoot (hs ++ [x; x]).
Proof.
  intros Hne He. assert (length hs ≠ 0) by (by destruct hs).
  unfold buildMerkleRoot.
  destruct (hs ++ [x]) as [|a l1] eqn:E1; [by destruct hs|]. rewrite <- E1.
  destruct (hs ++ [x; x]) as [|b l2] eqn:E2; [by destruct hs|]. rewrite <- E2. clear E1 E2.
  assert (Hp : pad (leafHash <$> hs ++ [x]) = pad (leafHash <$> hs ++ [x; x])).
  { unfold pad. rewrite !length_fmap, !length_app. cbn [length].
    destruct (Nat.eqb_spec ((length hs + 1) mod 2) 0); [lia|].
    destruct (Nat.eqb_spec ((length hs + 2) mod 2) 0); [|lia].
    rewrite !fmap_app. change (leafHash <$> [x]) with [leafHash x]. rewrite last_snoc.
    by rewrite <- app_assoc. }
  rewrite (reduce_fuel _ (S (length (hs ++ [x; x])))) by
    (rewrite ?length_fmap, ?length_app; cbn; try lia; by destruct hs).
  rewrite (reduce_fuel (length (hs ++ [x; x])) (S (length (hs ++ [x; x])))) by
    (rewrite ?length_fmap, ?length_app; cbn; try lia; by destruct hs).
  rewrite !reduce_step by (rewrite length_fmap, length_app; cbn; lia). by rewrite Hp.
Qed.

Lemma walk_shift x i sz sz' k p : walk x (i + 2 ^ length p * k) sz' p = walk x i sz p.
Proof.
  revert x i sz sz'. induction p as [|s p IH]; intros x i sz sz'; [done|].
  cbn [walk length]. rewrite Nat.pow_succ_r'.
  replace ((i + 2 * 2 ^ length p * k) mod 2) with (i mod 2) by
    (replace (i + 2 * 2 ^ length p * k) with (i + (2 ^ length p * k) * 2) by lia;
     by rewrite Nat.Div0.mod_add).
  replace ((i + 2 * 2 ^ length p * k) / 2) with (i / 2 + 2 ^ length p * k) by
    (replace (i + 2 * 2 ^ length p * k) with (i + (2 ^ length p * k) * 2) by lia;
     by rewrite Nat.div_add).
  apply IH.
Qed.

(** A proof does not bind the position it claims: the same path is accepted
    with any tree size, and with any leaf index that differs from the real one by a
    multiple of 2^|path|, in particular one outside the tree. *)
Theorem inclusion_index_unbound h pf root k size' :
  verifyInclusion h pf root = true →
  verifyInclusion h (mkProof (leafIndex pf + 2 ^ length (path pf) * k) size' (path pf)) root = true.
Proof.
  unfold verifyInclusion. rewrite !bool_decide_eq_true. cbn [leafIndex treeSize path].
  by rewrite (walk_shift _ _ (treeSize pf)).
Qed.
End merkle.

(** ** Witnesses: a 32-byte checksum in place of SHA-256 *)

Definition toy_bytes (b : Buffer) : Buffer :=
  (λ i, foldl (λ acc x, (acc * (31 + 2 * i) + x + i + 1) mod 251)%Z 7%Z b) <$> seqZ 0 32.

#[export] Instance toy_sha256 : Sha256.
Proof.
  refine {| sha256 := toy_bytes |}; intros b.
  - unfold toy_bytes. by rewrite length_fmap, length_seqZ.
  - unfold toy_bytes. apply Forall_fmap, Forall_true. intros i. cbn.
    destruct b as [|x b] using rev_ind; [by cbn|]. unfold is_byte.
    rewrite foldl_app. cbn. lia.
Defined.

Definition three_rows : list string := ["0a0b"; "0c0d"; "0e0f"]%string.

Definition collision_freeb `{Sha256} (l : list Buffer) : bool :=
  forallb (λ x, forallb (λ y, implb (bool_decide (sha256 x = sha256 y)) (bool_decide (x = y))) l) l.

Lemma collision_freeb_spec `{Sha256} l : collision_freeb l = true → collision_free l.
Proof.
  unfold collision_freeb, collision_free. rewrite forallb_forall. intros Hf x y Hx Hy Hxy.
  apply list_elem_of_In in Hx, Hy. specialize (Hf x Hx). rewrite forallb_forall in Hf.
  specialize (Hf y Hy). rewrite (bool_decide_eq_true_2 _ Hxy) in Hf. by apply bool_decide_eq_true in Hf.
Qed.

(** The path of the built proof of row [i]. *)
Definition path_of (i : Z) : list Buffer :=
  match buildWithProof three_rows i with Ok (_, pf) => path pf | Err _ => [] end.

Definition root_of : Buffer := default [] (buildMerkleRoot three_rows).

Lemma inclusion_proofs_verify_witness :
  three_rows !! 2 = Some "0e0f"%string ∧
  ∃ root pf, buildMerkleRoot three_rows = Some root ∧ buildWithProof three_rows 2 = Ok (root, pf) ∧
    leafIndex pf = 2 ∧ treeSize pf = 3 ∧ 3 ≤ 2 ^ length (path pf) < 2 * 3 ∧
    verifyInclusion "0e0f" pf root = true.
Proof. split; [reflexivity|]. apply (inclusion_proofs_verify three_rows 2). reflexivity. Defined.

Lemma merkle_root_binding_witness :
  buildMerkleRoot three_rows = Some root_of ∧
    from_hex <$> three_rows = from_hex <$> ["0A0B"; "0C0D"; "0E0F"]%string.
Proof.
  split; [vm_compute; reflexivity|].
  apply (merkle_root_binding three_rows ["0A0B"; "0C0D"; "0E0F"]%string root_of);
    [repeat (constructor; [by vm_compute|]); constructor|repeat (constructor; [by vm_compute|]); constructor|
     left; reflexivity| |vm_compute; reflexivity..].
  apply collision_freeb_spec. vm_compute. reflexivity.
Defined.

Lemma inclusion_sound_witness : ∃ h', h' ∈ three_rows ∧ from_hex h' = from_hex "0C0D".
Proof.
  apply (inclusion_sound three_rows "0C0D" (mkProof 1 3 (path_of 1)) root_of);
    [done|vm_compute; reflexivity|vm_compute; reflexivity|].
  apply collision_freeb_spec. vm_compute. reflexivity.
Defined.

Lemma merkle_root_duplicate_last_witness :
  buildMerkleRoot ["0a0b"; "0c0d"; "0e0f"]%string = buildMerkleRoot ["0a0b"; "0c0d"; "0e0f"; "0e0f"]%string.
Proof. apply (merkle_root_duplicate_last ["0a0b"; "0c0d"]%string "0e0f"%string); [done|reflexivity]. Defined.

Lemma inclusion_index_unbound_witness :
  verifyInclusion "0e0f" (mkProof 2 3 (path_of 2)) root_of = true ∧
  verifyInclusion "0e0f" (mkProof (2 + 2 ^ length (path_of 2) * 5) 99 (path_of 2)) root_of = true.
Proof.
  assert (Hv : verifyInclusion "0e0f" (mkProof 2 3 (path_of 2)) root_of = true) by (vm_compute; reflexivity).
  split; [exact Hv|]. apply (inclusion_index_unbound "0e0f" (mkProof 2 3 (path_of 2)) root_of 5 99 Hv).
Defined.
