(* ===== verification/AuditCanonical.v ===== *)
(** The canonical text of an audit row, [api/src/services/audit/canonicalize.ts].

    One record per audit table, one builder per record, and the text that is
    hashed.  [prevHash], the first field of each [...CanonFields] interface, is a
    separate argument, since the verifier reads it from a column of its own.
    Nullable fields are options; a JSON column is a [Json], [JNull] for NULL. *)

From S2P Require Import Prelude Calendar Jcs Merkle.

Definition SEP : ascii := "031".
Definition NULL_SENTINEL : string := "\N".

Inductive AuditTable : Set :=
  | audit_log | call_window_audit | originate_audit | consent_log | dnc_sync_log.

#[export] Instance AuditTable_eq_dec : EqDecision AuditTable.
Proof. solve_decision. Defined.

Definition table_name (t : AuditTable) : string :=
  match t with
  | audit_log => "audit_log"
  | call_window_audit => "call_window_audit"
  | originate_audit => "originate_audit"
  | consent_log => "consent_log"
  | dnc_sync_log => "dnc_sync_log"
  end.

(** ** Fields *)

Definition lpad20 (n : Z) : string := pad_start 20 (zs n).

Definition nullOrStr (v : option string) : string := default NULL_SENTINEL v.

Definition nullOrNum (v : option Z) : string :=
  match v with None => NULL_SENTINEL | Some n => zs n end.

(** [iso.replace(/\.(\d{3})Z$/, '.$1000Z')]; only the end of [iso] can match. *)
Fixpoint micros (iso : string) : string :=
  match iso with
  | String "." (String a (String b (String c (String "Z" EmptyString)))) =>
      if decimal_char a && decimal_char b && decimal_char c
      then String "." (String a (String b (String c "000Z")))
      else iso
  | String x iso' => String x (micros iso')
  | EmptyString => EmptyString
  end.

Definition toISOStringMicros (d : Z) : string := micros (toISOString d).

Definition nullOrDate (d : option Z) : string :=
  match d with None => NULL_SENTINEL | Some d => toISOStringMicros d end.

Definition nullOrJson (v : Json) : result JcsError string :=
  match v with JNull => Ok NULL_SENTINEL | _ => canonicalize v end.

(** ** Tables *)

Record AuditLogFields := {
  al_tenantId : Z; al_id : Z; al_ts : Z; al_actorUserId : option Z; al_actorKind : string;
  al_action : string; al_entityType : string; al_entityId : option string;
  al_beforeJson : Json; al_afterJson : Json; al_requestId : option string;
  al_ipAddress : option string; al_userAgent : option string;
}.

Record CallWindowAuditFields := {
  cw_tenantId : Z; cw_id : Z; cw_createdAt : Z; cw_leadId : Z; cw_phoneE164 : string;
  cw_campaignId : string; cw_decision : string; cw_reason : string; cw_tzIana : option string;
  cw_tzConfidence : option string; cw_stateCode : option string; cw_zip : option string;
  cw_partyLocal : option Z; cw_partyDow : option Z; cw_effectiveOpenMin : option Z;
  cw_effectiveCloseMin : option Z; cw_ruleApplied : option string;
  cw_enforcementPoint : string; cw_nextOpenAt : option Z; cw_callUuid : option string;
}.

Record OriginateAuditFields := {
  oa_tenantId : Z; oa_id : Z; oa_originatedAt : Z; oa_leadId : Z; oa_phoneE164 : string;
  oa_campaignId : option string; oa_outcome : string; oa_tcpaReason : option string;
  oa_dncDecision : option string; oa_dncSources : Json; oa_tcpaDecision : option string;
  oa_callUuid : option string;
}.

Record ConsentLogFields := {
  cl_tenantId : Z; cl_id : Z; cl_callUuid : string; cl_leadId : Z; cl_phoneE164 : string;
  cl_promptId : string; cl_dtmfResponse : option string; cl_outcome : string;
  cl_language : string; cl_promptPlayedAt : Z;
}.

Record DncSyncLogFields := {
  ds_id : Z; ds_source : string; ds_kind : string; ds_fileHash : option string;
  ds_added : Z; ds_removed : Z; ds_startedAt : Z; ds_completedAt : option Z;
}.

Definition canonicalAuditLog (prevHash : string) (f : AuditLogFields) : result JcsError string :=
  beforeJson ← nullOrJson (al_beforeJson f);
  afterJson ← nullOrJson (al_afterJson f);
  Ok (join (char SEP) [
    prevHash;
    lpad20 (al_tenantId f);
    "audit_log"%string;
    lpad20 (al_id f);
    toISOStringMicros (al_ts f);
    match al_actorUserId f with None => NULL_SENTINEL | Some u => zs u end;
    al_actorKind f;
    al_action f;
    al_entityType f;
    nullOrStr (al_entityId f);
    beforeJson;
    afterJson;
    nullOrStr (al_requestId f);
    nullOrStr (al_ipAddress f);
    nullOrStr (al_userAgent f)]).

Definition canonicalCallWindowAudit (prevHash : string) (f : CallWindowAuditFields)
    : result JcsError string :=
  Ok (join (char SEP) [
    prevHash;
    lpad20 (cw_tenantId f);
    "call_window_audit"%string;
    lpad20 (cw_id f);
    toISOStringMicros (cw_createdAt f);
    zs (cw_leadId f);
    cw_phoneE164 f;
    cw_campaignId f;
    cw_decision f;
    cw_reason f;
    nullOrStr (cw_tzIana f);
    nullOrStr (cw_tzConfidence f);
    nullOrStr (cw_stateCode f);
    nullOrStr (cw_zip f);
    nullOrDate (cw_partyLocal f);
    match cw_partyDow f with None => NULL_SENTINEL | Some n => zs n end;
    match cw_effectiveOpenMin f with None => NULL_SENTINEL | Some n => zs n end;
    match cw_effectiveCloseMin f with None => NULL_SENTINEL | Some n => zs n end;
    nullOrStr (cw_ruleApplied f);
    cw_enforcementPoint f;
    nullOrDate (cw_nextOpenAt f);
    nullOrStr (cw_callUuid f)]).

Definition canonicalOriginateAudit (prevHash : string) (f : OriginateAuditFields)
    : result JcsError string :=
  dncSources ← nullOrJson (oa_dncSources f);
  payload ← nullOrJson (oa_dncSources f);
  Ok (join (char SEP) [
    prevHash;
    lpad20 (oa_tenantId f);
    "originate_audit"%string;
    lpad20 (oa_id f);
    toISOStringMicros (oa_originatedAt f);
    zs (oa_leadId f);
    oa_phoneE164 f;
    nullOrStr (oa_campaignId f);
    oa_outcome f;
    nullOrStr (oa_tcpaReason f);
    nullOrStr (oa_dncDecision f);
    dncSources;
    nullOrStr (oa_tcpaDecision f);
    nullOrStr (oa_callUuid f);
    payload]).

Definition canonicalConsentLog (prevHash : string) (f : ConsentLogFields)
    : result JcsError string :=
  Ok (join (char SEP) [
    prevHash;
    lpad20 (cl_tenantId f);
    "consent_log"%string;
    lpad20 (cl_id f);
    cl_callUuid f;
    zs (cl_leadId f);
    cl_phoneE164 f;
    cl_promptId f;
    nullOrStr (cl_dtmfResponse f);
    cl_outcome f;
    cl_language f;
    toISOStringMicros (cl_promptPlayedAt f)]).

Definition canonicalDncSyncLog (prevHash : string) (f : DncSyncLogFields)
    : result JcsError string :=
  Ok (join (char SEP) [
    prevHash;
    lpad20 1;
    "dnc_sync_log"%string;
    lpad20 (ds_id f);
    ds_source f;
    ds_kind f;
    nullOrStr (ds_fileHash f);
    zs (ds_added f);
    zs (ds_removed f);
    toISOStringMicros (ds_startedAt f);
    nullOrDate (ds_completedAt f)]).

(** A row of one of the tables, and the choice of builder in
    [AuditVerifier.recomputeRowHash]. *)
Inductive Columns : Type :=
  | AuditLogRow (f : AuditLogFields)
  | CallWindowRow (f : CallWindowAuditFields)
  | OriginateRow (f : OriginateAuditFields)
  | ConsentRow (f : ConsentLogFields)
  | DncSyncRow (f : DncSyncLogFields).

Definition columns_table (c : Columns) : AuditTable :=
  match c with
  | AuditLogRow _ => audit_log
  | CallWindowRow _ => call_window_audit
  | OriginateRow _ => originate_audit
  | ConsentRow _ => consent_log
  | DncSyncRow _ => dnc_sync_log
  end.

Definition columns_id (c : Columns) : Z :=
  match c with
  | AuditLogRow f => al_id f
  | CallWindowRow f => cw_id f
  | OriginateRow f => oa_id f
  | ConsentRow f => cl_id f
  | DncSyncRow f => ds_id f
  end.

Definition canonical_row (prevHash : string) (c : Columns) : result JcsError string :=
  match c with
  | AuditLogRow f => canonicalAuditLog prevHash f
  | CallWindowRow f => canonicalCallWindowAudit prevHash f
  | OriginateRow f => canonicalOriginateAudit prevHash f
  | ConsentRow f => canonicalConsentLog prevHash f
  | DncSyncRow f => canonicalDncSyncLog prevHash f
  end.

(** [createHash('sha256').update(canonical, 'utf8').digest('hex')] *)
Definition utf8 (s : string) : Buffer := (λ c, Z.of_N (N_of_ascii c)) <$> String.list_ascii_of_string s.

Definition hashCanonical `{Sha256} (canonical : string) : string := to_hex (sha256 (utf8 canonical)).

(** ** The text determines the row *)

(** The writer's schemas refuse text with the separator; a nullable column must
    not hold the text that stands for NULL either ([null_collides]). *)
Definition text_ok (s : string) : Prop := lacks SEP s = true.
Definition opt_text_ok (o : option string) : Prop :=
  match o with Some s => text_ok s ∧ s ≠ NULL_SENTINEL | None => True end.

Lemma micros_skip s t : lacks "." s = true → micros (s +:+ t) = s +:+ micros t.
Proof.
  unfold lacks. induction s as [|x s IH]; [done|]. autorewrite with strs. cbn [string_forallb].
  rewrite andb_true_iff. intros [Hx Hs]. rewrite <- IH by done.
  destruct x as [[] [] [] [] [] [] [] []]; done.
Qed.

Lemma toISOStringMicros_eq t :
  toISOStringMicros t = iso_seconds t +:+ String "." (padn 3 (getUTCMilliseconds t) +:+ "000Z").
Proof.
  unfold toISOStringMicros, toISOString. rewrite micros_skip by (by apply iso_seconds_lacks). f_equal.
  assert (Hall : all_from 1000 0 (λ n, bool_decide (micros (String "." (padn 3 n +:+ "Z")) =
    String "." (padn 3 n +:+ "000Z"))) = true) by (vm_compute; reflexivity).
  pose proof (time_fields t) as (_ & _ & _ & Hms).
  apply (bool_decide_eq_true (_ = _)). apply (all_from_spec _ _ _ Hall). lia.
Qed.

Lemma toISOStringMicros_inj t t' : toISOStringMicros t = toISOStringMicros t' → t = t'.
Proof.
  rewrite !toISOStringMicros_eq. intros Heq. apply toISOString_inj.
  apply app_sep_inj in Heq as [Hs Heq]; [|by apply iso_seconds_lacks..].
  apply app_suffix_inj in Heq as [Hms _]; [|done]. unfold toISOString. congruence.
Qed.

Lemma toISOStringMicros_lacks_char c t :
  decimal_char c = false → c ≠ "+"%char → c ≠ "T"%char → c ≠ ":"%char → c ≠ "."%char →
  c ≠ "Z"%char → lacks c (toISOStringMicros t) = true.
Proof.
  intros Hc Hp HT Hcol Hdot HZ. assert (H0 : c ≠ "0"%char) by (by intros ->).
  rewrite toISOStringMicros_eq, lacks_app, lacks_cons, lacks_app, !lacks_cons.
  rewrite iso_seconds_lacks, padn_lacks by done.
  by destruct (Ascii.eqb_spec c "."), (Ascii.eqb_spec c "0"), (Ascii.eqb_spec c "Z").
Qed.

Lemma toISOStringMicros_ok t : text_ok (toISOStringMicros t).
Proof. by apply toISOStringMicros_lacks_char. Qed.

Lemma lpad20_inj n m : (0 ≤ n)%Z → (0 ≤ m)%Z → lpad20 n = lpad20 m → n = m.
Proof. apply (padn_inj 20). Qed.

Lemma lpad20_ok n : text_ok (lpad20 n).
Proof. by apply (padn_lacks _ 20). Qed.

Lemma zs_ok n : text_ok (zs n).
Proof. by apply zs_lacks. Qed.

Lemma table_name_ok t : text_ok (table_name t).
Proof. by destruct t. Qed.

Lemma lacks_first c s t : lacks c s = true → s ≠ String c t.
Proof. intros H ->. unfold lacks in H. cbn in H. by rewrite Ascii.eqb_refl in H. Qed.

Lemma zs_not_null n : zs n ≠ NULL_SENTINEL.
Proof. apply lacks_first. by apply zs_lacks. Qed.

Lemma date_not_null t : toISOStringMicros t ≠ NULL_SENTINEL.
Proof. apply lacks_first. by apply toISOStringMicros_lacks_char. Qed.

Lemma nullOrStr_ok o : opt_text_ok o → text_ok (nullOrStr o).
Proof. destruct o as [s|]; cbn; [by intros []|done]. Qed.

Lemma nullOrStr_inj o o' :
  opt_text_ok o → opt_text_ok o' → nullOrStr o = nullOrStr o' → o = o'.
Proof. destruct o as [s|], o' as [s'|]; cbn; intuition congruence. Qed.

Lemma nullOrNum_ok o : text_ok (nullOrNum o).
Proof. destruct o; cbn; [by apply zs_lacks|done]. Qed.

Lemma nullOrNum_inj o o' : nullOrNum o = nullOrNum o' → o = o'.
Proof.
  destruct o as [n|], o' as [n'|]; cbn; intros H; [by apply (inj zs) in H as ->|..|done];
    [by apply zs_not_null in H|by symmetry in H; apply zs_not_null in H].
Qed.

Lemma nullOrDate_ok o : text_ok (nullOrDate o).
Proof. destruct o; cbn; [apply toISOStringMicros_ok|done]. Qed.

Lemma nullOrDate_inj o o' : nullOrDate o = nullOrDate o' → o = o'.
Proof.
  destruct o as [n|], o' as [n'|]; cbn; intros H; [by apply toISOStringMicros_inj in H as ->|..|done];
    [by apply date_not_null in H|by symmetry in H; apply date_not_null in H].
Qed.

Lemma nullOrJson_ok v s : nullOrJson v = Ok s → text_ok s.
Proof.
  intros Hs. assert (Hp : printable s = true).
  { destruct v; [by injection Hs as <-|..]; by apply printable_canonicalize in Hs. }
  unfold text_ok, lacks. eapply string_forallb_impl; [|exact Hp].
  intros c. by destruct c as [[] [] [] [] [] [] [] []].
Qed.

Create HintDb canonical.
#[export] Hint Resolve nullOrStr_ok nullOrNum_ok nullOrDate_ok nullOrJson_ok toISOStringMicros_ok
  lpad20_ok zs_ok nullOrStr_inj nullOrNum_inj nullOrDate_inj toISOStringMicros_inj lpad20_inj : canonical.

(** The columns a row may hold. *)
Definition row_ok (c : Columns) : Prop :=
  match c with
  | AuditLogRow f =>
      (0 ≤ al_tenantId f)%Z ∧ (0 ≤ al_id f)%Z ∧
      text_ok (al_actorKind f) ∧ text_ok (al_action f) ∧ text_ok (al_entityType f) ∧
      opt_text_ok (al_entityId f) ∧ opt_text_ok (al_requestId f) ∧
      opt_text_ok (al_ipAddress f) ∧ opt_text_ok (al_userAgent f)
  | CallWindowRow f =>
      (0 ≤ cw_tenantId f)%Z ∧ (0 ≤ cw_id f)%Z ∧
      text_ok (cw_phoneE164 f) ∧ text_ok (cw_campaignId f) ∧ text_ok (cw_decision f) ∧
      text_ok (cw_reason f) ∧ opt_text_ok (cw_tzIana f) ∧ opt_text_ok (cw_tzConfidence f) ∧
      opt_text_ok (cw_stateCode f) ∧ opt_text_ok (cw_zip f) ∧ opt_text_ok (cw_ruleApplied f) ∧
      text_ok (cw_enforcementPoint f) ∧ opt_text_ok (cw_callUuid f)
  | OriginateRow f =>
      (0 ≤ oa_tenantId f)%Z ∧ (0 ≤ oa_id f)%Z ∧
      text_ok (oa_phoneE164 f) ∧ opt_text_ok (oa_campaignId f) ∧ text_ok (oa_outcome f) ∧
      opt_text_ok (oa_tcpaReason f) ∧ opt_text_ok (oa_dncDecision f) ∧
      opt_text_ok (oa_tcpaDecision f) ∧ opt_text_ok (oa_callUuid f)
  | ConsentRow f =>
      (0 ≤ cl_tenantId f)%Z ∧ (0 ≤ cl_id f)%Z ∧
      text_ok (cl_callUuid f) ∧ text_ok (cl_phoneE164 f) ∧ text_ok (cl_promptId f) ∧
      opt_text_ok (cl_dtmfResponse f) ∧ text_ok (cl_outcome f) ∧ text_ok (cl_language f)
  | DncSyncRow f =>
      (0 ≤ ds_id f)%Z ∧ text_ok (ds_source f) ∧ text_ok (ds_kind f) ∧ opt_text_ok (ds_fileHash f)
  end.

(** Two rows of the same table with the same columns; JSON columns are compared
    by their canonical text. *)
Definition same_columns (c d : Columns) : Prop :=
  match c, d with
  | AuditLogRow f, AuditLogRow g =>
      al_tenantId f = al_tenantId g ∧ al_id f = al_id g ∧ al_ts f = al_ts g ∧
      al_actorUserId f = al_actorUserId g ∧ al_actorKind f = al_actorKind g ∧
      al_action f = al_action g ∧ al_entityType f = al_entityType g ∧
      al_entityId f = al_entityId g ∧ nullOrJson (al_beforeJson f) = nullOrJson (al_beforeJson g) ∧
      nullOrJson (al_afterJson f) = nullOrJson (al_afterJson g) ∧
      al_requestId f = al_requestId g ∧ al_ipAddress f = al_ipAddress g ∧
      al_userAgent f = al_userAgent g
  | CallWindowRow f, CallWindowRow g => f = g
  | OriginateRow f, OriginateRow g =>
      oa_tenantId f = oa_tenantId g ∧ oa_id f = oa_id g ∧ oa_originatedAt f = oa_originatedAt g ∧
      oa_leadId f = oa_leadId g ∧ oa_phoneE164 f = oa_phoneE164 g ∧
      oa_campaignId f = oa_campaignId g ∧ oa_outcome f = oa_outcome g ∧
      oa_tcpaReason f = oa_tcpaReason g ∧ oa_dncDecision f = oa_dncDecision g ∧
      nullOrJson (oa_dncSources f) = nullOrJson (oa_dncSources g) ∧
      oa_tcpaDecision f = oa_tcpaDecision g ∧ oa_callUuid f = oa_callUuid g
  | ConsentRow f, ConsentRow g => f = g
  | DncSyncRow f, DncSyncRow g => f = g
  | _, _ => False
  end.

Lemma split_of_join l s :
  join (char SEP) l = s → l ≠ [] → Forall text_ok l → split_on SEP s = l.
Proof. intros <-. apply split_on_join. Qed.

Ltac parts_ok :=
  repeat first [apply Forall_nil_2 | apply Forall_cons_2; [solve [eauto with canonical | reflexivity]|]].

Lemma audit_log_parts p f s :
  text_ok p → row_ok (AuditLogRow f) → canonicalAuditLog p f = Ok s →
  ∃ b a, nullOrJson (al_beforeJson f) = Ok b ∧ nullOrJson (al_afterJson f) = Ok a ∧
    split_on SEP s = [p; lpad20 (al_tenantId f); "audit_log"%string; lpad20 (al_id f);
      toISOStringMicros (al_ts f); nullOrNum (al_actorUserId f); al_actorKind f; al_action f;
      al_entityType f; nullOrStr (al_entityId f); b; a; nullOrStr (al_requestId f);
      nullOrStr (al_ipAddress f); nullOrStr (al_userAgent f)].
Proof.
  intros Hp Hok (b & Hb & (a & Ha & [= <-])%bind_ok)%bind_ok. exists b, a. split_and!; [done..|].
  change (match al_actorUserId f with None => NULL_SENTINEL | Some u => zs u end) with (nullOrNum (al_actorUserId f)).
  destruct Hok as (_ & _ & Hok). destruct_and! Hok. apply split_of_join; [reflexivity|done|]. parts_ok.
Qed.

Lemma call_window_parts p f s :
  text_ok p → row_ok (CallWindowRow f) → canonicalCallWindowAudit p f = Ok s →
  split_on SEP s = [p; lpad20 (cw_tenantId f); "call_window_audit"%string; lpad20 (cw_id f);
    toISOStringMicros (cw_createdAt f); zs (cw_leadId f); cw_phoneE164 f; cw_campaignId f;
    cw_decision f; cw_reason f; nullOrStr (cw_tzIana f); nullOrStr (cw_tzConfidence f);
    nullOrStr (cw_stateCode f); nullOrStr (cw_zip f); nullOrDate (cw_partyLocal f);
    nullOrNum (cw_partyDow f); nullOrNum (cw_effectiveOpenMin f);
    nullOrNum (cw_effectiveCloseMin f); nullOrStr (cw_ruleApplied f); cw_enforcementPoint f;
    nullOrDate (cw_nextOpenAt f); nullOrStr (cw_callUuid f)].
Proof.
  intros Hp (_ & _ & Hok) [= <-]. destruct_and! Hok. apply split_of_join; [reflexivity|done|].
  change (match cw_partyDow f with None => NULL_SENTINEL | Some n => zs n end) with (nullOrNum (cw_partyDow f)).
  change (match cw_effectiveOpenMin f with None => NULL_SENTINEL | Some n => zs n end)
    with (nullOrNum (cw_effectiveOpenMin f)).
  change (match cw_effectiveCloseMin f with None => NULL_SENTINEL | Some n => zs n end)
    with (nullOrNum (cw_effectiveCloseMin f)).
  parts_ok.
Qed.

Lemma originate_parts p f s :
  text_ok p → row_ok (OriginateRow f) → canonicalOriginateAudit p f = Ok s →
  ∃ d, nullOrJson (oa_dncSources f) = Ok d ∧
    split_on SEP s = [p; lpad20 (oa_tenantId f); "originate_audit"%string; lpad20 (oa_id f);
      toISOStringMicros (oa_originatedAt f); zs (oa_leadId f); oa_phoneE164 f;
      nullOrStr (oa_campaignId f); oa_outcome f; nullOrStr (oa_tcpaReason f);
      nullOrStr (oa_dncDecision f); d; nullOrStr (oa_tcpaDecision f);
      nullOrStr (oa_callUuid f); d].
Proof.
  intros Hp (_ & _ & Hok) (d & Hd & (d' & Hd' & [= <-])%bind_ok)%bind_ok.
  assert (d' = d) as -> by congruence. exists d. split; [done|].
  destruct_and! Hok. apply split_of_join; [reflexivity|done|]. parts_ok.
Qed.

Lemma consent_parts p f s :
  text_ok p → row_ok (ConsentRow f) → canonicalConsentLog p f = Ok s →
  split_on SEP s = [p; lpad20 (cl_tenantId f); "consent_log"%string; lpad20 (cl_id f);
    cl_callUuid f; zs (cl_leadId f); cl_phoneE164 f; cl_promptId f;
    nullOrStr (cl_dtmfResponse f); cl_outcome f; cl_language f;
    toISOStringMicros (cl_promptPlayedAt f)].
Proof.
  intros Hp (_ & _ & Hok) [= <-]. destruct_and! Hok. apply split_of_join; [reflexivity|done|].
  parts_ok.
Qed.

Lemma dnc_sync_parts p f s :
  text_ok p → row_ok (DncSyncRow f) → canonicalDncSyncLog p f = Ok s →
  split_on SEP s = [p; lpad20 1; "dnc_sync_log"%string; lpad20 (ds_id f); ds_source f; ds_kind f;
    nullOrStr (ds_fileHash f); zs (ds_added f); zs (ds_removed f);
    toISOStringMicros (ds_startedAt f); nullOrDate (ds_completedAt f)].
Proof.
  intros Hp (_ & Hok) [= <-]. destruct_and! Hok. apply split_of_join; [reflexivity|done|].
  parts_ok.
Qed.

(** The parts of a row's text, the table name third. *)
Lemma row_table p c s :
  text_ok p → row_ok c → canonical_row p c = Ok s →
  split_on SEP s !! 2 = Some (table_name (columns_table c)).
Proof.
  destruct c; intros Hp Hok Hs; cbn in Hs.
  - by destruct (audit_log_parts _ _ _ Hp Hok Hs) as (b & a & _ & _ & ->).
  - by rewrite (call_window_parts _ _ _ Hp Hok Hs).
  - by destruct (originate_parts _ _ _ Hp Hok Hs) as (d & _ & ->).
  - by rewrite (consent_parts _ _ _ Hp Hok Hs).
  - by rewrite (dnc_sync_parts _ _ _ Hp Hok Hs).
Qed.

Lemma table_name_inj t t' : table_name t = table_name t' → t = t'.
Proof. by destruct t, t'. Qed.

Ltac columns_eq H :=
  injection H; clear H; intros;
  repeat match goal with
         | E : zs _ = zs _ |- _ => apply (inj zs) in E
         | E : toISOStringMicros _ = toISOStringMicros _ |- _ => apply toISOStringMicros_inj in E
         | E : nullOrNum _ = nullOrNum _ |- _ => apply nullOrNum_inj in E
         | E : nullOrDate _ = nullOrDate _ |- _ => apply nullOrDate_inj in E
         | E : nullOrStr _ = nullOrStr _ |- _ => apply nullOrStr_inj in E; [|done..]
         | E : lpad20 _ = lpad20 _ |- _ => apply lpad20_inj in E; [|done..]
         end.

Ltac forget_text :=
  repeat match goal with
         | H : text_ok _ |- _ => clear H
         | H : opt_text_ok _ |- _ => clear H
         | H : (_ ≤ _)%Z |- _ => clear H
         end.

Lemma canonical_row_inj p q c d s :
  text_ok p → text_ok q → row_ok c → row_ok d →
  canonical_row p c = Ok s → canonical_row q d = Ok s → p = q ∧ same_columns c d.
Proof.
  intros Hp Hq Hc Hd Hs Ht.
  assert (Htab : columns_table c = columns_table d).
  { pose proof (row_table _ _ _ Hp Hc Hs) as H1. pose proof (row_table _ _ _ Hq Hd Ht) as H2.
    rewrite H1 in H2. injection H2 as H2. by apply table_name_inj. }
  destruct c as [f|f|f|f|f], d as [g|g|g|g|g]; try done; cbn in Hs, Ht; clear Htab.
  - destruct (audit_log_parts _ _ _ Hp Hc Hs) as (b & a & Hb & Ha & H1).
    destruct (audit_log_parts _ _ _ Hq Hd Ht) as (b' & a' & Hb' & Ha' & H2).
    rewrite H1 in H2. cbn in Hc, Hd. destruct_and! Hc. destruct_and! Hd. columns_eq H2.
    split; [done|]. cbn. split_and!; congruence.
  - pose proof (call_window_parts _ _ _ Hp Hc Hs) as H1.
    rewrite (call_window_parts _ _ _ Hq Hd Ht) in H1.
    cbn in Hc, Hd. destruct_and! Hc. destruct_and! Hd. columns_eq H1.
    split; [done|]. clear Hs Ht. forget_text. destruct f, g; cbn in *; by subst.
  - destruct (originate_parts _ _ _ Hp Hc Hs) as (b & Hb & H1).
    destruct (originate_parts _ _ _ Hq Hd Ht) as (b' & Hb' & H2).
    rewrite H1 in H2. cbn in Hc, Hd. destruct_and! Hc. destruct_and! Hd. columns_eq H2.
    split; [done|]. cbn. split_and!; congruence.
  - pose proof (consent_parts _ _ _ Hp Hc Hs) as H1. rewrite (consent_parts _ _ _ Hq Hd Ht) in H1.
    cbn in Hc, Hd. destruct_and! Hc. destruct_and! Hd. columns_eq H1.
    split; [done|]. clear Hs Ht. forget_text. destruct f, g; cbn in *; by subst.
  - pose proof (dnc_sync_parts _ _ _ Hp Hc Hs) as H1. rewrite (dnc_sync_parts _ _ _ Hq Hd Ht) in H1.
    cbn in Hc, Hd. destruct_and! Hc. destruct_and! Hd. columns_eq H1.
    split; [done|]. clear Hs Ht. forget_text. destruct f, g; cbn in *; by subst.
Qed.

(** C10: The hashed text determines the row: if two rows of the audit tables, with
    text free of the separator and no nullable column holding the text that stands
    for NULL, have the same canonical text, they are rows of the same table, with
    the same previous hash and the same columns (every timestamp, number, text and
    NULL; JSON up to its canonical text). *)
Theorem canonical_text_binding p q c d s :
  text_ok p → text_ok q → row_ok c → row_ok d →
  canonical_row p c = Ok s → canonical_row q d = Ok s → p = q ∧ same_columns c d.
Proof. apply canonical_row_inj. Qed.

(** A NULL and the two characters that stand for it are not told apart: a row
    whose nullable text column holds them has the text of the row with NULL there,
    though the two columns differ. *)
Theorem null_collides p (f : AuditLogFields) :
  let with_entity e := AuditLogRow {|
    al_tenantId := al_tenantId f; al_id := al_id f; al_ts := al_ts f;
    al_actorUserId := al_actorUserId f; al_actorKind := al_actorKind f; al_action := al_action f;
    al_entityType := al_entityType f; al_entityId := e; al_beforeJson := al_beforeJson f;
    al_afterJson := al_afterJson f; al_requestId := al_requestId f;
    al_ipAddress := al_ipAddress f; al_userAgent := al_userAgent f |} in
  canonical_row p (with_entity (Some NULL_SENTINEL)) = canonical_row p (with_entity None) ∧
  ¬ same_columns (with_entity (Some NULL_SENTINEL)) (with_entity None).
Proof. split; [reflexivity|]. intros (_ & _ & _ & _ & _ & _ & _ & H & _). discriminate H. Qed.

Definition some_row : Columns := AuditLogRow {|
  al_tenantId := 1; al_id := 7; al_ts := 1746100799007; al_actorUserId := Some 3%Z;
  al_actorKind := "user"; al_action := "lead.update"; al_entityType := "lead";
  al_entityId := Some "42"%string; al_beforeJson := JNull;
  al_afterJson := JObj [("status", JStr "NA")]%string; al_requestId := None;
  al_ipAddress := None; al_userAgent := None |}.

Lemma canonical_text_binding_witness :
  ∃ s, canonical_row "00" some_row = Ok s ∧ same_columns some_row some_row.
Proof.
  eexists. split; [vm_compute; reflexivity|].
  eapply (canonical_text_binding "00" "00" some_row some_row);
    [reflexivity|reflexivity| | |vm_compute; reflexivity|vm_compute; reflexivity];
    repeat split; try done; vm_compute; discriminate.
Defined.

Lemma same_columns_id c d : same_columns c d → columns_id c = columns_id d.
Proof.
  destruct c, d; try done; cbn; [by intros (_ & H & _)|by intros ->|by intros (_ & H & _)|by intros ->..].
Qed.

Lemma utf8_inj s t : utf8 s = utf8 t → s = t.
Proof.
  revert t. unfold utf8. induction s as [|a s IH]; intros [|b t]; cbn; [done..|].
  intros [= Hab Hst]. f_equal; [|by apply IH].
  assert (N_of_ascii a = N_of_ascii b) as Hn by lia.
  by rewrite <- (ascii_N_embedding a), <- (ascii_N_embedding b), Hn.
Qed.
