(* ===== verification/AuditChain.v ===== *)
(** The audit chain: the hash triggers
    ([api/prisma/migrations/20260507000200_c03_hash_triggers]), the daily
    attestation worker ([workers/src/jobs/audit-attest/index.ts]) and the verifier
    ([api/src/services/audit/verifier.ts]).

    A database is the rows of the five audit tables and the attestations; a day is
    a day number (the sources write it 'YYYY-MM-DD').  The tables' DATETIME(6)
    columns hold microseconds, in the model as in the database; the verifier reads
    them as JavaScript Dates, which keep the milliseconds ([driver_row]).  The
    triggers build the text they hash themselves ([trigger_text]), and nothing here
    assumes that it is the verifier's text: [agrees] says when it is.  SHA-256, the
    signature scheme, the key store, base64, the S3 upload and what the triggers get
    from MySQL (the text of a JSON column, NEW.id) are parameters, with what the
    sources rely on as hypotheses where a theorem needs it.  [dnc_sync_log] has no
    [tenant_id] column, so a query that selects on it throws. *)

From stdpp Require Import sorting.
From S2P Require Import Prelude Calendar Jcs Merkle AuditCanonical.

#[local] Open Scope Z_scope.

(** ** Tables *)

(** A row of an audit table.  In a table, the timestamps in [r_cols] and
    [r_hash_at] are in microseconds; in a row the driver delivers, in
    milliseconds. *)
Record DbRow := mkRow {
  r_cols : Columns;
  r_prev_hash : option string;
  r_row_hash : option string;
  r_hash_at : option Z;
}.

Record Attestation := mkAttestation {
  at_tenant_id : Z;
  at_table_name : AuditTable;
  at_window_date : Z;
  at_row_count : Z;
  at_first_id : option Z;
  at_last_id : option Z;
  at_first_row_prev_hash : string;
  at_last_row_row_hash : string;
  at_merkle_root : string;
  at_key_id : string;
  at_signature_b64 : string;
  at_s3_key : string;
  at_s3_etag : option string;
  at_computed_at : Z;
}.

Record AuditDb := mkDb {
  db_rows : list DbRow;
  db_attestations : list Attestation;
}.

Inductive AuditError :=
  | UnknownColumn (column : string)
  | JsonError (e : JcsError)
  | MerkleError (e : RangeError)
  | S3Error.

Definition columns_tenant (c : Columns) : option Z :=
  match c with
  | AuditLogRow f => Some (al_tenantId f)
  | CallWindowRow f => Some (cw_tenantId f)
  | OriginateRow f => Some (oa_tenantId f)
  | ConsentRow f => Some (cl_tenantId f)
  | DncSyncRow _ => None
  end.

Definition r_id (r : DbRow) : Z := columns_id (r_cols r).
Definition in_table (t : AuditTable) (r : DbRow) : Prop := columns_table (r_cols r) = t.
Definition of_tenant (tenantId : Z) (r : DbRow) : Prop := columns_tenant (r_cols r) = Some tenantId.

(** The Date a DATETIME(6) column is read as. *)
Definition js_date (t : Z) : Z := t / 1000.

Definition driver_columns (c : Columns) : Columns :=
  match c with
  | AuditLogRow f => AuditLogRow {|
      al_tenantId := al_tenantId f; al_id := al_id f; al_ts := js_date (al_ts f);
      al_actorUserId := al_actorUserId f; al_actorKind := al_actorKind f; al_action := al_action f;
      al_entityType := al_entityType f; al_entityId := al_entityId f;
      al_beforeJson := al_beforeJson f; al_afterJson := al_afterJson f;
      al_requestId := al_requestId f; al_ipAddress := al_ipAddress f;
      al_userAgent := al_userAgent f |}
  | CallWindowRow f => CallWindowRow {|
      cw_tenantId := cw_tenantId f; cw_id := cw_id f; cw_createdAt := js_date (cw_createdAt f);
      cw_leadId := cw_leadId f; cw_phoneE164 := cw_phoneE164 f; cw_campaignId := cw_campaignId f;
      cw_decision := cw_decision f; cw_reason := cw_reason f; cw_tzIana := cw_tzIana f;
      cw_tzConfidence := cw_tzConfidence f; cw_stateCode := cw_stateCode f; cw_zip := cw_zip f;
      cw_partyLocal := js_date <$> cw_partyLocal f; cw_partyDow := cw_partyDow f;
      cw_effectiveOpenMin := cw_effectiveOpenMin f; cw_effectiveCloseMin := cw_effectiveCloseMin f;
      cw_ruleApplied := cw_ruleApplied f; cw_enforcementPoint := cw_enforcementPoint f;
      cw_nextOpenAt := js_date <$> cw_nextOpenAt f; cw_callUuid := cw_callUuid f |}
  | OriginateRow f => OriginateRow {|
      oa_tenantId := oa_tenantId f; oa_id := oa_id f;
      oa_originatedAt := js_date (oa_originatedAt f); oa_leadId := oa_leadId f;
      oa_phoneE164 := oa_phoneE164 f; oa_campaignId := oa_campaignId f; oa_outcome := oa_outcome f;
      oa_tcpaReason := oa_tcpaReason f; oa_dncDecision := oa_dncDecision f;
      oa_dncSources := oa_dncSources f; oa_tcpaDecision := oa_tcpaDecision f;
      oa_callUuid := oa_callUuid f |}
  | ConsentRow f => ConsentRow {|
      cl_tenantId := cl_tenantId f; cl_id := cl_id f; cl_callUuid := cl_callUuid f;
      cl_leadId := cl_leadId f; cl_phoneE164 := cl_phoneE164 f; cl_promptId := cl_promptId f;
      cl_dtmfResponse := cl_dtmfResponse f; cl_outcome := cl_outcome f;
      cl_language := cl_language f; cl_promptPlayedAt := js_date (cl_promptPlayedAt f) |}
  | DncSyncRow f => DncSyncRow {|
      ds_id := ds_id f; ds_source := ds_source f; ds_kind := ds_kind f;
      ds_fileHash := ds_fileHash f; ds_added := ds_added f; ds_removed := ds_removed f;
      ds_startedAt := js_date (ds_startedAt f); ds_completedAt := js_date <$> ds_completedAt f |}
  end.

Definition driver_row (r : DbRow) : DbRow :=
  mkRow (driver_columns (r_cols r)) (r_prev_hash r) (r_row_hash r) (js_date <$> r_hash_at r).

(** [hash_at >= 'date 00:00:00.000000' AND hash_at <= 'date 23:59:59.999999'], of
    a row of a table. *)
Definition on_day (date : Z) (r : DbRow) : Prop :=
  (λ t, day_of (js_date t)) <$> r_hash_at r = Some date.

#[export] Instance in_table_dec t r : Decision (in_table t r).
Proof. unfold in_table. apply _. Defined.
#[export] Instance of_tenant_dec t r : Decision (of_tenant t r).
Proof. unfold of_tenant. apply _. Defined.
#[export] Instance on_day_dec d r : Decision (on_day d r).
Proof. unfold on_day. apply _. Defined.

Definition id_le (r s : DbRow) : Prop := r_id r <= r_id s.

#[export] Instance id_le_dec : RelDecision id_le.
Proof. intros r s. unfold id_le. apply _. Defined.

(** [WHERE tenant_id = ?], over the rows as the table holds them. *)
Definition where_tenant (table : AuditTable) (tenantId : Z) (rows : list DbRow)
    : result AuditError (list DbRow) :=
  if decide (table = dnc_sync_log) then Err (UnknownColumn "tenant_id")
  else Ok (filter (λ r, in_table table r ∧ of_tenant tenantId r) rows).

Definition order_by_id (rows : list DbRow) : list DbRow := merge_sort id_le rows.

Definition zero_hash : string := zeros 64.

Definition row_hash_text (r : DbRow) : string := default EmptyString (r_row_hash r).
Definition prev_hash_text (r : DbRow) : string := default EmptyString (r_prev_hash r).

(** ** Verification *)

Inductive VerifierFailureKind : Set :=
  | row_hash_mismatch | prev_hash_mismatch | missing_row | merkle_root_mismatch
  | signature_invalid | missing_attestation.

#[export] Instance VerifierFailureKind_eq_dec : EqDecision VerifierFailureKind.
Proof. solve_decision. Defined.

Record VerifierFailure := mkFailure {
  kind : VerifierFailureKind;
  fl_id : option Z;
  fl_date : option Z;
  expected : option string;
  actual : option string;
}.

Record VerifierResult := mkResult {
  ok : bool;
  failures : list VerifierFailure;
  rowsChecked : Z;
  daysChecked : Z;
  attestationsChecked : Z;
}.

Record RowVerifyResult := mkRowResult {
  row_result : VerifierResult;
  row : option DbRow;
  prevRowHashMatches : bool;
  nextRowPrevHashMatches : bool;
  rowHashRecomputed : string;
  rowHashStored : string;
  merkleAttestationDate : option Z;
  merkleInclusionProof : option (nat * nat * list string);
}.

Definition map_err {E F A} (f : E → F) (r : result E A) : result F A :=
  match r with Ok a => Ok a | Err e => Err (f e) end.

(** What the code gets from Node, the key store and S3. *)
Class AuditEnv := {
  pem : Type;
  getPublicKey : string → option pem;
  (** [createVerify(algorithm)], [update] and [verify]; [None] if one throws. *)
  createVerify : string → string → pem → Buffer → option bool;
  from_base64 : string → Buffer;
  to_base64 : Buffer → string;
}.

Section verifier.
Context `{Sha256} `{AuditEnv}.

(** Of a row the driver delivered, its timestamps Dates. *)
Definition recomputeRowHash (r : DbRow) : result AuditError string :=
  let prevHash := default zero_hash (r_prev_hash r) in
  hashCanonical <$> map_err JsonError (canonical_row prevHash (r_cols r)).

Definition fetchRow (db : AuditDb) (table : AuditTable) (tenantId id : Z)
    : result AuditError (option DbRow) :=
  rows ← where_tenant table tenantId (db_rows db);
  Ok (driver_row <$> head (filter (λ r, r_id r = id) rows)).

Definition fetchPriorRow (db : AuditDb) (table : AuditTable) (tenantId id : Z)
    : result AuditError (option DbRow) :=
  rows ← where_tenant table tenantId (db_rows db);
  Ok (driver_row <$> last (order_by_id (filter (λ r, r_id r < id) rows))).

Definition fetchNextRow (db : AuditDb) (table : AuditTable) (tenantId id : Z)
    : result AuditError (option DbRow) :=
  rows ← where_tenant table tenantId (db_rows db);
  Ok (driver_row <$> head (order_by_id (filter (λ r, r_id r > id) rows))).

Definition fetchDayRows (db : AuditDb) (table : AuditTable) (tenantId date : Z)
    : result AuditError (list DbRow) :=
  rows ← where_tenant table tenantId (db_rows db);
  Ok (driver_row <$> order_by_id (filter (on_day date) rows)).

Definition fetchDbAttestation (db : AuditDb) (tenantId : Z) (table : AuditTable) (date : Z)
    : option Attestation :=
  head (filter (λ a, at_tenant_id a = tenantId ∧ at_table_name a = table ∧
                     at_window_date a = date) (db_attestations db)).

(** The date of a day number as text. *)
Definition date_text (date : Z) : string :=
  let '(y, m, d) := civil date in iso_date y m d.

(** [x ? Number(x) : null] *)
Definition truthy_number (n : option Z) : Json :=
  match n with None | Some 0 => JNull | Some n => JNum n end.

Definition payload (tenantId : Z) (table : AuditTable) (date row_count : Z)
    (first_id last_id : Json) (first_row_prev_hash last_row_row_hash merkle_root computed_at
    key_id : string) : Json :=
  JObj [("vici2_audit_attestation", JObj [
    ("version", JNum 1);
    ("tenant_id", JNum tenantId);
    ("table", JStr (table_name table));
    ("date", JStr (date_text date));
    ("row_count", JNum row_count);
    ("first_id", first_id);
    ("last_id", last_id);
    ("first_row_prev_hash", JStr first_row_prev_hash);
    ("last_row_row_hash", JStr last_row_row_hash);
    ("merkle_root", JStr merkle_root);
    ("leaf_hash_algo", JStr "sha256-rfc6962");
    ("node_hash_algo", JStr "sha256-rfc6962");
    ("computed_at", JStr computed_at);
    ("key_id", JStr key_id)])]%string.

Definition signedPayload (a : Attestation) : Json :=
  payload (at_tenant_id a) (at_table_name a) (at_window_date a) (at_row_count a)
    (truthy_number (at_first_id a)) (truthy_number (at_last_id a))
    (at_first_row_prev_hash a) (at_last_row_row_hash a) (at_merkle_root a)
    (toISOStringMicros (js_date (at_computed_at a))) (at_key_id a).

Definition verifySignature (a : Attestation) : bool :=
  match getPublicKey (at_key_id a) with
  | None => false
  | Some pubKey =>
      match canonicalize (signedPayload a) with
      | Ok canonical =>
          default false (createVerify "Ed25519" canonical pubKey (from_base64 (at_signature_b64 a)))
      | Err _ => false
      end
  end.

(** The loop of [verifyDay] over the rows of the day. *)
Fixpoint walk_chain (date : Z) (prevHash : string) (rows : list DbRow)
    : result AuditError (list VerifierFailure) :=
  match rows with
  | [] => Ok []
  | r :: rows' =>
      let storedPrev := prev_hash_text r in
      let storedHash := row_hash_text r in
      recomputed ← recomputeRowHash r;
      rest ← walk_chain date storedHash rows';
      Ok ((if decide (storedHash ≠ recomputed)
           then [mkFailure row_hash_mismatch (Some (r_id r)) (Some date) (Some recomputed) (Some storedHash)]
           else []) ++
          (if decide (storedPrev ≠ prevHash ∧ prevHash ≠ zero_hash)
           then [mkFailure prev_hash_mismatch (Some (r_id r)) (Some date) (Some prevHash) (Some storedPrev)]
           else []) ++ rest)
  end.

Definition merkle_of (rows : list DbRow) : result AuditError string :=
  match buildMerkleRoot (row_hash_text <$> rows) with
  | Some root => Ok (to_hex root)
  | None => Err (MerkleError StackOverflow)
  end.

Definition verifyDay (db : AuditDb) (tenantId : Z) (table : AuditTable) (date : Z)
    : result AuditError VerifierResult :=
  rows ← fetchDayRows db table tenantId date;
  chain ← walk_chain date zero_hash rows;
  match fetchDbAttestation db tenantId table date with
  | None =>
      let fs := chain ++ [mkFailure missing_attestation None (Some date) None None] in
      Ok (mkResult (bool_decide (fs = [])) fs (Z.of_nat (length rows)) 1 0)
  | Some a =>
      recomputedRootHex ← merkle_of rows;
      let storedRoot := at_merkle_root a in
      let fs := chain ++
        (if decide (recomputedRootHex ≠ storedRoot)
         then [mkFailure merkle_root_mismatch None (Some date) (Some recomputedRootHex) (Some storedRoot)]
         else []) ++
        (if verifySignature a then [] else [mkFailure signature_invalid None (Some date) None None]) in
      Ok (mkResult (bool_decide (fs = [])) fs (Z.of_nat (length rows)) 1 1)
  end.

Definition add_results (acc r : VerifierResult) : VerifierResult :=
  mkResult (ok acc) (failures acc ++ failures r) (rowsChecked acc + rowsChecked r)
    (daysChecked acc + daysChecked r) (attestationsChecked acc + attestationsChecked r).

(** [while (cursor <= end)] over [n] days from [cursor]. *)
Fixpoint range_loop (db : AuditDb) (tenantId : Z) (table : AuditTable) (cursor : Z) (n : nat)
    (acc : VerifierResult) : result AuditError VerifierResult :=
  match n with
  | O => Ok acc
  | S n' =>
      r ← verifyDay db tenantId table cursor;
      range_loop db tenantId table (cursor + 1) n' (add_results acc r)
  end.

Definition verifyRange (db : AuditDb) (tenantId : Z) (table : AuditTable) (from to : Z)
    : result AuditError VerifierResult :=
  let cursor := day_of from in
  let end_ := day_of to in
  r ← range_loop db tenantId table cursor (Z.to_nat (end_ - cursor + 1)) (mkResult true [] 0 0 0);
  Ok (mkResult (bool_decide (failures r = [])) (failures r) (rowsChecked r) (daysChecked r)
    (attestationsChecked r)).

Definition link_failure (id : Z) (expected actual : string) : list VerifierFailure :=
  if decide (expected = actual) then []
  else [mkFailure prev_hash_mismatch (Some id) None (Some expected) (Some actual)].

(** [dayRows.findIndex(...)] and the proof built for the index found. *)
Definition row_proof (dayRows : list DbRow) (id : Z)
    : result AuditError (option (nat * nat * list string)) :=
  match list_find (λ r, r_id r = id) dayRows with
  | None => Ok None
  | Some (idx, _) =>
      p ← map_err MerkleError (buildWithProof (row_hash_text <$> dayRows) (Z.of_nat idx));
      Ok (Some (proofToHex p.2))
  end.

Definition verifyRow (db : AuditDb) (tenantId : Z) (table : AuditTable) (id : Z)
    : result AuditError RowVerifyResult :=
  found ← fetchRow db table tenantId id;
  match found with
  | None =>
      Ok (mkRowResult
        (mkResult false [mkFailure missing_row (Some id) None None None] 0 0 0)
        None true true EmptyString EmptyString None None)
  | Some r =>
      recomputed ← recomputeRowHash r;
      let stored := row_hash_text r in
      let hashFailures :=
        if decide (recomputed = stored) then []
        else [mkFailure row_hash_mismatch (Some id) None (Some recomputed) (Some stored)] in
      prior ← (if 1 <? id then fetchPriorRow db table tenantId id else Ok None);
      let priorFailures :=
        match prior with
        | Some p => link_failure id (row_hash_text p) (prev_hash_text r)
        | None => []
        end in
      next ← fetchNextRow db table tenantId id;
      let nextFailures :=
        match next with
        | Some n => link_failure id stored (prev_hash_text n)
        | None => []
        end in
      let date : option Z := day_of <$> r_hash_at r in
      day ← (match date with
             | None => Ok ([], 0, None)
             | Some d =>
                 attestResult ← verifyDay db tenantId table d;
                 dayRows ← fetchDayRows db table tenantId d;
                 proof ← row_proof dayRows id;
                 Ok (filter (λ f, kind f ≠ row_hash_mismatch) (failures attestResult),
                     attestationsChecked attestResult, proof)
             end);
      let '(dayFailures, attestations, proof) := day in
      let fs := hashFailures ++ priorFailures ++ nextFailures ++ dayFailures in
      Ok (mkRowResult
        (mkResult (bool_decide (fs = [])) fs 1 match date with Some _ => 1 | None => 0 end attestations)
        (Some r) (bool_decide (priorFailures = [])) (bool_decide (nextFailures = []))
        recomputed stored date proof)
  end.

End verifier.

(** ** The hash triggers *)

(** What the triggers get from MySQL: the text of a JSON column's value, and the
    value of NEW.id in a BEFORE INSERT trigger for the row that gets the identifier
    [id] (the migration's comment says [id] itself).  A JSON text escapes control
    characters, an identifier is unsigned. *)
Class MySql := {
  json_text : Json → string;
  new_id : Z → Z;
  json_text_ok v : text_ok (json_text v);
  new_id_unsigned id : 0 <= id → 0 <= new_id id;
}.

(** [DATE_FORMAT(t, '%Y-%m-%dT%H:%i:%s.%fZ')] of [t] microseconds. *)
Definition date_format (t : Z) : string :=
  iso_seconds (js_date t) +:+ String "." (padn 6 (t mod 1000000) +:+ "Z").

Definition coalesce_date (t : option Z) : string :=
  match t with None => NULL_SENTINEL | Some t => date_format t end.

Section triggers.
Context `{MySql}.

(** [COALESCE(JSON_EXTRACT(column, '$'), '\N')] *)
Definition coalesce_json (v : Json) : string :=
  match v with JNull => NULL_SENTINEL | _ => json_text v end.

(** [CONCAT_WS(CHAR(31), ...)] of the trigger of the row's table. *)
Definition trigger_parts (prior : string) (c : Columns) : list string :=
  match c with
  | AuditLogRow f => [prior; lpad20 (al_tenantId f); "audit_log"%string; lpad20 (new_id (al_id f));
      date_format (al_ts f); nullOrNum (al_actorUserId f); al_actorKind f; al_action f;
      al_entityType f; nullOrStr (al_entityId f); coalesce_json (al_beforeJson f);
      coalesce_json (al_afterJson f); nullOrStr (al_requestId f); nullOrStr (al_ipAddress f);
      nullOrStr (al_userAgent f)]
  | CallWindowRow f => [prior; lpad20 (cw_tenantId f); "call_window_audit"%string;
      lpad20 (new_id (cw_id f)); date_format (cw_createdAt f); zs (cw_leadId f); cw_phoneE164 f;
      cw_campaignId f; cw_decision f; cw_reason f; nullOrStr (cw_tzIana f);
      nullOrStr (cw_tzConfidence f); nullOrStr (cw_stateCode f); nullOrStr (cw_zip f);
      coalesce_date (cw_partyLocal f); nullOrNum (cw_partyDow f);
      nullOrNum (cw_effectiveOpenMin f); nullOrNum (cw_effectiveCloseMin f);
      nullOrStr (cw_ruleApplied f); cw_enforcementPoint f; coalesce_date (cw_nextOpenAt f);
      nullOrStr (cw_callUuid f)]
  | OriginateRow f => [prior; lpad20 (oa_tenantId f); "originate_audit"%string;
      lpad20 (new_id (oa_id f)); date_format (oa_originatedAt f); zs (oa_leadId f);
      oa_phoneE164 f; nullOrStr (oa_campaignId f); oa_outcome f; nullOrStr (oa_tcpaReason f);
      nullOrStr (oa_dncDecision f); coalesce_json (oa_dncSources f);
      nullOrStr (oa_tcpaDecision f); nullOrStr (oa_callUuid f); coalesce_json (oa_dncSources f)]
  | ConsentRow f => [prior; lpad20 (cl_tenantId f); "consent_log"%string;
      lpad20 (new_id (cl_id f)); cl_callUuid f; zs (cl_leadId f); cl_phoneE164 f; cl_promptId f;
      nullOrStr (cl_dtmfResponse f); cl_outcome f; cl_language f;
      date_format (cl_promptPlayedAt f)]
  | DncSyncRow f => [prior; lpad20 1; "dnc_sync_log"%string; lpad20 (new_id (ds_id f));
      ds_source f; ds_kind f; nullOrStr (ds_fileHash f); zs (ds_added f); zs (ds_removed f);
      date_format (ds_startedAt f); coalesce_date (ds_completedAt f)]
  end.

Definition trigger_text (prior : string) (c : Columns) : string := join (char SEP) (trigger_parts prior c).

(** [SET NEW.hash_at]: the row's own timestamp, in [consent_log] [created_at],
    which is not hashed. *)
Definition trigger_hash_at (created_at : Z) (c : Columns) : Z :=
  match c with
  | AuditLogRow f => al_ts f
  | CallWindowRow f => cw_createdAt f
  | OriginateRow f => oa_originatedAt f
  | ConsentRow _ => created_at
  | DncSyncRow f => ds_startedAt f
  end.

(** The hash of the last row of the table (and, where the table has the column, of
    the tenant). *)
Definition prior_hash (db : AuditDb) (c : Columns) : string :=
  match last (order_by_id (filter (λ r, in_table (columns_table c) r ∧
          columns_tenant (r_cols r) = columns_tenant c) (db_rows db))) with
  | Some r => if decide (row_hash_text r = EmptyString) then zero_hash else row_hash_text r
  | None => zero_hash
  end.

Definition chain_insert `{Sha256} (db : AuditDb) (created_at : Z) (c : Columns) : AuditDb :=
  let prior := prior_hash db c in
  mkDb (db_rows db ++
      [mkRow c (Some prior) (Some (hashCanonical (trigger_text prior c)))
         (Some (trigger_hash_at created_at c))])
    (db_attestations db).

End triggers.

(** ** The attestation worker *)

Section worker.
Context `{Sha256} `{AuditEnv} `{Hsql : MySql}.

(** [signer.keyId()], [signer.sign] and [putAttestation]. *)
Variable keyId : string.
Variable sign : string → Buffer.
Variable putAttestation : string → Json → string → result AuditError (option string).

Definition buildS3Key (tenantId : Z) (table : AuditTable) (date : Z) : string :=
  let '(y, m, d) := civil date in
  zs tenantId +:+ "/" +:+ table_name table +:+ "/" +:+ iso_year y +:+ "/" +:+ padn 2 m +:+ "/" +:+
  padn 2 d +:+ ".json".

(** Rows of the window; [dnc_sync_log] is one global chain. *)
Definition attest_rows (db : AuditDb) (tenantId : Z) (table : AuditTable) (date : Z) : list DbRow :=
  order_by_id (filter (λ r, in_table table r ∧ (table = dnc_sync_log ∨ of_tenant tenantId r) ∧
                            on_day date r) (db_rows db)).

Definition date_le (a b : Attestation) : Prop := at_window_date a <= at_window_date b.

#[global] Instance date_le_dec : RelDecision date_le.
Proof. intros a b. unfold date_le. apply _. Defined.

(** The last row hash of the latest attestation before [date]. *)
Definition carried_hash (db : AuditDb) (tenantId : Z) (table : AuditTable) (date : Z) : string :=
  match last (merge_sort date_le (filter (λ a, at_tenant_id a = tenantId ∧
          at_table_name a = table ∧ at_window_date a < date) (db_attestations db))) with
  | Some a => at_last_row_row_hash a
  | None => zero_hash
  end.

Definition buildRootFromRows (rows : list DbRow) : result AuditError string :=
  match rows with
  | [] => Ok (to_hex EMPTY_ROOT)
  | _ => merkle_of rows
  end.

(** [toISOString().replace(/\.\d{3}Z$/, '.000000Z')] *)
Definition computed_at_text (now : Z) : string := iso_seconds now +:+ ".000000Z".

(** [INSERT IGNORE], the key being (tenant_id, table_name, window_date). *)
Definition insert_ignore (a : Attestation) (l : list Attestation) : list Attestation :=
  if decide (Exists (λ b, at_tenant_id b = at_tenant_id a ∧ at_table_name b = at_table_name a ∧
                          at_window_date b = at_window_date a) l)
  then l else l ++ [a].

(** [row_id] is the identifier the database gives the row inserted in [audit_log],
    [now] the worker's clock in milliseconds and [db_now] the database's in
    microseconds. *)
Definition attestWindow (db : AuditDb) (row_id now db_now : Z) (tenantId : Z) (table : AuditTable)
    (windowDate : Z) : result AuditError AuditDb :=
  let rows := attest_rows db tenantId table windowDate in
  let carried := carried_hash db tenantId table windowDate in
  let firstRowPrevHash := match head rows with Some r => prev_hash_text r | None => carried end in
  let lastRowRowHash := match last rows with Some r => row_hash_text r | None => carried end in
  merkleRoot ← buildRootFromRows rows;
  let rowCount := Z.of_nat (length rows) in
  let firstId := r_id <$> head rows in
  let lastId := r_id <$> last rows in
  let id_json n := match n with Some n => JNum n | None => JNull end in
  let artifact := payload tenantId table windowDate rowCount (id_json firstId) (id_json lastId)
    firstRowPrevHash lastRowRowHash merkleRoot (computed_at_text now) keyId in
  payloadCanonical ← map_err JsonError (canonicalize artifact);
  let signature := to_base64 (sign payloadCanonical) in
  let s3Key := buildS3Key tenantId table windowDate in
  s3Result ← putAttestation s3Key artifact signature;
  let attestations := insert_ignore
    (mkAttestation tenantId table windowDate rowCount firstId lastId firstRowPrevHash lastRowRowHash
      merkleRoot keyId signature s3Key s3Result db_now) (db_attestations db) in
  let c := AuditLogRow {|
    al_tenantId := tenantId; al_id := row_id; al_ts := db_now; al_actorUserId := None;
    al_actorKind := "worker";
    al_action := if decide (rows = []) then "audit.attestation.empty_day" else "audit.attestation.published";
    al_entityType := "audit_attestation"; al_entityId := Some (table_name table);
    al_beforeJson := JNull;
    al_afterJson := JObj [("windowDate", JStr (date_text windowDate)); ("rowCount", JNum rowCount);
                          ("merkleRoot", JStr merkleRoot); ("s3Key", JStr s3Key)]%string;
    al_requestId := None; al_ipAddress := None; al_userAgent := None |} in
  Ok (chain_insert (mkDb (db_rows db) attestations) db_now c).

Definition AUDIT_TABLES : list AuditTable :=
  [audit_log; call_window_audit; originate_audit; consent_log; dnc_sync_log].

(** The loops of [runAttestation] over tenants and tables, yesterday's window;
    [row_ids] are the identifiers of the rows inserted. *)
Fixpoint run_windows (db : AuditDb) (now db_now windowDate : Z)
    (windows : list (Z * (Z * AuditTable))) : result AuditError AuditDb :=
  match windows with
  | [] => Ok db
  | (row_id, (tenantId, table)) :: windows' =>
      db' ← attestWindow db row_id now db_now tenantId table windowDate;
      run_windows db' now db_now windowDate windows'
  end.

Definition runAttestation (db : AuditDb) (row_ids : list Z) (now db_now : Z)
    (tenantIds : option (list Z)) : result AuditError AuditDb :=
  let windowDate := day_of now - 1 in
  let tenants := default [1] tenantIds in
  run_windows db now db_now windowDate
    (zip row_ids (tenants ≫= λ t, (λ table, (t, table)) <$> AUDIT_TABLES)).

End worker.

(** ** The triggers' text and the verifier's *)

Lemma date_format_micros t : date_format t = toISOStringMicros (js_date t) ↔ t mod 1000 = 0.
Proof.
  unfold date_format. rewrite toISOStringMicros_eq.
  assert (Hall : all_from 1000 0 (λ n, bool_decide (padn 6 (1000 * n) = padn 3 n +:+ "000")) = true)
    by (vm_compute; reflexivity).
  pose proof (Z.mod_pos_bound t 1000 eq_refl). pose proof (Z.mod_pos_bound t 1000000 eq_refl).
  assert (Hmod : (t mod 1000000) mod 1000 = t mod 1000)
    by (apply Z.mod_mod_divide; by exists 1000).
  assert (Hms : getUTCMilliseconds (js_date t) = t mod 1000000 / 1000)
    by (unfold getUTCMilliseconds, time_of, MS_PER_DAY, js_date; lia).
  assert (Hp : padn 6 (1000 * (t mod 1000000 / 1000)) = padn 3 (t mod 1000000 / 1000) +:+ "000").
  { apply (bool_decide_eq_true (_ = _)). apply (all_from_spec _ _ _ Hall). lia. }
  rewrite Hms. replace ("000Z"%string) with ("000" +:+ "Z") by done.
  rewrite <- string_app_assoc, <- Hp. split.
  - intros Heq%(inj (String.app _)). injection Heq as Heq.
    apply app_suffix_inj in Heq as [Heq _]; [|done]. apply padn_inj in Heq; lia.
  - intros Hz. do 4 f_equal. lia.
Qed.

Lemma coalesce_date_micros o :
  coalesce_date o = nullOrDate (js_date <$> o) ↔ ∀ t, o = Some t → t mod 1000 = 0.
Proof.
  destruct o as [t|]; cbn; [rewrite date_format_micros; naive_solver|naive_solver].
Qed.

Lemma date_format_ok t : text_ok (date_format t).
Proof.
  unfold text_ok, date_format.
  by rewrite lacks_app, lacks_cons, lacks_app, iso_seconds_lacks, padn_lacks.
Qed.

Lemma coalesce_date_ok o : text_ok (coalesce_date o).
Proof. destruct o; cbn; [apply date_format_ok|done]. Qed.

Section trigger_texts.
Context `{MySql}.

Lemma coalesce_json_ok v : text_ok (coalesce_json v).
Proof. destruct v; cbn; [done|apply json_text_ok..]. Qed.

(** The timestamps and the JSON columns that are hashed. *)
Definition hashed_dates (c : Columns) : list Z :=
  match c with
  | AuditLogRow f => [al_ts f]
  | CallWindowRow f => cw_createdAt f :: option_list (cw_partyLocal f) ++ option_list (cw_nextOpenAt f)
  | OriginateRow f => [oa_originatedAt f]
  | ConsentRow f => [cl_promptPlayedAt f]
  | DncSyncRow f => ds_startedAt f :: option_list (ds_completedAt f)
  end.

Definition hashed_json (c : Columns) : list Json :=
  match c with
  | AuditLogRow f => [al_beforeJson f; al_afterJson f]
  | OriginateRow f => [oa_dncSources f]
  | _ => []
  end.

(** When the trigger hashes what the verifier hashes: NEW.id is the identifier,
    the timestamps have no microseconds, and MySQL prints the JSON columns the way
    [jcs] does. *)
Definition agrees (c : Columns) : Prop :=
  new_id (columns_id c) = columns_id c ∧
  Forall (λ t, t mod 1000 = 0) (hashed_dates c) ∧
  Forall (λ v, nullOrJson v = Ok (coalesce_json v)) (hashed_json c).

Lemma trigger_parts_ok p c : text_ok p → row_ok c → Forall text_ok (trigger_parts p c).
Proof.
  intros Hp. destruct c; cbn; intros Hok; destruct_and! Hok;
    repeat first [apply Forall_nil_2 | apply Forall_cons_2;
      [solve [eauto using date_format_ok, coalesce_date_ok, coalesce_json_ok with canonical | reflexivity]|]].
Qed.

Lemma trigger_text_split p c :
  text_ok p → row_ok c → split_on SEP (trigger_text p c) = trigger_parts p c.
Proof. intros Hp Hc. apply split_on_join; [by destruct c|by apply trigger_parts_ok]. Qed.

Lemma row_ok_driver c : row_ok (driver_columns c) ↔ row_ok c.
Proof. by destruct c. Qed.

Lemma option_list_whole (o : option Z) :
  Forall (λ t, t mod 1000 = 0) (option_list o) ↔ ∀ t, o = Some t → t mod 1000 = 0.
Proof. destruct o as [t|]; cbn; rewrite ?Forall_singleton; naive_solver. Qed.

Lemma agrees_parts p c :
  agrees c → canonical_row p (driver_columns c) = Ok (trigger_text p c).
Proof.
  intros (Hid & Hd & Hj). unfold trigger_text.
  destruct c; cbn in *; repeat (apply Forall_cons in Hd as [?%date_format_micros Hd]);
    repeat (apply Forall_cons in Hj as [? Hj]); rewrite ?Forall_app, ?option_list_whole in Hd;
    rewrite ?Hid;
    unfold canonicalAuditLog, canonicalOriginateAudit; cbn; repeat case_match; simplify_eq/=;
    destruct_and?; repeat match goal with
      | H : ∀ t, ?o = Some t → _ |- _ => apply coalesce_date_micros in H end;
    by repeat match goal with H : _ = _ |- _ => rewrite H; clear H end.
Qed.

Lemma agrees_inv p c :
  text_ok p → row_ok c → canonical_row p (driver_columns c) = Ok (trigger_text p c) → agrees c.
Proof.
  intros Hp Hok Hs. pose proof (trigger_text_split p c Hp Hok) as Ht.
  assert (Hok' : row_ok (driver_columns c)) by by apply row_ok_driver.
  assert (Hids : ∀ id, 0 <= id → lpad20 id = lpad20 (new_id id) → new_id id = id).
  { intros id H0 Heq%lpad20_inj; [done..|by apply new_id_unsigned]. }
  destruct c as [f|f|f|f|f]; cbn [driver_columns] in *.
  - destruct (audit_log_parts _ _ _ Hp Hok' Hs) as (b & a & Hb & Ha & H1).
    rewrite Ht in H1. cbn in *. injection H1 as. split_and!; [naive_solver| |];
      repeat constructor; try (apply date_format_micros; congruence); congruence.
  - pose proof (call_window_parts _ _ _ Hp Hok' Hs) as H1.
    rewrite Ht in H1. cbn in *. injection H1 as. split_and!; [naive_solver| |constructor].
    constructor; [by apply date_format_micros|]. apply Forall_app.
    by rewrite !option_list_whole, <- !coalesce_date_micros.
  - destruct (originate_parts _ _ _ Hp Hok' Hs) as (d & Hd & H1).
    rewrite Ht in H1. cbn in *. injection H1 as. split_and!; [naive_solver| |];
      repeat constructor; try (apply date_format_micros; congruence); congruence.
  - pose proof (consent_parts _ _ _ Hp Hok' Hs) as H1.
    rewrite Ht in H1. cbn in *. injection H1 as. split_and!; [naive_solver| |constructor].
    repeat constructor. by apply date_format_micros.
  - pose proof (dnc_sync_parts _ _ _ Hp Hok' Hs) as H1.
    rewrite Ht in H1. cbn in *. injection H1 as. split_and!; [naive_solver| |constructor].
    constructor; [by apply date_format_micros|].
    by rewrite option_list_whole, <- coalesce_date_micros.
Qed.

(** The verifier rebuilds the text the trigger hashed exactly when they agree. *)
Lemma trigger_text_agrees p c :
  text_ok p → row_ok c →
  canonical_row p (driver_columns c) = Ok (trigger_text p c) ↔ agrees c.
Proof. intros Hp Hok. split; [by apply agrees_inv|apply agrees_parts]. Qed.

End trigger_texts.

Section correctness.
Context `{Sha256} `{AuditEnv} `{Hsql : MySql}.

(** ** What an accepted day means *)

Fixpoint linked (rows : list DbRow) : Prop :=
  match rows with
  | r :: (s :: _) as rows' =>
      (prev_hash_text s = row_hash_text r ∨ row_hash_text r = zero_hash) ∧ linked rows'
  | _ => True
  end.

Definition hashes_match (rows : list DbRow) : Prop :=
  Forall (λ r, recomputeRowHash r = Ok (row_hash_text r)) rows.

Lemma walk_chain_nil date prevHash rows :
  walk_chain date prevHash rows = Ok [] ↔
  hashes_match rows ∧ linked rows ∧
  match rows with r :: _ => prev_hash_text r = prevHash ∨ prevHash = zero_hash | [] => True end.
Proof.
  revert prevHash. induction rows as [|r rows IH]; intros prevHash.
  - split; [intros _; split_and!; [apply Forall_nil_2|done..]|done].
  - cbn [walk_chain]. rewrite bind_ok. split.
    + intros (h & Hh & (rest & Hrest & [= Hf])%bind_ok).
      apply app_nil in Hf as [Hf1 [Hf2 ->]%app_nil].
      destruct (decide (row_hash_text r ≠ h)) as [|Hn]; [done|].
      apply dec_stable in Hn as <-.
      destruct (decide (prev_hash_text r ≠ prevHash ∧ prevHash ≠ zero_hash)) as [|Hp]; [done|].
      apply IH in Hrest as (Hm & Hl & Hhd). split; [apply Forall_cons; split; [exact Hh|exact Hm]|]. split.
      * destruct rows as [|s rows]; [done|]. by split.
      * destruct (decide (prev_hash_text r = prevHash)); [by left|].
        destruct (decide (prevHash = zero_hash)); [by right|]. by destruct Hp.
    + intros (Hm & Hl & Hp). inversion Hm as [|? ? Hr Hm']; subst.
      exists (row_hash_text r). split; [done|]. apply bind_ok. exists []. split.
      * apply IH. split; [done|]. destruct rows as [|s rows]; [done|]. by destruct Hl.
      * destruct (decide (row_hash_text r ≠ row_hash_text r)) as [Hd|_]; [done|].
        destruct (decide _) as [[H1 H2]|_]; [|done]. exfalso. by destruct Hp.
Qed.

(** The conditions under which a day is accepted. *)
Definition day_valid (db : AuditDb) (tenantId : Z) (table : AuditTable) (date : Z)
    (rows : list DbRow) : Prop :=
  hashes_match rows ∧ linked rows ∧
  ∃ a, fetchDbAttestation db tenantId table date = Some a ∧
    merkle_of rows = Ok (at_merkle_root a) ∧ verifySignature a = true.

Lemma verifyDay_spec db tenantId table date r :
  verifyDay db tenantId table date = Ok r →
  ∃ rows, fetchDayRows db table tenantId date = Ok rows ∧
    rowsChecked r = Z.of_nat (length rows) ∧
    (ok r = true ↔ day_valid db tenantId table date rows) ∧ (ok r = true ↔ failures r = []).
Proof.
  unfold verifyDay, day_valid. intros (rows & Hrows & (chain & Hc & Hr)%bind_ok)%bind_ok.
  exists rows. split; [done|].
  destruct (fetchDbAttestation db tenantId table date) as [a|] eqn:Ha.
  - apply bind_ok in Hr as (root & Hroot & [= <-]). cbn. rewrite bool_decide_eq_true, !app_nil.
    split; [done|]. split; [|done].
    destruct (decide (chain = [])) as [->|Hne].
    + apply walk_chain_nil in Hc as (Hm & Hl & _). rewrite Hroot.
      destruct (decide (root ≠ at_merkle_root a)) as [Hd|Hd%dec_stable].
      * split; [by intros (_ & ? & _)|]. intros (_ & _ & a' & [= <-] & [= ?] & _). done.
      * subst. destruct (verifySignature a) eqn:Hs.
        -- split; [|done]. intros _. split_and!; eauto.
        -- split; [by intros (_ & _ & ?)|]. intros (_ & _ & a' & [= <-] & _ & ?). congruence.
    + split; [by intros [? _]|]. intros (Hm & Hl & _). destruct Hne.
      assert (walk_chain date zero_hash rows = Ok []) as Hc'; [|congruence].
      apply walk_chain_nil. split_and!; [done..|]. destruct rows; [done|by right].
  - injection Hr as <-. cbn. rewrite bool_decide_eq_true. split; [done|]. split; [|done].
    split; [|by intros (_ & _ & a & ? & _)]. by intros [_ ?]%app_nil.
Qed.

(** ** Tampering *)

Definition row_text (r : DbRow) : result JcsError string :=
  canonical_row (default zero_hash (r_prev_hash r)) (r_cols r).

(** The byte strings hashed for the rows. *)
Definition row_inputs (rows : list DbRow) : list Buffer :=
  omap (λ r, match row_text r with Ok t => Some (utf8 t) | Err _ => None end) rows.

Definition stored_row (r : DbRow) : Prop :=
  row_ok (r_cols r) ∧ text_ok (default zero_hash (r_prev_hash r)).

(** Rows as a table with unique identifiers holds them. *)
Definition stored (rows : list DbRow) : Prop :=
  NoDup (r_id <$> rows) ∧ Forall stored_row rows.

Definition same_row (r s : DbRow) : Prop :=
  default zero_hash (r_prev_hash r) = default zero_hash (r_prev_hash s) ∧
  same_columns (r_cols r) (r_cols s).

(** The verifier accepts the day, whose rows are [rows], against attestation [a]. *)
Definition accepted (db : AuditDb) (tenantId : Z) (table : AuditTable) (date : Z)
    (rows : list DbRow) (a : Attestation) : Prop :=
  fetchDayRows db table tenantId date = Ok rows ∧
  fetchDbAttestation db tenantId table date = Some a ∧
  ∃ r, verifyDay db tenantId table date = Ok r ∧ ok r = true.

Lemma accepted_spec db tenantId table date rows a :
  accepted db tenantId table date rows a →
  hashes_match rows ∧ linked rows ∧ merkle_of rows = Ok (at_merkle_root a) ∧ verifySignature a = true.
Proof.
  intros (Hrows & Ha & r & Hv & Hok). apply verifyDay_spec in Hv as (rows' & Hr' & _ & Hiff & _).
  apply Hiff in Hok as (Hm & Hl & a' & Ha' & Hroot & Hs).
  rewrite Hrows in Hr'. injection Hr' as <-. rewrite Ha in Ha'. by injection Ha' as <-.
Qed.

Lemma row_hash_spec r :
  recomputeRowHash r = Ok (row_hash_text r) ↔
  ∃ t, row_text r = Ok t ∧ from_hex (row_hash_text r) = sha256 (utf8 t) ∧
    row_hash_text r = to_hex (sha256 (utf8 t)).
Proof.
  unfold recomputeRowHash, row_text. destruct (canonical_row _ _) as [t|e]; cbn.
  - split; [intros [= Hh]; exists t; rewrite <- Hh; unfold hashCanonical;
      rewrite from_to_hex by apply sha256_bytes; done|].
    intros (t' & [= <-] & _ & ->). done.
  - split; [done|by intros (t & ? & _)].
Qed.

Lemma row_inputs_elem rows r t : r ∈ rows → row_text r = Ok t → utf8 t ∈ row_inputs rows.
Proof. intros Hr Ht. apply list_elem_of_omap. exists r. by rewrite Ht. Qed.

(** Rows with the same hash are the same. *)
Lemma row_hash_inj ins r s :
  collision_free ins → stored_row r → stored_row s →
  (∀ t, row_text r = Ok t → utf8 t ∈ ins) → (∀ t, row_text s = Ok t → utf8 t ∈ ins) →
  recomputeRowHash r = Ok (row_hash_text r) → recomputeRowHash s = Ok (row_hash_text s) →
  from_hex (row_hash_text r) = from_hex (row_hash_text s) → same_row r s.
Proof.
  intros Hc [Hr Hpr] [Hs Hps] Hir His (t & Ht & Hth & _)%row_hash_spec (u & Hu & Huh & _)%row_hash_spec Heq.
  rewrite Hth, Huh in Heq. apply Hc, utf8_inj in Heq; [|eauto..]. subst u.
  by apply (canonical_row_inj _ _ _ _ t).
Qed.

Lemma hashes_nodup rows :
  collision_free (row_inputs rows) → stored rows → hashes_match rows →
  NoDup (from_hex <$> (row_hash_text <$> rows)) ∧ nonempty_hashes (row_hash_text <$> rows).
Proof.
  intros Hc [Hnd Hst] Hm. rewrite Forall_forall in Hst. unfold hashes_match in Hm.
  rewrite Forall_forall in Hm. split.
  - rewrite <- list_fmap_compose. apply NoDup_fmap_2_strong.
    + intros r s Hr Hs Heq. assert (Hsame : same_row r s).
      { eapply (row_hash_inj (row_inputs rows)); eauto using row_inputs_elem. }
      destruct Hsame as [_ Hid%same_columns_id].
      apply list_elem_of_lookup in Hr as [i Hi], Hs as [j Hj].
      assert (i = j) as ->; [|congruence].
      apply (NoDup_lookup _ _ _ (r_id r) Hnd); rewrite list_lookup_fmap; rewrite ?Hi, ?Hj; [done|].
      cbn. f_equal. symmetry. exact Hid.
    + by apply NoDup_fmap_1 in Hnd.
  - apply Forall_fmap, Forall_forall. intros r Hr Hnil.
    apply Hm, row_hash_spec in Hr as (t & _ & Ht & _). cbn in Hnil. rewrite Hnil in Ht.
    pose proof (sha256_length (utf8 t)) as Hl. by rewrite <- Ht in Hl.
Qed.

(** C1: The audit trail is tamper evident: if the verifier accepts a day in two
    states of the database against attestations with the same Merkle root, the two
    states hold the same rows for that day, as the verifier reads them, in number,
    in order and in every hashed column (timestamps to the millisecond a Date
    keeps, JSON columns up to their canonical text).  Assumed of the day's rows in
    both states: the table's identifiers are unique, the texts are free of the
    separator 0x1F and no nullable text is the two characters that stand for NULL
    ([null_collides]); and SHA-256 does not collide on the inputs hashed for the two
    states. *)
Theorem tamper_evident db1 db2 tenantId table date rows1 rows2 a1 a2 :
  accepted db1 tenantId table date rows1 a1 → accepted db2 tenantId table date rows2 a2 →
  at_merkle_root a1 = at_merkle_root a2 →
  stored rows1 → stored rows2 →
  collision_free (row_inputs rows1 ++ row_inputs rows2) →
  collision_free ([0] :: tree_inputs (row_hash_text <$> rows1) ++ tree_inputs (row_hash_text <$> rows2)) →
  Forall2 same_row rows1 rows2.
Proof.
  intros (Hm1 & _ & Hr1 & _)%accepted_spec (Hm2 & _ & Hr2 & _)%accepted_spec Hroot Hs1 Hs2 Hc Ht.
  destruct (hashes_nodup rows1) as [Hn1 He1]; [|done..|].
  { eapply collision_free_sub; [exact Hc|]. set_solver. }
  destruct (hashes_nodup rows2) as [Hn2 He2]; [|done..|].
  { eapply collision_free_sub; [exact Hc|]. set_solver. }
  unfold merkle_of in Hr1, Hr2. rewrite Hroot in Hr1.
  destruct (buildMerkleRoot (row_hash_text <$> rows1)) as [b1|] eqn:E1; [|done].
  destruct (buildMerkleRoot (row_hash_text <$> rows2)) as [b2|] eqn:E2; [|done].
  assert (b1 = b2) as ->.
  { apply to_hex_inj; [by eapply root_bytes..|]. congruence. }
  pose proof (root_binds_distinct _ _ _ He1 He2 Hn1 Hn2 Ht E1 E2) as Heq.
  rewrite <- !list_fmap_compose in Heq. clear Hn1 Hn2 He1 He2 E1 E2 Ht Hr1 Hr2.
  destruct Hs1 as [_ Hs1], Hs2 as [_ Hs2].
  set (ins := row_inputs rows1 ++ row_inputs rows2) in Hc.
  assert (Hi1 : ∀ r t, r ∈ rows1 → row_text r = Ok t → utf8 t ∈ ins)
    by (intros; apply elem_of_app; left; by eapply row_inputs_elem).
  assert (Hi2 : ∀ r t, r ∈ rows2 → row_text r = Ok t → utf8 t ∈ ins)
    by (intros; apply elem_of_app; right; by eapply row_inputs_elem).
  clearbody ins. revert rows2 Hm2 Hs2 Hi2 Heq. induction rows1 as [|r rows1 IH];
    intros [|s rows2] Hm2 Hs2 Hi2 Heq; try done.
  injection Heq as Hrs Heq. apply Forall_cons in Hm1 as [Hmr Hm1], Hm2 as [Hms Hm2],
    Hs1 as [Hsr Hs1], Hs2 as [Hss Hs2].
  constructor.
  - eapply (row_hash_inj ins); [done..| | |done|done|done].
    + intros t. apply Hi1. by left.
    + intros t. apply Hi2. by left.
  - apply IH; try done; intros; [eapply Hi1|eapply Hi2]; eauto; by right.
Qed.

(** ** Logs the triggers wrote *)

Definition id_lt (r s : DbRow) : Prop := r_id r < r_id s.

(** The chain of a table and tenant, in the order of insertion. *)
Definition chain (db : AuditDb) (table : AuditTable) (tenant : option Z) : list DbRow :=
  filter (λ r, in_table table r ∧ columns_tenant (r_cols r) = tenant) (db_rows db).

(** Logs the triggers wrote, with increasing identifiers. *)
Inductive triggered : AuditDb → Prop :=
  | triggered_empty l : triggered (mkDb [] l)
  | triggered_attested db l : triggered db → triggered (mkDb (db_rows db) l)
  | triggered_insert db created_at c :
      triggered db →
      (∀ r, r ∈ db_rows db → in_table (columns_table c) r → r_id r < columns_id c) →
      triggered (chain_insert db created_at c).

(** Every row carries its predecessor's hash, the first [prev]. *)
Fixpoint links (prev : string) (rows : list DbRow) : Prop :=
  match rows with
  | [] => True
  | r :: rows' => prev_hash_text r = prev ∧ links (row_hash_text r) rows'
  end.

Definition last_hash (prev : string) (rows : list DbRow) : string :=
  match last rows with Some r => row_hash_text r | None => prev end.

(** The row holds the hash of the trigger's text. *)
Definition trigger_hashed (r : DbRow) : Prop :=
  r_row_hash r = Some (hashCanonical (trigger_text (default zero_hash (r_prev_hash r)) (r_cols r))).

Definition chain_ok (rows : list DbRow) : Prop :=
  StronglySorted id_lt rows ∧ Forall trigger_hashed rows ∧ links zero_hash rows ∧
  Forall (λ r, row_hash_text r ≠ EmptyString ∧ is_Some (r_hash_at r)) rows.

Lemma order_sorted rows : StronglySorted id_lt rows → order_by_id rows = rows.
Proof.
  intros Hs. assert (HT : Transitive id_le) by (intros r s t; unfold id_le; lia).
  assert (Htot : Total id_le) by (intros r s; unfold id_le; lia).
  assert (Hd : ∀ r s, r ∈ rows → s ∈ rows → r_id r = r_id s → r = s).
  { clear HT Htot. induction Hs as [|r rows Hs IH HF]; [by inversion 1|].
    rewrite Forall_forall in HF. unfold id_lt in HF.
    intros s t [->|Hsr]%elem_of_cons [->|Htr]%elem_of_cons He; [done|..|auto];
      [specialize (HF t Htr); lia|specialize (HF s Hsr); lia]. }
  apply (Sorted_unique_strong id_le).
  - intros r s Hr Hs' H1 H2. unfold order_by_id in Hr. rewrite merge_sort_Permutation in Hr.
    apply Hd; [done..|]. unfold id_le in *. lia.
  - apply (Sorted_merge_sort id_le).
  - apply StronglySorted_Sorted. clear Hd. induction Hs as [|r rows Hs IH HF]; constructor; [done|].
    eapply Forall_impl; [exact HF|]. intros s. unfold id_lt, id_le. lia.
  - apply merge_sort_Permutation.
Qed.

Lemma links_app prev l1 l2 : links prev (l1 ++ l2) ↔ links prev l1 ∧ links (last_hash prev l1) l2.
Proof.
  revert prev. induction l1 as [|r l1 IH]; intros prev; [by intuition|].
  cbn [app links]. rewrite IH, <- assoc by apply _. unfold last_hash.
  destruct l1 as [|s l1]; [done|]. change (last (r :: s :: l1)) with (last (s :: l1)).
  by destruct (last (s :: l1)) eqn:E; [|apply last_None in E].
Qed.

Lemma links_linked prev rows : links prev rows → linked rows.
Proof.
  revert prev. induction rows as [|r [|s rows] IH]; intros prev; [done..|].
  intros (_ & Hl). split; [left; apply Hl|]. by eapply IH.
Qed.

Lemma hash_nonempty t : hashCanonical t ≠ EmptyString.
Proof.
  unfold hashCanonical. pose proof (sha256_length (utf8 t)). by destruct (sha256 (utf8 t)).
Qed.

Lemma chain_filter db table tenant row :
  chain (mkDb (db_rows db ++ [row]) (db_attestations db)) table tenant =
    chain db table tenant ++
    (if decide (in_table table row ∧ columns_tenant (r_cols row) = tenant) then [row] else []).
Proof. unfold chain. cbn [db_rows]. by rewrite filter_app, filter_cons, filter_nil. Qed.

Lemma chain_snoc_ok rows c t :
  chain_ok rows → (∀ r, r ∈ rows → r_id r < columns_id c) →
  let prior := last_hash zero_hash rows in
  chain_ok (rows ++ [mkRow c (Some prior) (Some (hashCanonical (trigger_text prior c))) (Some t)]).
Proof.
  intros (Hs & Hm & Hl & HF) Hid prior. set (row := mkRow _ _ _ _). split_and!.
  - apply StronglySorted_app_2; [|done|by repeat constructor].
    intros r s Hr ->%list_elem_of_singleton. by apply Hid.
  - apply Forall_app. split; [done|]. by apply Forall_singleton.
  - apply links_app. by split.
  - apply Forall_app. split; [done|]. apply Forall_singleton.
    split; [apply hash_nonempty|eauto].
Qed.

Lemma triggered_chain db table tenant : triggered db → chain_ok (chain db table tenant).
Proof.
  intros Ht. revert table tenant. induction Ht as [l|db l Ht IH|db t c Ht IH Hid];
    intros table tenant; [repeat split; constructor|exact (IH table tenant)|].
  unfold chain_insert. rewrite chain_filter. destruct (decide _) as [[Htab Hten]|]; [|by rewrite app_nil_r].
  cbn in Htab, Hten. unfold in_table in Htab. cbn in Htab. subst table tenant.
  specialize (IH (columns_table c) (columns_tenant c)).
  assert (Hprior : prior_hash db c = last_hash zero_hash (chain db (columns_table c) (columns_tenant c))).
  { unfold prior_hash. fold (chain db (columns_table c) (columns_tenant c)).
    destruct IH as (Hs & _ & _ & HF). rewrite order_sorted by done. unfold last_hash.
    destruct (last (chain db _ _)) as [r|] eqn:E; [|done].
    apply last_Some_elem_of in E. rewrite Forall_forall in HF. destruct (HF r E) as [Hne _].
    by rewrite decide_False. }
  cbv zeta. rewrite Hprior. apply chain_snoc_ok; [done|].
  intros r (Hr & Hin)%list_elem_of_filter. apply Hid; [done|apply Hr].
Qed.

(** The rows' timestamps do not go back to an earlier day. *)
Definition day_le (r s : DbRow) : Prop :=
  day_of (js_date (default 0 (r_hash_at r))) <= day_of (js_date (default 0 (r_hash_at s))).

Lemma day_prefix d rows :
  StronglySorted day_le rows → Forall (λ r, is_Some (r_hash_at r) ∧ d <= day_of (js_date (default 0 (r_hash_at r)))) rows →
  ∃ rest, rows = filter (on_day d) rows ++ rest.
Proof.
  induction 1 as [|r rows Hs IH HF]; intros Hd; [by exists []|].
  apply Forall_cons in Hd as [[[t Ht] Hr] Hd]. rewrite filter_cons.
  destruct (decide (on_day d r)) as [|Hne].
  - destruct (IH Hd) as [rest Hrest]. exists rest. cbn. f_equal. exact Hrest.
  - assert (Hnone : filter (on_day d) rows = []); [|exists (r :: rows); by rewrite Hnone].
    destruct (filter (on_day d) rows) as [|s l] eqn:E; [done|]. exfalso.
    assert (Hsin : s ∈ filter (on_day d) rows) by (rewrite E; by left).
    apply list_elem_of_filter in Hsin as [Hsd Hsin].
    rewrite Forall_forall in HF, Hd. specialize (HF s Hsin). destruct (Hd s Hsin) as [[u Hu] Hsd'].
    unfold day_le, on_day in *. rewrite Ht in *. rewrite Hu in *. cbn in *. injection Hsd as Hsd.
    apply Hne. f_equal. lia.
Qed.

Lemma day_infix d rows :
  StronglySorted day_le rows → Forall (λ r, is_Some (r_hash_at r)) rows →
  ∃ before after, rows = before ++ filter (on_day d) rows ++ after.
Proof.
  induction 1 as [|r rows Hs IH HF]; intros Hat; [by exists [], []|].
  apply Forall_cons in Hat as [[t Ht] Hat]. rewrite filter_cons.
  destruct (decide (day_of (js_date t) < d)) as [Hlt|Hge].
  - rewrite decide_False by (unfold on_day; rewrite Ht; cbn; intros [= ?]; lia).
    destruct (IH Hat) as (b & a & Hba). exists (r :: b), a. cbn. f_equal. exact Hba.
  - destruct (day_prefix d (r :: rows)) as [rest Hrest].
    + by constructor.
    + constructor; [rewrite Ht; cbn; split; [eauto|lia]|].
      rewrite Forall_forall in HF, Hat |- *. intros s Hs'. split; [auto|].
      specialize (HF s Hs'). unfold day_le in HF. rewrite Ht in HF. cbn in HF. lia.
    + exists [], rest. cbn [app]. by rewrite filter_cons in Hrest.
Qed.

Lemma order_filter (P : DbRow → Prop) `{∀ r, Decision (P r)} rows :
  StronglySorted id_lt rows → order_by_id (filter P rows) = filter P rows.
Proof.
  intros Hs. apply order_sorted. induction Hs as [|r rows Hs IH HF]; [constructor|].
  rewrite filter_cons. destruct (decide (P r)); [|done]. constructor; [done|].
  rewrite Forall_forall in HF |- *. intros s [_ Hin]%list_elem_of_filter. auto.
Qed.

Lemma fetch_chain db table tenantId date :
  table ≠ dnc_sync_log → chain_ok (chain db table (Some tenantId)) →
  fetchDayRows db table tenantId date =
    Ok (driver_row <$> filter (on_day date) (chain db table (Some tenantId))).
Proof.
  intros Ht (Hs & _). unfold fetchDayRows, where_tenant. rewrite decide_False by done.
  cbn. by rewrite order_filter.
Qed.

Lemma driver_same r :
  row_hash_text (driver_row r) = row_hash_text r ∧ prev_hash_text (driver_row r) = prev_hash_text r.
Proof. done. Qed.

Lemma linked_driver rows : linked rows → linked (driver_row <$> rows).
Proof. induction rows as [|r [|s rows] IH]; [done..|]. intros [Hl Hr]. split; [done|]. by apply IH. Qed.

Lemma merkle_driver rows : merkle_of (driver_row <$> rows) = merkle_of rows.
Proof. unfold merkle_of. by rewrite <- list_fmap_compose. Qed.

(** The rows of a day of a triggered log are linked and hold the triggers' hashes. *)
Lemma triggered_day db table tenantId date :
  triggered db → StronglySorted day_le (chain db table (Some tenantId)) →
  let rows := filter (on_day date) (chain db table (Some tenantId)) in
  Forall trigger_hashed rows ∧ linked (driver_row <$> rows).
Proof.
  intros Ht Hdays rows. pose proof (triggered_chain db table (Some tenantId) Ht) as (_ & Hm & Hl & HF).
  split.
  - rewrite Forall_forall in Hm |- *. intros r [_ Hr]%list_elem_of_filter. auto.
  - destruct (day_infix date _ Hdays) as (b & a & Hba); [by eapply Forall_impl; [exact HF|]; intros ? []|].
    rewrite Hba in Hl. apply links_app in Hl as [_ Hl]. apply links_app in Hl as [Hl _].
    apply linked_driver. by eapply links_linked.
Qed.

Lemma agrees_recompute r :
  trigger_hashed r → agrees (r_cols r) →
  recomputeRowHash (driver_row r) = Ok (row_hash_text (driver_row r)).
Proof.
  intros Hh Ha. unfold recomputeRowHash. cbn. rewrite (agrees_parts _ _ Ha).
  unfold row_hash_text. cbn. by rewrite Hh.
Qed.

Lemma agreeing_match rows :
  Forall trigger_hashed rows → Forall (λ r, agrees (r_cols r)) rows →
  hashes_match (driver_row <$> rows).
Proof.
  intros Hh Ha. apply Forall_fmap. rewrite Forall_forall in Hh, Ha |- *.
  intros r Hr. apply agrees_recompute; auto.
Qed.

(** The byte strings the triggers hashed for the rows. *)
Definition trigger_inputs (rows : list DbRow) : list Buffer :=
  (λ r, utf8 (trigger_text (default zero_hash (r_prev_hash r)) (r_cols r))) <$> rows.

Lemma matching_agree rows :
  Forall trigger_hashed rows → Forall stored_row rows →
  collision_free (trigger_inputs rows ++ row_inputs (driver_row <$> rows)) →
  hashes_match (driver_row <$> rows) → Forall (λ r, agrees (r_cols r)) rows.
Proof.
  intros Hh Hs Hc Hm. unfold hashes_match in Hm. rewrite Forall_fmap in Hm.
  rewrite Forall_forall in Hh, Hs, Hm |- *.
  intros r Hr. destruct (Hs r Hr) as [Hok Hp].
  destruct (proj1 (row_hash_spec _) (Hm r Hr)) as (t & Ht & Hfrom & _).
  apply (agrees_inv (default zero_hash (r_prev_hash r))); [done..|].
  change (row_text (driver_row r) = Ok (trigger_text (default zero_hash (r_prev_hash r)) (r_cols r))).
  rewrite Ht. f_equal. apply utf8_inj, Hc.
  - apply elem_of_app. right. eapply row_inputs_elem; [|exact Ht]. by apply list_elem_of_fmap_2.
  - apply elem_of_app. left. apply list_elem_of_fmap. by exists r.
  - rewrite <- Hfrom. unfold row_hash_text. cbn. rewrite (Hh r Hr). cbn.
    unfold hashCanonical. by rewrite from_to_hex by apply sha256_bytes.
Qed.

Lemma verifyDay_valid db tenantId table date rows a :
  fetchDayRows db table tenantId date = Ok rows → hashes_match rows → linked rows →
  fetchDbAttestation db tenantId table date = Some a → merkle_of rows = Ok (at_merkle_root a) →
  ∃ r, verifyDay db tenantId table date = Ok r ∧ ok r = verifySignature a.
Proof.
  intros Hrows Hm Hl Ha Hroot.
  assert (Hc : walk_chain date zero_hash rows = Ok [])
    by (apply walk_chain_nil; split_and!; [done..|destruct rows; [done|by right]]).
  unfold verifyDay. rewrite Hrows. cbn [mbind result_bind]. rewrite Hc. cbn [mbind result_bind].
  rewrite Ha, Hroot. cbn [mbind result_bind]. eexists. split; [done|]. cbn.
  rewrite decide_False by (intros Hn; by apply Hn). by destruct (verifySignature a).
Qed.

(** C2: Of the days the hash triggers wrote, the verifier accepts exactly those
    whose rows it reads the way the triggers did.  In a database whose audit rows
    were all inserted through the triggers, with increasing identifiers and with
    timestamps that never go back to an earlier day, take a day with an attestation
    that has the Merkle root of its rows and a good signature: it is reported valid
    if and only if, for each of its rows, NEW.id was the identifier of the row in
    the trigger, the hashed timestamps have no microseconds, and MySQL printed the
    JSON columns as their canonical text.  Assumed: not [dnc_sync_log]
    ([dnc_sync_log_unverifiable]); texts free of the separator and of the NULL
    marker; and that SHA-256 does not collide on the texts the triggers and the
    verifier hash for the day. *)
Theorem triggered_day_verifies_iff db tenantId table date a :
  triggered db → table ≠ dnc_sync_log →
  StronglySorted day_le (chain db table (Some tenantId)) →
  let rows := filter (on_day date) (chain db table (Some tenantId)) in
  Forall stored_row rows →
  collision_free (trigger_inputs rows ++ row_inputs (driver_row <$> rows)) →
  fetchDbAttestation db tenantId table date = Some a →
  merkle_of rows = Ok (at_merkle_root a) → verifySignature a = true →
  (∃ r, verifyDay db tenantId table date = Ok r ∧ ok r = true ∧ failures r = []) ↔
  Forall (λ r, agrees (r_cols r)) rows.
Proof.
  intros Ht Hdnc Hdays rows Hst Hc Ha Hroot Hsig.
  destruct (triggered_day db table tenantId date Ht Hdays) as [Hh Hl]. fold rows in Hh, Hl.
  pose proof (fetch_chain db table tenantId date Hdnc (triggered_chain _ _ _ Ht)) as Hrows.
  fold rows in Hrows. split.
  - intros (r & Hv & Hok & _). apply verifyDay_spec in Hv as (rows' & Hr' & _ & Hiff & _).
    rewrite Hrows in Hr'. injection Hr' as <-. apply Hiff in Hok as [Hm _]. by apply matching_agree.
  - intros Hag. destruct (verifyDay_valid db tenantId table date (driver_row <$> rows) a)
      as (r & Hv & Hok); [done|by apply agreeing_match|done|done|by rewrite merkle_driver|].
    exists r. rewrite Hsig in Hok. split_and!; [done..|].
    apply verifyDay_spec in Hv as (? & _ & _ & _ & Hf). by apply Hf.
Qed.

(** A hashed timestamp with microseconds is enough for a mismatch: the trigger
    hashes all six digits, the verifier the Date's three. *)
Theorem micros_mismatch p c t :
  text_ok p → row_ok c → t ∈ hashed_dates c → t mod 1000 ≠ 0 →
  canonical_row p (driver_columns c) ≠ Ok (trigger_text p c).
Proof.
  intros Hp Hc Ht Hm (_ & Hd & _)%agrees_inv; [|done..].
  rewrite Forall_forall in Hd. by apply Hm, Hd.
Qed.

(** ** Attesting, then verifying *)

Lemma sort_payload {A} (a1 a2 a3 a4 a5 a6 a7 a8 a9 a10 a11 a12 a13 a14 : A) :
  merge_sort key_le [("version", a1); ("tenant_id", a2); ("table", a3); ("date", a4);
    ("row_count", a5); ("first_id", a6); ("last_id", a7); ("first_row_prev_hash", a8);
    ("last_row_row_hash", a9); ("merkle_root", a10); ("leaf_hash_algo", a11);
    ("node_hash_algo", a12); ("computed_at", a13); ("key_id", a14)]%string =
  [("computed_at", a13); ("date", a4); ("first_id", a6); ("first_row_prev_hash", a8);
   ("key_id", a14); ("last_id", a7); ("last_row_row_hash", a9); ("leaf_hash_algo", a11);
   ("merkle_root", a10); ("node_hash_algo", a12); ("row_count", a5); ("table", a3);
   ("tenant_id", a2); ("version", a1)]%string.
Proof. reflexivity. Qed.

Lemma object_text l sorted parts :
  merge_sort key_le ((λ p, (p.1, serializeValue p.2)) <$> l) = sorted →
  collect (pair_text <$> sorted) = Ok parts →
  serializeValue (JObj l) = Ok ("{" +:+ join "," parts +:+ "}").
Proof. intros <- Hp. cbn [serializeValue]. cbv zeta. by rewrite Hp. Qed.

Lemma collect_cons {E A} (a : A) (l : list (result E A)) as_ :
  collect l = Ok as_ → collect (Ok a :: l) = Ok (a :: as_).
Proof. intros H1. cbn [collect mbind result_bind]. by rewrite H1. Qed.

(** Only the text of [computed_at] depends on the clock. *)
Lemma payload_text tenantId table date n first_id last_id tfirst tlast h1 h2 root key :
  serializeValue first_id = Ok tfirst → serializeValue last_id = Ok tlast →
  ∃ before after, ∀ computed_at,
    canonicalize (payload tenantId table date n first_id last_id h1 h2 root computed_at key) =
    Ok (before +:+ serializeString computed_at +:+ after).
Proof.
  intros Hf Hl.
  assert (Hrest : ∃ p parts, collect (pair_text <$> [("date", Ok (serializeString (date_text date)));
    ("first_id", Ok tfirst); ("first_row_prev_hash", Ok (serializeString h1));
    ("key_id", Ok (serializeString key)); ("last_id", Ok tlast);
    ("last_row_row_hash", Ok (serializeString h2));
    ("leaf_hash_algo", Ok (serializeString "sha256-rfc6962"));
    ("merkle_root", Ok (serializeString root));
    ("node_hash_algo", Ok (serializeString "sha256-rfc6962")); ("row_count", Ok (zs n));
    ("table", Ok (serializeString (table_name table))); ("tenant_id", Ok (zs tenantId));
    ("version", Ok (zs 1))]%string) = Ok (p :: parts)).
  { do 2 eexists. repeat (apply collect_cons). reflexivity. }
  destruct Hrest as (p & parts & Hrest).
  set (k := serializeString "computed_at" +:+ ":").
  set (tail := "," +:+ join "," (p :: parts) +:+ "}").
  exists ("{" +:+ (serializeString "vici2_audit_attestation" +:+ ":") +:+ "{" +:+ k), (tail +:+ "}").
  intros ca. unfold canonicalize, payload.
  erewrite object_text; [|reflexivity|].
  2:{ cbn [fmap list_fmap]. unfold pair_text at 1. cbn [fst snd].
      erewrite object_text; [reflexivity| |].
      - etransitivity; [exact (sort_payload (serializeValue (JNum 1)) (serializeValue (JNum tenantId)) _ _
          (serializeValue (JNum n)) (serializeValue first_id) (serializeValue last_id) _ _ _ _ _
          (Ok (serializeString ca)) _)|reflexivity].
      - rewrite Hf, Hl. apply (collect_cons (serializeString "computed_at" +:+ ":" +:+ serializeString ca)).
        exact Hrest. }
  cbn [String.concat]. fold k. unfold tail, k. by rewrite !string_app_assoc.
Qed.

Lemma decimal_plain c : decimal_char c = true → plain_char c = true.
Proof. by destruct c as [[] [] [] [] [] [] [] []]. Qed.

Lemma plain_micros t : string_forallb plain_char (toISOStringMicros t) = true.
Proof.
  rewrite toISOStringMicros_eq, string_forallb_app, iso_seconds_chars by (done || apply decimal_plain).
  cbn. rewrite string_forallb_app, padn_chars by apply decimal_plain. done.
Qed.

Lemma plain_computed_at t : string_forallb plain_char (computed_at_text t) = true.
Proof.
  unfold computed_at_text. rewrite string_forallb_app, iso_seconds_chars by (done || apply decimal_plain).
  done.
Qed.

Lemma computed_at_micros now db_now :
  toISOStringMicros db_now = computed_at_text now ↔ db_now = 1000 * (now / 1000).
Proof.
  rewrite toISOStringMicros_eq. unfold computed_at_text.
  change (".000000Z"%string) with (String "." (padn 3 0 +:+ "000Z")). split.
  - intros [Hs Hms]%app_sep_inj; [|by apply iso_seconds_lacks..].
    apply app_suffix_inj in Hms as [Hms _]; [|done]. apply iso_seconds_inj in Hs.
    pose proof (time_fields db_now). apply padn_inj in Hms; [|lia..].
    revert Hms. unfold getUTCMilliseconds, time_of, MS_PER_DAY. lia.
  - intros ->. rewrite iso_seconds_second.
    replace (getUTCMilliseconds (1000 * (now / 1000))) with 0
      by (unfold getUTCMilliseconds, time_of, MS_PER_DAY; lia). done.
Qed.

(** The texts of two payloads that differ in the clock. *)
Lemma payload_text_eq tenantId table date n first_id last_id h1 h2 root key c1 c2 t1 t2 :
  is_ok (serializeValue first_id) = true → is_ok (serializeValue last_id) = true →
  string_forallb plain_char c1 = true → string_forallb plain_char c2 = true →
  canonicalize (payload tenantId table date n first_id last_id h1 h2 root c1 key) = Ok t1 →
  canonicalize (payload tenantId table date n first_id last_id h1 h2 root c2 key) = Ok t2 →
  t1 = t2 ↔ c1 = c2.
Proof.
  destruct (serializeValue first_id) as [tf|] eqn:Hf; [|done].
  destruct (serializeValue last_id) as [tl|] eqn:Hl; [|done]. intros _ _ Hp1 Hp2.
  destruct (payload_text tenantId table date n first_id last_id tf tl h1 h2 root key Hf Hl)
    as (b & a & Htext).
  rewrite !Htext. intros [= <-] [= <-]. split; [|by intros ->].
  intros Heq%(inj (String.app b)). rewrite !serializeString_plain in Heq by done.
  autorewrite with strs in Heq. injection Heq as Heq.
  by apply app_suffix_inj in Heq as [-> _].
Qed.

Lemma fetch_skip db table tenantId date row l :
  ¬ on_day date row →
  fetchDayRows (mkDb (db_rows db ++ [row]) l) table tenantId date = fetchDayRows db table tenantId date.
Proof.
  intros Hn. unfold fetchDayRows, where_tenant. destruct (decide (table = dnc_sync_log)); [done|].
  cbn. do 3 f_equal. rewrite !list_filter_filter, filter_app, filter_cons.
  rewrite decide_False by naive_solver. by rewrite app_nil_r.
Qed.

Lemma attest_rows_fetch db table tenantId date :
  table ≠ dnc_sync_log →
  fetchDayRows db table tenantId date = Ok (driver_row <$> attest_rows db tenantId table date).
Proof.
  intros Ht. unfold fetchDayRows, where_tenant, attest_rows. rewrite decide_False by done.
  cbn. do 3 f_equal. rewrite list_filter_filter. apply list_filter_iff. naive_solver.
Qed.

Lemma attest_rows_chain db table tenantId date :
  table ≠ dnc_sync_log → triggered db →
  attest_rows db tenantId table date = filter (on_day date) (chain db table (Some tenantId)).
Proof.
  intros Hdnc (Hs & _)%(λ H, triggered_chain db table (Some tenantId) H).
  rewrite <- (order_filter (on_day date) _ Hs). unfold attest_rows, chain. f_equal.
  rewrite list_filter_filter. apply list_filter_iff. unfold of_tenant. naive_solver.
Qed.

Lemma root_from_rows rows : buildRootFromRows rows = merkle_of rows.
Proof. by destruct rows. Qed.

Lemma attestation_inserted db a l' :
  fetchDbAttestation db (at_tenant_id a) (at_table_name a) (at_window_date a) = None →
  fetchDbAttestation (mkDb l' (insert_ignore a (db_attestations db)))
    (at_tenant_id a) (at_table_name a) (at_window_date a) = Some a.
Proof.
  unfold fetchDbAttestation, insert_ignore. cbn [db_attestations]. intros Hn.
  destruct (filter _ (db_attestations db)) eqn:E; [|done].
  rewrite decide_False.
  - rewrite filter_app, E, filter_cons. by rewrite decide_True.
  - intros (b & Hb & Hin)%Exists_exists.
    assert (b ∈ []) as []%elem_of_nil; rewrite <- E. by apply list_elem_of_filter.
Qed.

Section attesting.
Variable keyId : string.
Variable sign : string → Buffer.
Variable putAttestation : string → Json → string → result AuditError (option string).
Abbreviation attest := (attestWindow keyId sign putAttestation).

(** The attestation [attestWindow] inserts, and the text it signed. *)
Lemma attestWindow_spec db row_id now db_now tenantId table date db' :
attest db row_id now db_now tenantId table date = Ok db' →
∃ row a signed,
  db' = mkDb (db_rows db ++ [row]) (insert_ignore a (db_attestations db)) ∧
  r_hash_at row = Some db_now ∧
  at_tenant_id a = tenantId ∧ at_table_name a = table ∧ at_window_date a = date ∧
  at_key_id a = keyId ∧ at_computed_at a = db_now ∧
  merkle_of (attest_rows db tenantId table date) = Ok (at_merkle_root a) ∧
  at_first_id a = r_id <$> head (attest_rows db tenantId table date) ∧
  at_last_id a = r_id <$> last (attest_rows db tenantId table date) ∧
  at_signature_b64 a = to_base64 (sign signed) ∧
  canonicalize (payload tenantId table date (at_row_count a)
    match at_first_id a with Some n => JNum n | None => JNull end
    match at_last_id a with Some n => JNum n | None => JNull end
    (at_first_row_prev_hash a) (at_last_row_row_hash a) (at_merkle_root a)
    (computed_at_text now) keyId) = Ok signed.
Proof.
unfold attestWindow. cbv zeta.
intros (root & Hroot & (signed & Hsigned & (etag & _ & [= <-])%bind_ok)%bind_ok)%bind_ok.
rewrite root_from_rows in Hroot.
assert (Hsigned' : ∀ v, map_err JsonError (canonicalize v) = Ok signed → canonicalize v = Ok signed).
{ intros v. by destruct (canonicalize v); [intros [= ->]|]. }
apply Hsigned' in Hsigned. do 3 eexists. split; [reflexivity|]. split; [reflexivity|].
cbn [at_tenant_id at_table_name at_window_date at_key_id at_computed_at at_merkle_root at_first_id
  at_last_id at_signature_b64 at_row_count at_first_row_prev_hash at_last_row_row_hash].
split_and!; try reflexivity; [exact Hroot|exact Hsigned].
Qed.

Lemma id_json_ok (n : option Z) :
is_ok (serializeValue match n with Some n => JNum n | None => JNull end) = true.
Proof. by destruct n. Qed.

Lemma truthy_positive (n : option Z) :
(∀ m, n = Some m → 0 < m) →
truthy_number n = match n with Some n => JNum n | None => JNull end.
Proof. destruct n as [m|]; [|done]. intros H1. specialize (H1 m eq_refl). by destruct m. Qed.

(** Attesting a day and verifying it, for an intact chain the triggers and the
  verifier agree on and a correct signature scheme: the verifier accepts the day
  the worker has just attested if and only if the database's clock stood within the
  first millisecond of the second the worker's clock was in.  The worker signs
  [computed_at] with its own clock, truncated to seconds, while the verifier
  rebuilds the signed text from the [computed_at] column, which holds [NOW(6)];
  otherwise it reports an invalid signature. *)
Theorem attested_day_accepted_iff db row_id now db_now tenantId table date db' (pub : pem) :
triggered db → table ≠ dnc_sync_log →
StronglySorted day_le (chain db table (Some tenantId)) →
Forall (λ r, agrees (r_cols r)) (attest_rows db tenantId table date) →
Forall (λ r, 0 < r_id r) (db_rows db) →
fetchDbAttestation db tenantId table date = None → day_of (js_date db_now) ≠ date →
getPublicKey keyId = Some pub →
(∀ m m', createVerify "Ed25519" m pub (from_base64 (to_base64 (sign m'))) =
         Some (bool_decide (m = m'))) →
attest db row_id now db_now tenantId table date = Ok db' →
∃ r, verifyDay db' tenantId table date = Ok r ∧ (ok r = true ↔ js_date db_now = 1000 * (now / 1000)).
Proof.
intros Ht Hdnc Hdays Hag Hpos Hnone Hnow Hpub Hscheme Hw.
destruct (attestWindow_spec _ _ _ _ _ _ _ _ Hw)
  as (row & a & signed & -> & Hat & <- & <- & <- & Hkey & Hcomp & Hroot & Hfirst & Hlast & Hsig & Hsigned).
pose proof (fetch_chain db (at_table_name a) (at_tenant_id a) (at_window_date a) Hdnc
  (triggered_chain _ _ _ Ht)) as Hrows.
destruct (triggered_day db (at_table_name a) (at_tenant_id a) (at_window_date a) Ht Hdays) as [Hh Hl].
assert (attest_rows db (at_tenant_id a) (at_table_name a) (at_window_date a) =
  filter (on_day (at_window_date a)) (chain db (at_table_name a) (Some (at_tenant_id a)))) as Hattest.
{ by apply attest_rows_chain. }
rewrite Hattest in *. set (rows := filter _ (chain _ _ _)) in *.
assert (Hids : ∀ r, r ∈ rows → 0 < r_id r).
{ intros r Hr. rewrite Forall_forall in Hpos. apply Hpos.
  apply list_elem_of_filter in Hr as [_ Hr]. by apply list_elem_of_filter in Hr as [_ Hr]. }
destruct (verifyDay_valid (mkDb (db_rows db ++ [row]) (insert_ignore a (db_attestations db)))
  (at_tenant_id a) (at_table_name a) (at_window_date a) (driver_row <$> rows) a) as (r & Hv & Hok);
  [|by apply agreeing_match|done| |by rewrite merkle_driver|].
{ rewrite fetch_skip; [done|]. unfold on_day. rewrite Hat. cbn. congruence. }
{ by apply attestation_inserted. }
exists r. split; [done|]. rewrite Hok, <- computed_at_micros, <- Hcomp.
unfold verifySignature, signedPayload. rewrite Hkey, Hpub, Hsig.
rewrite !truthy_positive.
2:{ rewrite Hlast. intros m. destruct (last rows) as [s|] eqn:E; [|done]. intros [= <-].
    apply Hids. by apply last_Some_elem_of in E. }
2:{ rewrite Hfirst. intros m. destruct rows as [|s rows']; [done|]. intros [= <-]. apply Hids. by left. }
destruct (canonicalize (payload _ _ _ _ _ _ _ _ _ (toISOStringMicros _) _)) as [t|e] eqn:E.
- rewrite Hscheme. cbn. rewrite bool_decide_eq_true.
  by apply (payload_text_eq _ _ _ _ _ _ _ _ _ _ _ _ _ _ (id_json_ok _) (id_json_ok _)
    (plain_micros _) (plain_computed_at _) E Hsigned).
- exfalso. pose proof (id_json_ok (at_first_id a)) as Hf. pose proof (id_json_ok (at_last_id a)) as Hl'.
  destruct (serializeValue match at_first_id a with Some n => JNum n | None => JNull end) as [tf|] eqn:Ef; [|done].
  destruct (serializeValue match at_last_id a with Some n => JNum n | None => JNull end) as [tl|] eqn:El; [|done].
  destruct (payload_text (at_tenant_id a) (at_table_name a) (at_window_date a) (at_row_count a)
    _ _ tf tl (at_first_row_prev_hash a) (at_last_row_row_hash a) (at_merkle_root a) keyId Ef El)
    as (b & a' & Htext). by rewrite Htext in E.
Qed.

End attesting.

(** The verifier cannot check [dnc_sync_log]: its queries select a tenant,
    and the table has no such column, so every mode throws (the worker, which
    attests the table's days, leaves the tenant out). *)
Theorem dnc_sync_log_unverifiable db tenantId date id from to :
  verifyDay db tenantId dnc_sync_log date = Err (UnknownColumn "tenant_id") ∧
  verifyRow db tenantId dnc_sync_log id = Err (UnknownColumn "tenant_id") ∧
  (day_of from <= day_of to →
   verifyRange db tenantId dnc_sync_log from to = Err (UnknownColumn "tenant_id")).
Proof.
  split; [reflexivity|]. split; [reflexivity|]. intros Hle. unfold verifyRange.
  destruct (Z.to_nat (day_of to - day_of from + 1)) as [|n] eqn:E; [lia|]. reflexivity.
Qed.
End correctness.

(** ** Witnesses: a signature that is the signed text, hexadecimal for base64 *)

#[export] Instance toy_env : AuditEnv := {|
  pem := unit;
  getPublicKey _ := Some ();
  createVerify _ m _ sig := Some (bool_decide (utf8 m = sig));
  from_base64 := from_hex;
  to_base64 := to_hex;
|}.

Definition toy_key : string := "ed25519-audit-2026-1".
Definition toy_put (_ : string) (_ : Json) (_ : string) : result AuditError (option string) := Ok None.

Definition log_row (id ts : Z) (action : string) : Columns := AuditLogRow {|
  al_tenantId := 1; al_id := id; al_ts := ts; al_actorUserId := Some 3;
  al_actorKind := "user"; al_action := action; al_entityType := "lead";
  al_entityId := Some "42"%string; al_beforeJson := JNull; al_afterJson := JNull;
  al_requestId := None; al_ipAddress := None; al_userAgent := None |}.

(** A server that fills NEW.id in before the trigger, and prints JSON without
    spaces. *)
Definition toy_json (v : Json) : string :=
  match canonicalize v with Ok s => s | Err _ => EmptyString end.

Lemma toy_json_ok v : text_ok (toy_json v).
Proof.
  unfold toy_json. destruct (canonicalize v) as [s|] eqn:E; [|reflexivity].
  apply printable_canonicalize in E. unfold text_ok, lacks. eapply string_forallb_impl; [|exact E].
  intros c. by destruct c as [[] [] [] [] [] [] [] []].
Qed.

#[export] Instance toy_mysql : MySql := {|
  json_text := toy_json;
  new_id id := id;
  json_text_ok := toy_json_ok;
  new_id_unsigned id Hid := Hid;
|}.

Definition noon : Z := (20000 * MS_PER_DAY + 43200000) * 1000.

Definition two_rows : AuditDb :=
  chain_insert (chain_insert (mkDb [] []) noon (log_row 1 noon "lead.update"))
    noon (log_row 2 (noon + 5000) "lead.delete").

(** The second row 1 microsecond later. *)
Definition two_rows_micros : AuditDb :=
  chain_insert (chain_insert (mkDb [] []) noon (log_row 1 noon "lead.update"))
    noon (log_row 2 (noon + 5001) "lead.delete").

(** The day attested at 03:30 the next day, both clocks on the same second. *)
Definition half_past_three : Z := 20001 * MS_PER_DAY + 12600000.

Definition attested_db : AuditDb :=
  match attestWindow toy_key utf8 toy_put two_rows 3 half_past_three (1000 * half_past_three) 1 audit_log 20000 with
  | Ok db => db
  | Err _ => mkDb [] []
  end.

Definition day_rows : list DbRow :=
  match fetchDayRows attested_db audit_log 1 20000 with Ok rows => rows | Err _ => [] end.

Definition day_attestation : Attestation :=
  default (mkAttestation 0 audit_log 0 0 None None "" "" "" "" "" "" None 0)
    (fetchDbAttestation attested_db 1 audit_log 20000).

Lemma insert_triggered db created_at c :
  triggered db → forallb (λ r, r_id r <? columns_id c) (db_rows db) = true →
  triggered (chain_insert db created_at c).
Proof.
  intros Ht Hid. apply triggered_insert; [done|]. intros r Hr _. rewrite forallb_forall in Hid.
  apply Z.ltb_lt, Hid. by apply list_elem_of_In.
Qed.

Lemma two_rows_triggered : triggered two_rows.
Proof.
  apply insert_triggered; [apply insert_triggered; [constructor|]|]; vm_compute; reflexivity.
Qed.

Lemma attested_triggered : triggered attested_db.
Proof.
  assert (Hdb : attested_db = mkDb (db_rows (chain_insert two_rows 0 (match last (db_rows attested_db) with
    | Some r => r_cols r | None => log_row 0 0 "" end))) (db_attestations attested_db))
    by (vm_compute; reflexivity).
  rewrite Hdb. apply triggered_attested, insert_triggered;
    [exact two_rows_triggered|vm_compute; reflexivity].
Qed.

#[export] Instance day_le_dec : RelDecision day_le.
Proof. intros r s. unfold day_le. apply _. Defined.

Lemma two_rows_days : StronglySorted day_le (chain two_rows audit_log (Some 1)).
Proof. apply (bool_decide_unpack _). vm_compute. exact I. Qed.

Lemma attested_days : StronglySorted day_le (chain attested_db audit_log (Some 1)).
Proof. apply (bool_decide_unpack _). vm_compute. exact I. Qed.

Lemma toy_scheme (m m' : string) :
  createVerify "Ed25519" m () (from_base64 (to_base64 (utf8 m'))) = Some (bool_decide (m = m')).
Proof.
  cbn. f_equal. assert (Hb : Forall is_byte (utf8 m')).
  { unfold utf8. apply Forall_fmap, Forall_true. intros c. unfold is_byte. cbn.
    pose proof (N_ascii_bounded c). lia. }
  rewrite from_to_hex by done. apply bool_decide_ext. split; [apply utf8_inj|by intros ->].
Qed.

Lemma day_accepted : accepted attested_db 1 audit_log 20000 day_rows day_attestation.
Proof.
  split; [vm_compute; reflexivity|]. split; [vm_compute; reflexivity|].
  eexists. split; [vm_compute; reflexivity|reflexivity].
Qed.

#[export] Instance stored_row_dec r : Decision (stored_row r).
Proof.
  assert (Ho : ∀ o, Decision (opt_text_ok o)) by (intros [s|]; cbn; unfold text_ok; apply _).
  unfold stored_row, text_ok. destruct (r_cols r); cbn; unfold text_ok; apply _.
Defined.

#[export] Instance stored_dec rows : Decision (stored rows).
Proof. unfold stored. apply _.
Defined.

Lemma day_stored : stored day_rows.
Proof.
  apply (bool_decide_unpack _). vm_compute. exact I.
Qed.

Lemma tamper_evident_witness : Forall2 same_row day_rows day_rows ∧ length day_rows = 2%nat.
Proof.
  split; [|vm_compute; reflexivity].
  apply (tamper_evident attested_db attested_db 1 audit_log 20000 day_rows day_rows day_attestation day_attestation);
    [exact day_accepted|exact day_accepted|reflexivity|exact day_stored|exact day_stored| |];
    apply collision_freeb_spec; vm_compute; reflexivity.
Defined.

#[export] Instance is_text_dec (r : result JcsError string) s : Decision (r = Ok s).
Proof.
  refine (match r with Ok t => match decide (t = s) with left H => left _ | right H => right _ end
          | Err _ => right _ end); congruence.
Defined.

#[export] Instance agrees_dec c : Decision (agrees c).
Proof. unfold agrees. apply _. Defined.

Definition chain_day : list DbRow := filter (on_day 20000) (chain attested_db audit_log (Some 1)).

Lemma triggered_day_verifies_iff_witness :
  (∃ r, verifyDay attested_db 1 audit_log 20000 = Ok r ∧ ok r = true ∧ failures r = []) ∧
  length chain_day = 2%nat ∧
  map (λ r, bool_decide (agrees (r_cols r))) (db_rows two_rows_micros) = [true; false].
Proof.
  split; [|split; vm_compute; reflexivity].
  apply (triggered_day_verifies_iff attested_db 1 audit_log 20000 day_attestation);
    [exact attested_triggered|discriminate|exact attested_days| | |vm_compute; reflexivity..|].
  - apply (bool_decide_unpack _). vm_compute. exact I.
  - apply collision_freeb_spec; vm_compute; reflexivity.
  - apply (bool_decide_unpack _). vm_compute. exact I.
Defined.

Lemma micros_mismatch_witness :
  canonical_row zero_hash (driver_columns (log_row 2 (noon + 5001) "lead.delete")) ≠
    Ok (trigger_text zero_hash (log_row 2 (noon + 5001) "lead.delete")).
Proof.
  apply (micros_mismatch zero_hash _ (noon + 5001)); [reflexivity| |by left|vm_compute; discriminate].
  repeat split; try done; vm_compute; discriminate.
Defined.

Lemma attested_day_accepted_iff_witness :
  ∃ r, verifyDay attested_db 1 audit_log 20000 = Ok r ∧
    (ok r = true ↔ js_date (1000 * half_past_three) = 1000 * (half_past_three / 1000)).
Proof.
  apply (@attested_day_accepted_iff _ toy_env toy_mysql toy_key utf8 toy_put two_rows 3 half_past_three
    (1000 * half_past_three) 1 audit_log 20000 attested_db ());
    [exact two_rows_triggered|discriminate|exact two_rows_days|apply (bool_decide_unpack _); vm_compute; exact I
    | |vm_compute; reflexivity
    |vm_compute; discriminate|reflexivity|exact toy_scheme|vm_compute; reflexivity].
  apply (bool_decide_unpack _). vm_compute. exact I.
Defined.

Lemma dnc_sync_log_unverifiable_witness :
  verifyRange attested_db 1 dnc_sync_log noon noon = Err (UnknownColumn "tenant_id").
Proof. apply (dnc_sync_log_unverifiable attested_db 1 20000 1 noon noon). reflexivity. Defined.
