(* ===== verification/CallbackDb.v ===== *)
(** The state the callback services share: the tables they touch, the events they
    publish, and the database calls they make.

    The columns are those of [api/prisma/schema.prisma] that the services read or
    write; a table is a finite map from its identifier.  A database call either throws, leaving the state as it was, or
    returns a value and a new state; a transaction is a sequence of calls in which
    nothing else runs.  The calls check what the schema makes the database check:
    [update] of a missing row (P2025) and foreign keys (P2003). *)

From S2P Require Import Prelude Calendar Jcs.

#[local] Open Scope Z_scope.

Inductive CallbackStatus : Set := PENDING | LIVE | DONE | DEAD.
Inductive CallbackSource : Set := AGENT | GLOBAL | INBOUND.

#[export] Instance CallbackStatus_eq_dec : EqDecision CallbackStatus.
Proof. solve_decision. Defined.
#[export] Instance CallbackSource_eq_dec : EqDecision CallbackSource.
Proof. solve_decision. Defined.

Record Callback := mkCallback {
  cb_id : Z;
  cb_tenantId : Z;
  cb_leadId : Z;
  cb_campaignId : string;
  cb_userId : option Z;
  cb_callbackAt : Z;
  cb_comments : option string;
  cb_status : CallbackStatus;
  cb_source : CallbackSource;
  cb_originalIngroupId : option string;
  cb_originalWaitSeconds : option Z;
  cb_callbackNumber : option string;
  cb_createdBy : option Z;
  cb_createdAt : Z;
}.

Record Lead := mkLead {
  ld_tenantId : Z;
  ld_status : string;
  ld_knownTimezone : option string;
  ld_ownerUserId : option Z;
  ld_deletedAt : option Z;
  ld_modifyAt : Z;
}.

Record User := mkUser { us_tenantId : Z; us_active : bool }.

Record AuditEntry := mkAudit {
  au_tenantId : Z;
  au_actorKind : string;
  au_actorUserId : option Z;
  au_action : string;
  au_entityId : string;
  au_afterJson : Json;
  au_ts : Z;
}.

Record Event := mkEvent {
  ev_type : string;
  ev_tenantId : Z;
  ev_callbackId : Z;
  ev_leadId : option Z;
  ev_userId : option Z;
  ev_details : list (string * Json);
  ev_ts : string;
}.

(** A message published to one agent's channel. *)
Record Notice := mkNotice {
  no_type : string;
  no_tenantId : Z;
  no_userId : Z;
  no_callbackId : Z;
  no_details : list (string * Json);
}.

Record World := mkWorld {
  callbacks : gmap Z Callback;
  next_id : Z;
  leads : gmap Z Lead;
  users : gmap Z User;
  campaigns : gset (Z * string);
  ingroups : gset (Z * string);
  auditLog : list AuditEntry;
  events : list Event;
  notices : list Notice;
}.

Inductive ApiError :=
  | HttpError (statusCode : Z) (code : string) (claimed_by : option string)
  | PrismaError (code : string).

(** ** Setters *)

Definition set_callbacks (f : gmap Z Callback → gmap Z Callback) (w : World) : World :=
  mkWorld (f (callbacks w)) (next_id w) (leads w) (users w) (campaigns w) (ingroups w) (auditLog w) (events w) (notices w).
Definition set_leads (f : gmap Z Lead → gmap Z Lead) (w : World) : World :=
  mkWorld (callbacks w) (next_id w) (f (leads w)) (users w) (campaigns w) (ingroups w) (auditLog w) (events w) (notices w).
Definition set_audit (f : list AuditEntry → list AuditEntry) (w : World) : World :=
  mkWorld (callbacks w) (next_id w) (leads w) (users w) (campaigns w) (ingroups w) (f (auditLog w)) (events w) (notices w).
Definition set_events (f : list Event → list Event) (w : World) : World :=
  mkWorld (callbacks w) (next_id w) (leads w) (users w) (campaigns w) (ingroups w) (auditLog w) (f (events w)) (notices w).
Definition set_notices (f : list Notice → list Notice) (w : World) : World :=
  mkWorld (callbacks w) (next_id w) (leads w) (users w) (campaigns w) (ingroups w) (auditLog w) (events w) (f (notices w)).

Definition with_status (s : CallbackStatus) (c : Callback) : Callback :=
  mkCallback (cb_id c) (cb_tenantId c) (cb_leadId c) (cb_campaignId c) (cb_userId c) (cb_callbackAt c)
    (cb_comments c) s (cb_source c) (cb_originalIngroupId c) (cb_originalWaitSeconds c)
    (cb_callbackNumber c) (cb_createdBy c) (cb_createdAt c).
Definition with_user (u : option Z) (c : Callback) : Callback :=
  mkCallback (cb_id c) (cb_tenantId c) (cb_leadId c) (cb_campaignId c) u (cb_callbackAt c)
    (cb_comments c) (cb_status c) (cb_source c) (cb_originalIngroupId c) (cb_originalWaitSeconds c)
    (cb_callbackNumber c) (cb_createdBy c) (cb_createdAt c).
Definition with_time (t : Z) (c : Callback) : Callback :=
  mkCallback (cb_id c) (cb_tenantId c) (cb_leadId c) (cb_campaignId c) (cb_userId c) t
    (cb_comments c) (cb_status c) (cb_source c) (cb_originalIngroupId c) (cb_originalWaitSeconds c)
    (cb_callbackNumber c) (cb_createdBy c) (cb_createdAt c).
Definition with_comments (s : option string) (c : Callback) : Callback :=
  mkCallback (cb_id c) (cb_tenantId c) (cb_leadId c) (cb_campaignId c) (cb_userId c) (cb_callbackAt c)
    s (cb_status c) (cb_source c) (cb_originalIngroupId c) (cb_originalWaitSeconds c)
    (cb_callbackNumber c) (cb_createdBy c) (cb_createdAt c).

Definition with_lead_status (s : string) (now : Z) (l : Lead) : Lead :=
  mkLead (ld_tenantId l) s (ld_knownTimezone l) (ld_ownerUserId l) (ld_deletedAt l) now.
Definition with_owner (u : Z) (l : Lead) : Lead :=
  mkLead (ld_tenantId l) (ld_status l) (ld_knownTimezone l) (Some u) (ld_deletedAt l) (ld_modifyAt l).

(** ** The monad of the services *)

Definition M (A : Type) : Type := World → result ApiError (A * World).

#[export] Instance M_ret : MRet M := λ A a w, Ok (a, w).
#[export] Instance M_bind : MBind M := λ A B f m w,
  match m w with Ok (a, w') => f a w' | Err e => Err e end.

Definition throw {A} (e : ApiError) : M A := λ _, Err e.
Definition gets {A} (f : World → A) : M A := λ w, Ok (f w, w).
Definition modify (f : World → World) : M unit := λ w, Ok ((), f w).
Definition guardM (b : bool) (e : ApiError) : M unit := λ w, if b then Ok ((), w) else Err e.

(** [try { m } catch { handler }] *)
Definition catch {A} (m : M A) (handler : M A) : M A := λ w,
  match m w with Ok r => Ok r | Err _ => handler w end.

Fixpoint for_eachM {S A} (f : S → A → M S) (s : S) (l : list A) : M S :=
  match l with
  | [] => mret s
  | a :: l' => s' ← f s a; for_eachM f s' l'
  end.

Lemma M_bind_ok {A B} (m : M A) (f : A → M B) w b w' :
  (m ≫= f) w = Ok (b, w') ↔ ∃ a w1, m w = Ok (a, w1) ∧ f a w1 = Ok (b, w').
Proof.
  unfold mbind, M_bind. destruct (m w) as [[a w1]|e]; split; [eauto|by intros (?&?&[= <- <-]&?)|done|].
  by intros (?&?&?&?).
Qed.

Lemma guardM_ok b e w u w' : guardM b e w = Ok (u, w') ↔ b = true ∧ w' = w.
Proof. unfold guardM. destruct b, u; split; naive_solver. Qed.

Lemma gets_ok {A} (f : World → A) w a w' : gets f w = Ok (a, w') ↔ a = f w ∧ w' = w.
Proof. unfold gets. naive_solver. Qed.

Lemma modify_ok f w u w' : modify f w = Ok (u, w') ↔ w' = f w.
Proof. unfold modify. destruct u. naive_solver. Qed.

Lemma ret_ok {A} (a b : A) w w' : (mret a : M A) w = Ok (b, w') ↔ b = a ∧ w' = w.
Proof. unfold mret, M_ret. naive_solver. Qed.

Lemma throw_ok {A} e w (a : A) w' : throw e w = Ok (a, w') ↔ False.
Proof. done. Qed.

Lemma if_ok {A} (P : Prop) `{Decision P} (m1 m2 : M A) w r :
  (if decide P then m1 else m2) w = Ok r ↔ (P ∧ m1 w = Ok r) ∨ (¬ P ∧ m2 w = Ok r).
Proof. destruct (decide P); naive_solver. Qed.

Lemma catch_ok {A} (m h : M A) w r :
  catch m h w = Ok r → m w = Ok r ∨ h w = Ok r.
Proof. unfold catch. destruct (m w); [left; congruence|by right]. Qed.

(** [throw Object.assign(new Error(code), { statusCode, code })] *)
Definition http {A} (statusCode : Z) (code : string) : M A := throw (HttpError statusCode code None).

Definition check {A} (statusCode : Z) (r : result string A) : M A :=
  match r with Ok a => mret a | Err code => http statusCode code end.

Definition required {A} (o : option A) (code : string) : M A :=
  match o with Some a => mret a | None => http 404 code end.

Lemma check_ok {A} k (r : result string A) w a w' : check k r w = Ok (a, w') ↔ r = Ok a ∧ w' = w.
Proof. unfold check. destruct r as [b|]; [|by split; [|intros []]]. rewrite ret_ok. naive_solver. Qed.

Lemma required_ok {A} (o : option A) code w a w' : required o code w = Ok (a, w') ↔ o = Some a ∧ w' = w.
Proof. unfold required. destruct o as [b|]; [|by split; [|intros []]]. rewrite ret_ok. naive_solver. Qed.

(** ** Database calls *)

(** [callback.findFirst({ where: { id, tenantId } })] *)
Definition findCallback (id tenantId : Z) : M (option Callback) :=
  gets (λ w, match callbacks w !! id with
             | Some c => if decide (cb_tenantId c = tenantId) then Some c else None
             | None => None
             end).

(** [userId] refers to a user, when it is not NULL. *)
Definition check_user (u : option Z) : M unit := λ w,
  match u with
  | None => Ok ((), w)
  | Some u => if decide (is_Some (users w !! u)) then Ok ((), w) else Err (PrismaError "P2003")
  end.

(** [callback.update({ where: { id }, data })] *)
Definition updateCallback (id : Z) (f : Callback → Callback) : M Callback := λ w,
  match callbacks w !! id with
  | None => Err (PrismaError "P2025")
  | Some c => Ok (f c, set_callbacks (insert id (f c)) w)
  end.

Definition matching (p : Callback → Prop) `{∀ c, Decision (p c)} (w : World) : gmap Z Callback :=
  filter (λ kc, p kc.2) (callbacks w).

(** [callback.updateMany({ where, data })]; the number of rows it changed. *)
Definition updateManyCallbacks (p : Callback → Prop) `{∀ c, Decision (p c)} (f : Callback → Callback)
    : M Z := λ w,
  Ok (Z.of_nat (size (matching p w)),
      set_callbacks (fmap (λ c, if decide (p c) then f c else c)) w).

(** [updateMany] of [userId]: the foreign key is checked when a row matches. *)
Definition assignManyCallbacks (p : Callback → Prop) `{∀ c, Decision (p c)} (u : option Z) : M Z := λ w,
  if decide (matching p w = ∅) then Ok (0, w)
  else (check_user u;; updateManyCallbacks p (with_user u)) w.

Definition countCallbacks (p : Callback → Prop) `{∀ c, Decision (p c)} : M Z :=
  gets (λ w, Z.of_nat (size (matching p w))).

(** [callback.findMany({ where })]: the rows in the order the table yields them, which
    the callers that need an order replace by their [orderBy]. *)
Definition callbacks_where (p : Callback → Prop) `{∀ c, Decision (p c)} (w : World) : list Callback :=
  (map_to_list (matching p w)).*2.

(** The in-group of an inbound callback is one of the tenant's. *)
Definition ingroup_known (w : World) (c : Callback) : Prop :=
  match cb_originalIngroupId c with Some g => (cb_tenantId c, g) ∈ ingroups w | None => True end.

#[export] Instance ingroup_known_dec w c : Decision (ingroup_known w c).
Proof. unfold ingroup_known. destruct (cb_originalIngroupId c); apply _. Defined.

(** [callback.create({ data })]: the lead, the campaign and the in-group are checked by
    the foreign keys. *)
Definition createCallbackRow (c : Callback) : M Callback := λ w,
  if decide (is_Some (leads w !! cb_leadId c) ∧ (cb_tenantId c, cb_campaignId c) ∈ campaigns w ∧ ingroup_known w c)
  then
    let c' := mkCallback (next_id w) (cb_tenantId c) (cb_leadId c) (cb_campaignId c) (cb_userId c)
      (cb_callbackAt c) (cb_comments c) (cb_status c) (cb_source c) (cb_originalIngroupId c)
      (cb_originalWaitSeconds c) (cb_callbackNumber c) (cb_createdBy c) (cb_createdAt c) in
    Ok (c', mkWorld (<[next_id w := c']> (callbacks w)) (next_id w + 1) (leads w) (users w)
              (campaigns w) (ingroups w) (auditLog w) (events w) (notices w))
  else Err (PrismaError "P2003").

(** [lead.update({ where: { id }, data })] *)
Definition updateLead (id : Z) (f : Lead → Lead) : M unit := λ w,
  match leads w !! id with
  | None => Err (PrismaError "P2025")
  | Some l => Ok ((), set_leads (insert id (f l)) w)
  end.

Definition createAudit (a : AuditEntry) : M unit := modify (set_audit (λ l, l ++ [a])).
Definition publish (e : Event) : M unit := modify (set_events (λ l, l ++ [e])).
Definition notify (n : Notice) : M unit := modify (set_notices (λ l, l ++ [n])).

(** ** What the calls did *)

Lemma findCallback_ok id tenantId w o w' :
  findCallback id tenantId w = Ok (o, w') →
  w' = w ∧ ∀ c, o = Some c → callbacks w !! id = Some c ∧ cb_tenantId c = tenantId.
Proof.
  intros [-> ->]%gets_ok. split; [done|]. intros c.
  destruct (callbacks w !! id) as [c'|]; [|done]. destruct (decide _); naive_solver.
Qed.

Lemma check_user_ok u w r w' :
  check_user u w = Ok (r, w') ↔ w' = w ∧ match u with Some u => is_Some (users w !! u) | None => True end.
Proof. unfold check_user. destruct u, r; [case_decide|]; naive_solver. Qed.

Lemma updateCallback_ok id f w c w' :
  updateCallback id f w = Ok (c, w') ↔
  ∃ c0, callbacks w !! id = Some c0 ∧ c = f c0 ∧ w' = set_callbacks (insert id (f c0)) w.
Proof. unfold updateCallback. destruct (callbacks w !! id); naive_solver. Qed.

Lemma updateLead_ok id f w u w' :
  updateLead id f w = Ok (u, w') ↔
  ∃ l, leads w !! id = Some l ∧ w' = set_leads (insert id (f l)) w.
Proof. unfold updateLead. destruct u, (leads w !! id); naive_solver. Qed.

Definition update_all (p : Callback → Prop) `{∀ c, Decision (p c)} (f : Callback → Callback) (w : World) : World :=
  set_callbacks (fmap (λ c, if decide (p c) then f c else c)) w.

Lemma updateMany_ok p `{∀ c, Decision (p c)} f w n w' :
  updateManyCallbacks p f w = Ok (n, w') ↔ n = Z.of_nat (size (matching p w)) ∧ w' = update_all p f w.
Proof. unfold updateManyCallbacks. naive_solver. Qed.

Lemma World_eta w :
  mkWorld (callbacks w) (next_id w) (leads w) (users w) (campaigns w) (ingroups w) (auditLog w) (events w) (notices w) = w.
Proof. by destruct w. Qed.

Lemma update_all_none p `{∀ c, Decision (p c)} f w : matching p w = ∅ → update_all p f w = w.
Proof.
  intros Hm. unfold update_all, set_callbacks.
  assert (Hf : (λ c, if decide (p c) then f c else c) <$> callbacks w = callbacks w); [|rewrite Hf; apply World_eta].
  apply map_eq. intros i. rewrite lookup_fmap. destruct (callbacks w !! i) as [c|] eqn:E; [|done]. cbn. f_equal.
  destruct (decide (p c)) as [Hp|]; [|done]. exfalso. unfold matching in Hm.
  pose proof (map_filter_empty_not_lookup _ _ i c Hm Hp) as Hn. done.
Qed.

Lemma assignMany_ok p `{∀ c, Decision (p c)} u w n w' :
  assignManyCallbacks p u w = Ok (n, w') ↔
  n = Z.of_nat (size (matching p w)) ∧ w' = update_all p (with_user u) w ∧
  (matching p w ≠ ∅ → match u with Some u => is_Some (users w !! u) | None => True end).
Proof.
  unfold assignManyCallbacks. destruct (decide (matching p w = ∅)) as [He|He].
  - rewrite update_all_none, He by done. rewrite map_size_empty.
    split; [by intros [= <- <-]|by intros (-> & -> & _)].
  - rewrite M_bind_ok. setoid_rewrite check_user_ok. setoid_rewrite updateMany_ok. split.
    + intros (a & w1 & [-> Hu] & -> & ->). by split_and!.
    + intros (-> & -> & Hu). exists (), w. split_and!; [done|exact (Hu He)|done|done].
Qed.

Lemma assignMany_eq p `{∀ c, Decision (p c)} u w :
  is_Some (users w !! u) →
  assignManyCallbacks p (Some u) w = Ok (Z.of_nat (size (matching p w)), update_all p (with_user (Some u)) w).
Proof. intros Hu. by apply assignMany_ok. Qed.

Lemma M_bind_eq {A B} (m : M A) (f : A → M B) w a w1 : m w = Ok (a, w1) → (m ≫= f) w = f a w1.
Proof. unfold mbind, M_bind. by intros ->. Qed.

Lemma createRow_ok c w c' w' :
  createCallbackRow c w = Ok (c', w') →
  is_Some (leads w !! cb_leadId c) ∧ (cb_tenantId c, cb_campaignId c) ∈ campaigns w ∧
  cb_id c' = next_id w ∧ cb_tenantId c' = cb_tenantId c ∧ cb_leadId c' = cb_leadId c ∧
  cb_userId c' = cb_userId c ∧ cb_status c' = cb_status c ∧
  callbacks w' = <[next_id w := c']> (callbacks w) ∧ next_id w' = next_id w + 1 ∧ leads w' = leads w ∧
  users w' = users w ∧ auditLog w' = auditLog w ∧ events w' = events w ∧ notices w' = notices w.
Proof.
  unfold createCallbackRow. destruct (decide _) as [(Hl & Hc & _)|]; [|done]. intros [= <- <-]. by split_and!.
Qed.

(** Opens the calls of a handler that returned: [H : handler w = Ok (a, w')]. *)
Ltac run H :=
  lazymatch type of H with
  | (_ ≫= _) _ = Ok _ =>
      let H1 := fresh "Hr" in
      apply M_bind_ok in H as (? & ? & H1 & H); run H1; run H
  | guardM _ _ _ = Ok _ => apply guardM_ok in H as [H ->]
  | gets _ _ = Ok _ => apply gets_ok in H as [-> ->]
  | countCallbacks _ _ = Ok _ => apply gets_ok in H as [-> ->]
  | modify _ _ = Ok _ => apply modify_ok in H as ->
  | createAudit _ _ = Ok _ => apply modify_ok in H as ->
  | publish _ _ = Ok _ => apply modify_ok in H as ->
  | notify _ _ = Ok _ => apply modify_ok in H as ->
  | mret _ _ = Ok _ => apply ret_ok in H as [-> ->]
  | throw _ _ = Ok _ => apply throw_ok in H as []
  | check _ _ _ = Ok _ => apply check_ok in H as [H ->]
  | required _ _ _ = Ok _ => apply required_ok in H as [H ->]
  | http _ _ _ = Ok _ => apply throw_ok in H as []
  | findCallback _ _ _ = Ok _ => apply findCallback_ok in H as [-> H]
  | check_user _ _ = Ok _ => apply check_user_ok in H as [-> H]
  | updateCallback _ _ _ = Ok _ => apply updateCallback_ok in H as (? & ? & -> & ->)
  | updateLead _ _ _ = Ok _ => apply updateLead_ok in H as (? & ? & ->)
  | updateManyCallbacks _ _ _ = Ok _ => apply updateMany_ok in H as [-> ->]
  | assignManyCallbacks _ _ _ = Ok _ => apply assignMany_ok in H as (-> & -> & H)
  | (if decide _ then _ else _) _ = Ok _ => apply if_ok in H as [[? H]|[? H]]; run H
  | _ => idtac
  end.
