(* ===== verification/Callbacks.v ===== *)
(** Callbacks, [api/src/callbacks]: the state machine, who may act on a callback,
    and the service's operations.

    Each operation takes the instant it runs at ([Date.now()], one instant per
    request) and the authenticated actor; the database calls are those of
    [CallbackDb].  A [Date] in a row is its instant.  [snoozeCallback] and
    [cancelCallback] read the callback first and then run a transaction: the two
    parts are definitions of their own, since other requests may run between
    them. *)

From stdpp Require Import sorting.
From S2P Require Import Prelude Calendar Jcs Rbac CallbackDb.

#[local] Open Scope Z_scope.

(** ** State machine *)

Definition LEGAL_TRANSITIONS : list (CallbackStatus * CallbackStatus) :=
  [(PENDING, LIVE); (PENDING, DEAD); (PENDING, PENDING); (LIVE, DONE); (LIVE, DEAD); (LIVE, PENDING)].

Definition status_name (s : CallbackStatus) : string :=
  match s with PENDING => "PENDING" | LIVE => "LIVE" | DONE => "DONE" | DEAD => "DEAD" end.

Definition status_lower (s : CallbackStatus) : string :=
  match s with PENDING => "pending" | LIVE => "live" | DONE => "done" | DEAD => "dead" end.

(** [Err] is [{ ok: false, errorCode }]. *)
Definition guardTransition (from to : CallbackStatus) : result string unit :=
  if decide (from = DONE ∨ from = DEAD) then Err "callback_terminal"%string
  else if decide ((from, to) ∈ LEGAL_TRANSITIONS) then Ok ()
  else Err ("illegal_transition_" +:+ status_lower from +:+ "_to_" +:+ status_lower to).

(** ** Authorisation *)

(** The fields of [AuthContext] the service reads. *)
Record Actor := mkActor { uid : Z; actor_tenantId : Z; role : Role }.

Definition isSupervisor (auth : Actor) : bool := roleAtLeast (role auth) supervisor.
Definition canManageOthers (auth : Actor) : bool := roleAtLeast (role auth) supervisor.

Definition canCancel (auth : Actor) (ownerId : option Z) : bool :=
  if isSupervisor auth then true
  else match ownerId with None => false | Some o => o =? uid auth end.

Definition canSnooze (auth : Actor) (ownerId : option Z) : bool :=
  if isSupervisor auth then true
  else match ownerId with None => false | Some o => o =? uid auth end.

(** The [requireSupervisor] pre-handler of the admin routes. *)
Definition requireSupervisor (auth : Actor) : M unit :=
  guardM (roleAtLeast (role auth) supervisor) (HttpError 403 "insufficient_role" None).

(** ** Requests *)

Definition MIN_FUTURE_SECONDS : Z := 5 * 60.
Definition MAX_FUTURE_SECONDS : Z := 365 * 24 * 3600.

Definition validateCallbackAt (now ts : Z) : result string unit :=
  if ts <? now + MIN_FUTURE_SECONDS * 1000 then Err "callback_too_soon"%string
  else if now + MAX_FUTURE_SECONDS * 1000 <? ts then Err "callback_too_far"%string
  else Ok ().

Record CreateCallbackBody := mkCreate {
  lead_id : Z;
  campaign_id : string;
  callback_at : Z;
  agent_only : bool;
  user_id : option Z;
  comments : option string;
}.

Inductive BulkScope : Set := scope_pending | scope_all_non_terminal.

Record BulkReassignBody := mkBulk {
  from_user_id : Z;
  to_user_id : option Z;
  bulk_scope : BulkScope;
}.

Inductive TcpaOutcome : Set := ALLOW | SKIP_UNTIL (nextOpen : option Z) | BLOCK_INVALID (reason : option string).

Definition tcpa_name (o : TcpaOutcome) : string :=
  match o with ALLOW => "ALLOW" | SKIP_UNTIL _ => "SKIP_UNTIL" | BLOCK_INVALID _ => "BLOCK_INVALID" end.

Definition checkTcpa (leadTzIana : option string) (when : Z) : TcpaOutcome := ALLOW.

Definition resolveUserId (body : CreateCallbackBody) (actor : Actor) : result string (option Z) :=
  match user_id body with
  | Some u =>
      if negb (isSupervisor actor) then Err "invalid_scope"%string
      else if agent_only body && negb (u =? uid actor) then Err "invalid_scope"%string
      else Ok (Some u)
  | None => Ok (if agent_only body then Some (uid actor) else None)
  end.

Definition scope_name (u : option Z) : string :=
  match u with Some _ => "AGENT" | None => "GLOBAL" end.

Definition id_text (o : option Z) : Json := match o with Some u => JStr (zs u) | None => JNull end.
Definition text_or_null (o : option string) : Json := match o with Some s => JStr s | None => JNull end.

Definition user_audit (actor : Actor) (now : Z) (action : string) (entityId : string) (after : Json) : AuditEntry :=
  mkAudit (actor_tenantId actor) "user" (Some (uid actor)) action entityId after now.

Definition system_audit (tenantId now : Z) (action : string) (entityId : string) (after : Json) : AuditEntry :=
  mkAudit tenantId "system" None action entityId after now.

Definition event_with (details : list (string * Json)) (now : Z) (type : string)
    (tenantId callbackId leadId : Z) (userId : option Z) : Event :=
  mkEvent type tenantId callbackId (Some leadId) userId details (toISOString now).

Definition callback_event : Z → string → Z → Z → Z → option Z → Event := event_with [].

(** [serializeCallback] of a row read with its lead's time zone.  The column
    [updatedAt] is the instant of the row's last write, which is the argument
    [updatedAt]: every caller serialises the row it has just written. *)
Definition serializeCallback (updatedAt : Z) (cb : Callback) (tz : option string) : Json :=
  JObj [("id", JStr (zs (cb_id cb))); ("tenant_id", JStr (zs (cb_tenantId cb)));
        ("lead_id", JStr (zs (cb_leadId cb))); ("campaign_id", JStr (cb_campaignId cb));
        ("user_id", id_text (cb_userId cb)); ("scope", JStr (scope_name (cb_userId cb)));
        ("callback_at", JStr (toISOString (cb_callbackAt cb))); ("status", JStr (status_name (cb_status cb)));
        ("comments", text_or_null (cb_comments cb)); ("lead_tz_iana", text_or_null tz);
        ("created_at", JStr (toISOString (cb_createdAt cb)));
        ("updated_at", JStr (toISOString updatedAt))]%string.

Definition open_status (s : CallbackStatus) : Prop := s = PENDING ∨ s = LIVE.

#[export] Instance open_status_dec s : base.Decision (open_status s).
Proof. unfold open_status. apply _. Defined.

(** ** Operations *)

Definition createCallback (now : Z) (actor : Actor) (body : CreateCallbackBody)
    : M (Json * option TcpaOutcome) :=
  check 400 (validateCallbackAt now (callback_at body));;
  userId ← check 400 (resolveUserId body actor);
  let tenantId := actor_tenantId actor in
  found ← gets (λ w, match leads w !! lead_id body with
                     | Some l => if decide (ld_tenantId l = tenantId ∧ ld_deletedAt l = None) then Some l else None
                     | None => None
                     end);
  lead ← required found "lead_not_found";
  let tcpa := checkTcpa (ld_knownTimezone lead) (callback_at body) in
  check_user userId;;
  cb ← createCallbackRow (mkCallback 0 tenantId (lead_id body) (campaign_id body) userId (callback_at body)
         (comments body) PENDING AGENT None None None (Some (uid actor)) now);
  existingPending ← countCallbacks (λ c, cb_tenantId c = tenantId ∧ cb_leadId c = lead_id body ∧
                                          cb_status c = PENDING ∧ cb_id c ≠ cb_id cb);
  (if decide (existingPending = 0 ∧ ld_status lead ∉ ["CBHOLD"; "CALLBK"]%string)
   then updateLead (lead_id body) (with_lead_status "CBHOLD" now)
   else mret ());;
  createAudit (user_audit actor now "callback.scheduled" (zs (cb_id cb))
    (JObj [("scope", JStr (scope_name userId)); ("callback_at", JStr (toISOString (callback_at body)));
           ("tcpa_outcome", JStr (tcpa_name tcpa))]%string));;
  publish (event_with [("campaignId", JStr (campaign_id body))]%string now "callback_scheduled" tenantId (cb_id cb) (lead_id body) userId);;
  mret (serializeCallback now cb (ld_knownTimezone lead),
        match tcpa with ALLOW => None | _ => Some tcpa end).

(** The checks of [snoozeCallback] before its transaction. *)
Definition snooze_check (now : Z) (actor : Actor) (callbackId at_ : Z) : M Callback :=
  check 400 (validateCallbackAt now at_);;
  found ← findCallback callbackId (actor_tenantId actor);
  cb ← required found "callback_not_found";
  guardM (canSnooze actor (cb_userId cb)) (HttpError 403 "permission_denied" None);;
  check 409 (guardTransition (cb_status cb) PENDING);;
  mret cb.

Definition snooze_commit (now : Z) (actor : Actor) (callbackId at_ : Z) (comments : option string)
    (cb : Callback) : M Json :=
  let data c := with_status PENDING (with_comments (match comments with Some s => Some s | None => cb_comments cb end)
                  (with_time at_ c)) in
  updated ← updateCallback callbackId data;
  createAudit (user_audit actor now "callback.snoozed" (zs callbackId)
    (JObj [("new_callback_at", JStr (toISOString at_))]%string));;
  publish (callback_event now "callback_snoozed" (actor_tenantId actor) callbackId (cb_leadId cb) (cb_userId cb));;
  mret (serializeCallback now updated None).

Definition snoozeCallback (now : Z) (actor : Actor) (callbackId at_ : Z) (comments : option string) : M Json :=
  cb ← snooze_check now actor callbackId at_;
  snooze_commit now actor callbackId at_ comments cb.

Definition cancel_check (actor : Actor) (callbackId : Z) : M Callback :=
  found ← findCallback callbackId (actor_tenantId actor);
  cb ← required found "callback_not_found";
  guardM (canCancel actor (cb_userId cb)) (HttpError 403 "permission_denied" None);;
  check 409 (guardTransition (cb_status cb) DEAD);;
  mret cb.

Definition cancel_commit (now : Z) (actor : Actor) (callbackId : Z) (cb : Callback) : M unit :=
  let tenantId := actor_tenantId actor in
  updateCallback callbackId (with_status DEAD);;
  remaining ← countCallbacks (λ c, cb_tenantId c = tenantId ∧ cb_leadId c = cb_leadId cb ∧
                                    open_status (cb_status c) ∧ cb_id c ≠ callbackId);
  (if decide (remaining = 0) then updateLead (cb_leadId cb) (with_lead_status "NA" now) else mret ());;
  createAudit (user_audit actor now "callback.cancelled" (zs callbackId)
    (JObj [("restored_lead", JBool (bool_decide (remaining = 0)))]%string));;
  publish (callback_event now "callback_cancelled" tenantId callbackId (cb_leadId cb) (cb_userId cb)).

Definition cancelCallback (now : Z) (actor : Actor) (callbackId : Z) : M unit :=
  cb ← cancel_check actor callbackId;
  cancel_commit now actor callbackId cb.

Definition claimCallback (now : Z) (actor : Actor) (callbackId : Z) : M Json :=
  let tenantId := actor_tenantId actor in
  count ← assignManyCallbacks (λ c, cb_id c = callbackId ∧ cb_tenantId c = tenantId ∧ cb_userId c = None ∧
                                    open_status (cb_status c)) (Some (uid actor));
  if decide (count = 0)
  then
    found ← findCallback callbackId tenantId;
    existing ← required found "callback_not_found";
    if decide (cb_status existing = DONE ∨ cb_status existing = DEAD)
    then http 409 "callback_terminal"
    else throw (HttpError 409 "already_claimed"
           (Some match cb_userId existing with Some u => zs u | None => "null"%string end))
  else
    found ← gets (λ w, callbacks w !! callbackId);
    updated ← required found "callback_not_found";
    createAudit (user_audit actor now "callback.claimed" (zs callbackId)
      (JObj [("claimed_by", JNum (uid actor))]%string));;
    publish (callback_event now "callback_claimed" tenantId callbackId (cb_leadId updated) (Some (uid actor)));;
    mret (serializeCallback now updated None).

Definition reassignCallback (now : Z) (actor : Actor) (callbackId : Z) (userId : option Z) : M Json :=
  let tenantId := actor_tenantId actor in
  match userId with
  | Some u =>
      target ← gets (λ w, match users w !! u with
                          | Some us => if decide (us_tenantId us = tenantId ∧ us_active us = true) then Some us else None
                          | None => None
                          end);
      required target "user_not_found";; mret ()
  | None => mret ()
  end;;
  found ← findCallback callbackId tenantId;
  cb ← required found "callback_not_found";
  check_user userId;;
  updated ← updateCallback callbackId (with_user userId);
  createAudit (user_audit actor now "callback.reassigned" (zs callbackId)
    (JObj [("to_user_id", id_text userId)]%string));;
  publish (callback_event now "callback_reassigned" tenantId callbackId (cb_leadId updated) userId);;
  mret (serializeCallback now updated None).

Definition bulk_statuses (s : BulkScope) : list CallbackStatus :=
  match s with scope_pending => [PENDING] | scope_all_non_terminal => [PENDING; LIVE] end.

Definition bulk_scope_name (s : BulkScope) : string :=
  match s with scope_pending => "pending" | scope_all_non_terminal => "all_non_terminal" end.

Definition bulkReassignCallbacks (now : Z) (actor : Actor) (body : BulkReassignBody) : M Z :=
  let tenantId := actor_tenantId actor in
  count ← assignManyCallbacks (λ c, cb_tenantId c = tenantId ∧ cb_userId c = Some (from_user_id body) ∧
                                    cb_status c ∈ bulk_statuses (bulk_scope body)) (to_user_id body);
  (if decide (0 < count) then
     createAudit (user_audit actor now "callback.bulk_reassigned" "bulk"
       (JObj [("from_user_id", JStr (zs (from_user_id body))); ("to_user_id", id_text (to_user_id body));
              ("scope", JStr (bulk_scope_name (bulk_scope body))); ("count", JNum count)]%string))
   else mret ());;
  mret count.

Definition bulkCancelCallbacks (now : Z) (actor : Actor) (ids : list Z) : M Z :=
  let tenantId := actor_tenantId actor in
  count ← updateManyCallbacks (λ c, cb_id c ∈ ids ∧ cb_tenantId c = tenantId ∧ open_status (cb_status c))
            (with_status DEAD);
  (if decide (0 < count) then
     createAudit (user_audit actor now "callback.cancelled" "bulk"
       (JObj [("ids", JArr (JStr <$> (zs <$> ids))); ("count", JNum count)]%string))
   else mret ());;
  mret count.

Inductive NoAnswerPolicy : Set := leave_callbk | reschedule_24h | terminate_NA.

Definition onNoAnswer (now tenantId callbackId : Z) (policy : NoAnswerPolicy) : M unit :=
  found ← findCallback callbackId tenantId;
  match found with
  | None => mret ()
  | Some cb =>
      if decide (cb_status cb ≠ LIVE) then mret ()
      else match policy with
      | leave_callbk =>
          createAudit (system_audit tenantId now "callback.completed" (zs callbackId)
            (JObj [("policy", JStr "leave_callbk"); ("outcome", JStr "no_answer")]%string))
      | reschedule_24h =>
          let newAt := cb_callbackAt cb + 86400 * 1000 in
          updateCallback callbackId (λ c, with_status PENDING (with_time newAt c));;
          updateLead (cb_leadId cb) (with_lead_status "CBHOLD" now);;
          createAudit (system_audit tenantId now "callback.rescheduled" (zs callbackId)
            (JObj [("policy", JStr "reschedule_24h"); ("new_callback_at", JStr (toISOString newAt))]%string));;
          publish (callback_event now "callback_rescheduled" tenantId callbackId (cb_leadId cb) (cb_userId cb))
      | terminate_NA =>
          updateCallback callbackId (with_status DONE);;
          updateLead (cb_leadId cb) (with_lead_status "NA" now);;
          createAudit (system_audit tenantId now "callback.completed" (zs callbackId)
            (JObj [("policy", JStr "terminate_NA")]%string))
      end
  end.

(** ** Lists *)

(** The database orders an enumeration by the position of its values. *)
Definition status_position (s : CallbackStatus) : Z :=
  match s with LIVE => 0 | PENDING => 1 | DONE => 2 | DEAD => 3 end.

Definition by_status_time (a b : Callback) : Prop :=
  status_position (cb_status a) < status_position (cb_status b) ∨
  cb_status a = cb_status b ∧ cb_callbackAt a <= cb_callbackAt b.

Definition by_time (a b : Callback) : Prop := cb_callbackAt a <= cb_callbackAt b.

#[export] Instance by_status_time_dec : RelDecision by_status_time.
Proof. intros a b. unfold by_status_time. apply _. Defined.
#[export] Instance by_time_dec : RelDecision by_time.
Proof. intros a b. unfold by_time. apply _. Defined.

(** [rows.length > limit], [rows.pop()] and the identifier of the last row kept. *)
Definition page (limit : Z) (rows : list Callback) : list Callback * option string :=
  if limit <? Z.of_nat (length rows)
  then let kept := removelast rows in
       (kept, match last kept with Some c => Some (zs (cb_id c)) | None => Some "undefined"%string end)
  else (rows, None).

Definition before_cursor (cursor : option Z) (c : Callback) : Prop :=
  match cursor with None | Some 0 => True | Some k => cb_id c < k end.

#[export] Instance before_cursor_dec cursor c : base.Decision (before_cursor cursor c).
Proof. unfold before_cursor. destruct cursor as [[|k|k]|]; apply _. Defined.

Definition listMineCallbacks (actor : Actor) (cursor : option Z) (limit : Z)
    : M (list Callback * option string) :=
  rows ← gets (callbacks_where (λ c, cb_tenantId c = actor_tenantId actor ∧ cb_userId c = Some (uid actor) ∧
                                     open_status (cb_status c) ∧ before_cursor cursor c));
  mret (page limit (take (Z.to_nat (limit + 1)) (merge_sort by_status_time rows))).

Record AdminFilters := mkFilters {
  statuses : option (list CallbackStatus);
  scope : option bool; (* GLOBAL is [true], AGENT is [false] *)
  userId : option Z;
  campaignId : option string;
  dueFrom : option Z;
  dueTo : option Z;
  staleOnly : bool;
  cursor : option Z;
  limit : Z;
}.

(** The [where] clause: a truthy [userId] replaces the scope's condition. *)
Definition admin_where (actor : Actor) (f : AdminFilters) (c : Callback) : Prop :=
  cb_tenantId c = actor_tenantId actor ∧
  cb_status c ∈ default [PENDING; LIVE] (statuses f) ∧
  match userId f with
  | Some u =>
      if decide (u = 0) then
        match scope f with Some true => cb_userId c = None | Some false => cb_userId c ≠ None | None => True end
      else cb_userId c = Some u
  | None =>
      match scope f with Some true => cb_userId c = None | Some false => cb_userId c ≠ None | None => True end
  end ∧
  match campaignId f with
  | Some s => if decide (s = EmptyString) then True else cb_campaignId c = s
  | None => True
  end ∧
  match dueFrom f with Some t => t <= cb_callbackAt c | None => True end ∧
  match dueTo f with Some t => cb_callbackAt c <= t | None => True end ∧
  before_cursor (cursor f) c.

#[export] Instance admin_where_dec actor f c : base.Decision (admin_where actor f c).
Proof. unfold admin_where. repeat (apply and_dec || case_match || apply _). Defined.

Definition stale_row (now : Z) (c : Callback) : Prop :=
  cb_status c = LIVE ∧ 4 * 3600 * 1000 < now - cb_callbackAt c.

#[export] Instance stale_row_dec now c : base.Decision (stale_row now c).
Proof. unfold stale_row. apply _. Defined.

Definition listCallbacksAdmin (now : Z) (actor : Actor) (f : AdminFilters)
    : M (list Callback * option string) :=
  rows ← gets (callbacks_where (admin_where actor f));
  let rows := take (Z.to_nat (limit f + 1)) (merge_sort by_time rows) in
  let results := if staleOnly f then filter (stale_row now) rows else rows in
  mret (page (limit f) results).

Record Aggregate := mkAggregate {
  total_pending : Z;
  total_live : Z;
  by_scope_global : Z;
  by_scope_agent : Z;
  by_hour : list (string * Z);
  stale_count : Z;
  upcoming_5min : Z;
}.

Definition count_hour (acc : list (string * Z)) (key : string) : list (string * Z) :=
  match list_find (λ p, p.1 = key) acc with
  | Some (i, (_, n)) => <[i := (key, n + 1)]> acc
  | None => acc ++ [(key, 1)]
  end.

Definition HOUR : Z := 3600 * 1000.

Definition aggregate_base (actor : Actor) (campaign : option string) (c : Callback) : Prop :=
  cb_tenantId c = actor_tenantId actor ∧
  match campaign with
  | Some s => if decide (s = EmptyString) then True else cb_campaignId c = s
  | None => True
  end.

#[export] Instance aggregate_base_dec actor campaign c : base.Decision (aggregate_base actor campaign c).
Proof. unfold aggregate_base. repeat (apply and_dec || case_match || apply _). Defined.

Definition getCallbackAggregate (now : Z) (actor : Actor) (campaign : option string) (horizonHours : Z)
    : M Aggregate :=
  let base := aggregate_base actor campaign in
  let horizon := now + horizonHours * 3600 * 1000 in
  let fiveMinOut := now + 5 * 60 * 1000 in
  let staleThreshold := now - 4 * 3600 * 1000 in
  pending ← countCallbacks (λ c, base c ∧ cb_status c = PENDING);
  live ← countCallbacks (λ c, base c ∧ cb_status c = LIVE);
  globalScope ← countCallbacks (λ c, base c ∧ open_status (cb_status c) ∧ cb_userId c = None);
  agentScope ← countCallbacks (λ c, base c ∧ open_status (cb_status c) ∧ cb_userId c ≠ None);
  staleCount ← countCallbacks (λ c, base c ∧ cb_status c = LIVE ∧ cb_callbackAt c < staleThreshold);
  upcoming ← countCallbacks (λ c, base c ∧ cb_status c = PENDING ∧ now <= cb_callbackAt c <= fiveMinOut);
  byHourRows ← gets (callbacks_where (λ c, base c ∧ cb_status c = PENDING ∧ now <= cb_callbackAt c <= horizon));
  mret (mkAggregate pending live globalScope agentScope
    (foldl (λ acc c, count_hour acc (toISOString (cb_callbackAt c / HOUR * HOUR))) [] byHourRows)
    staleCount upcoming).
