(* ===== verification/CallbackWorker.v ===== *)
(** The callback workers, [workers/src/jobs/callback-fire], and the inbound
    callbacks' part of the same tables, [api/src/inbound-callbacks/service.ts].

    What a worker asks Redis for is a parameter: whether [SET NX] took the lock
    ([locked]) or a de-duplication key ([isNew]), and the status of an agent
    ([agentStatus]). *)

From stdpp Require Import sorting.
From S2P Require Import Prelude Calendar Jcs Rbac CallbackDb Callbacks.

#[local] Open Scope Z_scope.

Record PromoteResult := mkPromote { promoted : bool; reason : option string }.

Definition online (status : option string) : bool :=
  bool_decide (default EmptyString status ∈ ["READY"; "PAUSED"; "INCALL"; "WRAPUP"]%string).

Definition notice_details (cb : Callback) : list (string * Json) :=
  [("lead_id", JStr (zs (cb_leadId cb))); ("campaign_id", JStr (cb_campaignId cb));
   ("callback_at", JStr (toISOString (cb_callbackAt cb))); ("comments", text_or_null (cb_comments cb))]%string.

(** A reason that is a truthy string. *)
Definition truthy_text (o : option string) : option string :=
  match o with Some s => if bool_decide (s = EmptyString) then None else Some s | None => None end.

Definition getAgeBucket (ageSeconds : Z) : string :=
  if ageSeconds <? 8 * 3600 then "4-8h"
  else if ageSeconds <? 24 * 3600 then "8-24h"
  else if ageSeconds <? 3 * 24 * 3600 then "1-3d"
  else "3d+".

Section worker.
Variable agentStatus : Z → Z → option string.

(** The transaction of [promoteCallback]. *)
Definition promote_transaction (now : Z) (cb : Callback) (tcpaWarning : option string) : M bool :=
  count ← updateManyCallbacks (λ c, cb_id c = cb_id cb ∧ cb_status c = PENDING) (with_status LIVE);
  if decide (count = 0) then mret false
  else
    updateLead (cb_leadId cb) (λ l,
      let l := with_lead_status "CALLBK" now l in
      match cb_userId cb with Some u => with_owner u l | None => l end);;
    createAudit (mkAudit (cb_tenantId cb) "worker" None "callback.fired" (zs (cb_id cb))
      (JObj (("scope"%string, JStr (scope_name (cb_userId cb))) ::
             match truthy_text tcpaWarning with Some s => [("tcpa_warning"%string, JStr s)] | None => [] end)) now);;
    mret true.

Definition promoteCallback (now : Z) (cb : Callback) (tcpaWarning : option string) : M PromoteResult :=
  catch
    (done ← promote_transaction now cb tcpaWarning;
     if negb done then mret (mkPromote false (Some "already_live"%string))
     else
       publish (event_with [("campaignId"%string, JStr (cb_campaignId cb))] now
         (match cb_userId cb with Some _ => "callback_fired_agent" | None => "callback_fired_global" end)
         (cb_tenantId cb) (cb_id cb) (cb_leadId cb) (cb_userId cb));;
       match cb_userId cb with
       | Some u =>
           if online (agentStatus (cb_tenantId cb) u)
           then notify (mkNotice "callback_due" (cb_tenantId cb) u (cb_id cb) (notice_details cb))
           else mret ()
       | None => mret ()
       end;;
       match truthy_text tcpaWarning with
       | Some s => publish (mkEvent "callback_fired_with_warning" (cb_tenantId cb) (cb_id cb) None None
                     [("reason"%string, JStr s)] (toISOString now))
       | None => mret ()
       end;;
       mret (mkPromote true None))
    (mret (mkPromote false (Some "transaction_error"%string))).

Definition deferCallback (now callbackId tenantId leadId : Z) (userId : option Z) (nextOpen : Z) : M unit :=
  catch
    (updateCallback callbackId (with_time nextOpen);;
     createAudit (mkAudit tenantId "worker" None "callback.snoozed" (zs callbackId)
       (JObj [("reason", JStr "tcpa_skip_until"); ("next_open", JStr (toISOString nextOpen))]%string) now);;
     publish (event_with [("next_open", JStr (toISOString nextOpen))]%string now "callback_tcpa_deferred" tenantId callbackId leadId userId))
    (mret ()).

(** The stub in force until the real gate is wired. *)
Definition checkTcpaAtFireTime (leadTzIana : option string) (when : Z) : TcpaOutcome := ALLOW.

Record TickResult := mkTick { fired : Z; deferred : Z; errors : Z }.

(** The loop's body, for the outcome of the check. *)
Definition fire_one (now : Z) (tcpa : TcpaOutcome) (acc : TickResult) (cb : Callback) : M TickResult :=
  let promote warning :=
    r ← promoteCallback now cb warning;
    mret (if promoted r then mkTick (fired acc + 1) (deferred acc) (errors acc)
          else if bool_decide (reason r = Some "transaction_error"%string)
               then mkTick (fired acc) (deferred acc) (errors acc + 1)
               else acc) in
  match tcpa with
  | ALLOW => promote None
  | BLOCK_INVALID w => promote w
  | SKIP_UNTIL (Some nextOpen) =>
      deferCallback now (cb_id cb) (cb_tenantId cb) (cb_leadId cb) (cb_userId cb) nextOpen;;
      mret (mkTick (fired acc) (deferred acc + 1) (errors acc))
  | SKIP_UNTIL None => mret acc
  end.

(** [None] is a skipped tick. *)
Definition due_callbacks (tenantId dueBy : Z) (w : World) : list Callback :=
  take 500 (merge_sort by_time
    (callbacks_where (λ c, cb_tenantId c = tenantId ∧ cb_status c = PENDING ∧ cb_callbackAt c <= dueBy ∧
                           (cb_source c = AGENT ∨ cb_source c = GLOBAL)) w)).

Definition callbackFireTick (now : Z) (locked : bool) (callbackGraceWindowSeconds : option Z) (tenantId : Z)
    : M (option TickResult) :=
  if negb locked then mret None
  else catch
    (let dueBy := now + default 30 callbackGraceWindowSeconds * 1000 in
     due ← gets (due_callbacks tenantId dueBy);
     match due with
     | [] => mret None
     | _ =>
         r ← for_eachM (λ acc cb,
               tz ← gets (λ w, leads w !! cb_leadId cb ≫= ld_knownTimezone);
               fire_one now (checkTcpaAtFireTime tz now) acc cb) (mkTick 0 0 0) due;
         mret (Some r)
     end)
    (mret (Some (mkTick 0 0 1))).

(** *** Notifications *)

Variable isNew : Z → bool.

Definition DEFAULT_STALE_THRESHOLD_SECONDS : Z := 14400.

Definition callbackStaleTick (now : Z) (locked : bool) (callbackStaleThresholdSeconds : option Z) (tenantId : Z)
    : M unit :=
  if negb locked then mret ()
  else
    let thresholdSeconds := default DEFAULT_STALE_THRESHOLD_SECONDS callbackStaleThresholdSeconds in
    let staleThreshold := now - thresholdSeconds * 1000 in
    stale ← gets (callbacks_where (λ c, cb_tenantId c = tenantId ∧ open_status (cb_status c) ∧
                                        cb_callbackAt c < staleThreshold));
    for_eachM (λ _ cb,
      if negb (isNew (cb_id cb)) then mret ()
      else
        let ageSeconds := (now - cb_callbackAt cb) / 1000 in
        publish (mkEvent "callback_stale" tenantId (cb_id cb) None None
          [("age_seconds", JNum ageSeconds); ("age_bucket", JStr (getAgeBucket ageSeconds));
           ("scope", JStr (scope_name (cb_userId cb)))]%string (toISOString now))) () stale.

Definition callbackUpcomingTick (now : Z) (locked : bool) (tenantId : Z) : M unit :=
  if negb locked then mret ()
  else
    let fourMin := now + 4 * 60 * 1000 in
    let fiveMin := now + 5 * 60 * 1000 in
    upcoming ← gets (callbacks_where (λ c, cb_tenantId c = tenantId ∧ cb_status c = PENDING ∧
                                           cb_userId c ≠ None ∧ fourMin <= cb_callbackAt c <= fiveMin));
    for_eachM (λ _ cb,
      match cb_userId cb with
      | None => mret ()
      | Some u =>
          if decide (u = 0) then mret ()
          else if negb (isNew (cb_id cb)) then mret ()
          else if negb (online (agentStatus tenantId u)) then mret ()
          else notify (mkNotice "callback_upcoming" tenantId u (cb_id cb)
                 (notice_details cb ++ [("minutes_until"%string, JNum 5)]))
      end) () upcoming.
End worker.

(** ** Inbound callbacks *)

Definition maskPhone (phone : string) : string :=
  if (String.length phone <=? 3)%nat then "***"
  else String.substring 0 (String.length phone - 3) phone +:+ "***".

Inductive InboundPath : Set := queue_offer | ivr_terminal.

Definition path_name (p : InboundPath) : string :=
  match p with queue_offer => "queue_offer" | ivr_terminal => "ivr_terminal" end.

(** For a request without [queuePositionAtOffer], as the IVR's are. *)
Definition createInboundCallback (now tenantId : Z) (ingroupId callbackNumber : string) (leadId : Z)
    (originalWaitSeconds : option Z) (comments : option string) (path : InboundPath) : M Z :=
  cb ← createCallbackRow (mkCallback 0 tenantId leadId "__INBOUND_CB__" None now
         (Some (default ("Inbound callback request via " +:+ path_name path) comments)) PENDING INBOUND
         (Some ingroupId) originalWaitSeconds (Some callbackNumber) None now);
  mret (cb_id cb).

Definition deferInboundCallback (callbackId newCallbackAt : Z) : M unit :=
  updateCallback callbackId (with_time newCallbackAt);; mret ().

Inductive InboundNoAnswerPolicy : Set := in_leave_callbk | in_reschedule_30m | in_reschedule_24h | in_terminate_NA.

Definition inbound_policy_name (p : InboundNoAnswerPolicy) : string :=
  match p with
  | in_leave_callbk => "leave_callbk"
  | in_reschedule_30m => "reschedule_30m"
  | in_reschedule_24h => "reschedule_24h"
  | in_terminate_NA => "terminate_NA"
  end.

Definition onNoAnswerInbound (now callbackId tenantId : Z) (ingroupId : string) (policy : InboundNoAnswerPolicy)
    : M unit :=
  found ← findCallback callbackId tenantId;
  match found with
  | None => mret ()
  | Some cb =>
      if decide (cb_status cb ≠ LIVE) then mret ()
      else
        let reschedule addMs :=
          let newAt := now + addMs in
          updateCallback callbackId (λ c, with_status PENDING (with_time newAt c));;
          updateLead (cb_leadId cb) (with_lead_status "CBHOLD" now);;
          createAudit (system_audit tenantId now "callback.inbound_no_answer" (zs callbackId)
            (JObj [("policy", JStr (inbound_policy_name policy)); ("new_callback_at", JStr (toISOString newAt));
                   ("ingroup_id", JStr ingroupId)]%string)) in
        match policy with
        | in_leave_callbk => mret ()
        | in_reschedule_30m => reschedule (30 * 60 * 1000)
        | in_reschedule_24h => reschedule (24 * 3600 * 1000)
        | in_terminate_NA =>
            updateCallback callbackId (with_status DONE);;
            updateLead (cb_leadId cb) (with_lead_status "NA" now);;
            createAudit (system_audit tenantId now "callback.inbound_no_answer" (zs callbackId)
              (JObj [("policy", JStr "terminate_NA"); ("ingroup_id", JStr ingroupId)]%string))
        end
  end.
