(* ===== verification/CallbackSystem.v ===== *)
(** The callback system as a whole: every request of [Callbacks] and
    [CallbackWorker] as one transition on the shared state, and what holds of every
    run.

    [handle] is one request, served alone; the interleaving of two requests is the
    composition of their parts ([snooze_check] and [snooze_commit]). *)

From S2P Require Import Prelude Calendar Jcs Rbac CallbackDb Callbacks CallbackWorker.

#[local] Open Scope Z_scope.

Inductive Request :=
  | Create (actor : Actor) (body : CreateCallbackBody)
  | Snooze (actor : Actor) (id at_ : Z) (comments : option string)
  | Cancel (actor : Actor) (id : Z)
  | Claim (actor : Actor) (id : Z)
  | Reassign (actor : Actor) (id : Z) (userId : option Z)
  | BulkReassign (actor : Actor) (body : BulkReassignBody)
  | BulkCancel (actor : Actor) (ids : list Z)
  | NoAnswer (tenantId id : Z) (policy : NoAnswerPolicy)
  | FireTick (locked : bool) (grace : option Z) (tenantId : Z)
  | StaleTick (locked : bool) (threshold : option Z) (tenantId : Z)
  | UpcomingTick (locked : bool) (tenantId : Z)
  | InboundNoAnswer (id tenantId : Z) (ingroupId : string) (policy : InboundNoAnswerPolicy)
  | InboundCreate (tenantId : Z) (ingroupId number : string) (leadId : Z) (wait : option Z)
      (comments : option string) (path : InboundPath)
  | InboundDefer (id at_ : Z).

(** What the reads of a handler found. *)
Ltac found :=
  repeat match goal with
         | H : ∀ c, ?o = Some c → _, Ho : ?o = Some ?x |- _ => destruct (H x Ho); clear H Ho
         | H : ∀ c, Some ?x = Some c → _ |- _ => destruct (H x eq_refl); clear H
         | H : guardTransition _ _ = Ok ?u |- _ => destruct u
         end; simplify_eq.

(** ** Evolution of a callback *)

Definition legal (s s' : CallbackStatus) : Prop := guardTransition s s' = Ok ().

(** The one move of the state machine a request may make on callback [id]. *)
Definition moves (r : Request) (id : Z) (s s' : CallbackStatus) : Prop :=
  match r with
  | Snooze _ i _ _ => id = i ∧ open_status s ∧ s' = PENDING
  | Cancel _ i => id = i ∧ open_status s ∧ s' = DEAD
  | BulkCancel _ ids => id ∈ ids ∧ open_status s ∧ s' = DEAD
  | NoAnswer _ i reschedule_24h => id = i ∧ s = LIVE ∧ s' = PENDING
  | NoAnswer _ i terminate_NA => id = i ∧ s = LIVE ∧ s' = DONE
  | FireTick locked _ _ => locked = true ∧ s = PENDING ∧ s' = LIVE
  | InboundNoAnswer i _ _ (in_reschedule_30m | in_reschedule_24h) => id = i ∧ s = LIVE ∧ s' = PENDING
  | InboundNoAnswer i _ _ in_terminate_NA => id = i ∧ s = LIVE ∧ s' = DONE
  | _ => False
  end.

Definition allowed (r : Request) (id : Z) (s s' : CallbackStatus) : Prop := s' = s ∨ moves r id s s'.

Lemma moves_legal r id s s' : moves r id s s' → legal s s'.
Proof.
  unfold moves, open_status. destruct r as [| | | | | | |? ? []| | | |? ? ? []| |]; intros H;
    destruct_and?; destruct_or?; subst; done.
Qed.

#[global] Instance allowed_preorder r id : PreOrder (allowed r id).
Proof.
  split; [by left|]. unfold allowed, moves, open_status.
  intros s1 s2 s3 [->|H1] [->|H2]; [by left|by right|by right|].
  destruct r as [| | | | | | |? ? []| | | |? ? ? []| |]; destruct_and?; subst; naive_solver.
Qed.

(** What a callback keeps, its status moving along [R]. *)
Record evolves (R : relation CallbackStatus) (c c' : Callback) : Prop := {
  ev_status : R (cb_status c) (cb_status c');
  ev_id : cb_id c' = cb_id c;
  ev_tenant : cb_tenantId c' = cb_tenantId c;
  ev_lead : cb_leadId c' = cb_leadId c;
  ev_campaign : cb_campaignId c' = cb_campaignId c;
  ev_source : cb_source c' = cb_source c;
  ev_created : cb_createdAt c' = cb_createdAt c;
}.

#[global] Instance evolves_preorder R : PreOrder R → PreOrder (evolves R).
Proof.
  intros HR. split.
  - intros c. by split.
  - intros c1 c2 c3 [] []. split; [by etrans|congruence..].
Qed.

Lemma evolves_mono (R R' : relation CallbackStatus) c c' :
  (∀ s s', R s s' → R' s s') → evolves R c c' → evolves R' c c'.
Proof. intros HR []. split; auto. Qed.

(** The invariant: rows are stored under their identifier, identifiers to come
    are free, and a callback's lead is a lead of its tenant. *)
Definition row_wf (w : World) (id : Z) (c : Callback) : Prop :=
  cb_id c = id ∧ id < next_id w ∧
  ∃ l, leads w !! cb_leadId c = Some l ∧ ld_tenantId l = cb_tenantId c.

Definition wf (w : World) : Prop := map_Forall (row_wf w) (callbacks w).

Section effects.
(** The moves the callback with an identifier may make. *)
Context (R : Z → relation CallbackStatus) `{HR : ∀ id, PreOrder (R id)}.

(** One request's effect on the state, for the rows of tenant [t]. *)
Record effect (t : Z) (w w' : World) : Prop := {
  ef_rows : ∀ id c, callbacks w !! id = Some c →
    ∃ c', callbacks w' !! id = Some c' ∧ evolves (R id) c c' ∧ (cb_tenantId c ≠ t → c' = c);
  ef_new : ∀ id c', callbacks w !! id = None → callbacks w' !! id = Some c' →
    R id PENDING (cb_status c') ∧ cb_tenantId c' = t;
  ef_leads : ∀ id l, leads w !! id = Some l →
    ∃ l', leads w' !! id = Some l' ∧ ld_tenantId l' = ld_tenantId l ∧ (ld_tenantId l ≠ t → l' = l);
  ef_wf : wf w → wf w';
  ef_audit : ∃ l, auditLog w' = auditLog w ++ l ∧ Forall (λ a, au_tenantId a = t) l;
  ef_events : ∃ l, events w' = events w ++ l ∧ Forall (λ e, ev_tenantId e = t) l;
  ef_notices : ∃ l, notices w' = notices w ++ l ∧ Forall (λ n, no_tenantId n = t) l;
}.

Lemma suffix_refl {A} (P : A → Prop) (l : list A) : ∃ s, l = l ++ s ∧ Forall P s.
Proof. exists []. by rewrite app_nil_r. Qed.

Lemma suffix_trans {A} (P : A → Prop) (l1 l2 l3 : list A) :
  (∃ s, l2 = l1 ++ s ∧ Forall P s) → (∃ s, l3 = l2 ++ s ∧ Forall P s) → ∃ s, l3 = l1 ++ s ∧ Forall P s.
Proof.
  intros (s & -> & Hs) (s' & -> & Hs'). exists (s ++ s'). rewrite app_assoc. split; [done|].
  by apply Forall_app.
Qed.

#[global] Instance effect_preorder t : PreOrder (effect t).
Proof.
  split.
  - intros w. split; try apply suffix_refl; [|intros; congruence| |done].
    + intros id c Hc. exists c. by split_and!.
    + intros id l Hl. exists l. by split_and!.
  - intros w1 w2 w3 [R1 N1 L1 W1 A1 E1 O1] [R2 N2 L2 W2 A2 E2 O2].
    split; [| | |by auto|by eapply suffix_trans..].
    + intros id c Hc. destruct (R1 id c Hc) as (c2 & Hc2 & He2 & Ht2).
      destruct (R2 id c2 Hc2) as (c3 & Hc3 & He3 & Ht3). exists c3. split; [done|].
      split; [by etrans|]. intros Hne. rewrite <- (Ht2 Hne). apply Ht3. by rewrite (Ht2 Hne).
    + intros id c' Hn Hs. destruct (callbacks w2 !! id) as [c2|] eqn:E.
      * destruct (N1 id c2 Hn E) as [Hp Ht]. destruct (R2 id c2 E) as (c3 & Hc3 & He & _).
        simplify_eq. destruct He as [Hst _ Hten _ _ _ _]. split; [by etrans|congruence].
      * by eapply N2.
    + intros id l Hl. destruct (L1 id l Hl) as (l2 & Hl2 & He2 & Ht2).
      destruct (L2 id l2 Hl2) as (l3 & Hl3 & He3 & Ht3). exists l3. split; [done|].
      split; [congruence|]. intros Hne. rewrite <- (Ht2 Hne). apply Ht3. by rewrite (Ht2 Hne).
Qed.

(** *** The calls *)

Lemma effect_update t w id c c' :
  callbacks w !! id = Some c → cb_tenantId c = t → evolves (R id) c c' →
  effect t w (set_callbacks (insert id c') w).
Proof.
  intros Hc Ht He. split; cbn [set_callbacks callbacks leads auditLog events notices];
    try apply suffix_refl.
  - intros i x Hx. destruct (decide (i = id)) as [->|Hne].
    + rewrite lookup_insert_eq. simplify_eq. exists c'. by split_and!.
    + rewrite lookup_insert_ne by done. exists x. by split_and!.
  - intros i x Hn Hx. destruct (decide (i = id)) as [->|Hne]; [congruence|].
    rewrite lookup_insert_ne in Hx by done. congruence.
  - intros i l Hl. exists l. by split_and!.
  - intros Hw i x Hx. cbn in Hx. destruct (decide (i = id)) as [->|Hne].
    + rewrite lookup_insert_eq in Hx. injection Hx as <-.
      destruct (Hw id c Hc) as (H1 & H2 & l & Hl & Hlt), He. split; [congruence|].
      split; [done|]. exists l. cbn. split; congruence.
    + rewrite lookup_insert_ne in Hx by done. exact (Hw i x Hx).
Qed.

Lemma effect_lead t w id l l' :
  leads w !! id = Some l → ld_tenantId l = t → ld_tenantId l' = t →
  effect t w (set_leads (insert id l') w).
Proof.
  intros Hl Ht Ht'. split; cbn [set_leads callbacks leads auditLog events notices];
    try apply suffix_refl.
  - intros i x Hx. exists x. by split_and!.
  - intros i x Hn Hx. congruence.
  - intros i x Hx. destruct (decide (i = id)) as [->|Hne].
    + rewrite lookup_insert_eq. simplify_eq. exists l'. by split_and!.
    + rewrite lookup_insert_ne by done. exists x. by split_and!.
  - intros Hw i x Hx. destruct (Hw i x Hx) as (H1 & H2 & k & Hk & Hkt). split; [done|]. split; [done|].
    cbn [leads set_leads]. destruct (decide (cb_leadId x = id)) as [E|Hne].
    + rewrite E, lookup_insert_eq in *. exists l'. split; [done|]. congruence.
    + rewrite lookup_insert_ne by done. eauto.
Qed.

Lemma effect_all t w p `{∀ c, base.Decision (p c)} f :
  (∀ i c, callbacks w !! i = Some c → p c → cb_tenantId c = t ∧ evolves (R i) c (f c)) →
  effect t w (update_all p f w).
Proof.
  intros Hp.
  assert (He : ∀ i c, callbacks w !! i = Some c → evolves (R i) c (if decide (p c) then f c else c) ∧
    (cb_tenantId c ≠ t → (if decide (p c) then f c else c) = c)).
  { intros i c Hc. destruct (decide (p c)) as [H1|]; [|done]. destruct (Hp i c Hc H1). by split. }
  split; cbn [update_all set_callbacks callbacks leads auditLog events notices]; try apply suffix_refl.
  - intros i x Hx. rewrite lookup_fmap, Hx. cbn. eexists. split; [done|]. by eapply He.
  - intros i x Hn Hx. rewrite lookup_fmap, Hn in Hx. done.
  - intros i l Hl. exists l. by split_and!.
  - intros Hw i x Hx. cbn in Hx. rewrite lookup_fmap in Hx.
    destruct (callbacks w !! i) as [c|] eqn:E; [|done]. cbn in Hx. injection Hx as <-.
    destruct (Hw i c E) as (H1 & H2 & l & Hl & Hlt), (He i c E) as [[] _]. split; [congruence|].
    split; [done|]. exists l. cbn. split; congruence.
Qed.

Lemma effect_audit t w a : au_tenantId a = t → effect t w (set_audit (λ l, l ++ [a]) w).
Proof.
  intros Ht. split; cbn; try apply suffix_refl; try done.
  - intros i x Hx. exists x. by split_and!.
  - congruence.
  - intros i l Hl. exists l. by split_and!.
  - exists [a]. split; [done|]. by constructor.
Qed.

Lemma effect_event t w a : ev_tenantId a = t → effect t w (set_events (λ l, l ++ [a]) w).
Proof.
  intros Ht. split; cbn; try apply suffix_refl; try done.
  - intros i x Hx. exists x. by split_and!.
  - congruence.
  - intros i l Hl. exists l. by split_and!.
  - exists [a]. split; [done|]. by constructor.
Qed.

Lemma effect_notice t w a : no_tenantId a = t → effect t w (set_notices (λ l, l ++ [a]) w).
Proof.
  intros Ht. split; cbn; try apply suffix_refl; try done.
  - intros i x Hx. exists x. by split_and!.
  - congruence.
  - intros i l Hl. exists l. by split_and!.
  - exists [a]. split; [done|]. by constructor.
Qed.

Lemma effect_create t w c c' w' l :
  wf w → createCallbackRow c w = Ok (c', w') → cb_tenantId c = t → cb_status c = PENDING →
  leads w !! cb_leadId c = Some l → ld_tenantId l = t → effect t w w'.
Proof.
  intros Hw (Hl & _ & Hid & Hten & Hlead & _ & Hst & Hcb & Hnext & Hleads & _ & Ha & He & Hn)%createRow_ok
    Ht Hs Hlk Hlt.
  assert (Hfresh : callbacks w !! next_id w = None).
  { destruct (callbacks w !! next_id w) as [x|] eqn:E; [|done]. destruct (Hw _ _ E) as (_ & ? & _). lia. }
  split; rewrite ?Hcb, ?Hleads, ?Ha, ?He, ?Hn; try apply suffix_refl.
  - intros i x Hx. exists x. rewrite lookup_insert_ne by congruence. by split_and!.
  - intros i x Hno Hx. destruct (decide (i = next_id w)) as [->|Hne].
    + rewrite lookup_insert_eq in Hx. injection Hx as <-. rewrite Hst, Hs. split; [done|congruence].
    + rewrite lookup_insert_ne in Hx by done. congruence.
  - intros i x Hx. exists x. by split_and!.
  - intros _ i x Hx. unfold row_wf. rewrite Hcb in Hx. rewrite Hnext, Hleads.
    destruct (decide (i = next_id w)) as [->|Hne].
    + rewrite lookup_insert_eq in Hx. injection Hx as <-. split; [done|]. split; [lia|].
      exists l. rewrite Hlead, Hten. split; [done|congruence].
    + rewrite lookup_insert_ne in Hx by done. destruct (Hw i x Hx) as (H1 & H2 & H3). split_and!; [done|lia|done].
Qed.

(** The moves the operations make. *)
Lemma evolves_with_status id s c : R id (cb_status c) s → evolves (R id) c (with_status s c).
Proof. by split. Qed.

Lemma evolves_with_user id u c : evolves (R id) c (with_user u c).
Proof. by split. Qed.

Lemma evolves_with_time id t c : evolves (R id) c (with_time t c).
Proof. by split. Qed.

End effects.

(** The lead of a callback. *)
Lemma wf_lead w id c l :
  wf w → callbacks w !! id = Some c → leads w !! cb_leadId c = Some l → ld_tenantId l = cb_tenantId c.
Proof. intros Hw Hc Hl. destruct (Hw id c Hc) as (_ & _ & l' & Hl' & Ht). congruence. Qed.

Lemma guard_open s s' : guardTransition s s' = Ok () → open_status s.
Proof. destruct s; [by left|by right|done..]. Qed.

(** Splits the final state into the calls that made it. *)
Ltac by_calls :=
  repeat match goal with
         | |- effect _ ?t ?w ?w => reflexivity
         | |- effect _ ?t ?w (set_audit _ ?w1) => transitivity w1; [|by apply effect_audit; [apply _|]]
         | |- effect _ ?t ?w (set_events _ ?w1) => transitivity w1; [|by apply effect_event; [apply _|]]
         | |- effect _ ?t ?w (set_notices _ ?w1) => transitivity w1; [|by apply effect_notice; [apply _|]]
         | Hw : wf ?w, Hc : callbacks ?w !! _ = Some ?c, Hl : _ !! cb_leadId ?c = Some ?l
             |- effect _ ?t ?w (set_leads (insert (cb_leadId ?c) ?l') ?w1) =>
             transitivity w1;
               [|eapply (effect_lead (allowed _));
                  [exact Hl|(etrans; [exact (wf_lead w _ c l Hw Hc Hl)|done])..]]
         | Hc : callbacks ?w !! ?id = Some ?c |- effect _ ?t ?w (set_callbacks (insert ?id ?c') ?w) =>
             eapply (effect_update (allowed _)); [exact Hc|done|]
         | |- effect _ ?t ?w (update_all ?p ?f ?w) => apply effect_all; [apply _|intros i c Hc Hp; split]
         end.

(** ** The requests *)

Section system.
Variable agentStatus : Z → Z → option string.
Variable isNew : Z → bool.

(** The routes in front of the service: the admin ones ask for a supervisor. *)
Definition handle (now : Z) (r : Request) : M unit :=
  match r with
  | Create actor body => createCallback now actor body;; mret ()
  | Snooze actor id at_ comments => snoozeCallback now actor id at_ comments;; mret ()
  | Cancel actor id => cancelCallback now actor id
  | Claim actor id => claimCallback now actor id;; mret ()
  | Reassign actor id u => requireSupervisor actor;; reassignCallback now actor id u;; mret ()
  | BulkReassign actor body => requireSupervisor actor;; bulkReassignCallbacks now actor body;; mret ()
  | BulkCancel actor ids => requireSupervisor actor;; bulkCancelCallbacks now actor ids;; mret ()
  | NoAnswer tenantId id policy => onNoAnswer now tenantId id policy
  | FireTick locked grace tenantId => callbackFireTick agentStatus now locked grace tenantId;; mret ()
  | StaleTick locked threshold tenantId => callbackStaleTick isNew now locked threshold tenantId
  | UpcomingTick locked tenantId => callbackUpcomingTick agentStatus isNew now locked tenantId
  | InboundNoAnswer id tenantId ingroupId policy => onNoAnswerInbound now id tenantId ingroupId policy
  | InboundCreate tenantId ingroupId number leadId wait comments path =>
      createInboundCallback now tenantId ingroupId number leadId wait comments path;; mret ()
  | InboundDefer id at_ => deferInboundCallback id at_
  end.

Lemma cancel_effect w now actor id r w' :
  wf w → cancelCallback now actor id w = Ok (r, w') →
  effect (allowed (Cancel actor id)) (actor_tenantId actor) w w'.
Proof.
  intros Hw H. unfold cancelCallback, cancel_check, cancel_commit in H. run H; found; by_calls;
    apply evolves_with_status; right; cbn; eauto using guard_open.
Qed.

Lemma snooze_effect w now actor id at_ s r w' :
  wf w → snoozeCallback now actor id at_ s w = Ok (r, w') →
  effect (allowed (Snooze actor id at_ s)) (actor_tenantId actor) w w'.
Proof.
  intros Hw H. unfold snoozeCallback, snooze_check, snooze_commit in H. run H; found; by_calls.
  split; try done. right. cbn. eauto using guard_open.
Qed.

Lemma claim_effect w now actor id r w' :
  wf w → claimCallback now actor id w = Ok (r, w') →
  effect (allowed (Claim actor id)) (actor_tenantId actor) w w'.
Proof.
  intros Hw H. unfold claimCallback in H. run H; found; by_calls; [naive_solver|apply (evolves_with_user (allowed _))].
Qed.

Lemma reassign_effect w now actor id u r w' :
  wf w → reassignCallback now actor id u w = Ok (r, w') →
  effect (allowed (Reassign actor id u)) (actor_tenantId actor) w w'.
Proof.
  intros Hw H. unfold reassignCallback in H. destruct u as [u|]; run H; found; by_calls; apply (evolves_with_user (allowed _)).
Qed.

Lemma bulkReassign_effect w now actor body r w' :
  wf w → bulkReassignCallbacks now actor body w = Ok (r, w') →
  effect (allowed (BulkReassign actor body)) (actor_tenantId actor) w w'.
Proof.
  intros Hw H. unfold bulkReassignCallbacks in H.
  run H; by_calls; try apply (evolves_with_user (allowed _)); naive_solver.
Qed.

Lemma bulkCancel_effect w now actor ids r w' :
  wf w → bulkCancelCallbacks now actor ids w = Ok (r, w') →
  effect (allowed (BulkCancel actor ids)) (actor_tenantId actor) w w'.
Proof.
  intros Hw H. unfold bulkCancelCallbacks in H.
  run H; by_calls; try apply evolves_with_status; try naive_solver;
    (right; cbn; destruct (Hw i c Hc) as (<- & _); naive_solver).
Qed.

Lemma noAnswer_effect w now tenantId id policy r w' :
  wf w → onNoAnswer now tenantId id policy w = Ok (r, w') →
  effect (allowed (NoAnswer tenantId id policy)) tenantId w w'.
Proof.
  intros Hw H. unfold onNoAnswer in H. run H. destruct x as [cb|]; [|by run H; by_calls].
  destruct (decide (cb_status cb ≠ LIVE)) as [|Hlive%dec_stable]; [by run H; by_calls|].
  destruct policy; run H; found; by_calls;
    (split; try done; right; by cbn).
Qed.

Lemma inboundNoAnswer_effect w now tenantId id ing policy r w' :
  wf w → onNoAnswerInbound now id tenantId ing policy w = Ok (r, w') →
  effect (allowed (InboundNoAnswer id tenantId ing policy)) tenantId w w'.
Proof.
  intros Hw H. unfold onNoAnswerInbound in H. run H. destruct x as [cb|]; [|by run H; by_calls].
  destruct (decide (cb_status cb ≠ LIVE)) as [|Hlive%dec_stable]; [by run H; by_calls|].
  destruct policy; run H; found; by_calls;
    (split; try done; right; by cbn).
Qed.

Lemma create_effect w now actor body r w' :
  wf w → createCallback now actor body w = Ok (r, w') →
  effect (allowed (Create actor body)) (actor_tenantId actor) w w'.
Proof.
  intros Hw H. unfold createCallback in H. apply M_bind_ok in H as (? & ? & [_ ->]%check_ok & H).
  apply M_bind_ok in H as (u & ? & [Hu ->]%check_ok & H).
  apply M_bind_ok in H as (o & ? & [-> ->]%gets_ok & H).
  apply M_bind_ok in H as (lead & ? & [Hlead ->]%required_ok & H).
  destruct (leads w !! lead_id body) as [l|] eqn:El; [|done].
  destruct (decide (ld_tenantId l = actor_tenantId actor ∧ ld_deletedAt l = None)) as [[Hlt _]|]; [|done].
  injection Hlead as ->.
  apply M_bind_ok in H as (? & ? & [-> _]%check_user_ok & H).
  apply M_bind_ok in H as (cb & w1 & Hcreate & H).
  assert (He : effect (allowed (Create actor body)) (actor_tenantId actor) w w1)
    by (by eapply (effect_create (allowed _)); [exact Hw|exact Hcreate|..|exact El|]).
  apply createRow_ok in Hcreate as (_ & _ & _ & _ & _ & _ & _ & _ & _ & Hleads & _).
  transitivity w1; [done|]. run H; by_calls.
  match goal with Hx : leads w1 !! _ = Some ?l0 |- _ => rename Hx into Hl0; assert (l0 = lead) as -> by congruence end.
  by eapply (effect_lead (allowed _)); [exact Hl0|..].
Qed.

(** A row read earlier in the run of a worker. *)
Definition tracks (t : Z) (w : World) (cb : Callback) : Prop :=
  ∃ c, callbacks w !! cb_id cb = Some c ∧ cb_tenantId c = t ∧ cb_tenantId cb = t ∧
    cb_leadId c = cb_leadId cb.

Lemma tracks_effect R t w w' cb : effect R t w w' → tracks t w cb → tracks t w' cb.
Proof.
  intros [He _ _ _ _ _ _] (c & Hc & Ht & Htb & Hl). destruct (He _ _ Hc) as (c' & Hc' & [] & _).
  exists c'. split_and!; congruence.
Qed.

Lemma promote_effect grace t w now cb warning r w' :
  wf w → tracks t w cb → promoteCallback agentStatus now cb warning w = Ok (r, w') →
  effect (allowed (FireTick true grace t)) t w w'.
Proof.
  intros Hw (c0 & Hc0 & Ht & Htb & Hl) H. unfold promoteCallback, promote_transaction in H.
  apply catch_ok in H as [H|H]; [|by run H].
  assert (Hall : effect (allowed (FireTick true grace t)) t w (update_all (λ c, cb_id c = cb_id cb ∧ cb_status c = PENDING) (with_status LIVE) w)).
  { apply (effect_all (allowed _)). intros i c Hc [Hid Hst]. destruct (Hw i c Hc) as (Hi & _).
    assert (c = c0) as -> by congruence. split; [done|].
    apply evolves_with_status. by right. }
  apply M_bind_ok in H as (done & w1 & H1 & H).
  assert (He : effect (allowed (FireTick true grace t)) t w w1).
  { run H1; [exact Hall|]. by_calls. transitivity (update_all (λ c, cb_id c = cb_id cb ∧ cb_status c = PENDING) (with_status LIVE) w); [done|].
    match goal with Hx : leads _ !! _ = Some ?l |- _ => change (leads w !! cb_leadId cb = Some l) in Hx;
      pose proof Hx as Hlead; rewrite <- Hl in Hx; pose proof (wf_lead w _ c0 l Hw Hc0 Hx) as Htl end.
    eapply (effect_lead (allowed _)); [exact Hlead|congruence|]. destruct (cb_userId cb); cbn; congruence. }
  transitivity w1; [exact He|].
  destruct done; cbn [negb] in H; [|by run H].
  apply M_bind_ok in H as (? & w2 & H2 & H). run H2.
  apply M_bind_ok in H as (? & w3 & H3 & H).
  apply M_bind_ok in H as (? & w4 & H4 & H). run H.
  transitivity w3; [transitivity (set_events (λ l, l ++ [event_with [("campaignId"%string, JStr (cb_campaignId cb))] now
         (match cb_userId cb with Some _ => "callback_fired_agent" | None => "callback_fired_global" end)
         (cb_tenantId cb) (cb_id cb) (cb_leadId cb) (cb_userId cb)]) w1)|].
  - by apply (effect_event (allowed _)).
  - destruct (cb_userId cb) as [u|]; [destruct (online _)|]; run H3; by_calls.
  - destruct (truthy_text warning); run H4; by_calls.
Qed.

Lemma loop_effect {S} R `{HR : ∀ id, PreOrder (R id)} t (f : S → Callback → M S) l w s s' w' :
  (∀ s cb w s' w', wf w → tracks t w cb → f s cb w = Ok (s', w') → effect R t w w') →
  wf w → Forall (tracks t w) l → for_eachM f s l w = Ok (s', w') → effect R t w w'.
Proof.
  intros Hf. revert s w. induction l as [|cb l IH]; intros s w Hw Hl H; cbn in H; [by run H|].
  apply Forall_cons in Hl as [Hcb Hl]. apply M_bind_ok in H as (s1 & w1 & H1 & H).
  assert (He : effect R t w w1) by (by eapply Hf). transitivity w1; [done|].
  apply (IH s1); [by apply He| |done]. eapply Forall_impl; [exact Hl|]. intros x. by eapply tracks_effect.
Qed.

Lemma where_elem p `{∀ c, base.Decision (p c)} w c :
  c ∈ callbacks_where p w ↔ (∃ i, callbacks w !! i = Some c) ∧ p c.
Proof.
  unfold callbacks_where, matching. rewrite list_elem_of_fmap. split.
  - intros ([i x] & -> & Hx%elem_of_map_to_list). apply map_lookup_filter_Some in Hx as [Hx Hp]. eauto.
  - intros [[i Hi] Hp]. exists (i, c). split; [done|]. apply elem_of_map_to_list, map_lookup_filter_Some. done.
Qed.

Lemma where_tracks p `{∀ c, base.Decision (p c)} t w :
  wf w → (∀ c, p c → cb_tenantId c = t) → Forall (tracks t w) (callbacks_where p w).
Proof.
  intros Hw Hp. apply Forall_forall. intros c [[i Hi] Hc]%where_elem.
  destruct (Hw i c Hi) as (Hid & _). exists c. rewrite Hid. by split_and!; try apply Hp.
Qed.

Lemma due_tracks t dueBy w : wf w → Forall (tracks t w) (due_callbacks t dueBy w).
Proof.
  intros Hw. unfold due_callbacks. apply Forall_take. rewrite sorting.merge_sort_Permutation.
  apply where_tracks; [done|]. naive_solver.
Qed.

Lemma fireTick_effect w now locked grace t r w' :
  wf w → callbackFireTick agentStatus now locked grace t w = Ok (r, w') →
  effect (allowed (FireTick locked grace t)) t w w'.
Proof.
  intros Hw H. unfold callbackFireTick in H. destruct locked; cbn [negb] in H; [|by run H].
  apply catch_ok in H as [H|H]; [|by run H]. apply M_bind_ok in H as (due & ? & [-> ->]%gets_ok & H).
  pose proof (due_tracks t (now + default 30 grace * 1000) w Hw) as Ht.
  destruct (due_callbacks _ _ _) as [|cb due]; [by run H|].
  apply M_bind_ok in H as (r' & w1 & H1 & H). run H.
  refine (loop_effect (allowed _) t _ _ _ _ _ _ _ Hw Ht H1). clear -agentStatus isNew.
  intros s cb w s' w' Hw Ht H. apply M_bind_ok in H as (tz & ? & [-> ->]%gets_ok & H).
  cbn [checkTcpaAtFireTime fire_one] in H. apply M_bind_ok in H as (p & w1 & H1 & H). run H.
  by eapply promote_effect.
Qed.

Lemma staleTick_effect w now locked threshold t r w' :
  wf w → callbackStaleTick isNew now locked threshold t w = Ok (r, w') →
  effect (allowed (StaleTick locked threshold t)) t w w'.
Proof.
  intros Hw H. unfold callbackStaleTick in H. destruct locked; cbn [negb] in H; [|by run H].
  apply M_bind_ok in H as (stale & ? & [-> ->]%gets_ok & H).
  refine (loop_effect (allowed _) t _ _ _ _ _ _ _ Hw (where_tracks _ t w Hw _) H); [|naive_solver].
  intros s cb w1 s' w2 _ _ H1. destruct (negb (isNew (cb_id cb))); run H1; by_calls.
Qed.

Lemma upcomingTick_effect w now locked t r w' :
  wf w → callbackUpcomingTick agentStatus isNew now locked t w = Ok (r, w') →
  effect (allowed (UpcomingTick locked t)) t w w'.
Proof.
  intros Hw H. unfold callbackUpcomingTick in H. destruct locked; cbn [negb] in H; [|by run H].
  apply M_bind_ok in H as (rows & ? & [-> ->]%gets_ok & H).
  refine (loop_effect (allowed _) t _ _ _ _ _ _ _ Hw (where_tracks _ t w Hw _) H); [|naive_solver].
  intros s cb w1 s' w2 _ _ H1. destruct (cb_userId cb) as [u|]; [|by run H1].
  destruct (decide (u = 0)); [by run H1|]. destruct (isNew (cb_id cb)), (online _); cbn [negb] in H1; run H1; by_calls.
Qed.

(** ** Every request *)

(** The tenant a request is served for. [InboundDefer] names none. *)
Definition request_tenant (r : Request) : option Z :=
  match r with
  | Create a _ | Snooze a _ _ _ | Cancel a _ | Claim a _ | Reassign a _ _ | BulkReassign a _
  | BulkCancel a _ => Some (actor_tenantId a)
  | NoAnswer t _ _ | FireTick _ _ t | StaleTick _ _ t | UpcomingTick _ t | InboundNoAnswer _ t _ _
  | InboundCreate t _ _ _ _ _ _ => Some t
  | InboundDefer _ _ => None
  end.

(** [createInboundCallback] is called with a lead of the caller's tenant. *)
Definition request_ok (w : World) (r : Request) : Prop :=
  match r with
  | InboundCreate t _ _ leadId _ _ _ => ∃ l, leads w !! leadId = Some l ∧ ld_tenantId l = t
  | _ => True
  end.

Lemma handle_effect w now r u w' t :
  wf w → request_ok w r → handle now r w = Ok (u, w') → request_tenant r = Some t →
  effect (allowed r) t w w'.
Proof.
  intros Hw Hr H Ht. destruct r; cbn in Ht; simplify_eq; cbn [handle] in H.
  - apply M_bind_ok in H as (? & ? & H & H2). run H2. by eapply create_effect.
  - apply M_bind_ok in H as (? & ? & H & H2). run H2. by eapply snooze_effect.
  - by eapply cancel_effect.
  - apply M_bind_ok in H as (? & ? & H & H2). run H2. by eapply claim_effect.
  - apply M_bind_ok in H as (? & ? & [_ ->]%guardM_ok & H).
    apply M_bind_ok in H as (? & ? & H & H2). run H2. by eapply reassign_effect.
  - apply M_bind_ok in H as (? & ? & [_ ->]%guardM_ok & H).
    apply M_bind_ok in H as (? & ? & H & H2). run H2. by eapply bulkReassign_effect.
  - apply M_bind_ok in H as (? & ? & [_ ->]%guardM_ok & H).
    apply M_bind_ok in H as (? & ? & H & H2). run H2. by eapply bulkCancel_effect.
  - by eapply noAnswer_effect.
  - apply M_bind_ok in H as (? & ? & H & H2). run H2. by eapply fireTick_effect.
  - by eapply staleTick_effect.
  - by eapply upcomingTick_effect.
  - by eapply inboundNoAnswer_effect.
  - apply M_bind_ok in H as (? & ? & H & H2). run H2. apply M_bind_ok in H as (? & ? & H1 & H). run H.
    destruct Hr as (l & Hl & Hlt). by eapply (effect_create (allowed _)).
Qed.

Lemma defer_effect w now id at_ u w' :
  handle now (InboundDefer id at_) w = Ok (u, w') →
  ∃ t, effect (allowed (InboundDefer id at_)) t w w'.
Proof.
  intros H. cbn in H. unfold deferInboundCallback in H. run H. eexists. by_calls. apply (evolves_with_time (allowed _)).
Qed.
End system.
