(* ===== verification/CallbackTheorems.v ===== *)
(** What the callback system guarantees: the life of a callback, the separation of
    tenants, what an agent may change, claiming, cancelling and firing; and the
    behaviours where it falls short. *)

From stdpp Require Import sorting.
From S2P Require Import Prelude Calendar Jcs Rbac CallbackDb Callbacks CallbackWorker CallbackSystem.

#[local] Open Scope Z_scope.

(** ** Runs *)

(** One request served alone: a request that throws leaves the state as it was. *)
Inductive step (w : World) : World → Prop :=
  | step_ok agentStatus isNew now r u w' :
      request_ok w r → handle agentStatus isNew now r w = Ok (u, w') → step w w'
  | step_err agentStatus isNew now r e :
      handle agentStatus isNew now r w = Err e → step w w.


Lemma request_effect agentStatus isNew w now r u w' :
  wf w → request_ok w r → handle agentStatus isNew now r w = Ok (u, w') →
  ∃ t, effect (allowed r) t w w'.
Proof.
  intros Hw Hr H. destruct (request_tenant r) as [t|] eqn:E; [by eexists; eapply handle_effect|].
  destruct r; try done. by eapply defer_effect.
Qed.

Lemma step_effect w w' : wf w → step w w' → ∃ r t, effect (allowed r) t w w'.
Proof.
  intros Hw [agentStatus isNew now r u w'' Hr H|agentStatus isNew now r e _].
  - exists r. by eapply request_effect.
  - exists r, 0. reflexivity.
Qed.


Lemma run_wf w w' : wf w → rtc step w w' → wf w'.
Proof.
  intros Hw Hr. induction Hr as [|w1 w2 w3 Hs _ IH]; [done|]. apply IH.
  destruct (step_effect w1 w2 Hw Hs) as (r & t & He). by apply He.
Qed.

Lemma terminal_stays s s' : s = DONE ∨ s = DEAD → rtc legal s s' → s' = s.
Proof. intros Hs Hr. destruct Hr as [|s s1 s2 Hl _]; [done|]. by destruct Hs as [-> | ->], s1. Qed.




(** ** What an agent may change *)

(** The actor of a request made by a user. *)
Definition request_actor (r : Request) : option Actor :=
  match r with
  | Create a _ | Snooze a _ _ _ | Cancel a _ | Claim a _ | Reassign a _ _ | BulkReassign a _
  | BulkCancel a _ => Some a
  | _ => None
  end.

(** What a request without a supervisor's role leaves of a callback. *)
Definition agent_kept (a : Actor) (w w' : World) : Prop :=
  ∀ id c c', callbacks w !! id = Some c → callbacks w' !! id = Some c' →
    c' = c ∨ cb_userId c = Some (uid a) ∨
    (cb_userId c = None ∧ open_status (cb_status c) ∧ c' = with_user (Some (uid a)) c).

Lemma create_keeps w now a body r w' id c :
  wf w → createCallback now a body w = Ok (r, w') → callbacks w !! id = Some c → callbacks w' !! id = Some c.
Proof.
  intros Hw H Hc. unfold createCallback in H. apply M_bind_ok in H as (? & ? & [_ ->]%check_ok & H).
  apply M_bind_ok in H as (u & ? & [Hu ->]%check_ok & H).
  apply M_bind_ok in H as (o & ? & [-> ->]%gets_ok & H).
  apply M_bind_ok in H as (lead & ? & [Hlead ->]%required_ok & H).
  apply M_bind_ok in H as (? & ? & [-> _]%check_user_ok & H).
  apply M_bind_ok in H as (cb & w1 & Hcreate & H).
  apply createRow_ok in Hcreate as (_ & _ & _ & _ & _ & _ & _ & Hcb & _).
  assert (Hc1 : callbacks w1 !! id = Some c).
  { rewrite Hcb, lookup_insert_ne; [done|]. destruct (Hw id c Hc) as (_ & ? & _). lia. }
  by run H.
Qed.

(** A change made by an update of one row. *)
Lemma updated_row a w w' id c d :
  callbacks w !! id = Some c → callbacks w' = <[id := d]> (callbacks w) →
  cb_userId c = Some (uid a) → agent_kept a w w'.
Proof.
  intros Hc Hcb Hu i x x' Hx Hx'. rewrite Hcb in Hx'. destruct (decide (i = id)) as [->|].
  - simplify_eq. auto.
  - rewrite lookup_insert_ne in Hx' by done. left. congruence.
Qed.

Lemma owner_only a u (b : bool) :
  b = false → (if b then true else match u with None => false | Some o => o =? uid a end) = true →
  u = Some (uid a).
Proof. intros -> H. destruct u as [o|]; [|done]. apply Z.eqb_eq in H. by subst. Qed.

Lemma snooze_keeps w now a id at_ s r w' :
  isSupervisor a = false → snoozeCallback now a id at_ s w = Ok (r, w') → agent_kept a w w'.
Proof.
  intros Ha H. unfold snoozeCallback, snooze_check, snooze_commit in H. run H; found.
  eapply updated_row; [done|reflexivity|]. by eapply owner_only.
Qed.

Lemma cancel_keeps w now a id r w' :
  isSupervisor a = false → cancelCallback now a id w = Ok (r, w') → agent_kept a w w'.
Proof.
  intros Ha H. unfold cancelCallback, cancel_check, cancel_commit in H.
  run H; found; (eapply updated_row; [done|reflexivity|]; by eapply owner_only).
Qed.

Lemma claim_keeps w now a id r w' :
  wf w → claimCallback now a id w = Ok (r, w') → agent_kept a w w'.
Proof.
  intros Hw H i x x' Hx Hx'. unfold claimCallback in H. run H; found. cbn in Hx'.
  rewrite lookup_fmap, Hx in Hx'. cbn in Hx'. injection Hx' as <-.
  destruct (decide _) as [(_ & _ & Hu & Ho)|]; [|by left]. by right; right.
Qed.

(** C7: a request by an actor below supervisor changes a callback only when the actor
    owns it, or when it is open and owned by nobody, in which case the change is that
    the actor becomes its owner. *)
Theorem agent_authority agentStatus isNew w now r a u w' :
  wf w → request_actor r = Some a → isSupervisor a = false →
  handle agentStatus isNew now r w = Ok (u, w') → agent_kept a w w'.
Proof.
  intros Hw Hr Ha H. destruct r; cbn in Hr; simplify_eq; cbn [handle] in H;
    try (apply M_bind_ok in H as (? & ? & [Hs ->]%guardM_ok & H);
         change (isSupervisor a = true) in Hs; congruence).
  - apply M_bind_ok in H as (? & ? & H & H2). run H2. intros i c c' Hc Hc'.
    pose proof (create_keeps _ _ _ _ _ _ i c Hw H Hc). left. congruence.
  - apply M_bind_ok in H as (? & ? & H & H2). run H2. by eapply snooze_keeps.
  - by eapply cancel_keeps.
  - apply M_bind_ok in H as (? & ? & H & H2). run H2. by eapply claim_keeps.
Qed.

(** ** Claiming *)

(** Updating the rows that satisfy [p] is updating row [id], when that is the only one. *)
Lemma update_all_one p `{∀ c, base.Decision (p c)} f w id c :
  callbacks w !! id = Some c → p c → (∀ i x, callbacks w !! i = Some x → p x → i = id) →
  update_all p f w = set_callbacks (insert id (f c)) w ∧ size (matching p w) = 1%nat.
Proof.
  intros Hc Hp Ho. split.
  - unfold update_all, set_callbacks. f_equal. apply map_eq. intros i. rewrite lookup_fmap.
    destruct (decide (i = id)) as [->|Hne].
    + rewrite lookup_insert_eq, Hc. cbn. by rewrite decide_True by done.
    + rewrite lookup_insert_ne by done. destruct (callbacks w !! i) as [x|] eqn:E; [|done]. cbn.
      f_equal. apply decide_False. intros Hx. by apply Hne, (Ho i x).
  - assert (matching p w = {[id := c]}) as ->; [|apply map_size_singleton].
    apply map_eq. intros i. apply option_eq. intros x. unfold matching.
    rewrite map_lookup_filter_Some, lookup_singleton_Some. cbn. split; [|naive_solver].
    intros [Hx Hpx]. pose proof (Ho i x Hx Hpx) as ->. naive_solver.
Qed.

Lemma matching_none p `{∀ c, base.Decision (p c)} w :
  (∀ i x, callbacks w !! i = Some x → ¬ p x) → matching p w = ∅.
Proof.
  intros Hn. apply map_eq. intros i. rewrite lookup_empty. unfold matching.
  apply map_lookup_filter_None. right. intros x Hx. exact (Hn i x Hx).
Qed.

(** The state after a claim that succeeded. *)
Definition claimed (now : Z) (a : Actor) (id : Z) (c : Callback) (w : World) : World :=
  set_events (λ l, l ++ [callback_event now "callback_claimed" (actor_tenantId a) id (cb_leadId c) (Some (uid a))])
    (set_audit (λ l, l ++ [user_audit a now "callback.claimed" (zs id)
                             (JObj [("claimed_by", JNum (uid a))]%string)])
       (set_callbacks (insert id (with_user (Some (uid a)) c)) w)).

(** What a claim is meant to answer, from the callback the actor's tenant has. *)
Definition claim_answer (now : Z) (a : Actor) (id : Z) (w : World) : result ApiError (Json * World) :=
  match callbacks w !! id with
  | Some c =>
      if decide (cb_tenantId c = actor_tenantId a) then
        if decide (open_status (cb_status c)) then
          match cb_userId c with
          | None => Ok (serializeCallback now (with_user (Some (uid a)) c) None, claimed now a id c w)
          | Some u => Err (HttpError 409 "already_claimed" (Some (zs u)))
          end
        else Err (HttpError 409 "callback_terminal" None)
      else Err (HttpError 404 "callback_not_found" None)
  | None => Err (HttpError 404 "callback_not_found" None)
  end.

Lemma claim_refused w now a id :
  (∀ i x, callbacks w !! i = Some x → ¬ (cb_id x = id ∧ cb_tenantId x = actor_tenantId a ∧
     cb_userId x = None ∧ open_status (cb_status x))) →
  claimCallback now a id w =
    match callbacks w !! id with
    | Some c =>
        if decide (cb_tenantId c = actor_tenantId a) then
          if decide (cb_status c = DONE ∨ cb_status c = DEAD) then Err (HttpError 409 "callback_terminal" None)
          else Err (HttpError 409 "already_claimed"
                 (Some match cb_userId c with Some u => zs u | None => "null"%string end))
        else Err (HttpError 404 "callback_not_found" None)
    | None => Err (HttpError 404 "callback_not_found" None)
    end.
Proof.
  intros Hn. unfold claimCallback, assignManyCallbacks. cbv beta zeta.
  unfold mbind, M_bind, findCallback, gets. rewrite matching_none by exact Hn.
  rewrite decide_True by done. cbn [decide]. rewrite decide_True by done. cbn.
  destruct (callbacks w !! id) as [c|]; [|done]. destruct (decide (cb_tenantId c = _)); [|done]. cbn.
  by destruct (decide _).
Qed.

(** Claiming a callback, on every branch: an open callback of the actor's tenant that
    nobody owns becomes the actor's, with one audit row and one event; an owned one is
    refused as already claimed, naming the owner; a terminal one is refused as
    terminal; any other identifier is not found.  A refusal changes nothing. *)
Theorem claim_outcome now a id w :
  wf w → is_Some (users w !! uid a) → claimCallback now a id w = claim_answer now a id w.
Proof.
  intros Hw Hu. unfold claim_answer.
  set (p c := cb_id c = id ∧ cb_tenantId c = actor_tenantId a ∧ cb_userId c = None ∧ open_status (cb_status c)).
  assert (Hkey : ∀ i x, callbacks w !! i = Some x → cb_id x = id → i = id).
  { intros i x Hx <-. by destruct (Hw i x Hx) as (-> & _). }
  assert (Hrefused := claim_refused w now a id).
  destruct (callbacks w !! id) as [c|] eqn:Hc.
  2: { apply Hrefused. intros i x Hx (E & _). rewrite (Hkey i x Hx E) in Hx. congruence. }
  destruct (decide (p c)) as [Hp|Hp].
  - destruct (update_all_one p (with_user (Some (uid a))) w id c Hc Hp) as [Hupd Hsize].
    { intros i x Hx (E & _). by eapply Hkey. }
    destruct Hp as (Hid & -> & -> & Ho). rewrite !decide_True by done. clear Hrefused.
    unfold claimCallback. rewrite (M_bind_eq _ _ w _ _ (assignMany_eq p _ w Hu)). rewrite Hsize, Hupd.
    rewrite decide_False by done. unfold mbind, M_bind, gets, required. cbn. by rewrite lookup_insert_eq.
  - rewrite Hrefused.
    + destruct (decide (cb_tenantId c = _)) as [Ht|]; [|done]. unfold p in *. unfold open_status in *.
      destruct (Hw id c Hc) as (Hid & _).
      destruct (decide (_ ∨ _)) as [Hd|Hd], (decide (_ ∨ _)) as [Ho|Ho], (cb_userId c) eqn:Eu,
        (cb_status c) eqn:Es; first [reflexivity|exfalso; clear Hrefused Hkey Hw; intuition congruence].
    + intros i x Hx Hpx. pose proof (Hkey i x Hx (proj1 Hpx)) as ->. by simplify_eq.
Qed.

(** ** Cancelling *)

(** Another open callback holds the lead of callback [id]. *)
Definition held_by_other (w : World) (id : Z) (c : Callback) : Prop :=
  ∃ i x, callbacks w !! i = Some x ∧ i ≠ id ∧ cb_leadId x = cb_leadId c ∧ open_status (cb_status x).

Lemma matching_zero p `{∀ c, base.Decision (p c)} w :
  Z.of_nat (size (matching p w)) = 0 ↔ ∀ i x, callbacks w !! i = Some x → ¬ p x.
Proof.
  split.
  - intros Hs i x Hx Hp. assert (Hm : matching p w = ∅) by (apply map_size_empty_iff; lia).
    unfold matching in Hm. by apply (map_filter_empty_not_lookup _ _ i x Hm Hp).
  - intros Hn. by rewrite (matching_none p w Hn), map_size_empty.
Qed.

(** Rows of the same lead are of the same tenant. *)
Lemma same_lead_tenant w i j x y :
  wf w → callbacks w !! i = Some x → callbacks w !! j = Some y → cb_leadId x = cb_leadId y →
  cb_tenantId x = cb_tenantId y.
Proof.
  intros Hw Hx Hy E. destruct (Hw i x Hx) as (_ & _ & l & Hl & <-), (Hw j y Hy) as (_ & _ & l' & Hl' & <-).
  congruence.
Qed.

(** The callbacks [cancel_commit] counts are those that hold the lead. *)
Lemma remaining_zero w id c t :
  wf w → callbacks w !! id = Some c → cb_tenantId c = t →
  Z.of_nat (size (matching (λ x, cb_tenantId x = t ∧ cb_leadId x = cb_leadId c ∧ open_status (cb_status x) ∧
                                  cb_id x ≠ id) (set_callbacks (insert id (with_status DEAD c)) w))) = 0 ↔
  ¬ held_by_other w id c.
Proof.
  intros Hw Hc Ht. rewrite matching_zero. cbn [callbacks set_callbacks]. split.
  - intros Hn (i & x & Hx & Hne & Hl & Ho). apply (Hn i x).
    + by rewrite lookup_insert_ne by congruence.
    + destruct (Hw i x Hx) as (Hid & _). split_and!; try done; [|congruence].
      rewrite <- Ht. by eapply same_lead_tenant.
  - intros Hn i x Hx (_ & Hl & Ho & Hid). apply Hn. destruct (decide (i = id)) as [->|Hne].
    + rewrite lookup_insert_eq in Hx. injection Hx as <-. by destruct Ho.
    + rewrite lookup_insert_ne in Hx by congruence. by exists i, x.
Qed.

Definition may_cancel (w : World) (a : Actor) (id : Z) (c : Callback) : Prop :=
  callbacks w !! id = Some c ∧ cb_tenantId c = actor_tenantId a ∧ open_status (cb_status c) ∧
  (isSupervisor a = true ∨ cb_userId c = Some (uid a)).

Lemma canCancel_spec a u : canCancel a u = true ↔ isSupervisor a = true ∨ u = Some (uid a).
Proof.
  unfold canCancel. destruct (isSupervisor a); [naive_solver|]. destruct u as [o|]; [|naive_solver].
  rewrite Z.eqb_eq. naive_solver.
Qed.

Lemma guard_dead s : guardTransition s DEAD = Ok () ↔ open_status s.
Proof.
  unfold open_status. destruct s; split; intros H; try reflexivity; try discriminate H;
    [by left|by right|by destruct H..].
Qed.

Lemma cancel_check_spec w a id c w' :
  cancel_check a id w = Ok (c, w') ↔ w' = w ∧ may_cancel w a id c.
Proof.
  unfold may_cancel. rewrite <- canCancel_spec. split.
  - intros H. unfold cancel_check in H. run H; found. split_and!; try done. by apply guard_dead.
  - intros (-> & Hc & Ht & Ho & Hp). unfold cancel_check.
    assert (Hf : findCallback id (actor_tenantId a) w = Ok (Some c, w)).
    { unfold findCallback, gets. by rewrite Hc, decide_True by done. }
    rewrite (M_bind_eq _ _ _ _ _ Hf). unfold mbind, M_bind, required, guardM, mret, M_ret. rewrite Hp.
    by rewrite (proj2 (guard_dead _) Ho).
Qed.

(** a cancellation succeeds exactly when the callback is an open one of the actor's
    tenant that the actor owns or supervises; it then marks the callback DEAD, gives
    the lead the status NA exactly when no other open callback holds it, and writes
    one audit row and one event; every other callback and lead is as it was. *)
Theorem cancel_outcome w now a id :
  wf w →
  (∀ u w', cancelCallback now a id w = Ok (u, w') → ∃ c, may_cancel w a id c) ∧
  (∀ c, may_cancel w a id c → ∃ w', cancelCallback now a id w = Ok ((), w') ∧
     callbacks w' = <[id := with_status DEAD c]> (callbacks w) ∧
     (held_by_other w id c → leads w' = leads w) ∧
     (¬ held_by_other w id c → ∃ l, leads w !! cb_leadId c = Some l ∧
        leads w' = <[cb_leadId c := with_lead_status "NA" now l]> (leads w)) ∧
     (∃ e, auditLog w' = auditLog w ++ [e] ∧ au_action e = "callback.cancelled"%string ∧
        au_entityId e = zs id ∧ au_actorUserId e = Some (uid a)) ∧
     events w' = events w ++ [callback_event now "callback_cancelled" (actor_tenantId a) id (cb_leadId c) (cb_userId c)]).
Proof.
  intros Hw. split.
  - intros u w' H. unfold cancelCallback in H. apply M_bind_ok in H as (c & w1 & Hc & _).
    exists c. by apply cancel_check_spec in Hc as [-> Hc].
  - intros c Hm. destruct (Hm) as (Hc & Ht & _). destruct (Hw id c Hc) as (_ & _ & l & Hl & _).
    pose proof (remaining_zero w id c _ Hw Hc Ht) as Hrem.
    unfold cancelCallback. rewrite (M_bind_eq _ _ _ _ _ (proj2 (cancel_check_spec w a id c w) (conj eq_refl Hm))).
    unfold cancel_commit. cbv zeta.
    rewrite (M_bind_eq _ _ w (with_status DEAD c) (set_callbacks (insert id (with_status DEAD c)) w))
      by (unfold updateCallback; by rewrite Hc).
    erewrite M_bind_eq by reflexivity. cbv beta.
    destruct (decide (Z.of_nat _ = 0)) as [E|E].
    + pose proof (proj1 Hrem E) as Hno. unfold mbind, M_bind, updateLead. cbn. rewrite Hl. eexists.
      split; [reflexivity|]. cbn. split_and!; [done|done|by eauto| |done]. by eexists.
    + unfold mbind, M_bind. cbn. eexists. split; [reflexivity|]. cbn. split_and!; [done|done| | |done].
      * intros Hno. by apply Hrem in Hno.
      * by eexists.
Qed.

(** ** Firing *)

(** [w'] is [w] after the callbacks [l] went live. *)
Record went_live (l : list Callback) (w w' : World) : Prop := {
  wl_wf : wf w';
  wl_rows : ∀ c, c ∈ l → callbacks w' !! cb_id c = Some (with_status LIVE c);
  wl_others : ∀ i, i ∉ cb_id <$> l → callbacks w' !! i = callbacks w !! i;
  wl_leads : ∀ c, c ∈ l → ∃ k, leads w' !! cb_leadId c = Some k ∧ ld_status k = "CALLBK"%string;
  wl_kept : ∀ i, i ∉ cb_leadId <$> l → leads w' !! i = leads w !! i;
}.

Lemma promote_live agentStatus now cb w :
  wf w → callbacks w !! cb_id cb = Some cb → cb_status cb = PENDING →
  ∃ w', promoteCallback agentStatus now cb None w = Ok (mkPromote true None, w') ∧ went_live [cb] w w'.
Proof.
  intros Hw Hc Hs. destruct (Hw _ cb Hc) as (_ & _ & k & Hk & Hkt).
  destruct (update_all_one (λ c, cb_id c = cb_id cb ∧ cb_status c = PENDING) (with_status LIVE) w (cb_id cb) cb Hc)
    as [Hupd Hsize]; [done| |].
  { intros i x Hx [E _]. by destruct (Hw i x Hx) as (<- & _). }
  set (l' := match cb_userId cb with
             | Some u => with_owner u (with_lead_status "CALLBK" now k)
             | None => with_lead_status "CALLBK" now k end).
  set (w1 := set_leads (insert (cb_leadId cb) l') (update_all (λ c, cb_id c = cb_id cb ∧ cb_status c = PENDING) (with_status LIVE) w)).
  assert (Hl' : ld_status l' = "CALLBK"%string) by (unfold l'; by destruct (cb_userId cb)).
  assert (Htx : ∃ a, promote_transaction now cb None w = Ok (true, set_audit (λ l, l ++ [a]) w1)).
  { unfold promote_transaction. eexists. unfold updateManyCallbacks.
    erewrite M_bind_eq by reflexivity. rewrite Hsize, decide_False by done.
    erewrite M_bind_eq by (unfold updateLead; cbn [leads set_callbacks]; rewrite Hk; reflexivity).
    reflexivity. }
  destruct Htx as [a Htx].
  assert (He : ∃ w', promoteCallback agentStatus now cb None w = Ok (mkPromote true None, w')).
  { unfold promoteCallback, catch. rewrite (M_bind_eq _ _ _ _ _ Htx). cbn [negb].
    unfold mbind, M_bind. destruct (cb_userId cb); [destruct (online _)|]; cbn; by eexists. }
  destruct He as [w' He]. exists w'. split; [done|].
  assert (Hcl : callbacks w' = callbacks w1 ∧ leads w' = leads w1).
  { unfold promoteCallback, catch in He. rewrite (M_bind_eq _ _ _ _ _ Htx) in He. cbn [negb] in He.
    unfold mbind, M_bind in He. destruct (cb_userId cb); [destruct (online _)|]; cbn in He; by simplify_eq. }
  destruct Hcl as [Hcb Hld]. unfold w1 in Hcb, Hld. cbn [set_leads callbacks leads] in Hcb, Hld.
  rewrite Hupd in Hcb, Hld. cbn [set_callbacks callbacks leads] in Hcb, Hld.
  split.
  - eapply (ef_wf (allowed (FireTick true None (cb_tenantId cb))) (cb_tenantId cb) w w'); [|done]. eapply (promote_effect agentStatus); [done| |exact He].
    exists cb. by split_and!.
  - intros c ->%list_elem_of_singleton. by rewrite Hcb, lookup_insert_eq.
  - intros i Hi. cbn in Hi. rewrite Hcb, lookup_insert_ne; [done|]. intros <-. apply Hi. by left.
  - intros c ->%list_elem_of_singleton. exists l'. by rewrite Hld, lookup_insert_eq.
  - intros i Hi. cbn in Hi. rewrite Hld, lookup_insert_ne; [done|]. intros <-. apply Hi. by left.
Qed.

Lemma went_live_cons cb l w w1 w' :
  cb_id cb ∉ cb_id <$> l → went_live [cb] w w1 → went_live l w1 w' → went_live (cb :: l) w w'.
Proof.
  intros Hnd [_ R1 O1 L1 K1] [W R O L K]. split; [done|..].
  - intros c [->|Hc]%elem_of_cons; [|by apply R]. rewrite O by done. apply R1. by left.
  - intros i Hi. cbn in Hi. apply not_elem_of_cons in Hi as [Hi1 Hi]. rewrite O by done. apply O1.
    cbn. by rewrite list_elem_of_singleton.
  - intros c Hc. destruct (decide (cb_leadId c ∈ cb_leadId <$> l)) as [(x & Hx & Hxl)%list_elem_of_fmap|Hno].
    + rewrite Hx. by apply L.
    + apply elem_of_cons in Hc as [->|Hc]; [|by apply L]. rewrite K by done. apply L1. by left.
  - intros i Hi. cbn in Hi. apply not_elem_of_cons in Hi as [Hi1 Hi]. rewrite K by done. apply K1.
    cbn. by rewrite list_elem_of_singleton.
Qed.

(** A list of callbacks as the database holds them, all PENDING. *)
Definition pending_rows (w : World) (l : list Callback) : Prop :=
  NoDup (cb_id <$> l) ∧ ∀ c, c ∈ l → callbacks w !! cb_id c = Some c ∧ cb_status c = PENDING.

Lemma fire_loop agentStatus now l acc w :
  wf w → pending_rows w l →
  ∃ w', for_eachM (λ acc cb,
          tz ← gets (λ w, leads w !! cb_leadId cb ≫= ld_knownTimezone);
          fire_one agentStatus now (checkTcpaAtFireTime tz now) acc cb) acc l w
        = Ok (mkTick (fired acc + Z.of_nat (length l)) (deferred acc) (errors acc), w') ∧ went_live l w w'.
Proof.
  revert acc w. induction l as [|cb l IH]; intros acc w Hw [Hnd Hrows].
  - exists w. cbn [for_eachM]. split; [|by split; try (intros ? []%elem_of_nil)].
    unfold mret, M_ret. destruct acc; cbn. by rewrite Z.add_0_r.
  - apply NoDup_cons in Hnd as [Hni Hnd]. destruct (Hrows cb ltac:(by left)) as [Hc Hs].
    destruct (promote_live agentStatus now cb w Hw Hc Hs) as (w1 & H1 & Hl1).
    destruct (IH (mkTick (fired acc + 1) (deferred acc) (errors acc)) w1) as (w' & Hw' & Hl); [apply Hl1| |].
    { split; [done|]. intros c Hcl. rewrite (wl_others _ _ _ Hl1); [by apply Hrows; right|].
      cbn. rewrite list_elem_of_singleton. intros E. apply Hni. rewrite <- E. by apply list_elem_of_fmap_2. }
    exists w'. split; [|by eapply went_live_cons].
    cbn [for_eachM]. erewrite M_bind_eq.
    + etrans; [exact Hw'|]. cbn [fired deferred errors length]. do 3 f_equal. lia.
    + erewrite M_bind_eq by reflexivity. cbn [checkTcpaAtFireTime fire_one].
      rewrite (M_bind_eq _ _ _ _ _ H1). reflexivity.
Qed.

Lemma where_NoDup p `{∀ c, base.Decision (p c)} w : wf w → NoDup (cb_id <$> callbacks_where p w).
Proof.
  intros Hw. unfold callbacks_where. rewrite <- list_fmap_compose.
  assert (E : (cb_id ∘ snd) <$> map_to_list (matching p w) = (map_to_list (matching p w)).*1).
  { apply list_fmap_ext. intros n [i x] Hx. cbn. apply list_elem_of_lookup_2, elem_of_map_to_list in Hx.
    apply map_lookup_filter_Some in Hx as [Hx _]. by destruct (Hw i x Hx). }
  rewrite E. apply NoDup_fst_map_to_list.
Qed.

Lemma due_pending t dueBy w : wf w → pending_rows w (due_callbacks t dueBy w).
Proof.
  intros Hw. unfold due_callbacks. split.
  - rewrite fmap_take. eapply sublist_NoDup; [|apply sublist_take].
    rewrite sorting.merge_sort_Permutation. by apply where_NoDup.
  - intros c Hc. apply elem_of_take in Hc as (i & Hi & _). apply list_elem_of_lookup_2 in Hi.
    rewrite sorting.merge_sort_Permutation in Hi. apply where_elem in Hi as [[j Hj] (_ & Hs & _)].
    destruct (Hw j c Hj) as (-> & _). done.
Qed.

(** C5: a tick that holds the lock fires every due callback it selects (the oldest 500
    PENDING callbacks of agents and campaigns due within the grace window): none fails,
    each goes LIVE and its lead gets the status CALLBK, the count says how many, every
    other callback and lead is as it was, and a second tick at the same instant selects
    none of them again. *)
Theorem tick_fires_due agentStatus now grace t w :
  wf w →
  let dueBy := now + default 30 grace * 1000 in
  let due := due_callbacks t dueBy w in
  due ≠ [] →
  ∃ w', callbackFireTick agentStatus now true grace t w = Ok (Some (mkTick (Z.of_nat (length due)) 0 0), w') ∧
    went_live due w w' ∧
    (∀ c, c ∈ due_callbacks t dueBy w' → cb_id c ∉ cb_id <$> due).
Proof.
  intros Hw dueBy due Hne.
  destruct (fire_loop agentStatus now due (mkTick 0 0 0) w Hw (due_pending t dueBy w Hw)) as (w' & Hl & Hlive).
  exists w'. split_and!; [|done|].
  - unfold callbackFireTick, catch. cbn [negb]. erewrite M_bind_eq by reflexivity. fold dueBy due.
    destruct due as [|cb l]; [done|]. by rewrite (M_bind_eq _ _ _ _ _ Hl).
  - intros c Hc (x & E & Hx)%list_elem_of_fmap.
    destruct (proj2 (due_pending t dueBy w' (wl_wf _ _ _ Hlive)) c Hc) as [Hrow Hs].
    rewrite E, (wl_rows _ _ _ Hlive x Hx) in Hrow. injection Hrow as <-. done.
Qed.

(** ** The disposition hook *)

(** the no-answer hook does nothing unless the tenant has the callback and it is LIVE;
    then [leave_callbk] leaves callbacks and leads as they are, [reschedule_24h] makes
    the callback PENDING a day after its last due time and its lead CBHOLD, and
    [terminate_NA] makes it DONE and the lead NA, whether or not another open callback
    holds that lead. *)
Theorem no_answer_outcome w now tenantId id policy :
  wf w →
  match callbacks w !! id with
  | Some c =>
      if decide (cb_tenantId c = tenantId ∧ cb_status c = LIVE) then
        ∃ w' l, onNoAnswer now tenantId id policy w = Ok ((), w') ∧ leads w !! cb_leadId c = Some l ∧
          match policy with
          | leave_callbk => callbacks w' = callbacks w ∧ leads w' = leads w
          | reschedule_24h =>
              callbacks w' = <[id := with_status PENDING (with_time (cb_callbackAt c + 86400000) c)]> (callbacks w) ∧
              leads w' = <[cb_leadId c := with_lead_status "CBHOLD" now l]> (leads w)
          | terminate_NA =>
              callbacks w' = <[id := with_status DONE c]> (callbacks w) ∧
              leads w' = <[cb_leadId c := with_lead_status "NA" now l]> (leads w)
          end
      else onNoAnswer now tenantId id policy w = Ok ((), w)
  | None => onNoAnswer now tenantId id policy w = Ok ((), w)
  end.
Proof.
  intros Hw. unfold onNoAnswer. destruct (callbacks w !! id) as [c|] eqn:Hc.
  2: { erewrite M_bind_eq by (unfold findCallback, gets; rewrite Hc; reflexivity). done. }
  erewrite M_bind_eq by (unfold findCallback, gets; rewrite Hc; reflexivity).
  destruct (decide (cb_tenantId c = tenantId)) as [Ht|Ht].
  2: { by rewrite decide_False by naive_solver. }
  destruct (decide (cb_status c ≠ LIVE)) as [Hs|Hs%dec_stable].
  { by rewrite decide_False by naive_solver. }
  rewrite decide_True by done. destruct (Hw id c Hc) as (_ & _ & l & Hl & _).
  destruct policy; unfold mbind, M_bind, updateCallback, updateLead; rewrite ?Hc; cbn; rewrite ?Hl;
    eexists _, l; (split; [reflexivity|]); by split_and!.
Qed.

(** ** Where it falls short *)

(** a snooze that passed its checks commits in whatever state the other requests left:
    if one of them has terminated the callback meanwhile, the snooze makes it PENDING
    again, a move no transition of the state machine allows. *)
Theorem snooze_revives_terminal w now a id at_ s cb w1 c1 :
  wf w → snooze_check now a id at_ w = Ok (cb, w) → rtc step w w1 →
  callbacks w1 !! id = Some c1 → cb_status c1 = DONE ∨ cb_status c1 = DEAD →
  ∃ j w2 c2, snooze_commit now a id at_ s cb w1 = Ok (j, w2) ∧
    callbacks w2 !! id = Some c2 ∧ cb_status c2 = PENDING ∧ cb_callbackAt c2 = at_ ∧
    ¬ rtc legal (cb_status c1) (cb_status c2).
Proof.
  intros Hw Hcheck Hrun Hc1 Ht. unfold snooze_commit.
  erewrite M_bind_eq by (unfold updateCallback; rewrite Hc1; reflexivity).
  unfold mbind, M_bind. cbn. eexists _, _, _. split; [reflexivity|]. cbn.
  rewrite lookup_insert_eq. split; [reflexivity|]. split_and!; [done..|].
  intros Hr%terminal_stays; [|done]. cbn in Hr. destruct Ht as [E|E]; rewrite E in Hr; discriminate Hr.
Qed.

(** A bulk cancellation marks DEAD exactly the open callbacks of the actor's tenant
    among the identifiers given, counts them, and leaves every lead as it was: unlike
    a cancellation, it leaves a lead on hold when no open callback is left for it. *)
Theorem bulk_cancel_outcome w now a ids :
  wf w →
  ∃ n w', bulkCancelCallbacks now a ids w = Ok (n, w') ∧ leads w' = leads w ∧
    (∀ id c, callbacks w !! id = Some c →
       callbacks w' !! id = Some (if decide (id ∈ ids ∧ cb_tenantId c = actor_tenantId a ∧ open_status (cb_status c))
                                  then with_status DEAD c else c)) ∧
    (0 < n ↔ ∃ id c, callbacks w !! id = Some c ∧ id ∈ ids ∧ cb_tenantId c = actor_tenantId a ∧
                     open_status (cb_status c)).
Proof.
  intros Hw.
  set (p c := cb_id c ∈ ids ∧ cb_tenantId c = actor_tenantId a ∧ open_status (cb_status c)).
  assert (Hex : ∃ n w', bulkCancelCallbacks now a ids w = Ok (n, w') ∧ leads w' = leads w ∧
    n = Z.of_nat (size (matching p w)) ∧ callbacks w' = callbacks (update_all p (with_status DEAD) w)).
  { unfold bulkCancelCallbacks, updateManyCallbacks. cbv zeta. eexists _.
    erewrite M_bind_eq by reflexivity. fold p.
    destruct (decide (0 < _)); eexists; (split; [reflexivity|]); by split_and!. }
  destruct Hex as (n & w' & H & Hl & Hn & Hcb). exists n, w'. split_and!; [done|done| |].
  - intros id c Hc. rewrite Hcb. cbn. rewrite lookup_fmap, Hc. cbn. f_equal.
    destruct (Hw id c Hc) as (<- & _). reflexivity.
  - destruct (matching_zero p w) as [Hz1 Hz2]. rewrite <- Hn in Hz1, Hz2. split.
    + intros Hpos. destruct (decide (map_Exists (λ _ c, p c) (callbacks w))) as [(i & c & Hc & Hp)|Hno].
      * exists i, c. destruct (Hw i c Hc) as (<- & _). done.
      * enough (n = 0) by lia. apply Hz2. intros i x Hx Hp. apply Hno. by exists i, x.
    + intros (i & c & Hc & Hp). enough (n ≠ 0) by lia. intros E. apply (Hz1 E i c Hc).
      unfold p. by destruct (Hw i c Hc) as (-> & _).
Qed.

(** A reassignment refuses a user who is inactive or of another tenant; a bulk
    reassignment accepts any user there is, and gives it the callbacks. *)
Theorem bulk_reassign_unchecked w now a id body u us :
  users w !! u = Some us → us_tenantId us ≠ actor_tenantId a ∨ us_active us = false →
  to_user_id body = Some u →
  reassignCallback now a id (Some u) w = Err (HttpError 404 "user_not_found" None) ∧
  ∃ n w', bulkReassignCallbacks now a body w = Ok (n, w') ∧
    ∀ i c, callbacks w !! i = Some c → cb_tenantId c = actor_tenantId a →
      cb_userId c = Some (from_user_id body) → cb_status c = PENDING →
      callbacks w' !! i = Some (with_user (Some u) c).
Proof.
  intros Hu Hbad Hto. split.
  - unfold reassignCallback, mbind, M_bind, gets. cbn. rewrite Hu. rewrite decide_False; [done|].
    destruct Hbad as [Hb|Hb]; rewrite ?Hb; naive_solver.
  - unfold bulkReassignCallbacks. cbv zeta. rewrite Hto. eexists.
    rewrite (M_bind_eq _ _ _ _ _ (assignMany_eq _ u w (mk_is_Some _ _ Hu))).
    destruct (decide (0 < _)); eexists; (split; [reflexivity|]); cbn;
      (intros i c Hc Ht Hf Hs; rewrite lookup_fmap, Hc; cbn; f_equal; apply decide_True;
       split_and!; [done|done|rewrite Hs; destruct (bulk_scope body); by left]).
Qed.

(** ** A concrete system *)

Definition T0 : Z := 1700000000000.

Definition demo_users : gmap Z User :=
  list_to_map [(5, mkUser 1 true); (6, mkUser 1 true); (7, mkUser 1 true); (9, mkUser 2 true)].

Definition demo_lead (t : Z) : Lead := mkLead t "NEW" None None None T0.

Definition demo_world : World :=
  mkWorld ∅ 1 (list_to_map [(100, demo_lead 1); (101, demo_lead 1); (200, demo_lead 2)]) demo_users
    {[ (1, "SALES"%string); (2, "SALES"%string) ]} ∅ [] [] [].

Definition agent5 : Actor := mkActor 5 1 agent.
Definition agent6 : Actor := mkActor 6 1 agent.
Definition boss7 : Actor := mkActor 7 1 supervisor.

(** A callback in [minutes], the agent's own when [own]. *)
Definition in_minutes (lead minutes : Z) (own : bool) : CreateCallbackBody :=
  mkCreate lead "SALES" (T0 + minutes * 60000) own None None.

Definition nobody : Z → Z → option string := λ _ _, None.
Definition fresh_key : Z → bool := λ _, true.

(** Serves the requests one after the other; one that throws changes nothing. *)
Fixpoint run_all (l : list (Z * Request)) (w : World) : World :=
  match l with
  | [] => w
  | (now, r) :: l' => run_all l' (match handle nobody fresh_key now r w with Ok (_, w') => w' | Err _ => w end)
  end.

Definition plain_request (r : Request) : Prop :=
  match r with InboundCreate _ _ _ _ _ _ _ => False | _ => True end.

Lemma run_all_steps l w : Forall (λ p, plain_request p.2) l → rtc step w (run_all l w).
Proof.
  revert w. induction l as [|[now r] l IH]; intros w Hl; [done|]. apply Forall_cons in Hl as [Hr Hl]. cbn.
  destruct (handle nobody fresh_key now r w) as [[[] w1]|e] eqn:E.
  - eapply rtc_l; [|by apply IH]. eapply step_ok; [|exact E]. by destruct r.
  - by apply IH.
Qed.

Lemma demo_wf : wf demo_world.
Proof. intros id c Hc. done. Qed.

Lemma demo_run_wf l : Forall (λ p, plain_request p.2) l → wf (run_all l demo_world).
Proof. intros Hl. eapply run_wf; [exact demo_wf|by apply run_all_steps]. Qed.

(** Agent 5 schedules a callback of its own and one for the campaign, an hour and two
    hours from now; agent 9 of the other tenant schedules one. *)
Definition two_scheduled : list (Z * Request) :=
  [(T0, Create agent5 (in_minutes 100 60 true)); (T0, Create agent5 (in_minutes 101 120 false))].

Definition busy : World := run_all two_scheduled demo_world.

Lemma busy_wf : wf busy.
Proof. apply demo_run_wf. by repeat constructor. Qed.

Example busy_statuses : cb_status <$> callbacks busy = (list_to_map [(1, PENDING); (2, PENDING)] : gmap Z CallbackStatus).
Proof. vm_compute. reflexivity. Qed.

(** The row [id] of [w]; used where it is known to be there. *)
Definition row (w : World) (id : Z) : Callback :=
  default (mkCallback 0 0 0 "" None 0 None DEAD AGENT None None None None 0) (callbacks w !! id).

(** The state after one request. *)
Definition after (now : Z) (r : Request) (w : World) : World :=
  match handle nobody fresh_key now r w with Ok (_, w') => w' | Err _ => w end.

Lemma after_ok now r w :
  is_ok (handle nobody fresh_key now r w) = true → handle nobody fresh_key now r w = Ok ((), after now r w).
Proof. unfold after. by destruct (handle _ _ _ _ _) as [[[] w']|]. Qed.



Lemma agent_authority_witness :
  callbacks (after T0 (Claim agent6 2) busy) !! 2 = Some (with_user (Some 6) (row busy 2)).
Proof.
  destruct (agent_authority nobody fresh_key busy T0 (Claim agent6 2) agent6 () (after T0 (Claim agent6 2) busy)
    busy_wf eq_refl eq_refl) with (id := 2) (c := row busy 2) (c' := row (after T0 (Claim agent6 2) busy) 2)
    as [H|[H|(_ & _ & H)]].
  - apply after_ok. vm_compute. reflexivity.
  - vm_compute. reflexivity.
  - vm_compute. reflexivity.
  - vm_compute in H. discriminate H.
  - vm_compute in H. discriminate H.
  - transitivity (Some (row (after T0 (Claim agent6 2) busy) 2)); [vm_compute; reflexivity|].
    apply f_equal. exact H.
Defined.

(** Agent 6 claims callback 2; agent 5, a moment later, is told by whom. *)
Lemma claim_outcome_witness :
  (∃ j, claimCallback T0 agent6 2 busy = Ok (j, claimed T0 agent6 2 (row busy 2) busy)) ∧
  claimCallback T0 agent5 2 (after T0 (Claim agent6 2) busy) = Err (HttpError 409 "already_claimed" (Some "6"%string)).
Proof.
  split.
  - eexists. rewrite (claim_outcome T0 agent6 2 busy).
    + vm_compute. reflexivity.
    + exact busy_wf.
    + eexists. vm_compute. reflexivity.
  - rewrite (claim_outcome T0 agent5 2 (after T0 (Claim agent6 2) busy)).
    + vm_compute. reflexivity.
    + apply (demo_run_wf (two_scheduled ++ [(T0, Claim agent6 2)])). by repeat constructor.
    + eexists. vm_compute. reflexivity.
Defined.

Lemma cancel_outcome_witness :
  ∃ w' l, cancelCallback T0 agent5 1 busy = Ok ((), w') ∧ callbacks w' = <[1 := with_status DEAD (row busy 1)]> (callbacks busy) ∧
    leads busy !! 100 = Some l ∧ leads w' = <[100 := with_lead_status "NA" T0 l]> (leads busy).
Proof.
  destruct (cancel_outcome busy T0 agent5 1 busy_wf) as [_ H].
  destruct (H (row busy 1)) as (w' & H1 & H2 & _ & H3 & _).
  - split; [vm_compute; reflexivity|]. split; [vm_compute; reflexivity|].
    split; [left; vm_compute; reflexivity|]. right. vm_compute. reflexivity.
  - destruct H3 as (l & Hl & Hl').
    + intros (i & x & Hx & Hne & Hl & _). apply elem_of_map_to_list in Hx.
      assert (E : map_to_list (callbacks busy) = [(2, row busy 2); (1, row busy 1)]) by (vm_compute; reflexivity).
      rewrite E in Hx. apply elem_of_cons in Hx as [Hx|Hx].
      * injection Hx as -> ->. vm_compute in Hl. discriminate Hl.
      * apply list_elem_of_singleton in Hx. injection Hx as -> _. apply Hne. reflexivity.
    + exists w', l. split; [exact H1|]. split; [exact H2|]. split; assumption.
Defined.

Lemma tick_fires_due_witness :
  ∃ w', callbackFireTick nobody (T0 + 7200000) true None 1 busy = Ok (Some (mkTick 2 0 0), w') ∧
    callbacks w' !! 2 = Some (with_status LIVE (row busy 2)).
Proof.
  destruct (tick_fires_due nobody (T0 + 7200000) None 1 busy busy_wf) as (w' & H & Hl & _).
  - vm_compute. discriminate.
  - exists w'. split; [exact H|]. apply (wl_rows _ _ _ Hl (row busy 2)).
    apply list_elem_of_lookup_2 with (i := 1%nat). vm_compute. reflexivity.
Defined.

(** Both callbacks fired, and agent 5 has a second callback for lead 100. *)
Definition two_for_lead : World :=
  run_all (two_scheduled ++ [(T0 + 7200000, FireTick true None 1);
    (T0 + 7200001, Create agent5 (mkCreate 100 "SALES" (T0 + 36000000) true None None))]) demo_world.

Lemma two_for_lead_wf : wf two_for_lead.
Proof. apply demo_run_wf. by repeat constructor. Qed.

(** The hook for the first one still releases the lead. *)
Lemma no_answer_outcome_witness :
  held_by_other two_for_lead 1 (row two_for_lead 1) ∧
  ∃ w', onNoAnswer (T0 + 7200002) 1 1 terminate_NA two_for_lead = Ok ((), w') ∧
    ld_status <$> leads w' !! 100 = Some "NA"%string.
Proof.
  split.
  - exists 3, (row two_for_lead 3). split; [vm_compute; reflexivity|]. split; [discriminate|].
    split; [vm_compute; reflexivity|]. left. vm_compute. reflexivity.
  - assert (Hrow : callbacks two_for_lead !! 1 = Some (row two_for_lead 1)) by (vm_compute; reflexivity).
    pose proof (no_answer_outcome two_for_lead (T0 + 7200002) 1 1 terminate_NA two_for_lead_wf) as H.
    rewrite Hrow in H. rewrite decide_True in H by (split; vm_compute; reflexivity).
    destruct H as (w' & l & H & _ & _ & Hl). exists w'. split; [exact H|]. rewrite Hl. vm_compute. reflexivity.
Defined.

(** Agent 5's snooze has passed its checks when the supervisor cancels the callback. *)
Lemma snooze_revives_terminal_witness :
  let w1 := after T0 (Cancel boss7 1) busy in
  cb_status (row w1 1) = DEAD ∧
  ∃ j w2 c2, snooze_commit T0 agent5 1 (T0 + 9000000) None (row busy 1) w1 = Ok (j, w2) ∧
    callbacks w2 !! 1 = Some c2 ∧ cb_status c2 = PENDING.
Proof.
  cbv zeta. split; [vm_compute; reflexivity|].
  destruct (snooze_revives_terminal busy T0 agent5 1 (T0 + 9000000) None (row busy 1)
    (after T0 (Cancel boss7 1) busy) (row (after T0 (Cancel boss7 1) busy) 1)) as (j & w2 & c2 & H1 & H2 & H3 & _).
  - exact busy_wf.
  - vm_compute. reflexivity.
  - apply rtc_once. apply (step_ok _ nobody fresh_key T0 (Cancel boss7 1) ()); [exact I|].
    apply after_ok. vm_compute. reflexivity.
  - vm_compute. reflexivity.
  - right. vm_compute. reflexivity.
  - exists j, w2, c2. split; [exact H1|]. split; assumption.
Defined.

Lemma bulk_cancel_outcome_witness :
  ∃ n w', bulkCancelCallbacks T0 boss7 [1; 2] busy = Ok (n, w') ∧ 0 < n ∧
    callbacks w' !! 1 = Some (with_status DEAD (row busy 1)) ∧ leads w' = leads busy ∧
    ld_status <$> leads busy !! 100 = Some "CBHOLD"%string.
Proof.
  destruct (bulk_cancel_outcome busy T0 boss7 [1; 2] busy_wf) as (n & w' & H & Hl & Hrow & Hn).
  exists n, w'. split; [exact H|].
  assert (H1 : callbacks busy !! 1 = Some (row busy 1)) by (vm_compute; reflexivity).
  assert (Ho : open_status (cb_status (row busy 1))) by (left; vm_compute; reflexivity).
  split; [|split; [|split]].
  - apply Hn. exists 1, (row busy 1). split; [exact H1|]. split; [left|]. split; [vm_compute; reflexivity|exact Ho].
  - rewrite (Hrow 1 (row busy 1) H1). apply f_equal, decide_True. split; [left|].
    split; [vm_compute; reflexivity|exact Ho].
  - exact Hl.
  - vm_compute. reflexivity.
Defined.

(** The supervisor of tenant 1 gives agent 5's callbacks to a user of tenant 2. *)
Lemma bulk_reassign_unchecked_witness :
  ∃ n w', bulkReassignCallbacks T0 boss7 (mkBulk 5 (Some 9) scope_pending) busy = Ok (n, w') ∧
    callbacks w' !! 1 = Some (with_user (Some 9) (row busy 1)).
Proof.
  destruct (bulk_reassign_unchecked busy T0 boss7 1 (mkBulk 5 (Some 9) scope_pending) 9 (mkUser 2 true))
    as (_ & n & w' & H & Hrow).
  - vm_compute. reflexivity.
  - left. vm_compute. discriminate.
  - reflexivity.
  - exists n, w'. split; [exact H|]. apply Hrow; vm_compute; reflexivity.
Defined.

(** Agent 5 with two callbacks, the one due first created first. *)
Definition two_mine : World :=
  run_all [(T0, Create agent5 (in_minutes 100 60 true)); (T0, Create agent5 (in_minutes 101 120 true))] demo_world.

(** Following the cursors of an agent's list loses callbacks: the pages are ordered by
    due time but the cursor keeps smaller identifiers, so with one callback per page the
    first page shows the callback due first, and the page its cursor leads to is empty
    though the agent has another open callback. *)
Theorem listMine_cursor_skips :
  ∃ w actor c1 c2, wf w ∧
    listMineCallbacks actor None 1 w = Ok (([c1], Some (zs (cb_id c1))), w) ∧
    listMineCallbacks actor (Some (cb_id c1)) 1 w = Ok (([], None), w) ∧
    c2 ≠ c1 ∧ (∃ id, callbacks w !! id = Some c2) ∧ open_status (cb_status c2) ∧
    cb_tenantId c2 = actor_tenantId actor ∧ cb_userId c2 = Some (uid actor).
Proof.
  exists two_mine, agent5, (row two_mine 1), (row two_mine 2).
  split; [apply demo_run_wf; by repeat constructor|].
  split; [vm_compute; reflexivity|]. split; [vm_compute; reflexivity|].
  split; [intros E; apply (f_equal cb_id) in E; vm_compute in E; discriminate E|].
  split; [exists 2; vm_compute; reflexivity|]. split; [left; vm_compute; reflexivity|].
  split; vm_compute; reflexivity.
Qed.
